(* ===== verification/_CoqProject ===== *)
-Q . S2P
Prelude.v
Text.v
Shared.v
Service.v
JsNumber.v
NumberText.v
Signature.v
Cache.v
Pagination.v
OpenPayments.v
Accounting.v
PsqlLedger.v
PsqlAccounting.v
Fee.v
Rates.v
Tenants.v
TenantSpecs.v
Assets.v
AssetSpecs.v
AssetExamples.v
Webhook.v
PaymentMethod.v
LocalPayment.v
IlpPayment.v
IlpPacket.v
TokenBucket.v
Routing.v
Peers.v
PeerSpecs.v
Quote.v
Limits.v
OutgoingPayment.v
OutgoingWorker.v
OutgoingSpecs.v
OutgoingWorkerSpecs.v
OutgoingHistory.v
IncomingPayment.v
IncomingSpecs.v
IncomingHistory.v
IncomingWorker.v
IncomingExamples.v
WalletAddresses.v
WalletSpecs.v
Connector.v
ConnectorSpecs.v
ConnectorExamples.v
ConnectorPeers.v
AuthAccess.v
AuthServer.v
AuthRoutes.v
AuthSpecs.v
TenantMirror.v
TenantExamples.v
WalletExamples.v
AuthHistory.v
AuthExamples.v
OpenPaymentsAuth.v
OutgoingRoutes.v
Idempotency.v
IdempotencySpecs.v
IdempotencyExamples.v
RemoteGrants.v
RemoteSpecs.v
Receivers.v
ReceiverSpecs.v
RemoteExamples.v
Liquidity.v
LiquiditySpecs.v
LiquidityExamples.v
CardService.v
CardSpecs.v
PointOfSale.v
PosSpecs.v
IncomingRoutes.v
IncomingRouteSpecs.v
AutoPeering.v
AutoPeeringSpecs.v
PaymentExamples.v
