(* ===== verification/Prelude.v ===== *)
(** * A verification of Rafiki: accounts, payments, grants

    The repository holds Rafiki (TypeScript, [src/rafiki/packages]), an Interledger
    wallet backend with its authorization server and the services of a point of sale
    and of cards; a separate implementation of Interledger in Rust; and Solidity
    contracts.  This library models the part of Rafiki that moves money and decides who
    may: [backend/src], the backend, and [auth/src], the authorization server.

    ** The parts, their files and the code they model

    _Foundations._
    - [Prelude]: outcomes of [async] functions, the state and error monad [M], JavaScript
      truthiness, sums over and updates of the rows of a table, tactics and hints.
    - [Service]: the state of a service ([Svc D X]: its tables [db], the clock [now], the
      supply [fresh] of identifiers, and [ext], the state of the services it calls),
      transactions, and weakest preconditions ([wp], [wp_auto]).
    - [Shared] ([shared/utils.ts]): identifiers of the package uuid, as a class with laws.
    - [JsNumber]: JavaScript numbers as IEEE doubles and their meeting points with bigint;
      [NumberText]: the number a text is, [Number(s)].
    - [Text]: [String.split], the decimal text of a bigint and its reading back, and amounts
      as JSON ([open_payments/amount.ts]).
    - [Cache] ([middleware/cache/data-stores/in-memory.ts]), [Pagination]
      ([shared/baseModel.ts], [shared/pagination.ts]).

    _Accounting._ [Accounting] ([accounting/service.ts]) is the contract of an accounting
    service and its core that turns a payment between accounts into ledger transfers.
    [PsqlLedger] ([accounting/psql/{balance,ledger-account,ledger-transfer}]) is the
    double-entry ledger with two-phase transfers, and [PsqlAccounting]
    ([accounting/psql/service.ts]) implements the contract on it: balances are never
    overdrawn ([no_overdraft]), a transfer settles once, books balance, and creating and
    posting a transfer is the atomic transfer of its amounts, whatever the callbacks do.

    _Tenants, assets, wallet addresses._ [Tenants] ([tenants], [tenants/settings]) keeps the
    tenants and their settings, and [TenantSpecs] says that settings stay valid and unique;
    [TenantMirror] puts it together with the tenants of the authorization server
    ([auth-service-client/client.ts] over [AuthRoutes]): on what the two agree when requests
    between them are lost ([tenants_agree]).
    [Assets] ([asset]) with [AssetSpecs]: rows are well formed, have accounts
    ([assets_sound]), and are what the cache answers ([getAsset_reads_table]).
    [WalletAddresses] ([open_payments/wallet_address/{model,service}.ts], [key/service.ts])
    with [WalletSpecs]: what was received is announced exactly
    ([announced_within_received]).  [TenantExamples], [AssetExamples] and [WalletExamples]
    are histories of them.

    _Prices._ [Fee] ([fee]), [Rates] ([rates]), [PaymentMethod]
    ([payment-method/handler]) with the contract [sound_quote] of a payment method,
    [LocalPayment] ([payment-method/local]), an implementation of it that pays through an
    [AccountingService], and [Quote] ([open_payments/quote]), its client: what a quote
    promises to debit and to deliver.

    _Interledger._ [IlpPayment] ([payment-method/ilp/service.ts], its quote details and the
    rates it gives the library) is the payment method that quotes by probing the path and
    pays a quote at the rates that were stored.  [IlpPacket] ([connector/core/lib/ilp.ts] and
    the packets of [middleware/ilp-packet.ts]), [TokenBucket] ([core/utils/token-bucket.ts])
    and [Connector] (the other middlewares, the controllers, their composition in
    [connector/index.ts], the entry points in [core/rafiki.ts]) are the pipeline a packet
    goes through: a middleware is a function of the rest of the pipeline on the mutable
    context of the request.  [ConnectorSpecs] says what each does around the rest of the
    pipeline and composes them: a packet that is fulfilled was paid, what is forwarded is
    the packet at its rate and with its time reduced, and what fails without an answer.
    [ConnectorExamples] runs packets through a connector on the Postgres ledger.
    [Routing] ([payment-method/ilp/connector/ilp-routing]) is the table of prefixes,
    [Peers] ([payment-method/ilp/{peer,peer-http-token}]) the service that keeps the peers,
    their tokens, their liquidity accounts and that table; [PeerSpecs] says what its
    operations do to the four, and [ConnectorPeers] that it is the lookup of peers the
    connector was proved against.

    _Outgoing payments._ [Limits] ([outgoing/limits.ts]) finds the interval of a grant;
    [OutgoingPayment] ([outgoing/{model,service,errors}.ts]) and [OutgoingWorker]
    ([outgoing/{lifecycle,worker}.ts]) are the operations; [OutgoingSpecs] and
    [OutgoingWorkerSpecs] say what each does on every path; [OutgoingHistory] composes
    them as steps in any order: the state machine of a payment, bounded retries, and the
    limit of a grant.

    _Incoming payments._ [IncomingPayment] ([open_payments/payment/incoming],
    [poll] of [shared/utils.ts]), [IncomingSpecs], [IncomingHistory] (the state machine, the
    approval, one announcement of what was received), [IncomingWorker] (the worker comes to
    an end with nothing due) and [IncomingExamples].  [Webhook] ([webhook]) delivers the
    events both kinds of payments write.

    _Requests and grants._ [Signature] ([shared/utils.ts], [auth/src/signature/tenant.ts], the
    writers in [point-of-sale] and [card-service]) is the signature of admin requests and
    webhooks.  [AuthAccess] ([auth/src/access], [grant/utils.ts]) says what a client may ask
    and what a grant gives; [AuthServer] holds the tables and services of the authorization
    server, [AuthRoutes] its requests, [AuthSpecs] the effect of each, [AuthHistory] what
    holds over all histories: no token without consent, revocation is final,
    introspection and rotation are what they promise.  [AuthExamples] is one history.

    _Open Payments._ [OpenPaymentsAuth] ([open_payments/auth/middleware.ts]) authenticates a
    request by its token, which the authorization server introspects, and its signature;
    [OutgoingRoutes] ([outgoing/routes.ts] behind the middlewares of [app.ts]) creates and
    reads outgoing payments, and composes the two servers: no payment without consent.
    [PaymentExamples] goes from the request for a grant to the payment.  [IncomingRoutes]
    ([incoming/routes.ts], [listSubresource]) creates, reads, lists and completes incoming
    payments; [IncomingRouteSpecs]: each needs a grant for it
    ([incoming_requests_need_grant]).

    _Other nodes._ [RemoteGrants] ([open_payments/{grant,authServer}],
    [payment/incoming_remote]) keeps grants at the authorization servers of other nodes and
    asks for incoming payments under them; [RemoteSpecs]: what is asked is asked under a grant
    for it ([remote_payment_under_grant]).  [Receivers] ([open_payments/receiver],
    [payment-method/provider]) finds what a payment is made to by its URL, here or there;
    [ReceiverSpecs]: the URL of a payment is read as that payment
    ([receiver_reads_payment]).  [RemoteExamples] are histories of both.

    [AutoPeering] ([ilp/auto-peering]) makes two nodes peers of each other over the operations
    of [Peers]; [AutoPeeringSpecs] composes two nodes, of which one posts to the route of the
    other: after a peering that succeeds each has a row that its packets to the other may go
    to, and the tokens of the two rows match ([peering_is_mutual]).

    _Idempotency._ [Idempotency] ([middleware/{lock,cache,tenant}], [graphql/middleware]) is what
    a mutation with an idempotency key goes through, as a program of commands to Redis, and
    every interleaving of such programs; [IdempotencySpecs] proves that the mutation runs
    once unless its result was not stored ([mutations_run_once]); [IdempotencyExamples] interleaves requests.

    _Liquidity._ [Liquidity] ([graphql/resolvers/liquidity.ts]) are the deposits and withdrawals
    that are asked for over GraphQL; [LiquiditySpecs] puts them on the Postgres ledger: an
    answer of success is one transfer, made once, but for a refused deposit to a peer ([liquidity_moved_once]).
    [LiquidityExamples] are requests of two tenants.

    _Cards and terminals._ [CardService] ([card-service/src/payment]) and [PointOfSale]
    ([point-of-sale/src]) are requests that wait for webhooks, as machines of which every
    [await] is a state: [CardSpecs] and [PosSpecs] say over all interleavings that a card
    payment is answered by an event for it ([card_answers_events]) and that a terminal
    approves what was paid ([approved_is_paid]), with the histories where events are lost.

    The components meet where the code has them meet: [Quote] and [OutgoingPayment] are
    proved against any payment method with [sound_quote], which [LocalPayment]
    and [IlpPayment] discharge; [LocalPayment] and the [Connector] call any [AccountingService], which [PsqlAccounting]
    implements; the [Connector] finds its peers through any [PeerLookup], which [Peers]
    is by [ConnectorPeers]; [IlpPayment] sends its packets into [Connector.handleIlpData]; payments write events that [Webhook] delivers; the introspection client of
    [OpenPaymentsAuth] answers what [AuthRoutes.introspectToken] answers.

    ** How the code is modelled

    - An [async] function is a computation [M S A]; [await] is [let!], [throw] is
      [throw], and the result enums of the services are [res] with [let?].  A component's
      state is its tables as lists of rows in the order they were inserted; [UPDATE] is
      [update_where], [SELECT ... LIMIT 1] without an order is a choice [pick] of which only
      soundness is assumed.
    - Transactions are serial and one operation runs at a time; what interleaves is
      whole operations, in any order and number.  A transaction that throws restores the
      service's own tables, and nothing of what it asked of other services.
    - The clock does not advance inside an operation; between operations any time passes
      and the other services do anything.
    - Money is [Z] where the code has [bigint] and the columns of the database bound it
      where they do; a JavaScript number is a double.  Dates are milliseconds.
    - An update through an ORM instance changes the row and the instance; a deleted
      tenant keeps its row; rows that reference a row are there as long as it is.
    - A service, a library or a platform function whose source is not here is a parameter:
      HTTP and wallet addresses, HMAC and hashes, canonical JSON, Redis, URLs, luxon, powers
      of ten, uuids and random tokens.  The laws that are assumed of it are classes or
      section hypotheses ([UuidLaws], [RandomLaws], [RedisLaws], [LuxonLaws], ...) and each is
      met by a concrete instance in a witness.
    - Loops that are not structural take fuel: the search of a grant's interval
      ([Limits.getInterval]: a fuel that is enough is given for every interval that moves
      the date), the poll for an approval (the rounds follow from the timeout and the
      frequency), the worker (the number of runs is bounded by what is due).
    - Logging and telemetry have no effect on the state and are left out.

    ** What the theorems say

    Safety of money: [no_overdraft], [double_entry], [transfers_settle_once],
    [grant_limit_respected], [trySending_pays_within_quote], [fulfilled_is_paid],
    [forwards_only_allowed], [forwards_to_other_peers], [peer_is_charged],
    [announced_within_received], [mutations_run_once], [remote_payment_under_grant],
    [peering_is_mutual],
    [liquidity_moved_once], [card_answers_events], [approved_is_paid].  State machines:
    [outgoing_payment_state_machine], [incoming_payment_state_machine],
    [sending_attempts_bounded], [withdrawal_announced_once].  Refinement:
    [createTransfer_settles], [local_pay_settles], [ilp_getQuote_effect].  What an operation does on every path:
    the theorems named [..._effect] and [..._settles]; [connector_replies].  Authorization:
    [payment_needs_consent], [incoming_requests_need_grant], [tokens_need_consent],
    [revocation_is_final], [introspect_sound], [rotate_effect],
    [access_limits_exclusive], [tenants_agree].  Tables: [assets_sound],
    [tenant_settings_sound], [getAsset_reads_table].  Routes: [getNextHop_longest_prefix], [createPeer_effect],
    [peers_are_routed].  Progress and termination:
    [incoming_worker_drains], [getInterval_returns].  Round trips and equivalence:
    [signature_roundtrip], [ilp_quote_is_paid], [receiver_reads_payment],
    [pagination_walk_complete].  Widths:
    [packet_rewritten].  A theorem
    with hypotheses has a witness, a concrete history or input where they hold.  Lemmas of
    the modules named [Example] show where the code does not do what it means to.

    ** Not modelled

    - The library that streams payments ([@interledger/pay]), the STREAM and ILDCP servers and
      the encoding of packets: third-party, parameters of [IlpPayment] and [Connector].
      What a late answer of a peer does to a response that was already made; the
      middlewares no pipeline contains.
    - SPSP: requests over HTTP around the STREAM library.
    - TigerBeetle accounting: a client of a database that does the accounting.
    - The routes of quotes and wallet addresses: they translate requests to the services and
      format their answers.  The listing of payments at a terminal.
    - The other GraphQL resolvers, configuration, servers and the frontend: they translate
      and wire.
    - Paged listings and row locks of the authorization server, and the HTTP message
      signatures of clients, which a third-party library makes and checks.
    - The Rust and Solidity parts of the repository.

    ** This file

    - [outcome]: what an [async] TypeScript function settles to, a value or a
      thrown exception;
    - [M S A]: an [async] function that reads and writes a state [S] (database
      rows, clock, supply of identifiers); [let!] is [await], [throw] is
      [throw], [try_catch] is [try { } catch { }];
    - [res E A]: the "value or error enum" results of the services, with
      [let?] for the early return [if (isError(x)) return x];
    - preservation of a state predicate by a computation ([keeps]), with the
      hint database [keeps] that walks a computation structurally;
    - sums over the rows of a table ([sum_where]) and updates of the row with
      a given key ([update_where]). *)

From Stdlib Require Export ZArith Lia.
From stdpp Require Export prelude gmap strings sorting.

Declare Scope ts_scope.
Delimit Scope ts_scope with ts.

(** ** Exceptions

    What the code throws and tells apart when it catches: an [Error] of a class
    ([name]) with a message; a [PaymentMethodHandlerError] with the fields the
    callers read; a [QuoteError] with its type and the minimum send amount of its
    details; the errors of the authorization server with their codes; an error of an
    Open Payments route, without its details; a database
    error with the name of the violated constraint; or a bare string (the string
    enums are thrown as they are). *)

(** [open_payments/quote/errors.ts] *)
Module QuoteErrorCode.
Inductive t :=
| UnknownWalletAddress
| InvalidAmount
| InvalidReceiver
| InactiveWalletAddress
| NonPositiveReceiveAmount.
End QuoteErrorCode.

(** [payment-method/handler/errors.ts] *)
Inductive PaymentMethodHandlerErrorCode := QuoteNonPositiveReceiveAmount.

(** [shared/gnapErrors.ts] of the authorization server *)
Module GNAPErrorCode.
Inductive t :=
| InvalidRequest
| InvalidClient
| InvalidInteraction
| InvalidRotation
| InvalidContinuation
| UserDenied
| RequestDenied
| UnknownInteraction
| TooFast.
End GNAPErrorCode.

(** [grant/errors.ts] of the authorization server *)
Module GrantErrorCode.
Inductive t :=
| InvalidRequest
| OnlyOneAccessAmountAllowed.
End GrantErrorCode.

(** An amount of an asset, [open_payments/amount.ts]. *)
Record Amount := { value : Z; assetCode : string; assetScale : Z }.

Inductive exn : Type :=
| JsError (name message : string)
| PaymentMethodHandlerError (message : string) (retryable : option bool)
    (code : option PaymentMethodHandlerErrorCode) (minSendAmount : option Z)
| QuoteError (type : QuoteErrorCode.t) (minSendAmount : option Amount)
| GrantError (code : GrantErrorCode.t) (message : string)
| GNAPServerRouteError (status : Z) (code : GNAPErrorCode.t) (message : string)
| OpenPaymentsServerRouteError (status : Z) (message : string)
| UniqueViolationError (constraint : string)
| ForeignKeyViolationError (constraint : string)
| ThrownString (s : string).

(** ** Outcomes and the stateful error monad *)

Inductive outcome (A : Type) : Type :=
| Ret (a : A)
| Throw (error : exn).
Arguments Ret {A} a.
Arguments Throw {A} error.

Definition M (S A : Type) : Type := S -> outcome A * S.

Definition ret {S A} (a : A) : M S A := fun s => (Ret a, s).

Definition throw {S A} (error : exn) : M S A := fun s => (Throw error, s).

(** [throw new Error(message)] *)
Definition throw_error {S A} (message : string) : M S A := throw (JsError "Error" message).

Definition bind {S A B} (m : M S A) (k : A -> M S B) : M S B :=
  fun s => match m s with
           | (Ret a, s') => k a s'
           | (Throw e, s') => (Throw e, s')
           end.

Definition get {S} : M S S := fun s => (Ret s, s).

Definition gets {S A} (f : S -> A) : M S A := fun s => (Ret (f s), s).

Definition modify {S} (f : S -> S) : M S unit := fun s => (Ret tt, f s).

Definition try_catch {S A} (m : M S A) (h : exn -> M S A) : M S A :=
  fun s => match m s with
           | (Ret a, s') => (Ret a, s')
           | (Throw e, s') => h e s'
           end.

(** [try { m } finally { f }]: [f] runs in any case, and what it throws wins. *)
Definition finally {S A} (m : M S A) (f : M S unit) : M S A :=
  fun s => let '(r, s') := m s in
           match f s' with
           | (Ret _, s'') => (r, s'')
           | (Throw e, s'') => (Throw e, s'')
           end.

(** [withTransaction restore m]: objection's [transaction(async trx => m)], a
    thrown exception undoes the writes ([restore before after]). *)
Definition with_transaction {S A} (restore : S -> S -> S) (m : M S A) : M S A :=
  fun s => match m s with
           | (Ret a, s') => (Ret a, s')
           | (Throw e, s') => (Throw e, restore s s')
           end.

Notation "'let!' x ':=' m 'in' k" := (bind m (fun x => k))
  (at level 10, x name, m at level 100, k at level 200) : ts_scope.
Notation "'let!' ' p ':=' m 'in' k" :=
  (bind m (fun x => match x with p => k end))
  (at level 10, p pattern, m at level 100, k at level 200) : ts_scope.
Notation "m ';;!' k" := (bind m (fun _ => k))
  (at level 195, right associativity) : ts_scope.

Lemma bind_same {S A B} (m : M S A) (k k' : A -> M S B) (s : S) :
  (forall a s', m s = (Ret a, s') -> k a s' = k' a s') -> bind m k s = bind m k' s.
Proof. unfold bind. intros Hk. destruct (m s) as [[a|e] s']; [by apply Hk|done]. Qed.

Fixpoint mapM {S A B} (f : A -> M S B) (l : list A) : M S (list B) :=
  match l with
  | [] => ret []
  | x :: l => bind (f x) (fun y => bind (mapM f l) (fun ys => ret (y :: ys)))
  end.

(** ** Results: a value or an error of the service's enum *)

Inductive res (E A : Type) : Type :=
| Ok (a : A)
| Err (e : E).
Arguments Ok {E A} a.
Arguments Err {E A} e.

Definition res_bind {E A B} (r : res E A) (k : A -> res E B) : res E B :=
  match r with Ok a => k a | Err e => Err e end.

Notation "'let?' x ':=' r 'in' k" := (res_bind r (fun x => k))
  (at level 10, x name, r at level 100, k at level 200) : ts_scope.

(** ** JavaScript truthiness of the values the services test *)

Class Truthy (A : Type) := truthy : A -> bool.
#[global] Instance truthy_Z : Truthy Z := fun z => negb (z =? 0)%Z.
#[global] Instance truthy_string : Truthy string := fun s => negb (bool_decide (s = ""%string)).
#[global] Instance truthy_bool : Truthy bool := fun b => b.
#[global] Instance truthy_option {A} `{Truthy A} : Truthy (option A) :=
  fun o => match o with Some a => truthy a | None => false end.

Lemma truthy_Some_pos (z : Z) : (0 < z)%Z -> truthy (Some z) = true.
Proof. intros Hz. cbv [truthy truthy_option truthy_Z]. by destruct (Z.eqb_spec z 0); [lia|]. Qed.

Lemma truthy_Some_string (s : string) : truthy (Some s) = true <-> s <> ""%string.
Proof.
  change (truthy (Some s)) with (negb (bool_decide (s = ""%string))).
  by rewrite negb_true_iff, bool_decide_eq_false.
Qed.

Definition is_some {A} (o : option A) : bool := match o with Some _ => true | None => false end.

Lemma is_some_Some {A} (o : option A) : is_some o = true -> exists a, o = Some a.
Proof. destruct o as [a|]; [eauto|done]. Qed.

(** ** Preservation of a state predicate *)

Definition keeps {S A} (I : S -> Prop) (m : M S A) : Prop := forall s, I s -> I (m s).2.

Create HintDb keeps discriminated.
#[export] Hint Constants Opaque : keeps.

Section Keeps.
Context {S : Type} (I : S -> Prop).

Lemma keeps_ret {A} (a : A) : keeps I (ret a).
Proof. by intros s. Qed.

Lemma keeps_throw {A} e : keeps I (@throw S A e).
Proof. by intros s. Qed.

Lemma keeps_throw_error {A} e : keeps I (@throw_error S A e).
Proof. by intros s. Qed.

Lemma keeps_get : keeps I get.
Proof. by intros s. Qed.

Lemma keeps_gets {A} (f : S -> A) : keeps I (gets f).
Proof. by intros s. Qed.

Lemma keeps_modify f : (forall s, I s -> I (f s)) -> keeps I (modify f).
Proof. intros H s Hs. by apply H. Qed.

Lemma keeps_bind {A B} (m : M S A) (k : A -> M S B) :
  keeps I m -> (forall a, keeps I (k a)) -> keeps I (bind m k).
Proof.
  intros Hm Hk s Hs. unfold bind. specialize (Hm s Hs).
  destruct (m s) as [[a|e] s']; simpl in *; [by apply Hk|done].
Qed.

Lemma keeps_try_catch {A} (m : M S A) h :
  keeps I m -> (forall e, keeps I (h e)) -> keeps I (try_catch m h).
Proof.
  intros Hm Hh s Hs. unfold try_catch. specialize (Hm s Hs).
  destruct (m s) as [[a|e] s']; simpl in *; [done|by apply Hh].
Qed.

Lemma keeps_mapM {A B} (f : A -> M S B) l :
  (forall x, keeps I (f x)) -> keeps I (mapM f l).
Proof.
  intros Hf. induction l as [|x l IH]; simpl; [apply keeps_ret|].
  apply keeps_bind; [done|]. intros y. apply keeps_bind; [done|].
  intros ys. apply keeps_ret.
Qed.
End Keeps.
#[export] Hint Resolve keeps_ret keeps_throw keeps_throw_error keeps_get keeps_gets keeps_mapM : keeps.

(** Walks a computation: binds, handlers, and the conditionals in between. *)
Ltac keeps_step :=
  match goal with
  | |- forall _, _ => intros
  | |- keeps _ (bind _ _) => apply keeps_bind
  | |- keeps _ (try_catch _ _) => apply keeps_try_catch
  | |- keeps _ (if ?b then _ else _) => destruct b eqn:?
  | |- keeps _ (match ?x with _ => _ end) => destruct x eqn:?
  | |- keeps _ _ => solve [eauto with keeps]
  end.
Ltac keeps_auto := repeat keeps_step.

(** ** Generic tactics *)

(** Case on the scrutinee of the first [match] of the goal or of [H]. *)
Ltac case_in H :=
  match type of H with
  | context [match ?x with _ => _ end] =>
      lazymatch x with
      | context [match _ with _ => _ end] => fail
      | _ => destruct x eqn:?
      end
  end.
Ltac split_ifs_in H := repeat (case_in H; simplify_eq).

Ltac split_ifs :=
  repeat match goal with
         | |- context [match ?x with _ => _ end] =>
             lazymatch x with
             | context [match _ with _ => _ end] => fail
             | _ => destruct x eqn:?
             end
         end.

(** Turns boolean tests of integers into propositions. *)
Ltac zbool :=
  repeat match goal with
         | H : (_ && _)%bool = true |- _ => apply andb_true_iff in H as [? ?]
         | H : (_ || _)%bool = false |- _ => apply orb_false_iff in H as [? ?]
         | H : negb _ = true |- _ => apply negb_true_iff in H
         | H : negb _ = false |- _ => apply negb_false_iff in H
         | H : (_ <=? _)%Z = true |- _ => apply Z.leb_le in H
         | H : (_ <=? _)%Z = false |- _ => apply Z.leb_gt in H
         | H : (_ <? _)%Z = true |- _ => apply Z.ltb_lt in H
         | H : (_ <? _)%Z = false |- _ => apply Z.ltb_ge in H
         | H : (_ =? _)%Z = true |- _ => apply Z.eqb_eq in H
         | H : (_ =? _)%Z = false |- _ => apply Z.eqb_neq in H
         | H : bool_decide _ = true |- _ => apply bool_decide_eq_true in H
         | H : bool_decide _ = false |- _ => apply bool_decide_eq_false in H
         end.

(** ** Tables: sums over rows, rows by key *)

Section Tables.
Context {A : Type}.

Definition sum_where (p : A -> bool) (f : A -> Z) (l : list A) : Z :=
  foldr (fun x acc => ((if p x then f x else 0) + acc)%Z) 0%Z l.

Lemma sum_where_cons p f x l :
  sum_where p f (x :: l) = ((if p x then f x else 0) + sum_where p f l)%Z.
Proof. done. Qed.

Lemma sum_where_app p f l1 l2 :
  sum_where p f (l1 ++ l2) = (sum_where p f l1 + sum_where p f l2)%Z.
Proof. induction l1 as [|x l1 IH]; simpl; [done|]. rewrite IH. lia. Qed.

Lemma sum_where_ext (p q : A -> bool) (f g : A -> Z) l :
  (forall x, x ∈ l -> (if p x then f x else 0) = (if q x then g x else 0))%Z ->
  sum_where p f l = sum_where q g l.
Proof.
  induction l as [|x l IH]; intros H; simpl; [done|].
  rewrite (H x) by set_solver. f_equal. apply IH. intros y Hy. apply H. set_solver.
Qed.

Lemma sum_where_le (p q : A -> bool) (f g : A -> Z) l :
  (forall x, x ∈ l -> (if p x then f x else 0) <= (if q x then g x else 0))%Z ->
  (sum_where p f l <= sum_where q g l)%Z.
Proof.
  induction l as [|x l IH]; intros H; simpl; [done|].
  pose proof (H x ltac:(set_solver)).
  assert (sum_where p f l <= sum_where q g l)%Z
    by (apply IH; intros y Hy; apply H; set_solver).
  lia.
Qed.

Lemma sum_where_nonneg p f l :
  (forall x, x ∈ l -> 0 <= f x)%Z -> (0 <= sum_where p f l)%Z.
Proof.
  induction l as [|x l IH]; intros H; simpl; [done|].
  pose proof (H x ltac:(set_solver)).
  assert (0 <= sum_where p f l)%Z by (apply IH; intros y Hy; apply H; set_solver).
  destruct (p x); lia.
Qed.

Lemma sum_where_add p f g l :
  sum_where p (fun x => f x + g x)%Z l = (sum_where p f l + sum_where p g l)%Z.
Proof.
  induction l as [|x l IH]; [done|]. rewrite !sum_where_cons, IH. destruct (p x); lia.
Qed.

Lemma sum_where_zero p l : sum_where p (fun _ => 0%Z) l = 0%Z.
Proof. induction l as [|x l IH]; [done|]. rewrite sum_where_cons, IH. by destruct (p x). Qed.

(** Only one row matters. *)
Lemma sum_where_single (p : A -> bool) f l x :
  NoDup l -> x ∈ l -> (forall y, y ∈ l -> y <> x -> f y = 0%Z) ->
  sum_where p f l = (if p x then f x else 0)%Z.
Proof.
  induction l as [|y l IH]; intros Hnd Hx Hf; [set_solver|].
  apply NoDup_cons in Hnd as [Hy Hnd]. rewrite sum_where_cons.
  apply elem_of_cons in Hx as [->|Hx].
  - rewrite (sum_where_ext p p f (fun _ => 0%Z)), sum_where_zero; [lia|].
    intros z Hz. rewrite Hf; [done|set_solver|]. by intros ->.
  - rewrite IH by (set_solver || (intros; apply Hf; set_solver)).
    rewrite (Hf y) by set_solver. destruct (p y); lia.
Qed.

(** [UPDATE ... WHERE key]: every row that satisfies [p] is rewritten. *)
Definition update_where (p : A -> bool) (f : A -> A) (l : list A) : list A :=
  map (fun x => if p x then f x else x) l.

Lemma update_where_elem (p : A -> bool) f l y :
  y ∈ update_where p f l <-> exists x, x ∈ l /\ y = (if p x then f x else x).
Proof.
  unfold update_where. rewrite list_elem_of_fmap. split; intros (x & ? & ?); eauto.
Qed.

Lemma update_where_length p f l : length (update_where p f l) = length l.
Proof. apply length_map. Qed.

(** [SELECT ... WHERE p LIMIT 1]. *)
Definition find_where (p : A -> bool) (l : list A) : option A := List.find p l.

Lemma find_where_Some p l x : find_where p l = Some x -> x ∈ l /\ p x = true.
Proof. intros H%List.find_some. by rewrite list_elem_of_In. Qed.

Lemma find_where_None p l x : find_where p l = None -> x ∈ l -> p x = false.
Proof. intros H Hx. eapply List.find_none; [done|]. by apply list_elem_of_In. Qed.

Lemma find_where_app_l p l1 l2 x :
  find_where p l1 = Some x -> find_where p (l1 ++ l2) = Some x.
Proof.
  unfold find_where. induction l1 as [|y l1 IH]; simpl; [done|]. by destruct (p y).
Qed.

Lemma find_where_app_r p l1 l2 :
  find_where p l1 = None -> find_where p (l1 ++ l2) = find_where p l2.
Proof.
  unfold find_where. induction l1 as [|y l1 IH]; simpl; [done|]. by destruct (p y).
Qed.

Lemma elem_of_filter_bool (p : A -> bool) l x : x ∈ List.filter p l <-> p x = true /\ x ∈ l.
Proof. rewrite !list_elem_of_In, List.filter_In. tauto. Qed.

Lemma NoDup_key_filter {K} (key : A -> K) (q : A -> bool) l :
  NoDup (key <$> l) -> NoDup (key <$> List.filter q l).
Proof.
  induction l as [|x l IH]; [done|]. rewrite fmap_cons. intros [Hx Hnd]%NoDup_cons.
  simpl. destruct (q x); [|by apply IH]. rewrite fmap_cons. apply NoDup_cons.
  split; [|by apply IH]. intros (y & E & Hin)%list_elem_of_fmap. apply Hx.
  rewrite E. apply list_elem_of_fmap_2. by apply elem_of_filter_bool in Hin as [_ Hin].
Qed.

Lemma sum_where_filter (p q : A -> bool) f l :
  sum_where p f (List.filter q l) = sum_where (fun x => q x && p x)%bool f l.
Proof. induction l as [|x l IH]; simpl; [done|]. by destruct (q x); simpl; rewrite IH. Qed.

Lemma sum_where_none (p : A -> bool) f l :
  (forall x, x ∈ l -> p x = false) -> sum_where p f l = 0%Z.
Proof.
  induction l as [|x l IH]; intros Hp; simpl; [done|].
  rewrite (Hp x) by set_solver. rewrite IH; [done|]. intros y Hy. apply Hp. set_solver.
Qed.

Lemma update_where_cons p f x l :
  update_where p f (x :: l) = (if p x then f x else x) :: update_where p f l.
Proof. done. Qed.

Lemma update_where_id p f l :
  (forall x, x ∈ l -> p x = false) -> update_where p f l = l.
Proof.
  induction l as [|x l IH]; intros H; [done|].
  rewrite update_where_cons, (H x) by set_solver.
  f_equal. apply IH. intros y Hy. apply H. set_solver.
Qed.

Lemma update_where_key {K} (key : A -> K) p f l :
  (forall x, key (f x) = key x) -> key <$> update_where p f l = key <$> l.
Proof.
  intros H. induction l as [|x l IH]; [done|].
  rewrite update_where_cons, !fmap_cons, IH. destruct (p x); by rewrite ?H.
Qed.

Lemma unique_key {K} (key : A -> K) l x y :
  NoDup (key <$> l) -> x ∈ l -> y ∈ l -> key x = key y -> x = y.
Proof.
  intros Hnd Hx Hy Hk. induction l as [|z l IH]; [set_solver|].
  rewrite fmap_cons in Hnd. apply NoDup_cons in Hnd as [Hz Hnd].
  apply elem_of_cons in Hx as [->|Hx], Hy as [->|Hy]; auto.
  - exfalso. apply Hz. rewrite Hk. by apply list_elem_of_fmap_2.
  - exfalso. apply Hz. rewrite <- Hk. by apply list_elem_of_fmap_2.
Qed.

(** Updating the row with a unique key changes no other row. *)
Lemma update_where_one {K} (key : A -> K) `{EqDecision K} f l x y :
  NoDup (key <$> l) -> x ∈ l ->
  y ∈ update_where (fun z => bool_decide (key z = key x)) f l -> y ∈ l \/ y = f x.
Proof.
  intros Hnd Hx (z & Hz & ->)%update_where_elem. case_bool_decide as E; [right|by left].
  by rewrite (unique_key key l z x).
Qed.

(** Updating the row with a unique key changes a sum by that row's part. *)
Lemma sum_where_update {K} (key : A -> K) `{EqDecision K} (p : A -> bool) f g l x :
  NoDup (key <$> l) -> x ∈ l ->
  sum_where p f (update_where (fun y => bool_decide (key y = key x)) g l) =
  (sum_where p f l - (if p x then f x else 0) + (if p (g x) then f (g x) else 0))%Z.
Proof.
  induction l as [|y l IH]; rewrite ?fmap_cons; intros Hnd Hx; [set_solver|].
  apply NoDup_cons in Hnd as [Hy Hnd]. rewrite update_where_cons. simpl.
  case_bool_decide as Hk.
  - assert (y = x) as ->.
    { apply elem_of_cons in Hx as [->|Hx]; [done|].
      exfalso. apply Hy. rewrite Hk. apply list_elem_of_fmap. eauto. }
    rewrite update_where_id; [lia|].
    intros z Hz. apply bool_decide_eq_false_2. intros Heq. apply Hy.
    rewrite <- Heq. apply list_elem_of_fmap. eauto.
  - apply elem_of_cons in Hx as [->|Hx]; [done|]. rewrite IH by done. lia.
Qed.
(** Removing the row with a unique key takes that row's part from a sum. *)
Lemma sum_where_remove {K} (key : A -> K) `{EqDecision K} (p : A -> bool) f l x :
  NoDup (key <$> l) -> x ∈ l ->
  sum_where p f (List.filter (fun y => negb (bool_decide (key y = key x))) l) =
  (sum_where p f l - (if p x then f x else 0))%Z.
Proof.
  induction l as [|y l IH]; rewrite ?fmap_cons; intros Hnd Hx; [set_solver|].
  apply NoDup_cons in Hnd as [Hy Hnd]. simpl. case_bool_decide as Hk; simpl.
  - assert (y = x) as ->.
    { apply elem_of_cons in Hx as [->|Hx]; [done|].
      exfalso. apply Hy. rewrite Hk. apply list_elem_of_fmap. eauto. }
    rewrite sum_where_filter. rewrite (sum_where_ext _ p f f); [lia|].
    intros z Hz. rewrite bool_decide_eq_false_2; [done|]. intros Heq. apply Hy.
    rewrite <- Heq. apply list_elem_of_fmap. eauto.
  - apply elem_of_cons in Hx as [->|Hx]; [done|]. rewrite IH by done. lia.
Qed.
End Tables.
#[global] Arguments update_where : simpl never.

(** ** The elements of a list of which one was changed *)

Lemma alter_lookup_inv {A} (f : A -> A) (l : list A) i j x :
  alter f i l !! j = Some x -> exists y, l !! j = Some y /\ x = (if decide (i = j) then f y else y).
Proof.
  destruct (decide (i = j)) as [->|Hne].
  - rewrite list_lookup_alter_eq. destruct (l !! j) as [y|]; [|done]. intros [= <-]. eauto.
  - rewrite list_lookup_alter_ne by done. eauto.
Qed.
