(* ===== verification/Text.v ===== *)
(** * Text: strings of the language, amounts as text, signature headers

    [String.prototype.split], [BigInt(string)] and [bigint.toString()] of the
    language; [open_payments/amount.ts], whose amounts travel as decimal strings; and
    the signature header that [webhook/service.ts] writes and [signature/tenant.ts]
    of the authorization server takes apart. *)

From Stdlib Require Import Ascii String DecimalString DecimalZ.
From S2P Require Import Prelude.

Local Open Scope Z_scope.
Local Open Scope ts_scope.
Local Open Scope string_scope.

(** ** Appending *)

Lemma append_assoc (a b c : string) : (a ++ b) ++ c = a ++ (b ++ c).
Proof. induction a as [|x a IH]; [done|]. by change (String x ((a ++ b) ++ c) = String x (a ++ (b ++ c))); rewrite IH. Qed.

Lemma length_append (a b : string) : String.length (a ++ b) = (String.length a + String.length b)%nat.
Proof. induction a as [|x a IH]; [done|]. simpl. by f_equal. Qed.

Lemma substring_all (s : string) : String.substring 0 (String.length s) s = s.
Proof. induction s as [|x s IH]; [done|]. simpl. by f_equal. Qed.

Lemma first_of_append (a b : string) : String.substring 0 (String.length a) (a ++ b) = a.
Proof. induction a as [|x a IH]; [by destruct b|]. simpl. f_equal. exact IH. Qed.

Lemma last_of_append (a b : string) : String.substring (String.length a) (String.length b) (a ++ b) = b.
Proof. induction a as [|x a IH]; [apply substring_all|]. exact IH. Qed.

(** ** [split] *)

Fixpoint split_go (sep : string) (skip : nat) (acc s : string) : list string :=
  match s with
  | EmptyString => [acc]
  | String c rest =>
      match skip with
      | S skip => split_go sep skip acc rest
      | O => if String.prefix sep s
             then acc :: split_go sep (pred (String.length sep)) "" rest
             else split_go sep 0 (acc ++ String c "") rest
      end
  end.

(** [s.split(sep)], for a separator that is not empty. *)
Definition split (sep s : string) : list string := split_go sep 0 "" s.

(** The separator does not begin anywhere in the string. *)
Fixpoint free_of (sep s : string) : bool :=
  match s with
  | EmptyString => true
  | String c rest => negb (String.prefix sep s) && free_of sep rest
  end.

Lemma string_app_assoc (a b c : string) : (a ++ b) ++ c = a ++ (b ++ c).
Proof. induction a as [|x a IH]; [done|]. exact (f_equal (String x) IH). Qed.

Lemma string_app_nil_r (a : string) : a ++ "" = a.
Proof. induction a as [|x a IH]; [done|]. exact (f_equal (String x) IH). Qed.

Lemma split_go_free sep acc s : free_of sep s = true -> split_go sep 0 acc s = [acc ++ s].
Proof.
  revert acc. induction s as [|c s IH]; intros acc Hs; [by rewrite string_app_nil_r|].
  cbn [free_of] in Hs. apply andb_true_iff in Hs as [Hp Hs]. apply negb_true_iff in Hp.
  cbn [split_go]. rewrite Hp, IH by done. by rewrite string_app_assoc.
Qed.

Lemma split_go_skip sep acc skipped s :
  split_go sep (String.length skipped) acc (skipped ++ s) = split_go sep 0 acc s.
Proof. induction skipped as [|c skipped IH]; [done|]. apply IH. Qed.

Lemma prefix_app p s : String.prefix p (p ++ s) = true.
Proof.
  induction p as [|c p IH]; [by destruct s|]. change (String c p ++ s) with (String c (p ++ s)).
  simpl. by destruct (ascii_dec c c).
Qed.

(** A separator whose first character is not in the string before it. *)
Lemma split_go_sep c sep acc s rest :
  free_of (String c "") s = true ->
  split_go (String c sep) 0 acc (s ++ String c sep ++ rest)
  = (acc ++ s) :: split_go (String c sep) 0 "" rest.
Proof.
  revert acc. induction s as [|x s IH]; intros acc Hs.
  - rewrite string_app_nil_r. change ("" ++ String c sep ++ rest) with (String c (sep ++ rest)).
    cbn [split_go]. change (String c (sep ++ rest)) with (String c sep ++ rest).
    rewrite prefix_app. f_equal. apply split_go_skip.
  - cbn [free_of] in Hs. apply andb_true_iff in Hs as [Hp Hs]. apply negb_true_iff in Hp.
    change (String x s ++ String c sep ++ rest) with (String x (s ++ String c sep ++ rest)).
    cbn [split_go].
    assert (String.prefix (String c sep) (String x (s ++ String c sep ++ rest)) = false) as ->.
    { simpl in Hp |- *. destruct (ascii_dec c x); [|done]. by destruct s. }
    rewrite IH by done. by rewrite string_app_assoc.
Qed.

Lemma free_of_longer c sep s : free_of (String c "") s = true -> free_of (String c sep) s = true.
Proof.
  induction s as [|x s IH]; [done|]. cbn [free_of]. intros [Hp Hs]%andb_true_iff.
  rewrite IH, andb_true_r by done. apply negb_true_iff in Hp. apply negb_true_iff.
  simpl in Hp |- *. destruct (ascii_dec c x); [|done]. by destruct s.
Qed.

Lemma free_of_app c s s' :
  free_of (String c "") s = true -> free_of (String c "") s' = true ->
  free_of (String c "") (s ++ s') = true.
Proof.
  induction s as [|x s IH]; [done|]. change (String x s ++ s') with (String x (s ++ s')).
  cbn [free_of]. intros [Hp Hs]%andb_true_iff Hs'. rewrite IH, andb_true_r by done.
  apply negb_true_iff in Hp. apply negb_true_iff.
  simpl in Hp |- *. destruct (ascii_dec c x); [|done]. by destruct s.
Qed.

(** ** [BigInt] *)

(** [n.toString()] *)
Definition bigint_toString (n : Z) : string := NilZero.string_of_int (Z.to_int n).

(** White space and line terminators of one byte. *)
Definition is_space (c : ascii) : bool :=
  let n := nat_of_ascii c in (Nat.leb 9%nat n && Nat.leb n 13%nat) || Nat.eqb n 32%nat.

Fixpoint trim_left (s : string) : string :=
  match s with
  | String c rest => if is_space c then trim_left rest else s
  | EmptyString => EmptyString
  end.

Fixpoint trim_right (s : string) : string :=
  match s with
  | String c rest => match trim_right rest with
                     | EmptyString => if is_space c then EmptyString else String c EmptyString
                     | rest => String c rest
                     end
  | EmptyString => EmptyString
  end.

(** The value of a digit, in a radix up to sixteen. *)
Definition digit (radix : Z) (c : ascii) : option Z :=
  let n := Z.of_nat (nat_of_ascii c) in
  let d := (if (48 <=? n) && (n <=? 57) then n - 48
            else if (97 <=? n) && (n <=? 102) then n - 87
            else if (65 <=? n) && (n <=? 70) then n - 55
            else radix)%Z in
  if (d <? radix)%Z then Some d else None.

Fixpoint digits (radix acc : Z) (s : string) : option Z :=
  match s with
  | EmptyString => Some acc
  | String c rest => match digit radix c with
                     | Some d => digits radix (acc * radix + d)%Z rest
                     | None => None
                     end
  end.

Definition digits1 (radix : Z) (s : string) : option Z :=
  match s with EmptyString => None | _ => digits radix 0 s end.

(** [StringToBigInt]: nothing is zero; decimal digits with a sign, or digits after
    [0x], [0o] or [0b]. *)
Definition StringToBigInt (s : string) : option Z :=
  match trim_right (trim_left s) with
  | EmptyString => Some 0
  | String "+" s => digits1 10 s
  | String "-" s => Z.opp <$> digits1 10 s
  | String "0" (String ("x" | "X") s) => digits1 16 s
  | String "0" (String ("o" | "O") s) => digits1 8 s
  | String "0" (String ("b" | "B") s) => digits1 2 s
  | s => digits1 10 s
  end%char.

Definition SyntaxError : exn := JsError "SyntaxError" "".

(** [BigInt(s)] *)
Definition BigInt (s : string) : outcome Z :=
  match StringToBigInt s with Some n => Ret n | None => Throw SyntaxError end.

Fixpoint all_chars (p : ascii -> bool) (s : string) : bool :=
  match s with String c s => p c && all_chars p s | EmptyString => true end.

Lemma all_chars_free p c s : p c = false -> all_chars p s = true -> free_of (String c "") s = true.
Proof.
  intros Hc. induction s as [|x s IH]; [done|]. simpl. intros [Hx Hs]%andb_true_iff.
  rewrite IH, andb_true_r by done. destruct (ascii_dec c x) as [->|]; [congruence|done].
Qed.

Definition is_digit (c : ascii) : bool := is_some (digit 10 c).

Lemma digits_not_space s :
  all_chars is_digit s = true -> trim_right (trim_left s) = s.
Proof.
  assert (forall c, is_digit c = true -> is_space c = false) as Hc
    by (intros [[] [] [] [] [] [] [] []]; by vm_compute).
  intros Hs. assert (trim_right s = s) as Hr.
  { induction s as [|c s IH]; [done|]. simpl in Hs |- *. apply andb_true_iff in Hs as [Hd Hs].
    rewrite IH by done. destruct s; [by rewrite Hc|done]. }
  destruct s as [|c s]; [done|]. simpl in Hs. apply andb_true_iff in Hs as [Hd _].
  cbn [trim_left]. by rewrite (Hc c Hd).
Qed.

Lemma string_of_uint_digits d : all_chars is_digit (NilEmpty.string_of_uint d) = true.
Proof. by induction d. Qed.

Lemma digits_of_uint_acc d acc :
  digits 10 (Zpos acc) (NilEmpty.string_of_uint d) = Some (Zpos (Pos.of_uint_acc d acc)).
Proof.
  revert acc. induction d as [|d IH|d IH|d IH|d IH|d IH|d IH|d IH|d IH|d IH|d IH]; intros acc;
    cbn [NilEmpty.string_of_uint digits Pos.of_uint_acc]; [done|..];
    rewrite <- IH; unfold digit; simpl; f_equal;
    match goal with |- context [nat_of_ascii ?c] => change (nat_of_ascii c) with ltac:(let n := eval vm_compute in (nat_of_ascii c) in exact n) end; lia.
Qed.

Lemma digits_of_uint d :
  digits 10 0 (NilEmpty.string_of_uint d) = Some (Z.of_N (Pos.of_uint d)).
Proof.
  induction d as [|d IH|d _|d _|d _|d _|d _|d _|d _|d _|d _]; [done|exact IH|..];
    exact (digits_of_uint_acc d _).
Qed.

Lemma StringToBigInt_of_uint d :
  StringToBigInt (NilZero.string_of_uint d) = Some (Z.of_N (Pos.of_uint d)) /\
  StringToBigInt (String "-" (NilZero.string_of_uint d)) = Some (- Z.of_N (Pos.of_uint d))%Z.
Proof.
  assert (digits1 10 (NilZero.string_of_uint d) = Some (Z.of_N (Pos.of_uint d))) as Hd.
  { destruct d; try exact (digits_of_uint _). done. }
  assert (all_chars is_digit (NilZero.string_of_uint d) = true) as Hc.
  { destruct d; try exact (string_of_uint_digits _). done. }
  split.
  - unfold StringToBigInt. rewrite digits_not_space by done. rewrite <- Hd.
    destruct d as [|d|d|d|d|d|d|d|d|d|d]; try done. by destruct d.
  - unfold StringToBigInt.
    assert (trim_right (trim_left (String "-" (NilZero.string_of_uint d)))
      = String "-" (NilZero.string_of_uint d)) as ->.
    { change (trim_left (String "-" (NilZero.string_of_uint d)))
        with (String "-" (NilZero.string_of_uint d)). cbn [trim_right].
      pose proof (digits_not_space _ Hc) as Ht.
      assert (trim_left (NilZero.string_of_uint d) = NilZero.string_of_uint d) as Hl
        by by destruct d.
      rewrite Hl in Ht. rewrite Ht. by destruct d. }
    by rewrite Hd.
Qed.

Lemma BigInt_toString n : BigInt (bigint_toString n) = Ret n.
Proof.
  unfold BigInt, bigint_toString. rewrite <- (DecimalZ.of_to n) at 2.
  destruct (Z.to_int n) as [d|d]; simpl.
  - by rewrite (proj1 (StringToBigInt_of_uint d)).
  - by rewrite (proj2 (StringToBigInt_of_uint d)).
Qed.

Definition is_sign (c : ascii) : bool := Ascii.eqb c "-"%char.

Lemma bigint_toString_chars n :
  all_chars (fun c => is_digit c || is_sign c) (bigint_toString n) = true.
Proof.
  assert (forall s, all_chars is_digit s = true -> all_chars (fun c => is_digit c || is_sign c) s = true)
    as Hmono.
  { induction s as [|c s IH]; [done|]. simpl. intros [-> Hs]%andb_true_iff. by rewrite IH. }
  assert (forall d, all_chars is_digit (NilZero.string_of_uint d) = true) as Hd
    by (intros d; destruct d; try exact (string_of_uint_digits _); done).
  unfold bigint_toString. destruct (Z.to_int n) as [d|d]; simpl; by apply Hmono.
Qed.

(** ** Amounts as they travel *)

Record AmountJSON := { json_value : string; json_assetCode : string; json_assetScale : Z }.

Definition parseAmount (amount : AmountJSON) : outcome Amount :=
  match BigInt (json_value amount) with
  | Ret v => Ret {| value := v; assetCode := json_assetCode amount;
                    assetScale := json_assetScale amount |}
  | Throw e => Throw e
  end.

Definition serializeAmount (amount : Amount) : AmountJSON :=
  {| json_value := bigint_toString (value amount); json_assetCode := assetCode amount;
     json_assetScale := assetScale amount |}.

(** An amount survives being sent: what [serializeAmount] writes, [parseAmount]
    reads back as the same amount, and two amounts are never written alike. *)
Theorem amount_roundtrip amount :
  parseAmount (serializeAmount amount) = Ret amount /\
  forall other, serializeAmount other = serializeAmount amount -> other = amount.
Proof.
  assert (forall a, parseAmount (serializeAmount a) = Ret a) as Hround.
  { intros [v c s]. unfold parseAmount. simpl. by rewrite BigInt_toString. }
  split; [done|]. intros other E. pose proof (Hround other) as Ho.
  rewrite E, Hround in Ho. by simplify_eq.
Qed.
