(* ===== verification/Shared.v ===== *)
(** * Shared: the third-party identifier functions and [shared/utils.ts]

    The npm package [uuid] is not part of the repository; the class [Uuid]
    holds the functions the code calls, and [UuidLaws] the documented behaviour
    the theorems rely on: [v4] returns identifiers that [validate] accepts and
    whose [version] is 4, and never the same one twice. *)

From Stdlib Require Import Ascii.
From S2P Require Import Prelude.

Local Open Scope Z_scope.

Class Uuid := {
  v4 : nat -> string;
  validate : string -> bool;
  version : string -> Z
}.

Class UuidLaws `{Uuid} : Prop := {
  v4_inj : forall n m, v4 n = v4 m -> n = m;
  v4_validate : forall n, validate (v4 n) = true;
  v4_version : forall n, version (v4 n) = 4
}.

(** [validateId] *)
Definition validateId `{Uuid} (id : string) : bool := validate id && (version id =? 4).

Lemma validateId_v4 `{UuidLaws} n : validateId (v4 n) = true.
Proof. unfold validateId. by rewrite v4_validate, v4_version. Qed.

(** A concrete instance for the witnesses: [id-], [id-1], [id-11], ... *)
Module ConcreteUuid.
Fixpoint unary (n : nat) : string :=
  match n with O => EmptyString | S n => String "1"%char (unary n) end.

Lemma unary_inj n m : unary n = unary m -> n = m.
Proof.
  revert m. induction n as [|n IH]; intros [|m]; simpl; intros Hs; simplify_eq; [done|].
  f_equal. by apply IH.
Qed.

Definition tagged (n : nat) : string := String "i"%char (String "d"%char (String "-"%char (unary n))).

#[export] Instance uuid : Uuid := {
  v4 := tagged;
  validate s := match s with
                | String "i"%char (String "d"%char (String "-"%char _)) => true
                | _ => false
                end;
  version _ := 4
}.

#[export] Instance uuid_laws : UuidLaws.
Proof.
  split; [|done|done]. intros n m Hs. unfold v4, uuid, tagged in Hs. simplify_eq.
  by apply unary_inj.
Qed.
End ConcreteUuid.
