(* ===== verification/Service.v ===== *)
(** * Service: the state of a service and reasoning about its operations

    The services of the backend share one shape: tables of their own, the
    clock, a supply of identifiers, and other services they call.  [Svc D X] is
    that state: [db] the tables, [now] the clock in milliseconds ([Date.now()]
    is constant during an operation), [fresh] the supply of [uuid()], [ext] the
    state of the services that are called.

    [wp m Q s] says that [m], run from [s], settles with an outcome and a state
    that satisfy [Q]; [wp_auto] walks a computation with its rules. *)

From S2P Require Import Prelude Shared.

Local Open Scope Z_scope.
Local Open Scope ts_scope.

Record Svc (D X : Type) := { db : D; now : Z; fresh : nat; ext : X }.
Arguments db {D X}. Arguments now {D X}. Arguments fresh {D X}. Arguments ext {D X}.

Section Operations.
Context {D X : Type}.

Definition set_db (d : D) (s : Svc D X) : Svc D X :=
  {| db := d; now := now s; fresh := fresh s; ext := ext s |}.

Definition set_ext (x : X) (s : Svc D X) : Svc D X :=
  {| db := db s; now := now s; fresh := fresh s; ext := x |}.

Definition db_get {A} (f : D -> A) : M (Svc D X) A := gets (fun s => f (db s)).

Definition db_set (f : D -> D) : M (Svc D X) unit := modify (fun s => set_db (f (db s)) s).

Definition date_now : M (Svc D X) Z := gets now.

Definition uuid `{Uuid} : M (Svc D X) string :=
  fun s => (Ret (v4 (fresh s)),
            {| db := db s; now := now s; fresh := S (fresh s); ext := ext s |}).

(** A call of another service. *)
Definition lift {A} (m : M X A) : M (Svc D X) A :=
  fun s => let '(r, x) := m (ext s) in (r, set_ext x s).

(** [knex.transaction]: what an operation wrote to its own tables before it
    threw is undone; what it asked of other services is not. *)
Definition transaction {A} (m : M (Svc D X) A) : M (Svc D X) A :=
  with_transaction (fun s s' => set_db (db s) s') m.
End Operations.

(** ** Weakest preconditions *)

Definition wp {S A} (m : M S A) (Q : outcome A -> S -> Prop) (s : S) : Prop :=
  Q (m s).1 (m s).2.

Lemma wp_run {S A} (m : M S A) Q s r s' : wp m Q s -> m s = (r, s') -> Q r s'.
Proof. unfold wp. intros HQ Hm. by rewrite Hm in HQ. Qed.

Section Rules.
Context {S : Type}.
Implicit Types s : S.

Lemma wp_mono {A} (m : M S A) (P Q : outcome A -> S -> Prop) s :
  wp m P s -> (forall r s', P r s' -> Q r s') -> wp m Q s.
Proof. unfold wp. auto. Qed.

Lemma wp_ret {A} (a : A) Q s : Q (Ret a) s -> wp (ret a) Q s.
Proof. done. Qed.

Lemma wp_throw {A} e (Q : outcome A -> S -> Prop) s : Q (Throw e) s -> wp (throw e) Q s.
Proof. done. Qed.

Lemma wp_throw_error {A} msg (Q : outcome A -> S -> Prop) s :
  Q (Throw (JsError "Error" msg)) s -> wp (throw_error msg) Q s.
Proof. done. Qed.

Lemma wp_bind {A B} (m : M S A) (k : A -> M S B) Q s :
  wp m (fun r s' => match r with Ret a => wp (k a) Q s' | Throw e => Q (Throw e) s' end) s ->
  wp (bind m k) Q s.
Proof. unfold wp, bind. by destruct (m s) as [[a|e] s']. Qed.

Lemma wp_get Q s : Q (Ret s) s -> wp get Q s.
Proof. done. Qed.

Lemma wp_gets {A} (f : S -> A) Q s : Q (Ret (f s)) s -> wp (gets f) Q s.
Proof. done. Qed.

Lemma wp_modify f Q s : Q (Ret tt) (f s) -> wp (modify f) Q s.
Proof. done. Qed.

Lemma wp_try_catch {A} (m : M S A) h Q s :
  wp m (fun r s' => match r with Ret a => Q (Ret a) s' | Throw e => wp (h e) Q s' end) s ->
  wp (try_catch m h) Q s.
Proof. unfold wp, try_catch. by destruct (m s) as [[a|e] s']. Qed.

Lemma wp_finally {A} (m : M S A) f (Q : outcome A -> S -> Prop) s :
  wp m (fun r s' => wp f (fun rf s'' => match rf with
                                        | Ret _ => Q r s''
                                        | Throw e => Q (Throw e) s''
                                        end) s') s ->
  wp (finally m f) Q s.
Proof.
  unfold wp, finally. destruct (m s) as [r s']. simpl. by destruct (f s') as [[u|e] s''].
Qed.

Lemma wp_with_transaction {A} restore (m : M S A) Q s :
  wp m (fun r s' => match r with
                    | Ret a => Q (Ret a) s'
                    | Throw e => Q (Throw e) (restore s s')
                    end) s ->
  wp (with_transaction restore m) Q s.
Proof. unfold wp, with_transaction. by destruct (m s) as [[a|e] s']. Qed.

(** Nothing is known of [m] but its outcome. *)
Lemma wp_call {A} (m : M S A) (Q : outcome A -> S -> Prop) s :
  (forall r s', m s = (r, s') -> Q r s') -> wp m Q s.
Proof. unfold wp. intros HQ. destruct (m s) as [r s'] eqn:E. by apply HQ. Qed.

(** [Promise.all] and loops: an invariant of the state every round keeps. *)
Lemma wp_mapM {A B} (f : A -> M S B) (l : list A) (I : S -> Prop) s :
  I s -> (forall x s', x ∈ l -> I s' -> wp (f x) (fun _ s'' => I s'') s') ->
  wp (mapM f l) (fun _ s' => I s') s.
Proof.
  intros Hs Hf. revert s Hs. induction l as [|x l IH]; intros s Hs; simpl; [done|].
  apply wp_bind. eapply wp_mono; [apply Hf; [set_solver|done]|].
  intros [y|e] s' Hs'; [|done]. apply wp_bind. eapply wp_mono.
  - apply IH; [intros z s'' Hz; apply Hf; set_solver|done].
  - intros [ys|e] s'' Hs''; [by apply wp_ret|done].
Qed.
End Rules.

Section ServiceRules.
Context {D X : Type}.
Implicit Types s : Svc D X.

Lemma wp_db_get {A} (f : D -> A) Q s : Q (Ret (f (db s))) s -> wp (db_get f) Q s.
Proof. done. Qed.

Lemma wp_db_set f Q s : Q (Ret tt) (set_db (f (db s)) s) -> wp (db_set f) Q s.
Proof. done. Qed.

Lemma wp_date_now Q s : Q (Ret (now s)) s -> wp date_now Q s.
Proof. done. Qed.

Lemma wp_uuid `{Uuid} Q s :
  Q (Ret (v4 (fresh s))) {| db := db s; now := now s; fresh := S (fresh s); ext := ext s |} ->
  wp uuid Q s.
Proof. done. Qed.

(** Nothing is known of another service but that it leaves this one's state. *)
Lemma wp_lift {A} (m : M X A) Q s :
  (forall r x, m (ext s) = (r, x) -> Q r (set_ext x s)) -> wp (lift m) Q s.
Proof. unfold wp, lift. intros HQ. destruct (m (ext s)) as [r x] eqn:E. by apply HQ. Qed.

Lemma wp_transaction {A} (m : M (Svc D X) A) Q s :
  wp m (fun r s' => match r with
                    | Ret a => Q (Ret a) s'
                    | Throw e => Q (Throw e) (set_db (db s) s')
                    end) s ->
  wp (transaction m) Q s.
Proof. intros H. exact (wp_with_transaction _ m Q s H). Qed.

(** A transaction either returns with the effect of its body or changes nothing. *)
Lemma wp_atomic {A} (m : M (Svc D X) A) (P : A -> Svc D X -> Prop) s :
  wp m (fun r s' => now s' = now s /\ match r with Ret a => P a s' | Throw _ => True end) s ->
  wp (transaction m)
    (fun r s' => now s' = now s /\
       match r with Ret a => P a s' | Throw _ => db s' = db s end) s.
Proof.
  intros H. apply wp_transaction. eapply wp_mono; [exact H|]. by intros [a|e] s' [Hn HP].
Qed.
End ServiceRules.

(** The fields of a state that was just written. *)
Ltac svc_simpl := cbn [db now Service.fresh ext set_db set_ext].

(** One step of a computation; what is left of it is the goal. *)
Ltac wp_step :=
  lazymatch goal with
  | |- wp (bind _ _) _ _ => apply wp_bind
  | |- wp (ret _) _ _ => apply wp_ret
  | |- wp (throw _) _ _ => apply wp_throw
  | |- wp (throw_error _) _ _ => apply wp_throw_error
  | |- wp get _ _ => apply wp_get
  | |- wp (gets _) _ _ => apply wp_gets
  | |- wp (modify _) _ _ => apply wp_modify
  | |- wp (try_catch _ _) _ _ => apply wp_try_catch
  | |- wp (finally _ _) _ _ => apply wp_finally
  | |- wp (db_get _) _ _ => apply wp_db_get
  | |- wp (db_set _) _ _ => apply wp_db_set
  | |- wp date_now _ _ => apply wp_date_now
  | |- wp uuid _ _ => apply wp_uuid
  | |- wp (transaction _) _ _ => apply wp_transaction
  | |- wp (lift _) _ _ =>
      let r := fresh "r" in let x := fresh "x" in let H := fresh "Hcall" in
      apply wp_lift; intros r x H; destruct r
  | |- wp (match ?b with _ => _ end) _ _ => destruct b eqn:?
  end; cbv beta iota; svc_simpl.
Ltac wp_auto := repeat wp_step.

(** Goals about the clock and the tables of states related by equations. *)
Ltac svc_done := solve [split_and?; simpl in *; first [done | congruence]].
