(* ===== verification/JsNumber.v ===== *)
(** * JsNumber: JavaScript numbers and their meeting points with [bigint]

    A [Number] is an IEEE 754 double, here the executable [spec_float] of the
    Standard Library at 53 bits of precision.  [Number(z)] rounds a [bigint] to
    the nearest double; [BigInt(Math.ceil(x))] is exact, and throws a
    [RangeError] on infinities and on NaN. *)

From Stdlib Require Import SpecFloat.
From S2P Require Import Prelude.

Local Open Scope Z_scope.
Local Open Scope ts_scope.

Definition number : Type := spec_float.

Definition prec : Z := 53.
Definition emax : Z := 1024.

(** [Number(z)] *)
Definition of_bigint (z : Z) : number := binary_normalize prec emax z 0 false.

Definition num_mul (x y : number) : number := SFmul prec emax x y.
Definition num_div (x y : number) : number := SFdiv prec emax x y.
Definition num_add (x y : number) : number := SFadd prec emax x y.
Definition num_sub (x y : number) : number := SFsub prec emax x y.
Definition num_ltb (x y : number) : bool := SFltb x y.

(** [Math.min] and [Math.max]; both give NaN when an argument is NaN. *)
Definition num_min (x y : number) : number :=
  match x, y with
  | S754_nan, _ | _, S754_nan => S754_nan
  | _, _ => if SFltb y x then y else x
  end.
Definition num_max (x y : number) : number :=
  match x, y with
  | S754_nan, _ | _, S754_nan => S754_nan
  | _, _ => if SFltb x y then y else x
  end.

(** The smallest integer not below [m * 2^e]. *)
Definition ceil_scaled (m e : Z) : Z :=
  if 0 <=? e then m * 2 ^ e else - ((- m) / 2 ^ (- e)).

(** [BigInt(Math.ceil(x))]; [None] where it throws. *)
Definition bigint_ceil (x : number) : option Z :=
  match x with
  | S754_zero _ => Some 0
  | S754_finite s m e => Some (ceil_scaled (cond_Zopp s (Zpos m)) e)
  | S754_infinity _ | S754_nan => None
  end.

(** [BigInt(Math.floor(x))] *)
Definition bigint_floor (x : number) : option Z :=
  match x with
  | S754_zero _ => Some 0
  | S754_finite s m e =>
      let m := cond_Zopp s (Zpos m) in
      Some (if 0 <=? e then m * 2 ^ e else m / 2 ^ (- e))
  | S754_infinity _ | S754_nan => None
  end.

Definition bigint_of {S} (o : option Z) : M S Z :=
  match o with Some z => ret z | None => throw (JsError "RangeError" "") end.

(** Numbers of positive or no sign, the only ones amounts and rates produce. *)
Definition nonneg (x : number) : bool :=
  match x with
  | S754_zero s | S754_infinity s => negb s
  | S754_finite s _ _ => negb s
  | S754_nan => true
  end.

Definition finite (x : number) : bool :=
  match x with S754_zero _ | S754_finite _ _ _ => true | _ => false end.

Lemma binary_round_aux_nonneg mx ex lx :
  nonneg (binary_round_aux prec emax false mx ex lx) = true.
Proof.
  unfold binary_round_aux. destruct (shr_fexp _ _ mx ex lx) as [mrs' e'].
  destruct (shr_fexp _ _ _ e' _) as [mrs'' e'']. destruct (shr_m mrs''); [done| |done].
  by destruct (e'' <=? emax - prec).
Qed.

Lemma of_bigint_nonneg z : 0 <= z -> nonneg (of_bigint z) = true.
Proof.
  intros Hz. unfold of_bigint, binary_normalize. destruct z as [|p|p]; [done| |lia].
  unfold binary_round. destruct (shl_align p 0 _) as [mz ez].
  apply binary_round_aux_nonneg.
Qed.

Lemma num_mul_nonneg x y : nonneg x = true -> nonneg y = true -> nonneg (num_mul x y) = true.
Proof.
  destruct x as [[]|[]| |[] mx ex], y as [[]|[]| |[] my ey]; simpl; try done.
  intros _ _. unfold num_mul, SFmul. simpl. apply binary_round_aux_nonneg.
Qed.

Lemma num_div_nonneg x y : nonneg x = true -> nonneg y = true -> nonneg (num_div x y) = true.
Proof.
  destruct x as [[]|[]| |[] mx ex], y as [[]|[]| |[] my ey]; simpl; try done.
  intros _ _. unfold num_div, SFdiv. simpl.
  destruct (SFdiv_core_binary _ _ _ _ _ _) as [[mz ez] lz]. apply binary_round_aux_nonneg.
Qed.

Lemma bigint_ceil_nonneg x z : nonneg x = true -> bigint_ceil x = Some z -> 0 <= z.
Proof.
  destruct x as [s|s| |[] m e]; simpl; intros Hx Hz; simplify_eq; try done.
  unfold ceil_scaled. destruct (Z.leb_spec 0 e); [apply Z.mul_nonneg_nonneg; lia|].
  assert (- Zpos m / 2 ^ (- e) <= 0); [|lia].
  apply Z.div_le_upper_bound; [apply Z.pow_pos_nonneg; lia|]. lia.
Qed.

Lemma bigint_floor_nonneg x z : nonneg x = true -> bigint_floor x = Some z -> 0 <= z.
Proof.
  destruct x as [s|s| |[] m e]; simpl; intros Hx Hz; simplify_eq; try done.
  destruct (Z.leb_spec 0 e); [apply Z.mul_nonneg_nonneg; lia|].
  apply Z.div_pos; [lia|apply Z.pow_pos_nonneg; lia].
Qed.

(** A number above zero carries no sign. *)
Lemma num_ltb_zero_nonneg x : num_ltb (of_bigint 0) x = true -> nonneg x = true.
Proof. by destruct x as [[]|[]| |[] m e]. Qed.

Lemma bigint_ceil_finite x : is_some (bigint_ceil x) = finite x.
Proof. by destruct x. Qed.

(** Multiplying by zero. *)
Lemma num_mul_zero_l y : finite y = true -> bigint_ceil (num_mul (of_bigint 0) y) = Some 0.
Proof. by destruct y as [[]| | |[] m e]. Qed.
