(* ===== verification/NumberText.v ===== *)
(** * NumberText: [Number(string)]

    The numeric value of a text (ECMA-262, [StringToNumber]): white space around it is
    ignored and nothing is zero; a decimal literal has an optional sign, digits with at
    most one point, and an optional exponent; [0x], [0o] and [0b] begin integers without a
    sign; anything else is NaN.  The value of a decimal is rounded once, to nearest even. *)

From Stdlib Require Import Ascii SpecFloat.
From S2P Require Import Prelude Text JsNumber.

Local Open Scope Z_scope.

(** [m / d], rounded. *)
Definition of_ratio (m d : positive) : number :=
  let '(q, e, l) := SFdiv_core_binary prec emax (Zpos m) 0 (Zpos d) 0 in
  binary_round_aux prec emax false q e l.

(** [m * 10^e], rounded. *)
Definition of_decimal (m : N) (e : Z) : number :=
  match m with
  | N0 => S754_zero false
  | Npos m =>
      if 0 <=? e then of_bigint (Zpos m * 10 ^ e)
      else of_ratio m (Z.to_pos (10 ^ (- e)))
  end.

(** The digits a text begins with, and the rest. *)
Fixpoint span_digits (s : string) : string * string :=
  match s with
  | String c rest =>
      if is_digit c then let '(ds, rest) := span_digits rest in (String c ds, rest)
      else (EmptyString, s)
  | EmptyString => (EmptyString, EmptyString)
  end.

(** The exponent: nothing, or [e] and digits with an optional sign. *)
Definition exponent (s : string) : option Z :=
  match s with
  | EmptyString => Some 0
  | String ("e" | "E") (String "+" s) => digits1 10 s
  | String ("e" | "E") (String "-" s) => Z.opp <$> digits1 10 s
  | String ("e" | "E") s => digits1 10 s
  | _ => None
  end%char.

(** A decimal literal without a sign. *)
Definition decimal (s : string) : option number :=
  if bool_decide (s = "Infinity"%string) then Some (S754_infinity false)
  else
  let '(whole, rest) := span_digits s in
  let '(fraction, rest) :=
    match rest with
    | String "." rest => span_digits rest
    | _ => (EmptyString, rest)
    end%char in
  match digits1 10 (whole +:+ fraction)%string, exponent rest with
  | Some m, Some e => Some (of_decimal (Z.to_N m) (e - Z.of_nat (String.length fraction)))
  | _, _ => None
  end.

Definition negate (x : number) : number := SFopp x.

Definition or_nan (x : option number) : number := default S754_nan x.

Definition Number (s : string) : number :=
  match trim_right (trim_left s) with
  | EmptyString => S754_zero false
  | String "+" s => or_nan (decimal s)
  | String "-" s => or_nan (negate <$> decimal s)
  | String "0" (String ("x" | "X") s) => or_nan (of_bigint <$> digits1 16 s)
  | String "0" (String ("o" | "O") s) => or_nan (of_bigint <$> digits1 8 s)
  | String "0" (String ("b" | "B") s) => or_nan (of_bigint <$> digits1 2 s)
  | s => or_nan (decimal s)
  end%char.

(** Some values. *)
Example Number_values :
  Number "10" = of_bigint 10 /\ Number " 2e3 " = of_bigint 2000 /\
  Number "" = of_bigint 0 /\ Number "1.5" = num_div (of_bigint 3) (of_bigint 2) /\
  Number "0x1F" = of_bigint 31 /\ Number "-.5" = num_div (of_bigint (-1)) (of_bigint 2) /\
  Number "0.1" = num_div (of_bigint 1) (of_bigint 10) /\
  Number "12px" = S754_nan /\ Number "." = S754_nan /\ Number "1e" = S754_nan /\
  Number "-Infinity" = S754_infinity true.
Proof. by vm_compute. Qed.

