(* ===== verification/Signature.v ===== *)
(** * Signature: signed requests between the services

    Requests to the admin APIs and webhooks carry a header
    [t=<timestamp>, v<version>=<digest>], the digest being an HMAC of the timestamp
    and the canonical body under a shared secret.  [backend/src/shared/utils.ts] and
    [auth/src/signature/tenant.ts] verify requests, [point-of-sale/src/webhook-handlers/
    middleware.ts] verifies webhooks, with the same functions; the card service and
    the point of sale write the header ([authLink] of their [index.ts]).  A store of
    the headers seen (Redis) refuses a header that comes again.

    The HMAC, [canonicalize], [Number(string)] and the store are parameters. *)

From Stdlib Require Import Ascii SpecFloat.
From S2P Require Import Prelude Text JsNumber Shared Service.

Local Open Scope Z_scope.
Local Open Scope ts_scope.
Local Open Scope string_scope.

(** A store of keys that expire, at time [now] in milliseconds: [GET]; [SET] and
    [EXPIRE] after a number of seconds. *)
Class Redis (R : Type) := {
  redis_get : Z -> string -> R -> option string;
  redis_set_expire : Z -> string -> string -> Z -> R -> R
}.

Class RedisLaws (R : Type) `{Redis R} : Prop := {
  redis_get_set now now' k v seconds r :
    (now <= now' < now + 1000 * seconds)%Z ->
    redis_get now' k (redis_set_expire now k v seconds r) = Some v;
  redis_get_other now now' k k' v seconds r :
    k' <> k -> redis_get now' k' (redis_set_expire now k v seconds r) = redis_get now' k' r
}.

(** ** The parts of a signature *)

(** [s.replace('v', '')]: the first one. *)
Fixpoint without_first_v (s : string) : string :=
  match s with
  | EmptyString => EmptyString
  | String c rest => if Ascii.eqb c "v"%char then rest else String c (without_first_v rest)
  end.

Record SignatureParts := {
  timestamp : option string;
  version : string;
  digest : option string
}.

Definition undefined_split : exn :=
  JsError "TypeError" "Cannot read properties of undefined (reading 'split')".

Definition getSignatureParts (signature : string) : outcome SignatureParts :=
  let signatureParts := split ", " signature in
  let timestamp := nth_error (split "=" (hd "" signatureParts)) 1 in
  match nth_error signatureParts 1 with
  | None => Throw undefined_split
  | Some part =>
      let signatureVersionAndDigest := split "=" part in
      Ret {| timestamp := timestamp;
             version := without_first_v (hd "" signatureVersionAndDigest);
             digest := nth_error signatureVersionAndDigest 1 |}
  end.

Section Signatures.
Context {Body T X R : Type} `{Redis R}.
Context (hmac_hex : string -> string -> string) (canonicalize : Body -> string).
(** [Number(string)] of the language. *)
Context (Number : string -> number).

(** [`t=${timestamp}, v${version}=${digest}`] over [`${timestamp}.${body}`]. *)
Definition signRequest (now version : Z) (secret : string) (body : Body) : string :=
  let timestamp := bigint_toString now in
  let digest := hmac_hex secret (timestamp ++ "." ++ canonicalize body) in
  "t=" ++ timestamp ++ ", v" ++ bigint_toString version ++ "=" ++ digest.

(** ** Verifying *)

Definition verifyApiSignatureDigest (signature : string) (body : Body)
    (adminApiSignatureVersion : Z) (secret : string) : outcome bool :=
  match getSignatureParts signature with
  | Throw e => Throw e
  | Ret parts =>
      if negb (SFeqb (Number (version parts)) (of_bigint adminApiSignatureVersion)) then Ret false
      else
      let payload := default "undefined" (timestamp parts) ++ "." ++ canonicalize body in
      Ret (bool_decide (digest parts = Some (hmac_hex secret payload)))
  end.

(** The part of the point of sale: a webhook without the header passes. *)
Definition webhookHttpSigMiddleware (rafikiSignature : option string) (body : Body)
    (webhookSignatureVersion : Z) (webhookSignatureSecret : string) : outcome bool :=
  match rafikiSignature with
  | Some s => if truthy s
              then verifyApiSignatureDigest s body webhookSignatureVersion webhookSignatureSecret
              else Ret true
  | None => Ret true
  end.

Definition SignatureState : Type := Svc R X.

(** What a header says about time, [NaN] when it says nothing. *)
Definition signature_time (parts : SignatureParts) : number :=
  match timestamp parts with Some t => Number t | None => S754_nan end.

Definition canApiSignatureBeProcessed (adminApiSignatureTtlSeconds : Z) (signature : string)
  : M SignatureState bool :=
  match getSignatureParts signature with
  | Throw e => throw e
  | Ret parts =>
      let! currentTime := date_now in
      let ttlMilliseconds := (adminApiSignatureTtlSeconds * 1000)%Z in
      if num_ltb (of_bigint ttlMilliseconds) (num_sub (of_bigint currentTime) (signature_time parts))
      then ret false
      else
      let key := "signature:" ++ signature in
      let! seen := db_get (redis_get currentTime key) in
      if truthy seen then ret false
      else db_set (redis_set_expire currentTime key signature ttlMilliseconds) ;;! ret true
  end.

Record TenantApiSignatureResult := { tenant : T; isOperator : bool }.

(** [tenantService.get], and the API secret of a tenant. *)
Context (tenant_get : string -> M X (option T)) (apiSecret : T -> string).
Context (adminApiSecret : string) (adminApiSignatureVersion adminApiSignatureTtlSeconds : Z).

(** [tenantId ? await tenantService.get(tenantId) : undefined] *)
Definition tenant_of (tenantId : option string) : M SignatureState (option T) :=
  match tenantId with
  | Some i => if truthy i then lift (tenant_get i) else ret None
  | None => ret None
  end.

Definition getTenantFromApiSignature (signature tenantId : option string) (body : Body)
  : M SignatureState (option TenantApiSignatureResult) :=
  match signature with
  | None => ret None
  | Some signature =>
      if negb (truthy signature) then ret None else
      let! t := tenant_of tenantId in
      match t with
      | None => ret None
      | Some t =>
          let! fresh := canApiSignatureBeProcessed adminApiSignatureTtlSeconds signature in
          if negb fresh then ret None
          else if negb (truthy (apiSecret t)) then ret None
          else
          match verifyApiSignatureDigest signature body adminApiSignatureVersion (apiSecret t) with
          | Throw e => throw e
          | Ret true =>
              ret (Some {| tenant := t; isOperator := bool_decide (apiSecret t = adminApiSecret) |})
          | Ret false => ret None
          end
      end
  end.

Definition verifyApiSignature (signature : option string) (body : Body) : M SignatureState bool :=
  match signature with
  | None => ret false
  | Some signature =>
      if negb (truthy signature) then ret false else
      let! fresh := canApiSignatureBeProcessed adminApiSignatureTtlSeconds signature in
      if negb fresh then ret false
      else match verifyApiSignatureDigest signature body adminApiSignatureVersion adminApiSecret with
           | Throw e => throw e
           | Ret b => ret b
           end
  end.

(** ** What is written is read back *)

(** A digest in hexadecimal holds neither separator. *)
Context (hex_digest : forall secret payload,
  free_of "," (hmac_hex secret payload) = true /\ free_of "=" (hmac_hex secret payload) = true).

Lemma number_free n :
  free_of "," (bigint_toString n) = true /\ free_of "=" (bigint_toString n) = true.
Proof. split; (eapply all_chars_free; [|apply bigint_toString_chars]); done. Qed.

Lemma getSignatureParts_sign now version secret body :
  getSignatureParts (signRequest now version secret body)
  = Ret {| timestamp := Some (bigint_toString now); version := bigint_toString version;
           digest := Some (hmac_hex secret (bigint_toString now ++ "." ++ canonicalize body)) |}.
Proof.
  unfold signRequest. set (d := hmac_hex _ _).
  destruct (hex_digest secret (bigint_toString now ++ "." ++ canonicalize body)) as [Hdc Hde].
  fold d in Hdc, Hde.
  destruct (number_free now) as [Htc Hte], (number_free version) as [Hvc Hve].
  assert (split ", " ("t=" ++ bigint_toString now ++ ", v" ++ bigint_toString version ++ "=" ++ d)
    = ["t=" ++ bigint_toString now; "v" ++ bigint_toString version ++ "=" ++ d]) as Hs.
  { unfold split.
    pose proof (split_go_sep "," " " "" ("t=" ++ bigint_toString now)
      ("v" ++ bigint_toString version ++ "=" ++ d) ltac:(by apply free_of_app)) as E.
    rewrite string_app_assoc in E. refine (eq_trans E (f_equal2 cons eq_refl _)).
    refine (split_go_free _ _ _ _). apply free_of_longer. by repeat apply free_of_app. }
  unfold getSignatureParts. rewrite Hs. cbn [nth_error hd].
  assert (split "=" ("t=" ++ bigint_toString now) = ["t"; bigint_toString now]) as ->.
  { refine (eq_trans (split_go_sep "=" "" "" "t" (bigint_toString now) eq_refl) _).
    refine (f_equal2 cons eq_refl _). refine (split_go_free _ _ _ _). done. }
  assert (split "=" ("v" ++ bigint_toString version ++ "=" ++ d)
    = ["v" ++ bigint_toString version; d]) as ->.
  { pose proof (split_go_sep "=" "" "" ("v" ++ bigint_toString version) d
      ltac:(by apply free_of_app)) as E.
    rewrite string_app_assoc in E. refine (eq_trans E (f_equal2 cons eq_refl _)).
    refine (split_go_free _ _ _ _). done. }
  done.
Qed.

(** What one service signs another verifies: a header written for a body under a
    secret is accepted with that body, version and secret; and a header is accepted
    only if its digest is the HMAC, under the secret, of its own timestamp and the
    body, so that changing the body or the secret changes the digest that is needed. *)
Theorem signature_roundtrip now apiVersion secret body :
  (forall n, Number (bigint_toString n) = of_bigint n) ->
  SFeqb (of_bigint apiVersion) (of_bigint apiVersion) = true ->
  verifyApiSignatureDigest (signRequest now apiVersion secret body) body apiVersion secret = Ret true /\
  forall signature body' secret',
    verifyApiSignatureDigest signature body' apiVersion secret' = Ret true ->
    exists parts, getSignatureParts signature = Ret parts /\
      digest parts = Some (hmac_hex secret'
        (default "undefined" (timestamp parts) ++ "." ++ canonicalize body')).
Proof.
  intros HNumber Hversion. split.
  - unfold verifyApiSignatureDigest. rewrite getSignatureParts_sign. cbn [version timestamp digest].
    rewrite HNumber, Hversion. simpl. by rewrite bool_decide_eq_true_2.
  - intros signature body' secret'. unfold verifyApiSignatureDigest.
    destruct (getSignatureParts signature) as [parts|e]; [|done].
    destruct (negb _); [done|]. intros [= Hd%bool_decide_eq_true]. by exists parts.
Qed.

(** ** A header is accepted once *)

(** Requests that are checked, and time that passes while the other services do
    anything. *)
Inductive step : SignatureState -> SignatureState -> Prop :=
| step_tenant signature tenantId body s :
    step s (getTenantFromApiSignature signature tenantId body s).2
| step_admin signature body s : step s (verifyApiSignature signature body s).2
| step_elapse s ms x :
    (0 <= ms)%Z ->
    step s {| db := db s; now := (now s + ms)%Z; Service.fresh := Service.fresh s; ext := x |}.

Notation ttl := (adminApiSignatureTtlSeconds * 1000)%Z.
Notation process := (canApiSignatureBeProcessed adminApiSignatureTtlSeconds).

(** The store knows the header until [t]. *)
Definition remembered (signature : string) (t : Z) (s : SignatureState) : Prop :=
  forall now', (now s <= now' < t)%Z -> redis_get now' ("signature:" ++ signature) (db s) = Some signature.

Context `{!RedisLaws R}.
Implicit Types s : SignatureState.

Lemma process_outcome signature s :
  match process signature s with
  | (Ret true, s') => now s' = now s /\ signature <> "" /\
      db s' = redis_set_expire (now s) ("signature:" ++ signature) signature ttl (db s) /\
      redis_get (now s) ("signature:" ++ signature) (db s) <> Some signature
  | (_, s') => s' = s
  end.
Proof.
  unfold canApiSignatureBeProcessed. destruct (getSignatureParts signature) as [parts|e] eqn:E; [|done].
  unfold bind, date_now, db_get, gets. destruct (num_ltb _ _); [done|].
  destruct (truthy _) eqn:Hseen; [done|]. simpl. split; [done|].
  assert (signature <> "") as Hne by by intros ->. split; [done|]. split; [done|].
  intros Hget. rewrite Hget in Hseen. by rewrite (proj2 (truthy_Some_string _) Hne) in Hseen.
Qed.

Lemma key_inj (a b : string) : "signature:" ++ a = "signature:" ++ b -> a = b.
Proof. intros E. by simplify_eq. Qed.

Lemma process_remembered signature t other :
  signature <> "" -> keeps (remembered signature t) (process other).
Proof.
  intros Hne s Hs. pose proof (process_outcome other s) as Ho.
  destruct (process other s) as [[[|]|e] s']; simpl; [|by subst..].
  destruct Ho as (Hn & Hother & Hdb & Hget). intros now' Hnow. rewrite Hdb.
  destruct (decide (other = signature)) as [->|Hdiff].
  - exfalso. apply Hget, Hs. rewrite Hn in Hnow. lia.
  - rewrite redis_get_other by (intros E%key_inj; done). apply Hs. by rewrite <- Hn.
Qed.

Lemma lift_remembered {A} signature t (m : M X A) : keeps (remembered signature t) (lift m).
Proof. intros s Hs. unfold lift. by destruct (m (ext s)). Qed.

Lemma step_remembered signature t s s' :
  signature <> "" -> step s s' -> remembered signature t s -> remembered signature t s'.
Proof.
  intros Hne Hstep.
  pose proof (fun other => process_remembered signature t other Hne) as Hprocess.
  pose proof (fun A m => @lift_remembered A signature t m) as Hlift.
  destruct Hstep as [sig tid body s|sig body s|s ms x Hms].
  - revert s. change (keeps (remembered signature t) (getTenantFromApiSignature sig tid body)).
    unfold getTenantFromApiSignature, tenant_of. keeps_auto.
  - revert s. change (keeps (remembered signature t) (verifyApiSignature sig body)).
    unfold verifyApiSignature. keeps_auto.
  - intros Hs now' Hnow. apply Hs. simpl in Hnow. lia.
Qed.

Lemma steps_remembered signature t s s' :
  signature <> "" -> rtc step s s' -> remembered signature t s -> remembered signature t s'.
Proof. intros Hne Hsteps. induction Hsteps; eauto using step_remembered. Qed.

(** What is known of the result of [getTenantFromApiSignature] and
    [verifyApiSignature]: they accept only a header that could be processed. *)
Lemma accepted_processed signature tenantId body s r s' :
  getTenantFromApiSignature (Some signature) tenantId body s = (Ret (Some r), s') ->
  exists s1, db s1 = db s /\ now s1 = now s /\ process signature s1 = (Ret true, s').
Proof.
  unfold getTenantFromApiSignature. destruct (negb (truthy signature)); [done|]. unfold bind.
  destruct (tenant_of tenantId s) as [[[t0|]|e] s1] eqn:E; [|done..].
  assert (db s1 = db s /\ now s1 = now s) as [Hdb Hn].
  { unfold tenant_of, ret in E.
    destruct tenantId as [i|]; [|by simplify_eq]. destruct (truthy i); [|by simplify_eq].
    unfold lift in E. destruct (tenant_get i (ext s)). by simplify_eq. }
  destruct (process signature s1) as [[[|]|e] s2] eqn:Ep; [|done..]. simpl.
  intros Hr. exists s1. split; [done|]. split; [done|]. rewrite Ep. f_equal.
  unfold ret, throw in Hr. split_ifs_in Hr; by simplify_eq.
Qed.

(** C33. A signed request cannot be replayed: once a header was accepted, then, as long
    as the store keeps it - a thousand times the time for which a signature is valid -
    no request with that header is accepted again, whatever requests came between. *)
Theorem signature_accepted_once signature tenantId body r s s1 s2 :
  getTenantFromApiSignature (Some signature) tenantId body s = (Ret (Some r), s1) ->
  rtc step s1 s2 -> (now s2 < now s + 1000 * ttl)%Z ->
  (forall tenantId' body' r',
     (getTenantFromApiSignature (Some signature) tenantId' body' s2).1 <> Ret (Some r')) /\
  (forall body', (verifyApiSignature (Some signature) body' s2).1 <> Ret true).
Proof.
  intros Hacc Hsteps Htime. apply accepted_processed in Hacc as (s0 & Hdb & Hn & Hp).
  pose proof (process_outcome signature s0) as Ho. rewrite Hp in Ho.
  destruct Ho as (Hn1 & Hne & Hdb1 & _).
  assert (remembered signature (now s + 1000 * ttl) s1) as Hs1.
  { intros now' Hnow. rewrite Hdb1, Hn. apply redis_get_set. rewrite Hn1, Hn in Hnow. lia. }
  pose proof (steps_remembered _ _ _ _ Hne Hsteps Hs1) as Hs2.
  assert (forall s3 s4, db s3 = db s2 -> now s3 = now s2 -> process signature s3 <> (Ret true, s4)) as Hno.
  { intros s3 s4 Hdb3 Hn3 E. pose proof (process_outcome signature s3) as Ho. rewrite E in Ho.
    destruct Ho as (_ & _ & _ & Hget). apply Hget. rewrite Hdb3, Hn3. apply Hs2. lia. }
  split.
  - intros tid body' r' E.
    destruct (getTenantFromApiSignature (Some signature) tid body' s2) as [o s3] eqn:Eo. simpl in E.
    subst o. apply accepted_processed in Eo as (s4 & Hdb4 & Hn4 & E4). by apply (Hno s4 s3).
  - intros body' E. revert E. unfold verifyApiSignature.
    destruct (negb (truthy signature)); [done|]. unfold bind.
    destruct (process signature s2) as [[[|]|e] s3] eqn:E; [|done..]. by apply Hno in E.
Qed.
End Signatures.

(** ** A store, a tenant and a signed request *)

Module Example.
(** Keys with their values and the time they expire at. *)
Abbreviation Store := (gmap string (string * Z)).

#[export] Instance store : Redis Store := {
  redis_get now k r := match r !! k with
                       | Some (v, t) => if (now <? t)%Z then Some v else None
                       | None => None
                       end;
  redis_set_expire now k v seconds r := <[k := (v, now + 1000 * seconds)%Z]> r
}.

#[export] Instance store_laws : RedisLaws Store.
Proof.
  split; intros; unfold redis_get, redis_set_expire, store.
  - rewrite lookup_insert_eq. rewrite (proj2 (Z.ltb_lt _ _)) by lia. done.
  - by rewrite lookup_insert_ne.
Qed.

(** Stands for the HMAC: the lengths of its arguments. *)
Definition hmac (secret payload : string) : string :=
  bigint_toString (Z.of_nat (String.length (secret ++ payload))).

Lemma hmac_free secret payload :
  free_of "," (hmac secret payload) = true /\ free_of "=" (hmac secret payload) = true.
Proof. apply number_free. Qed.

Definition body (s : string) : string := s.

Definition Number (s : string) : number :=
  match StringToBigInt s with Some n => of_bigint n | None => S754_nan end.

Lemma Number_reads n : Number (bigint_toString n) = of_bigint n.
Proof.
  unfold Number. pose proof (BigInt_toString n) as E. unfold BigInt in E.
  destruct (StringToBigInt _); by simplify_eq.
Qed.

(** A tenant is its secret. *)
Definition tenant_get (i : string) : M unit (option string) :=
  ret (if bool_decide (i = "tenant") then Some "secret" else None).

Definition s0 : Svc Store unit := {| db := ∅; now := 5000; Service.fresh := 0; ext := tt |}.

Definition header : string := signRequest hmac body 4000 1 "secret" "{}".

Definition check (signature : string) : M (Svc Store unit) (option (TenantApiSignatureResult (T:=string))) :=
  getTenantFromApiSignature hmac body Number tenant_get (fun t => t) "admin" 1 30
    (Some signature) (Some "tenant") "{}".

Definition accepted : TenantApiSignatureResult (T:=string) := {| tenant := "secret"; isOperator := false |}.

Definition s1 : Svc Store unit := (check header s0).2.

Lemma accepted_first : check header s0 = (Ret (Some accepted), s1).
Proof. by vm_compute. Qed.

(** ** The store knows headers, not signatures

    Only the first two parts of the header are read: the same signature with another
    part behind it is a header that was not seen yet. *)
Lemma replay_with_suffix :
  (check header s1).1 = Ret None /\ (check (header ++ ", again") s1).1 = Ret (Some accepted).
Proof. by vm_compute. Qed.
End Example.

#[local] Existing Instance Example.store.
#[local] Existing Instance Example.store_laws.

Lemma signature_roundtrip_witness :
  verifyApiSignatureDigest Example.hmac Example.body Example.Number
    (signRequest Example.hmac Example.body 4000 1 "secret" "{}") "{}" 1 "secret" = Ret true.
Proof.
  exact (proj1 (signature_roundtrip Example.hmac Example.body Example.Number Example.hmac_free
    4000 1 "secret" "{}" Example.Number_reads eq_refl)).
Defined.

Lemma signature_accepted_once_witness :
  (Example.check Example.header Example.s0).1 = Ret (Some Example.accepted) /\
  forall r, (Example.check Example.header Example.s1).1 <> Ret (Some r).
Proof.
  split; [by vm_compute|].
  assert (now Example.s1 < now Example.s0 + 1000 * (30 * 1000))%Z as Htime by by vm_compute.
  exact (proj1 (signature_accepted_once Example.hmac Example.body Example.Number Example.tenant_get
    (fun t => t) "admin" 1 30 Example.header (Some "tenant") "{}" Example.accepted
    Example.s0 Example.s1 Example.s1 Example.accepted_first (rtc_refl _ _) Htime)
    (Some "tenant") "{}").
Defined.
