(* ===== verification/Cache.v ===== *)
(** * Cache: the in-memory cache store

    Models [middleware/cache/data-stores/in-memory.ts].  Entries expire
    [keyTtlMs] after they are set; an expired entry is dropped when it is read. *)

From S2P Require Import Prelude.

Local Open Scope Z_scope.

Record Cached (T : Type) := { expiry : Z; data : T }.
Arguments expiry {T}. Arguments data {T}.

Abbreviation Cache T := (gmap string (Cached T)).

Section Store.
Context {T : Type}.
Implicit Types map : Cache T.

Definition deleteKey (key : string) map : Cache T := delete key map.

Definition getAndCheckExpiry (now : Z) (key : string) map : option (Cached T) * Cache T :=
  match map !! key with
  | Some cached =>
      if truthy (expiry cached) && (expiry cached <=? now)
      then (None, deleteKey key map) else (Some cached, map)
  | None => (None, map)
  end.

Definition cache_get (now : Z) (key : string) map : option T * Cache T :=
  let '(cached, map) := getAndCheckExpiry now key map in (data <$> cached, map).

Definition getKeyExpiry (now : Z) (key : string) map : option Z * Cache T :=
  let '(cached, map) := getAndCheckExpiry now key map in (expiry <$> cached, map).

Definition cache_set (keyTtlMs now : Z) (key : string) (value : T) map : Cache T :=
  <[key := {| expiry := now + keyTtlMs; data := value |}]> map.

Definition deleteAll (map : Cache T) : Cache T := ∅.

(** ** What every entry satisfies *)

Definition entries (P : string -> T -> Prop) map : Prop :=
  forall key c, map !! key = Some c -> P key (data c).

Lemma entries_empty P : entries P (∅ : Cache T).
Proof. intros key c. by rewrite lookup_empty. Qed.

Lemma entries_set P ttl now key v map :
  P key v -> entries (fun key' w => key' <> key -> P key' w) map ->
  entries P (cache_set ttl now key v map).
Proof.
  intros Hv Hmap key' c. unfold cache_set.
  destruct (decide (key' = key)) as [->|Hne].
  - rewrite lookup_insert_eq. by intros [= <-].
  - rewrite lookup_insert_ne by done. intros Hc. by apply (Hmap key').
Qed.

Lemma entries_mono (P Q : string -> T -> Prop) map :
  (forall key v, P key v -> Q key v) -> entries P map -> entries Q map.
Proof. intros HPQ Hmap key c Hc. apply HPQ. by apply Hmap. Qed.

(** A read returns an entry or nothing, and adds none. *)
Lemma cache_get_spec now key map r map' :
  cache_get now key map = (r, map') ->
  (forall P, entries P map -> entries P map') /\
  match r with
  | Some v => exists c, map !! key = Some c /\ data c = v /\ (expiry c = 0 \/ now < expiry c)
  | None => True
  end.
Proof.
  unfold cache_get, getAndCheckExpiry, deleteKey, truthy, truthy_Z. intros H.
  destruct (map !! key) as [c|] eqn:E; [|by simplify_eq].
  destruct (negb (expiry c =? 0) && (expiry c <=? now)) eqn:Ex; simplify_eq/=.
  - split; [|done]. intros P HP key' c' Hc'. apply HP.
    destruct (decide (key' = key)) as [->|Hne]; [by rewrite lookup_delete_eq in Hc'|].
    by rewrite lookup_delete_ne in Hc'.
  - split; [done|]. exists c. split_and!; [done..|].
    apply andb_false_iff in Ex as [Ex|Ex]; zbool; [by left|by right].
Qed.
End Store.
