(* ===== verification/Pagination.v ===== *)
(** * Pagination: cursor pagination of a table

    Models [getPage] of [shared/baseModel.ts] and [shared/pagination.ts].  The
    rows of a table are ordered by [(createdAt, id)]; a query keeps the rows of
    its [WHERE] clause.  The order on identifiers is that of Postgres on
    [uuid], which on their lower-case text is the order of strings. *)

From Stdlib Require Import OrdersEx.
From S2P Require Import Prelude.

Local Open Scope Z_scope.
Local Open Scope ts_scope.

Record Pagination := {
  walletAddress : option string;
  after : option string;
  before : option string;
  first : option Z;
  last : option Z
}.

Record PageInfo := {
  startCursor : option string;
  endCursor : option string;
  hasNextPage : bool;
  hasPreviousPage : bool
}.

Inductive SortOrder := Asc | Desc.

(** [x || n] *)
Definition or_number (x : option Z) (n : Z) : Z :=
  match x with Some z => if truthy z then z else n | None => n end.

#[global] Arguments or_number : simpl never.

(** The rows of a table: what [BaseModel] gives every model. *)
Class BaseModel (A : Type) := { id : A -> string; createdAt : A -> Z }.

Section GetPage.
Context {A : Type} `{BaseModel A}.

(** The order of identifiers. *)
Definition id_ltb (s t : string) : bool :=
  match String_as_OT.compare s t with Lt => true | _ => false end.

(** [(createdAt, id) < (createdAt, id)] *)
Definition key_lt (x y : A) : bool :=
  (createdAt x <? createdAt y) || ((createdAt x =? createdAt y) && id_ltb (id x) (id y)).

(** [x] comes before [y] in the sort order. *)
Definition precedes (o : SortOrder) (x y : A) : bool :=
  match o with Asc => key_lt x y | Desc => key_lt y x end.

Definition row_le (o : SortOrder) (x y : A) : Prop := precedes o y x = false.

#[local] Instance row_le_dec o : RelDecision (row_le o).
Proof. intros x y. unfold row_le. apply _. Defined.

Definition opposite (o : SortOrder) : SortOrder :=
  match o with Asc => Desc | Desc => Asc end.

(** [orderBy([{createdAt, order}, {id, order}])] *)
Definition orderBy (o : SortOrder) (l : list A) : list A := merge_sort (row_le o) l.

(** [whereRaw((createdAt, id) < (select createdAt, id from table where id = cursor))]:
    no row satisfies the comparison with a cursor that is not in the table. *)
Definition past_cursor (o : SortOrder) (table : list A) (cursor : string) (x : A) : bool :=
  match find_where (fun c => bool_decide (id c = cursor)) table with
  | Some c => precedes o c x
  | None => false
  end.

Definition limit (n : Z) (l : list A) : list A := take (Z.to_nat n) l.

(** [query.getPage(pagination, sortOrder)] of a query over [table] whose
    [WHERE] clauses are [where_]. *)
Definition getPage (table : list A) (where_ : A -> bool)
    (pagination : option Pagination) (sortOrder : SortOrder) : outcome (list A) :=
  let before_ := pagination ≫= before in
  let last_ := pagination ≫= last in
  if negb (is_some before_) && is_some last_
  then Throw (JsError "Error" "Can't paginate backwards from the start.")
  else
  let first := or_number (pagination ≫= first) 20 in
  if (first <? 0) || (100 <? first) then Throw (JsError "Error" "Pagination index error")
  else
  let last := or_number last_ 20 in
  if (last <? 0) || (100 <? last) then Throw (JsError "Error" "Pagination index error")
  else
  match pagination ≫= after with
  | Some cursor =>
      Ret (limit first (orderBy sortOrder
             (List.filter (fun x => where_ x && past_cursor sortOrder table cursor x) table)))
  | None =>
      match before_ with
      | Some cursor =>
          let order := opposite sortOrder in
          Ret (rev (limit last (orderBy order
                 (List.filter (fun x => where_ x && past_cursor order table cursor x) table))))
      | None => Ret (limit first (orderBy sortOrder (List.filter where_ table)))
      end
  end.

(** ** [shared/pagination.ts] *)

Definition parsePaginationQueryParameters (walletAddress : option string)
    (first last : option Z) (cursor : option string) : Pagination :=
  {| walletAddress := walletAddress;
     first := first;
     last := last;
     before := if truthy last then cursor else None;
     after := if truthy cursor && negb (truthy last) then cursor else None |}.

(** A page the caller could not fetch counts as empty. *)
Definition page_or_empty (r : outcome (list A)) : list A :=
  match r with Ret page => page | Throw _ => [] end.

Definition getPageInfo (fetch : Pagination -> outcome (list A)) (page : list A)
    (walletAddress : option string) : PageInfo :=
  match page with
  | [] => {| startCursor := None; endCursor := None;
             hasNextPage := false; hasPreviousPage := false |}
  | f :: _ =>
      let firstId := id f in
      let lastId := id (List.last page f) in
      let next := page_or_empty (fetch
        {| walletAddress := walletAddress; after := Some lastId; before := None;
           first := Some 1; last := None |}) in
      let previous := page_or_empty (fetch
        {| walletAddress := walletAddress; after := None; before := Some firstId;
           first := None; last := Some 1 |}) in
      {| endCursor := Some lastId;
         hasNextPage := (length next =? 1)%nat;
         hasPreviousPage := (length previous =? 1)%nat;
         startCursor := Some firstId |}
  end.

(** ** The order *)

Lemma id_ltb_irrefl s : id_ltb s s = false.
Proof.
  unfold id_ltb. destruct (String_as_OT.compare_spec s s) as [_|Hlt|_]; try done.
  by destruct (StrictOrder_Irreflexive _ Hlt).
Qed.

Lemma id_ltb_trans s t u : id_ltb s t = true -> id_ltb t u = true -> id_ltb s u = true.
Proof.
  unfold id_ltb. intros Hst Htu.
  destruct (String_as_OT.compare s t) eqn:E1, (String_as_OT.compare t u) eqn:E2; try done.
  assert (String_as_OT.lt s u) as Hsu by (etransitivity; [exact E1|exact E2]).
  unfold String_as_OT.lt in Hsu. by rewrite Hsu.
Qed.

Lemma id_ltb_total s t : id_ltb s t = false -> id_ltb t s = false -> s = t.
Proof.
  unfold id_ltb. intros H1 H2.
  destruct (String_as_OT.compare_spec s t) as [|Hlt|Hlt]; [done|done|].
  unfold String_as_OT.lt in Hlt. by rewrite Hlt in H2.
Qed.

Lemma precedes_opposite o x y : precedes (opposite o) x y = precedes o y x.
Proof. by destruct o. Qed.

Lemma precedes_irrefl o x : precedes o x x = false.
Proof. destruct o; simpl; unfold key_lt; by rewrite Z.ltb_irrefl, id_ltb_irrefl, andb_false_r. Qed.

Lemma key_lt_trans x y z : key_lt x y = true -> key_lt y z = true -> key_lt x z = true.
Proof.
  unfold key_lt. rewrite !orb_true_iff, !andb_true_iff, !Z.ltb_lt, !Z.eqb_eq.
  intros [?|[? ?]] [?|[? ?]]; [left; lia|left; lia|left; lia|].
  right. split; [lia|]. by eapply id_ltb_trans.
Qed.

Lemma precedes_trans o x y z :
  precedes o x y = true -> precedes o y z = true -> precedes o x z = true.
Proof. destruct o; simpl; eauto using key_lt_trans. Qed.

Lemma key_lt_total x y : key_lt x y = false -> key_lt y x = false -> id x = id y.
Proof.
  unfold key_lt. rewrite !orb_false_iff, !andb_false_iff, !Z.ltb_ge, !Z.eqb_neq.
  intros [? [?|?]] [? [?|?]]; try lia. by apply id_ltb_total.
Qed.

Lemma precedes_total o x y : precedes o x y = false -> precedes o y x = false -> id x = id y.
Proof. destruct o; simpl; intros; [|symmetry]; by apply key_lt_total. Qed.

Lemma precedes_asym o x y : precedes o x y = true -> precedes o y x = false.
Proof.
  intros Hxy. apply not_true_iff_false. intros Hyx.
  pose proof (precedes_trans o x y x Hxy Hyx) as Hxx. by rewrite precedes_irrefl in Hxx.
Qed.

#[local] Instance row_le_total o : Total (row_le o).
Proof.
  intros x y. unfold row_le. destruct (precedes o y x) eqn:E; [|by left].
  right. by apply precedes_asym.
Qed.

Lemma id_ltb_cotrans s t u : id_ltb s u = true -> id_ltb s t = true \/ id_ltb t u = true.
Proof.
  intros Hsu. destruct (id_ltb s t) eqn:E1; [by left|]. destruct (id_ltb t u) eqn:E2; [by right|].
  destruct (id_ltb t s) eqn:E3.
  - by rewrite (id_ltb_trans t s u) in E2.
  - by rewrite (id_ltb_total s t) in Hsu by done; rewrite Hsu in E2.
Qed.

Lemma key_lt_cotrans x y z : key_lt x z = true -> key_lt x y = true \/ key_lt y z = true.
Proof.
  unfold key_lt. intros Hxz. rewrite !orb_true_iff, !andb_true_iff, !Z.ltb_lt, !Z.eqb_eq in *.
  destruct Hxz as [Hxz|[Hxz Hid]].
  - destruct (Z.lt_trichotomy (createdAt x) (createdAt y)) as [?|[?|?]]; auto with lia.
  - destruct (Z.lt_trichotomy (createdAt x) (createdAt y)) as [?|[?|?]]; auto with lia.
    destruct (id_ltb_cotrans _ (id y) _ Hid); [left|right]; right; split; auto; lia.
Qed.

#[local] Instance row_le_trans o : Transitive (row_le o).
Proof.
  unfold row_le. intros x y z Hxy Hyz. apply not_true_iff_false. intros Hzx.
  destruct o; simpl in *; destruct (key_lt_cotrans _ y _ Hzx); congruence.
Qed.

(** ** The listing a pagination walks *)

(** Rows by the sort order, without a limit. *)
Definition listing (table : list A) (where_ : A -> bool) (o : SortOrder) : list A :=
  orderBy o (List.filter where_ table).

Lemma orderBy_perm o l : orderBy o l ≡ₚ l.
Proof. apply merge_sort_Permutation. Qed.

Lemma orderBy_sorted o l : StronglySorted (row_le o) (orderBy o l).
Proof. apply (StronglySorted_merge_sort (row_le o)). Qed.

Lemma StronglySorted_filter_bool (R : relation A) (p : A -> bool) l :
  StronglySorted R l -> StronglySorted R (List.filter p l).
Proof.
  induction 1 as [|x l Hl IH Hx]; simpl; [constructor|].
  destruct (p x); [|done]. constructor; [done|]. rewrite Forall_forall in Hx |- *.
  intros y [_ Hy]%elem_of_filter_bool. by apply Hx.
Qed.

Lemma filter_bool_perm (p : A -> bool) (l l' : list A) :
  l ≡ₚ l' -> List.filter p l ≡ₚ List.filter p l'.
Proof.
  induction 1 as [|x l l' _ IH|x y l|l1 l2 l3 _ IH1 _ IH2]; simpl; [done| | |by etrans].
  - destruct (p x); [by constructor|done].
  - destruct (p x), (p y); try done. by constructor.
Qed.

(** Lists with the same rows, both in order, are equal. *)
Lemma sorted_unique o l l' :
  NoDup (id <$> l) -> l ≡ₚ l' ->
  StronglySorted (row_le o) l -> StronglySorted (row_le o) l' -> l = l'.
Proof.
  intros Hnd Hp Hl Hl'. eapply (StronglySorted_unique_strong (row_le o)); [|done..].
  intros x y Hx Hy Hxy Hyx. rewrite <- Hp in Hy. eapply (unique_key id); eauto.
  by eapply precedes_total.
Qed.

Lemma orderBy_filter o (p : A -> bool) l :
  NoDup (id <$> l) -> orderBy o (List.filter p l) = List.filter p (orderBy o l).
Proof.
  intros Hnd.
  assert (NoDup (id <$> List.filter p l)) as Hnd'.
  { clear -Hnd. induction l as [|x l IH]; simpl; [constructor|].
    rewrite fmap_cons in Hnd. apply NoDup_cons in Hnd as [Hx Hnd].
    destruct (p x); [|by apply IH]. rewrite fmap_cons. apply NoDup_cons. split; [|by apply IH].
    intros (y & Heq & [_ Hy]%elem_of_filter_bool)%list_elem_of_fmap.
    apply Hx. rewrite Heq. by apply list_elem_of_fmap_2. }
  apply (sorted_unique o).
  - by rewrite orderBy_perm.
  - rewrite orderBy_perm. apply filter_bool_perm. by rewrite orderBy_perm.
  - apply orderBy_sorted.
  - apply StronglySorted_filter_bool, orderBy_sorted.
Qed.

(** The opposite order is the reverse. *)
Lemma StronglySorted_snoc (R : relation A) l x :
  StronglySorted R l -> (forall y, y ∈ l -> R y x) -> StronglySorted R (l ++ [x]).
Proof.
  induction 1 as [|y l Hl IH Hy]; intros Hx; simpl; [by repeat constructor|].
  constructor; [apply IH; set_solver|]. rewrite Forall_app, Forall_singleton. split; [done|].
  apply Hx. set_solver.
Qed.

Lemma StronglySorted_rev o l :
  StronglySorted (row_le o) l -> StronglySorted (row_le (opposite o)) (rev l).
Proof.
  induction 1 as [|x l Hl IH Hx]; simpl; [constructor|].
  apply StronglySorted_snoc; [done|]. intros y Hy. rewrite Forall_forall in Hx.
  unfold row_le in *. rewrite precedes_opposite. apply Hx.
  by rewrite list_elem_of_In in *; apply in_rev.
Qed.

Lemma orderBy_opposite o l : NoDup (id <$> l) -> orderBy (opposite o) l = rev (orderBy o l).
Proof.
  intros Hnd. apply (sorted_unique (opposite o)).
  - by rewrite orderBy_perm.
  - rewrite orderBy_perm, <- Permutation_rev. by rewrite orderBy_perm.
  - apply orderBy_sorted.
  - apply StronglySorted_rev, orderBy_sorted.
Qed.

(** ** Pages around a row of the listing *)

Section Around.
Context (table : list A) (where_ : A -> bool) (o : SortOrder).
Context (Hnd : NoDup (id <$> table)).

Lemma listing_NoDup : NoDup (id <$> listing table where_ o).
Proof.
  unfold listing. rewrite orderBy_filter by done. pose proof Hnd as H'.
  rewrite <- (orderBy_perm o table) in H'. revert H'. generalize (orderBy o table). intros l.
  induction l as [|x l IH]; simpl; [done|]. intros [Hx Hl]%NoDup_cons.
  destruct (where_ x); [|by apply IH]. rewrite fmap_cons. apply NoDup_cons. split; [|by apply IH].
  intros (y & Heq & [_ Hy]%elem_of_filter_bool)%list_elem_of_fmap.
  apply Hx. rewrite Heq. by apply list_elem_of_fmap_2.
Qed.

Lemma listing_sorted : StronglySorted (row_le o) (listing table where_ o).
Proof. apply orderBy_sorted. Qed.

Lemma listing_elem x : x ∈ listing table where_ o <-> where_ x = true /\ x ∈ table.
Proof. unfold listing. by rewrite orderBy_perm, elem_of_filter_bool. Qed.

Lemma listing_opposite : listing table where_ (opposite o) = rev (listing table where_ o).
Proof.
  unfold listing. rewrite !orderBy_filter by done. rewrite orderBy_opposite by done.
  generalize (orderBy o table). intros l. induction l as [|x l IH]; simpl; [done|].
  rewrite List.filter_app, IH. simpl. destruct (where_ x); simpl; [done|]. by rewrite app_nil_r.
Qed.

Lemma cursor_row c : c ∈ table -> find_where (fun x => bool_decide (id x = id c)) table = Some c.
Proof.
  intros Hc. destruct (find_where _ table) as [c'|] eqn:E.
  - apply find_where_Some in E as [Hc' E]. apply bool_decide_eq_true in E. f_equal.
    by eapply (unique_key id).
  - apply find_where_None with (x := c) in E; [|done]. by rewrite bool_decide_eq_true_2 in E.
Qed.
End Around.

Lemma filter_bool_ext_in (p q : A -> bool) l :
  (forall x, x ∈ l -> p x = q x) -> List.filter p l = List.filter q l.
Proof.
  induction l as [|x l IH]; intros Hpq; simpl; [done|]. rewrite (Hpq x) by set_solver.
  rewrite IH; [done|]. intros y Hy. apply Hpq. set_solver.
Qed.

Lemma filter_bool_all (p : A -> bool) l : (forall x, x ∈ l -> p x = true) -> List.filter p l = l.
Proof.
  induction l as [|x l IH]; intros Hp; simpl; [done|]. rewrite (Hp x) by set_solver.
  f_equal. apply IH. intros y Hy. apply Hp. set_solver.
Qed.

Lemma filter_bool_none (p : A -> bool) l : (forall x, x ∈ l -> p x = false) -> List.filter p l = [].
Proof.
  induction l as [|x l IH]; intros Hp; simpl; [done|]. rewrite (Hp x) by set_solver.
  apply IH. intros y Hy. apply Hp. set_solver.
Qed.

(** The rows the cursor clause keeps are those after the cursor's row. *)
Lemma after_cursor o table where_ l1 c l2 :
  NoDup (id <$> table) -> listing table where_ o = l1 ++ c :: l2 ->
  orderBy o (List.filter (fun x => where_ x && past_cursor o table (id c) x) table) = l2.
Proof.
  intros Hnd Hl.
  pose proof (listing_sorted table where_ o) as Hs.
  pose proof (listing_NoDup table where_ o Hnd) as Hn. rewrite Hl in Hs, Hn.
  assert (c ∈ table) as Hc by (apply (listing_elem table where_ o); rewrite Hl; set_solver).
  transitivity (List.filter (past_cursor o table (id c)) (listing table where_ o)).
  { unfold listing. rewrite !orderBy_filter by done. generalize (orderBy o table). intros l.
    induction l as [|x l IH]; simpl; [done|]. by destruct (where_ x); simpl; rewrite IH. }
  rewrite Hl, List.filter_app. simpl.
  assert (forall x, past_cursor o table (id c) x = precedes o c x) as Hp
    by (intros x; unfold past_cursor; by rewrite cursor_row).
  rewrite fmap_app, fmap_cons in Hn. apply NoDup_app in Hn as (_ & Hn1 & Hn2).
  apply NoDup_cons in Hn2 as [Hn2 _].
  apply StronglySorted_app in Hs as (H1 & Hs1 & Hs2).
  rewrite filter_bool_none, Hp, precedes_irrefl; simpl.
  - apply filter_bool_all. intros x Hx. rewrite Hp.
    apply StronglySorted_inv in Hs2 as [_ Hs2]. rewrite Forall_forall in Hs2.
    specialize (Hs2 x Hx). unfold row_le in Hs2.
    destruct (precedes o c x) eqn:E; [done|]. exfalso. apply Hn2.
    rewrite (precedes_total o c x) by done. by apply list_elem_of_fmap_2.
  - intros x Hx. rewrite Hp. apply (H1 x c Hx). set_solver.
Qed.

(** ** Theorems *)

(** The request for [n] rows after a cursor, and before one. *)
Definition rows_after (wa : option string) (cursor : string) (n : Z) : Pagination :=
  {| walletAddress := wa; after := Some cursor; before := None; first := Some n; last := None |}.
Definition rows_before (wa : option string) (cursor : string) (n : Z) : Pagination :=
  {| walletAddress := wa; after := None; before := Some cursor; first := None; last := Some n |}.

Lemma or_number_pos n d : 0 < n -> or_number (Some n) d = n.
Proof.
  intros Hn. unfold or_number, truthy, truthy_Z. by destruct (Z.eqb_spec n 0); [lia|].
Qed.

Lemma getPage_after_cursor table where_ o wa l1 c l2 n :
  NoDup (id <$> table) -> listing table where_ o = l1 ++ c :: l2 -> 1 <= n <= 100 ->
  getPage table where_ (Some (rows_after wa (id c) n)) o = Ret (take (Z.to_nat n) l2).
Proof.
  intros Hnd Hl Hn. unfold getPage. simpl. rewrite or_number_pos by lia.
  destruct (Z.ltb_spec n 0), (Z.ltb_spec 100 n); try lia; simpl.
  unfold limit. by erewrite after_cursor.
Qed.

Lemma getPage_before_cursor table where_ o wa l1 c l2 n :
  NoDup (id <$> table) -> listing table where_ o = l1 ++ c :: l2 -> 1 <= n <= 100 ->
  getPage table where_ (Some (rows_before wa (id c) n)) o
  = Ret (drop (length l1 - Z.to_nat n) l1).
Proof.
  intros Hnd Hl Hn. unfold getPage. simpl. rewrite or_number_pos by lia.
  destruct (Z.ltb_spec n 0), (Z.ltb_spec 100 n); try lia; simpl.
  unfold limit. rewrite (after_cursor (opposite o) _ _ (rev l2) c (rev l1)); [|done|].
  - rewrite <- (rev_involutive l1) at 2. by rewrite firstn_rev, !rev_involutive.
  - rewrite listing_opposite by done. rewrite Hl, rev_app_distr. simpl. by rewrite <- app_assoc.
Qed.

(** Pages are adjacent to their cursor.  In a table without duplicate
    identifiers, asking for [n] rows after the cursor of a listed row returns the
    next [n] rows of the listing in order, and asking for [n] rows before it
    returns the [n] rows that precede it, also in listing order although the query
    runs backwards. *)
Theorem getPage_adjacent table where_ o wa l1 c l2 n
    (Hnd : NoDup (id <$> table))
    (Hl : listing table where_ o = l1 ++ c :: l2)
    (Hn : 1 <= n <= 100) :
  getPage table where_ (Some (rows_after wa (id c) n)) o = Ret (take (Z.to_nat n) l2) /\
  getPage table where_ (Some (rows_before wa (id c) n)) o
  = Ret (drop (length l1 - Z.to_nat n) l1).
Proof. split; [by eapply getPage_after_cursor|by eapply getPage_before_cursor]. Qed.

Definition list_fetch table where_ o : Pagination -> outcome (list A) :=
  fun p => getPage table where_ (Some p) o.

Lemma getPageInfo_segment table where_ o wa l1 page z l2 :
  NoDup (id <$> table) -> listing table where_ o = l1 ++ (page ++ [z]) ++ l2 ->
  let info := getPageInfo (list_fetch table where_ o) (page ++ [z]) wa in
  hasNextPage info = negb (bool_decide (l2 = [])) /\
  hasPreviousPage info = negb (bool_decide (l1 = [])) /\
  startCursor info = id <$> head (page ++ [z]) /\ endCursor info = Some (id z).
Proof.
  intros Hnd Hl. destruct (page ++ [z]) as [|f page'] eqn:Heq; [by destruct page|].
  pose proof (getPage_before_cursor table where_ o wa l1 f (page' ++ l2) 1 Hnd Hl ltac:(lia)) as Hb.
  assert (List.last (f :: page') f = z) as Hlast by (rewrite <- Heq; apply List.last_last).
  rewrite <- Heq, <- app_assoc, app_assoc in Hl.
  pose proof (getPage_after_cursor table where_ o wa (l1 ++ page) z l2 1 Hnd Hl ltac:(lia)) as Ha.
  unfold rows_after in Ha. unfold rows_before in Hb.
  unfold getPageInfo, list_fetch. rewrite Hlast, Ha, Hb. simpl. split_and!; [| |done..].
  - by destruct l2.
  - rewrite length_drop. destruct l1 as [|x l1]; [done|]. apply Nat.eqb_eq. simpl. lia.
Qed.

(** A client that starts from [page] and follows [endCursor] for as long as
    [hasNextPage] says so, asking for [n] rows each time. *)
Fixpoint walk (fuel : nat) (fetch : Pagination -> outcome (list A)) (n : Z) (page : list A)
    : option (list A) :=
  match fuel with
  | O => None
  | S fuel =>
      let info := getPageInfo fetch page None in
      if hasNextPage info
      then match fetch (rows_after None (default "" (endCursor info)) n) with
           | Ret page' => (app page) <$> walk fuel fetch n page'
           | Throw _ => None
           end
      else Some page
  end.

Lemma walk_from table where_ o n fuel l1 page l2 :
  NoDup (id <$> table) -> listing table where_ o = l1 ++ page ++ l2 -> page <> [] ->
  1 <= n <= 100 -> (length l2 < fuel)%nat ->
  walk fuel (list_fetch table where_ o) n page = Some (page ++ l2).
Proof.
  intros Hnd. revert l1 page l2. induction fuel as [|fuel IH]; intros l1 page l2 Hl Hpage Hn Hfuel;
    [lia|]. cbn [walk].
  destruct (exists_last Hpage) as (page' & z & ->).
  destruct (getPageInfo_segment table where_ o None l1 page' z l2 Hnd Hl) as (-> & _ & _ & ->).
  destruct l2 as [|x l2].
  { rewrite bool_decide_eq_true_2 by done. simpl. by rewrite app_nil_r. }
  rewrite bool_decide_eq_false_2 by done. cbn [negb].
  cbn [default from_option].
  unfold list_fetch at 1.
  rewrite (getPage_after_cursor table where_ o None (l1 ++ page') z (x :: l2));
    [|done|rewrite Hl, <- !app_assoc; done|done].
  rewrite (IH (l1 ++ page' ++ [z]) _ (drop (Z.to_nat n) (x :: l2))).
  - simpl fmap. f_equal. by rewrite take_drop.
  - rewrite Hl, take_drop. by rewrite <- !app_assoc.
  - destruct (Z.to_nat n) eqn:E; [lia|]. done.
  - done.
  - rewrite length_drop. simpl in *. lia.
Qed.

(** C39. Following the cursors visits everything once.  A client that fetches the
    first page and keeps asking for the [n] rows after [endCursor] while
    [hasNextPage] holds receives, concatenated, exactly the rows of the listing in
    order: the page info of every page is right, no row is skipped or repeated,
    and the walk ends within as many requests as there are rows. *)
Theorem pagination_walk_complete table where_ o n
    (Hnd : NoDup (id <$> table)) (Hn : 1 <= n <= 100) :
  exists page,
    getPage table where_
      (Some {| walletAddress := None; after := None; before := None;
               first := Some n; last := None |}) o = Ret page /\
    walk (S (length table)) (list_fetch table where_ o) n page = Some (listing table where_ o).
Proof.
  assert (length (listing table where_ o) <= length table)%nat as Hlen
    by (unfold listing; rewrite orderBy_perm; apply List.filter_length_le).
  remember (S (length table)) as fuel eqn:Efuel.
  pose proof (take_drop (Z.to_nat n) (listing table where_ o)) as Hl.
  unfold getPage. simpl. rewrite or_number_pos by lia.
  destruct (Z.ltb_spec n 0), (Z.ltb_spec 100 n); try lia; simpl.
  eexists. split; [done|]. unfold limit.
  change (orderBy o (List.filter where_ table)) with (listing table where_ o).
  destruct (decide (take (Z.to_nat n) (listing table where_ o) = [])) as [E|E].
  - rewrite E, Efuel. destruct (Z.to_nat n) eqn:En; [lia|].
    by destruct (listing table where_ o).
  - rewrite (walk_from table where_ o n fuel [] _ (drop (Z.to_nat n) (listing table where_ o)));
      rewrite ?Hl; try done.
    rewrite length_drop. lia.
Qed.
End GetPage.

(** ** Witnesses: three rows, two created at the same time *)

Module Example.
Definition row : Type := Z * string.

#[export] Instance row_model : BaseModel row := { id := snd; createdAt := fst }.

Definition table : list row := [(2, "b"); (1, "c"); (2, "a")]%string.
Definition all (x : row) : bool := true.

Lemma table_NoDup : NoDup (id <$> table).
Proof. apply (bool_decide_unpack _). by vm_compute. Qed.
End Example.

#[local] Existing Instance Example.row_model.

Lemma getPage_adjacent_witness :
  getPage Example.table Example.all (Some (rows_after None "a" 5)) Asc
    = Ret [(2, "b"%string)] /\
  getPage Example.table Example.all (Some (rows_before None "a" 5)) Asc
    = Ret [(1, "c"%string)].
Proof.
  exact (getPage_adjacent Example.table Example.all Asc None [(1, "c"%string)] (2, "a"%string)
           [(2, "b"%string)] 5 Example.table_NoDup ltac:(by vm_compute) ltac:(lia)).
Defined.

Lemma pagination_walk_complete_witness :
  exists page, getPage Example.table Example.all
      (Some {| walletAddress := None; after := None; before := None;
               first := Some 1; last := None |}) Desc = Ret page /\
    walk 4 (list_fetch Example.table Example.all Desc) 1 page
    = Some [(2, "b"); (2, "a"); (1, "c")]%string.
Proof.
  destruct (pagination_walk_complete Example.table Example.all Desc 1 Example.table_NoDup
              ltac:(lia)) as (page & Hp & Hw).
  exists page. split; [exact Hp|]. etransitivity; [exact Hw|by vm_compute].
Defined.
