(* ===== verification/OpenPayments.v ===== *)
(** * OpenPayments: the data the payment components share

    Amounts ([open_payments/amount.ts]), assets ([asset/model.ts]), wallet
    addresses and the queries of their subresources
    ([open_payments/wallet_address/model.ts]) and receivers
    ([open_payments/receiver/model.ts]).  Dates are milliseconds. *)

From S2P Require Import Prelude.
From S2P Require Pagination.

Local Open Scope Z_scope.
Local Open Scope ts_scope.

#[global] Instance Amount_eq_dec : EqDecision Amount.
Proof. solve_decision. Defined.

Record Asset := {
  a_id : string;
  a_code : string;
  a_scale : Z;
  a_ledger : Z;
  a_tenantId : string;
  a_withdrawalThreshold : option Z;
  a_liquidityThreshold : option Z
}.

#[global] Instance Asset_eq_dec : EqDecision Asset.
Proof. solve_decision. Defined.

Record WalletAddress := {
  wa_id : string;
  wa_tenantId : string;
  wa_address : string;
  wa_assetId : string;
  wa_asset : Asset;
  wa_totalEventsAmount : Z;
  wa_processAt : option Z;
  wa_deactivatedAt : option Z
}.

(** [WalletAddress.isActive] *)
Definition wallet_isActive (now : Z) (w : WalletAddress) : bool :=
  match wa_deactivatedAt w with Some t => now <? t | None => true end.

(** ** Receivers *)

(** A payment method of a receiver; [type] is ["ilp"] for ILP. *)
Record IlpPaymentMethod := {
  method_type : string;
  ilpAddress : string;
  sharedSecret : string
}.

Record Receiver := {
  r_assetCode : string;
  r_assetScale : Z;
  r_isLocal : bool;
  r_incomingPaymentId : string;
  r_completed : bool;
  r_expiresAt : option Z;
  r_incomingAmountValue : option Z;
  r_receivedAmountValue : Z;
  r_methods : list IlpPaymentMethod
}.

Definition receiver_incomingAmount (r : Receiver) : option Amount :=
  (fun v => {| value := v; assetCode := r_assetCode r; assetScale := r_assetScale r |})
    <$> r_incomingAmountValue r.

(** The received amount of an incoming payment is always present. *)
Definition receiver_receivedAmount (r : Receiver) : Amount :=
  {| value := r_receivedAmountValue r; assetCode := r_assetCode r; assetScale := r_assetScale r |}.

(** [Receiver.isActive] *)
Definition receiver_isActive (now : Z) (r : Receiver) : bool :=
  if r_completed r then false
  else if match r_expiresAt r with Some t => t <=? now | None => false end then false
  else negb (Nat.eqb (length (r_methods r)) 0).

(** What the receiver can still take, when it asked for a fixed amount. *)
Definition receiver_remaining (r : Receiver) : option Z :=
  (fun v => v - r_receivedAmountValue r) <$> r_incomingAmountValue r.

(** ** Queries on the subresources of a wallet address *)

Record GetOptions := {
  go_id : string;
  go_client : option string;
  go_walletAddressId : option string;
  go_tenantId : option string
}.

(** [where] clauses that apply only when the option is truthy. *)
Definition when_given (o : option string) (column : option string) : bool :=
  match o with
  | Some s => if truthy s then bool_decide (column = Some s) else true
  | None => true
  end.

(** [query.get(options)]: its clauses do not include the tenant, which callers add. *)
Definition subresource_get (o : GetOptions) (id walletAddressId : string)
    (client : option string) : bool :=
  when_given (go_walletAddressId o) (Some walletAddressId)
  && when_given (go_client o) client
  && bool_decide (id = go_id o).

Record ListOptions := {
  lo_walletAddressId : string;
  lo_client : option string;
  lo_pagination : option Pagination.Pagination;
  lo_sortOrder : option Pagination.SortOrder;
  lo_tenantId : option string
}.

(** [query.modify(clause).list(options)] over a table of subresources. *)
Definition subresource_list {A} `{Pagination.BaseModel A} (table : list A)
    (clause : A -> bool) (walletAddressId : A -> string) (client : A -> option string)
    (o : ListOptions) : outcome (list A) :=
  Pagination.getPage table
    (fun x => clause x && when_given (lo_client o) (client x)
              && bool_decide (walletAddressId x = lo_walletAddressId o))
    (lo_pagination o) (default Pagination.Desc (lo_sortOrder o)).

(** ** JSON values of metadata: a string, or the text of anything else *)

Inductive Json := JsonString (s : string) | JsonText (s : string).
