(* ===== verification/Accounting.v ===== *)
(** * Accounting: the accounting service's interface and its shared core

    Models [packages/backend/src/accounting/service.ts] and the error enum of
    [accounting/errors.ts].  The state [S] of an [AccountingService] is left
    abstract: [PsqlAccounting] gives the Postgres implementation, and the
    payment components are clients of the interface.  A callback ([onDebit],
    [onCredit]) is a computation on the same state; the [config] value the code
    hands to [onDebit] is closed over by the callback. *)

From S2P Require Import Prelude.

Local Open Scope Z_scope.
Local Open Scope ts_scope.

(** ** [accounting/errors.ts] *)

Inductive TransferError : Type :=
| AlreadyPosted
| AlreadyVoided
| DifferentAssets
| InsufficientBalance
| InsufficientDebitBalance
| InsufficientLiquidity
| InvalidAmount
| InvalidId
| InvalidSourceAmount
| InvalidDestinationAmount
| InvalidTimeout
| SameAccounts
| TransferExists
| TransferExpired
| UnknownTransfer
| UnknownError
| UnknownSourceAccount
| UnknownDestinationAccount.

#[global] Instance TransferError_eq_dec : EqDecision TransferError.
Proof. solve_decision. Defined.

(** [err instanceof AccountAlreadyExistsError] *)
Definition isAccountAlreadyExistsError (err : exn) : bool :=
  match err with
  | JsError name _ => bool_decide (name = "AccountAlreadyExistsError"%string)
  | _ => false
  end.

(** ** [accounting/service.ts]: data *)

Inductive LiquidityAccountType := ASSET | PEER | INCOMING | OUTGOING | WEB_MONETIZATION.

Inductive TransferType := DEPOSIT | WITHDRAWAL | TRANSFER.

Inductive LedgerTransferState := PENDING | POSTED | VOIDED.

#[global] Instance LiquidityAccountType_eq_dec : EqDecision LiquidityAccountType.
Proof. solve_decision. Defined.
#[global] Instance TransferType_eq_dec : EqDecision TransferType.
Proof. solve_decision. Defined.
#[global] Instance LedgerTransferState_eq_dec : EqDecision LedgerTransferState.
Proof. solve_decision. Defined.

Record OnCreditOptions := {
  totalReceived : Z;
  withdrawalThrottleDelay : option Z
}.

Record OnDebitOptions := { balance : Z }.

Record LiquidityAccountAsset (S : Type) := {
  asset_id : string;
  asset_code : option string;
  asset_scale : option Z;
  asset_ledger : Z;
  asset_onDebit : option (OnDebitOptions -> M S unit)
}.
Arguments asset_id {S}. Arguments asset_code {S}. Arguments asset_scale {S}.
Arguments asset_ledger {S}. Arguments asset_onDebit {S}.

Record LiquidityAccount (S : Type) := {
  account_id : string;
  account_asset : LiquidityAccountAsset S;
  account_onCredit : option (OnCreditOptions -> M S unit);
  account_onDebit : option (OnDebitOptions -> M S unit)
}.
Arguments account_id {S}. Arguments account_asset {S}.
Arguments account_onCredit {S}. Arguments account_onDebit {S}.

Record Deposit (S : Type) := {
  deposit_id : string;
  deposit_account : LiquidityAccount S;
  deposit_amount : Z
}.
Arguments deposit_id {S}. Arguments deposit_account {S}. Arguments deposit_amount {S}.

Record Withdrawal (S : Type) := {
  withdrawal_deposit : Deposit S;
  withdrawal_timeout : option Z
}.
Arguments withdrawal_deposit {S}. Arguments withdrawal_timeout {S}.

Record TransferOptions (S : Type) := {
  sourceAccount : LiquidityAccount S;
  destinationAccount : LiquidityAccount S;
  sourceAmount : Z;
  destinationAmount : option Z;
  timeout : Z;
  transferType : option TransferType
}.
Arguments sourceAccount {S}. Arguments destinationAccount {S}. Arguments sourceAmount {S}.
Arguments destinationAmount {S}. Arguments timeout {S}. Arguments transferType {S}.

Record Transaction (S : Type) := {
  post : M S (option TransferError);
  void : M S (option TransferError)
}.
Arguments post {S}. Arguments void {S}.

Record TransferToCreate := {
  sourceAccountId : string;
  destinationAccountId : string;
  amount : Z;
  ledger : Z;
  ttc_transferType : option TransferType
}.

(** The operations other components call; a [void | TransferError] result is
    an [option TransferError]. *)
Record AccountingService (S : Type) := {
  createLiquidityAccount : LiquidityAccount S -> LiquidityAccountType -> M S (LiquidityAccount S);
  createLiquidityAndLinkedSettlementAccount :
    LiquidityAccount S -> LiquidityAccountType -> M S (LiquidityAccount S);
  getBalance : string -> M S (option Z);
  getTotalSent : string -> M S (option Z);
  getAccountsTotalSent : list string -> M S (list (option Z));
  getTotalReceived : string -> M S (option Z);
  getAccountsTotalReceived : list string -> M S (list (option Z));
  getSettlementBalance : Z -> M S (option Z);
  createTransfer : TransferOptions S -> M S (res TransferError (Transaction S));
  createDeposit : Deposit S -> M S (option TransferError);
  createWithdrawal : Withdrawal S -> M S (option TransferError);
  postWithdrawal : string -> M S (option TransferError);
  voidWithdrawal : string -> M S (option TransferError)
}.
Arguments createLiquidityAccount {S}. Arguments createLiquidityAndLinkedSettlementAccount {S}.
Arguments getBalance {S}. Arguments getTotalSent {S}. Arguments getAccountsTotalSent {S}.
Arguments getTotalReceived {S}. Arguments getAccountsTotalReceived {S}.
Arguments getSettlementBalance {S}. Arguments createTransfer {S}. Arguments createDeposit {S}.
Arguments createWithdrawal {S}. Arguments postWithdrawal {S}. Arguments voidWithdrawal {S}.

(** ** Building the ledger transfers of an account-to-account transfer *)

Definition buildCrossAssetTransfers {S} (args : TransferOptions S)
  : res TransferError (list TransferToCreate) :=
  match destinationAmount args with
  | Some dst =>
      if truthy dst then
        Ok [ {| sourceAccountId := account_id (sourceAccount args);
                destinationAccountId := asset_id (account_asset (sourceAccount args));
                amount := sourceAmount args;
                ledger := asset_ledger (account_asset (sourceAccount args));
                ttc_transferType := transferType args |};
             {| sourceAccountId := asset_id (account_asset (destinationAccount args));
                destinationAccountId := account_id (destinationAccount args);
                amount := dst;
                ledger := asset_ledger (account_asset (destinationAccount args));
                ttc_transferType := transferType args |} ]
      else Err InvalidDestinationAmount
  | None => Err InvalidDestinationAmount
  end.

Definition buildSameAssetTransfers {S} (args : TransferOptions S) : list TransferToCreate :=
  let src := sourceAmount args in
  let same_ledger := asset_ledger (account_asset (sourceAccount args)) in
  let first amt :=
    {| sourceAccountId := account_id (sourceAccount args);
       destinationAccountId := account_id (destinationAccount args);
       amount := amt;
       ledger := same_ledger;
       ttc_transferType := transferType args |} in
  match destinationAmount args with
  | Some dst =>
      first (if truthy dst && (dst <? src) then dst else src) ::
      (if truthy dst && negb (src =? dst) then
         if dst <? src then
           (* excess source amount goes to the liquidity account *)
           [ {| sourceAccountId := account_id (sourceAccount args);
                destinationAccountId := asset_id (account_asset (sourceAccount args));
                amount := src - dst;
                ledger := same_ledger;
                ttc_transferType := transferType args |} ]
         else
           (* excess destination amount comes from the liquidity account *)
           [ {| sourceAccountId := asset_id (account_asset (destinationAccount args));
                destinationAccountId := account_id (destinationAccount args);
                amount := dst - src;
                ledger := same_ledger;
                ttc_transferType := transferType args |} ]
       else [])
  | None => [first src]
  end.

Definition transfersToCreate {S} (args : TransferOptions S)
  : res TransferError (list TransferToCreate) :=
  if asset_ledger (account_asset (sourceAccount args))
     =? asset_ledger (account_asset (destinationAccount args))
  then Ok (buildSameAssetTransfers args)
  else buildCrossAssetTransfers args.

(** ** [createAccountToAccountTransfer] *)

Record CreateAccountToAccountTransferArgs (S : Type) := {
  transferArgs : TransferOptions S;
  voidTransfers_ : list string -> M S (option TransferError);
  postTransfers_ : list string -> M S (option TransferError);
  getAccountReceived : string -> M S (option Z);
  getAccountBalance : string -> M S (option Z);
  createPendingTransfers : list TransferToCreate -> M S (res TransferError (list string))
}.
Arguments transferArgs {S}. Arguments voidTransfers_ {S}. Arguments postTransfers_ {S}.
Arguments getAccountReceived {S}. Arguments getAccountBalance {S}.
Arguments createPendingTransfers {S}.

Definition validateTransferArgs {S} (args : TransferOptions S) : option TransferError :=
  if bool_decide (account_id (sourceAccount args) = account_id (destinationAccount args))
  then Some SameAccounts
  else if sourceAmount args <=? 0 then Some InvalidSourceAmount
  else match destinationAmount args with
       | Some dst => if dst <=? 0 then Some InvalidDestinationAmount else None
       | None => None
       end.

Definition runOnDebit {S} (getAccountBalance : string -> M S (option Z))
    (id : string) (onDebit : option (OnDebitOptions -> M S unit)) : M S unit :=
  match onDebit with
  | Some onDebit =>
      let! balance := getAccountBalance id in
      match balance with
      | None => throw_error "undefined account balance"
      | Some balance => onDebit {| balance := balance |}
      end
  | None => ret tt
  end.

Definition runOnCredit {S} (getAccountReceived : string -> M S (option Z))
    (delay : option Z) (account : LiquidityAccount S) : M S unit :=
  match account_onCredit account with
  | Some onCredit =>
      let! received := getAccountReceived (account_id account) in
      match received with
      | None => throw_error "total received is undefined"
      | Some received =>
          onCredit {| totalReceived := received; withdrawalThrottleDelay := delay |}
      end
  | None => ret tt
  end.

(** The [post] closure of a transaction.  The two [onDebit] calls of the
    [Promise.all] run in the order listed. *)
Definition postTransaction {S} (delay : option Z) (args : CreateAccountToAccountTransferArgs S)
    (ids : list string) : M S (option TransferError) :=
  let targs := transferArgs args in
  let! error := postTransfers_ args ids in
  match error with
  | Some error => ret (Some error)
  | None =>
      runOnDebit (getAccountBalance args)
        (account_id (sourceAccount targs)) (account_onDebit (sourceAccount targs)) ;;!
      runOnDebit (getAccountBalance args)
        (asset_id (account_asset (destinationAccount targs)))
        (asset_onDebit (account_asset (destinationAccount targs))) ;;!
      runOnCredit (getAccountReceived args) delay (destinationAccount targs) ;;!
      ret None
  end.

Definition createAccountToAccountTransfer {S} (delay : option Z)
    (args : CreateAccountToAccountTransferArgs S)
  : M S (res TransferError (Transaction S)) :=
  let targs := transferArgs args in
  match validateTransferArgs targs with
  | Some error => ret (Err error)
  | None =>
      match transfersToCreate targs with
      | Err error => ret (Err error)
      | Ok transfers =>
          let! pendingTransferIdsOrError := createPendingTransfers args transfers in
          match pendingTransferIdsOrError with
          | Err error => ret (Err error)
          | Ok ids => ret (Ok {| post := postTransaction delay args ids;
                                 void := voidTransfers_ args ids |})
          end
      end
  end.

(** ** Net effect of the built transfers *)

(** What a list of transfers credits to, less what it debits from, account [a]. *)
Definition net_effect (ts : list TransferToCreate) (a : string) : Z :=
  sum_where (fun t => bool_decide (destinationAccountId t = a)) amount ts
  - sum_where (fun t => bool_decide (sourceAccountId t = a)) amount ts.

(** The amount that reaches the destination account. *)
Definition delivered {S} (args : TransferOptions S) : Z :=
  default (sourceAmount args) (destinationAmount args).

(** One when [a] is the account [b]. *)
Definition at_account (a b : string) (z : Z) : Z := if bool_decide (b = a) then z else 0.

Lemma validateTransferArgs_None {S} (args : TransferOptions S) :
  validateTransferArgs args = None ->
  account_id (sourceAccount args) <> account_id (destinationAccount args) /\
  0 < sourceAmount args /\ 0 < delivered args.
Proof.
  unfold validateTransferArgs, delivered. intros H.
  repeat case_match; simplify_eq; zbool; simpl; auto with lia.
Qed.

Lemma transfersToCreate_None_cross {S} (args : TransferOptions S) :
  validateTransferArgs args = None ->
  transfersToCreate args = Err InvalidDestinationAmount <->
  destinationAmount args = None /\
  asset_ledger (account_asset (sourceAccount args))
  <> asset_ledger (account_asset (destinationAccount args)).
Proof.
  intros (_ & _ & Hd)%validateTransferArgs_None.
  unfold transfersToCreate, buildCrossAssetTransfers, delivered in *.
  destruct (Z.eqb_spec (asset_ledger (account_asset (sourceAccount args)))
              (asset_ledger (account_asset (destinationAccount args)))); [naive_solver|].
  destruct (destinationAmount args) as [d|]; simpl in *; [|naive_solver].
  unfold truthy, truthy_Z. destruct (Z.eqb_spec d 0); simpl; [lia|naive_solver].
Qed.

(** Every transfer that is built moves a positive amount. *)
Lemma transfersToCreate_positive {S} (args : TransferOptions S) ts :
  validateTransferArgs args = None -> transfersToCreate args = Ok ts ->
  Forall (fun t => 0 < amount t) ts.
Proof.
  intros (_ & Hs & Hd)%validateTransferArgs_None Hts.
  unfold transfersToCreate, buildCrossAssetTransfers, buildSameAssetTransfers, delivered in *.
  unfold truthy, truthy_Z in *.
  repeat case_match; simplify_eq; zbool; simpl in *; repeat constructor; simpl; zbool; lia.
Qed.

Lemma transfersToCreate_effect {S} (args : TransferOptions S) ts a
    (Hvalid : validateTransferArgs args = None)
    (Hledger : asset_ledger (account_asset (sourceAccount args))
               = asset_ledger (account_asset (destinationAccount args)) ->
               asset_id (account_asset (sourceAccount args))
               = asset_id (account_asset (destinationAccount args)))
    (Hts : transfersToCreate args = Ok ts) :
  net_effect ts a =
    at_account a (account_id (destinationAccount args)) (delivered args)
    - at_account a (account_id (sourceAccount args)) (sourceAmount args)
    + at_account a (asset_id (account_asset (sourceAccount args))) (sourceAmount args)
    - at_account a (asset_id (account_asset (destinationAccount args))) (delivered args).
Proof.
  apply validateTransferArgs_None in Hvalid as (_ & Hs & Hd).
  unfold transfersToCreate, buildCrossAssetTransfers, buildSameAssetTransfers in Hts.
  unfold delivered, truthy, truthy_Z in *.
  repeat case_match; simplify_eq; zbool; simpl in *; try lia;
    unfold net_effect, at_account; simpl; try rewrite Hledger by lia;
    repeat case_bool_decide; simplify_eq; lia.
Qed.

(** The ledger transfers built for an accepted account-to-account transfer
    debit the source account exactly [sourceAmount], credit the destination
    account exactly the delivered amount, and balance the difference (or, across
    assets, both legs) on the assets' liquidity accounts: no account is off by
    one unit, on the same-asset, excess-source, excess-destination and
    cross-asset branches alike.  The hypothesis on ledgers says that two assets
    with one ledger are one asset ([assets.ledger] is unique). *)
Theorem transfersToCreate_net_effect {S} (args : TransferOptions S) ts a
    (Hvalid : validateTransferArgs args = None)
    (Hledger : asset_ledger (account_asset (sourceAccount args))
               = asset_ledger (account_asset (destinationAccount args)) ->
               asset_id (account_asset (sourceAccount args))
               = asset_id (account_asset (destinationAccount args)))
    (Hts : transfersToCreate args = Ok ts) :
  net_effect ts a =
    at_account a (account_id (destinationAccount args)) (delivered args)
    - at_account a (account_id (sourceAccount args)) (sourceAmount args)
    + at_account a (asset_id (account_asset (sourceAccount args))) (sourceAmount args)
    - at_account a (asset_id (account_asset (destinationAccount args))) (delivered args).
Proof. by apply transfersToCreate_effect. Qed.

Definition example_asset (n : Z) (id : string) : LiquidityAccountAsset unit :=
  {| asset_id := id; asset_code := None; asset_scale := None;
     asset_ledger := n; asset_onDebit := None |}.

Definition example_account (id : string) (asset : LiquidityAccountAsset unit)
  : LiquidityAccount unit :=
  {| account_id := id; account_asset := asset;
     account_onCredit := None; account_onDebit := None |}.

Definition example_transfer : TransferOptions unit :=
  {| sourceAccount := example_account "peer" (example_asset 1 "usd");
     destinationAccount := example_account "invoice" (example_asset 1 "usd");
     sourceAmount := 100; destinationAmount := Some 97; timeout := 30;
     transferType := None |}.

Lemma transfersToCreate_net_effect_witness :
  exists ts, transfersToCreate example_transfer = Ok ts /\
    net_effect ts "usd" = 3 /\ net_effect ts "invoice" = 97 /\ net_effect ts "peer" = -100.
Proof.
  eexists. split; [reflexivity|]. split; [|split];
    (etransitivity;
     [apply (transfersToCreate_net_effect example_transfer);
      [reflexivity|intros _; reflexivity|reflexivity]
     |reflexivity]).
Defined.
