(* ===== verification/PsqlLedger.v ===== *)
(** * PsqlLedger: the Postgres ledger (accounts, transfers, balances)

    Models [packages/backend/src/accounting/psql/]: [balance.ts],
    [ledger-account/], [ledger-transfer/].  A table is the list of its rows in
    insertion order, with the constraints of the migrations checked by the
    insertion; a knex transaction works on the current rows and [rollback]
    restores the rows it started from.  Transactions are serial.  [now] is one
    clock for [NOW()] and [Date.now()], in milliseconds, and does not advance
    inside an operation.  [ext] is the rest of the system's state, which only
    the accounts' callbacks touch. *)

From S2P Require Import Prelude Shared Accounting.

Local Open Scope Z_scope.
Local Open Scope ts_scope.

(** ** Rows and state *)

Inductive LedgerAccountType :=
| LIQUIDITY_ASSET
| LIQUIDITY_PEER
| LIQUIDITY_INCOMING
| LIQUIDITY_OUTGOING
| LIQUIDITY_WEB_MONETIZATION
| SETTLEMENT.

#[global] Instance LedgerAccountType_eq_dec : EqDecision LedgerAccountType.
Proof. solve_decision. Defined.

Record LedgerAccount := {
  la_id : string;
  la_accountRef : string;
  la_ledger : Z;
  la_type : LedgerAccountType
}.

Definition isSettlementAccount (a : LedgerAccount) : bool :=
  bool_decide (la_type a = SETTLEMENT).

Definition mapLiquidityAccountTypeToLedgerAccountType (t : LiquidityAccountType)
  : LedgerAccountType :=
  match t with
  | WEB_MONETIZATION => LIQUIDITY_WEB_MONETIZATION
  | ASSET => LIQUIDITY_ASSET
  | PEER => LIQUIDITY_PEER
  | INCOMING => LIQUIDITY_INCOMING
  | OUTGOING => LIQUIDITY_OUTGOING
  end.

Inductive LedgerTransferType := LT_WITHDRAWAL | LT_DEPOSIT.

Record LedgerTransfer := {
  lt_id : string;
  lt_transferRef : string;
  lt_debitAccountId : string;
  lt_creditAccountId : string;
  lt_amount : Z;
  lt_ledger : Z;
  lt_expiresAt : option Z;
  lt_state : LedgerTransferState;
  lt_type : option LedgerTransferType;
  lt_createdAt : Z
}.

Definition isPosted (t : LedgerTransfer) : bool := bool_decide (lt_state t = POSTED).
Definition isVoided (t : LedgerTransfer) : bool := bool_decide (lt_state t = VOIDED).
Definition isExpired (now : Z) (t : LedgerTransfer) : bool :=
  bool_decide (lt_state t = PENDING)
  && match lt_expiresAt t with Some e => e <=? now | None => false end.

Definition set_state (st : LedgerTransferState) (t : LedgerTransfer) : LedgerTransfer :=
  {| lt_id := lt_id t; lt_transferRef := lt_transferRef t;
     lt_debitAccountId := lt_debitAccountId t; lt_creditAccountId := lt_creditAccountId t;
     lt_amount := lt_amount t; lt_ledger := lt_ledger t; lt_expiresAt := lt_expiresAt t;
     lt_state := st; lt_type := lt_type t; lt_createdAt := lt_createdAt t |}.

(** The columns of [assets] the ledger reads. *)
Record AssetRow := { ar_id : string; ar_ledger : Z }.

Record World (E : Type) := mkWorld {
  accounts : list LedgerAccount;
  transfers : list LedgerTransfer;
  assets : list AssetRow;
  now : Z;
  fresh : nat;
  ext : E
}.
Arguments mkWorld {E}. Arguments accounts {E}. Arguments transfers {E}. Arguments assets {E}.
Arguments now {E}. Arguments fresh {E}. Arguments ext {E}.

Section Ledger.
Context {E : Type} `{Uuid}.

Definition set_accounts (a : list LedgerAccount) (w : World E) : World E :=
  mkWorld a (transfers w) (assets w) (now w) (fresh w) (ext w).
Definition set_transfers (t : list LedgerTransfer) (w : World E) : World E :=
  mkWorld (accounts w) t (assets w) (now w) (fresh w) (ext w).
Definition set_fresh (n : nat) (w : World E) : World E :=
  mkWorld (accounts w) (transfers w) (assets w) (now w) n (ext w).

(** [uuid()] *)
Definition uuid : M (World E) string :=
  let! w := get in
  modify (set_fresh (S (fresh w))) ;;!
  ret (v4 (fresh w)).

(** [transaction.rollback()]: the rows as the transaction found them. *)
Definition rollback (before after : World E) : World E :=
  set_transfers (transfers before) after.

(** ** [ledger-account/index.ts] *)

Record CreateArgs := { ca_accountRef : string; ca_ledger : Z; ca_type : LedgerAccountType }.

Definition createAccount (args : CreateArgs) : M (World E) LedgerAccount :=
  let! id := uuid in
  let! w := get in
  let account := {| la_id := id; la_accountRef := ca_accountRef args;
                    la_ledger := ca_ledger args; la_type := ca_type args |} in
  if existsb (fun a => bool_decide (la_id a = id)
                || bool_decide (la_accountRef a = ca_accountRef args)
                   && bool_decide (la_type a = ca_type args)) (accounts w)
  then throw (JsError "AccountAlreadyExistsError" (String.append "accountRef: " (ca_accountRef args)))
  else if existsb (fun a => ar_ledger a =? ca_ledger args) (assets w) then
    modify (set_accounts (accounts w ++ [account])) ;;!
    ret account
  else throw (ForeignKeyViolationError "ledgeraccounts_ledger_foreign").

Definition getLiquidityAccount (accountRef : string) : M (World E) (option LedgerAccount) :=
  gets (fun w => find_where (fun a => bool_decide (la_accountRef a = accountRef)
                               && negb (isSettlementAccount a)) (accounts w)).

Definition getSettlementAccount (accountRef : string) : M (World E) (option LedgerAccount) :=
  gets (fun w => find_where (fun a => bool_decide (la_accountRef a = accountRef)
                               && isSettlementAccount a) (accounts w)).

(** ** [balance.ts] *)

Record AccountBalance := {
  creditsPosted : Z;
  creditsPending : Z;
  debitsPosted : Z;
  debitsPending : Z
}.

(** The rows of the query's [WHERE] clause for account [id] at time [now]. *)
Definition balanceRow (now : Z) (id : string) (t : LedgerTransfer) : bool :=
  (bool_decide (lt_creditAccountId t = id) || bool_decide (lt_debitAccountId t = id))
  && (bool_decide (lt_state t = POSTED)
      || bool_decide (lt_state t = PENDING)
         && match lt_expiresAt t with Some e => now <? e | None => false end).

Definition balancesAt (now : Z) (id : string) (rows : list LedgerTransfer) : AccountBalance :=
  let rows := List.filter (balanceRow now id) rows in
  let sum (side : LedgerTransfer -> string) st :=
    sum_where (fun t => bool_decide (side t = id) && bool_decide (lt_state t = st))
      lt_amount rows in
  {| creditsPosted := sum lt_creditAccountId POSTED;
     creditsPending := sum lt_creditAccountId PENDING;
     debitsPosted := sum lt_debitAccountId POSTED;
     debitsPending := sum lt_debitAccountId PENDING |}.

Definition getAccountBalances (account : LedgerAccount) : M (World E) AccountBalance :=
  gets (fun w => balancesAt (now w) (la_id account) (transfers w)).

(** ** [ledger-transfer/index.ts] *)

Record CreateLedgerTransferArgs := {
  cl_amount : Z;
  cl_transferRef : string;
  cl_type : option LedgerTransferType;
  cl_creditAccount : LedgerAccount;
  cl_debitAccount : LedgerAccount;
  cl_timeoutMs : option Z
}.

Record CreateTransferError := { cte_index : Z; cte_error : TransferError }.

Record CreateTransfersResult := {
  errors : list CreateTransferError;
  results : list LedgerTransfer
}.

Definition hasEnoughCreditBalance (account : LedgerAccount) (b : AccountBalance)
    (transferAmount : Z) : bool :=
  isSettlementAccount account
  || (debitsPosted b + debitsPending b + transferAmount <=? creditsPosted b).

Definition hasEnoughDebitBalance (account : LedgerAccount) (b : AccountBalance)
    (transferAmount : Z) : bool :=
  negb (isSettlementAccount account)
  || (creditsPosted b + creditsPending b + transferAmount <=? debitsPosted b).

Definition validateBalances (args : CreateLedgerTransferArgs)
  : M (World E) (option TransferError) :=
  let! creditAccountBalances := getAccountBalances (cl_creditAccount args) in
  let! debitAccountBalance := getAccountBalances (cl_debitAccount args) in
  if negb (hasEnoughDebitBalance (cl_creditAccount args) creditAccountBalances (cl_amount args))
  then ret (Some InsufficientBalance)
  else if negb (hasEnoughCreditBalance (cl_debitAccount args) debitAccountBalance
                  (cl_amount args))
  then ret (Some InsufficientBalance)
  else ret None.

(** [aborted]: an earlier statement of the Postgres transaction failed, so
    that every further query of it throws. *)
Definition validateTransfer (aborted : bool) (args : CreateLedgerTransferArgs)
  : M (World E) (option TransferError) :=
  if negb (validateId (cl_transferRef args)) then ret (Some InvalidId)
  else if cl_amount args <=? 0 then ret (Some InvalidAmount)
  else if truthy (cl_timeoutMs args) && (default 0 (cl_timeoutMs args) <=? 0)
  then ret (Some InvalidTimeout)
  else if bool_decide (la_id (cl_creditAccount args) = la_id (cl_debitAccount args))
  then ret (Some SameAccounts)
  else if negb (la_ledger (cl_creditAccount args) =? la_ledger (cl_debitAccount args))
  then ret (Some DifferentAssets)
  else if aborted then throw_error "current transaction is aborted"
  else
    let! w := get in
    if is_some (find_where (fun t => bool_decide (lt_transferRef t = cl_transferRef args))
                  (transfers w))
    then ret (Some TransferExists)
    else validateBalances args.

Definition prepareTransfer (now : Z) (id : string) (args : CreateLedgerTransferArgs)
  : LedgerTransfer :=
  {| lt_id := id;
     lt_transferRef := cl_transferRef args;
     lt_debitAccountId := la_id (cl_debitAccount args);
     lt_creditAccountId := la_id (cl_creditAccount args);
     lt_amount := cl_amount args;
     lt_ledger := la_ledger (cl_creditAccount args);
     lt_expiresAt := if truthy (cl_timeoutMs args)
                     then Some (now + default 0 (cl_timeoutMs args)) else None;
     lt_state := if truthy (cl_timeoutMs args) then PENDING else POSTED;
     lt_type := cl_type args;
     lt_createdAt := now |}.

(** The constraints of the [ledgerTransfers] table: primary key, unique
    reference, [bigint] and positive amount, foreign keys. *)
Definition insertable (w : World E) (t : LedgerTransfer) : bool :=
  negb (existsb (fun u => bool_decide (lt_id u = lt_id t)
                   || bool_decide (lt_transferRef u = lt_transferRef t)) (transfers w))
  && (0 <? lt_amount t) && (lt_amount t <=? 2 ^ 63 - 1)
  && existsb (fun a => bool_decide (la_id a = lt_debitAccountId t)) (accounts w)
  && existsb (fun a => bool_decide (la_id a = lt_creditAccountId t)) (accounts w)
  && existsb (fun a => ar_ledger a =? lt_ledger t) (assets w)
  && (negb (bool_decide (lt_state t = PENDING)) || is_some (lt_expiresAt t)).

Definition insertTransfer (args : CreateLedgerTransferArgs) : M (World E) LedgerTransfer :=
  let! id := uuid in
  let! w := get in
  let t := prepareTransfer (now w) id args in
  if insertable w t then
    modify (set_transfers (transfers w ++ [t])) ;;!
    ret t
  else throw_error "DBError".

(** The loop over [transfers.entries()]: it stops at the first transfer that
    does not validate, and goes on after an insertion that throws. *)
Fixpoint createTransfersLoop (index : Z) (aborted : bool)
    (errors : list CreateTransferError) (results : list LedgerTransfer)
    (ts : list CreateLedgerTransferArgs) : M (World E) CreateTransfersResult :=
  match ts with
  | [] => ret {| errors := errors; results := results |}
  | t :: ts =>
      let! error := validateTransfer aborted t in
      match error with
      | Some error =>
          ret {| errors := errors ++ [{| cte_index := index; cte_error := error |}];
                 results := results |}
      | None =>
          let! inserted := try_catch (let! row := insertTransfer t in ret (Some row))
                             (fun _ => ret None) in
          match inserted with
          | Some row =>
              createTransfersLoop (index + 1) aborted errors (results ++ [row]) ts
          | None =>
              createTransfersLoop (index + 1) true
                (errors ++ [{| cte_index := index; cte_error := UnknownError |}]) results ts
          end
      end
  end.

(** An exception of the loop leaves the transaction open: nothing of it is
    ever committed. *)
Definition createTransfers (ts : list CreateLedgerTransferArgs)
  : M (World E) CreateTransfersResult :=
  fun w =>
    match createTransfersLoop 0 false [] [] ts w with
    | (Throw e, w') => (Throw e, rollback w w')
    | (Ret r, w') =>
        match errors r with
        | [] => (Ret r, w')
        | _ :: _ => (Ret {| errors := errors r; results := [] |}, rollback w w')
        end
    end.

Definition validateTransferStateUpdate (now : Z) (t : LedgerTransfer) : option TransferError :=
  if isVoided t then Some AlreadyVoided
  else if isPosted t then Some AlreadyPosted
  else if isExpired now t then Some TransferExpired
  else None.

Fixpoint updateTransfersLoop (state : LedgerTransferState) (refs : list string)
  : M (World E) (option TransferError) :=
  match refs with
  | [] => ret None
  | ref :: refs =>
      if negb (validateId ref) then ret (Some InvalidId)
      else
        let! w := get in
        match find_where (fun t => bool_decide (lt_transferRef t = ref)) (transfers w) with
        | None => ret (Some UnknownTransfer)
        | Some t =>
            match validateTransferStateUpdate (now w) t with
            | Some error => ret (Some error)
            | None =>
                modify (fun w => set_transfers
                          (update_where (fun u => bool_decide (lt_id u = lt_id t))
                             (set_state state) (transfers w)) w) ;;!
                updateTransfersLoop state refs
            end
        end
  end.

Definition updateTransferState (refs : list string) (state : LedgerTransferState)
  : M (World E) (option TransferError) :=
  fun w =>
    match updateTransfersLoop state refs w with
    | (Ret None, w') => (Ret None, w')
    | (Ret (Some error), w') => (Ret (Some error), rollback w w')
    | (Throw _, w') => (Ret (Some UnknownError), rollback w w')
    end.

Definition voidTransfers (refs : list string) : M (World E) (option TransferError) :=
  updateTransferState refs VOIDED.

Definition postTransfers (refs : list string) : M (World E) (option TransferError) :=
  updateTransferState refs POSTED.

(** [getAccountTransfers]: the debits and the credits of an account, voided
    and expired transfers left out.  Without an [ORDER BY] Postgres chooses
    which rows a [LIMIT] keeps; here they are the oldest. *)
Definition accountTransferRow (now : Z) (id : string) (t : LedgerTransfer) : bool :=
  (bool_decide (lt_debitAccountId t = id) || bool_decide (lt_creditAccountId t = id))
  && (bool_decide (lt_state t = POSTED)
      || bool_decide (lt_state t = PENDING)
         && match lt_expiresAt t with Some e => now <? e | None => true end).

Record GetLedgerTransfersResult := {
  debits : list LedgerTransfer;
  credits : list LedgerTransfer
}.

Definition getAccountTransfers (id : string) (limit : option nat)
  : M (World E) GetLedgerTransfersResult :=
  gets (fun w =>
    let found := List.filter (accountTransferRow (now w) id) (transfers w) in
    let limited := match default 20%nat limit with O => found | S n => take (S n) found end in
    foldl (fun results t =>
             if bool_decide (lt_debitAccountId t = id)
             then {| debits := debits results ++ [t]; credits := credits results |}
             else {| debits := debits results; credits := credits results ++ [t] |})
      {| debits := []; credits := [] |} limited).
End Ledger.

(** ** The ledger's invariant

    [healthy accs ts n]: the rows are consistent, and at time [n] no account is
    overdrawn.  A liquidity account has at least as much posted credit as posted
    and reserved debit; a settlement account, whose sign is opposite, at least
    as much posted debit as posted and reserved credit. *)

Definition live (n : Z) (st : LedgerTransferState) (t : LedgerTransfer) : bool :=
  bool_decide (lt_state t = st)
  && match st with
     | PENDING => match lt_expiresAt t with Some e => n <? e | None => false end
     | _ => true
     end.

Definition tally (side : LedgerTransfer -> string) (st : LedgerTransferState) (n : Z)
    (id : string) (rows : list LedgerTransfer) : Z :=
  sum_where (fun t => bool_decide (side t = id) && live n st t) lt_amount rows.

Record consistent (accs : list LedgerAccount) (ts : list LedgerTransfer) : Prop := {
  cs_accounts : NoDup (la_id <$> accs);
  cs_ids : NoDup (lt_id <$> ts);
  cs_refs : NoDup (lt_transferRef <$> ts);
  cs_amount : forall t, t ∈ ts -> 0 < lt_amount t;
  cs_expiry : forall t, t ∈ ts -> lt_state t = PENDING -> is_Some (lt_expiresAt t);
  cs_endpoints : forall t, t ∈ ts -> exists d c, d ∈ accs /\ c ∈ accs /\
    la_id d = lt_debitAccountId t /\ la_id c = lt_creditAccountId t /\
    la_id d <> la_id c /\ la_ledger d = lt_ledger t /\ la_ledger c = lt_ledger t
}.

Definition solvent_account (ts : list LedgerTransfer) (n : Z) (a : LedgerAccount) : Prop :=
  if isSettlementAccount a then
    tally lt_creditAccountId POSTED n (la_id a) ts + tally lt_creditAccountId PENDING n (la_id a) ts
    <= tally lt_debitAccountId POSTED n (la_id a) ts
  else
    tally lt_debitAccountId POSTED n (la_id a) ts + tally lt_debitAccountId PENDING n (la_id a) ts
    <= tally lt_creditAccountId POSTED n (la_id a) ts.

Record healthy (accs : list LedgerAccount) (ts : list LedgerTransfer) (n : Z) : Prop := {
  h_consistent : consistent accs ts;
  h_solvent : forall a, a ∈ accs -> solvent_account ts n a
}.

Lemma balancesAt_tally n id rows :
  balancesAt n id rows =
  {| creditsPosted := tally lt_creditAccountId POSTED n id rows;
     creditsPending := tally lt_creditAccountId PENDING n id rows;
     debitsPosted := tally lt_debitAccountId POSTED n id rows;
     debitsPending := tally lt_debitAccountId PENDING n id rows |}.
Proof.
  unfold balancesAt, tally. rewrite !sum_where_filter.
  f_equal; apply sum_where_ext; intros t _; unfold balanceRow, live;
    repeat case_bool_decide; simpl; try congruence;
    destruct (lt_expiresAt t); simpl; try done; by destruct (_ <? _).
Qed.

Lemma tally_app side st n id ts1 ts2 :
  tally side st n id (ts1 ++ ts2) = tally side st n id ts1 + tally side st n id ts2.
Proof. apply sum_where_app. Qed.

Lemma tally_one side st n id t :
  tally side st n id [t] = if bool_decide (side t = id) && live n st t then lt_amount t else 0.
Proof. unfold tally. simpl. lia. Qed.

Lemma tally_update side st n id g ts t :
  NoDup (lt_id <$> ts) -> t ∈ ts ->
  tally side st n id (update_where (fun u => bool_decide (lt_id u = lt_id t)) g ts) =
  tally side st n id ts
  - (if bool_decide (side t = id) && live n st t then lt_amount t else 0)
  + (if bool_decide (side (g t) = id) && live n st (g t) then lt_amount (g t) else 0).
Proof. intros. unfold tally. by rewrite (sum_where_update lt_id). Qed.

Lemma tally_unused side st n id ts :
  (forall t, t ∈ ts -> side t <> id) -> tally side st n id ts = 0.
Proof. intros H. apply sum_where_none. intros t Ht. by rewrite bool_decide_eq_false_2 by auto. Qed.

(** Reservations only lapse as time passes. *)
Lemma tally_pending_antimono side n n' id ts :
  n <= n' -> (forall t, t ∈ ts -> 0 < lt_amount t) ->
  tally side PENDING n' id ts <= tally side PENDING n id ts.
Proof.
  intros Hn Ha. apply sum_where_le. intros t Ht. specialize (Ha t Ht). unfold live.
  repeat case_bool_decide; simpl; try lia. destruct (lt_expiresAt t) as [e|]; simpl; try lia.
  destruct (Z.ltb_spec n' e), (Z.ltb_spec n e); lia.
Qed.

Lemma tally_posted_time side n n' id ts :
  tally side POSTED n' id ts = tally side POSTED n id ts.
Proof. done. Qed.

Lemma healthy_tick accs ts n n' : n <= n' -> healthy accs ts n -> healthy accs ts n'.
Proof.
  intros Hn [Hc Hs]. split; [done|]. intros a Ha. specialize (Hs a Ha).
  unfold solvent_account in *.
  pose proof (tally_pending_antimono lt_creditAccountId n n' (la_id a) ts Hn (cs_amount _ _ Hc)).
  pose proof (tally_pending_antimono lt_debitAccountId n n' (la_id a) ts Hn (cs_amount _ _ Hc)).
  rewrite !(tally_posted_time _ n n'). destruct (isSettlementAccount a); lia.
Qed.

Lemma healthy_account accs ts n a :
  healthy accs ts n -> la_id a ∉ la_id <$> accs -> healthy (accs ++ [a]) ts n.
Proof.
  intros [[] Hs] Ha. split.
  - split; auto.
    + rewrite fmap_app. apply NoDup_app. repeat split; [done| |apply NoDup_singleton].
      intros x Hx [->|[]%elem_of_nil]%elem_of_cons. by apply Ha.
    + intros t Ht. destruct (cs_endpoints0 t Ht) as (d & c & Hd & Hc & ?).
      exists d, c. rewrite !elem_of_app. auto.
  - intros b [Hb|Hb]%elem_of_app; [by apply Hs|].
    apply list_elem_of_singleton in Hb as ->.
    assert (forall t, t ∈ ts -> lt_creditAccountId t <> la_id a /\ lt_debitAccountId t <> la_id a)
      as Hun.
    { intros t Ht. destruct (cs_endpoints0 t Ht) as (d & c & Hd & Hc & Ed & Ec & _).
      split; intros Heq; apply Ha; rewrite <- Heq.
      - rewrite <- Ec. by apply list_elem_of_fmap_2.
      - rewrite <- Ed. by apply list_elem_of_fmap_2. }
    unfold solvent_account.
    rewrite !tally_unused by (intros t Ht; by apply Hun). by destruct (isSettlementAccount a).
Qed.

(** The state changes that [validateTransferStateUpdate] lets through. *)
Lemma healthy_update accs ts n t st :
  healthy accs ts n -> t ∈ ts -> validateTransferStateUpdate n t = None ->
  st = POSTED \/ st = VOIDED ->
  healthy accs (update_where (fun u => bool_decide (lt_id u = lt_id t)) (set_state st) ts) n.
Proof.
  intros [[] Hs] Ht Hv Hst.
  assert (lt_state t = PENDING /\ live n PENDING t = true /\ live n POSTED t = false) as (Hp & Hl & Hl').
  { unfold validateTransferStateUpdate, isVoided, isPosted, isExpired in Hv.
    destruct (lt_state t) eqn:Hstate; simpl in *; simplify_eq.
    destruct (cs_expiry0 t Ht Hstate) as [e He].
    unfold live. rewrite Hstate, He in *. simpl in *.
    destruct (Z.leb_spec e n); simplify_eq. split; [done|]. split; [by apply Z.ltb_lt|done]. }
  split.
  - split; auto.
    + by rewrite update_where_key.
    + by rewrite update_where_key.
    + intros u (v & Hu & ->)%update_where_elem. case_bool_decide; simpl; auto.
    + intros u (v & Hu & ->)%update_where_elem. case_bool_decide; simpl; [|by auto].
      intros ->. by destruct Hst.
    + intros u (v & Hu & ->)%update_where_elem. case_bool_decide; simpl; auto.
  - intros a Ha. specialize (Hs a Ha). unfold solvent_account in *.
    rewrite !tally_update by done. rewrite Hl, Hl'. specialize (cs_amount0 t Ht).
    destruct (cs_endpoints0 t Ht) as (d & c & _ & _ & Hd & Hc & Hne & _).
    destruct Hst as [->| ->]; simpl; unfold live; simpl;
      destruct (isSettlementAccount a);
      repeat case_bool_decide; simpl in *; try lia; congruence.
Qed.

Record args_in (accs : list LedgerAccount) (args : CreateLedgerTransferArgs) : Prop := {
  ai_credit : cl_creditAccount args ∈ accs;
  ai_debit : cl_debitAccount args ∈ accs
}.

Section Operations.
Context {E : Type} `{Uuid}.
Implicit Types w : World E.

(** What a successful validation has established. *)
Record validated (accs : list LedgerAccount) (ts : list LedgerTransfer) (n : Z)
    (args : CreateLedgerTransferArgs) : Prop := {
  v_id : validateId (cl_transferRef args) = true;
  v_amount : 0 < cl_amount args;
  v_timeout : truthy (cl_timeoutMs args) = true -> 0 < default 0 (cl_timeoutMs args);
  v_distinct : la_id (cl_creditAccount args) <> la_id (cl_debitAccount args);
  v_ledger : la_ledger (cl_creditAccount args) = la_ledger (cl_debitAccount args);
  v_new : forall t, t ∈ ts -> lt_transferRef t <> cl_transferRef args;
  v_debit : hasEnoughDebitBalance (cl_creditAccount args)
              (balancesAt n (la_id (cl_creditAccount args)) ts) (cl_amount args) = true;
  v_credit : hasEnoughCreditBalance (cl_debitAccount args)
               (balancesAt n (la_id (cl_debitAccount args)) ts) (cl_amount args) = true
}.

Lemma validateTransfer_state ab args w : (validateTransfer ab args w).2 = w.
Proof.
  unfold validateTransfer, validateBalances, getAccountBalances, bind, get, gets, ret, throw_error, throw.
  by repeat case_match; simplify_eq.
Qed.

Lemma validateTransfer_None ab args w :
  validateTransfer ab args w = (Ret None, w) ->
  ab = false /\ validated (accounts w) (transfers w) (now w) args.
Proof.
  unfold validateTransfer, validateBalances, getAccountBalances, bind, get, gets, ret, throw_error, throw.
  intros Hv. split_ifs_in Hv. zbool.
  split; [done|].
  split; [done|lia| |done|done| |done|done].
  - intros Ht. match goal with
               | Hf : (_ && _)%bool = false |- _ => rewrite Ht in Hf; simpl in Hf; zbool; lia
               end.
  - match goal with Hf : is_some (find_where _ _) = false |- _ => revert Hf end.
    destruct (find_where _ _) eqn:Hf; [done|]. intros _ t Ht.
    pose proof (find_where_None _ _ _ Hf Ht) as Hx. simpl in Hx. by zbool.
Qed.

Lemma healthy_insert accs ts n args id :
  healthy accs ts n -> args_in accs args -> validated accs ts n args ->
  id ∉ lt_id <$> ts ->
  healthy accs (ts ++ [prepareTransfer n id args]) n.
Proof.
  intros [[] Hs] [Hcr Hdb] [] Hid.
  set (t := prepareTransfer n id args).
  assert (forall st, live n st t = true <-> lt_state t = st) as Hlive.
  { intros st. unfold live, t, prepareTransfer. simpl.
    destruct (truthy (cl_timeoutMs args)); destruct st; simpl; split; try done.
    intros _. specialize (v_timeout0 eq_refl). lia. }
  split; [split|].
  - done.
  - rewrite fmap_app. apply NoDup_app. split; [done|]. split; [|apply NoDup_singleton].
    by intros x Hx ->%list_elem_of_singleton.
  - rewrite fmap_app. apply NoDup_app. split; [done|]. split; [|apply NoDup_singleton].
    intros x (u & -> & Hu)%list_elem_of_fmap Hx%list_elem_of_singleton. by apply (v_new0 u).
  - intros u [Hu| ->%list_elem_of_singleton]%elem_of_app; [by apply cs_amount0|done].
  - intros u [Hu| ->%list_elem_of_singleton]%elem_of_app; [by apply cs_expiry0|].
    simpl. by destruct (truthy _); eauto.
  - intros u [Hu| ->%list_elem_of_singleton]%elem_of_app; [by apply cs_endpoints0|].
    exists (cl_debitAccount args), (cl_creditAccount args). simpl. repeat split; auto.
  - intros a Ha. specialize (Hs a Ha). unfold solvent_account in *.
    rewrite !tally_app, !tally_one.
    unfold hasEnoughDebitBalance, hasEnoughCreditBalance in *.
    rewrite balancesAt_tally in *. simpl in *.
    assert (forall b, b ∈ accs -> la_id b = la_id a -> b = a) as Hinj.
    { intros b Hb. by apply (unique_key la_id accs). }
    pose proof (Hinj _ Hcr) as Hc'. pose proof (Hinj _ Hdb) as Hd'.
    assert (lt_state t = POSTED \/ lt_state t = PENDING) as Hst.
    { unfold t. simpl. destruct (truthy _); auto. }
    destruct Hst as [Hst|Hst]; pose proof (proj2 (Hlive _) Hst) as Hl;
    (destruct (live n PENDING t) eqn:Hl1; [apply Hlive in Hl1|]);
    (destruct (live n POSTED t) eqn:Hl2; [apply Hlive in Hl2|]); try congruence;
    rewrite ?andb_true_r, ?andb_false_r;
    repeat case_bool_decide;
    repeat match goal with
           | Hx : la_id _ = la_id a -> _, He : la_id _ = la_id a |- _ =>
               specialize (Hx He); subst a
           end;
    destruct (isSettlementAccount _) eqn:?; simpl in *; zbool; try lia; try congruence.
Qed.

(** ** The operations keep the ledger healthy *)

Definition Healthy w : Prop := healthy (accounts w) (transfers w) (now w).

(** Nothing but the transfers and the supply of identifiers has changed. *)
Record framed w w' : Prop := {
  fr_accounts : accounts w' = accounts w;
  fr_assets : assets w' = assets w;
  fr_now : now w' = now w;
  fr_ext : ext w' = ext w
}.

#[export] Instance framed_refl : Reflexive framed.
Proof. by split. Qed.
#[export] Instance framed_trans : Transitive framed.
Proof. intros w1 w2 w3 [] []. split; congruence. Qed.

Lemma insertTransfer_spec args w :
  exists id, let t := prepareTransfer (now w) id args in
  id = v4 (fresh w) /\ insertTransfer args w =
    (if insertable (set_fresh (S (fresh w)) w) t then Ret t else Throw (JsError "Error" "DBError"),
     set_fresh (S (fresh w))
       (if insertable (set_fresh (S (fresh w)) w) t
        then set_transfers (transfers w ++ [t]) w else w)).
Proof.
  exists (v4 (fresh w)). split; [done|].
  unfold insertTransfer, uuid, bind, get, modify, ret. simpl.
  by destruct (insertable _ _).
Qed.

Lemma insertable_id w t : insertable w t = true -> lt_id t ∉ lt_id <$> transfers w.
Proof.
  unfold insertable. intros Hi. zbool. intros (u & Heq & Hu)%list_elem_of_fmap.
  match goal with Hf : existsb _ (transfers w) = false |- _ =>
    rewrite <- not_true_iff_false in Hf; apply Hf end.
  apply existsb_exists. exists u. rewrite <- list_elem_of_In. split; [done|].
  by rewrite bool_decide_eq_true_2.
Qed.

Lemma createTransfersLoop_keeps ts : forall index ab errs rs w,
  (Forall (args_in (accounts w)) ts) -> Healthy w ->
  let '(_, w') := createTransfersLoop index ab errs rs ts w in
  framed w w' /\ Healthy w'.
Proof.
  induction ts as [|t ts IH]; intros index ab errs rs w Hargs Hw; simpl; [done|].
  apply Forall_cons in Hargs as [Ht Hts].
  unfold bind at 1. pose proof (validateTransfer_state ab t w) as Hstate.
  destruct (validateTransfer ab t w) as [[[error|]|m] w1] eqn:Hv; simpl in Hstate; subst w1;
    [done| |done].
  apply validateTransfer_None in Hv as [-> Hv].
  unfold bind at 1, try_catch, bind at 1.
  destruct (insertTransfer_spec t w) as (id & Hid & ->).
  destruct (insertable _ _) eqn:Hi; simpl.
  - set (w1 := set_fresh _ _).
    assert (framed w w1 /\ Healthy w1) as [Hf Hh].
    { split; [by split|]. unfold Healthy. simpl.
      apply healthy_insert; [done..|]. by apply insertable_id in Hi. }
    specialize (IH (index + 1) false errs (rs ++ [prepareTransfer (now w) id t]) w1).
    destruct (createTransfersLoop _ _ _ _ _ _). destruct IH as [Hf' Hh']; [done..|].
    split; [by etrans|done].
  - set (w1 := set_fresh _ _).
    assert (framed w w1 /\ Healthy w1) as [Hf Hh] by (split; [by split|done]).
    specialize (IH (index + 1) true
      (errs ++ [{| cte_index := index; cte_error := UnknownError |}]) rs w1).
    destruct (createTransfersLoop _ _ _ _ _ _). destruct IH as [Hf' Hh']; [done..|].
    split; [by etrans|done].
Qed.

Lemma createTransfers_keeps ts w :
  Forall (args_in (accounts w)) ts -> Healthy w ->
  framed w (createTransfers ts w).2 /\ Healthy (createTransfers ts w).2.
Proof.
  intros Hts Hw. pose proof (createTransfersLoop_keeps ts 0 false [] [] w Hts Hw) as Hl.
  unfold createTransfers. destruct (createTransfersLoop _ _ _ _ _ _) as [[r|e] w'].
  - destruct Hl as [[] Hh]. destruct (errors r); [done|].
    split; [by split|]. unfold Healthy, rollback. simpl. by rewrite fr_accounts0, fr_now0.
  - destruct Hl as [[] Hh]. split; [by split|].
    unfold Healthy, rollback. simpl. by rewrite fr_accounts0, fr_now0.
Qed.

Lemma updateTransfersLoop_keeps st refs : st = POSTED \/ st = VOIDED -> forall w,
  Healthy w ->
  let '(_, w') := updateTransfersLoop st refs w in framed w w' /\ Healthy w'.
Proof.
  intros Hst. induction refs as [|ref refs IH]; intros w Hw; simpl; [done|].
  destruct (negb (validateId ref)); [done|]. unfold bind, get, modify.
  destruct (find_where _ _) as [t|] eqn:Hf; [|done].
  apply find_where_Some in Hf as [Ht _].
  destruct (validateTransferStateUpdate _ _) eqn:Hv; [done|].
  match goal with |- context [updateTransfersLoop st refs ?w'] => set (w1 := w') end.
  specialize (IH w1). destruct (updateTransfersLoop _ _ _). destruct IH as [Hf' Hh'].
  { unfold Healthy. simpl. by apply healthy_update. }
  split; [|done]. etrans; [|done]. by split.
Qed.

Lemma updateTransferState_keeps st refs w : st = POSTED \/ st = VOIDED ->
  Healthy w ->
  framed w (updateTransferState refs st w).2 /\ Healthy (updateTransferState refs st w).2.
Proof.
  intros Hst Hw. pose proof (updateTransfersLoop_keeps st refs Hst w Hw) as Hl.
  unfold updateTransferState.
  destruct (updateTransfersLoop _ _ _) as [[[error|]|m] w'];
    destruct Hl as [[] Hh]; (split; [by split|]);
    unfold Healthy, rollback in *; simpl in *; by rewrite ?fr_accounts0, ?fr_now0 in *.
Qed.

Lemma createAccount_keeps args : keeps Healthy (createAccount args).
Proof.
  intros w Hw. unfold createAccount, uuid, bind, get, modify, ret, throw_error, throw. simpl.
  destruct (existsb _ (accounts w)) eqn:Hex; [done|]. simpl.
  destruct (existsb _ (assets w)); [|done]. unfold Healthy. simpl.
  apply healthy_account; [done|]. simpl.
  intros (a & Heq & Ha)%list_elem_of_fmap. rewrite <- not_true_iff_false in Hex. apply Hex.
  apply existsb_exists. exists a. rewrite <- list_elem_of_In. split; [done|].
  by rewrite bool_decide_eq_true_2.
Qed.
End Operations.

(** ** History: rows are only added, and only pending rows change state *)

Record advances (t t' : LedgerTransfer) : Prop := {
  adv_row : set_state PENDING t' = set_state PENDING t;
  adv_state : lt_state t' = lt_state t \/ lt_state t = PENDING
}.

Definition evolves (ts ts' : list LedgerTransfer) : Prop :=
  forall t, t ∈ ts -> exists t', t' ∈ ts' /\ advances t t'.

#[export] Instance advances_refl : Reflexive advances.
Proof. intros t. split; [done|by left]. Qed.

#[export] Instance evolves_refl : Reflexive evolves.
Proof. intros ts t Ht. by exists t. Qed.

#[export] Instance evolves_trans : Transitive evolves.
Proof.
  intros ts1 ts2 ts3 H12 H23 t Ht.
  destruct (H12 t Ht) as (t2 & Ht2 & [Hr2 Hs2]). destruct (H23 _ Ht2) as (t3 & Ht3 & [Hr3 Hs3]).
  exists t3. split; [done|]. split; [congruence|]. intuition congruence.
Qed.

Lemma evolves_app ts new : evolves ts (ts ++ new).
Proof. intros t Ht. exists t. rewrite elem_of_app. split; [by left|reflexivity]. Qed.

Lemma evolves_update n ts t st :
  NoDup (lt_id <$> ts) -> t ∈ ts -> validateTransferStateUpdate n t = None ->
  evolves ts (update_where (fun u => bool_decide (lt_id u = lt_id t)) (set_state st) ts).
Proof.
  intros Hnd Ht Hv u Hu. case (decide (lt_id u = lt_id t)) as [Heq|Hne].
  - assert (u = t) as -> by by apply (unique_key lt_id ts).
    exists (set_state st t). split.
    + apply update_where_elem. exists t. by rewrite bool_decide_eq_true_2.
    + split; [done|]. right. unfold validateTransferStateUpdate, isVoided, isPosted in Hv.
      by destruct (lt_state t).
  - exists u. split; [|reflexivity]. apply update_where_elem. exists u.
    by rewrite bool_decide_eq_false_2.
Qed.

Section History.
Context {E : Type} `{Uuid}.
Implicit Types w : World E.

(** A list of rows prepared from the requests, one each, in order. *)
Definition prepared (n : Z) (ts : list CreateLedgerTransferArgs) (rows : list LedgerTransfer)
  : Prop :=
  Forall2 (fun t row => validateId (cl_transferRef t) = true /\
             exists id, row = prepareTransfer n id t) ts rows.

Lemma createTransfersLoop_spec ts : forall index ab errs rs w,
  match createTransfersLoop index ab errs rs ts w with
  | (Ret r, w') => exists extra rows done_ts,
      errors r = errs ++ extra /\ results r = rs ++ rows /\
      transfers w' = transfers w ++ rows /\ prepared (now w) done_ts rows /\
      (extra = [] -> done_ts = ts)
  | (Throw _, w') => True
  end.
Proof.
  induction ts as [|t ts IH]; intros index ab errs rs w; simpl.
  { exists [], [], []. by rewrite !app_nil_r; repeat split; constructor. }
  unfold bind at 1. pose proof (validateTransfer_state ab t w) as Hstate.
  destruct (validateTransfer ab t w) as [[[error|]|m] w1] eqn:Hv; simpl in Hstate; subst w1; [| |done].
  { eexists [_], [], []. rewrite !app_nil_r; repeat split; [constructor|done]. }
  apply validateTransfer_None in Hv as [-> []].
  unfold bind at 1, try_catch, bind at 1.
  destruct (insertTransfer_spec t w) as (id & Hid & ->).
  destruct (insertable _ _) eqn:Hi; simpl.
  - match goal with |- context [createTransfersLoop ?i ?b ?e ?r ts ?w1] =>
      specialize (IH i b e r w1); destruct (createTransfersLoop i b e r ts w1) as [[r'|m] w'] end;
      [|done].
    destruct IH as (extra & rows & dn & He & Hr & Ht & Hp & Hx).
    exists extra, (prepareTransfer (now w) id t :: rows), (t :: dn).
    split; [done|]. split; [by rewrite Hr, <- app_assoc|].
    split; [rewrite Ht; simpl; by rewrite <- app_assoc|].
    split; [constructor; [by eauto|done]|]. intros Hnil. by rewrite Hx.
  - match goal with |- context [createTransfersLoop ?i ?b ?e ?r ts ?w1] =>
      specialize (IH i b e r w1); destruct (createTransfersLoop i b e r ts w1) as [[r'|m] w'] end;
      [|done].
    destruct IH as (extra & rows & dn & He & Hr & Ht & Hp & Hx).
    eexists (_ :: extra), rows, dn. rewrite He, <- app_assoc. repeat split; try done.
Qed.

(** All of the transfers are created, or none is. *)
Lemma createTransfers_spec ts w :
  match createTransfers ts w with
  | (Ret r, w') =>
      (errors r = [] /\ transfers w' = transfers w ++ results r /\
       prepared (now w) ts (results r)) \/
      (errors r <> [] /\ results r = [] /\ transfers w' = transfers w)
  | (Throw _, w') => transfers w' = transfers w
  end.
Proof.
  unfold createTransfers. pose proof (createTransfersLoop_spec ts 0 false [] [] w) as Hl.
  destruct (createTransfersLoop _ _ _ _ _ _) as [[r|e] w']; [|done].
  destruct Hl as (extra & rows & dn & He & Hr & Ht & Hp & Hx). simpl in *.
  destruct (errors r) as [|e es] eqn:Herr; simpl.
  - left. rewrite Hr. split; [done|]. split; [done|]. by rewrite <- Hx.
  - right. done.
Qed.

Lemma createTransfers_evolves ts w :
  evolves (transfers w) (transfers (createTransfers ts w).2).
Proof.
  pose proof (createTransfers_spec ts w) as Hs.
  destruct (createTransfers ts w) as [[r|e] w']; simpl.
  - destruct Hs as [(_ & -> & _)|(_ & _ & ->)]; [apply evolves_app|done].
  - by rewrite Hs.
Qed.

Lemma updateTransferState_evolves st refs w : st = POSTED \/ st = VOIDED -> Healthy w ->
  evolves (transfers w) (transfers (updateTransferState refs st w).2).
Proof.
  intros Hst Hw.
  assert (evolves (transfers w) (transfers (updateTransfersLoop st refs w).2)) as Hl.
  { revert w Hw. induction refs as [|ref refs IH]; intros w Hw; simpl; [done|].
    destruct (negb (validateId ref)); [done|]. unfold bind, get, modify.
    destruct (find_where _ _) as [t|] eqn:Hf; [|done].
    apply find_where_Some in Hf as [Ht _].
    destruct (validateTransferStateUpdate _ _) eqn:Hv; [done|].
    etrans; [|apply IH].
    - simpl. eapply evolves_update; [|done..]. apply Hw.
    - unfold Healthy. simpl. by apply healthy_update. }
  unfold updateTransferState.
  by destruct (updateTransfersLoop _ _ _) as [[[error|]|m] w'].
Qed.
End History.

(** ** Double entry *)

Lemma tally_cons side st n id t ts :
  tally side st n id (t :: ts) =
  (if bool_decide (side t = id) && live n st t then lt_amount t else 0) + tally side st n id ts.
Proof. done. Qed.

(** Over the accounts of a ledger, each side adds up to the posted transfers of
    that ledger. *)
Lemma tally_ledger accs n l side ts :
  NoDup (la_id <$> accs) ->
  (forall t, t ∈ ts -> exists a, a ∈ accs /\ la_id a = side t /\ la_ledger a = lt_ledger t) ->
  sum_where (fun a => la_ledger a =? l) (fun a => tally side POSTED n (la_id a) ts) accs =
  sum_where (fun t => (lt_ledger t =? l) && live n POSTED t) lt_amount ts.
Proof.
  intros Hnd. induction ts as [|t ts IH]; intros Hside; [apply sum_where_zero|].
  rewrite (sum_where_ext _ (fun a => la_ledger a =? l) _
    (fun a => (if bool_decide (side t = la_id a) && live n POSTED t then lt_amount t else 0)
              + tally side POSTED n (la_id a) ts)) by done.
  rewrite sum_where_add, IH, sum_where_cons by (intros; apply Hside; set_solver). f_equal.
  destruct (Hside t) as (a & Ha & Hid & Hl); [set_solver|].
  rewrite (sum_where_single _ _ _ a).
  - rewrite Hl, bool_decide_eq_true_2 by done. by destruct (_ =? l), (live n POSTED t).
  - by eapply NoDup_fmap_1.
  - done.
  - intros b Hb Hne. rewrite bool_decide_eq_false_2; [done|].
    intros Heq. apply Hne. apply (unique_key la_id accs); [done..|congruence].
Qed.

Lemma consistent_balanced accs ts n l :
  consistent accs ts ->
  sum_where (fun a => la_ledger a =? l) (fun a => tally lt_creditAccountId POSTED n (la_id a) ts) accs
  = sum_where (fun a => la_ledger a =? l) (fun a => tally lt_debitAccountId POSTED n (la_id a) ts) accs.
Proof.
  intros []. rewrite !tally_ledger; [done|done| |done|];
    intros t Ht; destruct (cs_endpoints0 t Ht) as (d & c & ?); [exists d|exists c]; naive_solver.
Qed.
