(* ===== verification/PsqlAccounting.v ===== *)
(** * PsqlAccounting: the Postgres accounting service

    Models [packages/backend/src/accounting/psql/service.ts] on top of
    [PsqlLedger], as an implementation of [Accounting.AccountingService].  The
    theorems take every sequence of service calls, of clock ticks and of
    changes elsewhere in the system, from an empty ledger. *)

From S2P Require Import Prelude Shared Accounting PsqlLedger.

Local Open Scope Z_scope.
Local Open Scope ts_scope.

Section Service.
Context {E : Type} `{Uuid}.
Abbreviation W := (World E).

Definition createLiquidityAccount (account : LiquidityAccount W) (accountType : LiquidityAccountType)
  : M W (LiquidityAccount W) :=
  let! _ := createAccount
    {| ca_accountRef := account_id account;
       ca_ledger := asset_ledger (account_asset account);
       ca_type := mapLiquidityAccountTypeToLedgerAccountType accountType |} in
  ret account.

Definition findAssetByLedger (ledger : Z) : M W (option AssetRow) :=
  gets (fun w => find_where (fun a => ar_ledger a =? ledger) (assets w)).

Definition createSettlementAccount (ledger : Z) : M W unit :=
  let! asset := findAssetByLedger ledger in
  match asset with
  | None => throw_error "Could not find asset by ledger value"
  | Some asset =>
      let! _ := createAccount {| ca_accountRef := ar_id asset; ca_ledger := ledger;
                                 ca_type := SETTLEMENT |} in
      ret tt
  end.

Definition createLiquidityAndLinkedSettlementAccount (account : LiquidityAccount W)
    (accountType : LiquidityAccountType) : M W (LiquidityAccount W) :=
  let! _ := createLiquidityAccount account accountType in
  createSettlementAccount (asset_ledger (account_asset account)) ;;!
  ret account.

Definition getLiquidityAccountBalance (accountRef : string) : M W (option Z) :=
  let! account := getLiquidityAccount accountRef in
  match account with
  | None => ret None
  | Some account =>
      let! b := getAccountBalances account in
      ret (Some (creditsPosted b - debitsPosted b - debitsPending b))
  end.

Definition getAccountTotalSent (accountRef : string) : M W (option Z) :=
  let! account := getLiquidityAccount accountRef in
  match account with
  | None => ret None
  | Some account =>
      let! b := getAccountBalances account in ret (Some (debitsPosted b))
  end.

Definition getAccountsTotalSent (accountRefs : list string) : M W (list (option Z)) :=
  mapM getAccountTotalSent accountRefs.

Definition getAccountTotalReceived (accountRef : string) : M W (option Z) :=
  let! account := getLiquidityAccount accountRef in
  match account with
  | None => ret None
  | Some account =>
      let! b := getAccountBalances account in ret (Some (creditsPosted b))
  end.

Definition getAccountsTotalReceived (accountRefs : list string) : M W (list (option Z)) :=
  mapM getAccountTotalReceived accountRefs.

Definition getSettlementBalance (ledger : Z) : M W (option Z) :=
  let! asset := findAssetByLedger ledger in
  match asset with
  | None => ret None
  | Some asset =>
      let! settlementAccount := getSettlementAccount (ar_id asset) in
      match settlementAccount with
      | None => ret None
      | Some settlementAccount =>
          let! b := getAccountBalances settlementAccount in
          ret (Some (debitsPosted b + debitsPending b - creditsPosted b))
      end
  end.

(** [attemptedTransfers[index]] *)
Definition at_index {A} (l : list A) (i : Z) : option A :=
  if i <? 0 then None else l !! Z.to_nat i.

Definition handleTransferCreateResults (args : TransferOptions W)
    (attemptedTransfers : list TransferToCreate) (r : CreateTransfersResult)
  : res TransferError (list LedgerTransfer) :=
  match errors r with
  | [] => Ok (results r)
  | e :: _ =>
      if existsb (fun e =>
           bool_decide (cte_error e = InsufficientBalance) &&
           bool_decide (sourceAccountId <$> at_index attemptedTransfers (cte_index e)
                        = Some (asset_id (account_asset (destinationAccount args)))))
         (errors r)
      then Err InsufficientLiquidity
      else Err (cte_error e)
  end.

(** The four accounts by reference; a later entry replaces an earlier one. *)
Definition accountMap (accs : list LedgerAccount) : gmap string LedgerAccount :=
  foldl (fun m a => <[la_accountRef a := a]> m) ∅ accs.

(** The ledger transfers asked of [createTransfers]; the entry of an account
    that is not in the map would make the code throw when it is read. *)
Definition ledgerTransferArgs (args : TransferOptions W)
    (m : gmap string LedgerAccount) (transfers : list TransferToCreate)
  : M W (list CreateLedgerTransferArgs) :=
  mapM (fun t =>
    let! ref := uuid in
    match m !! sourceAccountId t, m !! destinationAccountId t with
    | Some debitAccount, Some creditAccount =>
        ret {| cl_amount := amount t; cl_transferRef := ref; cl_type := None;
               cl_creditAccount := creditAccount; cl_debitAccount := debitAccount;
               cl_timeoutMs := Some (timeout args * 1000) |}
    | _, _ => throw_error "TypeError"
    end) transfers.

Definition psqlCreatePendingTransfers (args : TransferOptions W)
    (transfersToCreate : list TransferToCreate) : M W (res TransferError (list string)) :=
  let! source := getLiquidityAccount (account_id (sourceAccount args)) in
  let! sourceAsset := getLiquidityAccount (asset_id (account_asset (sourceAccount args))) in
  let! destination := getLiquidityAccount (account_id (destinationAccount args)) in
  let! destinationAsset :=
    getLiquidityAccount (asset_id (account_asset (destinationAccount args))) in
  match source, sourceAsset with
  | Some source, Some sourceAsset =>
      match destination, destinationAsset with
      | Some destination, Some destinationAsset =>
          let! requests := ledgerTransferArgs args
            (accountMap [source; sourceAsset; destination; destinationAsset])
            transfersToCreate in
          let! created := createTransfers requests in
          match handleTransferCreateResults args transfersToCreate created with
          | Err error => ret (Err error)
          | Ok pendingTransfers => ret (Ok (lt_transferRef <$> pendingTransfers))
          end
      | _, _ => ret (Err UnknownDestinationAccount)
      end
  | _, _ => ret (Err UnknownSourceAccount)
  end.

Definition transferOperations (args : TransferOptions W)
  : CreateAccountToAccountTransferArgs W :=
  {| transferArgs := args;
     voidTransfers_ := voidTransfers;
     postTransfers_ := postTransfers;
     getAccountReceived := getAccountTotalReceived;
     getAccountBalance := getLiquidityAccountBalance;
     createPendingTransfers := psqlCreatePendingTransfers args |}.

Definition createTransfer (delay : option Z) (args : TransferOptions W)
  : M W (res TransferError (Transaction W)) :=
  createAccountToAccountTransfer delay (transferOperations args).

Definition firstError (r : CreateTransfersResult) : option TransferError :=
  cte_error <$> head (errors r).

Definition createAccountDeposit (args : Deposit W) : M W (option TransferError) :=
  let! account := getLiquidityAccount (account_id (deposit_account args)) in
  let! settlementAccount :=
    getSettlementAccount (asset_id (account_asset (deposit_account args))) in
  match account, settlementAccount with
  | None, _ => ret (Some UnknownDestinationAccount)
  | Some _, None => ret (Some UnknownSourceAccount)
  | Some account, Some settlementAccount =>
      let! r := createTransfers
        [ {| cl_amount := deposit_amount args; cl_transferRef := deposit_id args;
             cl_type := Some LT_DEPOSIT; cl_creditAccount := account;
             cl_debitAccount := settlementAccount; cl_timeoutMs := None |} ] in
      ret (firstError r)
  end.

Definition createAccountWithdrawal (args : Withdrawal W) : M W (option TransferError) :=
  let d := withdrawal_deposit args in
  let! account := getLiquidityAccount (account_id (deposit_account d)) in
  let! settlementAccount :=
    getSettlementAccount (asset_id (account_asset (deposit_account d))) in
  match account, settlementAccount with
  | None, _ => ret (Some UnknownSourceAccount)
  | Some _, None => ret (Some UnknownDestinationAccount)
  | Some account, Some settlementAccount =>
      let! r := createTransfers
        [ {| cl_amount := deposit_amount d; cl_transferRef := deposit_id d;
             cl_type := Some LT_WITHDRAWAL; cl_creditAccount := settlementAccount;
             cl_debitAccount := account;
             cl_timeoutMs := if truthy (withdrawal_timeout args)
                             then (fun t => t * 1000) <$> withdrawal_timeout args
                             else None |} ] in
      ret (firstError r)
  end.

(** [createAccountingService] *)
Definition createAccountingService (delay : option Z) : AccountingService W :=
  {| Accounting.createLiquidityAccount := createLiquidityAccount;
     Accounting.createLiquidityAndLinkedSettlementAccount :=
       createLiquidityAndLinkedSettlementAccount;
     getBalance := getLiquidityAccountBalance;
     getTotalSent := getAccountTotalSent;
     Accounting.getAccountsTotalSent := getAccountsTotalSent;
     getTotalReceived := getAccountTotalReceived;
     Accounting.getAccountsTotalReceived := getAccountsTotalReceived;
     Accounting.getSettlementBalance := getSettlementBalance;
     Accounting.createTransfer := createTransfer delay;
     createDeposit := createAccountDeposit;
     createWithdrawal := createAccountWithdrawal;
     postWithdrawal ref := postTransfers [ref];
     voidWithdrawal ref := voidTransfers [ref] |}.

(** ** The ledger as a transition system *)

Definition set_now (n : Z) (w : W) : W :=
  mkWorld (accounts w) (transfers w) (assets w) n (fresh w) (ext w).
Definition set_ext (e : E) (w : W) : W :=
  mkWorld (accounts w) (transfers w) (assets w) (now w) (fresh w) e.
Definition set_assets (a : list AssetRow) (w : W) : W :=
  mkWorld (accounts w) (transfers w) a (now w) (fresh w) (ext w).

(** [posts] and [voids] take any references: those of a withdrawal, of a
    pending transfer, unknown ones, expired ones. *)
Inductive step : W -> W -> Prop :=
| step_account w account ty : step w (createLiquidityAccount account ty w).2
| step_linked w account ty : step w (createLiquidityAndLinkedSettlementAccount account ty w).2
| step_deposit w args : step w (createAccountDeposit args w).2
| step_withdrawal w args : step w (createAccountWithdrawal args w).2
| step_transfer w delay args : step w (createTransfer delay args w).2
| step_post w refs : step w (postTransfers refs w).2
| step_void w refs : step w (voidTransfers refs w).2
| step_tick w n : now w <= n -> step w (set_now n w)
| step_asset w a : step w (set_assets (assets w ++ [a]) w)
| step_ext w e : step w (set_ext e w).

Definition initial (w : W) : Prop := accounts w = [] /\ transfers w = [].

Definition reachable (w : W) : Prop := exists w0, initial w0 /\ rtc step w0 w.
End Service.

(** ** Every reachable ledger is healthy *)

Section Invariant.
Context {E : Type} `{Uuid}.
Implicit Types w : World E.

Definition liquidity (accs : list LedgerAccount) (ref : string) : option LedgerAccount :=
  find_where (fun a => bool_decide (la_accountRef a = ref) && negb (isSettlementAccount a)) accs.

Lemma liquidity_Some accs ref a :
  liquidity accs ref = Some a ->
  a ∈ accs /\ la_accountRef a = ref /\ isSettlementAccount a = false.
Proof. intros [Ha Hp]%find_where_Some. zbool. done. Qed.

Lemma accountMap_lookup accs l ref a :
  Forall (fun b => liquidity accs (la_accountRef b) = Some b) l ->
  accountMap l !! ref = Some a -> liquidity accs ref = Some a.
Proof.
  unfold accountMap. intros Hl.
  assert (forall (m : gmap string LedgerAccount),
    (forall r b, m !! r = Some b -> liquidity accs r = Some b) ->
    foldl (fun m a => <[la_accountRef a := a]> m) m l !! ref = Some a ->
    liquidity accs ref = Some a) as Hgen.
  { induction Hl as [|b l Hb Hl IH]; intros m Hm; simpl; [by apply Hm|].
    apply IH. intros r c Hr.
    destruct (decide (r = la_accountRef b)) as [->|Hne];
      [rewrite lookup_insert_eq in Hr|rewrite lookup_insert_ne in Hr by done];
      [by simplify_eq|by apply Hm]. }
  apply Hgen. intros r b Hr. by rewrite lookup_empty in Hr.
Qed.

(** The requests built for transfers between accounts of the map. *)
Definition request_for (accs : list LedgerAccount) (ms : Z) (t : TransferToCreate)
    (r : CreateLedgerTransferArgs) : Prop :=
  cl_amount r = amount t /\ cl_timeoutMs r = Some ms /\
  liquidity accs (sourceAccountId t) = Some (cl_debitAccount r) /\
  liquidity accs (destinationAccountId t) = Some (cl_creditAccount r).

Lemma ledgerTransferArgs_spec (args : TransferOptions (World E)) m accs ts w :
  (forall r a, m !! r = Some a -> liquidity accs r = Some a) ->
  framed w (ledgerTransferArgs args m ts w).2 /\
  transfers (ledgerTransferArgs args m ts w).2 = transfers w /\
  match (ledgerTransferArgs args m ts w).1 with
  | Ret rs => Forall2 (request_for accs (timeout args * 1000)) ts rs
  | Throw _ => True
  end.
Proof.
  intros Hm. unfold ledgerTransferArgs. revert w.
  induction ts as [|t ts IH]; intros w; simpl; [by repeat split|].
  unfold bind, uuid, get, modify, bind, ret, throw_error, throw in *.
  destruct (m !! sourceAccountId t) as [d|] eqn:Hd; [|done].
  destruct (m !! destinationAccountId t) as [c|] eqn:Hc; [|done].
  specialize (IH (set_fresh (S (fresh w)) w)).
  destruct (mapM _ ts _) as [[rs|e] w']; destruct IH as ([] & Ht & Hrs); simpl in *;
    repeat split; try done.
  constructor; [|done]. split; [done|]. split; [done|]. split; by apply Hm.
Qed.

Lemma request_for_args_in accs ms ts rs :
  Forall2 (request_for accs ms) ts rs -> Forall (args_in accs) rs.
Proof.
  induction 1 as [|t r ts rs (Ha & Hm & Hd & Hc)]; constructor; [|done].
  apply liquidity_Some in Hd as [? _], Hc as [? _]. by split.
Qed.

Lemma Healthy_framed w w' :
  framed w w' -> transfers w' = transfers w -> Healthy w -> Healthy w'.
Proof. unfold Healthy. by intros [-> _ -> _] ->. Qed.

Ltac unchanged := split; [by apply framed_refl|by split].

(** The requests [psqlCreatePendingTransfers] passes on, and what becomes of
    them. *)
Lemma psqlCreatePendingTransfers_spec (args : TransferOptions (World E)) ts w :
  Healthy w ->
  let '(o, w') := psqlCreatePendingTransfers args ts w in
  framed w w' /\ Healthy w' /\
  match o with
  | Ret (Ok ids) => exists rs rows,
      Forall2 (request_for (accounts w) (timeout args * 1000)) ts rs /\
      prepared (now w) rs rows /\ ids = lt_transferRef <$> rows /\
      transfers w' = transfers w ++ rows
  | _ => transfers w' = transfers w
  end.
Proof.
  intros Hw. unfold psqlCreatePendingTransfers, getLiquidityAccount, gets.
  unfold bind at 1. unfold bind at 1. unfold bind at 1. unfold bind at 1.
  repeat match goal with
         | |- context [find_where ?p (accounts w)] =>
             lazymatch p with
             | (fun a => bool_decide (la_accountRef a = ?r) && _) =>
                 change (find_where p (accounts w)) with (liquidity (accounts w) r)
             end
         end.
  destruct (liquidity _ (account_id (sourceAccount args))) as [a|] eqn:Ha; [|by unchanged].
  destruct (liquidity (accounts w) (asset_id (account_asset (sourceAccount args))))
    as [b|] eqn:Hb; [|by unchanged].
  destruct (liquidity (accounts w) (account_id (destinationAccount args)))
    as [c|] eqn:Hc; [|by unchanged].
  destruct (liquidity (accounts w) (asset_id (account_asset (destinationAccount args))))
    as [d|] eqn:Hd; [|by unchanged].
  assert (forall r e, accountMap [a; b; c; d] !! r = Some e ->
                      liquidity (accounts w) r = Some e) as Hmap.
  { intros r e. apply accountMap_lookup.
    repeat constructor; match goal with |- liquidity _ (la_accountRef ?x) = _ =>
      match goal with Hx : liquidity _ _ = Some x |- _ =>
        by destruct (liquidity_Some _ _ _ Hx) as (_ & -> & _) end end. }
  destruct (ledgerTransferArgs_spec args _ _ ts w Hmap) as (Hf & Ht & Hrs).
  unfold bind. destruct (ledgerTransferArgs _ _ _ w) as [[rs|e] w1]; simpl in *;
    [|by split; [|split; [eapply Healthy_framed|]]].
  assert (Healthy w1) as Hw1 by by eapply Healthy_framed.
  pose proof (createTransfers_spec rs w1) as Hspec.
  destruct (createTransfers_keeps rs w1) as [Hf2 Hh2]; [|done|].
  { destruct Hf as [-> _ _ _]. by eapply request_for_args_in. }
  destruct (createTransfers rs w1) as [[r|e] w2]; simpl in *.
  2: { split; [by etrans|]. split; [done|congruence]. }
  unfold handleTransferCreateResults.
  destruct Hspec as [(He & Hw2 & Hp)|(He & Hr & Hw2)].
  - rewrite He. simpl. split; [by etrans|]. split; [done|].
    exists rs, (results r). destruct Hf as [_ _ Hn _]. rewrite Hn in Hp.
    repeat split; try done. congruence.
  - destruct (errors r) as [|e es]; [done|].
    destruct (existsb _ _); simpl; split; (try by etrans); split; (try done); congruence.
Qed.

(** [createTransfer]: nothing is left behind unless a transaction comes back. *)
Lemma createTransfer_spec delay (args : TransferOptions (World E)) w :
  Healthy w ->
  let '(o, w') := createTransfer delay args w in
  framed w w' /\ Healthy w' /\
  match o with
  | Ret (Ok tx) => exists ts rs rows,
      validateTransferArgs args = None /\ transfersToCreate args = Ok ts /\
      Forall2 (request_for (accounts w) (timeout args * 1000)) ts rs /\
      prepared (now w) rs rows /\
      transfers w' = transfers w ++ rows /\
      void tx = voidTransfers (lt_transferRef <$> rows) /\
      post tx = postTransaction delay (transferOperations args) (lt_transferRef <$> rows)
  | _ => transfers w' = transfers w
  end.
Proof.
  intros Hw. unfold createTransfer, createAccountToAccountTransfer. simpl.
  destruct (validateTransferArgs args) as [e|] eqn:Hv; [by unchanged|].
  destruct (transfersToCreate args) as [ts|e] eqn:Hts; [|by unchanged].
  pose proof (psqlCreatePendingTransfers_spec args ts w Hw) as Hp.
  unfold bind at 1. destruct (psqlCreatePendingTransfers args ts w) as [[[ids|e]|e] w'];
    [|done|done].
  destruct Hp as (Hf & Hh & rs & rows & Hrs & Hpr & -> & Ht). simpl.
  split; [done|]. split; [done|]. exists ts, rs, rows.
  split; [done|]. split; [done|]. split; [done|]. split; [done|]. split; [done|]. by split.
Qed.

Lemma createLiquidityAccount_keeps account ty :
  keeps Healthy (createLiquidityAccount (E := E) account ty).
Proof.
  unfold createLiquidityAccount. keeps_auto. apply createAccount_keeps.
Qed.

Lemma createSettlementAccount_keeps ledger :
  keeps Healthy (createSettlementAccount (E := E) ledger).
Proof.
  unfold createSettlementAccount, findAssetByLedger. keeps_auto. apply createAccount_keeps.
Qed.

Lemma createLinked_keeps account ty :
  keeps Healthy (createLiquidityAndLinkedSettlementAccount (E := E) account ty).
Proof.
  unfold createLiquidityAndLinkedSettlementAccount. keeps_auto.
  - apply createLiquidityAccount_keeps.
  - apply createSettlementAccount_keeps.
Qed.

(** A deposit or a withdrawal is one request between accounts of the ledger. *)
Lemma createTransfers_one_keeps w r (k : CreateTransfersResult -> option TransferError) :
  Healthy w -> args_in (accounts w) r ->
  framed w (bind (createTransfers [r]) (fun x => ret (k x)) w).2 /\
  Healthy (bind (createTransfers [r]) (fun x => ret (k x)) w).2 /\
  evolves (transfers w) (transfers (bind (createTransfers [r]) (fun x => ret (k x)) w).2).
Proof.
  intros Hw Hr. destruct (createTransfers_keeps [r] w) as [Hf Hh]; [by constructor|done|].
  pose proof (createTransfers_evolves [r] w) as He.
  unfold bind, ret. by destruct (createTransfers [r] w) as [[x|e] w'].
Qed.

Lemma createAccountDeposit_keeps args w :
  Healthy w ->
  framed w (createAccountDeposit args w).2 /\ Healthy (createAccountDeposit args w).2 /\
  evolves (transfers w) (transfers (createAccountDeposit args w).2).
Proof.
  intros Hw. unfold createAccountDeposit, getLiquidityAccount, getSettlementAccount, gets.
  unfold bind at 1 4 7. unfold bind at 1 3 5.
  destruct (find_where _ _) as [a|] eqn:Ha; [|by unchanged].
  destruct (find_where (fun _ => _ && isSettlementAccount _) _) as [b|] eqn:Hb; [|by unchanged].
  apply find_where_Some in Ha as [Ha _], Hb as [Hb _]. by apply createTransfers_one_keeps.
Qed.

Lemma createAccountWithdrawal_keeps args w :
  Healthy w ->
  framed w (createAccountWithdrawal args w).2 /\ Healthy (createAccountWithdrawal args w).2 /\
  evolves (transfers w) (transfers (createAccountWithdrawal args w).2).
Proof.
  intros Hw. unfold createAccountWithdrawal, getLiquidityAccount, getSettlementAccount, gets.
  unfold bind at 1 4 7. unfold bind at 1 3 5.
  destruct (find_where _ _) as [a|] eqn:Ha; [|by unchanged].
  destruct (find_where (fun _ => _ && isSettlementAccount _) _) as [b|] eqn:Hb; [|by unchanged].
  apply find_where_Some in Ha as [Ha _], Hb as [Hb _]. by apply createTransfers_one_keeps.
Qed.

Lemma createAccount_transfers args w :
  transfers (createAccount (E := E) args w).2 = transfers w.
Proof.
  unfold createAccount, uuid, bind, get, modify, ret, throw_error, throw. simpl.
  by destruct (existsb _ (accounts w)); [|destruct (existsb _ (assets w))].
Qed.

Lemma createLiquidityAccount_transfers account ty w :
  transfers (createLiquidityAccount (E := E) account ty w).2 = transfers w.
Proof.
  unfold createLiquidityAccount, bind.
  match goal with |- context [createAccount ?a w] =>
    rewrite <- (createAccount_transfers a w); by destruct (createAccount a w) as [[]] end.
Qed.

Lemma createSettlementAccount_transfers ledger w :
  transfers (createSettlementAccount (E := E) ledger w).2 = transfers w.
Proof.
  unfold createSettlementAccount, findAssetByLedger, gets, bind at 1.
  destruct (find_where _ _) as [a|]; [|done]. unfold bind.
  match goal with |- context [createAccount ?a w] =>
    rewrite <- (createAccount_transfers a w); by destruct (createAccount a w) as [[]] end.
Qed.

Lemma createLinked_transfers account ty w :
  transfers (createLiquidityAndLinkedSettlementAccount (E := E) account ty w).2 = transfers w.
Proof.
  unfold createLiquidityAndLinkedSettlementAccount, bind.
  rewrite <- (createLiquidityAccount_transfers account ty w).
  destruct (createLiquidityAccount account ty w) as [[a|e] w1]; [|done]. simpl.
  rewrite <- (createSettlementAccount_transfers (asset_ledger (account_asset account)) w1).
  by destruct (createSettlementAccount _ w1) as [[]].
Qed.

(** One step keeps the ledger healthy and only extends its history. *)
Lemma step_keeps w w' :
  step w w' -> Healthy w -> Healthy w' /\ evolves (transfers w) (transfers w').
Proof.
  intros [] Hw.
  - split; [by apply createLiquidityAccount_keeps|by rewrite createLiquidityAccount_transfers].
  - split; [by apply createLinked_keeps|by rewrite createLinked_transfers].
  - by apply createAccountDeposit_keeps.
  - by apply createAccountWithdrawal_keeps.
  - pose proof (createTransfer_spec delay args w0 Hw) as Hs.
    destruct (createTransfer delay args w0) as [[[tx|e]|e] w1];
      destruct Hs as (_ & Hh & Hs); (split; [done|]); simpl.
    + destruct Hs as (ts & rs & rows & _ & _ & _ & _ & -> & _). apply evolves_app.
    + by rewrite Hs.
    + by rewrite Hs.
  - split; [apply (updateTransferState_keeps POSTED)|
            apply (updateTransferState_evolves POSTED)]; auto.
  - split; [apply (updateTransferState_keeps VOIDED)|
            apply (updateTransferState_evolves VOIDED)]; auto.
  - split; [by eapply healthy_tick|done].
  - by split.
  - by split.
Qed.

Lemma initial_Healthy w : initial w -> Healthy w.
Proof.
  intros [Ha Ht]. unfold Healthy. rewrite Ha, Ht.
  split; [split|]; try (intros ? []%elem_of_nil); constructor.
Qed.

Lemma rtc_step_keeps w w' :
  rtc step w w' -> Healthy w -> Healthy w' /\ evolves (transfers w) (transfers w').
Proof.
  induction 1 as [w|w1 w2 w3 Hs _ IH]; intros Hw; [done|].
  destruct (step_keeps w1 w2 Hs Hw) as [Hw2 He]. destruct (IH Hw2) as [Hw3 He'].
  split; [done|]. by etrans.
Qed.

Lemma reachable_Healthy w : reachable w -> Healthy w.
Proof. intros (w0 & H0 & Hs). by apply (rtc_step_keeps w0), initial_Healthy. Qed.
End Invariant.

(** C1. No sequence of accounting calls, clock ticks and changes elsewhere
    overdraws an account: in every reachable ledger the balance the service
    reports for a liquidity account (posted credits less posted and reserved
    debits) is not negative, and the settlement balance of a ledger, what the
    outside world has paid in and not yet been paid out, is not negative. *)
Theorem no_overdraft {E} `{Uuid} (w : World E) (Hw : reachable w) :
  (forall ref b w', getLiquidityAccountBalance ref w = (Ret (Some b), w') -> 0 <= b) /\
  (forall ledger b w', getSettlementBalance ledger w = (Ret (Some b), w') -> 0 <= b).
Proof.
  apply reachable_Healthy in Hw as [Hc Hs]. split.
  - intros ref b w'. unfold getLiquidityAccountBalance, getLiquidityAccount, getAccountBalances.
    unfold bind, gets, ret. destruct (find_where _ _) as [a|] eqn:Ha; intros Hb; [|by simplify_eq].
    rewrite balancesAt_tally in Hb. simpl in Hb. injection Hb as <- _.
    apply find_where_Some in Ha as [Ha Hp]. zbool. specialize (Hs a Ha).
    unfold solvent_account in Hs.
    destruct (isSettlementAccount a); [done|]. lia.
  - intros ledger b w'.
    unfold getSettlementBalance, findAssetByLedger, getSettlementAccount, getAccountBalances.
    unfold bind, gets, ret. destruct (find_where _ (assets w)) as [x|]; intros Hb; [|by simplify_eq].
    destruct (find_where _ (accounts w)) as [a|] eqn:Ha; [|by simplify_eq].
    rewrite balancesAt_tally in Hb. simpl in Hb. injection Hb as <- _.
    apply find_where_Some in Ha as [Ha Hp]. zbool. specialize (Hs a Ha).
    unfold solvent_account in Hs.
    destruct (isSettlementAccount a); [|done].
    assert (forall side st, 0 <= tally side st (now w) (la_id a) (transfers w)) as Hnn.
    { intros. apply sum_where_nonneg. intros t Ht. pose proof (cs_amount _ _ Hc t Ht). lia. }
    pose proof (Hnn lt_creditAccountId PENDING). pose proof (Hnn lt_debitAccountId PENDING). lia.
Qed.

(** ** Settling a pending transfer *)

Section Settle.
Context {E : Type} `{Uuid}.
Implicit Types w : World E.

(** Rows that can still be settled at time [n]. *)
Definition open_row (n : Z) (t : LedgerTransfer) : Prop :=
  lt_state t = PENDING /\ live n PENDING t = true /\ validateId (lt_transferRef t) = true.

Lemma open_row_valid n t : open_row n t -> validateTransferStateUpdate n t = None.
Proof.
  intros (Hs & Hl & _). unfold validateTransferStateUpdate, isVoided, isPosted, isExpired.
  unfold live in Hl. rewrite Hs in *. simpl in *. destruct (lt_expiresAt t) as [e|]; [|done].
  destruct (Z.ltb_spec n e), (Z.leb_spec e n); try done. lia.
Qed.

Lemma find_where_key {A} (key : A -> string) l x :
  NoDup (key <$> l) -> x ∈ l -> find_where (fun y => bool_decide (key y = key x)) l = Some x.
Proof.
  intros Hnd Hx. destruct (find_where _ l) as [y|] eqn:Hf.
  - apply find_where_Some in Hf as [Hy Hk]. zbool. f_equal. by apply (unique_key key l).
  - pose proof (find_where_None _ _ _ Hf Hx) as Hk. simpl in Hk. by zbool.
Qed.

Lemma update_where_head st pre t rest :
  NoDup (lt_id <$> pre ++ t :: rest) ->
  update_where (fun u => bool_decide (lt_id u = lt_id t)) (set_state st) (pre ++ t :: rest)
  = (pre ++ [set_state st t]) ++ rest.
Proof.
  intros Hnd. unfold update_where. rewrite map_app. simpl. rewrite bool_decide_eq_true_2 by done.
  rewrite <- app_assoc. rewrite fmap_app, fmap_cons in Hnd.
  apply NoDup_app in Hnd as (_ & Hpre & Hrest). apply NoDup_cons in Hrest as [Hrest _].
  f_equal; [|f_equal]; (apply update_where_id; intros u Hu; apply bool_decide_eq_false_2; intros Heq).
  - apply (Hpre (lt_id u)); [by apply list_elem_of_fmap_2|]. rewrite Heq. set_solver.
  - apply Hrest. rewrite <- Heq. by apply list_elem_of_fmap_2.
Qed.

Lemma updateTransfersLoop_settles st rows : st = POSTED \/ st = VOIDED -> forall pre w,
  transfers w = pre ++ rows -> Healthy w -> Forall (open_row (now w)) rows ->
  updateTransfersLoop st (lt_transferRef <$> rows) w =
    (Ret None, set_transfers (pre ++ (set_state st <$> rows)) w).
Proof.
  intros Hst. induction rows as [|t rows IH]; intros pre w Hw Hh Hopen; simpl.
  { rewrite <- Hw. by destruct w. }
  apply Forall_cons in Hopen as [Ht Hrows].
  assert (t ∈ transfers w) as Hin by (rewrite Hw; set_solver).
  destruct Ht as (Hs & Hl & Hid). rewrite Hid. simpl. unfold bind, get, modify.
  rewrite (find_where_key lt_transferRef); [|apply Hh|done].
  assert (validateTransferStateUpdate (now w) t = None) as Hv by by apply open_row_valid.
  rewrite Hv. rewrite Hw at 1. rewrite update_where_head.
  2: { rewrite <- Hw. apply Hh. }
  rewrite (IH (pre ++ [set_state st t])); [|done| |done].
  - unfold set_transfers. simpl. by rewrite <- app_assoc.
  - assert (healthy (accounts w) ((pre ++ [set_state st t]) ++ rows) (now w)) as Hh'; [|exact Hh'].
    rewrite <- update_where_head; rewrite <- Hw; [|apply Hh]. by apply healthy_update.
Qed.

Lemma updateTransferState_settles st pre rows w : st = POSTED \/ st = VOIDED ->
  transfers w = pre ++ rows -> Healthy w -> Forall (open_row (now w)) rows ->
  updateTransferState (lt_transferRef <$> rows) st w =
    (Ret None, set_transfers (pre ++ (set_state st <$> rows)) w).
Proof.
  intros Hst Hw Hh Hopen. unfold updateTransferState.
  by rewrite (updateTransfersLoop_settles st rows Hst pre w).
Qed.

(** Rows prepared from requests with a positive timeout are open. *)
Lemma prepared_open accs ms n ts rs rows :
  0 < ms -> Forall2 (request_for accs ms) ts rs -> prepared n rs rows ->
  Forall (open_row n) rows.
Proof.
  intros Hms Hrs Hp. revert ts Hrs.
  induction Hp as [|r row rs rows (Hid & id & ->)]; intros ts Hrs; constructor.
  - inversion Hrs as [|t ? ? ? (_ & Hto & _)]; subst.
    unfold open_row, prepareTransfer, live. simpl. rewrite Hto, truthy_Some_pos by done. simpl.
    split; [done|]. split; [apply Z.ltb_lt; lia|exact Hid].
  - inversion Hrs; subst. eauto.
Qed.

(** What the prepared rows add up to on an account, by direction. *)
Lemma prepared_amounts accs ms n ts rs rows ref a (side : LedgerTransfer -> string)
    (req_side : TransferToCreate -> string) (req_account : CreateLedgerTransferArgs -> LedgerAccount) :
  NoDup (la_id <$> accs) -> liquidity accs ref = Some a ->
  (forall id r, side (prepareTransfer n id r) = la_id (req_account r)) ->
  (forall t r, request_for accs ms t r -> liquidity accs (req_side t) = Some (req_account r)) ->
  Forall2 (request_for accs ms) ts rs -> prepared n rs rows ->
  sum_where (fun t => bool_decide (side t = la_id a)) lt_amount rows =
  sum_where (fun t => bool_decide (req_side t = ref)) amount ts.
Proof.
  intros Hnd Ha Hside Hreq Hrs Hp. revert ts Hrs.
  induction Hp as [|r row rs rows (_ & id & ->)]; intros ts Hrs; inversion Hrs as [|t ? ts' ? Hr Hrs']; subst.
  { done. }
  simpl. rewrite (IHHp _ Hrs'). f_equal. rewrite Hside.
  pose proof (Hreq t r Hr) as Hl. destruct Hr as (-> & _).
  destruct (liquidity_Some _ _ _ Hl) as (Hin & Href & _).
  destruct (liquidity_Some _ _ _ Ha) as (Hin' & Href' & _).
  case_bool_decide as Hx; case_bool_decide as Hy; try done; exfalso.
  - apply Hy. by rewrite <- Href, <- Href', (unique_key la_id accs (req_account r) a).
  - apply Hx. congruence.
Qed.

Lemma tally_settled side st st' n id rows :
  st = POSTED \/ st = VOIDED -> st' <> VOIDED ->
  tally side st' n id (set_state st <$> rows) =
  if decide (st' = st) then sum_where (fun t => bool_decide (side (set_state st t) = id)) lt_amount rows
  else 0.
Proof.
  intros Hst Hst'. unfold tally.
  induction rows as [|t rows IH]; [by destruct (decide _)|].
  rewrite fmap_cons, !sum_where_cons, IH. unfold live. simpl.
  destruct Hst as [->| ->], st'; simpl; try done; by rewrite ?andb_true_r, ?andb_false_r.
Qed.

(** The balance the service reports, as a function of the rows. *)
Lemma getLiquidityAccountBalance_eq ref w :
  getLiquidityAccountBalance ref w =
  (Ret ((fun a => tally lt_creditAccountId POSTED (now w) (la_id a) (transfers w)
                  - tally lt_debitAccountId POSTED (now w) (la_id a) (transfers w)
                  - tally lt_debitAccountId PENDING (now w) (la_id a) (transfers w))
        <$> liquidity (accounts w) ref), w).
Proof.
  unfold getLiquidityAccountBalance, getLiquidityAccount, getAccountBalances, bind, gets, ret.
  fold (liquidity (accounts w) ref). destruct (liquidity _ _) as [a|]; [|done].
  by rewrite balancesAt_tally.
Qed.

(** *** The callbacks of a post *)

(** What [post] calls when the transfers are posted. *)
Definition is_callback (args : TransferOptions (World E)) (m : M (World E) unit) : Prop :=
  (exists f o, (account_onDebit (sourceAccount args) = Some f \/
                asset_onDebit (account_asset (destinationAccount args)) = Some f) /\ m = f o) \/
  (exists f o, account_onCredit (destinationAccount args) = Some f /\ m = f o).

Definition same_ledger w w' : Prop :=
  accounts w' = accounts w /\ transfers w' = transfers w /\ now w' = now w.

(** The callbacks write events and rows of their own, and may fail; the ledger is not theirs. *)
Definition callbacks_keep_ledger (args : TransferOptions (World E)) : Prop :=
  forall m w, is_callback args m -> same_ledger w (m w).2.

(** A run of callbacks: it ends with [P], or is the failure of one of them. *)
Definition called (args : TransferOptions (World E)) {A} (P : A -> Prop) (o : outcome A) : Prop :=
  match o with
  | Ret a => P a
  | Throw e => exists m w, is_callback args m /\ (m w).1 = Throw e
  end.
Definition calls (args : TransferOptions (World E)) w {A} (P : A -> Prop) (m : M (World E) A) : Prop :=
  same_ledger w (m w).2 /\ called args P (m w).1.

Lemma calls_bind args w {A B} (m : M (World E) A) (k : A -> M (World E) B) P Q :
  calls args w P m -> (forall a w', same_ledger w w' -> calls args w' Q (k a)) -> calls args w Q (bind m k).
Proof.
  intros [Hm Hc] Hk. unfold calls, bind. destruct (m w) as [[a|e] w1]; [|done].
  destruct (Hk a w1 Hm) as [Hl Hd]. split; [|done]. unfold same_ledger in *. simpl in *. intuition congruence.
Qed.

Lemma calls_callback args w m : callbacks_keep_ledger args -> is_callback args m -> calls args w (fun _ => True) m.
Proof.
  intros Hkeep Hm. split; [by apply Hkeep|]. unfold called.
  destruct (m w) as [[a|e] w'] eqn:Hrun; [done|]. exists m, w. by rewrite Hrun.
Qed.

Lemma runOnDebit_calls args w id f :
  callbacks_keep_ledger args -> is_Some (liquidity (accounts w) id) ->
  (forall g o, f = Some g -> is_callback args (g o)) ->
  calls args w (fun _ => True) (runOnDebit getLiquidityAccountBalance id f).
Proof.
  intros Hkeep [a Ha] Hf. unfold runOnDebit. destruct f as [g|]; [|done].
  unfold calls, bind. rewrite getLiquidityAccountBalance_eq, Ha. by apply calls_callback, Hf.
Qed.

Lemma runOnCredit_calls args w delay :
  callbacks_keep_ledger args -> is_Some (liquidity (accounts w) (account_id (destinationAccount args))) ->
  calls args w (fun _ => True) (runOnCredit getAccountTotalReceived delay (destinationAccount args)).
Proof.
  intros Hkeep [a Ha]. unfold runOnCredit. destruct (account_onCredit _) as [g|] eqn:Hg; [|done].
  unfold calls, getAccountTotalReceived, getLiquidityAccount, getAccountBalances, bind, gets, ret.
  fold (liquidity (accounts w) (account_id (destinationAccount args))). rewrite Ha.
  apply calls_callback; [done|]. right. by eexists _, _.
Qed.

(** The accounts of a transfer that was created are there. *)
Definition accounts_known (args : TransferOptions (World E)) w : Prop :=
  is_Some (liquidity (accounts w) (account_id (sourceAccount args))) /\
  is_Some (liquidity (accounts w) (asset_id (account_asset (destinationAccount args)))) /\
  is_Some (liquidity (accounts w) (account_id (destinationAccount args))).

Lemma createTransfer_accounts delay (args : TransferOptions (World E)) w tx w' :
  createTransfer delay args w = (Ret (Ok tx), w') -> accounts_known args w.
Proof.
  unfold createTransfer, createAccountToAccountTransfer. simpl. destruct (validateTransferArgs args); [done|].
  destruct (transfersToCreate args) as [ts|]; [|done]. unfold bind at 1, psqlCreatePendingTransfers.
  unfold getLiquidityAccount, gets. unfold bind at 1 2 3 4. unfold accounts_known, liquidity.
  destruct (find_where _ _) as [a|]; [|by destruct (find_where _ _)].
  destruct (find_where _ _) as [b|]; [|done].
  destruct (find_where _ _) as [c|]; [|done].
  destruct (find_where _ _) as [d|]; [|done]. by eauto.
Qed.

Lemma callbacks_run delay (args : TransferOptions (World E)) w :
  callbacks_keep_ledger args -> accounts_known args w ->
  calls args w (fun error : option TransferError => error = None)
    (runOnDebit getLiquidityAccountBalance (account_id (sourceAccount args)) (account_onDebit (sourceAccount args)) ;;!
     runOnDebit getLiquidityAccountBalance (asset_id (account_asset (destinationAccount args)))
       (asset_onDebit (account_asset (destinationAccount args))) ;;!
     runOnCredit getAccountTotalReceived delay (destinationAccount args) ;;!
     ret None).
Proof.
  intros Hkeep (Hs & Ha & Hd). eapply calls_bind.
  { apply runOnDebit_calls; [done..|]. intros g o Hg. left. exists g, o. by split; [left|]. }
  intros _ w1 (Hw1 & _). eapply calls_bind.
  { apply runOnDebit_calls; [done|by rewrite Hw1|]. intros g o Hg. left. exists g, o. by split; [right|]. }
  intros _ w2 (Hw2 & _). eapply calls_bind; [|done].
  apply runOnCredit_calls; [done|by rewrite Hw2, Hw1].
Qed.
End Settle.

(** ** A concrete ledger for the witnesses *)

Module Example.
Import ConcreteUuid.

Definition usd : LiquidityAccountAsset (World unit) :=
  {| asset_id := "usd"; asset_code := Some "USD"%string; asset_scale := Some 2;
     asset_ledger := 1; asset_onDebit := None |}.
Definition account (id : string) (asset : LiquidityAccountAsset (World unit))
  : LiquidityAccount (World unit) :=
  {| account_id := id; account_asset := asset;
     account_onCredit := None; account_onDebit := None |}.

Definition empty : World unit := mkWorld [] [] [{| ar_id := "usd"; ar_ledger := 1 |}] 0 0 tt.
Definition with_usd : World unit :=
  (createLiquidityAndLinkedSettlementAccount (account "usd" usd) ASSET empty).2.
Definition with_peer : World unit := (createLiquidityAccount (account "peer" usd) PEER with_usd).2.
Definition with_invoice : World unit :=
  (createLiquidityAccount (account "invoice" usd) INCOMING with_peer).2.
Definition deposit (id account_ref : string) (n : Z) : Deposit (World unit) :=
  {| deposit_id := id; deposit_account := account account_ref usd; deposit_amount := n |}.
Definition funded_peer : World unit :=
  (createAccountDeposit (deposit "id-a" "peer" 100) with_invoice).2.
Definition funded : World unit :=
  (createAccountDeposit (deposit "id-b" "usd" 50) funded_peer).2.

(** 100 leave the peer's account, 97 arrive at the invoice's. *)
Definition transfer : TransferOptions (World unit) :=
  {| sourceAccount := account "peer" usd; destinationAccount := account "invoice" usd;
     sourceAmount := 100; destinationAmount := Some 97; timeout := 30; transferType := None |}.

Definition pending : World unit := (createTransfer None transfer funded).2.

(** The same transfer, with the callbacks of a peer and of an asset. *)
Definition notifying : TransferOptions (World unit) :=
  let asset := {| asset_id := "usd"; asset_code := None; asset_scale := None; asset_ledger := 1;
                  asset_onDebit := Some (fun _ => ret tt) |} in
  {| sourceAccount := {| account_id := "peer"; account_asset := asset; account_onCredit := None;
                         account_onDebit := Some (fun _ => ret tt) |};
     destinationAccount := account "invoice" asset;
     sourceAmount := 100; destinationAmount := Some 97; timeout := 30; transferType := None |}.

Lemma notifying_keeps : callbacks_keep_ledger notifying.
Proof.
  intros m w [(f & o & Hf & ->)|(f & o & Hf & ->)]; [|discriminate Hf].
  by destruct Hf as [[= <-]|[= <-]].
Qed.

Lemma empty_initial : initial empty.
Proof. done. Qed.

Lemma funded_reachable : reachable funded.
Proof.
  exists empty. split; [done|].
  eapply rtc_l; [apply step_linked|]. eapply rtc_l; [apply step_account|].
  eapply rtc_l; [apply step_account|]. eapply rtc_l; [apply step_deposit|].
  eapply rtc_l; [apply step_deposit|]. apply rtc_refl.
Qed.

Lemma pending_reachable : reachable pending.
Proof.
  destruct funded_reachable as (w0 & H0 & Hs). exists w0. split; [done|].
  eapply rtc_r; [done|]. apply step_transfer.
Qed.
End Example.

#[local] Existing Instance ConcreteUuid.uuid.

Lemma no_overdraft_witness :
  exists b w', getLiquidityAccountBalance "peer" Example.pending = (Ret (Some b), w') /\
    b = 0 /\ 0 <= b.
Proof.
  exists 0, Example.pending. split; [vm_compute; reflexivity|]. split; [reflexivity|].
  apply (proj1 (no_overdraft Example.pending Example.pending_reachable) "peer"%string 0 Example.pending).
  vm_compute. reflexivity.
Defined.

(** The effect of an account-to-account transfer on the balance of account [ref]. *)
Definition transfer_effect {S} (args : TransferOptions S) (ref : string) : Z :=
  at_account ref (account_id (destinationAccount args)) (delivered args)
  - at_account ref (account_id (sourceAccount args)) (sourceAmount args)
  + at_account ref (asset_id (account_asset (sourceAccount args))) (sourceAmount args)
  - at_account ref (asset_id (account_asset (destinationAccount args))) (delivered args).

(** C21. A two-phase transfer is, once settled, the atomic transfer its caller
    asked for.  When [createTransfer] returns a transaction, then [post] (on the
    unexpired transaction) moves each account's balance by exactly its share of
    the transfer, whatever the [onDebit] and [onCredit] callbacks of the accounts
    do outside the ledger, and succeeds unless one of them fails; and [void]
    succeeds and leaves every balance what it was before the transfer was created. *)
Theorem createTransfer_settles {E} `{Uuid} delay (args : TransferOptions (World E)) w tx w1
    (Hw : reachable w)
    (Htimeout : 0 < timeout args)
    (Hcallbacks : callbacks_keep_ledger args)
    (Hledger : asset_ledger (account_asset (sourceAccount args))
               = asset_ledger (account_asset (destinationAccount args)) ->
               asset_id (account_asset (sourceAccount args))
               = asset_id (account_asset (destinationAccount args)))
    (Hcreate : createTransfer delay args w = (Ret (Ok tx), w1)) :
  (exists r w2, post tx w1 = (r, w2) /\
     match r with
     | Ret error => error = None
     | Throw e => exists callback w3, is_callback args callback /\ (callback w3).1 = Throw e
     end /\
     forall ref b, (getLiquidityAccountBalance ref w).1 = Ret (Some b) ->
       (getLiquidityAccountBalance ref w2).1 = Ret (Some (b + transfer_effect args ref))) /\
  (exists w2, void tx w1 = (Ret None, w2) /\
     forall ref, (getLiquidityAccountBalance ref w2).1 = (getLiquidityAccountBalance ref w).1).
Proof.
  apply reachable_Healthy in Hw as Hh. pose proof (createTransfer_accounts _ _ _ _ _ Hcreate) as Hknown.
  pose proof (createTransfer_spec delay args w Hh) as Hs. rewrite Hcreate in Hs.
  destruct Hs as ([Hacc _ Hnow _] & Hh1 & ts & rs & rows & Hv & Hts & Hrs & Hp & Ht & Hvoid & Hpost).
  assert (Forall (open_row (now w1)) rows) as Hopen
    by (rewrite Hnow; eapply prepared_open; [|done..]; lia).
  rewrite Hpost, Hvoid. split.
  - set (w2 := set_transfers (transfers w ++ (set_state POSTED <$> rows)) w1).
    destruct (callbacks_run delay args w2 Hcallbacks) as [(Hacc3 & Htr3 & Hnow3) Hcalled];
      [unfold accounts_known, w2; simpl; by rewrite Hacc|].
    assert (updateTransferState (lt_transferRef <$> rows) POSTED w1 = (Ret None, w2)) as Hposted
      by (by apply updateTransferState_settles; auto).
    unfold postTransaction, postTransfers_, transferOperations, postTransfers.
    unfold bind at 1. rewrite Hposted. cbv beta iota zeta. unfold getAccountBalance, getAccountReceived.
    match type of Hcalled with called _ _ (?m w2).1 => exists (m w2).1, (m w2).2 end.
    split; [by apply surjective_pairing|]. split; [exact Hcalled|].
    intros ref b. rewrite !getLiquidityAccountBalance_eq, Hacc3, Htr3, Hnow3. simpl. rewrite Hacc, Hnow.
    destruct (liquidity (accounts w) ref) as [a|] eqn:Ha; intros Hb; simpl in *; simplify_eq.
    rewrite !tally_app, !tally_settled by auto. simpl.
    rewrite (prepared_amounts (accounts w) (timeout args * 1000) (now w) ts rs rows ref a
               lt_creditAccountId
               destinationAccountId cl_creditAccount), (prepared_amounts (accounts w) (timeout args * 1000) (now w) ts rs rows ref a
               lt_debitAccountId sourceAccountId cl_debitAccount);
      try done; try apply Hh; try (intros ? ? (_ & _ & ? & ?); done).
    pose proof (Accounting.transfersToCreate_effect args ts ref Hv Hledger Hts) as Hn.
    unfold net_effect in Hn. unfold transfer_effect. rewrite <- Hn. do 2 f_equal. lia.
  - exists (set_transfers (transfers w ++ (set_state VOIDED <$> rows)) w1). split.
    + unfold voidTransfers. by erewrite updateTransferState_settles by eauto.
    + intros ref. rewrite !getLiquidityAccountBalance_eq. simpl. rewrite Hacc, Hnow.
      destruct (liquidity (accounts w) ref) as [a|]; [|done]. simpl.
      rewrite !tally_app, !tally_settled by auto. simpl. do 2 f_equal. lia.
Qed.

Lemma createTransfer_settles_witness :
  exists tx r w2, createTransfer None Example.notifying Example.funded = (Ret (Ok tx), Example.pending) /\
    post tx Example.pending = (r, w2) /\
    (getLiquidityAccountBalance "peer" w2).1 = Ret (Some 0) /\
    (getLiquidityAccountBalance "invoice" w2).1 = Ret (Some 97) /\
    (getLiquidityAccountBalance "usd" w2).1 = Ret (Some 53).
Proof.
  destruct (createTransfer None Example.notifying Example.funded) as [[[tx|e]|e] w1] eqn:Hc;
    [|exfalso; apply (f_equal fst) in Hc; vm_compute in Hc; discriminate..].
  assert (w1 = Example.pending) as ->.
  { transitivity ((createTransfer None Example.notifying Example.funded).2); [by rewrite Hc|].
    vm_compute. reflexivity. }
  destruct (createTransfer_settles None Example.notifying Example.funded tx Example.pending
              Example.funded_reachable eq_refl Example.notifying_keeps
              (fun _ => eq_refl) Hc) as [(r & w2 & Hp & _ & Hb) _].
  exists tx, r, w2. split; [reflexivity|]. split; [exact Hp|]. repeat split.
  - apply (Hb "peer"%string 100). vm_compute. reflexivity.
  - apply (Hb "invoice"%string 0). vm_compute. reflexivity.
  - apply (Hb "usd"%string 50). vm_compute. reflexivity.
Defined.

(** C22. Ledger rows are immutable but for one change: a pending transfer is
    posted or voided, once.  Along every run a posted transfer stays posted, a
    voided one stays voided, and no column but the state ever changes. *)
Theorem transfers_settle_once {E} `{Uuid} (w w' : World E) t
    (Hw : reachable w) (Hrun : rtc step w w') (Ht : t ∈ transfers w) :
  exists t', t' ∈ transfers w' /\ set_state PENDING t' = set_state PENDING t /\
    (lt_state t = POSTED -> lt_state t' = POSTED) /\
    (lt_state t = VOIDED -> lt_state t' = VOIDED).
Proof.
  apply reachable_Healthy in Hw.
  destruct (rtc_step_keeps w w' Hrun Hw) as [_ He].
  destruct (He t Ht) as (t' & Ht' & [Hrow Hst]). exists t'.
  split; [done|]. split; [done|]. split; intros Hs; rewrite Hs in Hst; by destruct Hst.
Qed.

Lemma transfers_settle_once_witness :
  exists t t', t ∈ transfers Example.funded /\ lt_state t = POSTED /\
    t' ∈ transfers Example.pending /\ lt_state t' = POSTED.
Proof.
  assert (exists t, head (transfers Example.funded) = Some t /\ lt_state t = POSTED) as (t & Hh & Hs)
    by (eexists; split; vm_compute; reflexivity).
  assert (t ∈ transfers Example.funded) as Ht.
  { destruct (transfers Example.funded); [discriminate Hh|]. injection Hh as ->. left. }
  destruct (transfers_settle_once Example.funded Example.pending t Example.funded_reachable)
    as (t' & Ht' & _ & Hp & _); [apply rtc_once, step_transfer|exact Ht|].
  exists t, t'. auto.
Defined.

(** What an account has been credited, less what it has been debited. *)
Definition net_posted {E} (w : World E) (a : LedgerAccount) : Z :=
  let b := balancesAt (now w) (la_id a) (transfers w) in creditsPosted b - debitsPosted b.

(** C23. Double entry: in every reachable ledger the posted balances of the
    accounts of one asset cancel out, so what the liquidity accounts hold
    together is exactly what the settlement accounts owe. *)
Theorem double_entry {E} `{Uuid} (w : World E) (l : Z) (Hw : reachable w) :
  sum_where (fun a => (la_ledger a =? l) && negb (isSettlementAccount a)) (net_posted w) (accounts w)
  + sum_where (fun a => (la_ledger a =? l) && isSettlementAccount a) (net_posted w) (accounts w) = 0.
Proof.
  apply reachable_Healthy in Hw as [Hc _].
  pose proof (consistent_balanced _ _ (now w) l Hc) as Hb.
  assert (forall accs, sum_where (fun a => (la_ledger a =? l) && negb (isSettlementAccount a))
      (net_posted w) accs
    + sum_where (fun a => (la_ledger a =? l) && isSettlementAccount a) (net_posted w) accs
    = sum_where (fun a => la_ledger a =? l)
        (fun a => tally lt_creditAccountId POSTED (now w) (la_id a) (transfers w)) accs
    - sum_where (fun a => la_ledger a =? l)
        (fun a => tally lt_debitAccountId POSTED (now w) (la_id a) (transfers w)) accs) as Hsplit.
  { intros accs. induction accs as [|a accs IH]; [done|]. rewrite !sum_where_cons.
    unfold net_posted at 1 3. rewrite balancesAt_tally. simpl.
    destruct (la_ledger a =? l), (isSettlementAccount a); simpl; lia. }
  rewrite Hsplit. lia.
Qed.

Lemma double_entry_witness :
  sum_where (fun a => (la_ledger a =? 1) && negb (isSettlementAccount a))
    (net_posted Example.funded) (accounts Example.funded) = 150 /\
  sum_where (fun a => (la_ledger a =? 1) && isSettlementAccount a)
    (net_posted Example.funded) (accounts Example.funded) = -150.
Proof.
  pose proof (double_entry Example.funded 1 Example.funded_reachable) as Hd.
  assert (sum_where (fun a => (la_ledger a =? 1) && negb (isSettlementAccount a))
    (net_posted Example.funded) (accounts Example.funded) = 150) as Hl by (vm_compute; reflexivity).
  split; [exact Hl|]. rewrite Hl in Hd. lia.
Defined.

(** [createTransfer] is all or nothing: when it does not return a
    transaction (an error of the enum, or an exception), no row of the ledger
    has changed; and an error on the arguments alone is reported before the
    ledger is consulted. *)
Theorem createTransfer_all_or_nothing {E} `{Uuid} delay (args : TransferOptions (World E)) w o w'
    (Hw : reachable w) (Hrun : createTransfer delay args w = (o, w')) :
  (accounts w' = accounts w /\
   match o with Ret (Ok _) => True | _ => transfers w' = transfers w end) /\
  match validateTransferArgs args with
  | Some error => o = Ret (Err error) /\ w' = w
  | None => True
  end.
Proof.
  split.
  - apply reachable_Healthy in Hw. pose proof (createTransfer_spec delay args w Hw) as Hs.
    rewrite Hrun in Hs. destruct Hs as ([Hacc _ _ _] & _ & Hs). split; [done|].
    by destruct o as [[tx|e]|e].
  - unfold createTransfer, createAccountToAccountTransfer in Hrun. simpl in Hrun.
    destruct (validateTransferArgs args) as [e|]; [|done]. unfold ret in Hrun. by simplify_eq.
Qed.

(** A transfer of more than the peer has: the reservation is refused. *)
Lemma createTransfer_all_or_nothing_witness :
  exists w', createTransfer None Example.transfer Example.pending = (Ret (Err InsufficientBalance), w') /\
    transfers w' = transfers Example.pending.
Proof.
  destruct (createTransfer None Example.transfer Example.pending) as [o w'] eqn:Hc.
  assert (o = Ret (Err InsufficientBalance)) as ->.
  { apply (f_equal fst) in Hc. vm_compute in Hc. congruence. }
  exists w'. split; [reflexivity|].
  apply (createTransfer_all_or_nothing None Example.transfer Example.pending
           (Ret (Err InsufficientBalance)) w' Example.pending_reachable Hc).
Defined.
