(* ===== verification/Fee.v ===== *)
(** * Fee: sending and receiving fees

    Models [fee/model.ts], [fee/errors.ts] and [fee/service.ts].  The fee cache
    is the in-memory store of [Cache] under the keys [id] and [assetId ++ type].
    The check of the foreign key [fees.assetId] asks the state of the asset
    service which assets exist. *)

From Stdlib Require Import Ascii.
From S2P Require Import Prelude Shared JsNumber Service Cache Pagination.

Local Open Scope Z_scope.
Local Open Scope ts_scope.

Inductive FeeError := UnknownAsset | InvalidBasisPointFee | InvalidFixedFee.

Inductive FeeType := Sending | Receiving.

#[global] Instance FeeType_eq_dec : EqDecision FeeType.
Proof. solve_decision. Defined.

(** The values of the string enum. *)
Definition FeeType_value (t : FeeType) : string :=
  match t with Sending => "SENDING" | Receiving => "RECEIVING" end.

Record Fee := {
  fee_id : string;
  fee_assetId : string;
  fee_type : FeeType;
  fixedFee : Z;
  basisPointFee : Z;
  fee_createdAt : Z
}.

#[global] Instance Fee_model : BaseModel Fee := { id := fee_id; createdAt := fee_createdAt }.

(** [Fee.calculate]: percentages are doubles; [BigInt] of a product that is not
    finite throws. *)
Definition calculate (fee : Fee) (principal : Z) : option Z :=
  let feePercentage := num_div (of_bigint (basisPointFee fee)) (of_bigint 10000) in
  (fun ceil => ceil + fixedFee fee)
    <$> bigint_ceil (num_mul (of_bigint principal) feePercentage).

(** ** The service *)

Record CreateOptions := {
  co_assetId : string;
  co_type : FeeType;
  co_fixed : Z;
  co_basisPoints : Z
}.

Record FeeDb := { fees : list Fee; feeCache : Cache Fee }.

Section FeeService.
Context {X : Type} `{Uuid}.
Context (assetExists : X -> string -> bool) (keyTtlMs : Z).

Definition FeeState : Type := Svc FeeDb X.

Definition set_cache (c : Cache Fee) (d : FeeDb) : FeeDb := {| fees := fees d; feeCache := c |}.

Definition feeCache_get (key : string) : M FeeState (option Fee) :=
  let! now := date_now in
  let! cache := db_get feeCache in
  let '(fee, cache) := cache_get now key cache in
  db_set (set_cache cache) ;;! ret fee.

Definition feeCache_set (key : string) (fee : Fee) : M FeeState unit :=
  let! now := date_now in
  db_set (fun d => set_cache (cache_set keyTtlMs now key fee (feeCache d)) d).

Definition getById (id : string) : M FeeState (option Fee) :=
  let! cachedFee := feeCache_get id in
  match cachedFee with
  | Some fee => ret (Some fee)
  | None =>
      let! fee := db_get (fun d => find_where (fun f => bool_decide (fee_id f = id)) (fees d)) in
      match fee with
      | Some fee => feeCache_set id fee ;;! ret (Some fee)
      | None => ret None
      end
  end.

(** [where({ assetId, type }).orderBy('createdAt', 'desc').first()] *)
Definition latest_by_createdAt (l : list Fee) : option Fee :=
  foldl (fun best f => match best with
                       | Some b => if fee_createdAt b <? fee_createdAt f then Some f else Some b
                       | None => Some f
                       end) None l.

Definition fee_for (assetId : string) (type : FeeType) (f : Fee) : bool :=
  bool_decide (fee_assetId f = assetId) && bool_decide (fee_type f = type).

Definition fee_key (assetId : string) (type : FeeType) : string :=
  (assetId +:+ FeeType_value type)%string.

Definition getLatestFee (assetId : string) (type : FeeType) : M FeeState (option Fee) :=
  let! cachedFee := feeCache_get (fee_key assetId type) in
  match cachedFee with
  | Some fee => ret (Some fee)
  | None =>
      let! latestFee := db_get (fun d =>
        latest_by_createdAt (List.filter (fee_for assetId type) (fees d))) in
      match latestFee with
      | Some fee => feeCache_set (fee_key assetId type) fee ;;! ret (Some fee)
      | None => ret None
      end
  end.

Definition getFeesPage (assetId : string) (pagination : option Pagination)
    (sortOrder : SortOrder) : M FeeState (list Fee) :=
  let! table := db_get fees in
  match getPage table (fun f => bool_decide (fee_assetId f = assetId)) pagination sortOrder with
  | Ret page => ret page
  | Throw e => throw e
  end.

Definition insertFee (options : CreateOptions) : M FeeState Fee :=
  let! x := gets ext in
  if assetExists x (co_assetId options) then
    let! id := uuid in
    let! now := date_now in
    let fee := {| fee_id := id; fee_assetId := co_assetId options; fee_type := co_type options;
                  fixedFee := co_fixed options; basisPointFee := co_basisPoints options;
                  fee_createdAt := now |} in
    db_set (fun d => {| fees := fees d ++ [fee]; feeCache := feeCache d |}) ;;! ret fee
  else throw (ForeignKeyViolationError "fees_assetid_foreign").

Definition createFee (options : CreateOptions) : M FeeState (res FeeError Fee) :=
  if co_fixed options <? 0 then ret (Err InvalidFixedFee)
  else if (co_basisPoints options <? 0) || (10000 <? co_basisPoints options)
  then ret (Err InvalidBasisPointFee)
  else
    try_catch
      (let! fee := insertFee options in
       feeCache_set (fee_key (co_assetId options) (co_type options)) fee ;;! ret (Ok fee))
      (fun error => match error with
                    | ForeignKeyViolationError _ => ret (Err UnknownAsset)
                    | _ => throw error
                    end).

(** ** The cache never answers with a stale fee

    Creations happen at distinct times (the column has microseconds); between
    operations time passes and the asset service moves on. *)

Inductive fee_step : FeeState -> FeeState -> Prop :=
| step_create options s :
    (forall f, f ∈ fees (db s) -> fee_createdAt f < now s) ->
    fee_step s (createFee options s).2
| step_getLatestFee assetId type s : fee_step s (getLatestFee assetId type s).2
| step_getById id s : fee_step s (getById id s).2
| step_tick t x (s : FeeState) :
    now s <= t -> fee_step s {| db := db s; now := t; fresh := fresh s; ext := x |}.

(** The fee created last for an asset and type. *)
Definition last_created (assetId : string) (type : FeeType) (l : list Fee) : option Fee :=
  list.last (List.filter (fee_for assetId type) l).

Definition cached_ok (l : list Fee) (key : string) (f : Fee) : Prop :=
  (exists assetId type, key = fee_key assetId type /\ last_created assetId type l = Some f) \/
  (f ∈ l /\ key = fee_id f).

Record fee_inv (s : FeeState) : Prop := {
  inv_chronological : StronglySorted (fun f g => fee_createdAt f < fee_createdAt g) (fees (db s));
  inv_past : forall f, f ∈ fees (db s) -> fee_createdAt f <= now s;
  inv_ids : forall f, f ∈ fees (db s) -> exists n, fee_id f = v4 n;
  inv_cache : entries (cached_ok (fees (db s))) (feeCache (db s));
  inv_valid : forall f, f ∈ fees (db s) -> 0 <= fixedFee f /\ 0 <= basisPointFee f <= 10000
}.

Lemma latest_is_last (l : list Fee) :
  StronglySorted (fun f g => fee_createdAt f < fee_createdAt g) l ->
  latest_by_createdAt l = list.last l.
Proof.
  induction l as [|f l IH] using rev_ind; intros Hs; [done|].
  apply StronglySorted_app in Hs as (Hlt & Hs & _). specialize (IH Hs).
  unfold latest_by_createdAt in *. rewrite foldl_app, IH, last_snoc. simpl.
  destruct (list.last l) as [g|] eqn:E; [|done].
  apply last_Some_elem_of in E. specialize (Hlt g f E ltac:(set_solver)).
  by rewrite (proj2 (Z.ltb_lt _ _) Hlt).
Qed.

(** *** Keys of the cache *)

Lemma app_string_list (a b : string) :
  String.list_ascii_of_string (a +:+ b)%string = String.list_ascii_of_string a ++ String.list_ascii_of_string b.
Proof. induction a as [|c a IH]; simpl; [done|]. by rewrite <- IH. Qed.

Lemma list_ascii_inj (a b : string) : String.list_ascii_of_string a = String.list_ascii_of_string b -> a = b.
Proof.
  intros Heq. rewrite <- (String.string_of_list_ascii_of_string a), Heq.
  apply String.string_of_list_ascii_of_string.
Qed.

Lemma fee_key_inj a t a' t' : fee_key a t = fee_key a' t' -> a = a' /\ t = t'.
Proof.
  intros Heq%(f_equal String.list_ascii_of_string). unfold fee_key in Heq.
  rewrite !app_string_list in Heq. destruct t, t'; simpl in Heq.
  - apply app_inj_2 in Heq as [Heq _]; [|done]. by apply list_ascii_inj in Heq.
  - change (["R"; "E"; "C"; "E"; "I"; "V"; "I"; "N"; "G"]%char)
      with (["R"; "E"]%char ++ ["C"; "E"; "I"; "V"; "I"; "N"; "G"]%char) in Heq.
    rewrite app_assoc in Heq. apply app_inj_2 in Heq as [_ Heq]; done.
  - change (["R"; "E"; "C"; "E"; "I"; "V"; "I"; "N"; "G"]%char)
      with (["R"; "E"]%char ++ ["C"; "E"; "I"; "V"; "I"; "N"; "G"]%char) in Heq.
    rewrite app_assoc in Heq. apply app_inj_2 in Heq as [_ Heq]; done.
  - apply app_inj_2 in Heq as [Heq _]; [|done]. by apply list_ascii_inj in Heq.
Qed.

(** Identifiers are hexadecimal: none ends like a key of the other kind. *)
Context (v4_hex : forall n c, c ∈ String.list_ascii_of_string (v4 n) -> c <> "G"%char).

Lemma fee_key_not_id a t n : fee_key a t <> v4 n.
Proof.
  intros Heq. apply (v4_hex n "G"%char); [|done]. rewrite <- Heq. unfold fee_key.
  rewrite app_string_list. destruct t; set_solver.
Qed.

Lemma cached_ok_fee_key s a t f :
  fee_inv s -> cached_ok (fees (db s)) (fee_key a t) f ->
  last_created a t (fees (db s)) = Some f.
Proof.
  intros Hinv [(a' & t' & Hk & Hf)|[Hf Hk]].
  - by apply fee_key_inj in Hk as [-> ->].
  - destruct (inv_ids s Hinv f Hf) as [n Hn]. by destruct (fee_key_not_id a t n); congruence.
Qed.

(** A step that leaves the rows alone and writes coherent entries. *)
Lemma fee_inv_cache s c :
  fee_inv s -> entries (cached_ok (fees (db s))) c -> fee_inv (set_db (set_cache c (db s)) s).
Proof. by intros [H1 H2 H3 H4 H5] Hc; constructor. Qed.

Lemma feeCache_get_spec key (Q : _ -> _ -> Prop) s :
  fee_inv s ->
  (forall r s', fee_inv s' -> fees (db s') = fees (db s) -> fresh s' = fresh s -> now s' = now s ->
     (forall f, r = Some f -> cached_ok (fees (db s)) key f) -> Q (Ret r) s') ->
  wp (feeCache_get key) Q s.
Proof.
  intros Hinv HQ. unfold feeCache_get. wp_auto.
  destruct (cache_get_spec _ _ _ _ _ Heqp) as [Hc Hr]. apply HQ; [|done..|].
  - apply fee_inv_cache; [done|]. apply Hc, (inv_cache s Hinv).
  - intros f ->. destruct Hr as (c & Hk & <- & _). by apply (inv_cache s Hinv).
Qed.

Lemma feeCache_set_spec key f (Q : _ -> _ -> Prop) s :
  fee_inv s -> cached_ok (fees (db s)) key f ->
  (forall s', fee_inv s' -> fees (db s') = fees (db s) -> Q (Ret tt) s') ->
  wp (feeCache_set key f) Q s.
Proof.
  intros Hinv Hf HQ. unfold feeCache_set. wp_auto. apply HQ; [|done].
  apply fee_inv_cache; [done|]. apply entries_set; [done|].
  eapply entries_mono; [|apply (inv_cache s Hinv)]. done.
Qed.

Lemma getById_spec id s : fee_inv s -> wp (getById id) (fun _ s' => fee_inv s') s.
Proof.
  intros Hinv. unfold getById. wp_step. apply feeCache_get_spec; [done|].
  intros r s1 Hinv1 Hf1 _ _ _. wp_auto; [done| |done].
  apply find_where_Some in Heqo0 as [Hin Hid]. zbool.
  apply feeCache_set_spec; [done|right; done|]. intros s2 Hinv2 _. by wp_auto.
Qed.

Lemma getLatestFee_spec a t s :
  fee_inv s ->
  wp (getLatestFee a t)
    (fun r s' => fee_inv s' /\ r = Ret (last_created a t (fees (db s)))) s.
Proof.
  intros Hinv. unfold getLatestFee. wp_step. apply feeCache_get_spec; [done|].
  intros r s1 Hinv1 Hf1 _ _ Hr. destruct r as [f|].
  { wp_auto. split; [done|]. specialize (Hr f eq_refl).
    by rewrite (cached_ok_fee_key s a t f). }
  assert (latest_by_createdAt (List.filter (fee_for a t) (fees (db s1)))
          = last_created a t (fees (db s))) as Hlast.
  { rewrite latest_is_last; [by rewrite Hf1|].
    apply StronglySorted_filter_bool, (inv_chronological s1 Hinv1). }
  do 2 wp_step. rewrite Hlast. destruct (last_created a t (fees (db s))) as [f|] eqn:E.
  - wp_step. apply feeCache_set_spec; [done| |].
    + left. exists a, t. split; [done|]. by rewrite Hf1.
    + intros s2 Hinv2 _. by wp_auto.
  - by wp_auto.
Qed.

(** Inserting a fee, and caching it under its key. *)
Lemma insert_inv options s f c :
  fee_inv s -> (forall g, g ∈ fees (db s) -> fee_createdAt g < now s) ->
  0 <= co_fixed options -> 0 <= co_basisPoints options <= 10000 ->
  f = {| fee_id := v4 (fresh s); fee_assetId := co_assetId options; fee_type := co_type options;
         fixedFee := co_fixed options; basisPointFee := co_basisPoints options;
         fee_createdAt := now s |} ->
  c = cache_set keyTtlMs (now s) (fee_key (co_assetId options) (co_type options)) f (feeCache (db s)) ->
  fee_inv {| db := {| fees := fees (db s) ++ [f]; feeCache := c |};
             now := now s; fresh := S (fresh s); ext := ext s |}.
Proof.
  intros Hinv Hlt Hfix Hbp Ef ->. constructor; simpl.
  - apply StronglySorted_snoc; [apply (inv_chronological s Hinv)|]. intros g Hg. subst f. auto.
  - intros g [Hg| ->%list_elem_of_singleton]%elem_of_app; [by apply (inv_past s Hinv)|].
    subst f. simpl. lia.
  - intros g [Hg| ->%list_elem_of_singleton]%elem_of_app; [by apply (inv_ids s Hinv)|].
    subst f. by exists (fresh s).
  - assert (forall a t, last_created a t (fees (db s) ++ [f]) =
      if fee_for a t f then Some f else last_created a t (fees (db s))) as Hlast.
    { intros a t. unfold last_created. rewrite List.filter_app. simpl.
      destruct (fee_for a t f); [by rewrite last_snoc|]. by rewrite app_nil_r. }
    apply entries_set.
    + left. exists (co_assetId options), (co_type options). split; [done|].
      rewrite Hlast. subst f. unfold fee_for. simpl. by rewrite !bool_decide_eq_true_2.
    + intros key d Hd Hne. destruct (inv_cache s Hinv key d Hd) as [(a & t & -> & Ha)|[Hin Hk]].
      * left. exists a, t. split; [done|]. rewrite Hlast.
        destruct (fee_for a t f) eqn:E; [|done]. exfalso. apply Hne.
        unfold fee_for in E. subst f. simpl in E. zbool. by subst.
      * right. split; [apply elem_of_app; by left|done].
  - intros g [Hg| ->%list_elem_of_singleton]%elem_of_app; [by apply (inv_valid s Hinv)|].
    by rewrite Ef.
Qed.

Lemma createFee_spec options s :
  fee_inv s -> (forall f, f ∈ fees (db s) -> fee_createdAt f < now s) ->
  wp (createFee options) (fun _ s' => fee_inv s') s.
Proof.
  intros Hinv Hlt. unfold createFee, insertFee, feeCache_set. wp_auto; [done|done| |done].
  zbool. by eapply (insert_inv options s).
Qed.

Lemma fee_step_inv s s' : fee_step s s' -> fee_inv s -> fee_inv s'.
Proof.
  intros [options s1 Hlt|a t s1|id s1|t x s1 Ht] Hinv.
  - by apply createFee_spec.
  - apply (getLatestFee_spec a t s1 Hinv).
  - by apply getById_spec.
  - destruct Hinv as [H1 H2 H3 H4 H5]. constructor; simpl; try done.
    intros f Hf. specialize (H2 f Hf). lia.
Qed.

Definition fee_init (s : FeeState) : Prop := fees (db s) = [] /\ feeCache (db s) = ∅.

Lemma fee_reachable_inv s0 s : fee_init s0 -> rtc fee_step s0 s -> fee_inv s.
Proof.
  intros [Hf Hc] Hs. assert (fee_inv s0) as Hinv; [|clear Hf Hc; induction Hs as [|s1 s2 s3 Hstep _ IH];
    [done|apply IH; by eapply fee_step_inv]].
  constructor; rewrite ?Hf, ?Hc; try set_solver; [constructor|apply entries_empty].
Qed.

(** The fee cache is coherent.  Whatever creations, lookups by identifier or
    by asset and type, and passages of time (with the expiry of cache entries) came
    before, [getLatestFee] returns the fee created last for that asset and type, or
    nothing when there is none; it never answers with a superseded fee.  The
    hypothesis is that identifiers are hexadecimal, so that the two kinds of cache
    keys do not meet. *)
Theorem getLatestFee_coherent s0 s a t :
  fee_init s0 -> rtc fee_step s0 s ->
  (getLatestFee a t s).1 = Ret (last_created a t (fees (db s))).
Proof.
  intros H0 Hs. apply (getLatestFee_spec a t s (fee_reachable_inv s0 s H0 Hs)).
Qed.

(** ** Bounds of a fee *)

Lemma calculate_bounds fee principal z :
  0 <= fixedFee fee -> 0 <= basisPointFee fee -> 0 <= principal ->
  calculate fee principal = Some z -> fixedFee fee <= z.
Proof.
  unfold calculate. intros Hf Hb Hp (c & Hc & ->)%fmap_Some.
  apply bigint_ceil_nonneg in Hc; [lia|].
  apply num_mul_nonneg; [by apply of_bigint_nonneg|].
  apply num_div_nonneg; by apply of_bigint_nonneg.
Qed.

(** A stored fee never takes less than its fixed part.  In every reachable
    state a fee has a non-negative fixed part and between 0 and 10000 basis points,
    whatever creations were attempted, and the amount it calculates for a
    non-negative principal is at least the fixed part: fees are never negative. *)
Theorem stored_fee_bounds s0 s f principal z :
  fee_init s0 -> rtc fee_step s0 s -> f ∈ fees (db s) -> 0 <= principal ->
  calculate f principal = Some z ->
  0 <= fixedFee f <= z /\ 0 <= basisPointFee f <= 10000.
Proof.
  intros H0 Hs Hf Hp Hz. destruct (inv_valid s (fee_reachable_inv s0 s H0 Hs) f Hf).
  split; [|done]. split; [done|]. apply (calculate_bounds f principal); [done|lia|done|done].
Qed.
End FeeService.

(** The percentage is a double and the product is rounded up: 7% of 100 is 8, as
    700 / 10000 is a little more than 0.07 and the product a little more than 7. *)
Lemma calculate_overcharges :
  calculate {| fee_id := ""; fee_assetId := ""; fee_type := Sending; fixedFee := 0;
               basisPointFee := 700; fee_createdAt := 0 |} 100 = Some 8.
Proof. by vm_compute. Qed.

(** ** Witnesses *)

Module Example.
#[local] Existing Instance ConcreteUuid.uuid.

Lemma concrete_hex n c : c ∈ String.list_ascii_of_string (v4 n) -> c <> "G"%char.
Proof.
  intros Hc ->. simpl in Hc. repeat (apply elem_of_cons in Hc as [Hc|Hc]; [done|]).
  induction n as [|n IH]; simpl in Hc; [by apply elem_of_nil in Hc|].
  apply elem_of_cons in Hc as [Hc|Hc]; [done|auto].
Qed.

Definition exists_usd (x : unit) (a : string) : bool := bool_decide (a = "usd"%string).

Definition s0 : FeeState :=
  {| db := {| fees := []; feeCache := ∅ |}; now := 1000; fresh := 0; ext := tt |}.

Definition options (fixed : Z) : CreateOptions :=
  {| co_assetId := "usd"; co_type := Sending; co_fixed := fixed; co_basisPoints := 200 |}.

Definition s1 : FeeState := (createFee exists_usd 5000 (options 5) s0).2.
Definition s2 : FeeState := {| db := db s1; now := 2000; fresh := Service.fresh s1; ext := tt |}.
Definition s3 : FeeState := (createFee exists_usd 5000 (options 7) s2).2.

Lemma s3_reachable : rtc (fee_step exists_usd 5000) s0 s3.
Proof.
  apply (rtc_l _ _ s1); [apply step_create; set_solver|].
  apply (rtc_l _ _ s2); [apply step_tick; vm_compute; congruence|].
  apply (rtc_l _ _ s3); [apply step_create|constructor].
  intros f Hf. apply list_elem_of_singleton in Hf as ->. by vm_compute.
Qed.
End Example.

#[local] Existing Instance ConcreteUuid.uuid.

Lemma getLatestFee_coherent_witness :
  fixedFee <$> (match (getLatestFee 5000 "usd" Sending Example.s3).1 with
                | Ret f => f | Throw _ => None end) = Some 7.
Proof.
  rewrite (getLatestFee_coherent Example.exists_usd 5000 Example.concrete_hex Example.s0
             Example.s3 "usd" Sending); [by vm_compute|done|apply Example.s3_reachable].
Defined.

Lemma stored_fee_bounds_witness :
  exists f, f ∈ fees (db Example.s3) /\ calculate f 100 = Some 9 /\ 0 <= fixedFee f <= 9.
Proof.
  eexists. split; [apply elem_of_cons; right; apply list_elem_of_singleton; reflexivity|].
  split; [by vm_compute|].
  eapply (stored_fee_bounds Example.exists_usd 5000 Example.concrete_hex Example.s0 Example.s3);
    [split; reflexivity|apply Example.s3_reachable
    |apply elem_of_cons; right; apply list_elem_of_singleton; reflexivity
    |instantiate (1 := 100); lia|by vm_compute].
Defined.
