(* ===== verification/Rates.v ===== *)
(** * Rates: exchange rates and conversions

    Models [rates/util.ts] and [rates/service.ts].  Fetching is the HTTP client's
    ([axios.get]) and the tenant settings service's; powers of ten and JSON text
    are the platform's ([10 ** n] is implementation-approximated in ECMAScript).
    Two requests never run at once in the model, so [inProgressRequests] is
    empty between operations and is left out. *)

From S2P Require Import Prelude JsNumber OpenPayments Service Cache.

Local Open Scope Z_scope.
Local Open Scope ts_scope.

(** ** [rates/util.ts] *)

Record RateAsset := { code : string; scale : Z }.

Record ConvertResults := { cr_amount : Z; scaledExchangeRate : number }.

(** [10 ** n] *)
Class NumberPow := pow10 : Z -> number.

Section Util.
Context `{NumberPow}.

Definition scaleExchangeRate (exchangeRate : number) (sourceAsset destinationAsset : RateAsset)
  : number := num_mul exchangeRate (pow10 (scale destinationAsset - scale sourceAsset)).

(** [None] where [BigInt] throws. *)
Definition convertSource (exchangeRate : number) (sourceAmount : Z)
    (sourceAsset destinationAsset : RateAsset) : option ConvertResults :=
  let rate := scaleExchangeRate exchangeRate sourceAsset destinationAsset in
  (fun amount => {| cr_amount := amount; scaledExchangeRate := rate |})
    <$> bigint_floor (num_mul (of_bigint sourceAmount) rate).

Definition convertDestination (exchangeRate : number) (destinationAmount : Z)
    (sourceAsset destinationAsset : RateAsset) : option ConvertResults :=
  let rate := scaleExchangeRate exchangeRate sourceAsset destinationAsset in
  (fun amount => {| cr_amount := amount; scaledExchangeRate := rate |})
    <$> bigint_ceil (num_div (of_bigint destinationAmount) rate).
End Util.

(** ** [rates/service.ts] *)

Record Rates := { base : string; rates_of : gmap string number }.

(** [opts] of a conversion: the amount is of the source, or of the destination. *)
Inductive ConvertAmount := SourceAmount (z : Z) | DestinationAmount (z : Z).

Record RateConvertOpts := {
  rc_amount : ConvertAmount;
  sourceAsset : RateAsset;
  destinationAsset : RateAsset
}.

Inductive ConvertError := InvalidDestinationPrice.

(** [typeof r === 'number' && isFinite(r) && r > 0] *)
Definition isValidPrice (r : number) : bool := finite r && num_ltb (of_bigint 0) r.

(** What an HTTP response and a tenant setting may hold. *)
Record RatesResponse := { res_base : option string; res_rates : gmap string number }.

Record RatesConfig := {
  operatorTenantId : string;
  operatorExchangeRatesUrl : option string;
  exchangeRatesLifetime : Z
}.

Section RatesService.
Context {X : Type} `{NumberPow}.
Context (config : RatesConfig).
(** [axios.get(url, { params: { base } })] *)
Context (axios_get : string -> string -> M X RatesResponse).
(** [tenantSettingService.get({ tenantId, key: EXCHANGE_RATES_URL })]: the values. *)
Context (tenantSetting_get : string -> M X (list string)).
Context (JSON_stringify : Rates -> string) (JSON_parse : string -> option Rates).

Definition RatesState : Type := Svc (Cache string) X.

Definition rcache_get (key : string) : M RatesState (option string) :=
  let! now := date_now in
  let! cache := db_get (fun c => c) in
  let '(v, cache) := cache_get now key cache in
  db_set (fun _ => cache) ;;! ret v.

Definition rcache_set (key v : string) : M RatesState unit :=
  let! now := date_now in
  db_set (cache_set (exchangeRatesLifetime config) now key v).

Definition getExchangeRatesUrl (tenantId : string) : M RatesState (option string) :=
  let urlCacheKey := ("url:" +:+ tenantId)%string in
  let! cachedUrl := rcache_get urlCacheKey in
  if truthy cachedUrl then ret cachedUrl
  else
    try_catch
      (let! setting := lift (tenantSetting_get tenantId) in
       match head setting with
       | Some url =>
           if truthy url then rcache_set urlCacheKey url ;;! ret (Some url)
           else ret (operatorExchangeRatesUrl config)
       | None => ret (operatorExchangeRatesUrl config)
       end)
      (fun _ => ret None).

Definition checkBaseAsset (asset : option string) : option string :=
  if truthy asset then None else Some "Missing base asset"%string.

Definition fetchNewRates (baseAssetCode tenantId : string) : M RatesState Rates :=
  let! url := getExchangeRatesUrl tenantId in
  match url with
  | Some url =>
      if truthy url then
        let! res := lift (axios_get url baseAssetCode) in
        match checkBaseAsset (res_base res) with
        | Some errorMessage => throw_error errorMessage
        | None => ret {| base := default "" (res_base res); rates_of := res_rates res |}
        end
      else ret {| base := baseAssetCode; rates_of := ∅ |}
  | None => ret {| base := baseAssetCode; rates_of := ∅ |}
  end.

Definition ratesCacheKey (tenantId baseAssetCode : string) : string :=
  (tenantId +:+ ":" +:+ baseAssetCode)%string.

Definition fetchNewRatesAndCache (baseAssetCode tenantId : string) : M RatesState Rates :=
  try_catch
    (let! rates := fetchNewRates baseAssetCode tenantId in
     rcache_set (ratesCacheKey tenantId baseAssetCode) (JSON_stringify rates) ;;!
     ret rates)
    (fun _ => throw_error "Could not fetch rates").

Definition getRates (baseAssetCode tenantId : string) : M RatesState Rates :=
  let! cachedRate := rcache_get (ratesCacheKey tenantId baseAssetCode) in
  match cachedRate with
  | Some text =>
      if truthy text then
        match JSON_parse text with
        | Some rates => ret rates
        | None => throw (JsError "SyntaxError" "")
        end
      else fetchNewRatesAndCache baseAssetCode tenantId
  | None => fetchNewRatesAndCache baseAssetCode tenantId
  end.

Definition convertFn (opts : RateConvertOpts) (exchangeRate : number) : M RatesState ConvertResults :=
  let r := match rc_amount opts with
           | SourceAmount z => convertSource exchangeRate z (sourceAsset opts) (destinationAsset opts)
           | DestinationAmount z =>
               convertDestination exchangeRate z (sourceAsset opts) (destinationAsset opts)
           end in
  match r with Some r => ret r | None => throw (JsError "RangeError" "") end.

Definition opts_amount (opts : RateConvertOpts) : Z :=
  match rc_amount opts with SourceAmount z | DestinationAmount z => z end.

Definition convert (opts : RateConvertOpts) (tenantId : option string)
  : M RatesState (res ConvertError ConvertResults) :=
  let tenantId := default (operatorTenantId config) tenantId in
  let sameCode := bool_decide (code (sourceAsset opts) = code (destinationAsset opts)) in
  let sameScale := scale (sourceAsset opts) =? scale (destinationAsset opts) in
  if sameCode && sameScale then
    ret (Ok {| cr_amount := opts_amount opts; scaledExchangeRate := of_bigint 1 |})
  else if sameCode then
    let! r := convertFn opts (of_bigint 1) in ret (Ok r)
  else
    let! rates := getRates (code (sourceAsset opts)) tenantId in
    match rates_of rates !! code (destinationAsset opts) with
    | Some destinationExchangeRate =>
        if isValidPrice destinationExchangeRate then
          let! r := convertFn opts destinationExchangeRate in ret (Ok r)
        else ret (Err InvalidDestinationPrice)
    | None => ret (Err InvalidDestinationPrice)
    end.

Definition rates (baseAssetCode : string) (tenantId : option string) : M RatesState Rates :=
  getRates baseAssetCode (default (operatorTenantId config) tenantId).

(** ** Conversions *)

(** Powers of ten carry no sign. *)
Context (pow10_nonneg : forall n, nonneg (pow10 n) = true).

Lemma convertFn_nonneg opts rate :
  nonneg rate = true -> 0 <= opts_amount opts ->
  forall s, wp (convertFn opts rate)
    (fun r _ => match r with Ret r => 0 <= cr_amount r | Throw _ => True end) s.
Proof.
  unfold convertFn, convertSource, convertDestination, opts_amount, scaleExchangeRate.
  intros Hrate Hz s. destruct (rc_amount opts) as [z|z]; wp_auto; try done;
    apply fmap_Some in Heqo as (n & Hc & ->); simpl.
  - eapply bigint_floor_nonneg; [|done]. eauto using num_mul_nonneg, of_bigint_nonneg.
  - eapply bigint_ceil_nonneg; [|done].
    apply num_div_nonneg; [by apply of_bigint_nonneg|by apply num_mul_nonneg].
Qed.

Lemma convert_spec opts tenantId s :
  0 <= opts_amount opts ->
  wp (convert opts tenantId)
    (fun r s' => match r with
       | Ret (Ok r) =>
           0 <= cr_amount r /\
           (sourceAsset opts = destinationAsset opts ->
            cr_amount r = opts_amount opts /\ s' = s)
       | Ret (Err _) => code (sourceAsset opts) <> code (destinationAsset opts)
       | Throw _ => sourceAsset opts <> destinationAsset opts
       end) s.
Proof.
  intros Hz. unfold convert. destruct (sourceAsset opts) as [c1 z1] eqn:Es.
  destruct (destinationAsset opts) as [c2 z2] eqn:Ed. simpl.
  case_bool_decide as Hc; [destruct (Z.eqb_spec z1 z2) as [Hs|Hs]|]; simpl.
  - wp_auto. simpl. split; [done|]. intros _. done.
  - wp_step. eapply wp_mono; [by apply convertFn_nonneg|]. intros [r|e] s' Hr; wp_auto; [|congruence].
    split; [done|]. congruence.
  - wp_step. unfold wp at 1. destruct (getRates c1 _ s) as [[r|e] s'] eqn:E; simpl; [|congruence].
    wp_auto; [|done..]. eapply wp_mono; [apply convertFn_nonneg; [|done]|].
    { unfold isValidPrice in Heqb. zbool. by apply num_ltb_zero_nonneg. }
    intros [r'|e] s'' Hr; wp_auto; [|congruence]. split; [done|]. congruence.
Qed.

(** Conversions are total on one asset and never negative.  Converting a
    non-negative amount between the same asset returns the amount itself at no
    request and no change of state; any other successful conversion returns a
    non-negative amount; the price error is returned only across currencies, and an
    exception is thrown only across distinct assets. *)
Theorem convert_sound opts tenantId s r s' :
  0 <= opts_amount opts -> convert opts tenantId s = (r, s') ->
  match r with
  | Ret (Ok r) =>
      0 <= cr_amount r /\
      (sourceAsset opts = destinationAsset opts -> cr_amount r = opts_amount opts /\ s' = s)
  | Ret (Err _) => code (sourceAsset opts) <> code (destinationAsset opts)
  | Throw _ => sourceAsset opts <> destinationAsset opts
  end.
Proof. intros Hz Hm. exact (wp_run _ _ _ _ _ (convert_spec opts tenantId s Hz) Hm). Qed.

(** ** The cache of rates *)

(** The state later, after the other services moved on. *)
Definition later (t : Z) (x : X) (s : RatesState) : RatesState :=
  {| db := db s; now := t; fresh := Service.fresh s; ext := x |}.

Lemma rcache_get_hit key v s c :
  db s !! key = Some c -> data c = v -> (expiry c = 0 \/ now s < expiry c) ->
  rcache_get key s = (Ret (Some v), s).
Proof.
  intros Hk <- He. unfold rcache_get, bind, date_now, db_get, db_set, gets, modify, ret.
  unfold cache_get, getAndCheckExpiry. rewrite Hk.
  replace (truthy (expiry c) && (expiry c <=? now s)) with false.
  - simpl. by destruct s.
  - symmetry. unfold truthy, truthy_Z. apply andb_false_iff.
    destruct He as [He|He]; [left; by rewrite He|right; by apply Z.leb_gt].
Qed.

Lemma rcache_get_now key s :
  wp (rcache_get key) (fun _ s' => now s' = now s) s.
Proof. unfold rcache_get. by wp_auto. Qed.

Lemma getExchangeRatesUrl_now t s :
  wp (getExchangeRatesUrl t) (fun _ s' => now s' = now s) s.
Proof. unfold getExchangeRatesUrl, rcache_get, rcache_set. by wp_auto. Qed.

Lemma fetchNewRates_now b t s :
  wp (fetchNewRates b t) (fun _ s' => now s' = now s) s.
Proof.
  unfold fetchNewRates. wp_step. eapply wp_mono; [apply getExchangeRatesUrl_now|].
  intros [url|e] s1 H1; by wp_auto.
Qed.

Definition cached_rates (b t : string) (r : Rates) (s : RatesState) : Prop :=
  db s !! ratesCacheKey t b
  = Some {| expiry := now s + exchangeRatesLifetime config; data := JSON_stringify r |}.

Lemma fetchNewRatesAndCache_spec b t s :
  wp (fetchNewRatesAndCache b t)
    (fun r s' => match r with Ret r => now s' = now s /\ cached_rates b t r s' | Throw _ => True end) s.
Proof.
  unfold fetchNewRatesAndCache, rcache_set, cached_rates. wp_step. wp_step.
  eapply wp_mono; [apply fetchNewRates_now|]. intros [r|e] s1 H1; wp_auto; [|done].
  split; [done|]. unfold cache_set. by rewrite lookup_insert_eq.
Qed.

(** Fetched rates are served from the cache for their lifetime.  When
    [getRates] had to fetch (no live entry) and returned rates, the same request at
    any later time within [exchangeRatesLifetime] returns the same rates, whatever
    happened to the other services meanwhile, without a request and without a
    change of state.  The JSON text of the rates is assumed to parse back. *)
Theorem getRates_cached b t s r s' later_time x :
  JSON_parse (JSON_stringify r) = Some r ->
  JSON_stringify r <> ""%string ->
  fst (cache_get (now s) (ratesCacheKey t b) (db s)) = None ->
  getRates b t s = (Ret r, s') ->
  later_time < now s + exchangeRatesLifetime config ->
  getRates b t (later later_time x s') = (Ret r, later later_time x s').
Proof.
  intros Hjson Hnonempty Hmiss Hget Hlater.
  assert (now s' = now s /\ cached_rates b t r s') as [Hnow Hcached].
  { refine (wp_run _ (fun r s' => match r with
      Ret r => now s' = now s /\ cached_rates b t r s' | Throw _ => True end) s _ _ _ Hget).
    unfold getRates, rcache_get. do 5 wp_step.
    destruct (cache_get _ _ _) as [v c]. simpl in Hmiss. subst v. do 3 wp_step.
    eapply wp_mono; [apply fetchNewRatesAndCache_spec|]. by intros [r'|e] s1. }
  unfold getRates at 1, bind at 1.
  rewrite (rcache_get_hit _ (JSON_stringify r) (later later_time x s') _ Hcached); [|done|right; simpl; lia].
  unfold truthy, truthy_string. rewrite bool_decide_eq_false_2 by done. simpl.
  by rewrite Hjson.
Qed.
End RatesService.

(** ** Witnesses *)

Module Example.
#[export] Instance number_pow : NumberPow :=
  fun n => if 0 <=? n then of_bigint (10 ^ n) else num_div (of_bigint 1) (of_bigint (10 ^ (- n))).

Lemma pow10_nonneg n : nonneg (pow10 n) = true.
Proof.
  unfold pow10, number_pow. destruct (0 <=? n); [by apply of_bigint_nonneg, Z.pow_nonneg|].
  apply num_div_nonneg; [done|]. by apply of_bigint_nonneg, Z.pow_nonneg.
Qed.

Definition config : RatesConfig :=
  {| operatorTenantId := "op"; operatorExchangeRatesUrl := Some "http://rates"%string;
     exchangeRatesLifetime := 15000 |}.

(** One dollar is 0.5 pounds; the client counts the requests. *)
Definition axios_get (url base : string) : M nat RatesResponse :=
  fun n => (Ret {| res_base := Some base; res_rates := {[ "GBP"%string := num_div (of_bigint 1) (of_bigint 2) ]} |}, S n).
Definition tenantSetting_get (tenantId : string) : M nat (list string) := ret [].

(** A JSON of rates in the only currency the example has. *)
Definition stringify (r : Rates) : string := base r.
Definition parse (s : string) : option Rates :=
  Some {| base := s; rates_of := {[ "GBP"%string := num_div (of_bigint 1) (of_bigint 2) ]} |}.

Definition s0 : RatesState := {| db := ∅; now := 1000; fresh := 0; ext := 0%nat |}.

Definition opts : RateConvertOpts :=
  {| rc_amount := SourceAmount 1001;
     sourceAsset := {| code := "USD"; scale := 2 |};
     destinationAsset := {| code := "GBP"; scale := 3 |} |}.
End Example.

#[local] Existing Instance Example.number_pow.

Lemma convert_sound_witness :
  exists r s', convert Example.config Example.axios_get Example.tenantSetting_get
      Example.stringify Example.parse Example.opts None Example.s0 = (Ret (Ok r), s') /\
    cr_amount r = 5005 /\ ext s' = 1%nat /\ 0 <= cr_amount r.
Proof.
  destruct (convert Example.config Example.axios_get Example.tenantSetting_get
      Example.stringify Example.parse Example.opts None Example.s0) as [r s'] eqn:E.
  pose proof (convert_sound Example.config Example.axios_get Example.tenantSetting_get
      Example.stringify Example.parse Example.pow10_nonneg Example.opts None Example.s0 r s'
      ltac:(vm_compute; congruence) E) as Hr.
  vm_compute in E. injection E as <- <-. eexists _, _. split; [reflexivity|].
  split; [by vm_compute|]. split; [by vm_compute|]. exact (proj1 Hr).
Defined.

Definition dollar_rates : Rates :=
  {| base := "USD";
     rates_of := {[ "GBP"%string := num_div (of_bigint 1) (of_bigint 2) ]} |}.

Lemma getRates_cached_witness :
  exists s', getRates Example.config Example.axios_get Example.tenantSetting_get
      Example.stringify Example.parse "USD" "op" Example.s0 = (Ret dollar_rates, s') /\
    ext s' = 1%nat /\
    getRates Example.config Example.axios_get Example.tenantSetting_get
      Example.stringify Example.parse "USD" "op" (later 15999 7%nat s')
    = (Ret dollar_rates, later 15999 7%nat s').
Proof.
  eexists. split; [by vm_compute|]. split; [by vm_compute|].
  eapply (getRates_cached Example.config Example.axios_get Example.tenantSetting_get
      Example.stringify Example.parse "USD" "op" Example.s0);
    [reflexivity|discriminate|by vm_compute|by vm_compute|by vm_compute].
Defined.
