(* ===== verification/Tenants.v ===== *)
(** * Tenants: tenants and their settings

    Models [tenants/{model,service,errors}.ts] and [tenants/settings/{model,service,errors}.ts]
    of the backend.  The tables are [tenants] and [tenantSettings]; [tenantCache] is an
    in-memory store of [Cache], which no transaction restores.  A setting is written by
    [INSERT ... ON CONFLICT (tenantId, key) DO UPDATE] of all columns that are inserted, one
    statement for all rows.  The authorization server, which keeps tenants of its own, is
    the interface [AuthServiceClient]; [TenantMirror] puts the model of that server behind
    it.  Columns of text hold 255 characters. *)

From Stdlib Require Import Ascii.
From S2P Require Import Prelude Text Shared JsNumber NumberText Service Cache Pagination.

Local Open Scope Z_scope.
Local Open Scope ts_scope.

(** ** [tenants/errors.ts] and [tenants/settings/errors.ts] *)

Inductive TenantError := TenantNotFound | InvalidTenantId.

#[global] Instance TenantError_eq_dec : EqDecision TenantError.
Proof. solve_decision. Defined.

Definition TenantError_value (e : TenantError) : string :=
  match e with TenantNotFound => "TenantNotFound" | InvalidTenantId => "InvalidTenantId" end.

(** A [TenantError] that is thrown, and [isTenantError] of what is caught. *)
Definition throw_tenant {S A} (e : TenantError) : M S A :=
  throw (ThrownString (TenantError_value e)).
Definition isTenantError (err : exn) : option TenantError :=
  match err with
  | ThrownString s => find_where (fun e => bool_decide (TenantError_value e = s))
                        [TenantNotFound; InvalidTenantId]
  | _ => None
  end.

Inductive TenantSettingError :=
| SettingTenantNotFound | SettingUnknownError | InvalidSetting | DuplicateWalletAddressUrl.

#[global] Instance TenantSettingError_eq_dec : EqDecision TenantSettingError.
Proof. solve_decision. Defined.

(** ** The tables *)

Record KeyValuePair := { key : string; kv_value : string }.

#[global] Instance KeyValuePair_eq_dec : EqDecision KeyValuePair.
Proof. solve_decision. Defined.

Record TenantSetting := {
  ts_id : string;
  ts_key : string;
  ts_value : string;
  ts_tenantId : string;
  ts_createdAt : Z;
  ts_deletedAt : option Z
}.

#[global] Instance TenantSetting_model : BaseModel TenantSetting :=
  { id := ts_id; createdAt := ts_createdAt }.

Record Tenant := {
  te_id : string;
  te_email : option string;
  te_apiSecret : string;
  te_idpConsentUrl : option string;
  te_idpSecret : option string;
  te_publicName : option string;
  te_createdAt : Z;
  te_deletedAt : option Z
}.

#[global] Instance Tenant_eq_dec : EqDecision Tenant.
Proof. solve_decision. Defined.

#[global] Instance Tenant_model : BaseModel Tenant := { id := te_id; createdAt := te_createdAt }.

Record TenantDb := {
  tenants : list Tenant;
  tenantSettings : list TenantSetting;
  tenantCache : Cache Tenant
}.

Definition set_tenants (f : list Tenant -> list Tenant) (d : TenantDb) : TenantDb :=
  {| tenants := f (tenants d); tenantSettings := tenantSettings d; tenantCache := tenantCache d |}.
Definition set_settings (f : list TenantSetting -> list TenantSetting) (d : TenantDb) : TenantDb :=
  {| tenants := tenants d; tenantSettings := f (tenantSettings d); tenantCache := tenantCache d |}.
Definition set_tenantCache (f : Cache Tenant -> Cache Tenant) (d : TenantDb) : TenantDb :=
  {| tenants := tenants d; tenantSettings := tenantSettings d; tenantCache := f (tenantCache d) |}.

(** A [varchar(255)]. *)
Definition fits_varchar (s : string) : bool := Nat.leb (String.length s) 255.
Definition value_too_long : exn := JsError "DataError" "value too long for type character varying(255)".

(** ** [settings/model.ts] *)

(** The names, with the defaults that are given. *)
Definition TenantSettingKeys : list (string * option Z) :=
  [("EXCHANGE_RATES_URL", None); ("WEBHOOK_URL", None); ("WEBHOOK_TIMEOUT", Some 2000);
   ("WEBHOOK_MAX_RETRY", Some 10); ("WALLET_ADDRESS_URL", None); ("ILP_ADDRESS", None)]%string.

Definition WALLET_ADDRESS_URL : string := "WALLET_ADDRESS_URL".
Definition ILP_ADDRESS : string := "ILP_ADDRESS".

Fixpoint default_settings (keys : list (string * option Z)) : list KeyValuePair :=
  match keys with
  | [] => []
  | (name, d) :: keys =>
      match d with
      | Some d => if truthy d then {| key := name; kv_value := bigint_toString d |} :: default_settings keys
                  else default_settings keys
      | None => default_settings keys
      end
  end.

Definition is_setting_key (k : string) : bool :=
  existsb (fun '(name, _) => bool_decide (name = k)) TenantSettingKeys.

Definition validateNonNegativeTenantSetting (numberString : string) : bool :=
  JsNumber.finite (Number numberString) && num_ltb (of_bigint (-1)) (Number numberString).

Definition validatePositiveTenantSetting (numberString : string) : bool :=
  JsNumber.finite (Number numberString) && num_ltb (of_bigint 0) (Number numberString).

(** The third-party functions of the validators. *)
Class SettingValidators := {
  (* whether [new URL(s)] returns *)
  is_url : string -> bool;
  (* of the package ilp-packet *)
  isValidIlpAddress : string -> bool
}.

(** [TENANT_SETTING_VALIDATORS[key]]: every known key has one. *)
Definition TENANT_SETTING_VALIDATORS `{SettingValidators} (k : string) : option (string -> bool) :=
  if bool_decide (k = "EXCHANGE_RATES_URL"%string) then Some is_url
  else if bool_decide (k = "WEBHOOK_MAX_RETRY"%string) then Some validateNonNegativeTenantSetting
  else if bool_decide (k = "WEBHOOK_TIMEOUT"%string) then Some validatePositiveTenantSetting
  else if bool_decide (k = "WEBHOOK_URL"%string) then Some is_url
  else if bool_decide (k = WALLET_ADDRESS_URL) then Some is_url
  else if bool_decide (k = ILP_ADDRESS) then Some isValidIlpAddress
  else None.

Definition invalid_setting `{SettingValidators} (k v : string) : bool :=
  match TENANT_SETTING_VALIDATORS k with Some valid => negb (valid v) | None => false end.

(** [value ILIKE pattern]: [%] is any text, [_] any character, [\] quotes the next. *)
Definition lower (c : Ascii.ascii) : Ascii.ascii :=
  let n := Ascii.nat_of_ascii c in
  if Nat.leb 65 n && Nat.leb n 90 then Ascii.ascii_of_nat (n + 32) else c.

Fixpoint ilike (p s : string) : bool :=
  match p with
  | EmptyString => bool_decide (s = ""%string)
  | String "%" p =>
      (fix any s := ilike p s || match s with String _ s => any s | EmptyString => false end) s
  | String "_" p => match s with String _ s => ilike p s | EmptyString => false end
  | String "\" (String c p) =>
      match s with String d s => bool_decide (lower c = lower d) && ilike p s | EmptyString => false end
  | String c p =>
      match s with String d s => bool_decide (lower c = lower d) && ilike p s | EmptyString => false end
  end%char.

(** ** What the services call *)

Record AuthTenant := {
  at_id : string;
  at_apiSecret : string;
  at_idpConsentUrl : option string;
  at_idpSecret : option string
}.

Record AuthTenantUpdate := {
  au_apiSecret : option string;
  au_idpConsentUrl : option string;
  au_idpSecret : option string
}.

Class AuthServiceClient (X : Type) := {
  tenant_create : AuthTenant -> M X unit;
  tenant_update : string -> AuthTenantUpdate -> M X unit;
  tenant_delete : string -> Z -> M X unit
}.

Record TenantConfig := {
  ilpAddress : string;
  adminApiSecret : string;
  operatorTenantId : string;
  localCacheDuration : Z
}.

Record CreateTenantOptions := {
  ct_id : option string;
  ct_email : option string;
  ct_apiSecret : string;
  ct_idpSecret : option string;
  ct_idpConsentUrl : option string;
  ct_publicName : option string;
  ct_settings : option (list KeyValuePair)
}.

(** What is not given is not changed. *)
Record UpdateTenantOptions := {
  ut_id : string;
  ut_email : option string;
  ut_publicName : option string;
  ut_apiSecret : option string;
  ut_idpConsentUrl : option string;
  ut_idpSecret : option string
}.

Section TenantServices.
Context {X : Type} `{Uuid} `{SettingValidators} `{!AuthServiceClient X}.
Context (config : TenantConfig).

Definition TenantState : Type := Svc TenantDb X.

(** *** [settings/service.ts] *)

Definition active_setting (tenantId : string) (k : option string) (t : TenantSetting) : bool :=
  negb (is_some (ts_deletedAt t)) && bool_decide (ts_tenantId t = tenantId)
  && match k with Some k => bool_decide (ts_key t = k) | None => true end.

Definition getTenantSettings (tenantId : string) (k : option string)
  : M TenantState (list TenantSetting) :=
  db_get (fun d => List.filter (active_setting tenantId k) (tenantSettings d)).

(** An empty key is no key; every row that is found is patched. *)
Definition deleteTenantSetting (tenantId : string) (k : option string) (deletedAt : option Z)
  : M TenantState unit :=
  let k := if truthy k then k else None in
  let! now := date_now in
  db_set (set_settings (update_where (active_setting tenantId k) (fun t =>
    {| ts_id := ts_id t; ts_key := ts_key t; ts_value := ts_value t; ts_tenantId := ts_tenantId t;
       ts_createdAt := ts_createdAt t; ts_deletedAt := Some (default now deletedAt) |}))).

(** [findOne({ key: WALLET_ADDRESS_URL, value })], of any tenant. *)
Definition existing_url (v : string) : M TenantState (option TenantSetting) :=
  db_get (fun d => find_where (fun t =>
    bool_decide (ts_key t = WALLET_ADDRESS_URL) && bool_decide (ts_value t = v)) (tenantSettings d)).

Definition duplicate_url (k v : string) : M TenantState bool :=
  if bool_decide (k = WALLET_ADDRESS_URL) then
    let! existingSetting := existing_url v in ret (is_some existingSetting)
  else ret false.

Definition set_value (v : string) (t : TenantSetting) : TenantSetting :=
  {| ts_id := ts_id t; ts_key := ts_key t; ts_value := v; ts_tenantId := ts_tenantId t;
     ts_createdAt := ts_createdAt t; ts_deletedAt := ts_deletedAt t |}.

Definition updateTenantSetting (tenantId k v : string)
  : M TenantState (res TenantSettingError (list TenantSetting)) :=
  if invalid_setting k v then ret (Err InvalidSetting)
  else
  let! duplicate := duplicate_url k v in
  if duplicate : bool then ret (Err DuplicateWalletAddressUrl)
  else
  let! found := getTenantSettings tenantId (Some k) in
  match found with
  | [] => throw (JsError "NotFoundError" "")
  | _ =>
      if negb (fits_varchar v) then throw value_too_long
      else
      db_set (set_settings (update_where (active_setting tenantId (Some k)) (set_value v))) ;;!
      ret (Ok (set_value v <$> found))
  end.

(** The first setting that is refused. *)
Fixpoint check_settings (settings : list KeyValuePair) : M TenantState (option TenantSettingError) :=
  match settings with
  | [] => ret None
  | s :: settings =>
      if invalid_setting (key s) (kv_value s) then ret (Some InvalidSetting)
      else
      let! duplicate := duplicate_url (key s) (kv_value s) in
      if duplicate : bool then ret (Some DuplicateWalletAddressUrl)
      else check_settings settings
  end.

Definition of_tenant_key (tenantId k : string) (t : TenantSetting) : bool :=
  bool_decide (ts_tenantId t = tenantId) && bool_decide (ts_key t = k).

(** The statement: no row twice, and the columns that are not inserted stay. *)
Fixpoint upsert_settings (tenantId : string) (done : list string) (settings : list KeyValuePair)
  : M TenantState (list TenantSetting) :=
  match settings with
  | [] => ret []
  | s :: settings =>
      let! sid := uuid in
      let! now := date_now in
      let! d := db_get (fun d => d) in
      if negb (fits_varchar (kv_value s)) then throw value_too_long
      else if negb (existsb (fun t => bool_decide (te_id t = tenantId)) (tenants d))
      then throw (ForeignKeyViolationError "tenantsettings_tenantid_foreign")
      else if existsb (fun k => bool_decide (k = key s)) done
      then throw (JsError "DBError" "ON CONFLICT DO UPDATE command cannot affect row a second time")
      else
      let! row :=
        match find_where (of_tenant_key tenantId (key s)) (tenantSettings d) with
        | Some old =>
            let row := {| ts_id := sid; ts_key := key s; ts_value := kv_value s;
                          ts_tenantId := tenantId; ts_createdAt := ts_createdAt old;
                          ts_deletedAt := ts_deletedAt old |} in
            db_set (set_settings (update_where (of_tenant_key tenantId (key s)) (fun _ => row))) ;;!
            ret row
        | None =>
            let row := {| ts_id := sid; ts_key := key s; ts_value := kv_value s;
                          ts_tenantId := tenantId; ts_createdAt := now; ts_deletedAt := None |} in
            db_set (set_settings (fun l => l ++ [row])) ;;! ret row
        end in
      let! rows := upsert_settings tenantId (key s :: done) settings in
      ret (row :: rows)
  end.

Definition createTenantSetting (tenantId : string) (setting : list KeyValuePair)
  : M TenantState (res TenantSettingError (list TenantSetting)) :=
  let! refused := check_settings setting in
  match refused with
  | Some e => ret (Err e)
  | None =>
      match List.filter (fun s => is_setting_key (key s)) setting with
      | [] => ret (Ok [])
      | dataToUpsert =>
          let! rows := transaction (upsert_settings tenantId [] dataToUpsert) in ret (Ok rows)
      end
  end.

Definition getTenantSettingPageForTenant (tenantId : string) (pagination : option Pagination)
    (sortOrder : SortOrder) : M TenantState (list TenantSetting) :=
  let! table := db_get tenantSettings in
  match getPage table (active_setting tenantId None) pagination sortOrder with
  | Ret page => ret page
  | Throw e => throw e
  end.

(** Deleted settings are found, too. *)
Definition getWalletAddressSettingsByPrefix (prefix : string) : M TenantState (list TenantSetting) :=
  db_get (fun d => List.filter (fun t =>
    ilike (prefix +:+ "%")%string (ts_value t) && bool_decide (ts_key t = WALLET_ADDRESS_URL))
    (tenantSettings d)).

(** *** [tenants/service.ts] *)

Definition tenantCache_get (k : string) : M TenantState (option Tenant) :=
  let! now := date_now in
  let! cache := db_get tenantCache in
  let '(tenant, cache) := cache_get now k cache in
  db_set (set_tenantCache (fun _ => cache)) ;;! ret tenant.

Definition tenantCache_set (k : string) (tenant : Tenant) : M TenantState unit :=
  let! now := date_now in
  db_set (set_tenantCache (cache_set (localCacheDuration config) now k tenant)).

Definition tenantCache_delete (k : string) : M TenantState unit :=
  db_set (set_tenantCache (deleteKey k)).

Definition has_id (i : string) (t : Tenant) : bool := bool_decide (te_id t = i).
Definition is_active (t : Tenant) : bool := negb (is_some (te_deletedAt t)).

Definition getTenant (i : string) (includeDeleted : bool) : M TenantState (option Tenant) :=
  let! inMem := tenantCache_get i in
  match inMem with
  | Some inMem =>
      if negb includeDeleted && is_some (te_deletedAt inMem) then ret None else ret (Some inMem)
  | None =>
      let! tenant := db_get (fun d =>
        find_where (fun t => (includeDeleted || is_active t) && has_id i t) (tenants d)) in
      match tenant with
      | Some tenant => tenantCache_set (te_id tenant) tenant ;;! ret (Some tenant)
      | None => ret None
      end
  end.

Definition getTenantPage (pagination : option Pagination) (sortOrder : SortOrder)
  : M TenantState (list Tenant) :=
  let! table := db_get tenants in
  match getPage table (fun _ => true) pagination sortOrder with
  | Ret page => ret page
  | Throw e => throw e
  end.

Definition fits (o : option string) : bool :=
  match o with Some s => fits_varchar s | None => true end.

(** [insertAndFetch]: an empty identifier is replaced by a new one. *)
Definition insert_tenant (options : CreateTenantOptions) : M TenantState Tenant :=
  let! tid := match ct_id options with
              | Some i => if truthy i then ret i else uuid
              | None => uuid
              end in
  let! now := date_now in
  let! rows := db_get tenants in
  let tenant := {| te_id := tid; te_email := ct_email options; te_apiSecret := ct_apiSecret options;
                   te_idpConsentUrl := ct_idpConsentUrl options; te_idpSecret := ct_idpSecret options;
                   te_publicName := ct_publicName options; te_createdAt := now;
                   te_deletedAt := None |} in
  if negb (fits (ct_email options) && fits_varchar (ct_apiSecret options)
           && fits (ct_idpConsentUrl options) && fits (ct_idpSecret options)
           && fits (ct_publicName options)) then throw value_too_long
  else if existsb (has_id tid) rows then throw (UniqueViolationError "tenants_pkey")
  else db_set (set_tenants (fun l => l ++ [tenant])) ;;! ret tenant.

(** The settings a new tenant gets. *)
Definition initial_settings (tid : string) (settings : option (list KeyValuePair)) : list KeyValuePair :=
  let initial := default_settings TenantSettingKeys
    ++ [{| key := ILP_ADDRESS; kv_value := ilpAddress config +:+ "." +:+ tid |}%string] in
  match settings with
  | None => initial
  | Some settings =>
      match find_where (fun s => bool_decide (key s = ILP_ADDRESS)) settings with
      | None => initial ++ settings
      | Some _ => settings
      end
  end.

(** The transaction; what the settings service answers is not looked at. *)
Definition insertTenant (options : CreateTenantOptions) : M TenantState Tenant :=
  match ct_id options with
  | Some i => if truthy i && negb (validate i) then throw_tenant InvalidTenantId else ret tt
  | None => ret tt
  end ;;!
  let! tenant := insert_tenant options in
  lift (tenant_create {| at_id := te_id tenant; at_apiSecret := ct_apiSecret options;
                         at_idpConsentUrl := ct_idpConsentUrl options;
                         at_idpSecret := ct_idpSecret options |}) ;;!
  createTenantSetting (te_id tenant) (initial_settings (te_id tenant) (ct_settings options)) ;;!
  ret tenant.

Definition createTenant (options : CreateTenantOptions) : M TenantState (res TenantError Tenant) :=
  try_catch
    (let! tenant := transaction (insertTenant options) in
     tenantCache_set (te_id tenant) tenant ;;!
     ret (Ok tenant))
    (fun err => match isTenantError err with Some e => ret (Err e) | None => throw err end).

Definition patched_tenant (options : UpdateTenantOptions) (t : Tenant) : Tenant :=
  {| te_id := te_id t;
     te_email := match ut_email options with Some e => Some e | None => te_email t end;
     te_apiSecret := default (te_apiSecret t) (ut_apiSecret options);
     te_idpConsentUrl := match ut_idpConsentUrl options with Some u => Some u | None => te_idpConsentUrl t end;
     te_idpSecret := match ut_idpSecret options with Some s => Some s | None => te_idpSecret t end;
     te_publicName := match ut_publicName options with Some n => Some n | None => te_publicName t end;
     te_createdAt := te_createdAt t; te_deletedAt := te_deletedAt t |}.

Definition patchTenant (options : UpdateTenantOptions) : M TenantState Tenant :=
  let! found := db_get (fun d =>
    find_where (fun t => is_active t && has_id (ut_id options) t) (tenants d)) in
  match found with
  | None => throw (JsError "NotFoundError" "")
  | Some t =>
      let tenant := patched_tenant options t in
      if negb (fits (ut_email options) && fits (ut_apiSecret options) && fits (ut_idpConsentUrl options)
               && fits (ut_idpSecret options) && fits (ut_publicName options)) then throw value_too_long
      else
      db_set (set_tenants (update_where (has_id (ut_id options)) (patched_tenant options))) ;;!
      (if truthy (ut_idpConsentUrl options) || truthy (ut_idpSecret options)
          || truthy (ut_apiSecret options)
       then lift (tenant_update (ut_id options)
                    {| au_apiSecret := ut_apiSecret options;
                       au_idpConsentUrl := ut_idpConsentUrl options;
                       au_idpSecret := ut_idpSecret options |})
       else ret tt) ;;!
      ret tenant
  end.

Definition updateTenant (options : UpdateTenantOptions) : M TenantState Tenant :=
  let! tenant := transaction (patchTenant options) in
  tenantCache_set (te_id tenant) tenant ;;!
  ret tenant.

Definition set_deletedAt (deletedAt : Z) (t : Tenant) : Tenant :=
  {| te_id := te_id t; te_email := te_email t; te_apiSecret := te_apiSecret t;
     te_idpConsentUrl := te_idpConsentUrl t; te_idpSecret := te_idpSecret t;
     te_publicName := te_publicName t; te_createdAt := te_createdAt t;
     te_deletedAt := Some deletedAt |}.

Definition deleteTenant (i : string) : M TenantState unit :=
  tenantCache_delete i ;;!
  transaction
    (let! deletedAt := date_now in
     deleteTenantSetting i None (Some deletedAt) ;;!
     db_set (set_tenants (update_where (has_id i) (set_deletedAt deletedAt))) ;;!
     lift (tenant_delete i deletedAt)).

Definition set_apiSecret (secret : string) (t : Tenant) : Tenant :=
  {| te_id := te_id t; te_email := te_email t; te_apiSecret := secret;
     te_idpConsentUrl := te_idpConsentUrl t; te_idpSecret := te_idpSecret t;
     te_publicName := te_publicName t; te_createdAt := te_createdAt t;
     te_deletedAt := te_deletedAt t |}.

Definition updateOperatorApiSecretFromConfig : M TenantState (option TenantError) :=
  let i := operatorTenantId config in
  let! found := db_get (fun d => find_where (fun t => is_active t && has_id i t) (tenants d)) in
  match found with
  | None => ret (Some TenantNotFound)
  | Some tenant =>
      if negb (bool_decide (te_apiSecret tenant = adminApiSecret config)) then
        if negb (fits_varchar (adminApiSecret config)) then throw value_too_long else
        db_set (set_tenants (update_where (has_id (te_id tenant)) (set_apiSecret (adminApiSecret config)))) ;;!
        tenantCache_set i (set_apiSecret (adminApiSecret config) tenant) ;;!
        ret None
      else ret None
  end.
End TenantServices.
