(* ===== verification/TenantSpecs.v ===== *)
(** * TenantSpecs: what the operations on tenants and settings do

    The effect of every operation of [Tenants] on the two tables and the cache, on every
    path; the histories of the service; what holds of the settings and of the cache in all
    of them.  [R] is what the other services do between operations, [allowed] the updates a
    history may hold. *)

From S2P Require Import Prelude Shared Service Cache Tenants.

Local Open Scope Z_scope.
Local Open Scope ts_scope.

Lemma update_where_key_on {A K} (f : A -> K) (p : A -> bool) g l :
  (forall x, p x = true -> f (g x) = f x) -> f <$> update_where p g l = f <$> l.
Proof.
  intros H. induction l as [|x l IH]; [done|].
  rewrite update_where_cons, !fmap_cons, IH. destruct (p x) eqn:E; by rewrite ?H.
Qed.

Section Specs.
Context {X : Type} `{Uuid} `{SettingValidators} `{!AuthServiceClient X}.
Context (config : TenantConfig).
Implicit Types s : TenantState (X := X).

(** ** Settings *)

Definition tenant_key (t : TenantSetting) : string * string := (ts_tenantId t, ts_key t).

(** Known keys, valid values, one row for a tenant and a key, one tenant for a URL. *)
Record settings_wf (l : list TenantSetting) : Prop := {
  wf_valid : forall t, t ∈ l ->
    is_setting_key (ts_key t) = true /\ invalid_setting (ts_key t) (ts_value t) = false;
  wf_one : NoDup (tenant_key <$> l);
  wf_url : forall t u, t ∈ l -> u ∈ l ->
    ts_key t = WALLET_ADDRESS_URL -> ts_key u = WALLET_ADDRESS_URL ->
    ts_value t = ts_value u -> ts_tenantId t = ts_tenantId u
}.

Lemma settings_wf_nil : settings_wf [].
Proof. split; [set_solver|constructor|set_solver]. Qed.

Definition no_url (v : string) (l : list TenantSetting) : Prop :=
  forall t, t ∈ l -> ts_key t = WALLET_ADDRESS_URL -> ts_value t <> v.

(** A row with a new value in its place. *)
Lemma settings_wf_update l p (f : TenantSetting -> TenantSetting) tid k v :
  settings_wf l ->
  (forall t, p t = true -> ts_tenantId t = tid /\ ts_key t = k) ->
  (forall t, p t = true -> tenant_key (f t) = tenant_key t /\ ts_value (f t) = v) ->
  is_setting_key k = true -> invalid_setting k v = false ->
  (k = WALLET_ADDRESS_URL -> no_url v l) ->
  settings_wf (update_where p f l).
Proof.
  intros [Hvalid Hone Hurl] Hp Hf Hk Hv Hno. split.
  - intros t (u & Hu & ->)%update_where_elem. destruct (p u) eqn:E; [|by apply Hvalid].
    destruct (Hp u E) as [_ Ek], (Hf u E) as [[= _ Efk] ->]. by rewrite Efk, Ek.
  - rewrite update_where_key_on; [done|]. intros t Ht. by apply Hf.
  - intros t u (t0 & Ht & ->)%update_where_elem (u0 & Hu & ->)%update_where_elem.
    destruct (p t0) eqn:Et, (p u0) eqn:Eu.
    + destruct (Hp t0 Et) as [Et' _], (Hp u0 Eu) as [Eu' _], (Hf t0 Et) as [[= -> _] _],
        (Hf u0 Eu) as [[= -> _] _]. congruence.
    + destruct (Hp t0 Et) as [_ Ek], (Hf t0 Et) as [[= -> ->] ->]. intros Ek' Eku Ev.
      rewrite Ek in Ek'. by destruct (Hno Ek' u0 Hu Eku).
    + destruct (Hp u0 Eu) as [_ Ek], (Hf u0 Eu) as [[= -> ->] ->]. intros Ekt Ek' Ev.
      rewrite Ek in Ek'. by destruct (Hno Ek' t0 Ht Ekt).
    + by apply Hurl.
Qed.

(** A new row. *)
Lemma settings_wf_insert l t :
  settings_wf l -> is_setting_key (ts_key t) = true ->
  invalid_setting (ts_key t) (ts_value t) = false ->
  tenant_key t ∉ tenant_key <$> l ->
  (ts_key t = WALLET_ADDRESS_URL -> no_url (ts_value t) l) ->
  settings_wf (l ++ [t]).
Proof.
  intros [Hvalid Hone Hurl] Hk Hv Hnew Hno. split.
  - intros u [Hu| ->%list_elem_of_singleton]%elem_of_app; [by apply Hvalid|done].
  - rewrite fmap_app. apply NoDup_app. split_and!; [done| |apply NoDup_singleton].
    intros x Hx ->%list_elem_of_singleton. done.
  - intros u w [Hu| ->%list_elem_of_singleton]%elem_of_app
      [Hw| ->%list_elem_of_singleton]%elem_of_app Eu Ew Ev; [by apply Hurl|..|done].
    + by destruct (Hno Ew u Hu Eu).
    + by destruct (Hno Eu w Hw Ew).
Qed.

(** Everything but the settings is as it was. *)
Definition only_settings s s' : Prop :=
  tenants (db s') = tenants (db s) /\ tenantCache (db s') = tenantCache (db s) /\
  now s' = now s /\ ext s' = ext s.

Lemma only_settings_refl s : only_settings s s.
Proof. done. Qed.

Lemma only_settings_trans s1 s2 s3 :
  only_settings s1 s2 -> only_settings s2 s3 -> only_settings s1 s3.
Proof. unfold only_settings. naive_solver congruence. Qed.

Lemma duplicate_url_spec k v s (Q : outcome bool -> TenantState -> Prop) :
  (forall d : bool, (d = false -> k = WALLET_ADDRESS_URL -> no_url v (tenantSettings (db s))) ->
     Q (Ret d) s) ->
  wp (duplicate_url k v) Q s.
Proof.
  intros HQ. unfold duplicate_url, existing_url. case_bool_decide as E; wp_auto.
  - apply HQ. intros Hd _ t Ht Ek Ev.
    destruct (find_where _ _) eqn:F; [done|]. eapply find_where_None in F; [|exact Ht].
    rewrite !bool_decide_eq_true_2 in F by done. done.
  - by apply HQ.
Qed.

(** The settings that are not refused are valid, and their URLs are new. *)
Lemma check_settings_spec l s (Q : _ -> TenantState -> Prop) :
  (forall e, Q (Ret (Some e)) s) ->
  ((forall x, x ∈ l -> invalid_setting (key x) (kv_value x) = false /\
      (key x = WALLET_ADDRESS_URL -> no_url (kv_value x) (tenantSettings (db s)))) ->
   Q (Ret None) s) ->
  wp (check_settings l) Q s.
Proof.
  intros He HQ. induction l as [|x l IH]; cbn [check_settings]; [apply wp_ret, HQ; set_solver|].
  destruct (invalid_setting _ _) eqn:Ev; [by apply wp_ret|]. apply wp_bind.
  apply duplicate_url_spec. intros [] Hd; [by apply wp_ret|]. apply IH.
  intros Hl. apply HQ. intros y [->|Hy]%elem_of_cons; [auto|by apply Hl].
Qed.

Lemma of_tenant_key_true tid k t :
  of_tenant_key tid k t = true <-> ts_tenantId t = tid /\ ts_key t = k.
Proof. unfold of_tenant_key. by rewrite andb_true_iff, !bool_decide_eq_true. Qed.

(** One statement of writing settings, the rows [done] before it. *)
Lemma upsert_settings_spec tid done_ l s :
  settings_wf (tenantSettings (db s)) ->
  (forall x, x ∈ l -> is_setting_key (key x) = true /\ invalid_setting (key x) (kv_value x) = false) ->
  (WALLET_ADDRESS_URL ∉ done_ -> forall x, x ∈ l -> key x = WALLET_ADDRESS_URL ->
     no_url (kv_value x) (tenantSettings (db s))) ->
  wp (upsert_settings tid done_ l)
    (fun r s' => only_settings s s' /\
       match r with Ret _ => settings_wf (tenantSettings (db s')) | Throw _ => True end) s.
Proof.
  revert done_ s. induction l as [|x l IH]; intros done_ s Hwf Hl Hurl; cbn [upsert_settings].
  { by apply wp_ret. }
  destruct (Hl x ltac:(set_solver)) as [Hk Hv].
  assert (forall k, WALLET_ADDRESS_URL ∉ k :: done_ -> WALLET_ADDRESS_URL ∉ done_) as Hmono
    by set_solver.
  do 6 wp_step.
  destruct (negb (fits_varchar _)); [by wp_auto|].
  destruct (negb (existsb _ _)); [by wp_auto|]. destruct (existsb _ done_) eqn:Hdone; [by wp_auto|].
  assert (key x ∉ done_) as Hnew.
  { intros Hin. apply not_true_iff_false in Hdone. apply Hdone, existsb_exists.
    exists (key x). split; [by apply list_elem_of_In|]. by apply bool_decide_eq_true. }
  assert (key x = WALLET_ADDRESS_URL -> no_url (kv_value x) (tenantSettings (db s))) as Hx.
  { intros E. apply Hurl; [by rewrite <- E|set_solver|done]. }
  wp_step. destruct (find_where _ _) as [old|] eqn:F; wp_auto.
  - eapply wp_mono.
    + apply (IH (key x :: done_)); cbn [db tenantSettings set_settings set_db].
      * eapply (settings_wf_update _ _ _ tid (key x) (kv_value x)); [done| | |done..].
        -- intros t. by rewrite of_tenant_key_true.
        -- intros t [<- <-]%of_tenant_key_true. done.
      * intros y Hy. apply Hl. set_solver.
      * intros Hd y Hy Ey t (u & Hu & ->)%update_where_elem.
        destruct (of_tenant_key _ _ u) eqn:E; cbn [ts_key]; [set_solver|].
        refine (Hurl (Hmono _ Hd) y _ Ey _ _); [set_solver|done].
    + intros [rows|e] s' [Hs' Hwf']; [wp_auto|]; (split; [by eapply only_settings_trans; [|exact Hs']|done]).
  - eapply wp_mono.
    + apply (IH (key x :: done_)); cbn [db tenantSettings set_settings set_db].
      * apply settings_wf_insert; [done..| |done]. intros (t & Et & Ht)%list_elem_of_fmap.
        injection Et as Etid Ek. eapply find_where_None in F; [|exact Ht].
        by rewrite (proj2 (of_tenant_key_true _ _ _)) in F.
      * intros y Hy. apply Hl. set_solver.
      * intros Hd y Hy Ey t [Ht| ->%list_elem_of_singleton]%elem_of_app; [|cbn; set_solver].
        refine (Hurl (Hmono _ Hd) y _ Ey _ _); [set_solver|done].
    + intros [rows|e] s' [Hs' Hwf']; [wp_auto|]; (split; [by eapply only_settings_trans; [|exact Hs']|done]).
Qed.

Lemma createTenantSetting_spec tid l s :
  settings_wf (tenantSettings (db s)) ->
  wp (createTenantSetting tid l)
    (fun _ s' => only_settings s s' /\ settings_wf (tenantSettings (db s'))) s.
Proof.
  intros Hwf. unfold createTenantSetting. apply wp_bind. apply check_settings_spec.
  { intros e. by apply wp_ret. }
  intros Hl. cbv beta iota. destruct (List.filter _ l) as [|x data] eqn:F; [by apply wp_ret|].
  assert (forall y, y ∈ x :: data -> y ∈ l /\ is_setting_key (key y) = true) as Hdata.
  { intros y. rewrite <- F, elem_of_filter_bool. tauto. }
  apply wp_bind, wp_transaction. eapply wp_mono.
  - apply upsert_settings_spec; [done| |].
    + intros y [Hy Hk]%Hdata. split; [done|]. by apply Hl.
    + intros _ y [Hy _]%Hdata. by apply Hl.
  - intros [rows|e] s' [(H1 & H2 & H3 & H4) Hwf']; cbv beta iota.
    + by wp_auto.
    + by svc_simpl.
Qed.

Lemma active_setting_true tid k t :
  active_setting tid (Some k) t = true -> ts_tenantId t = tid /\ ts_key t = k.
Proof. unfold active_setting. intros E. zbool. done. Qed.

Lemma updateTenantSetting_spec tid k v s :
  settings_wf (tenantSettings (db s)) ->
  wp (updateTenantSetting tid k v)
    (fun _ s' => only_settings s s' /\ settings_wf (tenantSettings (db s'))) s.
Proof.
  intros Hwf. unfold updateTenantSetting, getTenantSettings.
  destruct (invalid_setting _ _) eqn:Ev; [by wp_auto|]. apply wp_bind, duplicate_url_spec.
  intros [] Hd; [by wp_auto|]. wp_step. wp_step.
  destruct (List.filter _ _) as [|t found] eqn:F; [by wp_auto|].
  wp_step; [by wp_auto|]. wp_auto. split; [done|]. simpl.
  assert (t ∈ tenantSettings (db s) /\ active_setting tid (Some k) t = true) as [Ht Ha].
  { assert (t ∈ t :: found) as Hin by set_solver. rewrite <- F in Hin.
    by apply elem_of_filter_bool in Hin as [??]. }
  apply active_setting_true in Ha as [_ <-].
  eapply (settings_wf_update _ _ _ tid (ts_key t) v); [done| | | |done|auto].
  - intros u. apply active_setting_true.
  - by intros u _.
  - by apply (wf_valid _ Hwf).
Qed.

Lemma deleteTenantSetting_spec tid k d s :
  settings_wf (tenantSettings (db s)) ->
  wp (deleteTenantSetting tid k d)
    (fun r s' => r = Ret tt /\ only_settings s s' /\ settings_wf (tenantSettings (db s'))) s.
Proof.
  intros [Hvalid Hone Hurl]. unfold deleteTenantSetting. wp_auto. split_and!; [done..|].
  simpl. split.
  - intros t (u & Hu & ->)%update_where_elem. destruct (active_setting _ _ u); exact (Hvalid u Hu).
  - by rewrite update_where_key.
  - intros t u (t0 & Ht & ->)%update_where_elem (u0 & Hu & ->)%update_where_elem.
    destruct (active_setting _ _ t0), (active_setting _ _ u0); exact (Hurl t0 u0 Ht Hu).
Qed.

(** ** Tenants *)

Definition cached_tenant (l : list Tenant) (k : string) (t : Tenant) : Prop :=
  te_id t = k /\ t ∈ l.

Record tenants_inv s : Prop := {
  inv_ids : NoDup (te_id <$> tenants (db s));
  inv_cache : entries (cached_tenant (tenants (db s))) (tenantCache (db s));
  inv_settings : settings_wf (tenantSettings (db s))
}.

Lemma has_id_true i t : has_id i t = true <-> te_id t = i.
Proof. apply bool_decide_eq_true. Qed.

(** The row of the table under an identifier. *)
Definition tenant_row (i : string) (includeDeleted : bool) (l : list Tenant) : option Tenant :=
  find_where (fun t => (includeDeleted || is_active t) && has_id i t) l.

Lemma tenant_row_spec i incl l t :
  NoDup (te_id <$> l) -> t ∈ l -> te_id t = i ->
  tenant_row i incl l = if incl || is_active t then Some t else None.
Proof.
  intros Hnd Ht Hi. unfold tenant_row. destruct (find_where _ _) as [u|] eqn:F.
  - apply find_where_Some in F as [Hu [Ha Hui%has_id_true]%andb_true_iff].
    rewrite (unique_key te_id l t u) by congruence. by rewrite Ha.
  - eapply find_where_None in F; [|exact Ht]. rewrite (proj2 (has_id_true i t)) in F by done.
    by rewrite andb_true_r in F; rewrite F.
Qed.

Lemma tenant_row_Some i incl l t :
  tenant_row i incl l = Some t -> t ∈ l /\ te_id t = i /\ (incl = false -> is_active t = true).
Proof.
  intros [Ht [Ha Hi%has_id_true]%andb_true_iff]%find_where_Some.
  split_and!; [done..|]. by intros ->.
Qed.

(** A transition of the cache alone. *)
Lemma tenantCache_get_spec i s (Q : _ -> _ -> Prop) :
  tenants_inv s ->
  (forall r s', tenants_inv s' -> tenants (db s') = tenants (db s) -> now s' = now s ->
     ext s' = ext s -> (forall t, r = Some t -> te_id t = i /\ t ∈ tenants (db s)) -> Q (Ret r) s') ->
  wp (tenantCache_get i) Q s.
Proof.
  intros [Hids Hcache Hset] HQ. unfold tenantCache_get. wp_auto.
  destruct (cache_get_spec _ _ _ _ _ Heqp) as [Hc Hr]. apply HQ; try done.
  - split; [done|by apply Hc|done].
  - intros t ->. destruct Hr as (c & Hk & <- & _). by apply (Hcache i c).
Qed.

Lemma tenants_inv_cached k t s :
  tenants_inv s -> te_id t = k -> t ∈ tenants (db s) ->
  tenants_inv (set_db (set_tenantCache (cache_set (localCacheDuration config) (now s) k t) (db s)) s).
Proof.
  intros [Hids Hcache Hset] Hk Ht. split; [done| |done]. apply entries_set; [done|].
  by eapply entries_mono; [|exact Hcache].
Qed.

Lemma getTenant_result i incl s :
  tenants_inv s ->
  wp (getTenant config i incl)
    (fun r s' => tenants_inv s' /\ tenants (db s') = tenants (db s) /\ now s' = now s /\
                 ext s' = ext s /\ r = Ret (tenant_row i incl (tenants (db s)))) s.
Proof.
  intros Hinv. unfold getTenant. apply wp_bind, tenantCache_get_spec; [done|].
  intros [t|] s1 Hinv1 Ht1 Hn1 Hx1 Hr; cbv beta iota.
  - destruct (Hr t eq_refl) as [Hi Ht]. rewrite (tenant_row_spec i incl _ t) by
      (done || apply (inv_ids s Hinv)). unfold is_active.
    destruct incl, (is_some (te_deletedAt t)); by apply wp_ret.
  - wp_step. wp_step. change (find_where _ _) with (tenant_row i incl (tenants (db s1))). rewrite Ht1.
    destruct (tenant_row _ _ _) as [t|] eqn:F; [|by apply wp_ret].
    destruct (tenant_row_Some _ _ _ _ F) as (Ht & Hi & _). unfold tenantCache_set. wp_auto.
    split_and!; try done. apply tenants_inv_cached; [done..|]. simpl. by rewrite Ht1.
Qed.

(** What the authorization server is told of a new tenant. *)
Definition auth_data (options : CreateTenantOptions) (i : string) : AuthTenant :=
  {| at_id := i; at_apiSecret := ct_apiSecret options;
     at_idpConsentUrl := ct_idpConsentUrl options; at_idpSecret := ct_idpSecret options |}.

Definition built_from (options : CreateTenantOptions) (t : Tenant) : Prop :=
  (forall i, ct_id options = Some i -> truthy i = true -> te_id t = i) /\
  te_email t = ct_email options /\ te_apiSecret t = ct_apiSecret options /\
  te_idpConsentUrl t = ct_idpConsentUrl options /\ te_idpSecret t = ct_idpSecret options /\
  te_publicName t = ct_publicName options /\ is_active t = true.

Lemma existsb_has_id i l : existsb (has_id i) l = false -> i ∉ te_id <$> l.
Proof.
  intros He (t & -> & Ht)%list_elem_of_fmap. apply not_true_iff_false in He. apply He.
  apply existsb_exists. exists t. split; [by apply list_elem_of_In|by apply has_id_true].
Qed.

Lemma insert_tenant_spec options s :
  wp (insert_tenant options)
    (fun r s' => tenantCache (db s') = tenantCache (db s) /\
       tenantSettings (db s') = tenantSettings (db s) /\ now s' = now s /\ ext s' = ext s /\
       match r with
       | Ret t => tenants (db s') = tenants (db s) ++ [t] /\ built_from options t /\
                  te_id t ∉ te_id <$> tenants (db s)
       | Throw e => isTenantError e = None
       end) s.
Proof.
  unfold insert_tenant. wp_step. eapply (wp_mono _ (fun r s1 => exists i, r = Ret i /\
    (forall j, ct_id options = Some j -> truthy j = true -> i = j) /\
    only_settings s s1 /\ tenantSettings (db s1) = tenantSettings (db s))).
  - destruct (ct_id options) as [i|]; [destruct (truthy i) eqn:Tr|]; wp_auto; eexists;
      (split; [done|]); (split; [|done]); intros j [= <-] Hj; congruence.
  - intros r s1 (i & -> & Hi & (Ht & Hc & Hn & Hx) & Hset). do 4 wp_step. cbv zeta.
    destruct (negb _); [by wp_auto|]. destruct (existsb _ _) eqn:He; [by wp_auto|]. wp_auto.
    simpl. rewrite Ht in He |- *. split_and!; try done.
    by apply existsb_has_id.
Qed.

Definition invalid_id (options : CreateTenantOptions) : bool :=
  match ct_id options with Some i => truthy i && negb (validate i) | None => false end.

(** The transaction makes the row and its settings, and the tenant of the other server; or
    it throws, and may have made the tenant of the other server. *)
Definition create_effect (options : CreateTenantOptions) s (r : outcome Tenant) s' : Prop :=
  match r with
  | Ret t => tenants (db s') = tenants (db s) ++ [t] /\ built_from options t /\
             te_id t ∉ te_id <$> tenants (db s) /\ settings_wf (tenantSettings (db s')) /\
             tenant_create (auth_data options (te_id t)) (ext s) = (Ret tt, ext s')
  | Throw e => ext s' = ext s \/
               exists i, i ∉ te_id <$> tenants (db s) /\
                         ext s' = (tenant_create (auth_data options i) (ext s)).2
  end.

Lemma insertTenant_spec options s :
  tenants_inv s ->
  wp (insertTenant config options)
    (fun r s' => tenantCache (db s') = tenantCache (db s) /\ now s' = now s /\
                 create_effect options s r s' /\
                 match r with
                 | Ret _ => invalid_id options = false
                 | Throw e => invalid_id options = true ->
                     e = ThrownString (TenantError_value InvalidTenantId) /\ ext s' = ext s
                 end) s.
Proof.
  intros Hinv. unfold insertTenant.
  assert (forall (P : Prop), invalid_id options = false -> invalid_id options = true -> P) as Habs
    by (intros P; congruence).
  wp_step. eapply (wp_mono _ (fun r s1 => s1 = s /\
    r = if invalid_id options then Throw (ThrownString (TenantError_value InvalidTenantId)) else Ret tt)).
  { unfold invalid_id, throw_tenant. destruct (ct_id options) as [i|]; [destruct (truthy i && _)|];
      by wp_auto. }
  intros r s1 [-> ->]. destruct (invalid_id options); [by split_and!; [..|left|]|].
  wp_step. eapply wp_mono; [apply insert_tenant_spec|].
  intros [t|e] s1 (Hc & Hset & Hn & Hx & Hr); [|by split_and!; [..|left|]].
  destruct Hr as (Ht & Hb & Hnew). apply wp_bind, wp_lift. rewrite Hx. intros r x Hcall.
  fold (auth_data options (te_id t)) in Hcall.
  assert (x = (tenant_create (auth_data options (te_id t)) (ext s)).2) as Ex by by rewrite Hcall.
  destruct r as [[]|e]; [|by split_and!; [..|right; exists (te_id t)|]].
  apply wp_bind. eapply wp_mono; [apply createTenantSetting_spec; simpl; rewrite Hset;
    apply (inv_settings s Hinv)|]. intros r s2 [(Ht2 & Hc2 & Hn2 & Hx2) Hwf]. simpl in *.
  destruct r as [o|e]; wp_auto; rewrite ?Hc2, ?Hn2; unfold create_effect; rewrite ?Ht2, ?Hx2.
  - rewrite Ht. by split_and!.
  - by split_and!; [..|right; exists (te_id t)|].
Qed.

Definition same_rows s s' : Prop :=
  tenants (db s') = tenants (db s) /\ tenantSettings (db s') = tenantSettings (db s).

(** A creation appends one tenant, with the settings; or it leaves the two tables as they
    were, and at most the authorization server has a tenant more. *)
Definition created options s (r : outcome (res TenantError Tenant)) s' : Prop :=
  match r with
  | Ret (Ok t) => invalid_id options = false /\ create_effect options s (Ret t) s'
  | Ret (Err e) => same_rows s s' /\ create_effect options s (Throw (ThrownString "")) s' /\
                   (invalid_id options = true -> e = InvalidTenantId)
  | Throw e => same_rows s s' /\ invalid_id options = false /\ create_effect options s (Throw e) s'
  end.

Lemma NoDup_snoc_id l t :
  NoDup (te_id <$> l) -> te_id t ∉ te_id <$> l -> NoDup (te_id <$> (l ++ [t])).
Proof.
  intros Hnd Hnew. rewrite fmap_app. apply NoDup_app.
  split_and!; [done| |apply NoDup_singleton]. by intros x Hx ->%list_elem_of_singleton.
Qed.

Lemma createTenant_result options s :
  tenants_inv s ->
  wp (createTenant config options)
    (fun r s' => tenants_inv s' /\ now s' = now s /\ created options s r s') s.
Proof.
  intros Hinv. unfold createTenant. wp_step. wp_step. apply wp_transaction. eapply wp_mono.
  { by apply insertTenant_spec. }
  intros [t|e] s' (Hc & Hn & Heff & Hi); cbv beta iota.
  - destruct Heff as (Ht & Hb & Hnew & Hwf & Hx). unfold tenantCache_set. wp_auto.
    split_and!; [|done..]. split; simpl.
    + rewrite Ht. apply NoDup_snoc_id; [apply (inv_ids s Hinv)|done].
    + apply entries_set; [split; [done|rewrite Ht; set_solver]|]. rewrite Hc, Ht.
      eapply entries_mono; [|apply (inv_cache s Hinv)]. intros k u [Hk Hu] _. split; [done|set_solver].
    + done.
  - assert (tenants_inv (set_db (db s) s')) as Hinv' by (by destruct Hinv).
    destruct (invalid_id options) eqn:Hid.
    + destruct (Hi eq_refl) as [-> Hx]. change (isTenantError _) with (Some InvalidTenantId).
      apply wp_ret. unfold created. rewrite Hid. by split_and!; [..|left|].
    + unfold created. rewrite Hid. destruct (isTenantError e); [apply wp_ret|apply wp_throw];
        by split_and!.
Qed.

(** An update tells the authorization server what is given, when one of the three is not
    empty. *)
Definition tells (options : UpdateTenantOptions) : bool :=
  truthy (ut_idpConsentUrl options) || truthy (ut_idpSecret options) || truthy (ut_apiSecret options).
Definition update_data (options : UpdateTenantOptions) : AuthTenantUpdate :=
  {| au_apiSecret := ut_apiSecret options; au_idpConsentUrl := ut_idpConsentUrl options;
     au_idpSecret := ut_idpSecret options |}.

Definition updated options s (r : outcome Tenant) s' : Prop :=
  match r with
  | Ret t' => exists t, t ∈ tenants (db s) /\ te_id t = ut_id options /\ is_active t = true /\
      t' = patched_tenant options t /\
      tenants (db s') = update_where (has_id (ut_id options)) (patched_tenant options) (tenants (db s)) /\
      if tells options
      then tenant_update (ut_id options) (update_data options) (ext s) = (Ret tt, ext s')
      else ext s' = ext s
  | Throw e => tenants (db s') = tenants (db s) /\
      (ext s' = ext s \/ tenant_update (ut_id options) (update_data options) (ext s) = (Throw e, ext s'))
  end.

Lemma patchTenant_spec options s :
  wp (patchTenant options)
    (fun r s' => tenantCache (db s') = tenantCache (db s) /\
       tenantSettings (db s') = tenantSettings (db s) /\ now s' = now s /\
       match r with Ret _ => updated options s r s' | Throw e =>
         ext s' = ext s \/ tenant_update (ut_id options) (update_data options) (ext s) = (Throw e, ext s')
       end) s.
Proof.
  unfold patchTenant. wp_step. wp_step. change (find_where _ _) with
    (tenant_row (ut_id options) false (tenants (db s))).
  destruct (tenant_row _ _ _) as [t|] eqn:F; [|wp_auto; by split_and!; [..|left]].
  destruct (tenant_row_Some _ _ _ _ F) as (Ht & Hi & Ha). cbv zeta.
  destruct (negb _); [wp_auto; by split_and!; [..|left]|].
  do 3 wp_step. fold (tells options) (update_data options). destruct (tells options) eqn:Htell.
  - apply wp_lift. intros [[]|e] x Hcall; simpl in Hcall; wp_auto; split_and!; try done.
    + exists t. rewrite Htell. by split_and!; [..|apply Ha| | |].
    + by right.
  - wp_auto. split_and!; try done. exists t. rewrite Htell. by split_and!; [..|apply Ha| | |].
Qed.

(** Rewriting the row of a tenant keeps the rest of the invariant. *)
Lemma tenants_inv_rewrite i f s (c : Cache Tenant) :
  tenants_inv s -> (forall t, te_id (f t) = te_id t) ->
  entries (fun k t => k <> i /\ cached_tenant (tenants (db s)) k t \/
                      k = i /\ exists u, u ∈ tenants (db s) /\ te_id u = i /\ t = f u) c ->
  tenants_inv (set_db {| tenants := update_where (has_id i) f (tenants (db s));
                         tenantSettings := tenantSettings (db s); tenantCache := c |} s).
Proof.
  intros [Hids Hcache Hset] Hf Hc. split; simpl; [by rewrite update_where_key| |done].
  eapply entries_mono; [|exact Hc]. intros k t [[Hne [Hk Ht]]|[-> (u & Hu & Hi & ->)]].
  - split; [done|]. apply update_where_elem. exists t. split; [done|].
    destruct (has_id i t) eqn:E; [|done]. apply has_id_true in E. congruence.
  - split; [by rewrite Hf|]. apply update_where_elem. exists u. split; [done|].
    by rewrite (proj2 (has_id_true i u)).
Qed.

(** The entries of the cache after a row was rewritten: those of other tenants, and the
    new row when it is cached. *)
Lemma entries_rewritten i f t s ttl time :
  tenants_inv s -> t ∈ tenants (db s) -> te_id t = i ->
  entries (fun k u => k <> i /\ cached_tenant (tenants (db s)) k u \/
                      k = i /\ exists v, v ∈ tenants (db s) /\ te_id v = i /\ u = f v)
    (cache_set ttl time i (f t) (tenantCache (db s))).
Proof.
  intros Hinv Ht Hi. apply entries_set; [right; split; [done|by exists t]|].
  eapply entries_mono; [|apply (inv_cache s Hinv)]. intros k u Hu Hne. by left.
Qed.

Lemma updateTenant_result options s :
  tenants_inv s ->
  wp (updateTenant config options)
    (fun r s' => tenants_inv s' /\ now s' = now s /\ updated options s r s') s.
Proof.
  intros Hinv. unfold updateTenant. wp_step. apply wp_transaction. eapply wp_mono.
  { apply patchTenant_spec. }
  intros [t'|e] s' (Hc & Hset & Hn & Heff); cbv beta iota.
  - pose proof Heff as (t & Ht & Hi & Ha & -> & Htab & _). unfold tenantCache_set. wp_auto.
    split_and!; [|done..]. simpl.
    destruct (tenants_inv_rewrite (ut_id options) (patched_tenant options) s
      (cache_set (localCacheDuration config) (now s') (ut_id options) (patched_tenant options t)
         (tenantCache (db s)))) as [Hids Hcache Hwf]; [done|done|by apply entries_rewritten|].
    simpl in *. split; simpl; rewrite ?Htab, ?Hset, ?Hc; [done| |done].
    by rewrite Hi.
  - split_and!; [by destruct Hinv|done|]. by split.
Qed.

Definition deleted i s (r : outcome unit) s' : Prop :=
  match r with
  | Ret _ => tenants (db s') = update_where (has_id i) (set_deletedAt (now s)) (tenants (db s)) /\
             tenant_delete i (now s) (ext s) = (Ret tt, ext s')
  | Throw e => tenants (db s') = tenants (db s) /\ tenant_delete i (now s) (ext s) = (Throw e, ext s')
  end.

Lemma deleteTenant_result i s :
  tenants_inv s ->
  wp (deleteTenant i) (fun r s' => tenants_inv s' /\ now s' = now s /\ deleted i s r s') s.
Proof.
  intros Hinv. unfold deleteTenant, tenantCache_delete. do 2 wp_step. apply wp_transaction. wp_step.
  wp_step. wp_step. eapply wp_mono; [apply deleteTenantSetting_spec, (inv_settings s Hinv)|].
  intros r s1 (-> & (Ht & Hc & Hn & Hx) & Hwf). simpl in *. do 2 wp_step.
  assert (entries (fun k u => k <> i /\ cached_tenant (tenants (db s)) k u) (deleteKey i (tenantCache (db s))))
    as Hdel.
  { intros k c Hk. unfold deleteKey in Hk. destruct (decide (k = i)) as [->|Hne];
      [by rewrite lookup_delete_eq in Hk|]. rewrite lookup_delete_ne in Hk by done.
    split; [done|]. by apply (inv_cache s Hinv). }
  apply wp_lift. simpl. rewrite Hx, Ht. intros [[]|e] x Hcall; simpl; split_and!; try done.
  - destruct (tenants_inv_rewrite i (set_deletedAt (now s)) s (deleteKey i (tenantCache (db s))))
      as [Hids Hcache _]; [done|done| |].
    { eapply entries_mono; [|exact Hdel]. intros k u Hu. by left. }
    split; simpl in *; [by rewrite ?Ht|by rewrite ?Ht, ?Hc|done].
  - split; simpl; [apply (inv_ids s Hinv)| |apply (inv_settings s Hinv)].
    eapply entries_mono; [|exact Hdel]. by intros k u [_ Hu].
Qed.

(** The start of the backend: only the secret of the operator changes. *)
Lemma updateOperatorApiSecretFromConfig_spec s :
  tenants_inv s ->
  wp (updateOperatorApiSecretFromConfig config)
    (fun _ s' => tenants_inv s' /\ now s' = now s /\ ext s' = ext s /\
       (tenants (db s') = tenants (db s) \/
        tenants (db s') = update_where (has_id (operatorTenantId config))
                            (set_apiSecret (adminApiSecret config)) (tenants (db s)))) s.
Proof.
  intros Hinv. unfold updateOperatorApiSecretFromConfig. cbv zeta. do 2 wp_step.
  change (find_where _ _) with (tenant_row (operatorTenantId config) false (tenants (db s))).
  destruct (tenant_row _ _ _) as [t|] eqn:F; [|wp_auto; by split_and!; [..|left]].
  destruct (tenant_row_Some _ _ _ _ F) as (Ht & Hi & Ha).
  destruct (negb _); [|wp_auto; by split_and!; [..|left]].
  destruct (negb _); [wp_auto; by split_and!; [..|left]|].
  unfold tenantCache_set. wp_auto. simpl. rewrite Hi. split_and!; [|done..|by right].
  destruct (tenants_inv_rewrite (operatorTenantId config) (set_apiSecret (adminApiSecret config)) s
    (cache_set (localCacheDuration config) (now s) (operatorTenantId config)
       (set_apiSecret (adminApiSecret config) t) (tenantCache (db s)))) as [Hids Hcache Hwf];
    [done|done|by apply entries_rewritten|by split].
Qed.

(** ** Histories *)

Section Histories.
Context (R : X -> X -> Prop) (allowed : UpdateTenantOptions -> Prop).

Inductive tenant_step : TenantState (X := X) -> TenantState (X := X) -> Prop :=
| step_createTenant options s : tenant_step s (createTenant config options s).2
| step_updateTenant options s : allowed options -> tenant_step s (updateTenant config options s).2
| step_deleteTenant i s : tenant_step s (deleteTenant i s).2
| step_getTenant i includeDeleted s : tenant_step s (getTenant config i includeDeleted s).2
| step_operator s : tenant_step s (updateOperatorApiSecretFromConfig config s).2
| step_createSetting tid l s : tenant_step s (createTenantSetting tid l s).2
| step_updateSetting tid k v s : tenant_step s (updateTenantSetting tid k v s).2
| step_deleteSetting tid k d s : tenant_step s (deleteTenantSetting tid k d s).2
| step_others t x s : R (ext s) x ->
    tenant_step s {| db := db s; now := t; fresh := fresh s; ext := x |}.

Lemma tenants_inv_settings s s' :
  tenants_inv s -> only_settings s s' -> settings_wf (tenantSettings (db s')) -> tenants_inv s'.
Proof. intros [Hids Hcache _] (Ht & Hc & _ & _) Hwf. split; by rewrite ?Ht, ?Hc. Qed.

Lemma tenant_step_inv s s' : tenant_step s s' -> tenants_inv s -> tenants_inv s'.
Proof.
  intros [] Hinv.
  - by apply createTenant_result.
  - by apply updateTenant_result.
  - by apply deleteTenant_result.
  - by apply getTenant_result.
  - by apply updateOperatorApiSecretFromConfig_spec.
  - destruct (createTenantSetting_spec tid l s0 (inv_settings s0 Hinv)) as [??].
    by eapply tenants_inv_settings.
  - destruct (updateTenantSetting_spec tid k v s0 (inv_settings s0 Hinv)) as [??].
    by eapply tenants_inv_settings.
  - destruct (deleteTenantSetting_spec tid k d s0 (inv_settings s0 Hinv)) as (_ & ? & ?).
    by eapply tenants_inv_settings.
  - by destruct Hinv.
Qed.

(** The migrations seed the operator. *)
Definition tenants_seeded s : Prop :=
  (exists operator, tenants (db s) = [operator] /\ te_id operator = operatorTenantId config /\
                    is_active operator = true) /\
  tenantSettings (db s) = [] /\ tenantCache (db s) = ∅.

Lemma tenants_reachable s0 s : tenants_seeded s0 -> rtc tenant_step s0 s -> tenants_inv s.
Proof.
  intros ((op & Ht & _) & Hset & Hc) Hs. assert (tenants_inv s0) as Hinv.
  { split; rewrite ?Ht, ?Hset, ?Hc; [apply NoDup_singleton|apply entries_empty|apply settings_wf_nil]. }
  clear Ht Hset Hc. induction Hs as [|s1 s2 s3 Hstep _ IH]; [done|].
  apply IH. by eapply tenant_step_inv.
Qed.

(** C32. Settings stay well formed.  In every history of operations on tenants and
    settings, whatever the authorization server answers, the settings service answers for a
    tenant and a key with at most one setting, which is of that tenant and key, of a known
    key, and passes the validator of its key; and a wallet address URL, deleted or not, is
    of one tenant only. *)
Theorem tenant_settings_sound s0 s tid k :
  tenants_seeded s0 -> rtc tenant_step s0 s ->
  exists l, (getTenantSettings tid (Some k) s).1 = Ret l /\ (List.length l <= 1)%nat /\
    (forall t, t ∈ l -> ts_tenantId t = tid /\ ts_key t = k /\ ts_deletedAt t = None /\
       is_setting_key k = true /\ invalid_setting k (ts_value t) = false) /\
    (forall t u, t ∈ tenantSettings (db s) -> u ∈ tenantSettings (db s) ->
       ts_key t = WALLET_ADDRESS_URL -> ts_key u = WALLET_ADDRESS_URL ->
       ts_value t = ts_value u -> ts_tenantId t = ts_tenantId u).
Proof.
  intros Hseed Hs. destruct (inv_settings s (tenants_reachable s0 s Hseed Hs)) as [Hvalid Hone Hurl].
  eexists. split; [reflexivity|]. split_and!; [| |done].
  - apply (NoDup_key_filter tenant_key (active_setting tid (Some k))) in Hone.
    assert (forall t, t ∈ List.filter (active_setting tid (Some k)) (tenantSettings (db s)) ->
      tenant_key t = (tid, k)) as Hk.
    { intros t [Ha _]%elem_of_filter_bool. by apply active_setting_true in Ha as [<- <-]. }
    destruct (List.filter _ _) as [|t [|u l]]; [simpl; lia..|].
    rewrite !fmap_cons in Hone. apply NoDup_cons in Hone as [Hone _].
    rewrite (Hk t), (Hk u) in Hone by set_solver. set_solver.
  - intros t [Ha Ht]%elem_of_filter_bool. destruct (active_setting_true _ _ _ Ha) as [Et Ek].
    destruct (Hvalid t Ht) as [Hk Hv]. rewrite Ek in Hk, Hv. split_and!; try done.
    unfold active_setting in Ha. zbool. by destruct (ts_deletedAt t).
Qed.

(** A creation is all or nothing.  In every history, creating a tenant appends exactly
    one active tenant built from its options under a new identifier, which the authorization
    server was told and accepted, with settings that are well formed; or it leaves both
    tables as they were, and at most the authorization server was told of a tenant that is
    not in the table.  An identifier that is not a UUID is the error [InvalidTenantId]. *)
Theorem createTenant_effect s0 s options :
  tenants_seeded s0 -> rtc tenant_step s0 s ->
  created options s (createTenant config options s).1 (createTenant config options s).2.
Proof.
  intros Hseed Hs. by apply createTenant_result, (tenants_reachable s0 s Hseed Hs).
Qed.
End Histories.
End Specs.
