(* ===== verification/Assets.v ===== *)
(** * Assets: the assets of the tenants

    Models [asset/{model,service,errors}.ts].  The table is [assets], with the sequence its
    column [ledger] draws from ([smallserial]); [assetCache] is an in-memory store of
    [Cache].  A transaction that throws restores the rows and, of the accounting service it
    is passed to, [unwind]; it restores neither the sequence nor the cache.  An asset keeps
    its row when it is deleted. *)

From S2P Require Import Prelude Shared Service Cache Pagination OpenPayments Accounting Tenants.

Local Open Scope Z_scope.
Local Open Scope ts_scope.

(** ** [asset/errors.ts] *)

Inductive AssetError := DuplicateAsset | AssetUnknownAsset | CannotDeleteInUseAsset | NoRatesForAsset.

#[global] Instance AssetError_eq_dec : EqDecision AssetError.
Proof. solve_decision. Defined.

(** ** The table *)

(** A row: the asset of [OpenPayments] with its dates. *)
Record AssetRow := {
  as_asset : Asset;
  as_createdAt : Z;
  as_deletedAt : option Z
}.

#[global] Instance AssetRow_eq_dec : EqDecision AssetRow.
Proof. solve_decision. Defined.

Definition as_id (a : AssetRow) : string := a_id (as_asset a).
Definition as_tenantId (a : AssetRow) : string := a_tenantId (as_asset a).

#[global] Instance AssetRow_model : BaseModel AssetRow := { id := as_id; createdAt := as_createdAt }.

Record AssetDb := {
  assets : list AssetRow;
  (* the next value of the sequence *)
  nextLedger : Z;
  assetCache : Cache AssetRow
}.

Definition set_assets (f : list AssetRow -> list AssetRow) (d : AssetDb) : AssetDb :=
  {| assets := f (assets d); nextLedger := nextLedger d; assetCache := assetCache d |}.
Definition set_assetCache (f : Cache AssetRow -> Cache AssetRow) (d : AssetDb) : AssetDb :=
  {| assets := assets d; nextLedger := nextLedger d; assetCache := f (assetCache d) |}.

Record CreateAssetOptions := {
  ca_code : string;
  ca_scale : Z;
  ca_tenantId : string;
  ca_withdrawalThreshold : option Z;
  ca_liquidityThreshold : option Z
}.

Record UpdateAssetOptions := {
  ua_id : string;
  ua_tenantId : string;
  ua_withdrawalThreshold : option Z;
  ua_liquidityThreshold : option Z
}.

Record DeleteAssetOptions := { da_id : string; da_tenantId : string; da_deletedAt : Z }.

(** [asset.liquidity_low] *)
Record AssetEvent := { ae_asset : Asset; ae_balance : Z }.

Record AssetConfig := {
  operatorExchangeRatesUrl : option string;
  assetCacheDuration : Z
}.

(** The services that are called, and the tables of others that are read. *)
Class AssetServices (X : Type) := {
  (* [tenantSettingService.get({ tenantId, key })] *)
  tenantSettings_get : string -> string -> M X (list TenantSetting);
  asset_accounting : AccountingService X;
  (* a row of [tenants] *)
  tenant_exists : X -> string -> bool;
  (* [Peer.query().where('assetId', id).first()], and of [WalletAddress] *)
  peer_uses : X -> string -> bool;
  walletAddress_uses : X -> string -> bool;
  (* [AssetEvent.query().insertGraph] *)
  insertAssetEvent : AssetEvent -> M X unit;
  unwind : X -> X -> X
}.

Definition fits_bigint (z : option Z) : bool :=
  match z with Some z => (- 2 ^ 63 <=? z) && (z <? 2 ^ 63) | None => true end.

Section AssetService.
Context {X : Type} `{Uuid} `{!AssetServices X}.
Context (config : AssetConfig).

Definition AssetState : Type := Svc AssetDb X.

(** [Asset.transaction] *)
Definition asset_transaction {A} (m : M AssetState A) : M AssetState A :=
  with_transaction (fun s s' =>
    {| db := {| assets := assets (db s); nextLedger := nextLedger (db s');
                assetCache := assetCache (db s') |};
       now := now s'; fresh := Service.fresh s'; ext := unwind (ext s) (ext s') |}) m.

Definition assetCache_get (k : string) : M AssetState (option AssetRow) :=
  let! now := date_now in
  let! cache := db_get assetCache in
  let '(asset, cache) := cache_get now k cache in
  db_set (set_assetCache (fun _ => cache)) ;;! ret asset.

Definition assetCache_set (k : string) (asset : AssetRow) : M AssetState unit :=
  let! now := date_now in
  db_set (set_assetCache (cache_set (assetCacheDuration config) now k asset)).

Definition assetCache_delete (k : string) : M AssetState unit :=
  db_set (set_assetCache (deleteKey k)).

(** *** [asset/model.ts] *)

Definition onAssetDebit (a : Asset) (options : OnDebitOptions) : M X unit :=
  match a_liquidityThreshold a with
  | Some liquidityThreshold =>
      if balance options <=? liquidityThreshold
      then insertAssetEvent {| ae_asset := a; ae_balance := balance options |}
      else ret tt
  | None => ret tt
  end.

(** [asset.asset]: its [onDebit] is the method without its object, and the object it is then
    called on has no threshold; no balance is at most [undefined]. *)
Definition toLiquidityAsset (a : Asset) : LiquidityAccountAsset X :=
  {| asset_id := a_id a; asset_code := None; asset_scale := None; asset_ledger := a_ledger a;
     asset_onDebit := Some (fun _ => ret tt) |}.

Definition asset_account (a : Asset) : LiquidityAccount X :=
  {| account_id := a_id a; account_asset := toLiquidityAsset a; account_onCredit := None;
     account_onDebit := Some (onAssetDebit a) |}.

(** *** [asset/service.ts] *)

Definition is_asset (code : string) (scale : Z) (a : AssetRow) : bool :=
  bool_decide (a_code (as_asset a) = code) && (a_scale (as_asset a) =? scale).
Definition of_tenant (tenantId : string) (a : AssetRow) : bool := bool_decide (as_tenantId a = tenantId).
Definition row_id (i : string) (a : AssetRow) : bool := bool_decide (as_id a = i).
Definition is_live (a : AssetRow) : bool := negb (is_some (as_deletedAt a)).

(** The [smallserial] of a new row. *)
Definition next_ledger : M AssetState Z :=
  let! n := db_get nextLedger in
  if n <=? 32767 then
    db_set (fun d => {| assets := assets d; nextLedger := n + 1; assetCache := assetCache d |}) ;;!
    ret n
  else throw (JsError "DBError" "nextval: reached maximum value of sequence").

Definition new_asset (i : string) (ledger : Z) (options : CreateAssetOptions) : Asset :=
  {| a_id := i; a_code := ca_code options; a_scale := ca_scale options; a_ledger := ledger;
     a_tenantId := ca_tenantId options; a_withdrawalThreshold := ca_withdrawalThreshold options;
     a_liquidityThreshold := ca_liquidityThreshold options |}.

(** [Asset.query(trx).insertAndFetch], with the columns and constraints of the table; a
    [smallint] may be below zero. *)
Definition insert_asset (options : CreateAssetOptions) : M AssetState AssetRow :=
  let! i := uuid in
  let! now := date_now in
  if negb (fits_varchar (ca_code options) && (-32768 <=? ca_scale options)
           && (ca_scale options <=? 32767) && fits_bigint (ca_withdrawalThreshold options)
           && fits_bigint (ca_liquidityThreshold options)) then throw (JsError "DataError" "")
  else
  let! ledger := next_ledger in
  let! rows := db_get assets in
  let! x := gets ext in
  let asset := {| as_asset := new_asset i ledger options; as_createdAt := now; as_deletedAt := None |} in
  if 255 <? ca_scale options then throw (JsError "CheckViolationError" "")
  else if existsb (row_id i) rows then throw (UniqueViolationError "assets_pkey")
  else if existsb (fun a => a_ledger (as_asset a) =? ledger) rows
  then throw (UniqueViolationError "assets_ledger_unique")
  else if existsb (fun a => is_asset (ca_code options) (ca_scale options) a
                            && of_tenant (ca_tenantId options) a) rows
  then throw (UniqueViolationError "assets_code_scale_tenantid_unique")
  else if negb (tenant_exists x (ca_tenantId options))
  then throw (ForeignKeyViolationError "assets_tenantid_foreign")
  else db_set (set_assets (fun l => l ++ [asset])) ;;! ret asset.

(** The body of the transaction. *)
Definition insertAsset (options : CreateAssetOptions) : M AssetState AssetRow :=
  let! asset := insert_asset options in
  assetCache_set (as_id asset) asset ;;!
  lift (createLiquidityAndLinkedSettlementAccount asset_accounting
          (asset_account (as_asset asset)) ASSET) ;;!
  ret asset.

Definition with_deletedAt (d : option Z) (a : AssetRow) : AssetRow :=
  {| as_asset := as_asset a; as_createdAt := as_createdAt a; as_deletedAt := d |}.

(** A second code of a tenant needs exchange rates. *)
Definition lacks_rates (options : CreateAssetOptions) (rows : list AssetRow) : M AssetState bool :=
  if negb (existsb (fun a => bool_decide (a_code (as_asset a) = ca_code options)) rows)
     && Nat.ltb 0 (List.length rows) then
    let! exchangeUrlSetting := lift (tenantSettings_get (ca_tenantId options) "EXCHANGE_RATES_URL") in
    ret (negb (truthy (ts_value <$> head exchangeUrlSetting))
         && negb (truthy (operatorExchangeRatesUrl config)))
  else ret false.

Definition createAsset (options : CreateAssetOptions) : M AssetState (res AssetError AssetRow) :=
  try_catch
    (let! rows := db_get (fun d => List.filter (of_tenant (ca_tenantId options)) (assets d)) in
     let! lacking := lacks_rates options rows in
     if lacking : bool then ret (Err NoRatesForAsset)
     else
     match find_where (fun a => negb (is_live a) && is_asset (ca_code options) (ca_scale options) a) rows with
     | Some deletedAsset =>
         (* if found, enable *)
         let reActivated := with_deletedAt None deletedAsset in
         db_set (set_assets (update_where (row_id (as_id deletedAsset)) (with_deletedAt None))) ;;!
         assetCache_set (as_id reActivated) reActivated ;;!
         ret (Ok reActivated)
     | None => let! asset := asset_transaction (insertAsset options) in ret (Ok asset)
     end)
    (fun err => match err with
                | UniqueViolationError _ => ret (Err DuplicateAsset)
                | _ => throw err
                end).

Definition with_thresholds (options : UpdateAssetOptions) (a : AssetRow) : AssetRow :=
  let b := as_asset a in
  {| as_asset := {| a_id := a_id b; a_code := a_code b; a_scale := a_scale b; a_ledger := a_ledger b;
                    a_tenantId := a_tenantId b;
                    a_withdrawalThreshold := ua_withdrawalThreshold options;
                    a_liquidityThreshold := ua_liquidityThreshold options |};
     as_createdAt := as_createdAt a; as_deletedAt := as_deletedAt a |}.

(** The row of the tenant, deleted or not. *)
Definition updateAsset (options : UpdateAssetOptions) : M AssetState (res AssetError AssetRow) :=
  let! found := db_get (fun d => find_where (fun a =>
    of_tenant (ua_tenantId options) a && row_id (ua_id options) a) (assets d)) in
  match found with
  | None => ret (Err AssetUnknownAsset)
  | Some a =>
      if negb (fits_bigint (ua_withdrawalThreshold options) && fits_bigint (ua_liquidityThreshold options))
      then throw (JsError "DataError" "")
      else
      let asset := with_thresholds options a in
      db_set (set_assets (update_where (row_id (ua_id options)) (with_thresholds options))) ;;!
      assetCache_set (ua_id options) asset ;;!
      ret (Ok asset)
  end.

Definition getAsset (i : string) (tenantId : option string) : M AssetState (option AssetRow) :=
  let! inMem := assetCache_get i in
  match inMem with
  | Some inMem =>
      ret (if truthy tenantId && negb (bool_decide (Some (as_tenantId inMem) = tenantId))
           then None else Some inMem)
  | None =>
      let! asset := db_get (fun d => find_where (fun a =>
        is_live a && (negb (truthy tenantId) || bool_decide (Some (as_tenantId a) = tenantId))
        && row_id i a) (assets d)) in
      match asset with
      | Some asset => assetCache_set (as_id asset) asset ;;! ret (Some asset)
      | None => ret None
      end
  end.

(** The asset that is returned is deleted. *)
Definition deleteAsset (options : DeleteAssetOptions) : M AssetState (res AssetError AssetRow) :=
  let i := da_id options in
  let! existingAsset := getAsset i (Some (da_tenantId options)) in
  match existingAsset with
  | None => ret (Err AssetUnknownAsset)
  | Some _ =>
      assetCache_delete i ;;!
      let! x := gets ext in
      if peer_uses x i then ret (Err CannotDeleteInUseAsset)
      else if walletAddress_uses x i then ret (Err CannotDeleteInUseAsset)
      else
      let! found := db_get (fun d => find_where (row_id i) (assets d)) in
      match found with
      | None => ret (Err AssetUnknownAsset)
      | Some a =>
          db_set (set_assets (update_where (row_id i) (with_deletedAt (Some (da_deletedAt options))))) ;;!
          ret (Ok (with_deletedAt (Some (da_deletedAt options)) a))
      end
  end.

(** Deleted assets are found, too. *)
Definition getAssetByCodeAndScale (code : string) (scale : Z) (tenantId : string)
  : M AssetState (option AssetRow) :=
  db_get (fun d => find_where (fun a => is_asset code scale a && of_tenant tenantId a) (assets d)).

Definition getAssetsPage (tenantId : option string) (pagination : option Pagination)
    (sortOrder : SortOrder) : M AssetState (list AssetRow) :=
  let! table := db_get assets in
  match getPage table (fun a => is_live a && (negb (truthy tenantId)
                                  || bool_decide (Some (as_tenantId a) = tenantId))) pagination sortOrder with
  | Ret page => ret page
  | Throw e => throw e
  end.

Definition getAll : M AssetState (list AssetRow) := db_get (fun d => List.filter is_live (assets d)).
End AssetService.
