(* ===== verification/AssetSpecs.v ===== *)
(** * AssetSpecs: what the operations on assets do

    Histories of the operations of [Assets]: the assets stay well formed and have accounts
    ([AssetAccounts] is what the accounting service promises about that), and, when the
    accounting service answers and no deleted asset is updated, reading through the cache is
    reading the table. *)

From S2P Require Import Prelude Shared Service Cache OpenPayments Accounting Tenants Assets.

Local Open Scope Z_scope.
Local Open Scope ts_scope.

(** The accounts of an asset, liquidity and settlement, are open; accounts are not closed,
    and what a transaction leaves of a call keeps those there were before. *)
Class AssetAccounts (X : Type) `{!AssetServices X} := {
  opened : X -> string -> Z -> Prop;
  opened_create : forall a x r x',
    createLiquidityAndLinkedSettlementAccount asset_accounting (asset_account a) ASSET x = (Ret r, x') ->
    opened x' (a_id a) (a_ledger a);
  opened_kept : forall a x i n, opened x i n ->
    opened (createLiquidityAndLinkedSettlementAccount asset_accounting (asset_account a) ASSET x).2 i n;
  opened_unwind : forall x x' i n, opened x i n -> opened (unwind x x') i n;
  opened_settings : forall tid k x i n, opened x i n -> opened (tenantSettings_get tid k x).2 i n
}.

Section Specs.
Context {X : Type} `{Uuid} `{!AssetServices X} `{!AssetAccounts X}.
Context (config : AssetConfig).
Implicit Types (s : AssetState (X := X)) (a : AssetRow).

Definition ledger_of a : Z := a_ledger (as_asset a).
Definition asset_key a : string * Z * string :=
  (a_code (as_asset a), a_scale (as_asset a), as_tenantId a).

(** Distinct identifiers, ledgers and assets of a tenant; columns in their range; accounts. *)
Record assets_inv s : Prop := {
  ai_ids : NoDup (as_id <$> assets (db s));
  ai_ledgers : NoDup (ledger_of <$> assets (db s));
  ai_keys : NoDup (asset_key <$> assets (db s));
  ai_ranges : forall a, a ∈ assets (db s) ->
    1 <= ledger_of a <= 32767 /\ ledger_of a < nextLedger (db s) /\
    -32768 <= a_scale (as_asset a) <= 255;
  ai_next : 1 <= nextLedger (db s);
  ai_opened : forall a, a ∈ assets (db s) -> opened (ext s) (as_id a) (ledger_of a)
}.

(** The cache holds live rows of the table. *)
Definition cached_asset (l : list AssetRow) (k : string) a : Prop :=
  as_id a = k /\ a ∈ l /\ is_live a = true.
Definition coherent s : Prop := entries (cached_asset (assets (db s))) (assetCache (db s)).

(** The row a lookup finds in the table. *)
Definition asset_row (i : string) (tenantId : option string) (l : list AssetRow) : option AssetRow :=
  find_where (fun a => is_live a && (negb (truthy tenantId)
    || bool_decide (Some (as_tenantId a) = tenantId)) && row_id i a) l.

Lemma row_id_true i a : row_id i a = true <-> as_id a = i.
Proof. apply bool_decide_eq_true. Qed.

Lemma asset_row_Some i tid l a :
  asset_row i tid l = Some a -> a ∈ l /\ as_id a = i /\ is_live a = true.
Proof.
  intros [Ha [[Hl _]%andb_true_iff Hi%row_id_true]%andb_true_iff]%find_where_Some. by split_and!.
Qed.

Lemma asset_row_spec i tid l a :
  NoDup (as_id <$> l) -> cached_asset l i a ->
  asset_row i tid l = if truthy tid && negb (bool_decide (Some (as_tenantId a) = tid)) then None else Some a.
Proof.
  intros Hnd (Hi & Ha & Hlive). unfold asset_row. destruct (find_where _ _) as [b|] eqn:F.
  - apply find_where_Some in F as [Hb [[Hl Ht]%andb_true_iff Hbi%row_id_true]%andb_true_iff].
    assert (b = a) as -> by (apply (unique_key as_id l); congruence || done).
    apply orb_true_iff in Ht as [Ht|Ht]; [by apply negb_true_iff in Ht; rewrite Ht|].
    by rewrite Ht, andb_false_r.
  - eapply find_where_None in F; [|exact Ha]. rewrite Hlive, (proj2 (row_id_true i a) Hi), andb_true_r in F.
    simpl in F. apply orb_false_iff in F as [F1 F2]. apply negb_false_iff in F1. by rewrite F1, F2.
Qed.

(** ** Reading *)

(** Nothing changes but the cache. *)
Definition cache_only s s' : Prop :=
  assets (db s') = assets (db s) /\ nextLedger (db s') = nextLedger (db s) /\
  now s' = now s /\ ext s' = ext s.

Lemma getAsset_spec i tid s :
  NoDup (as_id <$> assets (db s)) ->
  wp (getAsset config i tid)
    (fun r s' => cache_only s s' /\
       (coherent s -> coherent s' /\ r = Ret (asset_row i tid (assets (db s))))) s.
Proof.
  intros Hnd. unfold getAsset, assetCache_get. wp_step. wp_auto; simpl;
    destruct (cache_get_spec _ _ _ _ _ Heqp) as [Hc Hr].
  - split; [done|]. intros Hco. split; [by apply Hc|]. destruct Hr as (c & Hk & <- & _).
    by rewrite (asset_row_spec i tid _ (data c)) by (done || exact (Hco _ _ Hk)).
  - change (asset_row i tid (assets (db s)) = Some a) in Heqo1.
    destruct (asset_row_Some _ _ _ _ Heqo1) as (Ha & Hi & Hl). unfold assetCache_set. wp_auto. simpl.
    split; [done|]. intros Hco. split; [|by rewrite Heqo1]. apply entries_set; [done|].
    eapply entries_mono; [|by apply Hc]. done.
  - change (asset_row i tid (assets (db s)) = None) in Heqo1.
    split; [done|]. intros Hco. split; [by apply Hc|by rewrite Heqo1].
Qed.

(** ** Creating *)

(** A new row, which collides with none. *)
Definition appended (options : CreateAssetOptions) s a : Prop :=
  as_asset a = new_asset (as_id a) (nextLedger (db s)) options /\ is_live a = true /\
  (exists n, as_id a = v4 n) /\ as_id a ∉ as_id <$> assets (db s) /\ ledger_of a ∉ ledger_of <$> assets (db s) /\
  asset_key a ∉ asset_key <$> assets (db s) /\
  ledger_of a <= 32767 /\ -32768 <= a_scale (as_asset a) <= 255.

Lemma not_in_key {K} (key : AssetRow -> K) (p : AssetRow -> bool) (k : K) l :
  (forall b, key b = k -> p b = true) -> existsb p l = false -> k ∉ key <$> l.
Proof.
  intros Hp He (b & -> & Hb)%list_elem_of_fmap. apply not_true_iff_false in He. apply He.
  apply existsb_exists. exists b. split; [by apply list_elem_of_In|by apply Hp].
Qed.

Lemma is_asset_true code scale a :
  is_asset code scale a = true <-> a_code (as_asset a) = code /\ a_scale (as_asset a) = scale.
Proof. unfold is_asset. by rewrite andb_true_iff, bool_decide_eq_true, Z.eqb_eq. Qed.

Lemma insert_asset_spec options s :
  wp (insert_asset options)
    (fun r s' => assetCache (db s') = assetCache (db s) /\ now s' = now s /\ ext s' = ext s /\
       match r with
       | Ret a => appended options s a /\ assets (db s') = assets (db s) ++ [a] /\
                  nextLedger (db s') = nextLedger (db s) + 1
       | Throw _ => nextLedger (db s) <= nextLedger (db s')
       end) s.
Proof.
  unfold insert_asset, next_ledger. do 4 wp_step. destruct (negb _) eqn:Hfit; [by wp_step|].
  wp_step. wp_step. wp_step. destruct (nextLedger (db s) <=? 32767) eqn:Hle; [|by wp_step]. do 7 wp_step.
  cbv zeta. cbn [set_db db assets set_assets].
  destruct (255 <? ca_scale options) eqn:H255; [wp_step; simpl; split_and!; lia || done|].
  destruct (existsb (row_id (v4 (fresh s))) (assets (db s))) eqn:Hid;
    [wp_step; simpl; split_and!; lia || done|].
  destruct (existsb (fun a => a_ledger (as_asset a) =? nextLedger (db s)) (assets (db s))) eqn:Hledger;
    [wp_step; simpl; split_and!; lia || done|].
  destruct (existsb (fun a => is_asset _ _ a && _) (assets (db s))) eqn:Hkey;
    [wp_step; simpl; split_and!; lia || done|].
  destruct (negb (tenant_exists _ _)); [wp_step; simpl; split_and!; lia || done|]. wp_auto.
  split_and!; try done. zbool. unfold appended, ledger_of. simpl. split_and!; try done; try lia; [by eexists|..].
  - eapply not_in_key; [|exact Hid]. intros b. by rewrite row_id_true.
  - eapply not_in_key; [|exact Hledger]. intros b Hb. by apply Z.eqb_eq.
  - eapply not_in_key; [|exact Hkey]. intros b [= E1 E2 E3].
    cbv beta. rewrite (proj2 (is_asset_true _ _ b)) by done. by apply bool_decide_eq_true.
Qed.

(** What the transaction of a creation leaves when it returns or throws. *)
Lemma insertAsset_spec options s :
  wp (asset_transaction (insertAsset config options))
    (fun r s' => now s' = now s /\
       match r with
       | Ret a => appended options s a /\ assets (db s') = assets (db s) ++ [a] /\
                  nextLedger (db s') = nextLedger (db s) + 1 /\
                  assetCache (db s') = cache_set (assetCacheDuration config) (now s) (as_id a) a (assetCache (db s)) /\
                  exists account, createLiquidityAndLinkedSettlementAccount asset_accounting
                      (asset_account (as_asset a)) ASSET (ext s) = (Ret account, ext s')
       | Throw e => assets (db s') = assets (db s) /\ nextLedger (db s) <= nextLedger (db s') /\
           (ext s' = unwind (ext s) (ext s) /\ assetCache (db s') = assetCache (db s) \/
            exists a, appended options s a /\
              assetCache (db s') = cache_set (assetCacheDuration config) (now s) (as_id a) a (assetCache (db s)) /\
              exists x, createLiquidityAndLinkedSettlementAccount asset_accounting
                    (asset_account (as_asset a)) ASSET (ext s) = (Throw e, x) /\ ext s' = unwind (ext s) x)
       end) s.
Proof.
  apply wp_with_transaction. unfold insertAsset. wp_step. eapply wp_mono; [apply insert_asset_spec|].
  intros [a|e] s1 (Hc & Hn & Hx & Hr); cbv beta iota.
  - destruct Hr as (Ha & Hrows & Hnext). unfold assetCache_set. do 5 wp_step. apply wp_lift. simpl.
    rewrite Hx. intros [account|e] x Hcall; cbv beta iota.
    + wp_step. simpl. rewrite Hc, Hn. split_and!; try done. by exists account.
    + simpl. rewrite Hc, Hn, Hnext. split_and!; [done|done|lia|]. right. exists a. split_and!; [done..|].
      by exists x.
  - simpl. rewrite Hx, Hc. split_and!; [done..|by left].
Qed.

(** ** The invariant *)

Definition keeps_opened (x x' : X) : Prop := forall i n, opened x i n -> opened x' i n.

Lemma keeps_opened_refl x : keeps_opened x x.
Proof. by intros i n. Qed.
#[local] Hint Resolve keeps_opened_refl : core.

Lemma assets_inv_same s s' :
  assets_inv s -> assets (db s') = assets (db s) -> nextLedger (db s) <= nextLedger (db s') ->
  keeps_opened (ext s) (ext s') -> assets_inv s'.
Proof.
  intros [H1 H2 H3 H4 H5 H6] Hrows Hnext Hx. split; rewrite ?Hrows; try done; [|lia|].
  - intros a Ha. destruct (H4 a Ha) as (?&?&?). split_and!; lia.
  - intros a Ha. by apply Hx, H6.
Qed.

Lemma NoDup_snoc_key {K} (key : AssetRow -> K) l a :
  NoDup (key <$> l) -> key a ∉ key <$> l -> NoDup (key <$> (l ++ [a])).
Proof.
  intros Hnd Hnew. rewrite fmap_app. apply NoDup_app.
  split_and!; [done| |apply NoDup_singleton]. by intros k Hk ->%list_elem_of_singleton.
Qed.

Lemma assets_inv_append options s s' a :
  assets_inv s -> appended options s a -> assets (db s') = assets (db s) ++ [a] ->
  nextLedger (db s') = nextLedger (db s) + 1 -> keeps_opened (ext s) (ext s') ->
  opened (ext s') (as_id a) (ledger_of a) -> assets_inv s'.
Proof.
  intros [H1 H2 H3 H4 H5 H6] (Hasset & Hlive & _ & Hid & Hledger & Hkey & Hmax & Hscale) Hrows Hnext Hx Ha.
  assert (ledger_of a = nextLedger (db s)) as El by (unfold ledger_of; by rewrite Hasset).
  split; rewrite ?Hrows, ?Hnext; try lia; try (by apply NoDup_snoc_key).
  - intros b [Hb| ->%list_elem_of_singleton]%elem_of_app; [destruct (H4 b Hb) as (?&?&?)|];
      split_and!; lia.
  - intros b [Hb| ->%list_elem_of_singleton]%elem_of_app; [by apply Hx, H6|done].
Qed.

(** Rewriting what is neither identifier, ledger nor key. *)
Lemma assets_inv_update p f s s' :
  assets_inv s -> (forall a, as_id (f a) = as_id a /\ ledger_of (f a) = ledger_of a /\ asset_key (f a) = asset_key a) ->
  assets (db s') = update_where p f (assets (db s)) -> nextLedger (db s') = nextLedger (db s) ->
  keeps_opened (ext s) (ext s') -> assets_inv s'.
Proof.
  intros [H1 H2 H3 H4 H5 H6] Hf Hrows Hnext Hx.
  split; rewrite ?Hrows, ?Hnext; try done; try (rewrite update_where_key; [done|intros a; apply Hf]).
  - intros a (b & Hb & ->)%update_where_elem. destruct (H4 b Hb) as (?&?&?).
    destruct (Hf b) as (_ & El & [= _ Es _]). destruct (p b); rewrite ?El, ?Es; split_and!; lia.
  - intros a (b & Hb & ->)%update_where_elem. destruct (Hf b) as (Ei & El & _).
    destruct (p b); rewrite ?Ei, ?El; by apply Hx, H6.
Qed.

(** The rows of a cache after one row was rewritten and cached, or dropped from it. *)
Lemma entries_update i f l (c : Cache AssetRow) b ttl time :
  entries (cached_asset l) c -> (forall a, as_id (f a) = as_id a) ->
  b ∈ l -> as_id b = i -> is_live (f b) = true ->
  entries (cached_asset (update_where (row_id i) f l)) (cache_set ttl time i (f b) c).
Proof.
  intros Hc Hf Hb Hi Hl. apply entries_set.
  - split_and!; [by rewrite Hf| |done]. apply update_where_elem. exists b.
    by rewrite (proj2 (row_id_true i b) Hi).
  - eapply entries_mono; [|exact Hc]. intros k a (Hk & Ha & Hla) Hne. split_and!; [done| |done].
    apply update_where_elem. exists a. split; [done|].
    destruct (row_id i a) eqn:E; [apply row_id_true in E; congruence|done].
Qed.

Lemma entries_delete i f l (c : Cache AssetRow) :
  entries (cached_asset l) c -> entries (cached_asset (update_where (row_id i) f l)) (deleteKey i c).
Proof.
  intros Hc k d Hd. unfold deleteKey in Hd. destruct (decide (k = i)) as [->|Hne];
    [by rewrite lookup_delete_eq in Hd|]. rewrite lookup_delete_ne in Hd by done.
  destruct (Hc k d Hd) as (Hk & Ha & Hl). split_and!; [done| |done].
  apply update_where_elem. exists (data d). split; [done|].
  destruct (row_id i (data d)) eqn:E; [apply row_id_true in E; congruence|done].
Qed.

(** ** The effect of each operation *)

(** A creation enables the deleted asset of the tenant with this code and scale, or appends
    a new one, whose accounts are open; or it leaves the table. *)
Definition asset_created options s (r : outcome (res AssetError AssetRow)) s' : Prop :=
  match r with
  | Ret (Ok a) =>
      (exists d, d ∈ assets (db s) /\ is_live d = false /\
         asset_key d = (ca_code options, ca_scale options, ca_tenantId options) /\
         a = with_deletedAt None d /\
         assets (db s') = update_where (row_id (as_id d)) (with_deletedAt None) (assets (db s))) \/
      (appended options s a /\ assets (db s') = assets (db s) ++ [a] /\
       opened (ext s') (as_id a) (ledger_of a))
  | _ => assets (db s') = assets (db s)
  end.

Definition accounting_answers : Prop := forall (a : Asset) x, exists r x',
  createLiquidityAndLinkedSettlementAccount asset_accounting (asset_account a) ASSET x = (Ret r, x').

Lemma lacks_rates_spec options rows s :
  wp (lacks_rates config options rows)
    (fun _ s' => db s' = db s /\ now s' = now s /\ keeps_opened (ext s) (ext s')) s.
Proof.
  unfold lacks_rates. destruct (_ && _); [|by apply wp_ret].
  assert (forall r x, tenantSettings_get (ca_tenantId options) "EXCHANGE_RATES_URL" (ext s) = (r, x) ->
    keeps_opened (ext s) x) as Hx.
  { intros r x E i n Ho. apply (opened_settings (ca_tenantId options) "EXCHANGE_RATES_URL") in Ho.
    by rewrite E in Ho. }
  wp_step. apply wp_lift. intros [l|e] x E; [apply wp_ret|]; (split_and!; [done..|]); by eapply Hx.
Qed.

Lemma createAsset_spec options s :
  assets_inv s ->
  wp (createAsset config options)
    (fun r s' => assets_inv s' /\ now s' = now s /\ asset_created options s r s' /\
                 (accounting_answers -> coherent s -> coherent s')) s.
Proof.
  intros Hinv. unfold createAsset. do 4 wp_step. eapply wp_mono; [apply lacks_rates_spec|].
  intros r s1 (Hdb & Hn & Hx). unfold coherent.
  assert (assets_inv s1) as Hinv1 by (apply (assets_inv_same s s1); rewrite ?Hdb; done || lia).
  assert (assets (db s1) = assets (db s)) as Hsame by by rewrite Hdb.
  destruct r as [[]|e].
  - apply wp_ret. rewrite Hdb. by split_and!; [..|exact Hsame|].
  - destruct (find_where _ _) as [d|] eqn:F.
    + apply find_where_Some in F as [[Ht Hd]%elem_of_filter_bool [Hl Hk]%andb_true_iff].
      apply is_asset_true in Hk as [Ec Es]. apply bool_decide_eq_true in Ht. apply negb_true_iff in Hl.
      cbv zeta. unfold assetCache_set. wp_auto. simpl. rewrite Hdb. split_and!; [|done|left|].
      * eapply (assets_inv_update (row_id (as_id d)) (with_deletedAt None) s1); simpl; rewrite ?Hdb; done.
      * exists d. split_and!; try done. unfold asset_key. by rewrite Ec, Es, Ht.
      * intros _ Hco. by apply entries_update.
    + wp_step. eapply wp_mono; [apply insertAsset_spec|]. intros [a|e] s2 (Hn2 & Hr); cbv beta iota.
      * destruct Hr as (Ha & Hrows & Hnext & Hc & account & Hcall). wp_step.
        assert (opened (ext s2) (as_id a) (ledger_of a)) as Hopen by by eapply opened_create.
        assert (keeps_opened (ext s1) (ext s2)) as Hx2.
        { intros i n Ho. apply (opened_kept (as_asset a)) in Ho. by rewrite Hcall in Ho. }
        unfold appended in Ha. rewrite Hdb in Ha, Hrows, Hc. split_and!; [|congruence|by right|].
        -- eapply (assets_inv_append options s1); try done; [unfold appended|]; by rewrite Hdb.
        -- intros _ Hco. rewrite Hrows, Hc. apply entries_set.
           ++ split_and!; [done|set_solver|apply Ha].
           ++ eapply entries_mono; [|exact Hco]. intros k b (Hk & Hb & Hl) _. split_and!; [done|set_solver|done].
      * destruct Hr as (Hrows & Hnext & Hr).
        assert (assets_inv s2) as Hinv2.
        { eapply assets_inv_same; [exact Hinv1|done|done|]. intros i n Ho.
          destruct Hr as [[-> _]|(a & _ & _ & x & Hcall & ->)]; [by apply opened_unwind|].
          apply opened_unwind. done. }
        assert (accounting_answers -> coherent s -> coherent s2) as Hco.
        { intros Hans. unfold coherent. rewrite Hrows, <- Hdb.
          destruct Hr as [[_ ->]|(a & _ & _ & x & Hcall & _)]; [done|].
          destruct (Hans (as_asset a) (ext s1)) as (? & ? & Hcall'). congruence. }
        rewrite Hdb in Hrows. destruct e; first [apply wp_ret|apply wp_throw]; split_and!; congruence || done.
  - destruct e; first [apply wp_ret|apply wp_throw]; rewrite ?Hdb; by split_and!; [..|exact Hsame|].
Qed.

(** No deleted asset is updated. *)
Definition updates_live s (options : UpdateAssetOptions) : Prop :=
  forall a, a ∈ assets (db s) -> as_id a = ua_id options -> is_live a = true.

Lemma updateAsset_spec options s :
  assets_inv s ->
  wp (updateAsset config options)
    (fun _ s' => assets_inv s' /\ (updates_live s options -> coherent s -> coherent s')) s.
Proof.
  intros Hinv. unfold updateAsset, coherent. do 2 wp_step.
  destruct (find_where _ _) as [a|] eqn:F; [|by apply wp_ret].
  apply find_where_Some in F as [Ha [_ Hi%row_id_true]%andb_true_iff].
  destruct (negb _); [by apply wp_throw|]. cbv zeta. unfold assetCache_set. wp_auto. split.
  - by eapply (assets_inv_update (row_id (ua_id options)) (with_thresholds options) s).
  - intros Hlive Hco. apply (entries_update (ua_id options) (with_thresholds options)); try done.
    exact (Hlive a Ha Hi).
Qed.

Lemma deleteAsset_spec options s :
  assets_inv s ->
  wp (deleteAsset config options) (fun _ s' => assets_inv s' /\ (coherent s -> coherent s')) s.
Proof.
  intros Hinv. unfold deleteAsset, assetCache_delete. cbv zeta. wp_step.
  eapply wp_mono; [apply getAsset_spec, (ai_ids s Hinv)|].
  intros r s1 [(Hrows & Hnext & Hn & Hx) Hco].
  assert (assets_inv s1) as Hinv1 by (apply (assets_inv_same s s1); rewrite ?Hx; done || lia).
  assert (coherent s -> coherent s1) as Hco1 by (intros Hs; apply Hco, Hs). clear Hco.
  assert (coherent s1 -> entries (cached_asset (assets (db s1))) (deleteKey (da_id options) (assetCache (db s1)))) as Hdel.
  { intros Hc k d Hd. unfold deleteKey in Hd. apply lookup_delete_Some in Hd as [_ Hd]. by apply Hc. }
  assert (assets_inv (set_db (set_assetCache (deleteKey (da_id options)) (db s1)) s1)) as Hinv2
    by by destruct Hinv1.
  destruct r as [[a|]|e]; [|by apply wp_ret|done]. do 4 wp_step.
  destruct (peer_uses _ _); [apply wp_ret; split; [done|intros Hs; by apply Hdel, Hco1]|].
  destruct (walletAddress_uses _ _); [apply wp_ret; split; [done|intros Hs; by apply Hdel, Hco1]|].
  wp_step. wp_step. destruct (find_where _ _) as [b|]; wp_auto.
  - split.
    + by eapply (assets_inv_update (row_id (da_id options)) (with_deletedAt (Some (da_deletedAt options))) s1).
    + intros Hs. by apply entries_delete, Hco1.
  - split; [done|]. intros Hs. by apply Hdel, Hco1.
Qed.

(** ** Histories *)

Section Histories.
Context (allowed : AssetState (X := X) -> UpdateAssetOptions -> Prop).

Inductive asset_step : AssetState (X := X) -> AssetState (X := X) -> Prop :=
| step_createAsset options s : asset_step s (createAsset config options s).2
| step_updateAsset options s : allowed s options -> asset_step s (updateAsset config options s).2
| step_deleteAsset options s : asset_step s (deleteAsset config options s).2
| step_getAsset i tid s : asset_step s (getAsset config i tid s).2
| step_asset_others t x s : keeps_opened (ext s) x ->
    asset_step s {| db := db s; now := t; fresh := fresh s; ext := x |}.

Definition asset_init s : Prop :=
  assets (db s) = [] /\ nextLedger (db s) = 1 /\ assetCache (db s) = ∅.

Lemma asset_step_inv s s' : asset_step s s' -> assets_inv s -> assets_inv s'.
Proof.
  intros [] Hinv.
  - by apply createAsset_spec.
  - by apply updateAsset_spec.
  - by apply deleteAsset_spec.
  - destruct (getAsset_spec i tid s0 (ai_ids s0 Hinv)) as [(Hrows & Hnext & _ & Hx) _].
    apply (assets_inv_same s0); rewrite ?Hx; done || lia.
  - by apply (assets_inv_same s0).
Qed.

Lemma assets_reachable s0 s : asset_init s0 -> rtc asset_step s0 s -> assets_inv s.
Proof.
  intros (Hrows & Hnext & _) Hs. assert (assets_inv s0) as Hinv.
  { split; rewrite ?Hrows, ?Hnext; try constructor; set_solver || lia. }
  clear Hrows Hnext. induction Hs as [|s1 s2 s3 Hstep _ IH]; [done|].
  apply IH. by eapply asset_step_inv.
Qed.

(** C26. Assets stay well formed and have accounts.  In every history of operations on
    assets, whatever the accounting service answers to the creation of accounts, two rows
    with the same identifier, the same ledger, or the same code, scale and tenant are one
    row; ledgers are of two bytes and below the next one of the sequence, scales are at most
    255; and the liquidity and settlement accounts of every asset are open. *)
Theorem assets_sound s0 s a b :
  asset_init s0 -> rtc asset_step s0 s -> a ∈ assets (db s) -> b ∈ assets (db s) ->
  (as_id a = as_id b \/ ledger_of a = ledger_of b \/ asset_key a = asset_key b -> a = b) /\
  1 <= ledger_of a <= 32767 /\ ledger_of a < nextLedger (db s) /\ a_scale (as_asset a) <= 255 /\
  opened (ext s) (as_id a) (ledger_of a).
Proof.
  intros Hinit Hs Ha Hb. destruct (assets_reachable s0 s Hinit Hs) as [H1 H2 H3 H4 _ H6].
  destruct (H4 a Ha) as (?&?&?). split_and!; try lia; [|by apply H6].
  intros [E|[E|E]]; [by apply (unique_key as_id (assets (db s)))|by apply (unique_key ledger_of (assets (db s)))
    |by apply (unique_key asset_key (assets (db s)))].
Qed.

(** Creating an asset.  In every history a creation enables the deleted asset of the
    tenant with that code and scale, keeping the rest of its row, or appends one row built
    from its options, with a new identifier and the next ledger, whose accounts are then
    open; and when it answers with an error or throws, the table is as it was. *)
Theorem createAsset_effect s0 s options :
  asset_init s0 -> rtc asset_step s0 s ->
  asset_created options s (createAsset config options s).1 (createAsset config options s).2.
Proof.
  intros Hinit Hs. by apply (createAsset_spec options s), (assets_reachable s0 s Hinit Hs).
Qed.
End Histories.

Lemma coherent_step s s' :
  accounting_answers -> asset_step updates_live s s' -> assets_inv s -> coherent s -> coherent s'.
Proof.
  intros Hans [] Hinv Hco; [by apply createAsset_spec|by apply updateAsset_spec|by apply deleteAsset_spec| |done].
  by apply (getAsset_spec i tid s0 (ai_ids s0 Hinv)).
Qed.

(** The cache of assets is coherent.  When the accounting service opens the accounts it
    is asked for and no deleted asset is updated, then after any history of creations, with
    reactivations, updates, deletions, lookups and passages of time a lookup answers what
    the table holds: the asset with the identifier that is not deleted and, when a tenant is
    given, is of that tenant; or nothing. *)
Theorem getAsset_reads_table s0 s i tid :
  accounting_answers -> asset_init s0 -> rtc (asset_step updates_live) s0 s ->
  (getAsset config i tid s).1 = Ret (asset_row i tid (assets (db s))).
Proof.
  intros Hans Hinit Hs. assert (assets_inv s /\ coherent s) as [Hinv Hco].
  { assert (assets_inv s0) as Hinv0 by by apply (assets_reachable updates_live s0 s0); [|apply rtc_refl].
    assert (coherent s0) as Hco0.
    { destruct Hinit as (_ & _ & Hc). unfold coherent. rewrite Hc. apply entries_empty. }
    clear Hinit. induction Hs as [|s1 s2 s3 Hstep _ IH]; [done|].
    apply IH; [by eapply asset_step_inv|by eapply coherent_step]. }
  by apply (getAsset_spec i tid s (ai_ids s Hinv)).
Qed.
End Specs.
