(* ===== verification/AssetExamples.v ===== *)
(** * AssetExamples: a history of assets, and where the cache is wrong

    A concrete accounting service that remembers the accounts it opened, or is down; the
    witnesses of [AssetSpecs]; and histories in which the service answers with assets it
    should not. *)

From S2P Require Import Prelude Shared Service Cache OpenPayments Accounting Tenants Assets AssetSpecs.

Local Open Scope Z_scope.
Local Open Scope ts_scope.

Module AssetsExample.
#[export] Existing Instance ConcreteUuid.uuid.

(** The accounts that are open, and the assets peers use. *)
Record World := { open_accounts : list (string * Z); in_use : list string }.

Definition open_account (down : bool) (account : LiquidityAccount World) : M World (LiquidityAccount World) :=
  if down then throw_error "down"
  else modify (fun x => {| open_accounts := (account_id account, asset_ledger (account_asset account))
                             :: open_accounts x; in_use := in_use x |}) ;;! ret account.

Definition accounting (down : bool) : AccountingService World := {|
  createLiquidityAccount account _ := open_account down account;
  createLiquidityAndLinkedSettlementAccount account _ := open_account down account;
  getBalance _ := ret None; getTotalSent _ := ret None; getAccountsTotalSent _ := ret [];
  getTotalReceived _ := ret None; getAccountsTotalReceived _ := ret []; getSettlementBalance _ := ret None;
  createTransfer _ := ret (Err UnknownSourceAccount); createDeposit _ := ret (Some UnknownDestinationAccount);
  createWithdrawal _ := ret (Some UnknownSourceAccount); postWithdrawal _ := ret (Some UnknownTransfer);
  voidWithdrawal _ := ret (Some UnknownTransfer)
|}.

Definition services (down : bool) : AssetServices World := {|
  tenantSettings_get _ _ := ret [];
  asset_accounting := accounting down;
  tenant_exists _ tid := bool_decide (tid = "acme"%string);
  peer_uses x i := bool_decide (i ∈ in_use x);
  walletAddress_uses _ _ := false;
  insertAssetEvent _ := ret tt;
  unwind x _ := x
|}.

#[export] Instance services_up : AssetServices World := services false.

#[export] Program Instance accounts : AssetAccounts World := {|
  opened x i n := (i, n) ∈ open_accounts x
|}.
Next Obligation. intros a x r x' Hc. vm_compute in Hc. simplify_eq. vm_compute. set_solver. Qed.
Next Obligation. intros a x i n Ho. apply elem_of_cons. by right. Qed.
Next Obligation. done. Qed.
Next Obligation. done. Qed.

Lemma accounting_up : accounting_answers.
Proof. intros a x. by eexists _, _. Qed.

Definition config : AssetConfig :=
  {| operatorExchangeRatesUrl := None; assetCacheDuration := 15000 |}.

Notation State := (AssetState (X := World)).

Definition s0 : State :=
  {| db := {| assets := []; nextLedger := 1; assetCache := ∅ |}; now := 1000; fresh := 0;
     ext := {| open_accounts := []; in_use := [] |} |}.

Definition usd (threshold : option Z) : CreateAssetOptions :=
  {| ca_code := "USD"; ca_scale := 2; ca_tenantId := "acme"; ca_withdrawalThreshold := None;
     ca_liquidityThreshold := threshold |}.
Definition usd_id : string := v4 0.

Definition thresholds (z : option Z) : UpdateAssetOptions :=
  {| ua_id := usd_id; ua_tenantId := "acme"; ua_withdrawalThreshold := z; ua_liquidityThreshold := z |}.
Definition removal : DeleteAssetOptions :=
  {| da_id := usd_id; da_tenantId := "acme"; da_deletedAt := 2000 |}.

Definition s1 : State := (createAsset config (usd (Some 100)) s0).2.
Definition s2 : State := (updateAsset config (thresholds (Some 50)) s1).2.
Definition s3 : State := (deleteAsset config removal s2).2.
Definition s4 : State := (createAsset config (usd None) s3).2.

Lemma init : asset_init s0.
Proof. done. Qed.

Lemma live_s1 : updates_live s1 (thresholds (Some 50)).
Proof. intros a Ha _. vm_compute in Ha. by apply list_elem_of_singleton in Ha as ->. Qed.

Lemma steps_s4 : rtc (asset_step config updates_live) s0 s4.
Proof.
  apply (rtc_l _ _ s1); [apply step_createAsset|].
  apply (rtc_l _ _ s2); [apply step_updateAsset, live_s1|].
  apply (rtc_l _ _ s3); [apply step_deleteAsset|].
  apply (rtc_l _ _ s4); [apply step_createAsset|constructor].
Qed.

(** A deleted asset that is updated is in the cache and is found again. *)
Lemma deleted_asset_served :
  let s := (updateAsset config (thresholds None) s3).2 in
  exists a, (getAsset config usd_id (Some "acme"%string) s).1 = Ret (Some a) /\ as_deletedAt a = Some 2000 /\
            asset_row usd_id (Some "acme"%string) (assets (db s)) = None.
Proof. vm_compute. by eexists. Qed.

(** An asset whose accounts cannot be opened is not created, but is found in the cache. *)
Lemma phantom_asset :
  let r := createAsset (AssetServices0 := services true) config (usd None) s0 in
  (exists e, r.1 = Throw e) /\ assets (db r.2) = [] /\
  exists a, (getAsset config usd_id (Some "acme"%string) r.2).1 = Ret (Some a).
Proof. vm_compute. split_and!; by eexists. Qed.

(** The asset that is enabled again has its old thresholds. *)
Lemma reactivation_ignores_thresholds :
  exists a, (createAsset config (usd None) s3).1 = Ret (Ok a) /\
            a_liquidityThreshold (as_asset a) = Some 50.
Proof. vm_compute. by eexists. Qed.

(** A lookup by code and scale finds a deleted asset. *)
Lemma deleted_asset_by_code :
  exists a, (getAssetByCodeAndScale "USD" 2 "acme" s3).1 = Ret (Some a) /\ is_live a = false.
Proof. vm_compute. by eexists. Qed.
End AssetsExample.

Import AssetsExample.

(** ** Witnesses *)

Lemma assets_sound_witness :
  exists a, assets (db s4) = [a] /\ 1 <= ledger_of a <= 32767 /\ opened (ext s4) (as_id a) (ledger_of a).
Proof.
  eexists. split; [vm_compute; reflexivity|].
  match goal with |- context [ledger_of ?a] =>
    destruct (assets_sound config updates_live s0 s4 a a init steps_s4)
      as (_ & H1 & _ & _ & H2); [apply elem_of_cons; left; reflexivity..|]
  end. split; [exact H1|exact H2].
Defined.

Lemma createAsset_effect_witness :
  asset_created (usd None) s3 (createAsset config (usd None) s3).1 s4 /\
  exists a, (createAsset config (usd None) s3).1 = Ret (Ok a).
Proof.
  split; [|vm_compute; by eexists].
  assert (rtc (asset_step config updates_live) s0 s3) as Hs.
  { apply (rtc_l _ _ s1); [apply step_createAsset|].
    apply (rtc_l _ _ s2); [apply step_updateAsset, live_s1|].
    apply (rtc_l _ _ s3); [apply step_deleteAsset|constructor]. }
  exact (createAsset_effect config updates_live s0 s3 (usd None) init Hs).
Defined.

Lemma getAsset_reads_table_witness :
  exists a, (getAsset config usd_id None s4).1 = Ret (Some a) /\ a_code (as_asset a) = "USD"%string.
Proof.
  rewrite (getAsset_reads_table config s0 s4 usd_id None accounting_up init steps_s4).
  vm_compute. by eexists.
Defined.
