(* ===== verification/Webhook.v ===== *)
(** * Webhook: webhook events and their delivery

    Models [webhook/service.ts], [webhook/model.ts], [webhook/event/model.ts] and
    [formatSettings] of [tenants/settings/model.ts].  [D] is the type of the data
    of the events; the HTTP client, the tenant settings and the signature
    primitives are parameters.  A query with [LIMIT 1] and no [ORDER BY] returns
    any of the rows: [pick] is the database's choice. *)

From S2P Require Import Prelude Shared Service.
From S2P Require Pagination.

Local Open Scope Z_scope.
Local Open Scope ts_scope.

Definition RETRY_BACKOFF_MS : Z := 10000.

(** ** Recipients *)

Record WebhookMetadata := { sendToPosService : bool; sendToCardService : bool }.

Record Recipient := { recipientTenantId : string; metadata : option WebhookMetadata }.

Record FinalizeRecipientsOptions := {
  tenantIds : list string;
  o_sendToPosService : bool;
  o_sendToCardService : bool;
  omitTenantRecipients : bool
}.

Record WebhookConfig := {
  operatorTenantId : string;
  sendTenantWebhooksToOperator : bool;
  posWebhookServiceUrl : option string;
  cardWebhookUrl : option string;
  webhookUrl : string;
  webhookTimeout : Z;
  webhookMaxRetry : Z;
  signatureSecret : option string;
  signatureVersion : Z
}.

(** [new Set(ids)], in insertion order. *)
Fixpoint set_of (seen : list string) (ids : list string) : list string :=
  match ids with
  | [] => []
  | i :: ids => if bool_decide (i ∈ seen) then set_of seen ids else i :: set_of (i :: seen) ids
  end.

Definition buildPosRecipient (config : WebhookConfig) : list Recipient :=
  if truthy (posWebhookServiceUrl config)
  then [{| recipientTenantId := operatorTenantId config;
           metadata := Some {| sendToPosService := true; sendToCardService := false |} |}]
  else [].

Definition buildCardRecipient (config : WebhookConfig) : list Recipient :=
  if truthy (cardWebhookUrl config)
  then [{| recipientTenantId := operatorTenantId config;
           metadata := Some {| sendToPosService := false; sendToCardService := true |} |}]
  else [].

Definition finalizeWebhookRecipients (options : FinalizeRecipientsOptions) (config : WebhookConfig)
  : list Recipient :=
  let tenantIdSet := set_of [] (tenantIds options) in
  let tenantIdSet :=
    if negb (bool_decide (operatorTenantId config ∈ tenantIdSet))
       && sendTenantWebhooksToOperator config
    then tenantIdSet ++ [operatorTenantId config] else tenantIdSet in
  (if omitTenantRecipients options then []
   else map (fun tenantId => {| recipientTenantId := tenantId; metadata := None |}) tenantIdSet)
  ++ (if o_sendToPosService options then buildPosRecipient config else [])
  ++ (if o_sendToCardService options then buildCardRecipient config else []).

(** ** Events and webhooks *)

Record Withdrawal := { accountId : string; assetId : string; w_amount : Z }.

Record WebhookEvent (D : Type) := {
  ev_id : string;
  ev_type : string;
  ev_data : D;
  ev_tenantId : string;
  outgoingPaymentId : option string;
  incomingPaymentId : option string;
  walletAddressId : option string;
  ev_assetId : option string;
  peerId : option string;
  withdrawal : option Withdrawal;
  ev_createdAt : Z
}.
Arguments ev_id {D}. Arguments ev_type {D}. Arguments ev_data {D}. Arguments ev_tenantId {D}.
Arguments outgoingPaymentId {D}. Arguments incomingPaymentId {D}.
Arguments walletAddressId {D}. Arguments ev_assetId {D}. Arguments peerId {D}.
Arguments withdrawal {D}. Arguments ev_createdAt {D}.

#[global] Instance WebhookEvent_model D : Pagination.BaseModel (WebhookEvent D) :=
  { Pagination.id := ev_id; Pagination.createdAt := ev_createdAt }.

Record Webhook := {
  wh_id : string;
  eventId : string;
  attempts : Z;
  statusCode : option Z;
  processAt : option Z;
  wh_recipient : Recipient
}.

Record WebhookDb (D : Type) := { events : list (WebhookEvent D); webhooks : list Webhook }.
Arguments events {D}. Arguments webhooks {D}.

(** The rows of the [webhooks] relation of a new event. *)
Fixpoint new_webhooks `{Uuid} (fresh : nat) (now : Z) (eventId : string) (rs : list Recipient)
    : list Webhook :=
  match rs with
  | [] => []
  | r :: rs => {| wh_id := v4 fresh; eventId := eventId; attempts := 0; statusCode := None;
                  processAt := Some now; wh_recipient := r |}
               :: new_webhooks (S fresh) now eventId rs
  end.

(** Tables that hold webhook events, of a service that emits them. *)
Class HasWebhooks (D T : Type) := {
  webhookDb : T -> WebhookDb D;
  set_webhookDb : WebhookDb D -> T -> T
}.

#[global] Instance WebhookDb_self D : HasWebhooks D (WebhookDb D) :=
  { webhookDb d := d; set_webhookDb d _ := d }.

(** [WebhookEvent.query().insertGraph({ ..., webhooks })] *)
Definition insertGraph `{Uuid} {D T X} `{HasWebhooks D T} (event : string -> Z -> WebhookEvent D)
    (rs : list Recipient) : M (Svc T X) unit :=
  let! id := uuid in
  fun s =>
    let d := webhookDb (db s) in
    (Ret tt,
     {| db := set_webhookDb
          {| events := events d ++ [event id (now s)];
             webhooks := webhooks d ++ new_webhooks (Service.fresh s) (now s) id rs |} (db s);
        now := now s; fresh := Service.fresh s + length rs; ext := ext s |}).

(** ** Queries *)

Inductive WebhookByResourceIdOptions :=
| ByOutgoingPayment (id : string)
| ByIncomingPayment (id : string)
| ByWalletAddress (id : string)
| ByPeer (id : string)
| ByAsset (id : string).

Record FilterString := { f_in : option (list string); f_notIn : option (list string) }.

(** [filter?.in && filter.in.length] *)
Definition filter_in (f : option FilterString) (v : string) : bool :=
  match f ≫= f_in with
  | Some (x :: l) => bool_decide (v ∈ x :: l)
  | _ => true
  end.
Definition filter_notIn (f : option FilterString) (v : string) : bool :=
  match f ≫= f_notIn with
  | Some (x :: l) => negb (bool_decide (v ∈ x :: l))
  | _ => true
  end.

Record GetPageOptions := {
  pagination : option Pagination.Pagination;
  filter_type : option FilterString;
  sortOrder : option Pagination.SortOrder;
  p_tenantId : option string
}.

Section Queries.
Context {D : Type}.
Implicit Types d : WebhookDb D.

Definition tenant_given (tenantId : option string) (e : WebhookEvent D) : bool :=
  if truthy tenantId then bool_decide (Some (ev_tenantId e) = tenantId) else true.

Definition getWebhookEvent (id : string) (tenantId : option string) d : option (WebhookEvent D) :=
  find_where (fun e => tenant_given tenantId e && bool_decide (ev_id e = id)) (events d).

(** The resource clause of [getLatestWebhookEventByResourceId]. *)
Definition resource_clause (options : WebhookByResourceIdOptions) (e : WebhookEvent D) : bool :=
  match options with
  | ByOutgoingPayment id => bool_decide (outgoingPaymentId e = Some id)
  | ByIncomingPayment id => bool_decide (incomingPaymentId e = Some id)
  | ByWalletAddress id => bool_decide (incomingPaymentId e = Some id)
  | ByPeer id => bool_decide (incomingPaymentId e = Some id)
  | ByAsset id => bool_decide (ev_assetId e = Some id)
  end.

(** [orderBy('createdAt', 'DESC').limit(1)] *)
Definition latest_event (l : list (WebhookEvent D)) : option (WebhookEvent D) :=
  foldl (fun best e => match best with
                       | Some b => if ev_createdAt b <? ev_createdAt e then Some e else Some b
                       | None => Some e
                       end) None l.

Definition getLatestWebhookEventByResourceId (types : option (list string))
    (options : WebhookByResourceIdOptions) d : option (WebhookEvent D) :=
  latest_event (List.filter (fun e =>
    filter_in (Some {| f_in := types; f_notIn := None |}) (ev_type e) && resource_clause options e)
    (events d)).

Definition getWebhookEventsPage (options : GetPageOptions) d : outcome (list (WebhookEvent D)) :=
  Pagination.getPage (events d)
    (fun e => tenant_given (p_tenantId options) e
              && filter_in (filter_type options) (ev_type e)
              && filter_notIn (filter_type options) (ev_type e))
    (pagination options) (default Pagination.Desc (sortOrder options)).
End Queries.

(** ** Delivery *)

Record FormattedTenantSettings := {
  s_webhookUrl : option string;
  s_webhookTimeout : option string
}.

(** [formatSettings], of the keys the delivery reads. *)
Definition formatSettings (settings : list (string * string)) : FormattedTenantSettings :=
  foldl (fun acc '(key, v) =>
    if bool_decide (key = "WEBHOOK_URL"%string)
    then {| s_webhookUrl := Some v; s_webhookTimeout := s_webhookTimeout acc |}
    else if bool_decide (key = "WEBHOOK_TIMEOUT"%string)
    then {| s_webhookUrl := s_webhookUrl acc; s_webhookTimeout := Some v |}
    else acc) {| s_webhookUrl := None; s_webhookTimeout := None |} settings.

(** What [axios.post] settles to: status 200, or an [AxiosError] with the status
    of the response if there was one; any other exception is a [Throw]. *)
Inductive PostResult := Posted | AxiosError (status : option Z).

Record Request (D : Type) := {
  url : string;
  body_id : string;
  body_type : string;
  body_data : D;
  timeout : Z;
  signature : option string
}.
Arguments url {D}. Arguments body_id {D}. Arguments body_type {D}. Arguments body_data {D}.
Arguments timeout {D}. Arguments signature {D}.

Section Delivery.
Context {D X : Type} (config : WebhookConfig).
Context (axios_post : Request D -> M X PostResult).
(** [tenantSettingService.get({ tenantId })], as keys and values. *)
Context (tenantSetting_get : string -> M X (list (string * string))).
(** [(select value from "tenantSettings" where ... WEBHOOK_MAX_RETRY)::integer] *)
Context (tenantMaxRetry : X -> string -> option Z).
(** [createHmac('sha256', secret).update(payload).digest('hex')], [canonicalize]
    and the texts of numbers. *)
Context (hmac_hex : string -> string -> string) (canonicalize : WebhookEvent D -> string).
Context (Number_of_string : string -> Z) (String_of_number : Z -> string).
Context (pick : list Webhook -> option Webhook).

Definition WebhookState : Type := Svc (WebhookDb D) X.

Definition generateWebhookSignature (event : WebhookEvent D) (secret : string) (version : Z)
  : M WebhookState string :=
  let! timestamp := date_now in
  let payload := (String_of_number timestamp +:+ "." +:+ canonicalize event)%string in
  let digest := hmac_hex secret payload in
  ret ("t=" +:+ String_of_number timestamp +:+ ", v" +:+ String_of_number version +:+ "="
       +:+ digest)%string.

(** [webhook.$query(trx).patch(...)]; an undefined status code is left as it is. *)
Definition patch_webhook (w : Webhook) (attempts : Z) (statusCode processAt : option Z)
  : M WebhookState unit :=
  db_set (fun d => {| events := events d;
    webhooks := update_where (fun w' => bool_decide (wh_id w' = wh_id w))
      (fun w' => {| wh_id := wh_id w'; eventId := eventId w'; attempts := attempts;
                    statusCode := match statusCode with
                                  | Some c => Some c
                                  | None => Webhook.statusCode w'
                                  end;
                    processAt := processAt; wh_recipient := wh_recipient w' |})
      (webhooks d) |}).

Definition sendWebhook (w : Webhook) (event : WebhookEvent D) (settings : FormattedTenantSettings)
  : M WebhookState unit :=
  let! signature :=
    match signatureSecret config with
    | Some secret =>
        if truthy secret then
          let! s := generateWebhookSignature event secret (signatureVersion config) in ret (Some s)
        else ret None
    | None => ret None
    end in
  let! result := lift (axios_post
    {| url := default (webhookUrl config) (s_webhookUrl settings);
       body_id := ev_id event; body_type := ev_type event; body_data := ev_data event;
       timeout := match s_webhookTimeout settings with
                  | Some t => if truthy t then Number_of_string t else webhookTimeout config
                  | None => webhookTimeout config
                  end;
       signature := signature |}) in
  match result with
  | Posted => patch_webhook w (attempts w + 1) (Some 200) None
  | AxiosError status =>
      let attempts := attempts w + 1 in
      let! now := date_now in
      patch_webhook w attempts status (Some (now + Z.min attempts 6 * RETRY_BACKOFF_MS))
  end.

(** The rows the worker may take. *)
Definition due (s : WebhookState) (w : Webhook) : bool :=
  (attempts w <? default (webhookMaxRetry config)
                   (tenantMaxRetry (ext s) (recipientTenantId (wh_recipient w))))
  && match processAt w with Some t => t <=? now s | None => false end.

Definition sendTo (url : option string) : FormattedTenantSettings :=
  {| s_webhookUrl := url; s_webhookTimeout := None |}.

Definition processNextWebhook : M WebhookState (option string) :=
  transaction
    (let! webhook := gets (fun s => pick (List.filter (due s) (webhooks (db s)))) in
     match webhook with
     | None => ret None
     | Some w =>
         let! event := db_get (fun d =>
           find_where (fun e => bool_decide (ev_id e = eventId w)) (events d)) in
         match event with
         | None => ret None
         | Some event =>
             (if match metadata (wh_recipient w) with
                 | Some m => sendToCardService m | None => false end
              then sendWebhook w event (sendTo (cardWebhookUrl config))
              else if match metadata (wh_recipient w) with
                      | Some m => sendToPosService m | None => false end
              then sendWebhook w event (sendTo (posWebhookServiceUrl config))
              else
                let! settings := lift (tenantSetting_get (recipientTenantId (wh_recipient w))) in
                sendWebhook w event (formatSettings settings)) ;;!
             ret (Some (wh_id w))
         end
     end).

(** ** What one run of the worker does *)

Context (pick_in : forall l w, pick l = Some w -> w ∈ l).

(** An attempt at a webhook: the row before and after. *)
Record attempted (n : Z) (w w' : Webhook) : Prop := {
  at_same : wh_id w' = wh_id w /\ eventId w' = eventId w /\ wh_recipient w' = wh_recipient w;
  at_counted : attempts w' = attempts w + 1;
  at_outcome : (statusCode w' = Some 200 /\ processAt w' = None) \/
               processAt w' = Some (n + Z.min (attempts w + 1) 6 * RETRY_BACKOFF_MS)
}.

(** The table after the row [w] is rewritten by an attempt. *)
Definition one_attempt (n : Z) (w : Webhook) (d d' : WebhookDb D) : Prop :=
  events d' = events d /\
  exists f, webhooks d' = update_where (fun w' => bool_decide (wh_id w' = wh_id w)) f (webhooks d) /\
    forall w', wh_id w' = wh_id w -> attempts w' = attempts w -> attempted n w' (f w').

Definition same_clock (s s' : WebhookState) : Prop :=
  now s' = now s /\ Service.fresh s' = Service.fresh s.

Lemma sendWebhook_spec w event settings s :
  wp (sendWebhook w event settings)
    (fun r s' => same_clock s s' /\
                 match r with Ret _ => one_attempt (now s) w (db s) (db s') | Throw _ => True end) s.
Proof.
  unfold sendWebhook, generateWebhookSignature, patch_webhook, one_attempt.
  wp_auto; (split; [done|]); try exact I; (split; [done|]); eexists; (split; [reflexivity|]);
    intros w' Hid Hat; constructor; simpl; rewrite ?Hat; auto.
Qed.

(** What a run returned and did. *)
Definition processed (s : WebhookState) (r : option string) (s' : WebhookState) : Prop :=
  match r with
  | Some id => exists w, w ∈ webhooks (db s) /\ wh_id w = id /\ due s w = true /\
      one_attempt (now s) w (db s) (db s')
  | None => db s' = db s
  end.

Lemma processNextWebhook_spec s :
  wp processNextWebhook
    (fun r s' => same_clock s s' /\
       match r with Ret r => processed s r s' | Throw _ => db s' = db s end) s.
Proof.
  unfold processNextWebhook, processed. do 3 wp_step.
  destruct (pick _) as [w|] eqn:Hp; [|by wp_auto].
  apply pick_in in Hp. apply elem_of_filter_bool in Hp as [Hdue Hw].
  do 2 wp_step. destruct (find_where _ _) as [event|]; [|by wp_auto]. wp_step.
  assert (forall settings s1, db s1 = db s -> same_clock s s1 -> wp (sendWebhook w event settings)
    (fun r s' => same_clock s s' /\
       match r with Ret _ => one_attempt (now s) w (db s) (db s') | Throw _ => True end) s1) as Hsend.
  { intros settings s1 Hdb [Hn Hf]. eapply wp_mono; [apply sendWebhook_spec|].
    unfold same_clock. rewrite Hdb, Hn, Hf. done. }
  eapply wp_mono with (P := fun r s' => same_clock s s' /\
    match r with Ret _ => one_attempt (now s) w (db s) (db s') | Throw _ => True end).
  - destruct (match metadata _ with Some m => sendToCardService m | None => false end);
      [by apply Hsend|].
    destruct (match metadata _ with Some m => sendToPosService m | None => false end);
      [by apply Hsend|].
    wp_step. apply wp_lift. intros [settings|e] x Hcall; [by apply Hsend|done].
  - intros [u|e] s' [Hclock Hs]; [|done]. apply wp_ret. split; [done|]. by exists w.
Qed.

(** The table after [patch_webhook]. *)
Definition patched_rows (w : Webhook) (attempts : Z) (statusCode processAt : option Z) (d : WebhookDb D)
  : WebhookDb D :=
  {| events := events d;
     webhooks := update_where (fun w' => bool_decide (wh_id w' = wh_id w))
       (fun w' => {| wh_id := wh_id w'; eventId := eventId w'; attempts := attempts;
                     statusCode := match statusCode with
                                   | Some c => Some c
                                   | None => Webhook.statusCode w'
                                   end;
                     processAt := processAt; wh_recipient := wh_recipient w' |}) (webhooks d) |}.

(** The table after the request for [w] settled. *)
Definition settled_rows (s : WebhookState) (w : Webhook) (o : outcome PostResult) : WebhookDb D :=
  match o with
  | Ret Posted => patched_rows w (attempts w + 1) (Some 200) None (db s)
  | Ret (AxiosError status) =>
      patched_rows w (attempts w + 1) status
        (Some (now s + Z.min (attempts w + 1) 6 * RETRY_BACKOFF_MS)) (db s)
  | Throw _ => db s
  end.

Lemma sendWebhook_sends w event settings s :
  wp (sendWebhook w event settings)
    (fun r s' => exists req, body_id req = ev_id event /\
       ext s' = (axios_post req (ext s)).2 /\
       match r with
       | Ret _ => db s' = settled_rows s w (axios_post req (ext s)).1
       | Throw e => (axios_post req (ext s)).1 = Throw e
       end) s.
Proof.
  unfold sendWebhook, generateWebhookSignature, patch_webhook, settled_rows.
  wp_auto; match goal with H : axios_post ?req _ = _ |- _ =>
    exists req; split; [done|]; simpl in H |- *; rewrite H end; done.
Qed.

(** A run sends nothing and changes nothing, or it sends one request, for a webhook
    that was due, and settles its row by the answer. *)
Definition one_request (s s' : WebhookState) : Prop :=
  exists x, (x = ext s \/ exists t, x = (tenantSetting_get t (ext s)).2) /\
    ((ext s' = x /\ db s' = db s) \/
     exists w req, w ∈ webhooks (db s) /\ due s w = true /\ body_id req = eventId w /\
       ext s' = (axios_post req x).2 /\ db s' = settled_rows s w (axios_post req x).1).

Lemma processNextWebhook_sends s : wp processNextWebhook (fun _ s' => one_request s s') s.
Proof.
  unfold processNextWebhook. do 3 wp_step.
  destruct (pick _) as [w|] eqn:Hp; [|wp_auto; exists (ext s); auto].
  apply pick_in in Hp. apply elem_of_filter_bool in Hp as [Hdue Hw].
  do 2 wp_step. destruct (find_where _ _) as [event|] eqn:He; [|wp_auto; exists (ext s); auto].
  apply find_where_Some in He as [_ Hev]. apply bool_decide_eq_true in Hev. wp_step.
  assert (forall settings s1, db s1 = db s -> now s1 = now s ->
    (ext s1 = ext s \/ exists t, ext s1 = (tenantSetting_get t (ext s)).2) ->
    wp (sendWebhook w event settings)
      (fun r s' => match r with
                   | Ret _ => one_request s s'
                   | Throw _ => one_request s (set_db (db s) s') end) s1) as Hsend.
  { intros settings s1 Hdb Hn Hx. eapply wp_mono; [apply sendWebhook_sends|].
    unfold settled_rows. rewrite Hdb, Hn.
    intros [[]|e] s' (req & Hreq & Hext & Hpost); exists (ext s1); (split; [done|]); right;
      exists w, req; (split_and!; [done..|congruence|done|]); unfold settled_rows.
    - done.
    - by rewrite Hpost. }
  eapply wp_mono with (P := fun r s' => match r with
    | Ret _ => one_request s s' | Throw _ => one_request s (set_db (db s) s') end).
  - destruct (match metadata _ with Some m => sendToCardService m | None => false end);
      [apply Hsend; auto|].
    destruct (match metadata _ with Some m => sendToPosService m | None => false end);
      [apply Hsend; auto|].
    wp_step. apply wp_lift. intros [settings|e] x Hcall.
    + apply Hsend; [done..|]. right. eexists. simpl. by rewrite Hcall.
    + exists x. split; [right; eexists; by rewrite Hcall|]. by left.
  - intros [u|e] s' Hs; [by apply wp_ret|done].
Qed.

(** One run of the webhook worker is one counted attempt.  If the worker
    processed a webhook, that webhook was due (its attempts below the limit of the
    recipient tenant, its time not in the future), exactly its row changes: the
    attempt is counted, and either it was delivered with status 200 and never
    becomes due again, or it is rescheduled 10 seconds later per attempt so far, at
    most a minute.  If nothing was due, or an unexpected exception was thrown, the
    tables are unchanged. *)
Theorem processNextWebhook_attempt s r s' :
  processNextWebhook s = (r, s') ->
  match r with
  | Ret r => processed s r s'
  | Throw _ => db s' = db s
  end.
Proof. intros Hm. exact (proj2 (wp_run _ _ _ _ _ (processNextWebhook_spec s) Hm)). Qed.

(** ** Histories *)

Context `{UuidLaws}.

Inductive webhook_step : WebhookState -> WebhookState -> Prop :=
| step_processNext s : webhook_step s (processNextWebhook s).2
| step_insert event rs s : webhook_step s (insertGraph event rs s).2
| step_tick t x (s : WebhookState) :
    now s <= t -> webhook_step s {| db := db s; now := t; fresh := Service.fresh s; ext := x |}.

(** The limits any tenant configures stay below [n]. *)
Definition retry_limit (n : Z) : Prop :=
  0 <= n /\ forall x t, default (webhookMaxRetry config) (tenantMaxRetry x t) <= n.

Record webhook_inv (n : Z) (s : WebhookState) : Prop := {
  wi_ids : NoDup (wh_id <$> webhooks (db s));
  wi_fresh : forall w, w ∈ webhooks (db s) -> exists k, wh_id w = v4 k /\ (k < Service.fresh s)%nat;
  wi_attempts : forall w, w ∈ webhooks (db s) -> 0 <= attempts w <= n
}.

Lemma new_webhooks_elem w fresh now eventId rs :
  w ∈ new_webhooks fresh now eventId rs ->
  attempts w = 0 /\ exists k, wh_id w = v4 k /\ (fresh <= k < fresh + length rs)%nat.
Proof.
  revert fresh. induction rs as [|r rs IH]; intros fresh Hw; simpl in *; [set_solver|].
  apply elem_of_cons in Hw as [->|Hw].
  - split; [done|]. exists fresh. simpl. split; [done|lia].
  - destruct (IH _ Hw) as (Ha & k & Hk & Hlt). split; [done|]. exists k. split; [done|lia].
Qed.

Lemma new_webhooks_NoDup fresh now eventId rs :
  NoDup (wh_id <$> new_webhooks fresh now eventId rs).
Proof.
  revert fresh. induction rs as [|r rs IH]; intros fresh; simpl; [constructor|].
  constructor; [|apply IH]. intros (w & Hid & Hw)%list_elem_of_fmap.
  apply new_webhooks_elem in Hw as (_ & k & Hk & Hlt).
  rewrite Hk in Hid. apply v4_inj in Hid. lia.
Qed.

(** Both ways a row of the next state came about. *)
Lemma one_attempt_rows n w d d' w' :
  NoDup (wh_id <$> webhooks d) -> w ∈ webhooks d -> one_attempt n w d d' ->
  w' ∈ webhooks d' -> w' ∈ webhooks d \/ attempted n w w'.
Proof.
  intros Hnd Hw (_ & f & Hd' & Hf) Hw'. rewrite Hd' in Hw'.
  apply update_where_elem in Hw' as (w0 & Hw0 & ->). case_bool_decide as Hid; [|by left].
  right. assert (w0 = w) as -> by by eapply (unique_key wh_id). by apply Hf.
Qed.

Lemma one_attempt_ids n w d d' :
  w ∈ webhooks d -> NoDup (wh_id <$> webhooks d) -> one_attempt n w d d' ->
  wh_id <$> webhooks d' = wh_id <$> webhooks d.
Proof.
  intros Hw Hnd (_ & f & -> & Hf). revert Hw Hnd. generalize (webhooks d). intros l Hw Hnd.
  assert (forall w', w' ∈ l -> wh_id w' = wh_id w -> wh_id (f w') = wh_id w') as Hid.
  { intros w' Hw' Heq. assert (w' = w) as -> by by eapply (unique_key wh_id).
    apply (Hf w); done. }
  clear Hf Hnd Hw. induction l as [|w' l IH]; [done|].
  rewrite update_where_cons, !fmap_cons, IH by (intros; apply Hid; set_solver).
  f_equal. case_bool_decide; [apply Hid; set_solver|done].
Qed.

(** The rows after a step: kept, attempted when due, or new. *)
Lemma webhook_step_rows n s s' w' :
  webhook_step s s' -> webhook_inv n s -> w' ∈ webhooks (db s') ->
  w' ∈ webhooks (db s) \/
  (exists w, w ∈ webhooks (db s) /\ due s w = true /\ attempted (now s) w w') \/ attempts w' = 0.
Proof.
  intros Hstep Hinv Hw'. destruct Hstep as [s|event rs s|t x s Ht].
  - pose proof (processNextWebhook_spec s) as [_ Hs]. unfold wp in Hs.
    destruct (processNextWebhook s).1 as [[id|]|e]; [|rewrite Hs in Hw'; by left..].
    destruct Hs as (w & Hw & _ & Hdue & Hone).
    destruct (one_attempt_rows _ _ _ _ _ (wi_ids n s Hinv) Hw Hone Hw'); [by left|].
    right. left. by exists w.
  - simpl in Hw'. apply elem_of_app in Hw' as [Hw'|Hw']; [by left|]. right. right.
    by apply new_webhooks_elem in Hw' as [? _].
  - by left.
Qed.

Lemma webhook_step_inv n s s' :
  retry_limit n -> webhook_step s s' -> webhook_inv n s -> webhook_inv n s'.
Proof.
  intros [Hn Hlimit] Hstep Hinv.
  assert (forall w, w ∈ webhooks (db s') -> 0 <= attempts w <= n) as Hatt.
  { intros w' Hw'. destruct (webhook_step_rows n s s' w' Hstep Hinv Hw')
      as [Hw|[(w & Hw & Hdue & Ha)|Hz]]; [by apply (wi_attempts n s)| |lia].
    rewrite (at_counted _ _ _ Ha). pose proof (wi_attempts n s Hinv w Hw).
    unfold due in Hdue. zbool.
    pose proof (Hlimit (ext s) (recipientTenantId (wh_recipient w))). lia. }
  destruct Hinv as [Hids Hfresh _]. destruct Hstep as [s|event rs s|t x s Ht]; [| |by constructor].
  - pose proof (processNextWebhook_spec s) as [[_ Hf] Hs]. unfold wp in Hs.
    assert (wh_id <$> webhooks (db (processNextWebhook s).2) = wh_id <$> webhooks (db s)) as Hsame.
    { destruct (processNextWebhook s).1 as [[id|]|e]; [|by rewrite Hs..].
      destruct Hs as (w & Hw & _ & _ & Hone). by eapply one_attempt_ids. }
    constructor; [by rewrite Hsame| |done]. intros w Hw.
    assert (wh_id w ∈ wh_id <$> webhooks (db s)) as (w0 & Hid & Hw0)%list_elem_of_fmap
      by (rewrite <- Hsame; by apply list_elem_of_fmap_2).
    rewrite Hid, Hf. by apply Hfresh.
  - constructor; [| |done]; simpl.
    + rewrite fmap_app. apply NoDup_app. split_and!; [done| |apply new_webhooks_NoDup].
      intros i (w & -> & Hw)%list_elem_of_fmap (w' & Hid & Hw')%list_elem_of_fmap.
      destruct (Hfresh w Hw) as (k & Hk & Hlt). apply new_webhooks_elem in Hw' as (_ & k' & Hk' & ?).
      rewrite Hk, Hk' in Hid. apply v4_inj in Hid. lia.
    + intros w [Hw|Hw]%elem_of_app.
      * destruct (Hfresh w Hw) as (k & Hk & Hlt). exists k. split; [done|lia].
      * apply new_webhooks_elem in Hw as (_ & k & Hk & ?). exists k. split; [done|lia].
Qed.

Lemma webhook_step_done n s s' w :
  webhook_step s s' -> webhook_inv n s -> w ∈ webhooks (db s) -> processAt w = None ->
  w ∈ webhooks (db s').
Proof.
  intros Hstep Hinv Hw Hdone. destruct Hstep as [s|event rs s|t x s Ht].
  - pose proof (processNextWebhook_spec s) as [_ Hs]. unfold wp in Hs.
    destruct (processNextWebhook s).1 as [[id|]|e]; [|by rewrite Hs..].
    destruct Hs as (w0 & Hw0 & _ & Hdue & _ & f & -> & _).
    apply update_where_elem. exists w. split; [done|]. case_bool_decide as Hid; [|done].
    assert (w = w0) as -> by (eapply (unique_key wh_id); [apply (wi_ids n s Hinv)|done..]).
    unfold due in Hdue. rewrite Hdone, andb_false_r in Hdue. done.
  - apply elem_of_app. by left.
  - done.
Qed.

Lemma webhook_steps_inv n s s' :
  retry_limit n -> rtc webhook_step s s' -> webhook_inv n s -> webhook_inv n s'.
Proof. intros Hn Hs. induction Hs; eauto using webhook_step_inv. Qed.

Lemma webhook_steps_done n s s' w :
  retry_limit n -> rtc webhook_step s s' -> webhook_inv n s ->
  w ∈ webhooks (db s) -> processAt w = None -> w ∈ webhooks (db s').
Proof.
  intros Hn Hs. induction Hs as [s|s s1 s' Hstep Hs IH]; [done|].
  intros Hinv Hw Hdone. apply IH; [by eapply webhook_step_inv|by eapply webhook_step_done|done].
Qed.

Lemma not_due s w : processAt w = None -> due s w = false.
Proof. unfold due. intros ->. apply andb_false_r. Qed.
End Delivery.

(** ** Deliveries

    The requests that were sent and their answers, in order, are kept next to the
    state of the HTTP client. *)

Section Deliveries.
Context {D X : Type} (config : WebhookConfig).
Context (axios_post : Request D -> M X PostResult).
Context (tenantSetting_get : string -> M X (list (string * string))).
Context (tenantMaxRetry : X -> string -> option Z).
Context (hmac_hex : string -> string -> string) (canonicalize : WebhookEvent D -> string).
Context (Number_of_string : string -> Z) (String_of_number : Z -> string).
Context (pick : list Webhook -> option Webhook).
Context (pick_in : forall l w, pick l = Some w -> w ∈ l).
Context `{UuidLaws}.

Definition Answers : Type := list (Request D * outcome PostResult).

Definition observed_post (req : Request D) : M (Answers * X) PostResult :=
  fun '(l, x) => let '(o, x') := axios_post req x in (o, (l ++ [(req, o)], x')).

Definition observed_settings (t : string) : M (Answers * X) (list (string * string)) :=
  fun '(l, x) => let '(o, x') := tenantSetting_get t x in (o, (l, x')).

#[local] Notation Sent := (@WebhookState D (Answers * X)).

Definition sent_requests (s : Sent) : Answers := (ext s).1.

Definition worker_run : M Sent (option string) :=
  processNextWebhook config observed_post observed_settings (fun x => tenantMaxRetry x.2)
    hmac_hex canonicalize Number_of_string String_of_number pick.

Definition due_now : Sent -> Webhook -> bool := due config (fun x => tenantMaxRetry x.2).

(** The worker runs, an event is added, or time passes and the world changes. *)
Inductive delivery_step : Sent -> Sent -> Prop :=
| delivery_run s : delivery_step s (worker_run s).2
| delivery_insert event rs s : delivery_step s (insertGraph event rs s).2
| delivery_tick t x (s : Sent) :
    now s <= t ->
    delivery_step s {| db := db s; now := t; fresh := Service.fresh s; ext := (sent_requests s, x) |}.

(** How often an event was answered with 200. *)
Definition accepted_requests (e : string) (l : Answers) : Z :=
  sum_where (fun a => bool_decide (body_id a.1 = e) &&
                      match a.2 with Ret Posted => true | _ => false end) (fun _ => 1) l.

(** The webhooks of an event that are delivered. *)
Definition delivered_webhooks (e : string) (d : WebhookDb D) : Z :=
  sum_where (fun w => bool_decide (eventId w = e) && negb (is_some (processAt w)))
    (fun _ => 1) (webhooks d).

Lemma delivery_is_webhook_step s s' :
  delivery_step s s' ->
  webhook_step config observed_post observed_settings (fun x => tenantMaxRetry x.2)
    hmac_hex canonicalize Number_of_string String_of_number pick s s'.
Proof. destruct 1; by constructor. Qed.

Lemma run_sends s :
  (sent_requests (worker_run s).2 = sent_requests s /\ db (worker_run s).2 = db s) \/
  exists w req o, w ∈ webhooks (db s) /\ due_now s w = true /\ body_id req = eventId w /\
    sent_requests (worker_run s).2 = sent_requests s ++ [(req, o)] /\ db (worker_run s).2 = settled_rows s w o.
Proof.
  destruct (processNextWebhook_sends config observed_post observed_settings
    (fun x => tenantMaxRetry x.2) hmac_hex canonicalize Number_of_string String_of_number pick
    pick_in s) as (x & Hx & Hs).
  assert (x.1 = sent_requests s) as Hl.
  { destruct Hx as [->|[t ->]]; [done|]. unfold observed_settings, sent_requests.
    destruct (ext s) as [l y]. by destruct (tenantSetting_get t y). }
  unfold sent_requests, worker_run. destruct Hs as [[-> Hdb]|(w & req & Hw & Hdue & Hreq & -> & Hdb)]; [by left|].
  right. unfold observed_post in *. destruct x as [l x]. simpl in Hl. subst l.
  exists w, req, (axios_post req x).1. by destruct (axios_post req x) as [o x'].
Qed.

Lemma delivered_settled e s w o :
  NoDup (wh_id <$> webhooks (db s)) -> w ∈ webhooks (db s) -> due_now s w = true ->
  delivered_webhooks e (settled_rows s w o)
  = delivered_webhooks e (db s)
    + (if bool_decide (eventId w = e) && match o with Ret Posted => true | _ => false end
       then 1 else 0).
Proof.
  intros Hnd Hw Hdue. assert (is_some (processAt w) = true) as Hp.
  { unfold due_now, due in Hdue. destruct (processAt w); [done|]. by rewrite andb_false_r in Hdue. }
  unfold settled_rows, delivered_webhooks, patched_rows.
  destruct o as [[|st]|err]; simpl; [..|rewrite andb_false_r; lia];
    rewrite (sum_where_update wh_id) by done; simpl; rewrite Hp;
    destruct (bool_decide (eventId w = e)); simpl; lia.
Qed.

Lemma new_webhooks_due w fresh now eventId rs :
  w ∈ new_webhooks fresh now eventId rs -> processAt w = Some now.
Proof.
  revert fresh. induction rs as [|r rs IH]; intros fresh Hw; simpl in *; [set_solver|].
  apply elem_of_cons in Hw as [->|Hw]; [done|by eapply IH].
Qed.

Lemma delivery_step_accepted e n s s' :
  webhook_inv n s -> delivery_step s s' ->
  accepted_requests e (sent_requests s) = delivered_webhooks e (db s) -> accepted_requests e (sent_requests s') = delivered_webhooks e (db s').
Proof.
  intros Hinv Hstep Heq. destruct Hstep as [s|event rs s|t x s Ht]; [| |done].
  - destruct (run_sends s) as [[-> ->]|(w & req & o & Hw & Hdue & Hreq & -> & ->)]; [done|].
    rewrite delivered_settled by (done || apply (wi_ids n s Hinv)).
    unfold accepted_requests in *. rewrite sum_where_app, Heq. simpl. rewrite Hreq.
    by rewrite Z.add_0_r.
  - unfold delivered_webhooks. simpl. rewrite sum_where_app, (sum_where_none _ _ (new_webhooks _ _ _ _)).
    + by rewrite Z.add_0_r.
    + intros w Hw%new_webhooks_due. rewrite Hw. apply andb_false_r.
Qed.

Lemma deliveries_inv n s0 s :
  retry_limit config (fun x : Answers * X => tenantMaxRetry x.2) n ->
  webhooks (db s0) = [] -> sent_requests s0 = [] -> rtc delivery_step s0 s ->
  webhook_inv n s /\ forall e, accepted_requests e (sent_requests s) = delivered_webhooks e (db s).
Proof.
  intros Hn Hempty Hlog Hs.
  assert (webhook_inv n s0 /\ forall e, accepted_requests e (sent_requests s0) = delivered_webhooks e (db s0)) as [Hi Ha].
  { unfold delivered_webhooks. rewrite Hlog, Hempty. split; [|done].
    constructor; rewrite Hempty; [constructor|set_solver|set_solver]. }
  clear Hempty Hlog. induction Hs as [s|s s1 s' Hstep Hs IH]; [done|]. apply IH.
  - eapply webhook_step_inv; [exact pick_in|typeclasses eauto|exact Hn|by apply delivery_is_webhook_step|done].
  - intros e. by eapply delivery_step_accepted.
Qed.

Lemma settled_delivered n (s : Sent) w :
  webhook_inv n s -> w ∈ webhooks (db s) ->
  exists w', w' ∈ webhooks (settled_rows s w (Ret Posted)) /\ wh_id w' = wh_id w /\
    eventId w' = eventId w /\ statusCode w' = Some 200 /\ processAt w' = None.
Proof.
  intros Hinv Hw.
  exists {| wh_id := wh_id w; eventId := eventId w; attempts := attempts w + 1;
            statusCode := Some 200; processAt := None; wh_recipient := wh_recipient w |}.
  split; [|done]. simpl. apply update_where_elem. exists w. by rewrite bool_decide_eq_true_2.
Qed.

(** C38. A webhook is sent a bounded number of times, and never again once its
    request was answered with status 200.  In every history of worker runs, of new
    events and of time passing (the tenants' settings and the receivers change as
    they like), started with no webhook and no request sent:

    - the attempts of a webhook never exceed [n], the largest limit configured;
    - for every event, the requests that were answered with 200 are as many as the
      event's webhooks with no time left to be processed at;
    - a run of the worker sends nothing and writes nothing, or it sends one request,
      with the event of a webhook that was due.  If that is answered with 200 the
      webhook's row then has status 200 and no time to be processed at, it is still
      that row after any further history, and the worker's query, [due], no longer
      takes it.

    What the worker writes is taken to be committed: a database that fails after the
    request was answered leaves the webhook due. *)
Theorem webhook_delivery n s0 s :
  retry_limit config (fun x : Answers * X => tenantMaxRetry x.2) n ->
  webhooks (db s0) = [] -> sent_requests s0 = [] -> rtc delivery_step s0 s ->
  (forall w, w ∈ webhooks (db s) -> 0 <= attempts w <= n) /\
  (forall e, accepted_requests e (sent_requests s) = delivered_webhooks e (db s)) /\
  ((sent_requests (worker_run s).2 = sent_requests s /\ db (worker_run s).2 = db s) \/
   exists w req o, w ∈ webhooks (db s) /\ due_now s w = true /\ body_id req = eventId w /\
     sent_requests (worker_run s).2 = sent_requests s ++ [(req, o)] /\
     (o = Ret Posted ->
      exists w', wh_id w' = wh_id w /\ statusCode w' = Some 200 /\ processAt w' = None /\
        forall s', rtc delivery_step (worker_run s).2 s' ->
          w' ∈ webhooks (db s') /\ due_now s' w' = false)).
Proof.
  intros Hn Hempty Hlog Hs. destruct (deliveries_inv n s0 s Hn Hempty Hlog Hs) as [Hinv Hacc].
  split_and!; [apply Hinv|done|].
  destruct (run_sends s) as [?|(w & req & o & Hw & Hdue & Hreq & Hlog' & Hdb)]; [by left|].
  right. exists w, req, o. split_and!; [done..|]. intros ->.
  destruct (settled_delivered n s w Hinv Hw) as (w' & Hw' & Hid & _ & Hst & Hpa).
  exists w'. split_and!; [done..|]. intros s' Hs'.
  split; [|by apply not_due]. rewrite <- Hdb in Hw'.
  eapply webhook_steps_done; [exact pick_in|typeclasses eauto|exact Hn| | |exact Hw'|done].
  - eapply rtc_congruence with (f := id); [|exact Hs']. exact delivery_is_webhook_step.
  - eapply webhook_step_inv; [exact pick_in|typeclasses eauto|exact Hn|apply delivery_is_webhook_step; constructor|done].
Qed.
End Deliveries.

(** ** Recipients *)

Lemma set_of_elem seen ids i : i ∈ set_of seen ids <-> i ∈ ids /\ i ∉ seen.
Proof.
  revert seen. induction ids as [|j ids IH]; intros seen; simpl; [set_solver|].
  case_bool_decide; [rewrite IH; set_solver|]. rewrite elem_of_cons, IH.
  destruct (decide (i = j)) as [->|]; set_solver.
Qed.

Lemma set_of_NoDup seen ids : NoDup (set_of seen ids).
Proof.
  revert seen. induction ids as [|j ids IH]; intros seen; simpl; [constructor|].
  case_bool_decide; [apply IH|]. constructor; [|apply IH]. rewrite set_of_elem. set_solver.
Qed.

Definition tenant_set (options : FinalizeRecipientsOptions) (config : WebhookConfig) : list string :=
  let ids := set_of [] (tenantIds options) in
  if negb (bool_decide (operatorTenantId config ∈ ids)) && sendTenantWebhooksToOperator config
  then ids ++ [operatorTenantId config] else ids.

Lemma tenant_set_elem options config t :
  t ∈ tenant_set options config <->
  t ∈ tenantIds options \/
  t = operatorTenantId config /\ sendTenantWebhooksToOperator config = true.
Proof.
  unfold tenant_set. pose proof (set_of_elem [] (tenantIds options)) as Hids.
  case_bool_decide as Hop; destruct (sendTenantWebhooksToOperator config); simpl;
    rewrite ?elem_of_app, ?list_elem_of_singleton, Hids; try set_solver.
Qed.

Lemma tenant_set_NoDup options config : NoDup (tenant_set options config).
Proof.
  unfold tenant_set. case_bool_decide; simpl; [apply set_of_NoDup|].
  destruct (sendTenantWebhooksToOperator config); [|apply set_of_NoDup].
  apply NoDup_app. split_and!; [apply set_of_NoDup|set_solver|apply NoDup_singleton].
Qed.

Lemma recipients_tenants options config :
  exists ts,
    recipientTenantId <$> List.filter (fun r => negb (is_some (metadata r)))
                            (finalizeWebhookRecipients options config)
    = (if omitTenantRecipients options then [] else ts) /\
    NoDup ts /\
    forall t, t ∈ ts <-> t ∈ tenantIds options \/
      t = operatorTenantId config /\ sendTenantWebhooksToOperator config = true.
Proof.
  exists (tenant_set options config). split_and!;
    [|apply tenant_set_NoDup|apply tenant_set_elem].
  unfold finalizeWebhookRecipients. fold (tenant_set options config).
  rewrite !List.filter_app, !fmap_app. unfold buildPosRecipient, buildCardRecipient.
  transitivity ((if omitTenantRecipients options then [] else tenant_set options config)
                ++ [] ++ [] : list string); [|by rewrite !app_nil_r].
  f_equal; [|f_equal; repeat case_match; done].
  destruct (omitTenantRecipients options); [done|].
  induction (tenant_set options config) as [|t ts IH]; [done|]. simpl. f_equal. exact IH.
Qed.

(** Every tenant of an event is notified once.  Unless the tenants are omitted,
    the recipients without metadata are exactly the given tenants, plus the operator
    when it wants the tenants' webhooks, each of them once however often it was
    given; the card and point of sale services are notified through the operator,
    only when asked for and configured. *)
Theorem finalizeWebhookRecipients_once options config :
  let rs := finalizeWebhookRecipients options config in
  let tenants := recipientTenantId <$> List.filter (fun r => negb (is_some (metadata r))) rs in
  NoDup tenants /\
  (forall t, t ∈ tenants <-> omitTenantRecipients options = false /\
     (t ∈ tenantIds options \/
      t = operatorTenantId config /\ sendTenantWebhooksToOperator config = true)) /\
  (forall r, r ∈ rs -> is_some (metadata r) = true ->
     recipientTenantId r = operatorTenantId config /\
     (truthy (cardWebhookUrl config) = true /\ o_sendToCardService options = true \/
      truthy (posWebhookServiceUrl config) = true /\ o_sendToPosService options = true)).
Proof.
  cbv zeta. destruct (recipients_tenants options config) as (ts & Hts & Hnd & Hin).
  rewrite Hts. split_and!.
  - destruct (omitTenantRecipients options); [constructor|done].
  - intros t. destruct (omitTenantRecipients options); [set_solver|]. rewrite Hin. tauto.
  - intros r Hr Hm. apply elem_of_app in Hr as [Hr|Hr].
    { destruct (omitTenantRecipients options); [set_solver|].
      by apply list_elem_of_fmap in Hr as (t & -> & _). }
    apply elem_of_app in Hr as [Hr|Hr];
      unfold buildPosRecipient, buildCardRecipient in Hr; repeat case_match; try set_solver;
      apply list_elem_of_singleton in Hr as ->; auto.
Qed.

(** The latest event of a wallet address or a peer is looked up by incoming
    payment: the query for a wallet address is the query for an incoming payment. *)
Lemma latest_by_wallet_is_by_incoming {D} types id (d : WebhookDb D) :
  getLatestWebhookEventByResourceId types (ByWalletAddress id) d
  = getLatestWebhookEventByResourceId types (ByIncomingPayment id) d /\
  getLatestWebhookEventByResourceId types (ByPeer id) d
  = getLatestWebhookEventByResourceId types (ByIncomingPayment id) d.
Proof. done. Qed.

(** ** Witnesses: a first request that fails and a second that succeeds *)

Module Example.
#[local] Existing Instance ConcreteUuid.uuid.

Definition W : Type := WebhookState (D:=nat) (X:=nat).

Definition config : WebhookConfig :=
  {| operatorTenantId := "op"; sendTenantWebhooksToOperator := false;
     posWebhookServiceUrl := None; cardWebhookUrl := None; webhookUrl := "http://op";
     webhookTimeout := 2000; webhookMaxRetry := 10; signatureSecret := None;
     signatureVersion := 1 |}.

(** The state of the client is how many requests it saw; the first fails. *)
Definition post (r : Request nat) : M nat PostResult :=
  fun n => (Ret (match n with O => AxiosError (Some 500) | S _ => Posted end), S n).
Definition settings (tenantId : string) : M nat (list (string * string)) := ret [].
Definition pick (l : list Webhook) : option Webhook := head l.

Lemma pick_in l w : pick l = Some w -> w ∈ l.
Proof. destruct l as [|w' l]; [done|]. intros [= ->]. set_solver. Qed.

Definition event (id : string) (now : Z) : WebhookEvent nat :=
  {| ev_id := id; ev_type := "asset.liquidity_low"; ev_data := 3%nat; ev_tenantId := "t";
     outgoingPaymentId := None; incomingPaymentId := None; walletAddressId := Some "w"%string;
     ev_assetId := None; peerId := None; withdrawal := None; ev_createdAt := now |}.

Definition s0 : W :=
  {| db := {| events := []; webhooks := [] |}; now := 1000; fresh := 0; ext := 0%nat |}.
Definition s1 : W :=
  (insertGraph event (finalizeWebhookRecipients
     {| tenantIds := ["t"; "t"]%string; o_sendToPosService := true; o_sendToCardService := false;
        omitTenantRecipients := false |} config) s0).2.

Definition run : M W (option string) :=
  processNextWebhook config post settings (fun _ _ => None) (fun _ _ => ""%string)
    (fun _ => ""%string) (fun _ => 0) (fun _ => ""%string) pick.

Definition s2 : W := (run s1).2.
Definition s3 : W := {| db := db s2; now := 11000; fresh := fresh s2; ext := ext s2 |}.
Definition s4 : W := (run s3).2.

Definition rows (s : W) : list (Z * option Z * option Z) :=
  (fun w => (attempts w, statusCode w, processAt w)) <$> webhooks (db s).

(** The same run with its requests kept. *)
Definition S0 : WebhookState (D:=nat) (X:=Answers (D:=nat) * nat) :=
  {| db := {| events := []; webhooks := [] |}; now := 1000; fresh := 0; ext := ([], 0%nat) |}.
Definition S1 := (insertGraph event (finalizeWebhookRecipients
     {| tenantIds := ["t"; "t"]%string; o_sendToPosService := true; o_sendToCardService := false;
        omitTenantRecipients := false |} config) S0).2.

Definition observed_run := worker_run config post settings (fun _ _ => None)
  (fun _ _ => ""%string) (fun _ => ""%string) (fun _ => 0) (fun _ => ""%string) pick.
Definition S2 := (observed_run S1).2.
Definition S3 : WebhookState (D:=nat) (X:=Answers (D:=nat) * nat) :=
  {| db := db S2; now := 11000; fresh := fresh S2; ext := (sent_requests S2, (ext S2).2) |}.
Definition S4 := (observed_run S3).2.

Lemma S3_reachable : rtc (delivery_step (H:=ConcreteUuid.uuid) config post settings
  (fun _ _ => None) (fun _ _ => ""%string) (fun _ => ""%string) (fun _ => 0)
  (fun _ => ""%string) pick) S0 S3.
Proof.
  apply (rtc_l _ _ S1); [apply delivery_insert|]. apply (rtc_l _ _ S2); [apply delivery_run|].
  apply (rtc_l _ _ S3); [apply delivery_tick; vm_compute; congruence|constructor].
Qed.
End Example.

#[local] Existing Instance ConcreteUuid.uuid.
#[local] Existing Instance ConcreteUuid.uuid_laws.

Lemma processNextWebhook_attempt_witness :
  Example.rows Example.s2 = [(1, Some 500, Some 11000)] /\
  exists w, w ∈ webhooks (db Example.s1) /\ wh_id w = "id-1"%string /\
    due Example.config (fun _ _ => None) Example.s1 w = true /\
    one_attempt 1000 w (db Example.s1) (db Example.s2).
Proof.
  split; [by vm_compute|].
  exact (processNextWebhook_attempt Example.config Example.post Example.settings
    (fun _ _ => None) (fun _ _ => ""%string) (fun _ => ""%string) (fun _ => 0)
    (fun _ => ""%string) Example.pick Example.pick_in Example.s1 (Ret (Some "id-1"%string))
    Example.s2 ltac:(by vm_compute)).
Defined.

(** The first request fails and the second is answered with 200: the state before
    the second run has no delivered webhook, and the run delivers it. *)
Lemma webhook_delivery_witness :
  (fun a => (body_id a.1, a.2)) <$> sent_requests Example.S4
  = [("id-"%string, Ret (AxiosError (Some 500))); ("id-"%string, Ret Posted)] /\
  Example.rows Example.s4 = [(2, Some 200, None)] /\
  (forall w, w ∈ webhooks (db Example.S3) -> 0 <= attempts w <= 10) /\
  (forall e, accepted_requests e (sent_requests Example.S3) = delivered_webhooks e (db Example.S3)).
Proof.
  destruct (webhook_delivery Example.config Example.post Example.settings
    (fun _ _ => None) (fun _ _ => ""%string) (fun _ => ""%string) (fun _ => 0)
    (fun _ => ""%string) Example.pick Example.pick_in 10 Example.S0 Example.S3
    ltac:(split; [lia|intros; simpl; lia]) eq_refl eq_refl Example.S3_reachable)
    as (Hatt & Hacc & _).
  split; [by vm_compute|]. split; [by vm_compute|]. by split.
Defined.

(** There is an event of the wallet address, and the query does not find it. *)
Lemma latest_by_wallet_misses :
  length (events (db Example.s1)) = 1%nat /\
  getLatestWebhookEventByResourceId None (ByWalletAddress "w") (db Example.s1) = None.
Proof. by vm_compute. Qed.
