(* ===== verification/PaymentMethod.v ===== *)
(** * PaymentMethod: what a payment method promises to quotes and payments

    Models [payment-method/handler/service.ts]: the interface of a payment
    method, and the handler that picks one.  [sound_quote] is the contract
    between a payment method and the quote service; [LocalPayment] proves it of its
    [getQuote]. *)

From S2P Require Import Prelude JsNumber OpenPayments.

Local Open Scope Z_scope.
Local Open Scope ts_scope.

Record StartQuoteOptions := {
  quoteId : option string;
  sq_walletAddress : WalletAddress;
  sq_debitAmount : option Amount;
  sq_receiveAmount : option Amount;
  sq_receiver : Receiver
}.

Record PaymentQuote := {
  pq_walletAddress : WalletAddress;
  pq_receiver : Receiver;
  pq_debitAmount : Amount;
  pq_receiveAmount : Amount;
  pq_estimatedExchangeRate : number
}.

(** [P] is the type of outgoing payments. *)
Record PayOptions (P : Type) := {
  po_receiver : Receiver;
  po_outgoingPayment : P;
  finalDebitAmount : Z;
  finalReceiveAmount : Z
}.
Arguments po_receiver {P}. Arguments po_outgoingPayment {P}.
Arguments finalDebitAmount {P}. Arguments finalReceiveAmount {P}.

(** The methods of a payment method, over the state [X] of the backend. *)
Record PaymentMethodService (X P : Type) := {
  getQuote : StartQuoteOptions -> M X PaymentQuote;
  pay : PayOptions P -> M X unit
}.
Arguments getQuote {X P}. Arguments pay {X P}.

Inductive PaymentMethod := ILP | LOCAL.

Definition PaymentMethodHandlerService (X P : Type) : Type :=
  PaymentMethod -> PaymentMethodService X P.

Definition createPaymentMethodHandlerService {X P}
    (ilpPaymentService localPaymentService : PaymentMethodService X P)
  : PaymentMethodHandlerService X P :=
  fun method => match method with
                | ILP => ilpPaymentService
                | LOCAL => localPaymentService
                end.

(** ** The contract of [getQuote] *)

(** [a] is an amount of the wallet's asset, or of the receiver's. *)
Definition in_wallet_asset (w : WalletAddress) (a : Amount) : Prop :=
  assetCode a = a_code (wa_asset w) /\ assetScale a = a_scale (wa_asset w).
Definition in_receiver_asset (r : Receiver) (a : Amount) : Prop :=
  assetCode a = r_assetCode r /\ assetScale a = r_assetScale r.

(** What a payment method answers with: positive amounts of the right assets,
    and a debit of at most what the caller wanted to spend. *)
Record sound_quote (options : StartQuoteOptions) (q : PaymentQuote) : Prop := {
  sound_debit_positive : 0 < value (pq_debitAmount q);
  sound_receive_positive : 0 < value (pq_receiveAmount q);
  sound_debit_asset : in_wallet_asset (sq_walletAddress options) (pq_debitAmount q);
  sound_receive_asset : in_receiver_asset (sq_receiver options) (pq_receiveAmount q);
  sound_debit_limit : forall d, sq_debitAmount options = Some d ->
    value (pq_debitAmount q) <= value d
}.

Class SoundPaymentMethod {X P} (service : PaymentMethodService X P) : Prop :=
  getQuote_sound : forall options x q x',
    getQuote service options x = (Ret q, x') -> sound_quote options q.

#[global] Instance handler_sound {X P} (ilp local : PaymentMethodService X P) method
    `{!SoundPaymentMethod ilp, !SoundPaymentMethod local} :
  SoundPaymentMethod (createPaymentMethodHandlerService ilp local method).
Proof. by destruct method. Qed.
