(* ===== verification/LocalPayment.v ===== *)
(** * LocalPayment: payments between accounts of one node

    Models [payment-method/local/service.ts].  The rates, accounting and incoming
    payment services are those of the backend; [X] is the state they share. *)

From Stdlib Require Import Ascii.
From S2P Require Import Prelude JsNumber OpenPayments Service PaymentMethod Accounting.
From S2P Require Shared Rates PsqlLedger PsqlAccounting.
Import Rates (RateConvertOpts, RateAsset, ConvertError, ConvertResults).

Local Open Scope Z_scope.
Local Open Scope ts_scope.

(** [errorToMessage] of the errors [pay] reports is only logged; the message of
    the exception is the same for all. *)
Definition quoting_error : exn :=
  PaymentMethodHandlerError "Received error during local quoting" (Some false) None None.
Definition payment_error : exn :=
  PaymentMethodHandlerError "Received error during local payment" (Some false) None None.
Definition bad_state_error : exn :=
  PaymentMethodHandlerError "Bad Incoming Payment State" (Some false) None None.

(** [id.split('/').pop()] *)
Fixpoint split_last (acc s : string) : string :=
  match s with
  | EmptyString => acc
  | String c s =>
      if bool_decide (c = "/"%char) then split_last EmptyString s
      else split_last (acc +:+ String c EmptyString)%string s
  end.
Definition last_segment (s : string) : string := split_last EmptyString s.

Section LocalPayment.
(** Outgoing and incoming payments, and their liquidity accounts. *)
Context {X P I : Type}.
Context (outgoing_account : P -> LiquidityAccount X) (incoming_account : I -> LiquidityAccount X).
Context (isExpiredOrComplete : I -> bool).
(** [ratesService.convertSource] and [convertDestination]. *)
Context (rates_convert : RateConvertOpts -> option string -> M X (res ConvertError ConvertResults)).
Context (accountingService : AccountingService X).
(** [incomingPaymentService.get({ id })] *)
Context (incomingPayment_get : string -> M X (option I)).
Context (tigerBeetleTwoPhaseTimeout : Z).

Definition convert (opts : RateConvertOpts) (tenantId : string)
  : M X (res ConvertError ConvertResults) :=
  try_catch (rates_convert opts (Some tenantId)) (fun _ => throw quoting_error).

(** The conversion of one of the three amounts, or the error. *)
Definition convert_or_throw (amount : Rates.ConvertAmount) (w : WalletAddress)
    (destination : RateAsset) : M X ConvertResults :=
  let! convertResults := convert
    {| Rates.rc_amount := amount;
       Rates.sourceAsset :=
         {| Rates.code := a_code (wa_asset w); Rates.scale := a_scale (wa_asset w) |};
       Rates.destinationAsset := destination |} (wa_tenantId w) in
  match convertResults with
  | Err _ => throw quoting_error
  | Ok r => ret r
  end.

(** The error of a quote that is not positive: what one unit costs. *)
Definition throw_non_positive {A} (exchangeRate : number) : M X A :=
  let! minSendAmount := bigint_of (bigint_ceil (num_div (of_bigint 1) exchangeRate)) in
  throw (PaymentMethodHandlerError "Received error during local quoting" (Some false)
           (Some QuoteNonPositiveReceiveAmount) (Some minSendAmount)).

Definition quote_amounts (options : StartQuoteOptions) : M X (Z * Z * number) :=
  let receiver := sq_receiver options in
  let w := sq_walletAddress options in
  match sq_debitAmount options with
  | Some debitAmount =>
      let! r := convert_or_throw (Rates.SourceAmount (value debitAmount)) w
        {| Rates.code := r_assetCode receiver; Rates.scale := r_assetScale receiver |} in
      ret (value debitAmount, Rates.cr_amount r, Rates.scaledExchangeRate r)
  | None =>
      match sq_receiveAmount options with
      | Some receiveAmount =>
          let! r := convert_or_throw (Rates.DestinationAmount (value receiveAmount)) w
            {| Rates.code := assetCode receiveAmount; Rates.scale := assetScale receiveAmount |} in
          ret (Rates.cr_amount r, value receiveAmount, Rates.scaledExchangeRate r)
      | None =>
          match receiver_incomingAmount receiver with
          | Some incomingAmount =>
              let! r := convert_or_throw (Rates.DestinationAmount (value incomingAmount)) w
                {| Rates.code := assetCode incomingAmount; Rates.scale := assetScale incomingAmount |} in
              ret (Rates.cr_amount r, value incomingAmount, Rates.scaledExchangeRate r)
          | None => throw quoting_error
          end
      end
  end.

Definition local_getQuote (options : StartQuoteOptions) : M X PaymentQuote :=
  let! '(debitAmountValue, receiveAmountValue, exchangeRate) := quote_amounts options in
  if debitAmountValue <=? 0 then throw_non_positive exchangeRate
  else if receiveAmountValue <=? 0 then throw_non_positive exchangeRate
  else
    let w := sq_walletAddress options in
    ret {| pq_receiver := sq_receiver options;
           pq_walletAddress := w;
           pq_estimatedExchangeRate := exchangeRate;
           pq_debitAmount := {| value := debitAmountValue; assetCode := a_code (wa_asset w);
                                assetScale := a_scale (wa_asset w) |};
           pq_receiveAmount := {| value := receiveAmountValue;
                                  assetCode := r_assetCode (sq_receiver options);
                                  assetScale := r_assetScale (sq_receiver options) |} |}.

Definition transferOptions (options : PayOptions P) (incomingPayment : I) : TransferOptions X :=
  {| sourceAccount := outgoing_account (po_outgoingPayment options);
     destinationAccount := incoming_account incomingPayment;
     sourceAmount := finalDebitAmount options;
     destinationAmount := Some (finalReceiveAmount options);
     transferType := Some TRANSFER;
     timeout := tigerBeetleTwoPhaseTimeout |}.

Definition local_pay (options : PayOptions P) : M X unit :=
  let incomingPaymentId := last_segment (r_incomingPaymentId (po_receiver options)) in
  if negb (truthy incomingPaymentId) then throw payment_error
  else
  let! incomingPayment := incomingPayment_get incomingPaymentId in
  match incomingPayment with
  | None => throw payment_error
  | Some incomingPayment =>
      if isExpiredOrComplete incomingPayment then throw bad_state_error
      else
      try_catch
        (createLiquidityAccount accountingService (incoming_account incomingPayment) INCOMING ;;!
         ret tt)
        (fun err => if isAccountAlreadyExistsError err then ret tt else throw payment_error) ;;!
      let! trxOrError := createTransfer accountingService (transferOptions options incomingPayment) in
      match trxOrError with
      | Err _ => throw payment_error
      | Ok trx =>
          let! transferError := post trx in
          match transferError with
          | Some _ => throw payment_error
          | None => ret tt
          end
      end
  end.

Definition createLocalPaymentService : PaymentMethodService X P :=
  {| getQuote := local_getQuote; pay := local_pay |}.

(** ** Quotes *)

Definition debit_respected (options : StartQuoteOptions) (debitAmountValue : Z) : Prop :=
  forall d, sq_debitAmount options = Some d -> debitAmountValue <= value d.

(** The exceptions of a quote: an error that must not be retried, or the
    [RangeError] of a rate without a finite reciprocal or product. *)
Definition quote_failure (e : exn) : Prop :=
  match e with
  | PaymentMethodHandlerError _ retryable _ _ => retryable = Some false
  | JsError name _ => name = "RangeError"%string
  | _ => False
  end.

Lemma convert_or_throw_spec amount w d x :
  wp (convert_or_throw amount w d)
    (fun r _ => match r with Ret _ => True | Throw e => quote_failure e end) x.
Proof.
  unfold convert_or_throw, convert. do 2 wp_step. apply wp_call. intros [r|e] x' _; by wp_auto.
Qed.

Lemma quote_amounts_spec options x :
  wp (quote_amounts options)
    (fun r _ => match r with
                | Ret (d, _, _) => debit_respected options d
                | Throw e => quote_failure e
                end) x.
Proof.
  unfold quote_amounts, debit_respected. repeat case_match; subst; try by wp_auto.
  all: wp_step; eapply wp_mono; [apply convert_or_throw_spec|]; intros [r|e] x' He; wp_auto.
  all: try done; intros; simplify_eq; lia.
Qed.

Lemma throw_non_positive_spec {A} rate x :
  wp (throw_non_positive (A:=A) rate)
    (fun r _ => match r with Ret _ => False | Throw e => quote_failure e end) x.
Proof. unfold throw_non_positive, bigint_of. by wp_auto. Qed.

Lemma local_getQuote_spec options x :
  wp (local_getQuote options)
    (fun r _ => match r with Ret q => sound_quote options q | Throw e => quote_failure e end) x.
Proof.
  unfold local_getQuote. wp_step. eapply wp_mono; [apply quote_amounts_spec|].
  intros [[[d r] rate]|e] x' Hd; [|done]. wp_auto.
  - eapply wp_mono; [apply throw_non_positive_spec|]. by intros [q|e] x''.
  - eapply wp_mono; [apply throw_non_positive_spec|]. by intros [q|e] x''.
  - zbool. constructor; simpl; [lia|lia|done|done|apply Hd].
Qed.

#[global] Instance local_sound : SoundPaymentMethod createLocalPaymentService.
Proof. intros options x q x' Hq. exact (wp_run _ _ _ _ _ (local_getQuote_spec options x) Hq). Qed.

(** The local payment method keeps the contract of quotes.  A quote it
    returns has positive amounts in the wallet's and the receiver's assets and
    debits no more than the requested amount; otherwise it throws an error marked
    not retryable (or the [RangeError] of a degenerate rate), never anything of the
    rates service. *)
Theorem local_getQuote_sound options x :
  match (getQuote createLocalPaymentService options x).1 with
  | Ret q => sound_quote options q
  | Throw e => quote_failure e
  end.
Proof. exact (local_getQuote_spec options x). Qed.

(** ** Payments *)

Definition local_incoming_id (options : PayOptions P) : string :=
  last_segment (r_incomingPaymentId (po_receiver options)).

(** The transfer [pay] settled, from the state before it to the state after. *)
Definition settled (options : PayOptions P) (x x' : X) : Prop :=
  exists incomingPayment trx x1 x2 x3,
    incomingPayment_get (local_incoming_id options) x = (Ret (Some incomingPayment), x1) /\
    isExpiredOrComplete incomingPayment = false /\
    createTransfer accountingService (transferOptions options incomingPayment) x2
    = (Ret (Ok trx), x3) /\
    post trx x3 = (Ret None, x').

(** What [pay] throws: an error that must not be retried, or what the lookup of
    the incoming payment or the ledger threw. *)
Definition pay_failure (options : PayOptions P) (x : X) (e : exn) : Prop :=
  e = payment_error \/ e = bad_state_error \/
  (exists x', incomingPayment_get (local_incoming_id options) x = (Throw e, x')) \/
  (exists incomingPayment x1 x2,
     createTransfer accountingService (transferOptions options incomingPayment) x1 = (Throw e, x2)) \/
  (exists incomingPayment trx x1 x2 x3,
     createTransfer accountingService (transferOptions options incomingPayment) x1
     = (Ret (Ok trx), x2) /\ post trx x2 = (Throw e, x3)).

Lemma createLiquidityAccount_caught a x :
  wp (try_catch (createLiquidityAccount accountingService a INCOMING ;;! ret tt)
        (fun err => if isAccountAlreadyExistsError err then ret tt else throw payment_error))
    (fun r _ => match r with Ret _ => True | Throw e => e = payment_error end) x.
Proof.
  wp_step. wp_step. apply wp_call. intros [r|e] x' _; [by wp_auto|].
  by wp_auto.
Qed.

Lemma local_pay_spec options x :
  wp (local_pay options)
    (fun r x' => match r with
                 | Ret _ => settled options x x'
                 | Throw e => pay_failure options x e
                 end) x.
Proof.
  unfold local_pay, pay_failure, settled. fold (local_incoming_id options).
  destruct (truthy (local_incoming_id options)); simpl; [|by wp_auto; left].
  wp_step. apply wp_call. intros [[i|]|e] x1 Hget; [|by wp_auto; left|by eauto 10].
  destruct (isExpiredOrComplete i) eqn:Ei; [by wp_auto; auto|].
  wp_step. eapply wp_mono; [apply createLiquidityAccount_caught|].
  intros [_u|e] x2 He; [|by left].
  wp_step. apply wp_call. intros [[trx|err]|e] x3 Ht; [|by wp_auto; left|].
  - wp_step. apply wp_call. intros [[err|]|e] x4 Hp; [by wp_auto; left| |].
    + wp_auto. by exists i, trx, x1, x2, x3.
    + do 4 right. by exists i, trx, x2, x3, x4.
  - do 3 right. left. by exists i, x2, x3.
Qed.

(** A local payment settles the exact amounts or reports a final error.  If
    [pay] returns, the incoming payment was found, neither expired nor complete,
    and a transfer of exactly the final debit and receive amounts from the outgoing
    to the incoming payment was created and posted; the account of the incoming
    payment may already have existed.  If it throws, the error is one that must not
    be retried, unless the incoming payment service or the ledger itself threw. *)
Theorem local_pay_settles options x r x' :
  pay createLocalPaymentService options x = (r, x') ->
  match r with
  | Ret _ => settled options x x'
  | Throw e => pay_failure options x e
  end.
Proof. intros Hm. exact (wp_run _ _ _ _ _ (local_pay_spec options x) Hm). Qed.
End LocalPayment.

(** ** A witness on the Postgres ledger *)

Module Example.
#[local] Existing Instance Shared.ConcreteUuid.uuid.
Import PsqlAccounting.Example.

Definition W : Type := PsqlLedger.World unit.

Definition dollars : Asset :=
  {| a_id := "usd"; a_code := "USD"; a_scale := 2; a_ledger := 1; a_tenantId := "tenant";
     a_withdrawalThreshold := None; a_liquidityThreshold := None |}.

Definition receiver : Receiver :=
  {| r_assetCode := "USD"; r_assetScale := 2; r_isLocal := true;
     r_incomingPaymentId := "https://host/tenant/incoming-payments/invoice";
     r_completed := false; r_expiresAt := None; r_incomingAmountValue := None;
     r_receivedAmountValue := 0;
     r_methods := [{| method_type := "ilp"; ilpAddress := "test.a"; sharedSecret := "" |}] |}.

Definition service : PaymentMethodService W unit :=
  createLocalPaymentService (fun _ => account "peer" usd) (fun id => account id usd)
    (fun _ : string => false)
    (fun opts _ => ret (Ok {| Rates.cr_amount := Rates.opts_amount opts;
                              Rates.scaledExchangeRate := of_bigint 1 |}))
    (PsqlAccounting.createAccountingService None)
    (fun id => ret (Some id)) 30.

Definition options : PayOptions unit :=
  {| po_receiver := receiver; po_outgoingPayment := tt;
     finalDebitAmount := 100; finalReceiveAmount := 97 |}.

Definition paid : W := (pay service options funded).2.
End Example.

#[local] Existing Instance Shared.ConcreteUuid.uuid.

Lemma local_pay_settles_witness :
  pay Example.service Example.options PsqlAccounting.Example.funded = (Ret tt, Example.paid) /\
  (PsqlAccounting.getLiquidityAccountBalance "invoice" Example.paid).1 = Ret (Some 97) /\
  settled (fun _ => PsqlAccounting.Example.account "peer" PsqlAccounting.Example.usd)
    (fun id => PsqlAccounting.Example.account id PsqlAccounting.Example.usd)
    (fun _ : string => false) (PsqlAccounting.createAccountingService None)
    (fun id => ret (Some id)) 30 Example.options PsqlAccounting.Example.funded Example.paid.
Proof.
  assert (pay Example.service Example.options PsqlAccounting.Example.funded
          = (Ret tt, Example.paid)) as Hpay by (by vm_compute).
  split; [exact Hpay|]. split; [by vm_compute|].
  exact (local_pay_settles _ _ _ _ _ _ _ _ _ _ _ Hpay).
Defined.
