(* ===== verification/IlpPayment.v ===== *)
(** * IlpPayment: payments over Interledger

    Models [payment-method/ilp/service.ts], the rows it keeps between a quote and its
    payment ([ilp/quote-details/model.ts]), the prices it gives the library
    ([ilp/rates/index.ts]) and the plugin it hands out ([ilp/ilp_plugin.ts],
    [makeIlpPlugin] of [index.ts]).  The streaming itself is the package
    [@interledger/pay], whose functions are parameters over the state [N] of the
    network.  [ilp_sound] discharges the contract of [PaymentMethod]: with
    [LocalPayment], both methods of the handler keep it. *)

From S2P Require Import Prelude JsNumber OpenPayments Shared Service PaymentMethod.
From S2P Require Rates.

Local Open Scope Z_scope.
Local Open Scope ts_scope.

Definition Buffer : Type := list Byte.byte.

(** ** Ratios of the library *)

(** [Pay.Ratio]: the parts [a.value] and [b.value]; [Ratio_of a b] is
    [Ratio.of(Int.from(a), Int.from(b))]. *)
Class RatioLib := {
  Ratio : Type;
  ratio_a : Ratio -> Z;
  ratio_b : Ratio -> Z;
  Ratio_of : Z -> Z -> Ratio;
  isPositive : Ratio -> bool;
  valueOf : Ratio -> number;
  reciprocal : Ratio -> Ratio
}.

(** A ratio is its two parts. *)
Class RatioLaws `{RatioLib} : Prop :=
  Ratio_of_parts : forall r, Ratio_of (ratio_a r) (ratio_b r) = r.

(** ** [ilp/rates/index.ts] *)

(** [Object.entries(rates)] has every key once. *)
Definition convertRatesToIlpPrices (rates : Rates.Rates) : gmap string number :=
  map_fold (fun key value ilpPrices =>
      <[key := if num_ltb (of_bigint 0) value then num_div (of_bigint 1) value
               else of_bigint 0]> ilpPrices)
    {[ Rates.base rates := of_bigint 1 ]} (Rates.rates_of rates).

(** ** [ilp/ilp_plugin.ts] *)

Record IlpPlugin (N : Type) := {
  connect : M N unit;
  disconnect : M N unit;
  isConnected : bool;
  sendData : Buffer -> M N Buffer;
  registerDataHandler : (Buffer -> M N Buffer) -> M N unit;
  deregisterDataHandler : M N unit
}.
Arguments connect {N}. Arguments disconnect {N}. Arguments isConnected {N}.
Arguments sendData {N}. Arguments registerDataHandler {N}. Arguments deregisterDataHandler {N}.

(** [OutgoingIlpPlugin] *)
Definition createIlpPlugin {N} (sendData : Buffer -> M N Buffer) : IlpPlugin N :=
  {| connect := ret tt; disconnect := ret tt; isConnected := true; sendData := sendData;
     registerDataHandler := fun _ => ret tt; deregisterDataHandler := ret tt |}.

(** The accounts a plugin sends from: [ConnectorAccount]. *)
Inductive SourceAccount (P : Type) := FromWalletAddress (w : WalletAddress) | FromPayment (p : P).
Arguments FromWalletAddress {P}. Arguments FromPayment {P}.

Record IlpPluginOptions (P : Type) := {
  io_sourceAccount : SourceAccount P;
  io_unfulfillable : option bool
}.
Arguments io_sourceAccount {P}. Arguments io_unfulfillable {P}.

(** [makeIlpPlugin] of the container, over the connector's [handleIlpData]. *)
Definition makeConnectorPlugin {N P} (handleIlpData : SourceAccount P -> bool -> Buffer -> M N Buffer)
    (options : IlpPluginOptions P) : IlpPlugin N :=
  createIlpPlugin (fun data =>
    handleIlpData (io_sourceAccount options) (default false (io_unfulfillable options)) data).

(** ** The data the library takes and gives *)

Record ResolvedPayment := {
  destinationAddress : string;
  rp_assetCode : string;
  rp_assetScale : Z;
  rp_sharedSecret : Buffer;
  requestCounter : Z
}.

Record QuoteOptions (N : Type) := {
  qo_plugin : IlpPlugin N;
  qo_destination : ResolvedPayment;
  qo_sourceCode : string;
  qo_sourceScale : Z;
  amountToSend : option Z;
  amountToDeliver : option Z;
  qo_slippage : number;
  qo_prices : gmap string number
}.
Arguments qo_plugin {N}. Arguments qo_destination {N}. Arguments qo_sourceCode {N}.
Arguments qo_sourceScale {N}. Arguments amountToSend {N}. Arguments amountToDeliver {N}.
Arguments qo_slippage {N}. Arguments qo_prices {N}.

Inductive PaymentType := FixedSend | FixedDelivery.

(** [Pay.Quote]; [startQuote] also sets the type of the payment. *)
Record PayQuote `{RatioLib} := {
  paymentType : PaymentType;
  maxPacketAmount : Z;
  maxSourceAmount : Z;
  minDeliveryAmount : Z;
  minExchangeRate : Ratio;
  lowEstimatedExchangeRate : Ratio;
  highEstimatedExchangeRate : Ratio
}.

(** [Pay.Receipt] *)
Record Receipt := {
  receipt_error : option exn;
  amountSent : Z;
  amountDelivered : Z
}.

(** ** Errors *)

(** The members of [Pay.PaymentError] that the source names. *)
Inductive PaymentErrorMember :=
| ConnectorError
| EstablishmentFailed
| InsufficientExchangeRate
| RateProbeFailed
| IdleTimeout
| ClosedByReceiver.

Definition retryableMembers : list PaymentErrorMember :=
  [ConnectorError; EstablishmentFailed; InsufficientExchangeRate; RateProbeFailed; IdleTimeout;
   ClosedByReceiver].

(** What this service throws; the description is for the log. *)
Definition ilp_error (message : string) (retryable : bool) : exn :=
  PaymentMethodHandlerError message (Some retryable) None None.
Definition quoting_message : string := "Received error during ILP quoting".
Definition streaming_message : string := "Could not start ILP streaming".
Definition pay_message : string := "Received error during ILP pay".

(** ** [ilp/quote-details/model.ts] *)

Record IlpQuoteDetails := {
  d_id : string;
  d_quoteId : string;
  d_maxPacketAmount : Z;
  minExchangeRateNumerator : Z;
  minExchangeRateDenominator : Z;
  lowEstimatedExchangeRateNumerator : Z;
  lowEstimatedExchangeRateDenominator : Z;
  highEstimatedExchangeRateNumerator : Z;
  highEstimatedExchangeRateDenominator : Z;
  d_createdAt : Z
}.

Definition MAX_INT64 : Z := 9223372036854775807.

(** [decimal(64, 0)] *)
Definition fits_decimal (z : Z) : bool := Z.abs z <? 10 ^ 64.

(** A destructuring reads the getters; that of the upper rate throws. *)
Definition get_minExchangeRate `{RatioLib} (d : IlpQuoteDetails) : Ratio :=
  Ratio_of (minExchangeRateNumerator d) (minExchangeRateDenominator d).
Definition get_lowEstimatedExchangeRate `{RatioLib} (d : IlpQuoteDetails) : Ratio :=
  Ratio_of (lowEstimatedExchangeRateNumerator d) (lowEstimatedExchangeRateDenominator d).
Definition get_highEstimatedExchangeRate `{RatioLib} {S} (d : IlpQuoteDetails) : M S Ratio :=
  let highEstimatedExchangeRate :=
    Ratio_of (highEstimatedExchangeRateNumerator d) (highEstimatedExchangeRateDenominator d) in
  if negb (isPositive highEstimatedExchangeRate)
  then throw_error "high estimated exchange rate is not positive"
  else ret highEstimatedExchangeRate.

Section IlpPayment.
Context {N P : Type} `{RatioLib} `{Uuid}.
(** [deps.config.slippage] *)
Context (slippage : number).
(** [ratesService.rates] *)
Context (ratesService_rates : string -> string -> M N Rates.Rates).
Context (makeIlpPlugin : IlpPluginOptions P -> IlpPlugin N).
(** [Pay.startQuote], [Pay.pay] and [Pay.closeConnection] *)
Context (startQuote : QuoteOptions N -> M N PayQuote).
Context (Pay_pay : IlpPlugin N -> ResolvedPayment -> PayQuote -> M N Receipt).
Context (closeConnection : IlpPlugin N -> ResolvedPayment -> M N unit).
(** The values of the members of [Pay.PaymentError]. *)
Context (PaymentError : PaymentErrorMember -> string).
(** [ilp-packet] and [base64url] *)
Context (isValidIlpAddress : string -> bool) (base64url_toBuffer : string -> Buffer).
(** [outgoingPayment.quote.id] *)
Context (payment_quoteId : P -> string).

(** The rows of the table [ilpQuoteDetails], and the network. *)
Definition IlpState : Type := Svc (list IlpQuoteDetails) N.

Definition retryableIlpErrors (err : string) : bool :=
  bool_decide (err ∈ PaymentError <$> retryableMembers).

(** Everything that is thrown but a bare string is an [Error]. *)
Definition canRetryError (err : exn) : bool :=
  match err with ThrownString s => retryableIlpErrors s | _ => true end.

(** [BigInt(Math.max(Math.ceil(reciprocal), 2))] *)
Definition ilp_calculateMinSendAmount {S} (quote : PayQuote) : M S Z :=
  let! minSendAmount :=
    bigint_of (bigint_ceil (valueOf (reciprocal (highEstimatedExchangeRate quote)))) in
  ret (Z.max minSendAmount 2).

Definition resolveIlpDestination {S} (receiver : Receiver) : M S ResolvedPayment :=
  match List.find (fun method => bool_decide (method_type method = "ilp"%string))
          (r_methods receiver) with
  | None => throw (ilp_error "Invalid ILP payment method on receiver" false)
  | Some ilpPaymentMethod =>
      if negb (isValidIlpAddress (ilpAddress ilpPaymentMethod))
      then throw (ilp_error "Invalid ILP payment method on receiver" false)
      else ret {| destinationAddress := ilpAddress ilpPaymentMethod;
                  rp_assetCode := r_assetCode receiver;
                  rp_assetScale := r_assetScale receiver;
                  rp_sharedSecret := base64url_toBuffer (sharedSecret ilpPaymentMethod);
                  requestCounter := 0 |}
  end.

(** [a || b] on optional amounts: [0n] is falsy. *)
Definition or_amount (a b : option Z) : option Z := if truthy a then a else b.

Definition quoteOptions (options : StartQuoteOptions) (plugin : IlpPlugin N)
    (destination : ResolvedPayment) (prices : gmap string number) : QuoteOptions N :=
  let asset := wa_asset (sq_walletAddress options) in
  {| qo_plugin := plugin; qo_destination := destination;
     qo_sourceCode := a_code asset; qo_sourceScale := a_scale asset;
     amountToSend := value <$> sq_debitAmount options;
     amountToDeliver :=
       match sq_debitAmount options with
       | Some _ => None
       | None => or_amount (value <$> sq_receiveAmount options)
                   (value <$> receiver_incomingAmount (sq_receiver options))
       end;
     qo_slippage := slippage; qo_prices := prices |}.

Definition with_amountToSend (o : QuoteOptions N) (amount : Z) : QuoteOptions N :=
  {| qo_plugin := qo_plugin o; qo_destination := qo_destination o;
     qo_sourceCode := qo_sourceCode o; qo_sourceScale := qo_sourceScale o;
     amountToSend := Some amount; amountToDeliver := amountToDeliver o;
     qo_slippage := qo_slippage o; qo_prices := qo_prices o |}.

Definition throw_ilp_non_positive {A} (ilpQuote : PayQuote) : M IlpState A :=
  let! minSendAmount := ilp_calculateMinSendAmount ilpQuote in
  throw (PaymentMethodHandlerError quoting_message (Some false)
           (Some QuoteNonPositiveReceiveAmount) (Some minSendAmount)).

(** The library's quote, and the checks of it. *)
Definition checked_quote (options : QuoteOptions N) : M IlpState PayQuote :=
  let! ilpQuote :=
    try_catch (lift (startQuote options))
      (fun err => throw (ilp_error quoting_message (canRetryError err))) in
  if maxSourceAmount ilpQuote <=? 0 then throw (ilp_error quoting_message false)
  else if minDeliveryAmount ilpQuote <=? 0 then throw_ilp_non_positive ilpQuote
  else
    let estimatedReceiveAmount :=
      num_mul (of_bigint (maxSourceAmount ilpQuote)) (valueOf (highEstimatedExchangeRate ilpQuote)) in
    if num_ltb estimatedReceiveAmount (of_bigint 1) then throw_ilp_non_positive ilpQuote
    else ret ilpQuote.

(** The row of a quote, through the setters of the model. *)
Definition quoteDetails (id quoteId : string) (createdAt : Z) (ilpQuote : PayQuote)
  : IlpQuoteDetails :=
  {| d_id := id; d_quoteId := quoteId;
     d_maxPacketAmount :=
       if MAX_INT64 <? maxPacketAmount ilpQuote then MAX_INT64 else maxPacketAmount ilpQuote;
     minExchangeRateNumerator := ratio_a (minExchangeRate ilpQuote);
     minExchangeRateDenominator := ratio_b (minExchangeRate ilpQuote);
     lowEstimatedExchangeRateNumerator := ratio_a (lowEstimatedExchangeRate ilpQuote);
     lowEstimatedExchangeRateDenominator := ratio_b (lowEstimatedExchangeRate ilpQuote);
     highEstimatedExchangeRateNumerator := ratio_a (highEstimatedExchangeRate ilpQuote);
     highEstimatedExchangeRateDenominator := ratio_b (highEstimatedExchangeRate ilpQuote);
     d_createdAt := createdAt |}.

(** The columns hold the row. *)
Definition storable (d : IlpQuoteDetails) : bool :=
  validate (d_quoteId d)
  && (- MAX_INT64 - 1 <=? d_maxPacketAmount d)
  && forallb fits_decimal
       [minExchangeRateNumerator d; minExchangeRateDenominator d;
        lowEstimatedExchangeRateNumerator d; lowEstimatedExchangeRateDenominator d;
        highEstimatedExchangeRateNumerator d; highEstimatedExchangeRateDenominator d].

Definition insertQuoteDetails (quoteId : string) (ilpQuote : PayQuote) : M IlpState unit :=
  let! id := uuid in
  let! now := date_now in
  let! rows := db_get (fun rows => rows) in
  let row := quoteDetails id quoteId now ilpQuote in
  if negb (storable row) then throw (JsError "DataError" "")
  else if existsb (fun d => bool_decide (d_quoteId d = quoteId)) rows
  then throw (UniqueViolationError "ilpquotedetails_quoteid_unique")
  else db_set (fun rows => rows ++ [row]).

Definition paymentQuote (options : StartQuoteOptions) (ilpQuote : PayQuote) : PaymentQuote :=
  let asset := wa_asset (sq_walletAddress options) in
  {| pq_receiver := sq_receiver options; pq_walletAddress := sq_walletAddress options;
     pq_estimatedExchangeRate := valueOf (lowEstimatedExchangeRate ilpQuote);
     pq_debitAmount := {| value := maxSourceAmount ilpQuote; assetCode := a_code asset;
                          assetScale := a_scale asset |};
     pq_receiveAmount := {| value := minDeliveryAmount ilpQuote;
                            assetCode := r_assetCode (sq_receiver options);
                            assetScale := r_assetScale (sq_receiver options) |} |}.

(** [Pay.closeConnection] and [plugin.disconnect]; what they throw is logged. *)
Definition release (plugin : IlpPlugin N) (destination : ResolvedPayment) : M IlpState unit :=
  try_catch (lift (closeConnection plugin destination)) (fun _ => ret tt) ;;!
  try_catch (lift (disconnect plugin)) (fun _ => ret tt).

Definition quote_over (options : StartQuoteOptions) (quoteId : string) (rates : Rates.Rates)
    (plugin : IlpPlugin N) (destination : ResolvedPayment) : M IlpState PaymentQuote :=
  lift (connect plugin) ;;!
  let quoteOptions :=
    quoteOptions options plugin destination (convertRatesToIlpPrices rates) in
  (* Probing quote to get the exchange rate even if the amount to send is 0 because of fees *)
  if bool_decide (amountToSend quoteOptions = Some 0) then
    let! ilpQuote := lift (startQuote (with_amountToSend quoteOptions 1)) in
    throw_ilp_non_positive ilpQuote
  else
    let! ilpQuote := checked_quote quoteOptions in
    insertQuoteDetails quoteId ilpQuote ;;!
    ret (paymentQuote options ilpQuote).

Definition ilp_getQuote (options : StartQuoteOptions) : M IlpState PaymentQuote :=
  match quoteId options with
  | Some quoteId =>
      if negb (truthy quoteId) then throw (ilp_error quoting_message false) else
      let w := sq_walletAddress options in
      let! rates :=
        try_catch (lift (ratesService_rates (a_code (wa_asset w)) (wa_tenantId w)))
          (fun _ => throw (ilp_error quoting_message false)) in
      let plugin := makeIlpPlugin {| io_sourceAccount := FromWalletAddress w;
                                     io_unfulfillable := Some true |} in
      let! destination := resolveIlpDestination (sq_receiver options) in
      finally (quote_over options quoteId rates plugin destination) (release plugin destination)
  | None => throw (ilp_error quoting_message false)
  end.

Definition find_details (quoteId : string) (rows : list IlpQuoteDetails)
  : option IlpQuoteDetails :=
  find_where (fun d => bool_decide (d_quoteId d = quoteId)) rows.

(** The quote that is paid, from the stored details and the final amounts. *)
Definition payable_quote {S} (options : PayOptions P) (d : IlpQuoteDetails) : M S PayQuote :=
  let! highEstimatedExchangeRate := get_highEstimatedExchangeRate d in
  ret {| maxPacketAmount := d_maxPacketAmount d;
         paymentType := FixedDelivery;
         maxSourceAmount := finalDebitAmount options;
         minDeliveryAmount := finalReceiveAmount options;
         lowEstimatedExchangeRate := get_lowEstimatedExchangeRate d;
         highEstimatedExchangeRate := highEstimatedExchangeRate;
         minExchangeRate := get_minExchangeRate d |}.

Definition pay_over (plugin : IlpPlugin N) (destination : ResolvedPayment) (quote : PayQuote)
  : M IlpState unit :=
  try_catch
    (let! receipt := lift (Pay_pay plugin destination quote) in
     match receipt_error receipt with
     | Some error => throw error
     | None => ret tt
     end)
    (fun err => throw (ilp_error pay_message (canRetryError err))).

Definition ilp_pay (options : PayOptions P) : M IlpState unit :=
  if finalReceiveAmount options <=? 0 then throw (ilp_error streaming_message false)
  else if finalDebitAmount options <=? 0 then throw (ilp_error streaming_message false)
  else
  let! ilpQuoteDetails :=
    db_get (find_details (payment_quoteId (po_outgoingPayment options))) in
  match ilpQuoteDetails with
  | None => throw (ilp_error "Could not find required ILP Quote Details" false)
  | Some ilpQuoteDetails =>
      let! quote := payable_quote options ilpQuoteDetails in
      let plugin := makeIlpPlugin {| io_sourceAccount := FromPayment (po_outgoingPayment options);
                                     io_unfulfillable := None |} in
      let! destination := resolveIlpDestination (po_receiver options) in
      finally (pay_over plugin destination quote) (release plugin destination)
  end.

Definition createIlpPaymentService : PaymentMethodService IlpState P :=
  {| getQuote := ilp_getQuote; pay := ilp_pay |}.

(** ** The pieces *)

(** What the network becomes when a plugin is let go. *)
Definition released (plugin : IlpPlugin N) (destination : ResolvedPayment) (y : N) : N :=
  (disconnect plugin (closeConnection plugin destination y).2).2.

Lemma release_spec plugin destination s :
  release plugin destination s = (Ret tt, set_ext (released plugin destination (ext s)) s).
Proof.
  unfold release, released, lift, try_catch, bind. simpl.
  destruct (closeConnection plugin destination (ext s)) as [[u|e] y]; simpl;
    by destruct (disconnect plugin y) as [[[]|e'] y'].
Qed.

(** A use of a plugin ends with its release, and then with its own outcome. *)
Lemma finally_release {A} (m : M IlpState A) plugin destination s :
  finally m (release plugin destination) s =
  ((m s).1, set_ext (released plugin destination (ext (m s).2)) (m s).2).
Proof. unfold finally. destruct (m s) as [r s']. by rewrite release_spec. Qed.

(** An error of this service that must not be retried. *)
Definition refused (e : exn) : Prop :=
  exists message code minSendAmount,
    e = PaymentMethodHandlerError message (Some false) code minSendAmount.

Lemma refused_ilp_error message : refused (ilp_error message false).
Proof. by exists message, None, None. Qed.
#[local] Hint Resolve refused_ilp_error : core.

Lemma resolveIlpDestination_spec {S} receiver (s : S) :
  (resolveIlpDestination receiver s).2 = s /\
  forall e, (resolveIlpDestination receiver s).1 = Throw e -> refused e.
Proof.
  unfold resolveIlpDestination. split_ifs; simpl; split; try done; intros e [= <-];
    apply refused_ilp_error.
Qed.

(** What a quote can end with when it does not return. *)
Inductive ilp_quote_error : exn -> Prop :=
| Quote_refused e : refused e -> ilp_quote_error e
| Quote_failed o y err y' :
    startQuote o y = (Throw err, y') ->
    ilp_quote_error (ilp_error quoting_message (canRetryError err))
| Probe_failed o y err y' :
    amountToSend o = Some 1 -> startQuote o y = (Throw err, y') -> ilp_quote_error err
| Connect_failed (plugin : IlpPlugin N) y err y' : connect plugin y = (Throw err, y') -> ilp_quote_error err
| Rate_degenerate : ilp_quote_error (JsError "RangeError" "")
| Not_stored e : e = JsError "DataError" "" \/
    e = UniqueViolationError "ilpquotedetails_quoteid_unique" -> ilp_quote_error e.
#[local] Hint Constructors ilp_quote_error : core.

(** The tables and the clock are as they were. *)
Definition untouched (s s' : IlpState) : Prop := db s' = db s /\ now s' = now s.

Lemma throw_ilp_non_positive_spec {A} ilpQuote s :
  wp (throw_ilp_non_positive (A:=A) ilpQuote)
    (fun r s' => s' = s /\ match r with Ret _ => False | Throw e => ilp_quote_error e end) s.
Proof.
  unfold throw_ilp_non_positive, ilp_calculateMinSendAmount, bigint_of. wp_auto; split; auto.
  apply Quote_refused. by eexists _, _, _.
Qed.

(** A checked quote is the library's, positive on both sides. *)
Lemma checked_quote_spec o s :
  wp (checked_quote o)
    (fun r s' => untouched s s' /\
       match r with
       | Ret q => (exists y y', startQuote o y = (Ret q, y')) /\
                  0 < maxSourceAmount q /\ 0 < minDeliveryAmount q
       | Throw e => ilp_quote_error e
       end) s.
Proof.
  unfold checked_quote, untouched. do 3 wp_step.
  2: { wp_step. split; [done|]. by eapply Quote_failed. }
  rename a into q. wp_auto; zbool; [by eauto| | |].
  1, 2: eapply wp_mono; [apply throw_ilp_non_positive_spec|]; by intros [u|e] s' [-> He].
  split; [done|]. split; [by eauto|lia].
Qed.

Lemma insertQuoteDetails_spec id q s :
  wp (insertQuoteDetails id q)
    (fun r s' => now s' = now s /\
       match r with
       | Ret _ => exists rowId,
           db s' = db s ++ [quoteDetails rowId id (now s) q] /\
           id ∉ d_quoteId <$> db s
       | Throw e => db s' = db s /\ ilp_quote_error e
       end) s.
Proof.
  unfold insertQuoteDetails. wp_auto; [by eauto|by eauto|].
  split; [done|]. eexists. split; [done|]. intros (d & -> & Hd)%list_elem_of_fmap.
  rewrite <- not_true_iff_false in Heqb0. apply Heqb0, existsb_exists. exists d.
  rewrite bool_decide_eq_true. split; [by apply list_elem_of_In|done].
Qed.

(** ** Quotes *)

(** The library does not send more than it was asked to, and its upper rate is
    positive, as its type says. *)
Context (startQuote_fixed_send : forall o y q y' amount,
  startQuote o y = (Ret q, y') -> amountToSend o = Some amount -> maxSourceAmount q <= amount).
Context (startQuote_high_positive : forall o y q y',
  startQuote o y = (Ret q, y') -> isPositive (highEstimatedExchangeRate q) = true).

(** [q] is the answer with the library's quote [ilpQuote], whose details were stored
    for the quote [id]. *)
Record stored (options : StartQuoteOptions) (id : string) (ilpQuote : PayQuote)
    (q : PaymentQuote) (s s' : IlpState) : Prop := {
  stored_id : quoteId options = Some id;
  stored_sound : sound_quote options q;
  stored_answer : q = paymentQuote options ilpQuote;
  stored_rate : isPositive (highEstimatedExchangeRate ilpQuote) = true;
  stored_row : exists rowId, db s' = db s ++ [quoteDetails rowId id (now s) ilpQuote];
  stored_new : id ∉ d_quoteId <$> db s
}.

Definition quote_outcome (options : StartQuoteOptions) (s : IlpState)
    (r : outcome PaymentQuote) (s' : IlpState) : Prop :=
  now s' = now s /\
  match r with
  | Ret q => exists id ilpQuote, stored options id ilpQuote q s s'
  | Throw e => db s' = db s /\ ilp_quote_error e
  end.

Lemma paymentQuote_sound options rates plugin destination q y y' :
  startQuote (quoteOptions options plugin destination rates) y = (Ret q, y') ->
  0 < maxSourceAmount q -> 0 < minDeliveryAmount q ->
  sound_quote options (paymentQuote options q).
Proof.
  intros Hq Hs Hd. constructor; simpl; [done|done|by split|by split|].
  intros d Hdebit. apply (startQuote_fixed_send _ _ _ _ _ Hq). simpl. by rewrite Hdebit.
Qed.

Lemma quote_over_spec options id rates plugin destination s :
  quoteId options = Some id ->
  wp (quote_over options id rates plugin destination) (quote_outcome options s) s.
Proof.
  intros Hid. unfold quote_over, quote_outcome. wp_step. wp_step; [|by eauto 6].
  case_bool_decide as Hzero.
  - do 2 wp_step;
      [|split_and!; [done|done|]; by eapply Probe_failed; [|exact Hcall0]].
    eapply wp_mono; [apply throw_ilp_non_positive_spec|]. by intros [q|e] s' [-> He].
  - wp_step. eapply wp_mono; [apply checked_quote_spec|].
    intros [q|e] s1 [[Hdb Hnow] Hq]; [|by simpl in *; eauto].
    destruct Hq as ((y & y' & Hq) & Hs & Hd). wp_step.
    eapply wp_mono; [apply insertQuoteDetails_spec|].
    intros [u|e] s2 [Hnow2 Hrow]; simpl in *; rewrite Hdb, Hnow in *; [|by intuition].
    destruct Hrow as (rowId & Hrow & Hnew). wp_step. split; [done|]. exists id, q.
    constructor; eauto. by eapply paymentQuote_sound.
Qed.

(** What a quote leaves of the network: it was let go last, or never reached. *)
Definition quote_network (options : StartQuoteOptions) (s s' : IlpState)
    (r : outcome PaymentQuote) : Prop :=
  let w := sq_walletAddress options in
  let plugin := makeIlpPlugin {| io_sourceAccount := FromWalletAddress w;
                                 io_unfulfillable := Some true |} in
  (exists destination y, ext s' = released plugin destination y) \/
  ((exists e, r = Throw e /\ refused e) /\
   (ext s' = ext s \/ ext s' = (ratesService_rates (a_code (wa_asset w)) (wa_tenantId w) (ext s)).2)).

Lemma ilp_getQuote_spec options s :
  wp (ilp_getQuote options)
    (fun r s' => quote_outcome options s r s' /\ quote_network options s s' r) s.
Proof.
  unfold ilp_getQuote. destruct (quoteId options) as [id|] eqn:Hid.
  2: { wp_step. split; [by split; auto|]. right. eauto. }
  destruct (truthy id); simpl.
  2: { wp_step. split; [by split; auto|]. right. eauto. }
  do 3 wp_step.
  2: { wp_step. split; [by split; auto|]. right. svc_simpl. rewrite Hcall. eauto. }
  wp_step. apply wp_call. intros r' s' Hres.
  destruct (resolveIlpDestination_spec (S:=IlpState) (sq_receiver options) (set_ext x s)) as [Hs Hthrow].
  rewrite Hres in Hs, Hthrow. simpl in Hs, Hthrow. subst s'.
  destruct r' as [destination|e].
  2: { specialize (Hthrow e eq_refl). split; [by split; auto|]. right. svc_simpl.
       rewrite Hcall. split; [by eauto|by right]. }
  unfold wp. rewrite finally_release. simpl.
  pose proof (quote_over_spec options id a
    (makeIlpPlugin {| io_sourceAccount := FromWalletAddress (sq_walletAddress options);
                      io_unfulfillable := Some true |}) destination (set_ext x s) Hid) as HQ.
  unfold wp, quote_outcome in HQ. destruct (quote_over _ _ _ _ _ _) as [r' s']. simpl in *.
  split; [|left; svc_simpl; by eauto]. destruct HQ as [Hn HQ]. split; [done|].
  destruct r' as [q|e]; [|done]. destruct HQ as (id' & q' & [? ? ? ? ? ?]).
  exists id', q'. by constructor.
Qed.

#[global] Instance ilp_sound : SoundPaymentMethod createIlpPaymentService.
Proof.
  intros options x q x' Hq.
  destruct (wp_run _ _ _ _ _ (ilp_getQuote_spec options x) Hq) as [[_ (id & iq & Hs)] _].
  exact (stored_sound _ _ _ _ _ _ Hs).
Qed.

(** A quote over Interledger returns or reports, and cleans up.  If [getQuote]
    returns, its answer keeps the contract of quotes (positive amounts, in the assets of
    the wallet and of the receiver, a debit within what was asked), it is the answer
    to a quote of the library with a positive upper rate, and exactly one row, for a
    quote that had none, was added to the table.  If it throws, nothing was stored, and
    the error is one that must not be retried, the library's with its retryability, what
    the probe or the connection threw, or an error of the database.  In any case the last
    thing that happened on the network is that the connection was closed and the plugin
    let go, unless it was refused before one was used. *)
Theorem ilp_getQuote_effect options s r s' :
  getQuote createIlpPaymentService options s = (r, s') ->
  quote_outcome options s r s' /\ quote_network options s s' r.
Proof. exact (wp_run _ _ _ _ _ (ilp_getQuote_spec options s)). Qed.

(** ** Payments *)

Section Pay.
Context (options : PayOptions P).

Definition paying_plugin : IlpPlugin N :=
  makeIlpPlugin {| io_sourceAccount := FromPayment (po_outgoingPayment options);
                   io_unfulfillable := None |}.

(** The outcome of a stream as the payment method reports it. *)
Definition stream_outcome (r : outcome Receipt) : outcome unit :=
  match r with
  | Ret receipt =>
      match receipt_error receipt with
      | None => Ret tt
      | Some err => Throw (ilp_error pay_message (canRetryError err))
      end
  | Throw err => Throw (ilp_error pay_message (canRetryError err))
  end.

(** One call of [Pay.pay], of the final amounts at the stored rates, and the release. *)
Definition streamed (s : IlpState) (r : outcome unit) (s' : IlpState) : Prop :=
  exists d destination quote,
    find_details (payment_quoteId (po_outgoingPayment options)) (db s) = Some d /\
    payable_quote options d s = (Ret quote, s) /\
    resolveIlpDestination (po_receiver options) s = (Ret destination, s) /\
    r = stream_outcome (Pay_pay paying_plugin destination quote (ext s)).1 /\
    s' = set_ext (released paying_plugin destination
                    (Pay_pay paying_plugin destination quote (ext s)).2) s.

Lemma pay_over_spec plugin destination quote s :
  pay_over plugin destination quote s =
  (stream_outcome (Pay_pay plugin destination quote (ext s)).1,
   set_ext (Pay_pay plugin destination quote (ext s)).2 s).
Proof.
  unfold pay_over, try_catch, bind, lift, stream_outcome.
  destruct (Pay_pay plugin destination quote (ext s)) as [[receipt|e] y]; simpl; [|done].
  by destruct (receipt_error receipt).
Qed.

Lemma payable_quote_spec d (s : IlpState) :
  exists r, payable_quote options d s = (r, s) /\
    forall e, r = Throw e -> e = JsError "Error" "high estimated exchange rate is not positive".
Proof.
  unfold payable_quote, get_highEstimatedExchangeRate, bind.
  destruct (isPositive _); simpl; eexists; split; try done; congruence.
Qed.

(** Why a payment is not attempted. *)
Definition not_attempted (s : IlpState) (e : exn) : Prop :=
  refused e \/
  (e = JsError "Error" "high estimated exchange rate is not positive" /\
   exists d, find_details (payment_quoteId (po_outgoingPayment options)) (db s) = Some d).

(** A payment over Interledger is one stream or nothing.  Either [Pay.pay] is
    called exactly once, with the final amounts of the payment as limits and the rates
    and the packet size stored for its quote, its receipt or error decides what [pay]
    reports (an error of the receipt fails the payment, and it is marked retryable
    exactly when the library's error is), and the plugin is let go afterwards; or
    nothing at all happens and [pay] throws, for amounts that are not positive, a
    quote without details, or a receiver without a usable ILP address, an error that
    must not be retried. *)
Theorem ilp_pay_streams s r s' :
  pay createIlpPaymentService options s = (r, s') ->
  streamed s r s' \/ (s' = s /\ exists e, r = Throw e /\ not_attempted s e).
Proof.
  simpl. unfold ilp_pay, not_attempted.
  destruct (_ <=? 0); [intros [= <- <-]; right; eauto 6|].
  destruct (_ <=? 0); [intros [= <- <-]; right; eauto 6|].
  unfold bind at 1, db_get, gets.
  destruct (find_details _ (db s)) as [d|] eqn:Hd; [|intros [= <- <-]; right; eauto 6].
  destruct (payable_quote_spec d s) as ([quote|e] & Hquote & He);
    unfold bind at 1; rewrite Hquote; [|intros [= <- <-]; right; eauto 8].
  destruct (resolveIlpDestination_spec (S:=IlpState) (po_receiver options) s) as [Hs Hthrow].
  unfold bind. destruct (resolveIlpDestination _ s) as [[destination|e] s1] eqn:Hres;
    simpl in Hs, Hthrow; subst s1; [|intros [= <- <-]; right; eauto 6].
  rewrite finally_release, pay_over_spec. intros [= <- <-]. left.
  by exists d, destination, quote.
Qed.
End Pay.

(** ** From a quote to its payment *)

(** Quotes and payments in any order; in between time passes and the network changes. *)
Inductive ilp_step : IlpState -> IlpState -> Prop :=
| Quoted options s : ilp_step s (getQuote createIlpPaymentService options s).2
| Paid options s : ilp_step s (pay createIlpPaymentService options s).2
| Elapsed t y s : now s <= t ->
    ilp_step s {| db := db s; now := t; fresh := fresh s; ext := y |}.

(** At most one row per quote: the unique constraint. *)
Definition details_wf (s : IlpState) : Prop := NoDup (d_quoteId <$> db s).

(** A step keeps the rows, and adds at most one, of a quote that had none. *)
Lemma ilp_step_rows s s' :
  ilp_step s s' -> db s' = db s \/ exists d, db s' = db s ++ [d] /\ d_quoteId d ∉ d_quoteId <$> db s.
Proof.
  intros [options s0|options s0|]; [| |by left].
  - destruct (getQuote _ options s0) as [r s1] eqn:E. simpl.
    destruct (wp_run _ _ _ _ _ (ilp_getQuote_spec options s0) E) as [[_ HQ] _].
    destruct r as [q|e]; [|left; by destruct HQ]. right.
    destruct HQ as (id & iq & [_ _ _ _ (rowId & Hrow) Hnew]). eauto.
  - left. destruct (pay _ options s0) as [r s1] eqn:E. simpl.
    destruct (ilp_pay_streams options s0 r s1 E) as [(? & ? & ? & ? & ? & ? & ? & ->)|[-> _]];
      done.
Qed.

Lemma ilp_steps_rows s s' :
  rtc ilp_step s s' -> details_wf s -> details_wf s' /\ db s `prefix_of` db s'.
Proof.
  induction 1 as [s|s s1 s2 Hstep _ IH]; intros Hwf; [done|].
  assert (details_wf s1 /\ db s `prefix_of` db s1) as [Hwf1 Hp].
  { unfold details_wf in *. destruct (ilp_step_rows _ _ Hstep) as [->|(d & -> & Hd)]; [done|].
    split; [|by apply prefix_app_r]. rewrite fmap_app. apply NoDup_app. split; [done|].
    split; [|by apply NoDup_singleton]. set_solver. }
  destruct (IH Hwf1) as [Hwf2 Hp2]. split; [done|]. by etrans.
Qed.

Lemma find_details_unique d (rows : list IlpQuoteDetails) :
  NoDup (d_quoteId <$> rows) -> d ∈ rows -> find_details (d_quoteId d) rows = Some d.
Proof.
  intros Hnd Hd. unfold find_details.
  destruct (find_where _ rows) as [d'|] eqn:E.
  - apply find_where_Some in E as [Hd' Hk%bool_decide_eq_true].
    by rewrite (unique_key d_quoteId rows d' d).
  - pose proof (find_where_None _ _ _ E Hd) as HE. by apply bool_decide_eq_false in HE.
Qed.

(** The library's quote with the amounts of a payment, as [pay] hands it back. *)
Definition paid_quote (options : PayOptions P) (ilpQuote : PayQuote) : PayQuote :=
  {| maxPacketAmount := Z.min (maxPacketAmount ilpQuote) MAX_INT64;
     paymentType := FixedDelivery;
     maxSourceAmount := finalDebitAmount options;
     minDeliveryAmount := finalReceiveAmount options;
     lowEstimatedExchangeRate := lowEstimatedExchangeRate ilpQuote;
     highEstimatedExchangeRate := highEstimatedExchangeRate ilpQuote;
     minExchangeRate := minExchangeRate ilpQuote |}.

(** Reading back what the setters stored. *)
Lemma payable_quote_stored `{!RatioLaws} options rowId id t ilpQuote (s : IlpState) :
  isPositive (highEstimatedExchangeRate ilpQuote) = true ->
  payable_quote options (quoteDetails rowId id t ilpQuote) s = (Ret (paid_quote options ilpQuote), s).
Proof.
  intros Hpos. unfold payable_quote, paid_quote, get_highEstimatedExchangeRate,
    get_lowEstimatedExchangeRate, get_minExchangeRate, bind. simpl.
  rewrite !Ratio_of_parts, Hpos. simpl. unfold ret. do 3 f_equal.
  destruct (Z.ltb_spec MAX_INT64 (maxPacketAmount ilpQuote)); lia.
Qed.

(** C24. What was quoted over Interledger is what is paid.  In any history of quotes and
    payments that starts with an empty table, if [getQuote] returned an answer for a
    quote, then whenever later a payment of that quote with positive amounts and a
    usable receiver is sent, [Pay.pay] is called with exactly the rates of the library's
    own quote behind that answer (the round trip over the columns of the table loses
    nothing; the packet size is cut to what the column holds) and with the final
    amounts of the payment, and its outcome is the outcome of the payment. *)
Theorem ilp_quote_is_paid `{!RatioLaws} start s0 options q s1 s2 popts destination :
  db start = [] -> rtc ilp_step start s0 ->
  getQuote createIlpPaymentService options s0 = (Ret q, s1) ->
  rtc ilp_step s1 s2 ->
  quoteId options = Some (payment_quoteId (po_outgoingPayment popts)) ->
  0 < finalDebitAmount popts -> 0 < finalReceiveAmount popts ->
  resolveIlpDestination (po_receiver popts) s2 = (Ret destination, s2) ->
  exists ilpQuote,
    q = paymentQuote options ilpQuote /\
    let '(r, y) := Pay_pay (paying_plugin popts) destination (paid_quote popts ilpQuote) (ext s2) in
    pay createIlpPaymentService popts s2 =
      (stream_outcome r, set_ext (released (paying_plugin popts) destination y) s2).
Proof.
  intros Hstart Hs0 Hq Hs2 Hid Hdebit Hreceive Hres.
  destruct (ilp_steps_rows start s0 Hs0) as [Hwf0 _].
  { unfold details_wf. rewrite Hstart. apply NoDup_nil_2. }
  destruct (wp_run _ _ _ _ _ (ilp_getQuote_spec options s0) Hq) as [[_ (id & iq & Hst)] _].
  destruct Hst as [Hid' _ Hans Hpos (rowId & Hrow) _]. rewrite Hid in Hid'. simplify_eq Hid'.
  intros <-. exists iq. split; [done|].
  assert (ilp_step s0 s1) as Hstep.
  { replace s1 with (getQuote createIlpPaymentService options s0).2 by (by rewrite Hq).
    apply Quoted. }
  destruct (ilp_steps_rows s0 s2) as [Hwf2 _]; [by eapply rtc_l|done|].
  destruct (ilp_steps_rows s0 s1) as [Hwf1 _]; [by eapply rtc_once|done|].
  destruct (ilp_steps_rows s1 s2 Hs2 Hwf1) as [_ [rest Hrest]].
  assert (quoteDetails rowId (payment_quoteId (po_outgoingPayment popts)) (now s0) iq ∈ db s2) as Hin.
  { rewrite Hrest, Hrow. set_solver. }
  destruct (Pay_pay _ _ _ _) as [r y] eqn:Hpay.
  simpl. unfold ilp_pay. destruct (Z.leb_spec (finalReceiveAmount popts) 0); [lia|].
  destruct (Z.leb_spec (finalDebitAmount popts) 0); [lia|].
  unfold bind at 1, db_get, gets.
  rewrite (find_details_unique _ _ Hwf2 Hin : find_details (payment_quoteId _) _ = _).
  unfold bind at 1. rewrite (payable_quote_stored popts _ _ _ _ s2 Hpos).
  unfold bind. rewrite Hres, finally_release, pay_over_spec. fold (paying_plugin popts).
  by rewrite Hpay.
Qed.
End IlpPayment.

(** ** A quote and its payment *)

Module Example.
#[export] Instance ratios : RatioLib := {
  Ratio := Z * Z;
  ratio_a := fst;
  ratio_b := snd;
  Ratio_of := pair;
  isPositive r := (0 <? fst r) && (0 <? snd r);
  valueOf r := num_div (of_bigint (fst r)) (of_bigint (snd r));
  reciprocal r := (snd r, fst r)
}.
#[export] Instance ratio_laws : RatioLaws.
Proof. by intros [a b]. Qed.
#[export] Existing Instance ConcreteUuid.uuid.

(** The network logs what is done on it; a payment is the id of its quote. *)
Definition Net : Type := list string.
Definition log (entry : string) : M Net unit := modify (fun l => l ++ [entry]).

Definition makeIlpPlugin (_ : IlpPluginOptions string) : IlpPlugin Net :=
  {| connect := log "connect"; disconnect := log "disconnect"; isConnected := true;
     sendData := fun data => ret data; registerDataHandler := fun _ => ret tt;
     deregisterDataHandler := ret tt |}.

(** One unit sent delivers between 0.8 and 0.9 units. *)
Definition ilpQuote (send deliver : Z) : PayQuote :=
  {| paymentType := FixedSend; maxPacketAmount := 2 ^ 64; maxSourceAmount := send;
     minDeliveryAmount := deliver; minExchangeRate := (8, 10);
     lowEstimatedExchangeRate := (8, 10); highEstimatedExchangeRate := (9, 10) |}.
Definition net_startQuote (o : QuoteOptions Net) : M Net PayQuote :=
  match amountToSend o with
  | Some send => ret (ilpQuote send (send * 8 / 10))
  | None =>
      match amountToDeliver o with
      | Some deliver => ret (ilpQuote (deliver * 10 / 8 + 1) deliver)
      | None => throw (ThrownString "UnknownPaymentTarget")
      end
  end.

Lemma fixed_send o y q y' amount :
  net_startQuote o y = (Ret q, y') -> amountToSend o = Some amount -> maxSourceAmount q <= amount.
Proof. unfold net_startQuote. intros Hq Ho. rewrite Ho in Hq. injection Hq as <- _. done. Qed.
Lemma high_positive o y q y' :
  net_startQuote o y = (Ret q, y') -> isPositive (highEstimatedExchangeRate q) = true.
Proof. unfold net_startQuote. by split_ifs; intros [= <- _]. Qed.

Definition Pay_pay (_ : IlpPlugin Net) (destination : ResolvedPayment) (quote : PayQuote)
  : M Net Receipt :=
  log ("pay " +:+ destinationAddress destination)%string ;;!
  ret {| receipt_error := None; amountSent := maxSourceAmount quote;
         amountDelivered := minDeliveryAmount quote |}.
Definition closeConnection (_ : IlpPlugin Net) (_ : ResolvedPayment) : M Net unit := log "close".
Definition PaymentError (m : PaymentErrorMember) : string :=
  match m with
  | ConnectorError => "ConnectorError"
  | EstablishmentFailed => "EstablishmentFailed"
  | InsufficientExchangeRate => "InsufficientExchangeRate"
  | RateProbeFailed => "RateProbeFailed"
  | IdleTimeout => "IdleTimeout"
  | ClosedByReceiver => "ClosedByReceiver"
  end.

Definition service_with startQuote : PaymentMethodService (IlpState (N:=Net)) string :=
  createIlpPaymentService (of_bigint 0)
    (fun code _ => ret {| Rates.base := code; Rates.rates_of := ∅ |})
    makeIlpPlugin startQuote Pay_pay closeConnection PaymentError
    (fun address => negb (bool_decide (address = EmptyString))) (fun _ => []) (fun id => id).
Definition service := service_with net_startQuote.

Definition dollars : Asset :=
  {| a_id := "usd"; a_code := "USD"; a_scale := 2; a_ledger := 1; a_tenantId := "tenant";
     a_withdrawalThreshold := None; a_liquidityThreshold := None |}.
Definition wallet : WalletAddress :=
  {| wa_id := "wallet"; wa_tenantId := "tenant"; wa_address := "https://host/alice";
     wa_assetId := "usd"; wa_asset := dollars; wa_totalEventsAmount := 0;
     wa_processAt := None; wa_deactivatedAt := None |}.
Definition receiver : Receiver :=
  {| r_assetCode := "EUR"; r_assetScale := 2; r_isLocal := false;
     r_incomingPaymentId := "https://elsewhere/incoming-payments/invoice";
     r_completed := false; r_expiresAt := None; r_incomingAmountValue := None;
     r_receivedAmountValue := 0;
     r_methods := [{| method_type := "ilp"; ilpAddress := "test.bob"; sharedSecret := "" |}] |}.

Definition options (debit : Z) : StartQuoteOptions :=
  {| quoteId := Some "id-1"; sq_walletAddress := wallet;
     sq_debitAmount := Some {| value := debit; assetCode := "USD"; assetScale := 2 |};
     sq_receiveAmount := None; sq_receiver := receiver |}.
Definition payment : PayOptions string :=
  {| po_receiver := receiver; po_outgoingPayment := "id-1"; finalDebitAmount := 100;
     finalReceiveAmount := 80 |}.

Definition start : IlpState (N:=Net) := {| db := []; now := 1000; fresh := 0%nat; ext := [] |}.
Definition quoted : IlpState (N:=Net) := (getQuote service (options 100) start).2.
Definition answer : PaymentQuote := paymentQuote (options 100) (ilpQuote 100 80).
Definition destination : ResolvedPayment :=
  {| destinationAddress := "test.bob"; rp_assetCode := "EUR"; rp_assetScale := 2;
     rp_sharedSecret := []; requestCounter := 0 |}.

Lemma quoted_eq : getQuote service (options 100) start = (Ret answer, quoted).
Proof. by vm_compute. Qed.

(** When the fees leave nothing to send, what the probe of the rate throws passes
    as it is: not as an error of a payment method. *)
Definition failing (_ : QuoteOptions Net) : M Net PayQuote :=
  throw (ThrownString "RateProbeFailed").
Lemma probe_error_escapes :
  (getQuote (service_with failing) (options 0) start).1 = Throw (ThrownString "RateProbeFailed") /\
  (getQuote (service_with failing) (options 100) start).1
    = Throw (ilp_error quoting_message true).
Proof. by vm_compute. Qed.
End Example.

#[local] Existing Instances Example.ratios Example.ratio_laws ConcreteUuid.uuid.

Lemma ilp_getQuote_effect_witness :
  getQuote Example.service (Example.options 100) Example.start
    = (Ret Example.answer, Example.quoted) /\
  ext Example.quoted = ["connect"; "close"; "disconnect"]%string /\
  now Example.quoted = now Example.start.
Proof.
  split; [exact Example.quoted_eq|]. split; [by vm_compute|].
  exact (proj1 (proj1 (ilp_getQuote_effect _ _ Example.makeIlpPlugin Example.net_startQuote
    Example.Pay_pay Example.closeConnection Example.PaymentError _ _ (fun id => id)
    Example.fixed_send Example.high_positive (Example.options 100) Example.start _ _
    Example.quoted_eq))).
Defined.

Definition after_payment : IlpState (N:=Example.Net) := (pay Example.service Example.payment Example.quoted).2.

Lemma ilp_pay_streams_witness :
  pay Example.service Example.payment Example.quoted = (Ret tt, after_payment) /\
  ext after_payment = ["connect"; "close"; "disconnect"; "pay test.bob"; "close"; "disconnect"]%string /\
  (streamed Example.makeIlpPlugin Example.Pay_pay Example.closeConnection Example.PaymentError
     (fun address => negb (bool_decide (address = EmptyString))) (fun _ => []) (fun id => id)
     Example.payment Example.quoted (Ret tt) after_payment \/
   (after_payment = Example.quoted /\ exists e, Ret tt = Throw e /\
     not_attempted (fun id => id) Example.payment Example.quoted e)).
Proof.
  assert (pay Example.service Example.payment Example.quoted = (Ret tt, after_payment)) as E
    by (by vm_compute).
  split; [exact E|]. split; [by vm_compute|].
  exact (ilp_pay_streams _ _ Example.makeIlpPlugin Example.net_startQuote
    Example.Pay_pay Example.closeConnection Example.PaymentError _ _ (fun id => id)
    Example.payment Example.quoted _ _ E).
Defined.

Lemma ilp_quote_is_paid_witness :
  getQuote Example.service (Example.options 100) Example.start
    = (Ret Example.answer, Example.quoted) /\
  exists ilpQuote,
    Example.answer = paymentQuote (Example.options 100) ilpQuote /\
    let '(r, y) := Example.Pay_pay (paying_plugin Example.makeIlpPlugin Example.payment)
      Example.destination (paid_quote Example.payment ilpQuote) (ext Example.quoted) in
    pay Example.service Example.payment Example.quoted =
      (stream_outcome Example.PaymentError r,
       set_ext (released Example.closeConnection
                  (paying_plugin Example.makeIlpPlugin Example.payment) Example.destination y)
         Example.quoted).
Proof.
  split; [exact Example.quoted_eq|].
  exact (ilp_quote_is_paid _ _ Example.makeIlpPlugin Example.net_startQuote
    Example.Pay_pay Example.closeConnection Example.PaymentError _ _ (fun id => id)
    Example.fixed_send Example.high_positive Example.start Example.start (Example.options 100)
    Example.answer Example.quoted Example.quoted Example.payment Example.destination
    eq_refl (rtc_refl _ _) Example.quoted_eq (rtc_refl _ _) eq_refl
    ltac:(by vm_compute) ltac:(by vm_compute) ltac:(by vm_compute)).
Defined.
