(* ===== verification/IlpPacket.v ===== *)
(** * IlpPacket: packets in the connector

    Models [ilp/connector/core/middleware/ilp-packet.ts] (the views of a prepare packet
    and of its response that the middlewares share) and [lib/ilp.ts] (the rewriting of a
    serialized packet in place).  Encoding and decoding packets is the package
    [ilp-packet], and the length prefix of a packet is read by [oer-utils]; both are
    parameters.  Buffers are lists of bytes; a date is milliseconds since 1970. *)

From Stdlib Require Import Ascii Strings.Byte.
From S2P Require Import Prelude Service.
From S2P Require Text.
Import Text (bigint_toString, BigInt).

Local Open Scope Z_scope.
Local Open Scope ts_scope.

Definition Buffer : Type := list Byte.byte.

#[global] Instance byte_eq_dec : EqDecision Byte.byte := Byte.byte_eq_dec.
#[global] Instance Buffer_eq_dec : EqDecision Buffer := list_eq_dec.

(** ** Packets *)

Record IlpPrepare := {
  ip_amount : string;
  ip_destination : string;
  ip_executionCondition : Buffer;
  ip_expiresAt : Z;
  ip_data : Buffer
}.
Record IlpFulfill := { fulfillment : Buffer; fulfill_data : Buffer }.
Record IlpReject := {
  reject_code : string;
  triggeredBy : string;
  reject_message : string;
  reject_data : Buffer
}.
Inductive IlpReply := ReplyFulfill (f : IlpFulfill) | ReplyReject (r : IlpReject).

Definition isFulfill (r : IlpReply) : bool :=
  match r with ReplyFulfill _ => true | ReplyReject _ => false end.

(** What [errorToIlpReject] is given: an error of the library, or the internal error. *)
Inductive IlpErrorLike := IlpError (e : exn) | InternalError (message : string).

(** [ilp-packet] *)
Class IlpPacketLib := {
  deserializeIlpPrepare : Buffer -> outcome IlpPrepare;
  serializeIlpFulfill : IlpFulfill -> outcome Buffer;
  serializeIlpReject : IlpReject -> outcome Buffer;
  deserializeIlpFulfill : Buffer -> outcome IlpFulfill;
  deserializeIlpReject : Buffer -> outcome IlpReject;
  deserializeIlpReply : Buffer -> outcome IlpReply;
  isIlpError : exn -> bool;
  errorToIlpReject : string -> IlpErrorLike -> IlpReject
}.

(** A deserialized reply is what was serialized; packets carry their type. *)
Class IlpPacketLaws `{IlpPacketLib} : Prop := {
  fulfill_bytes : forall f b, serializeIlpFulfill f = Ret b ->
    deserializeIlpReply b = Ret (ReplyFulfill f);
  reject_bytes : forall r b, serializeIlpReject r = Ret b ->
    deserializeIlpReply b = Ret (ReplyReject r);
  raw_fulfill_bytes : forall b f, deserializeIlpFulfill b = Ret f ->
    deserializeIlpReply b = Ret (ReplyFulfill f);
  raw_reject_bytes : forall b r, deserializeIlpReject b = Ret r ->
    deserializeIlpReply b = Ret (ReplyReject r)
}.

(** ** [ZeroCopyIlpPrepare] *)

Record ZeroCopyIlpPrepare := {
  zc_originalAmount : Z;
  zc_originalExpiresAt : Z;
  zc_prepare : IlpPrepare;
  zc_amount : Z;
  zc_expiresAtChanged : bool;
  zc_amountChanged : bool
}.

(** [new ZeroCopyIlpPrepare(packet)] *)
Definition zeroCopy (packet : IlpPrepare) : outcome ZeroCopyIlpPrepare :=
  match BigInt (ip_amount packet) with
  | Ret amount => Ret {| zc_originalAmount := amount; zc_originalExpiresAt := ip_expiresAt packet;
                         zc_prepare := packet; zc_amount := amount;
                         zc_expiresAtChanged := false; zc_amountChanged := false |}
  | Throw e => Throw e
  end.
Definition zeroCopyOf `{IlpPacketLib} (prepare : Buffer) : outcome ZeroCopyIlpPrepare :=
  match deserializeIlpPrepare prepare with Ret packet => zeroCopy packet | Throw e => Throw e end.

Definition get_amount (p : ZeroCopyIlpPrepare) : string := ip_amount (zc_prepare p).
Definition get_destination (p : ZeroCopyIlpPrepare) : string := ip_destination (zc_prepare p).
Definition get_expiresAt (p : ZeroCopyIlpPrepare) : Z := ip_expiresAt (zc_prepare p).

Definition set_prepare_expiresAt (v : Z) (p : ZeroCopyIlpPrepare) : ZeroCopyIlpPrepare :=
  {| zc_originalAmount := zc_originalAmount p; zc_originalExpiresAt := zc_originalExpiresAt p;
     zc_prepare := {| ip_amount := ip_amount (zc_prepare p);
                      ip_destination := ip_destination (zc_prepare p);
                      ip_executionCondition := ip_executionCondition (zc_prepare p);
                      ip_expiresAt := v; ip_data := ip_data (zc_prepare p) |};
     zc_amount := zc_amount p; zc_expiresAtChanged := true;
     zc_amountChanged := zc_amountChanged p |}.

(** Both setters of the amount write its text and its value. *)
Definition with_amount (text : string) (v : Z) (p : ZeroCopyIlpPrepare) : ZeroCopyIlpPrepare :=
  {| zc_originalAmount := zc_originalAmount p; zc_originalExpiresAt := zc_originalExpiresAt p;
     zc_prepare := {| ip_amount := text;
                      ip_destination := ip_destination (zc_prepare p);
                      ip_executionCondition := ip_executionCondition (zc_prepare p);
                      ip_expiresAt := ip_expiresAt (zc_prepare p);
                      ip_data := ip_data (zc_prepare p) |};
     zc_amount := v; zc_expiresAtChanged := zc_expiresAtChanged p; zc_amountChanged := true |}.
Definition set_intAmount (v : Z) : ZeroCopyIlpPrepare -> ZeroCopyIlpPrepare :=
  with_amount (bigint_toString v) v.

(** [prepare.amount = text] *)
Definition set_amount (text : string) (p : ZeroCopyIlpPrepare) : outcome ZeroCopyIlpPrepare :=
  match BigInt text with Ret v => Ret (with_amount text v p) | Throw e => Throw e end.

(** The text of the amount and its value agree. *)
Definition prepare_wf (p : ZeroCopyIlpPrepare) : Prop := BigInt (get_amount p) = Ret (zc_amount p).

Lemma zeroCopy_wf packet p : zeroCopy packet = Ret p -> prepare_wf p.
Proof.
  unfold zeroCopy, prepare_wf, get_amount.
  destruct (BigInt (ip_amount packet)) as [v|e] eqn:E; [|done]. by intros [= <-].
Qed.

Lemma set_amount_toString v p : set_amount (bigint_toString v) p = Ret (set_intAmount v p).
Proof. unfold set_amount. by rewrite Text.BigInt_toString. Qed.

Lemma set_intAmount_wf v p : prepare_wf (set_intAmount v p).
Proof. exact (Text.BigInt_toString v). Qed.

(** ** [IlpResponse] *)

Record IlpResponse := {
  r_fulfill : option IlpFulfill;
  r_reject : option IlpReject;
  r_rawFulfill : option Buffer;
  r_rawReject : option Buffer
}.
Definition new_response : IlpResponse :=
  {| r_fulfill := None; r_reject := None; r_rawFulfill := None; r_rawReject := None |}.

Section Response.
Context `{IlpPacketLib}.

(** What the library throws leaves the fields that were set before. *)
Definition of_outcome {S A} (o : outcome A) : M S A :=
  match o with Ret a => ret a | Throw e => throw e end.

Definition set_fulfill (val : option IlpFulfill) : M IlpResponse unit :=
  match val with
  | Some f =>
      modify (fun r => {| r_fulfill := Some f; r_reject := None;
                          r_rawFulfill := r_rawFulfill r; r_rawReject := None |}) ;;!
      let! raw := of_outcome (serializeIlpFulfill f) in
      modify (fun r => {| r_fulfill := r_fulfill r; r_reject := r_reject r;
                          r_rawFulfill := Some raw; r_rawReject := r_rawReject r |})
  | None => modify (fun r => {| r_fulfill := None; r_reject := r_reject r;
                                r_rawFulfill := None; r_rawReject := r_rawReject r |})
  end.

Definition set_reject (val : option IlpReject) : M IlpResponse unit :=
  match val with
  | Some j =>
      modify (fun r => {| r_fulfill := None; r_reject := Some j;
                          r_rawFulfill := None; r_rawReject := r_rawReject r |}) ;;!
      let! raw := of_outcome (serializeIlpReject j) in
      modify (fun r => {| r_fulfill := r_fulfill r; r_reject := r_reject r;
                          r_rawFulfill := r_rawFulfill r; r_rawReject := Some raw |})
  | None => modify (fun r => {| r_fulfill := r_fulfill r; r_reject := None;
                                r_rawFulfill := r_rawFulfill r; r_rawReject := None |})
  end.

Definition set_rawFulfill (val : option Buffer) : M IlpResponse unit :=
  match val with
  | Some raw =>
      modify (fun r => {| r_fulfill := r_fulfill r; r_reject := None;
                          r_rawFulfill := Some raw; r_rawReject := None |}) ;;!
      let! f := of_outcome (deserializeIlpFulfill raw) in
      modify (fun r => {| r_fulfill := Some f; r_reject := r_reject r;
                          r_rawFulfill := r_rawFulfill r; r_rawReject := r_rawReject r |})
  | None => modify (fun r => {| r_fulfill := None; r_reject := r_reject r;
                                r_rawFulfill := None; r_rawReject := r_rawReject r |})
  end.

Definition set_rawReject (val : option Buffer) : M IlpResponse unit :=
  match val with
  | Some raw =>
      modify (fun r => {| r_fulfill := None; r_reject := r_reject r;
                          r_rawFulfill := None; r_rawReject := Some raw |}) ;;!
      let! j := of_outcome (deserializeIlpReject raw) in
      modify (fun r => {| r_fulfill := r_fulfill r; r_reject := Some j;
                          r_rawFulfill := r_rawFulfill r; r_rawReject := r_rawReject r |})
  | None => modify (fun r => {| r_fulfill := r_fulfill r; r_reject := None;
                                r_rawFulfill := r_rawFulfill r; r_rawReject := None |})
  end.

Definition set_reply (val : option IlpReply) : M IlpResponse unit :=
  match val with
  | Some (ReplyFulfill f) => set_fulfill (Some f)
  | Some (ReplyReject j) => set_reject (Some j)
  | None => modify (fun _ => new_response)
  end.

Definition set_rawReply (val : option Buffer) : M IlpResponse unit :=
  match val with
  | Some raw =>
      let! packet := of_outcome (deserializeIlpReply raw) in
      modify (fun _ =>
        match packet with
        | ReplyFulfill f => {| r_fulfill := Some f; r_reject := None;
                               r_rawFulfill := Some raw; r_rawReject := None |}
        | ReplyReject j => {| r_fulfill := None; r_reject := Some j;
                              r_rawFulfill := None; r_rawReject := Some raw |}
        end)
  | None => modify (fun _ => new_response)
  end.

(** A buffer is truthy, also an empty one. *)
Definition rawReply (r : IlpResponse) : option Buffer :=
  match r_rawFulfill r with Some raw => Some raw | None => r_rawReject r end.
Definition reply (r : IlpResponse) : option IlpReply :=
  match r_fulfill r with
  | Some f => Some (ReplyFulfill f)
  | None => ReplyReject <$> r_reject r
  end.

(** A response is empty, or one reply with its bytes. *)
Definition response_wf (r : IlpResponse) : Prop :=
  match r_fulfill r, r_reject r, r_rawFulfill r, r_rawReject r with
  | None, None, None, None => True
  | Some f, None, Some raw, None => deserializeIlpReply raw = Ret (ReplyFulfill f)
  | None, Some j, None, Some raw => deserializeIlpReply raw = Ret (ReplyReject j)
  | _, _, _, _ => False
  end.

(** The bytes of a response are those of its reply. *)
Lemma response_wf_reply r :
  response_wf r ->
  match rawReply r, reply r with
  | Some raw, Some packet => deserializeIlpReply raw = Ret packet
  | None, None => True
  | _, _ => False
  end.
Proof. by destruct r as [[f|] [j|] [rf|] [rj|]]. Qed.

(** A setter that returns leaves a well-formed response that holds what was set. *)
Lemma set_reply_spec `{!IlpPacketLaws} packet r :
  wp (set_reply (Some packet))
    (fun o r' => match o with
                 | Ret _ => response_wf r' /\ reply r' = Some packet
                 | Throw _ => True
                 end) r.
Proof.
  destruct packet as [f|j]; simpl; wp_step; wp_step;
    [destruct (serializeIlpFulfill f) as [raw|e] eqn:E|destruct (serializeIlpReject j) as [raw|e] eqn:E];
    wp_auto; try done; split; try done.
  - by apply fulfill_bytes.
  - by apply reject_bytes.
Qed.

Lemma set_raw_spec `{!IlpPacketLaws} raw r :
  wp (set_rawFulfill (Some raw))
    (fun o r' => match o with Ret _ => response_wf r' | Throw _ => True end) r /\
  wp (set_rawReject (Some raw))
    (fun o r' => match o with Ret _ => response_wf r' | Throw _ => True end) r.
Proof.
  split; simpl; wp_step; wp_step;
    [destruct (deserializeIlpFulfill raw) as [f|e] eqn:E|destruct (deserializeIlpReject raw) as [j|e] eqn:E];
    wp_auto; try done.
  - by apply raw_fulfill_bytes.
  - by apply raw_reject_bytes.
Qed.

Lemma set_rawReply_spec raw r :
  wp (set_rawReply (Some raw))
    (fun o r' => match o with
                 | Ret _ => response_wf r' /\ rawReply r' = Some raw
                 | Throw _ => r' = r
                 end) r.
Proof.
  simpl. wp_step. destruct (deserializeIlpReply raw) as [[f|j]|e] eqn:E; by wp_auto.
Qed.
End Response.

(** ** [lib/ilp.ts] *)

(** Fields of a date in UTC; [days] since 1970 to year, month and day of the proleptic
    Gregorian calendar, counting years from the first of March. *)
Record UTCDate := { u_year : Z; u_month : Z; u_day : Z; u_hours : Z; u_minutes : Z;
                    u_seconds : Z; u_ms : Z }.

Definition day_of_year (dayOfEra : Z) : Z :=
  let yearOfEra := (dayOfEra - dayOfEra / 1460 + dayOfEra / 36524 - dayOfEra / 146096) / 365 in
  dayOfEra - (365 * yearOfEra + yearOfEra / 4 - yearOfEra / 100).

Definition utc (t : Z) : UTCDate :=
  let days := t / 86400000 in
  let rest := t mod 86400000 in
  let z := days + 719468 in
  let era := z / 146097 in
  let dayOfEra := z mod 146097 in
  let yearOfEra := (dayOfEra - dayOfEra / 1460 + dayOfEra / 36524 - dayOfEra / 146096) / 365 in
  let dayOfYear := day_of_year dayOfEra in
  let m := (5 * dayOfYear + 2) / 153 in
  let month := if m <? 10 then m + 3 else m - 9 in
  {| u_year := yearOfEra + era * 400 + (if month <=? 2 then 1 else 0);
     u_month := month;
     u_day := dayOfYear - (153 * m + 2) / 5 + 1;
     u_hours := rest / 3600000; u_minutes := rest / 60000 mod 60;
     u_seconds := rest / 1000 mod 60; u_ms := rest mod 1000 |}.

Definition pad (n : Z) : string :=
  (if (n <? 10)%Z then "0" ++ bigint_toString n else bigint_toString n)%string.

(** [(ms / 1000).toFixed(3).slice(2, 5)] *)
Definition pad_ms (ms : Z) : string := (if (ms <? 100)%Z then "0" ++ pad ms else bigint_toString ms)%string.

Definition dateToInterledgerTime (date : Z) : string :=
  let d := utc date in
  (bigint_toString (u_year d) ++ pad (u_month d) ++ pad (u_day d) ++ pad (u_hours d)
     ++ pad (u_minutes d) ++ pad (u_seconds d) ++ pad_ms (u_ms d))%string.

(** The hexadecimal digits of [n >= 0], the most significant first. *)
Fixpoint hex_digits_aux (fuel : nat) (n : Z) (acc : list Z) : list Z :=
  match fuel with
  | O => acc
  | S fuel => if n <=? 0 then acc else hex_digits_aux fuel (n / 16) (n mod 16 :: acc)
  end.
(** [n.toString(16)]; zero has one digit. *)
Definition toString16 (n : Z) : list Z :=
  if n =? 0 then [0] else hex_digits_aux (Z.to_nat (Z.log2_up (n + 1)) + 1) n [].
(** [digits.padStart(length, '0')] *)
Definition padStart (length : nat) (digits : list Z) : list Z :=
  repeat 0 (length - List.length digits) ++ digits.

Definition byte_of (n : Z) : Byte.byte := default x00 (Byte.of_N (Z.to_N (n mod 256))).
Definition byte_val (b : Byte.byte) : Z := Z.of_N (Byte.to_N b).

(** Two digits make a byte; a digit left over is dropped. *)
Fixpoint hex_decode (digits : list Z) : Buffer :=
  match digits with
  | d1 :: d2 :: digits => byte_of (16 * d1 + d2) :: hex_decode digits
  | _ => []
  end.

Definition ascii_bytes (s : string) : Buffer := byte_of_ascii <$> String.list_ascii_of_string s.

(** [buffer.write(bytes, offset, length)]: what does not fit is not written. *)
Definition buffer_write (buffer : Buffer) (bytes : Buffer) (offset length : nat) : Buffer :=
  let written := take (List.length buffer - offset) (take length bytes) in
  take offset buffer ++ written ++ drop (offset + List.length written) buffer.

Section Modify.
(** [reader.skip(n)] and [reader.readLengthPrefix()] of [oer-utils]: from a cursor to
    the cursor after it. *)
Context (skip : Buffer -> nat -> nat -> outcome nat).
Context (readLengthPrefix : Buffer -> nat -> outcome nat).

Definition then_at {A} (o : outcome nat) (k : nat -> outcome A) : outcome A :=
  match o with Ret cursor => k cursor | Throw e => Throw e end.

Definition modifySerializedIlpPrepare (prepare : Buffer) (amount expiresAt : option Z)
  : outcome Buffer :=
  if truthy amount || is_some expiresAt then
    then_at (skip prepare 0 1) (fun cursor =>
    then_at (readLengthPrefix prepare cursor) (fun cursor =>
      let prepare :=
        match amount with
        | Some amount =>
            if truthy amount
            then buffer_write prepare (hex_decode (padStart (8 * 2) (toString16 amount))) cursor 8
            else prepare
        | None => prepare
        end in
      match expiresAt with
      | Some expiresAt =>
          then_at (skip prepare cursor 8) (fun cursor =>
            Ret (buffer_write prepare (ascii_bytes (dateToInterledgerTime expiresAt)) cursor 17))
      | None => Ret prepare
      end))
  else Ret prepare.
End Modify.

(** ** What the bytes of a rewritten packet say *)

(** The number that digits, or bytes, write, the most significant first. *)
Definition value_of (base : Z) (l : list Z) : Z := foldl (fun acc d => acc * base + d) 0 l.
Definition be_value (bytes : Buffer) : Z := value_of 256 (byte_val <$> bytes).

Definition is_hex (d : Z) : Prop := 0 <= d < 16.

Lemma hex_digits_aux_value fuel n acc :
  0 <= n < 2 ^ Z.of_nat fuel ->
  value_of 16 (hex_digits_aux fuel n acc) = foldl (fun acc d => acc * 16 + d) n acc.
Proof.
  revert n acc. induction fuel as [|fuel IH]; intros n acc Hn.
  - simpl. by replace n with 0 by (simpl in Hn; lia).
  - simpl. destruct (Z.leb_spec n 0); [by replace n with 0 by lia|].
    rewrite Nat2Z.inj_succ, Z.pow_succ_r in Hn by lia. rewrite IH.
    + simpl. f_equal. rewrite (Z.div_mod n 16) at 3 by lia. lia.
    + split; [apply Z.div_pos; lia|]. apply Z.div_lt_upper_bound; lia.
Qed.

Lemma hex_digits_aux_hex fuel n acc :
  Forall is_hex acc -> Forall is_hex (hex_digits_aux fuel n acc).
Proof.
  revert n acc. induction fuel as [|fuel IH]; intros n acc Hacc; simpl; [done|].
  destruct (n <=? 0); [done|]. apply IH. constructor; [apply Z.mod_pos_bound; lia|done].
Qed.

Lemma hex_digits_aux_length fuel n k acc :
  n < 16 ^ Z.of_nat k -> (List.length (hex_digits_aux fuel n acc) <= k + List.length acc)%nat.
Proof.
  revert n k acc. induction fuel as [|fuel IH]; intros n k acc Hn; simpl; [lia|].
  destruct (Z.leb_spec n 0); [lia|]. destruct k as [|k]; [simpl in Hn; lia|].
  rewrite Nat2Z.inj_succ, Z.pow_succ_r in Hn by lia.
  specialize (IH (n / 16) k (n mod 16 :: acc)). simpl in IH.
  assert (n / 16 < 16 ^ Z.of_nat k) by (apply Z.div_lt_upper_bound; lia). lia.
Qed.

Lemma toString16_spec n k :
  0 <= n < 16 ^ Z.of_nat k -> (0 < k)%nat ->
  value_of 16 (toString16 n) = n /\ Forall is_hex (toString16 n) /\
  (List.length (toString16 n) <= k)%nat.
Proof.
  intros Hn Hk. unfold toString16. destruct (Z.eqb_spec n 0) as [->|Hn0].
  - simpl. split_and!; [done|by repeat constructor|lia].
  - split_and!; [|by apply hex_digits_aux_hex|].
    + rewrite hex_digits_aux_value; [done|]. split; [lia|].
      pose proof (Z.log2_up_nonneg (n + 1)). rewrite Nat2Z.inj_add, Z2Nat.id by lia.
      rewrite Z.pow_add_r by lia. pose proof (Z.log2_up_spec (n + 1)). lia.
    + pose proof (hex_digits_aux_length (Z.to_nat (Z.log2_up (n + 1)) + 1) n k []
        (proj2 Hn)) as Hlen. simpl in Hlen. lia.
Qed.

Lemma value_of_zeros base m l : value_of base (repeat 0 m ++ l) = value_of base l.
Proof. unfold value_of. induction m as [|m IH]; simpl; [done|exact IH]. Qed.

Lemma padStart_spec k l :
  (List.length l <= k)%nat -> Forall is_hex l ->
  value_of 16 (padStart k l) = value_of 16 l /\ Forall is_hex (padStart k l) /\
  List.length (padStart k l) = k.
Proof.
  intros Hk Hl. unfold padStart. split_and!; [apply value_of_zeros| |].
  - apply Forall_app. split; [|done]. apply Forall_forall. intros d Hd.
    apply list_elem_of_In, repeat_spec in Hd as ->. unfold is_hex. lia.
  - rewrite length_app, repeat_length. lia.
Qed.

Lemma byte_val_of n : 0 <= n < 256 -> byte_val (byte_of n) = n.
Proof.
  intros Hn. unfold byte_val, byte_of. rewrite Z.mod_small by done.
  destruct (Byte.of_N (Z.to_N n)) as [b|] eqn:E; simpl.
  - apply Byte.to_of_N in E. rewrite E. lia.
  - apply Byte.of_N_None_iff in E. lia.
Qed.

Lemma hex_decode_value k l acc :
  Forall is_hex l -> List.length l = (2 * k)%nat ->
  foldl (fun acc d => acc * 256 + d) acc (byte_val <$> hex_decode l)
    = foldl (fun acc d => acc * 16 + d) acc l /\
  List.length (hex_decode l) = k.
Proof.
  revert l acc. induction k as [|k IH]; intros l acc Hl Hlen.
  - by destruct l.
  - destruct l as [|d1 [|d2 l]]; simpl in Hlen; try lia.
    apply Forall_cons in Hl as [H1 Hl]. apply Forall_cons in Hl as [H2 Hl].
    unfold is_hex in H1, H2. cbn [hex_decode]. rewrite fmap_cons. cbn [foldl List.length].
    destruct (IH l (acc * 256 + byte_val (byte_of (16 * d1 + d2))) Hl ltac:(lia)) as [-> ->].
    rewrite byte_val_of by lia. split; [|done]. f_equal. lia.
Qed.

(** The eight bytes of an amount. *)
Definition amount_bytes (amount : Z) : Buffer := hex_decode (padStart (8 * 2) (toString16 amount)).

Lemma amount_bytes_spec amount :
  0 <= amount < 2 ^ 64 ->
  be_value (amount_bytes amount) = amount /\ List.length (amount_bytes amount) = 8%nat.
Proof.
  intros Ha. destruct (toString16_spec amount 16) as (Hv & Hh & Hl); [done|lia|].
  destruct (padStart_spec 16 _ Hl Hh) as (Hv' & Hh' & Hl').
  destruct (hex_decode_value 8 _ 0 Hh' Hl') as [Hd Hlen].
  split; [|exact Hlen]. unfold be_value, value_of, amount_bytes.
  change (8 * 2)%nat with 16%nat. rewrite Hd. by rewrite <- Hv at 2.
Qed.

(** *** Dates *)

Fixpoint all_from (fuel : nat) (p : Z -> bool) (i : Z) : bool :=
  match fuel with O => true | S fuel => if p i then all_from fuel p (i + 1) else false end.

Lemma all_from_spec fuel p i j :
  all_from fuel p i = true -> i <= j < i + Z.of_nat fuel -> p j = true.
Proof.
  revert i. induction fuel as [|fuel IH]; intros i Hall Hj; [lia|]. simpl in Hall.
  destruct (p i) eqn:Hp; [|done]. destruct (Z.eq_dec j i) as [->|Hne]; [done|].
  apply (IH (i + 1)); [done|lia].
Qed.

Definition two_digits (n : Z) : bool := (0 <=? n) && (n <? 100).

(** The day of the year, from the day of an era. *)
Lemma day_of_year_bounds dayOfEra :
  0 <= dayOfEra < 146097 -> 0 <= day_of_year dayOfEra <= 365.
Proof.
  intros H. unfold day_of_year. set (last := dayOfEra / 146096).
  assert (last = 0 \/ last = 1 /\ dayOfEra = 146096) as [-> | [-> ->]]
    by (unfold last; Z.to_euclidean_division_equations; lia); [|by vm_compute].
  set (century := dayOfEra / 36524).
  assert (0 <= century <= 3 \/ dayOfEra = 146096) as [Hc | ->]
    by (unfold century; Z.to_euclidean_division_equations; lia); [|by vm_compute].
  assert (36524 * century <= dayOfEra < 36524 * (century + 1))
    by (unfold century; Z.to_euclidean_division_equations; lia).
  clearbody century. Z.to_euclidean_division_equations. lia.
Qed.

Lemma utc_month_day t : two_digits (u_month (utc t)) = true /\ two_digits (u_day (utc t)) = true.
Proof.
  pose proof (day_of_year_bounds ((t / 86400000 + 719468) mod 146097)
                (Z.mod_pos_bound _ 146097 ltac:(lia))) as Hd.
  unfold utc, two_digits. cbn [u_month u_day]. cbv zeta.
  set (doy := day_of_year _) in Hd |- *. clearbody doy.
  rewrite !andb_true_iff, !Z.leb_le, !Z.ltb_lt.
  destruct (Z.ltb_spec ((5 * doy + 2) / 153) 10); Z.to_euclidean_division_equations; lia.
Qed.

Lemma length_pad n : two_digits n = true -> String.length (pad n) = 2%nat.
Proof.
  assert (all_from 100 (fun n => Nat.eqb (String.length (pad n)) 2) 0 = true) as Hall
    by (by vm_compute).
  unfold two_digits. intros Hn. zbool. apply Nat.eqb_eq.
  apply (all_from_spec _ _ _ _ Hall). lia.
Qed.

Lemma length_pad_ms n : 0 <= n < 1000 -> String.length (pad_ms n) = 3%nat.
Proof.
  assert (all_from 1000 (fun n => Nat.eqb (String.length (pad_ms n)) 3) 0 = true) as Hall
    by (by vm_compute).
  intros Hn. apply Nat.eqb_eq. apply (all_from_spec _ _ _ _ Hall). lia.
Qed.

Lemma length_year n : 1000 <= n < 10000 -> String.length (bigint_toString n) = 4%nat.
Proof.
  assert (all_from (Z.to_nat 9000) (fun n => Nat.eqb (String.length (bigint_toString n)) 4) 1000 = true)
    as Hall by (by vm_compute).
  intros Hn. apply Nat.eqb_eq. apply (all_from_spec _ _ _ _ Hall).
  rewrite Z2Nat.id; lia.
Qed.

(** A time of four digits of year takes the seventeen bytes it has in a packet. *)
Lemma dateToInterledgerTime_length t :
  1000 <= u_year (utc t) < 10000 -> String.length (dateToInterledgerTime t) = 17%nat.
Proof.
  intros Hy. destruct (utc_month_day t) as [Hm Hd]. unfold dateToInterledgerTime.
  assert (two_digits (u_hours (utc t)) = true /\ two_digits (u_minutes (utc t)) = true /\
          two_digits (u_seconds (utc t)) = true /\ 0 <= u_ms (utc t) < 1000) as (Hh & Hmi & Hs & Hms).
  { unfold two_digits, utc. cbn [u_hours u_minutes u_seconds u_ms].
    pose proof (Z.mod_pos_bound t 86400000 ltac:(lia)).
    rewrite !andb_true_iff, !Z.leb_le, !Z.ltb_lt.
    split_and!; try (apply Z.div_pos; lia); try (apply Z.mod_pos_bound; lia).
    - apply Z.div_lt_upper_bound; lia.
    - pose proof (Z.mod_pos_bound (t mod 86400000 / 60000) 60). lia.
    - pose proof (Z.mod_pos_bound (t mod 86400000 / 1000) 60). lia. }
  rewrite !Text.length_append, length_year, !length_pad, length_pad_ms by done. done.
Qed.

(** *** Rewriting in place *)

Lemma buffer_write_inside buffer bytes offset n :
  List.length bytes = n -> (offset + n <= List.length buffer)%nat ->
  buffer_write buffer bytes offset n = take offset buffer ++ bytes ++ drop (offset + n) buffer.
Proof.
  intros <- Hfit. unfold buffer_write. rewrite (firstn_all2 (n:=List.length bytes) bytes) by lia.
  by rewrite (firstn_all2 bytes) by lia.
Qed.

Lemma write_twice (p x y : Buffer) c n m :
  List.length x = n -> (c + (n + m) <= List.length p)%nat ->
  take (c + n) (take c p ++ x ++ drop (c + n) p) ++ y ++
    drop (c + n + m) (take c p ++ x ++ drop (c + n) p)
  = take c p ++ x ++ y ++ drop (c + (n + m)) p.
Proof.
  intros <- Hfit. rewrite !(assoc_L (++) (take c p) x).
  assert (List.length (take c p ++ x) = c + List.length x)%nat as Hl
    by (rewrite length_app, length_take; lia).
  rewrite take_app_length' by done. rewrite drop_app_ge by lia.
  rewrite drop_drop, Hl. rewrite <- !(assoc_L (++)). do 3 f_equal.
  apply (f_equal (fun k => drop k p)). lia.
Qed.

Lemma length_ascii_bytes s : List.length (ascii_bytes s) = String.length s.
Proof. unfold ascii_bytes. rewrite length_fmap. induction s; simpl; auto. Qed.

(** C36. Rewriting a serialized packet changes its amount and its expiry and nothing
    else.  For an amount that is not zero and fits into 64 bits and a date with a year of
    four digits, the bytes before and after the two fields are kept, the field of the
    amount holds its big-endian bytes, which read back as the amount, and the field of
    the expiry the seventeen characters of the date. *)
Theorem packet_rewritten skip readLengthPrefix prepare amount expiresAt c0 c :
  skip prepare 0%nat 1%nat = Ret c0 ->
  readLengthPrefix prepare c0 = Ret c ->
  (forall p, List.length p = List.length prepare -> skip p c 8%nat = Ret (c + 8)%nat) ->
  (c + 25 <= List.length prepare)%nat ->
  0 < amount < 2 ^ 64 ->
  1000 <= u_year (utc expiresAt) < 10000 ->
  exists amountBytes dateBytes,
    modifySerializedIlpPrepare skip readLengthPrefix prepare (Some amount) (Some expiresAt)
      = Ret (take c prepare ++ amountBytes ++ dateBytes ++ drop (c + 25) prepare) /\
    List.length amountBytes = 8%nat /\ be_value amountBytes = amount /\
    List.length dateBytes = 17%nat /\ dateBytes = ascii_bytes (dateToInterledgerTime expiresAt).
Proof.
  intros Hskip Hprefix Hskip8 Hfit Ha Hy.
  destruct (amount_bytes_spec amount ltac:(lia)) as [Hval Hlen].
  pose proof (dateToInterledgerTime_length _ Hy) as Hdate. rewrite <- length_ascii_bytes in Hdate.
  exists (amount_bytes amount), (ascii_bytes (dateToInterledgerTime expiresAt)).
  split; [|by split_and!]. unfold modifySerializedIlpPrepare, then_at.
  rewrite Hskip, Hprefix, (truthy_Some_pos amount), orb_true_l by lia.
  assert (truthy amount = true) as -> by (by apply (truthy_Some_pos amount); lia).
  change (hex_decode (padStart (8 * 2) (toString16 amount))) with (amount_bytes amount).
  rewrite (buffer_write_inside prepare _ c 8 Hlen) by lia.
  rewrite Hskip8; [|rewrite !length_app, length_take, length_drop; lia].
  f_equal. rewrite buffer_write_inside; [|done|rewrite !length_app, length_take, length_drop; lia].
  exact (write_twice _ _ _ _ _ _ Hlen Hfit).
Qed.

Module Example.
(** A reader of packets with a length prefix of one byte. *)
Definition skip (p : Buffer) (cursor n : nat) : outcome nat :=
  if (cursor + n <=? List.length p)%nat then Ret (cursor + n)%nat else Throw (JsError "ParseError" "").
Definition readLengthPrefix (p : Buffer) (cursor : nat) : outcome nat := skip p cursor 1.

(** An amount of 255, then the expiry and the rest. *)
Definition packet : Buffer :=
  [x0c; x1d] ++ amount_bytes 255 ++ ascii_bytes "20200101000000000" ++ [x01; x02; x03; x04].

(** An amount of zero is not written: the packet keeps the amount it had. *)
Lemma zero_amount_kept :
  modifySerializedIlpPrepare skip readLengthPrefix packet (Some 0) None = Ret packet /\
  modifySerializedIlpPrepare skip readLengthPrefix packet (Some 0) (Some 1577836800000) = Ret packet /\
  be_value (take 8 (drop 2 packet)) = 255.
Proof. by vm_compute. Qed.
End Example.

Lemma packet_rewritten_witness :
  modifySerializedIlpPrepare Example.skip Example.readLengthPrefix Example.packet
    (Some 300) (Some 1609459200123)
  = Ret ([x0c; x1d; x00; x00; x00; x00; x00; x00; x01; x2c]
           ++ ascii_bytes "20210101000000123" ++ [x01; x02; x03; x04]) /\
  exists amountBytes dateBytes,
    modifySerializedIlpPrepare Example.skip Example.readLengthPrefix Example.packet
      (Some 300) (Some 1609459200123)
      = Ret (take 2 Example.packet ++ amountBytes ++ dateBytes ++ drop (2 + 25) Example.packet) /\
    List.length amountBytes = 8%nat /\ be_value amountBytes = 300 /\
    List.length dateBytes = 17%nat /\
    dateBytes = ascii_bytes (dateToInterledgerTime 1609459200123).
Proof.
  split; [by vm_compute|].
  apply (packet_rewritten Example.skip Example.readLengthPrefix Example.packet 300 1609459200123 1 2);
    [done|done| |vm_compute; lia|lia|vm_compute; split; [discriminate|reflexivity]].
  intros p Hp. unfold Example.skip. by rewrite Hp.
Defined.
