(* ===== verification/TokenBucket.v ===== *)
(** * TokenBucket: limits on packets over time

    Models [ilp/connector/core/utils/token-bucket.ts].  A bucket refills by whole tokens
    when something is taken from it; its rate is a double. *)

From S2P Require Import Prelude JsNumber.

Local Open Scope Z_scope.

Record TokenBucket := {
  tb_lastTime : Z;
  tb_left : Z;
  tb_capacity : Z;
  tb_refillRate : number
}.

(** [new TokenBucket({ refillPeriod, refillCount, capacity })] at the time [now]. *)
Definition newTokenBucket (now refillPeriod refillCount : Z) (capacity : option Z) : TokenBucket :=
  let capacity := default refillCount capacity in
  {| tb_lastTime := now; tb_left := capacity; tb_capacity := capacity;
     tb_refillRate := num_div (of_bigint refillCount) (of_bigint refillPeriod) |}.

(** [BigInt(Math.floor(delta * this._refillRate))]; [None] where it throws. *)
Definition refillAmount (now : Z) (b : TokenBucket) : option Z :=
  bigint_floor (num_mul (of_bigint (Z.max (now - tb_lastTime b) 0)) (tb_refillRate b)).

Definition take_tokens (now count : Z) (b : TokenBucket) : option (bool * TokenBucket) :=
  match refillAmount now b with
  | None => None
  | Some refill =>
      let left := if tb_left b + refill <? tb_capacity b then tb_left b + refill
                  else tb_capacity b in
      let b' left := {| tb_lastTime := now; tb_left := left; tb_capacity := tb_capacity b;
                        tb_refillRate := tb_refillRate b |} in
      if left <? count then Some (false, b' left) else Some (true, b' (left - count))
  end.

(** A bucket holds at most its capacity, and nothing negative. *)
Record bucket_wf (b : TokenBucket) : Prop := {
  left_bounds : 0 <= tb_left b <= tb_capacity b;
  rate_nonneg : nonneg (tb_refillRate b) = true
}.

Lemma newTokenBucket_wf now period count capacity :
  0 <= period -> 0 <= count -> (forall c, capacity = Some c -> 0 <= c) ->
  bucket_wf (newTokenBucket now period count capacity).
Proof.
  intros Hp Hc Hcap. constructor; simpl.
  - destruct capacity as [c|]; simpl; [specialize (Hcap c eq_refl)|]; lia.
  - by apply num_div_nonneg; apply of_bigint_nonneg.
Qed.

Lemma refillAmount_nonneg now b refill :
  bucket_wf b -> refillAmount now b = Some refill -> 0 <= refill.
Proof.
  intros [_ Hr]. apply bigint_floor_nonneg, num_mul_nonneg; [|done].
  apply of_bigint_nonneg. lia.
Qed.

Lemma take_tokens_spec now count b ok b' :
  bucket_wf b -> 0 <= count -> take_tokens now count b = Some (ok, b') ->
  bucket_wf b' /\ tb_capacity b' = tb_capacity b /\ tb_refillRate b' = tb_refillRate b /\
  tb_lastTime b' = now /\
  exists refill, refillAmount now b = Some refill /\ 0 <= refill /\
    tb_left b' + (if ok then count else 0) = Z.min (tb_left b + refill) (tb_capacity b) /\
    ok = (count <=? Z.min (tb_left b + refill) (tb_capacity b)).
Proof.
  intros Hwf Hcount. unfold take_tokens.
  destruct (refillAmount now b) as [refill|] eqn:E; [|done].
  pose proof (refillAmount_nonneg _ _ _ Hwf E) as Hr. destruct Hwf as [Hl Hrate].
  set (left := if tb_left b + refill <? tb_capacity b then _ else _).
  assert (left = Z.min (tb_left b + refill) (tb_capacity b)) as Hleft.
  { unfold left. destruct (Z.ltb_spec (tb_left b + refill) (tb_capacity b)); lia. }
  destruct (Z.ltb_spec left count); intros [= <- <-]; simpl.
  - split; [by constructor; simpl; [lia|]|]. split_and!; try done. exists refill.
    rewrite <- Hleft. split_and!; try done; [lia|]. symmetry. apply Z.leb_gt. lia.
  - split; [by constructor; simpl; [lia|]|]. split_and!; try done. exists refill.
    rewrite <- Hleft. split_and!; try done; [lia|]. symmetry. apply Z.leb_le. lia.
Qed.

(** ** A history of a bucket *)

(** The tokens that were taken and the tokens the bucket was refilled with. *)
Fixpoint run (takes : list (Z * Z)) (b : TokenBucket) : option (Z * Z * TokenBucket) :=
  match takes with
  | [] => Some (0, 0, b)
  | (now, count) :: takes =>
      match refillAmount now b, take_tokens now count b with
      | Some refill, Some (ok, b') =>
          match run takes b' with
          | Some (taken, refilled, b'') =>
              Some ((if ok then count else 0) + taken, refill + refilled, b'')
          | None => None
          end
      | _, _ => None
      end
  end.

(** What is let through is bounded by what was left and what was refilled. *)
Lemma run_bounded takes b taken refilled b' :
  bucket_wf b -> Forall (fun '(_, count) => 0 <= count) takes ->
  run takes b = Some (taken, refilled, b') ->
  bucket_wf b' /\ taken + tb_left b' <= tb_left b + refilled.
Proof.
  revert b taken refilled. induction takes as [|[now count] takes IH];
    intros b taken refilled Hwf Hall; simpl; [intros [= <- <- <-]; split; [done|lia]|].
  apply Forall_cons in Hall as [Hcount Hall].
  destruct (refillAmount now b) as [refill|] eqn:Hr; [|done].
  destruct (take_tokens now count b) as [[ok b1]|] eqn:Ht; [|done].
  destruct (run takes b1) as [[[t r] b2]|] eqn:Hrun; [|done]. intros [= <- <- <-].
  destruct (take_tokens_spec _ _ _ _ _ Hwf Hcount Ht) as (Hwf1 & _ & _ & _ & r' & Hr' & _ & Hl & _).
  rewrite Hr in Hr'. injection Hr' as <-.
  destruct (IH _ _ _ Hwf1 Hall Hrun) as [Hwf2 Hb]. split; [done|]. lia.
Qed.

Module Example.
(** A limit of ten thousand packets a minute, used up; then one packet every five
    milliseconds: each refill is less than a token and is dropped, though the time
    counts as refilled, so that no packet ever gets through again at this pace. *)
Definition exhausted : TokenBucket :=
  {| tb_lastTime := 0; tb_left := 0; tb_capacity := 10000;
     tb_refillRate := tb_refillRate (newTokenBucket 0 60000 10000 None) |}.
Definition every (step : Z) (n : nat) : list (Z * Z) :=
  (fun i => (step * Z.of_nat i, 1)) <$> seq 1 n.

Lemma starved :
  fst <$> run (every 5 60) exhausted = Some (0, 0) /\
  fst <$> run (every 300 1) exhausted = Some (1, 50).
Proof. by vm_compute. Qed.
End Example.
