(* ===== verification/Routing.v ===== *)
(** * Routing: the routing table of the connector

    Models [ilp/connector/ilp-routing/service.ts].  The table is the in-memory store of
    [Cache]: under [tenantId:prefix] the peers, with the asset of the peering, that a packet
    for an address under the prefix may go to.  [Math.floor(Math.random() * n)] is a number
    [random n]. *)

From S2P Require Import Prelude Cache.
From S2P Require Text.

Local Open Scope Z_scope.
Local Open Scope ts_scope.

Record RouteEntry := { re_peerId : string; re_assetId : string }.

#[global] Instance RouteEntry_eq_dec : EqDecision RouteEntry.
Proof. solve_decision. Defined.

Abbreviation Routes := (Cache (list RouteEntry)).

(** [Number.MAX_SAFE_INTEGER], the time to live of the store of [staticRoutesStore]. *)
Definition MAX_SAFE_INTEGER : Z := 2 ^ 53 - 1.

Section Router.
Context (now : Z) (random : nat -> nat).

Definition routes_get (key : string) : M Routes (option (list RouteEntry)) :=
  fun m => let '(routes, m) := cache_get now key m in (Ret routes, m).
Definition routes_set (key : string) (routes : list RouteEntry) : M Routes unit :=
  modify (cache_set MAX_SAFE_INTEGER now key routes).
Definition routes_delete (key : string) : M Routes unit := modify (deleteKey key).

Definition route_key (tenantId prefix : string) : string := tenantId +:+ ":" +:+ prefix.

Definition addStaticRoute (destination peerId tenantId assetId : string) : M Routes unit :=
  let key := route_key tenantId destination in
  let! found := routes_get key in
  let existingRoutes := default [] found in
  let route := {| re_peerId := peerId; re_assetId := assetId |} in
  if is_some (find_where (fun r => bool_decide (re_peerId r = peerId)
                                   && bool_decide (re_assetId r = assetId)) existingRoutes)
  then ret tt
  else routes_set key (existingRoutes ++ [route]).

Definition removeStaticRoute (destination peerId tenantId assetId : string) : M Routes unit :=
  let key := route_key tenantId destination in
  let! existingRoutes := routes_get key in
  match existingRoutes with
  | Some existingRoutes =>
      match List.filter (fun r => negb (bool_decide (re_peerId r = peerId)
                                        && bool_decide (re_assetId r = assetId))) existingRoutes with
      | [] => routes_delete key
      | updatedRoutes => routes_set key updatedRoutes
      end
  | None => ret tt
  end.

(** [segments.slice(0, i).join('.')] *)
Definition prefix_of (segments : list string) (i : nat) : string :=
  String.concat "." (take i segments).

(** The routes a packet may take: not back to where it came from, and of the asset. *)
Definition eligible (incomingPeerId assetId : option string) (r : RouteEntry) : bool :=
  negb (truthy incomingPeerId && bool_decide (Some (re_peerId r) = incomingPeerId))
  && negb (truthy assetId && negb (bool_decide (Some (re_assetId r) = assetId))).

Definition select_route (filteredRoutes : list RouteEntry) : M Routes RouteEntry :=
  match filteredRoutes !! (if (List.length filteredRoutes =? 1)%nat then 0%nat
                           else random (List.length filteredRoutes)) with
  | Some route => ret route
  | None => throw (JsError "TypeError" "")
  end.

(** The loop of [getNextHop], from the prefix of [i] segments down. *)
Fixpoint next_hop (tenantId : string) (incomingPeerId assetId : option string)
    (segments : list string) (i : nat) : M Routes (option string) :=
  match i with
  | O => ret None
  | S i' =>
      let! routes := routes_get (route_key tenantId (prefix_of segments i)) in
      match List.filter (eligible incomingPeerId assetId) (default [] routes) with
      | [] => next_hop tenantId incomingPeerId assetId segments i'
      | filteredRoutes => let! route := select_route filteredRoutes in ret (Some (re_peerId route))
      end
  end.

Definition getNextHop (destination tenantId : string) (incomingPeerId assetId : option string)
  : M Routes (option string) :=
  let segments := Text.split "." destination in
  next_hop tenantId incomingPeerId assetId segments (List.length segments).
End Router.

(** ** What is in the table *)

(** The entries of a prefix. *)
Definition routes_of (m : Routes) (tenantId prefix : string) : list RouteEntry :=
  default [] (data <$> m !! route_key tenantId prefix).

(** No entry has expired. *)
Definition unexpired (now : Z) (m : Routes) : Prop :=
  forall key c, m !! key = Some c -> now < expiry c.

(** At the time [now], of a table whose entries live until after [t]. *)
Section Specs.
Context (now t : Z) (Hnow : now <= t < now + MAX_SAFE_INTEGER).
Implicit Types m : Routes.

Lemma routes_get_unexpired key m :
  unexpired t m -> routes_get now key m = (Ret (data <$> m !! key), m).
Proof.
  intros Hm. unfold routes_get, cache_get, getAndCheckExpiry.
  destruct (m !! key) as [c|] eqn:E; [|done]. pose proof (Hm _ _ E).
  destruct (Z.leb_spec (expiry c) now); [lia|]. by rewrite andb_false_r.
Qed.

Lemma unexpired_set key routes m :
  unexpired t m -> unexpired t (cache_set MAX_SAFE_INTEGER now key routes m).
Proof.
  intros Hm key' c. unfold cache_set. destruct (decide (key' = key)) as [->|Hne].
  - rewrite lookup_insert_eq. intros [= <-]. simpl. lia.
  - rewrite lookup_insert_ne by done. apply Hm.
Qed.

Lemma unexpired_delete key m : unexpired t m -> unexpired t (deleteKey key m).
Proof.
  intros Hm key' c. unfold deleteKey. destruct (decide (key' = key)) as [->|Hne].
  - by rewrite lookup_delete_eq.
  - rewrite lookup_delete_ne by done. apply Hm.
Qed.
Lemma routes_of_set key routes m tenantId prefix :
  routes_of (cache_set MAX_SAFE_INTEGER now key routes m) tenantId prefix
  = if bool_decide (route_key tenantId prefix = key) then routes else routes_of m tenantId prefix.
Proof.
  unfold routes_of, cache_set. case_bool_decide as Hk; [by rewrite Hk, lookup_insert_eq|].
  by rewrite lookup_insert_ne.
Qed.

Lemma routes_of_delete key m tenantId prefix :
  routes_of (deleteKey key m) tenantId prefix
  = if bool_decide (route_key tenantId prefix = key) then [] else routes_of m tenantId prefix.
Proof.
  unfold routes_of, deleteKey. case_bool_decide as Hk; [by rewrite Hk, lookup_delete_eq|].
  by rewrite lookup_delete_ne.
Qed.

(** Adding a route adds its entry, once. *)
Lemma addStaticRoute_spec destination peerId tenantId assetId m :
  unexpired t m ->
  exists m', addStaticRoute now destination peerId tenantId assetId m = (Ret tt, m') /\
    unexpired t m' /\
    forall tenant p e, e ∈ routes_of m' tenant p <->
      e ∈ routes_of m tenant p \/
      (route_key tenant p = route_key tenantId destination /\
       e = {| re_peerId := peerId; re_assetId := assetId |}).
Proof.
  intros Hm. unfold addStaticRoute, bind. rewrite routes_get_unexpired by done.
  destruct (find_where _ _) as [r|] eqn:Hfind; simpl.
  - exists m. split_and!; [done|done|]. intros tenant p e. split; [by left|].
    intros [He|[Hk ->]]; [done|]. apply find_where_Some in Hfind as [Hr Hb].
    apply andb_true_iff in Hb as [<-%bool_decide_eq_true <-%bool_decide_eq_true]. unfold routes_of. rewrite Hk. by destruct r.
  - eexists. split; [done|]. split; [by apply unexpired_set|]. intros tenant p e.
    rewrite routes_of_set. case_bool_decide as Hk; [|naive_solver].
    unfold routes_of. rewrite Hk, elem_of_app, list_elem_of_singleton. naive_solver.
Qed.

(** Removing a route removes that entry and no other. *)
Lemma removeStaticRoute_spec destination peerId tenantId assetId m :
  unexpired t m ->
  exists m', removeStaticRoute now destination peerId tenantId assetId m = (Ret tt, m') /\
    unexpired t m' /\
    forall tenant p e, e ∈ routes_of m' tenant p <->
      e ∈ routes_of m tenant p /\
      ~ (route_key tenant p = route_key tenantId destination /\
         e = {| re_peerId := peerId; re_assetId := assetId |}).
Proof.
  intros Hm. unfold removeStaticRoute, bind. rewrite routes_get_unexpired by done.
  destruct (m !! route_key tenantId destination) as [c|] eqn:E; simpl.
  - set (kept := List.filter _ (data c)).
    assert (forall e, e ∈ kept <-> e ∈ data c /\ e <> {| re_peerId := peerId; re_assetId := assetId |})
      as Hkept.
    { intros e. unfold kept. rewrite elem_of_filter_bool. destruct e as [p a]. simpl.
      split; [intros [Hne He]|intros [He Hne]]; (split; [|done]) || (split; [done|]).
      - intros [= -> ->]. by rewrite !bool_decide_true in Hne.
      - do 2 case_bool_decide; simpl; congruence. }
    assert (exists m', (match kept with
      | [] => routes_delete (route_key tenantId destination)
      | _ => routes_set now (route_key tenantId destination) kept end) m = (Ret tt, m') /\
      unexpired t m' /\ forall tenant p, routes_of m' tenant p =
        if bool_decide (route_key tenant p = route_key tenantId destination) then kept else routes_of m tenant p)
      as (m' & Hrun & Hun & Hof).
    { destruct kept as [|r l].
      - eexists. split; [done|]. split; [by apply unexpired_delete|]. intros. apply routes_of_delete.
      - eexists. split; [done|]. split; [by apply unexpired_set|]. intros. apply routes_of_set. }
    exists m'. split; [by destruct kept|]. split; [done|]. intros tenant p e. rewrite Hof.
    case_bool_decide as Hk; [|naive_solver]. rewrite Hkept. unfold routes_of. rewrite Hk, E. naive_solver.
  - exists m. split_and!; [done|done|]. intros tenant p e. split; [|naive_solver].
    intros He. split; [done|]. intros [Hk _]. unfold routes_of in He. rewrite Hk, E in He. by inversion He.
Qed.

(** ** Longest prefix *)

(** What a packet for [destination] may take at its prefix of [i] segments. *)
Definition candidates m (tenantId : string) (incomingPeerId assetId : option string)
    (destination : string) (i : nat) : list RouteEntry :=
  List.filter (eligible incomingPeerId assetId)
    (routes_of m tenantId (prefix_of (Text.split "." destination) i)).

Definition is_next_hop m tenantId incomingPeerId assetId destination (n : nat) (r : option string)
  : Prop :=
  match r with
  | Some peerId => exists i route,
      (1 <= i <= n)%nat /\
      route ∈ candidates m tenantId incomingPeerId assetId destination i /\
      re_peerId route = peerId /\
      forall j, (i < j <= n)%nat -> candidates m tenantId incomingPeerId assetId destination j = []
  | None => forall j, (1 <= j <= n)%nat ->
      candidates m tenantId incomingPeerId assetId destination j = []
  end.

Context (random : nat -> nat) (Hrandom : forall n, (0 < n)%nat -> (random n < n)%nat).

Lemma select_route_spec l m :
  l <> [] -> exists route, select_route random l m = (Ret route, m) /\ route ∈ l.
Proof.
  intros Hl. unfold select_route.
  destruct (l !! _) as [route|] eqn:E.
  - exists route. split; [done|]. by eapply list_elem_of_lookup_2.
  - apply lookup_ge_None in E. destruct l as [|r [|r' l]]; [done|simpl in E; lia|].
    pose proof (Hrandom (List.length (r :: r' :: l)) ltac:(simpl; lia)). simpl in *. lia.
Qed.

Lemma next_hop_spec tenantId incomingPeerId assetId destination n m :
  unexpired t m ->
  exists r, next_hop now random tenantId incomingPeerId assetId (Text.split "." destination) n m
            = (Ret r, m) /\
    is_next_hop m tenantId incomingPeerId assetId destination n r.
Proof.
  intros Hm. induction n as [|n (r & Hrun & Hr)].
  - exists None. split; [done|]. intros j Hj. lia.
  - cbn [next_hop]. unfold bind at 1. rewrite routes_get_unexpired by done. cbv beta iota.
    fold (routes_of m tenantId (prefix_of (Text.split "." destination) (S n))).
    fold (candidates m tenantId incomingPeerId assetId destination (S n)).
    destruct (candidates m tenantId incomingPeerId assetId destination (S n)) as [|e l] eqn:Hc.
    + exists r. split; [exact Hrun|]. destruct r as [peerId|]; simpl in Hr |- *.
      * destruct Hr as (i & route & Hi & He & Hp & Hj). exists i, route.
        split; [lia|]. split; [done|]. split; [done|]. intros j Hjn.
        destruct (decide (j = S n)) as [->|]; [done|]. apply Hj. lia.
      * intros j Hj. destruct (decide (j = S n)) as [->|]; [done|]. apply Hr. lia.
    + destruct (select_route_spec (e :: l) m ltac:(done)) as (route & Hsel & Hin).
      exists (Some (re_peerId route)). unfold bind. rewrite Hsel. split; [done|].
      exists (S n), route. split; [lia|]. split; [by rewrite Hc|]. split; [done|]. intros j Hj. lia.
Qed.
End Specs.

(** Whatever is in the table, a packet is not sent back to where it came from. *)
Lemma next_hop_eligible now random tenantId incomingPeerId assetId segments n m peerId m' :
  next_hop now random tenantId incomingPeerId assetId segments n m = (Ret (Some peerId), m') ->
  exists route, eligible incomingPeerId assetId route = true /\ re_peerId route = peerId.
Proof.
  revert m. induction n as [|n IH]; intros m; cbn [next_hop]; [done|]. unfold bind at 1.
  destruct (routes_get now _ m) as [[routes|e] m1]; [|done].
  destruct (List.filter _ _) as [|e l] eqn:Hl; [apply IH|].
  unfold bind, select_route. destruct ((e :: l) !! _) as [route|] eqn:E; [|done].
  intros [= <- _]. exists route. split; [|done].
  apply list_elem_of_lookup_2 in E. rewrite <- Hl in E. by apply elem_of_filter_bool in E as [? _].
Qed.

(** A route that does not go back to the peer a packet came from, when that is given, and is
    of the asset, when one is asked for. *)
Definition allowed (incomingPeerId assetId : option string) (r : RouteEntry) : Prop :=
  (forall id, incomingPeerId = Some id -> id <> ""%string -> re_peerId r <> id) /\
  (forall a, assetId = Some a -> a <> ""%string -> re_assetId r = a).

Lemma truthy_string (s : string) : truthy (Some s) = true <-> s <> ""%string.
Proof. by destruct s. Qed.

Lemma eligible_allowed incomingPeerId assetId r :
  eligible incomingPeerId assetId r = true <-> allowed incomingPeerId assetId r.
Proof.
  unfold eligible, allowed. rewrite andb_true_iff, !negb_true_iff, !andb_false_iff, negb_false_iff,
    bool_decide_eq_false, bool_decide_eq_true, <- !not_true_iff_false.
  split.
  - intros [Hp Ha]. split.
    + intros id -> Hne. rewrite truthy_string in Hp. naive_solver.
    + intros a -> Hne. rewrite truthy_string in Ha. naive_solver.
  - intros [Hp Ha]. split.
    + destruct incomingPeerId as [id|]; [|by left]. rewrite truthy_string.
      destruct (decide (id = ""%string)); naive_solver.
    + destruct assetId as [a|]; [|by left]. rewrite truthy_string.
      destruct (decide (a = ""%string)); naive_solver.
Qed.

(** C28. Longest prefix.  The next hop of a packet is a peer that is routed at the longest
    prefix of its destination, in whole segments, at which there is a route of the tenant
    that does not go back to the peer the packet came from and is of the wanted asset;
    there is none only if no prefix has such a route.  Looking up changes nothing.  ([allowed]
    is what the code's filter, of which the candidates are made, lets through.) *)
Theorem getNextHop_longest_prefix now random destination tenantId incomingPeerId assetId m :
  (forall n, (0 < n)%nat -> (random n < n)%nat) -> unexpired now m ->
  exists r, getNextHop now random destination tenantId incomingPeerId assetId m = (Ret r, m) /\
    is_next_hop m tenantId incomingPeerId assetId destination
      (List.length (Text.split "." destination)) r /\
    forall i route, route ∈ candidates m tenantId incomingPeerId assetId destination i <->
      route ∈ routes_of m tenantId (prefix_of (Text.split "." destination) i) /\
      allowed incomingPeerId assetId route.
Proof.
  intros Hrandom Hm.
  destruct (next_hop_spec now now ltac:(unfold MAX_SAFE_INTEGER; lia) random Hrandom tenantId incomingPeerId assetId
              destination (List.length (Text.split "." destination)) m Hm) as (r & Hr & Hhop).
  exists r. split; [exact Hr|]. split; [exact Hhop|]. intros i route.
  unfold candidates. rewrite elem_of_filter_bool, eligible_allowed. tauto.
Qed.

Module Example.
Definition now : Z := 1577836800000.
Definition add (destination peerId : string) : Routes -> Routes :=
  fun m => (addStaticRoute now destination peerId "tenant" "usd" m).2.
(** A peer for all of [test], and one for a part. *)
Definition table : Routes := add "test.bob" "bob" (add "test" "carol" ∅).
End Example.

Lemma getNextHop_longest_prefix_witness :
  getNextHop Example.now (fun _ => 0%nat) "test.bob.dave" "tenant" None None Example.table
    = (Ret (Some "bob"%string), Example.table) /\
  getNextHop Example.now (fun _ => 0%nat) "test.bob.dave" "tenant" (Some "bob"%string) None Example.table
    = (Ret (Some "carol"%string), Example.table) /\
  is_next_hop Example.table "tenant" (Some "bob"%string) None "test.bob.dave" 3 (Some "carol"%string).
Proof.
  split; [by vm_compute|]. split; [by vm_compute|].
  assert (unexpired Example.now Example.table) as Hm.
  { assert (unexpired Example.now (∅ : Routes)) as H0 by (intros key c; by rewrite lookup_empty).
    unfold Example.table, Example.add.
    destruct (addStaticRoute_spec Example.now Example.now ltac:(done) "test" "carol" "tenant" "usd" ∅ H0)
      as (m1 & -> & H1 & _). simpl.
    by destruct (addStaticRoute_spec Example.now Example.now ltac:(done) "test.bob" "bob" "tenant" "usd" m1 H1)
      as (m2 & -> & H2 & _). }
  destruct (getNextHop_longest_prefix Example.now (fun _ => 0%nat) "test.bob.dave" "tenant"
              (Some "bob"%string) None Example.table ltac:(intros n Hn; exact Hn) Hm) as (r & Hr & Hhop & _).
  assert ((getNextHop Example.now (fun _ => 0%nat) "test.bob.dave" "tenant" (Some "bob"%string) None
             Example.table).1 = Ret (Some "carol"%string)) as Hc by (by vm_compute).
  rewrite Hr in Hc. injection Hc as ->. exact Hhop.
Defined.
