(* ===== verification/Peers.v ===== *)
(** * Peers: the peers of the node and their routes

    Models [ilp/peer/{service,model,errors}.ts], [ilp/peer-http-token/service.ts],
    [isValidHttpUrl] of [shared/utils.ts] and [loadRoutesFromDatabase] of [index.ts].  The
    tables are [peers] and [httpTokens]; [routingTable] is the table of [Routing], which is
    in memory: a transaction that throws restores the two tables and leaves it.  What such a
    transaction leaves of what it asked of the accounting service, to which it is passed,
    is [unwind].  [routes] of a peer may be [null]; columns of [bigint] are 64 bits wide. *)

From S2P Require Import Prelude Shared Service Cache Pagination OpenPayments Accounting Routing.
From S2P Require Text.

Local Open Scope Z_scope.
Local Open Scope ts_scope.

(** ** [peer/errors.ts] and [peer-http-token/errors.ts] *)

Inductive PeerError :=
| DuplicateIncomingToken | DuplicatePeer | InvalidStaticIlpAddress | InvalidHTTPEndpoint
| PeerUnknownAsset | UnknownPeer | InvalidInitialLiquidity.

#[global] Instance PeerError_eq_dec : EqDecision PeerError.
Proof. solve_decision. Defined.

Definition PeerError_value (e : PeerError) : string :=
  match e with
  | DuplicateIncomingToken => "DuplicateIncomingToken"
  | DuplicatePeer => "DuplicatePeer"
  | InvalidStaticIlpAddress => "InvalidStaticIlpAddress"
  | InvalidHTTPEndpoint => "InvalidHTTPEndpoint"
  | PeerUnknownAsset => "UnknownAsset"
  | UnknownPeer => "UnknownPeer"
  | InvalidInitialLiquidity => "InvalidInitialLiquidity"
  end.
Definition all_PeerErrors : list PeerError :=
  [DuplicateIncomingToken; DuplicatePeer; InvalidStaticIlpAddress; InvalidHTTPEndpoint;
   PeerUnknownAsset; UnknownPeer; InvalidInitialLiquidity].

(** A [PeerError] that is thrown, and [isPeerError] of what is caught. *)
Definition throw_peer {S A} (e : PeerError) : M S A := throw (ThrownString (PeerError_value e)).
Definition isPeerError (err : exn) : option PeerError :=
  match err with
  | ThrownString s => find_where (fun e => bool_decide (PeerError_value e = s)) all_PeerErrors
  | _ => None
  end.

Inductive HttpTokenError := DuplicateToken | TokenUnknownPeer.
Definition HttpTokenError_value (e : HttpTokenError) : string :=
  match e with DuplicateToken => "DuplicateToken" | TokenUnknownPeer => "UnknownPeer" end.

(** ** The tables *)

Record HttpOutgoing := { authToken : string; endpoint : string }.

(** A row, with the asset that is fetched along. *)
Record Peer := {
  p_id : string;
  p_tenantId : string;
  p_assetId : string;
  p_asset : option Asset;
  p_outgoing : HttpOutgoing;
  p_maxPacketAmount : option Z;
  p_staticIlpAddress : string;
  p_name : option string;
  p_liquidityThreshold : option Z;
  p_routes : option (list string);
  p_createdAt : Z
}.

#[global] Instance Peer_model : BaseModel Peer := { id := p_id; createdAt := p_createdAt }.

Definition with_asset (a : option Asset) (p : Peer) : Peer :=
  {| p_id := p_id p; p_tenantId := p_tenantId p; p_assetId := p_assetId p;
     p_asset := match a with Some a => Some a | None => p_asset p end;
     p_outgoing := p_outgoing p; p_maxPacketAmount := p_maxPacketAmount p;
     p_staticIlpAddress := p_staticIlpAddress p; p_name := p_name p;
     p_liquidityThreshold := p_liquidityThreshold p; p_routes := p_routes p;
     p_createdAt := p_createdAt p |}.

(** [peer.http]: there is none when the token is empty. *)
Definition peer_http (p : Peer) : option HttpOutgoing :=
  if truthy (authToken (p_outgoing p)) then Some (p_outgoing p) else None.

Record HttpToken := { ht_id : string; ht_token : string; ht_peerId : string }.

Record PeerDb := {
  peers : list Peer;
  httpTokens : list HttpToken;
  routingTable : Routes
}.

Record HttpOptions := { h_incoming : option (list string); h_outgoing : HttpOutgoing }.

Record CreatePeerOptions := {
  cp_http : HttpOptions;
  cp_maxPacketAmount : option Z;
  cp_staticIlpAddress : string;
  cp_name : option string;
  cp_liquidityThreshold : option Z;
  cp_initialLiquidity : option Z;
  cp_routes : option (list string);
  cp_assetId : string;
  cp_tenantId : option string
}.

(** What is not given is not changed. *)
Record UpdatePeerOptions := {
  up_id : string;
  up_http : option HttpOptions;
  up_maxPacketAmount : option Z;
  up_staticIlpAddress : option string;
  up_name : option string;
  up_liquidityThreshold : option Z;
  up_routes : option (list string);
  up_tenantId : option string
}.

(** [peer.liquidity_low]: the peer, with its asset, and its balance. *)
Record PeerEvent := { pe_peer : Peer; pe_balance : Z }.

(** A parsed URL. *)
Record Url := { protocol : string; hostname : string }.

(** The libraries and the services that are called. *)
Class PeerServices (X : Type) := {
  isValidIlpAddress : string -> bool;
  (* [new URL(s)], [None] where it throws *)
  parse_url : string -> option Url;
  (* [assetService.get(id, tenantId)] *)
  assetService_get : string -> option string -> M X (option Asset);
  peer_accounting : AccountingService X;
  (* The row of the asset. *)
  asset_fetch : string -> M X (option Asset);
  (* [asset.asset] *)
  toAsset : Asset -> LiquidityAccountAsset X;
  (* [PeerEvent.query().insertGraph] *)
  insertPeerEvent : PeerEvent -> M X unit;
  unwind : X -> X -> X;
  (* [Math.floor(Math.random() * n)] *)
  random_index : nat -> nat
}.

Definition fits_bigint (z : option Z) : bool :=
  match z with Some z => (- 2 ^ 63 <=? z) && (z <? 2 ^ 63) | None => true end.

Section PeerService.
Context {X : Type} `{Uuid} `{!PeerServices X}.

Definition PeerState : Type := Svc PeerDb X.

Definition isValidHttpUrl (receivedUrl : string) : bool :=
  match parse_url (Text.trim_left (Text.trim_right receivedUrl)) with
  | None => false
  | Some url =>
      if negb (bool_decide (protocol url = "http:"%string))
         && negb (bool_decide (protocol url = "https:"%string)) then false
      else if bool_decide (hostname url = ""%string) then false
      else negb (existsb (fun part => bool_decide (part = ""%string)) (Text.split "." (hostname url)))
  end.

(** A Postgres transaction over the two tables, passed to the accounting service. *)
Definition peer_transaction {A} (m : M PeerState A) : M PeerState A :=
  with_transaction (fun s s' =>
    {| db := {| peers := peers (db s); httpTokens := httpTokens (db s);
                routingTable := routingTable (db s') |};
       now := now s'; fresh := Service.fresh s'; ext := unwind (ext s) (ext s') |}) m.

Definition on_routes {A} (m : Z -> M Routes A) : M PeerState A :=
  fun s => let '(r, table) := m (now s) (routingTable (db s)) in
           (r, set_db {| peers := peers (db s); httpTokens := httpTokens (db s);
                         routingTable := table |} s).
Definition set_peers (f : list Peer -> list Peer) : M PeerState unit :=
  db_set (fun d => {| peers := f (peers d); httpTokens := httpTokens d;
                      routingTable := routingTable d |}).
Definition set_tokens (f : list HttpToken -> list HttpToken) : M PeerState unit :=
  db_set (fun d => {| peers := peers d; httpTokens := f (httpTokens d);
                      routingTable := routingTable d |}).

(** *** [peer-http-token/service.ts] *)

(** The rows of one [INSERT] have new tokens, each its own, of peers of the table. *)
Fixpoint insert_tokens (tokens : list (string * string)) : M PeerState unit :=
  match tokens with
  | [] => ret tt
  | (peerId, token) :: tokens =>
      let! tid := uuid in
      let! d := db_get (fun d => d) in
      if existsb (fun t => bool_decide (ht_token t = token)) (httpTokens d)
      then throw (UniqueViolationError "httptokens_token_unique")
      else if existsb (fun p => bool_decide (p_id p = peerId)) (peers d) then
        set_tokens (fun l => l ++ [{| ht_id := tid; ht_token := token; ht_peerId := peerId |}]) ;;!
        insert_tokens tokens
      else throw (ForeignKeyViolationError "httptokens_peerid_foreign")
  end.

(** A failed [INSERT] leaves nothing; its error is what is returned. *)
Definition createHttpTokens (tokens : list (string * string)) : M PeerState (option HttpTokenError) :=
  try_catch
    (transaction (insert_tokens tokens) ;;! ret None)
    (fun err => match err with
                | ForeignKeyViolationError _ => ret (Some TokenUnknownPeer)
                | UniqueViolationError _ => ret (Some DuplicateToken)
                | _ => throw err
                end).

Definition deleteHttpTokensByPeer (peerId : string) : M PeerState unit :=
  set_tokens (List.filter (fun t => negb (bool_decide (ht_peerId t = peerId)))).

(** The token with its peer, and the asset of the peer. *)
Definition getHttpToken (token : string) : M PeerState (option Peer) :=
  let! d := db_get (fun d => d) in
  match find_where (fun t => bool_decide (ht_token t = token)) (httpTokens d) with
  | None => ret None
  | Some t =>
      match find_where (fun p => bool_decide (p_id p = ht_peerId t)) (peers d) with
      | None => ret None
      | Some peer =>
          let! asset := lift (asset_fetch (p_assetId peer)) in
          ret (Some (with_asset asset peer))
      end
  end.

(** *** [peer/model.ts] *)

Definition peer_onDebit (p : Peer) (options : OnDebitOptions) : M X unit :=
  match p_liquidityThreshold p with
  | Some liquidityThreshold =>
      if balance options <=? liquidityThreshold
      then insertPeerEvent {| pe_peer := p; pe_balance := balance options |}
      else ret tt
  | None => ret tt
  end.

Definition peer_account (p : Peer) (a : Asset) : LiquidityAccount X :=
  {| account_id := p_id p; account_asset := toAsset a; account_onCredit := None;
     account_onDebit := Some (peer_onDebit p) |}.
(** *** [peer/service.ts] *)

Definition getPeer (id : string) (tenantId : option string) : M PeerState (option Peer) :=
  let! found := db_get (fun d => find_where (fun p =>
    (negb (truthy tenantId) || bool_decide (Some (p_tenantId p) = tenantId))
    && bool_decide (p_id p = id)) (peers d)) in
  match found with
  | Some peer =>
      let! asset := lift (assetService_get (p_assetId peer) None) in
      ret (Some (with_asset asset peer))
  | None => ret None
  end.

Definition addIncomingHttpTokens (peerId : string) (tokens : list string)
  : M PeerState (option PeerError) :=
  let! err := createHttpTokens ((fun token => (peerId, token)) <$> tokens) in
  match err with
  | Some DuplicateToken => ret (Some DuplicateIncomingToken)
  | Some e => throw_error (HttpTokenError_value e)
  | None => ret None
  end.

(** [asset] is the asset of the peer; a peer without one makes the account throw. *)
Definition depositLiquidity (peer : Peer) (amount : Z) (transferId : option string)
  : M PeerState (option TransferError) :=
  let! id := match transferId with Some id => ret id | None => uuid end in
  match p_asset peer with
  | Some asset =>
      lift (createDeposit peer_accounting
        {| deposit_id := id; deposit_account := peer_account peer asset; deposit_amount := amount |})
  | None => throw (JsError "TypeError" "")
  end.

Definition add_routes (peer : Peer) : list string -> M PeerState unit :=
  fix add routes :=
    match routes with
    | [] => ret tt
    | route :: routes =>
        on_routes (fun now => addStaticRoute now route (p_id peer) (p_tenantId peer) (p_assetId peer)) ;;!
        add routes
    end.

Definition syncPeerRoutes (peer : Peer) : M PeerState unit :=
  on_routes (fun now => addStaticRoute now (p_staticIlpAddress peer) (p_id peer) (p_tenantId peer)
                          (p_assetId peer)) ;;!
  add_routes peer (default [] (p_routes peer)).

Definition remove_routes (peer : Peer) : list string -> M PeerState unit :=
  fix remove routes :=
    match routes with
    | [] => ret tt
    | route :: routes =>
        on_routes (fun now => removeStaticRoute now route (p_id peer) (p_tenantId peer) (p_assetId peer)) ;;!
        remove routes
    end.

(** An empty array of routes is truthy. *)
Definition clearPeerRoutes (peer : Peer) : M PeerState unit :=
  remove_routes peer (default [p_staticIlpAddress peer] (p_routes peer)).

Definition new_peer (id : string) (now : Z) (options : CreatePeerOptions) (asset : Asset)
    (routes : list string) : Peer :=
  {| p_id := id; p_tenantId := a_tenantId asset; p_assetId := cp_assetId options;
     p_asset := None; p_outgoing := h_outgoing (cp_http options);
     p_maxPacketAmount := cp_maxPacketAmount options;
     p_staticIlpAddress := cp_staticIlpAddress options; p_name := cp_name options;
     p_liquidityThreshold := cp_liquidityThreshold options; p_routes := Some routes;
     p_createdAt := now |}.

(** [Peer.query(trx).insertAndFetch], with the constraints of the table. *)
Definition insert_peer (options : CreatePeerOptions) (asset : Asset) (routes : list string)
  : M PeerState Peer :=
  let! id := uuid in
  let! now := date_now in
  let! rows := db_get peers in
  let peer := new_peer id now options asset routes in
  if existsb (fun p => bool_decide (p_id p = id)) rows
  then throw (UniqueViolationError "peers_pkey")
  else if existsb (fun p => bool_decide (p_assetId p = cp_assetId options)
                            && bool_decide (p_staticIlpAddress p = cp_staticIlpAddress options)) rows
  then throw (UniqueViolationError "peers_assetid_staticilpaddress_unique")
  else if negb (fits_bigint (cp_maxPacketAmount options) && fits_bigint (cp_liquidityThreshold options))
  then throw (JsError "DataError" "")
  else set_peers (fun l => l ++ [peer]) ;;! ret (with_asset (Some asset) peer).

(** The body of the transaction. *)
Definition insertPeer (options : CreatePeerOptions) (asset : Asset) : M PeerState Peer :=
  let routes := cp_staticIlpAddress options :: default [] (cp_routes options) in
  let! peer := insert_peer options asset routes in
  match h_incoming (cp_http options) with
  | Some authTokens =>
      let! err := addIncomingHttpTokens (p_id peer) authTokens in
      match err with Some err => throw_peer err | None => ret tt end
  | None => ret tt
  end ;;!
  lift (createLiquidityAccount peer_accounting
    {| account_id := p_id peer; account_asset := toAsset asset;
       account_onCredit := None; account_onDebit := None |} PEER) ;;!
  match cp_initialLiquidity options with
  | Some amount =>
      if truthy amount then
        let! transferError := depositLiquidity peer amount None in
        match transferError with Some _ => throw_peer InvalidInitialLiquidity | None => ret tt end
      else ret tt
  | None => ret tt
  end ;;!
  syncPeerRoutes peer ;;!
  ret peer.

Definition createPeer (options : CreatePeerOptions) : M PeerState (res PeerError Peer) :=
  if negb (isValidIlpAddress (cp_staticIlpAddress options)) then ret (Err InvalidStaticIlpAddress)
  else if negb (isValidHttpUrl (endpoint (h_outgoing (cp_http options))))
  then ret (Err InvalidHTTPEndpoint)
  else
  let! asset := lift (assetService_get (cp_assetId options) (cp_tenantId options)) in
  match asset with
  | None => ret (Err PeerUnknownAsset)
  | Some asset =>
      try_catch
        (let! peer := peer_transaction (insertPeer options asset) in ret (Ok peer))
        (fun err => match err with
                    | ForeignKeyViolationError constraint =>
                        if bool_decide (constraint = "peers_assetid_foreign"%string)
                        then ret (Err PeerUnknownAsset) else throw err
                    | UniqueViolationError _ => ret (Err DuplicatePeer)
                    | _ => match isPeerError err with Some e => ret (Err e) | None => throw err end
                    end)
  end.

(** [patchAndFetchById(options.id, { ...options })]: also the tenant, when it is given. *)
Definition patched_peer (options : UpdatePeerOptions) (routes : option (list string)) (p : Peer) : Peer :=
  {| p_id := p_id p; p_tenantId := default (p_tenantId p) (up_tenantId options);
     p_assetId := p_assetId p; p_asset := p_asset p;
     p_outgoing := match up_http options with Some h => h_outgoing h | None => p_outgoing p end;
     p_maxPacketAmount := match up_maxPacketAmount options with
                          | Some z => Some z | None => p_maxPacketAmount p end;
     p_staticIlpAddress := default (p_staticIlpAddress p) (up_staticIlpAddress options);
     p_name := match up_name options with Some n => Some n | None => p_name p end;
     p_liquidityThreshold := match up_liquidityThreshold options with
                             | Some z => Some z | None => p_liquidityThreshold p end;
     p_routes := match routes with Some r => Some r | None => p_routes p end;
     p_createdAt := p_createdAt p |}.

Definition patch_peer (options : UpdatePeerOptions) (routes : option (list string)) (existing : Peer)
  : M PeerState Peer :=
  let! rows := db_get peers in
  let peer := patched_peer options routes existing in
  if existsb (fun p => negb (bool_decide (p_id p = p_id existing))
                       && bool_decide (p_assetId p = p_assetId peer)
                       && bool_decide (p_staticIlpAddress p = p_staticIlpAddress peer)) rows
  then throw (UniqueViolationError "peers_assetid_staticilpaddress_unique")
  else if negb (fits_bigint (up_maxPacketAmount options) && fits_bigint (up_liquidityThreshold options))
  then throw (JsError "DataError" "")
  else set_peers (update_where (fun p => bool_decide (p_id p = p_id existing))
                    (patched_peer options routes)) ;;! ret peer.

Definition patchPeer (options : UpdatePeerOptions) : M PeerState (res PeerError Peer) :=
  let! existing := db_get (fun d =>
    find_where (fun p => bool_decide (p_id p = up_id options)) (peers d)) in
  match existing with
  | None => ret (Err UnknownPeer)
  | Some existingPeer =>
      match up_http options with
      | Some {| h_incoming := Some authTokens |} =>
          deleteHttpTokensByPeer (up_id options) ;;!
          let! err := addIncomingHttpTokens (up_id options) authTokens in
          match err with Some err => throw_peer err | None => ret tt end
      | _ => ret tt
      end ;;!
      let routes := (fun routes =>
        default (p_staticIlpAddress existingPeer) (up_staticIlpAddress options) :: routes)
        <$> up_routes options in
      let! peer := patch_peer options routes existingPeer in
      clearPeerRoutes existingPeer ;;!
      syncPeerRoutes peer ;;!
      let! asset := lift (assetService_get (p_assetId peer) None) in
      ret (Ok (with_asset asset peer))
  end.

Definition updatePeer (options : UpdatePeerOptions) : M PeerState (res PeerError Peer) :=
  let address := up_staticIlpAddress options in
  if truthy address && negb (isValidIlpAddress (default ""%string address))
  then ret (Err InvalidStaticIlpAddress)
  else
  let url := (fun h => endpoint (h_outgoing h)) <$> up_http options in
  if truthy url && negb (isValidHttpUrl (default ""%string url)) then ret (Err InvalidHTTPEndpoint)
  else
  try_catch (peer_transaction (patchPeer options))
    (fun err => match isPeerError err with Some e => ret (Err e) | None => throw err end).

Inductive DepositError := DepositUnknownPeer | DepositTransferError (e : TransferError).

Definition depositLiquidityById (peerId : string) (amount : Z) (transferId tenantId : option string)
  : M PeerState (option DepositError) :=
  let! peer := getPeer peerId tenantId in
  match peer with
  | None => ret (Some DepositUnknownPeer)
  | Some peer => let! err := depositLiquidity peer amount transferId in
                 ret (DepositTransferError <$> err)
  end.

Definition getPeerByDestinationAddress (destinationAddress tenantId : string)
    (incomingPeerId assetId : option string) : M PeerState (option Peer) :=
  let! nextHop := on_routes (fun now =>
    getNextHop now random_index destinationAddress tenantId incomingPeerId assetId) in
  match nextHop with
  | Some nextHop => if truthy nextHop then getPeer nextHop (Some tenantId) else ret None
  | None => ret None
  end.

Definition getPeerByIncomingToken (token : string) : M PeerState (option Peer) := getHttpToken token.

Fixpoint fetch_assets (l : list Peer) : M PeerState (list Peer) :=
  match l with
  | [] => ret []
  | peer :: l =>
      let! asset := lift (assetService_get (p_assetId peer) None) in
      let! l := fetch_assets l in
      ret (with_asset asset peer :: l)
  end.

Definition getPeersPage (pagination : option Pagination) (sortOrder : SortOrder)
    (tenantId : option string) : M PeerState (list Peer) :=
  let! rows := db_get peers in
  let! page := match getPage rows (fun p =>
                 negb (truthy tenantId) || bool_decide (Some (p_tenantId p) = tenantId))
                 pagination sortOrder with
               | Ret page => ret page
               | Throw e => throw e
               end in
  fetch_assets page.

(** The tokens of a deleted peer go with it. *)
Definition deletePeer (id tenantId : string) : M PeerState (option Peer) :=
  let! found := db_get (fun d => find_where (fun p =>
    bool_decide (p_id p = id) && bool_decide (p_tenantId p = tenantId)) (peers d)) in
  match found with
  | None => ret None
  | Some peer =>
      set_peers (List.filter (fun p =>
        negb (bool_decide (p_id p = id) && bool_decide (p_tenantId p = tenantId)))) ;;!
      set_tokens (List.filter (fun t => negb (bool_decide (ht_peerId t = id)))) ;;!
      clearPeerRoutes peer ;;!
      let! asset := lift (assetService_get (p_assetId peer) None) in
      ret (Some (with_asset asset peer))
  end.

(** *** [index.ts] *)

Fixpoint load_peers (l : list Peer) : M PeerState unit :=
  match l with
  | [] => ret tt
  | peer :: l =>
      add_routes peer (default [p_staticIlpAddress peer] (p_routes peer)) ;;! load_peers l
  end.

Definition loadRoutesFromDatabase : M PeerState unit :=
  let! page := getPeersPage None Desc None in load_peers page.

(** The process starts: the routing table is empty until it is loaded. *)
Definition start_peers (s : PeerState) : PeerState :=
  (loadRoutesFromDatabase
     (set_db {| peers := peers (db s); httpTokens := httpTokens (db s); routingTable := ∅ |} s)).2.
End PeerService.
