(* ===== verification/PeerSpecs.v ===== *)
(** * PeerSpecs: what the operations on peers do

    The routing table against the table of peers: what syncing and clearing the routes of a
    peer does to every entry ([syncPeerRoutes_spec], [clearPeerRoutes_spec]), the effect of
    [createPeer] on every path, the peers a packet may be handed to, and over all histories
    that every peer is routed ([peers_are_routed]).  The module [Example] has what goes
    wrong with the routes of a peer that moved and after a restart. *)

From S2P Require Import Prelude Shared Service Cache Pagination OpenPayments Accounting Routing Peers.
From S2P Require Text.

Local Open Scope Z_scope.
Local Open Scope ts_scope.

Section Specs.
Context {X : Type} `{Uuid} `{!PeerServices X}.
Notation State := (PeerState (X := X)).
Implicit Types s : State.

(** ** The routes of a peer *)

(** [Date.now()] is less than [Number.MAX_SAFE_INTEGER] for every date. *)
Definition dated s : Prop := 0 <= now s < MAX_SAFE_INTEGER.
(** No entry of the table ever expires. *)
Definition lasting (m : Routes) : Prop := unexpired (MAX_SAFE_INTEGER - 1) m.

Definition with_table (m : Routes) (d : PeerDb) : PeerDb :=
  {| peers := peers d; httpTokens := httpTokens d; routingTable := m |}.

Definition addresses (p : Peer) : list string := p_staticIlpAddress p :: default [] (p_routes p).
Definition entry (p : Peer) : RouteEntry := {| re_peerId := p_id p; re_assetId := p_assetId p |}.

(** [e] is the entry of [p] under the key of one of the addresses [l]. *)
Definition entry_under (p : Peer) (l : list string) (tenantId prefix : string) (e : RouteEntry) : Prop :=
  e = entry p /\ exists a, a ∈ l /\ route_key tenantId prefix = route_key (p_tenantId p) a.

Definition routes_added (p : Peer) (l : list string) (m m' : Routes) : Prop :=
  lasting m' /\
  forall tenantId prefix e, e ∈ routes_of m' tenantId prefix <->
    e ∈ routes_of m tenantId prefix \/ entry_under p l tenantId prefix e.
Definition routes_removed (p : Peer) (l : list string) (m m' : Routes) : Prop :=
  lasting m' /\
  forall tenantId prefix e, e ∈ routes_of m' tenantId prefix <->
    e ∈ routes_of m tenantId prefix /\ ~ entry_under p l tenantId prefix e.

Lemma wp_on_routes {A} (f : Z -> M Routes A) Q s r m :
  f (now s) (routingTable (db s)) = (r, m) -> Q r (set_db (with_table m (db s)) s) ->
  wp (on_routes f) Q s.
Proof. unfold wp, on_routes. by intros ->. Qed.

Lemma add_routes_spec p l s :
  dated s -> lasting (routingTable (db s)) ->
  exists m, add_routes p l s = (Ret tt, set_db (with_table m (db s)) s) /\
            routes_added p l (routingTable (db s)) m.
Proof.
  intros Ht. assert (now s <= MAX_SAFE_INTEGER - 1 < now s + MAX_SAFE_INTEGER) as Ht' by (unfold dated in Ht; lia).
  revert s Ht Ht'. induction l as [|a l IH]; intros s Ht Ht' Hm.
  - exists (routingTable (db s)). split; [by destruct s as [[] ? ? ?]|]. split; [done|].
    intros t pre e. split; [by left|]. intros [He|(_ & a & Ha & _)]; [done|by inversion Ha].
  - destruct (addStaticRoute_spec (now s) _ Ht' a (p_id p) (p_tenantId p) (p_assetId p) _ Hm)
      as (m1 & Hadd & Hm1 & H1).
    destruct (IH (set_db (with_table m1 (db s)) s) Ht Ht' Hm1) as (m2 & Hrest & Hm2 & H2).
    exists m2. split.
    + cbn [add_routes]. unfold bind at 1, on_routes at 1. rewrite Hadd. exact Hrest.
    + split; [done|]. intros t pre e. rewrite H2. simpl. rewrite H1. unfold entry_under.
      setoid_rewrite elem_of_cons. change {| re_peerId := p_id p; re_assetId := p_assetId p |} with (entry p).
      naive_solver.
Qed.

Lemma remove_routes_spec p l s :
  dated s -> lasting (routingTable (db s)) ->
  exists m, remove_routes p l s = (Ret tt, set_db (with_table m (db s)) s) /\
            routes_removed p l (routingTable (db s)) m.
Proof.
  intros Ht. assert (now s <= MAX_SAFE_INTEGER - 1 < now s + MAX_SAFE_INTEGER) as Ht' by (unfold dated in Ht; lia).
  revert s Ht Ht'. induction l as [|a l IH]; intros s Ht Ht' Hm.
  - exists (routingTable (db s)). split; [by destruct s as [[] ? ? ?]|]. split; [done|].
    intros t pre e. split; [|by intros [He _]]. intros He. split; [done|].
    intros (_ & a & Ha & _). by inversion Ha.
  - destruct (removeStaticRoute_spec (now s) _ Ht' a (p_id p) (p_tenantId p) (p_assetId p) _ Hm)
      as (m1 & Hadd & Hm1 & H1).
    destruct (IH (set_db (with_table m1 (db s)) s) Ht Ht' Hm1) as (m2 & Hrest & Hm2 & H2).
    exists m2. split.
    + cbn [remove_routes]. unfold bind at 1, on_routes at 1. rewrite Hadd. exact Hrest.
    + split; [done|]. intros t pre e. rewrite H2. simpl. rewrite H1. unfold entry_under.
      setoid_rewrite elem_of_cons. change {| re_peerId := p_id p; re_assetId := p_assetId p |} with (entry p).
      naive_solver.
Qed.

Lemma syncPeerRoutes_spec p s :
  dated s -> lasting (routingTable (db s)) ->
  exists m, syncPeerRoutes p s = (Ret tt, set_db (with_table m (db s)) s) /\
            routes_added p (addresses p) (routingTable (db s)) m.
Proof. exact (add_routes_spec p (addresses p) s). Qed.

Lemma clearPeerRoutes_spec p s :
  dated s -> lasting (routingTable (db s)) ->
  exists m, clearPeerRoutes p s = (Ret tt, set_db (with_table m (db s)) s) /\
            routes_removed p (default [p_staticIlpAddress p] (p_routes p)) (routingTable (db s)) m.
Proof. apply remove_routes_spec. Qed.

(** Every address of a peer leads to it. *)
Definition routed (m : Routes) (p : Peer) : Prop :=
  forall a, a ∈ addresses p -> entry p ∈ routes_of m (p_tenantId p) a.

Lemma routes_added_self p m m' : routes_added p (addresses p) m m' -> routed m' p.
Proof. intros [_ Hm] a Ha. apply Hm. right. split; [done|]. by exists a. Qed.

Lemma routes_added_other p l m m' q : routes_added p l m m' -> routed m q -> routed m' q.
Proof. intros [_ Hm] Hq a Ha. apply Hm. left. by apply Hq. Qed.

Lemma routes_removed_other p l m m' q :
  routes_removed p l m m' -> p_id q <> p_id p -> routed m q -> routed m' q.
Proof.
  intros [_ Hm] Hne Hq a Ha. apply Hm. split; [by apply Hq|]. intros [He _]. apply Hne.
  by injection He.
Qed.
(** ** Creating a peer *)

Lemma wp_peer_transaction {A} (m : M State A) Q s :
  wp m (fun r s' => match r with
    | Ret a => Q (Ret a) s'
    | Throw e => forall s'', now s'' = now s' ->
        db s'' = with_table (routingTable (db s')) (db s) -> Q (Throw e) s''
    end) s ->
  wp (peer_transaction m) Q s.
Proof.
  intros Hm. apply wp_with_transaction. eapply wp_mono; [exact Hm|].
  intros [a|e] s' HQ; [done|]. by apply HQ.
Qed.

(** The tokens of a peer that were stored; none was there before. *)
Definition tokens_added (peerId : string) (l : list string) (t t' : list HttpToken) : Prop :=
  exists rows, t' = t ++ rows /\ ht_token <$> rows = l /\ Forall (fun r => ht_peerId r = peerId) rows /\
    forall token, token ∈ l -> token ∉ ht_token <$> t.

Definition with_tokens (t : list HttpToken) (d : PeerDb) : PeerDb :=
  {| peers := peers d; httpTokens := t; routingTable := routingTable d |}.

Lemma insert_tokens_spec peerId l s :
  wp (insert_tokens ((fun token => (peerId, token)) <$> l))
    (fun r s' => now s' = now s /\ ext s' = ext s /\
       match r with
       | Ret _ => exists t, db s' = with_tokens t (db s) /\ tokens_added peerId l (httpTokens (db s)) t
       | Throw _ => True
       end) s.
Proof.
  revert s. induction l as [|token l IH]; intros s; cbn [fmap list_fmap insert_tokens].
  - wp_auto. split_and!; [done|done|]. exists (httpTokens (db s)).
    split; [by destruct (db s)|]. exists []. rewrite app_nil_r. split_and!; [done..|]. intros x Hx. inversion Hx.
  - do 4 wp_step. wp_step; [by wp_auto|]. rename Heqb into Hnew. wp_step; [|by wp_auto]. unfold set_tokens. do 2 wp_step.
    eapply wp_mono; [apply IH|]. svc_simpl. intros [u|e] s' (Hn & Hx & Hd); (split_and!; [done|done|]); [|done].
    destruct Hd as (t & -> & rows & -> & Hl & Hp & Hfresh). exists (httpTokens (db s) ++ {| ht_id := v4 (Service.fresh s); ht_token := token; ht_peerId := peerId |} :: rows).
    split; [simpl; by rewrite <- app_assoc|]. eexists. split; [done|]. split; [by rewrite fmap_cons, Hl|].
    split; [by constructor|]. intros x [->|Hx']%elem_of_cons.
    + intros (row & -> & Hrow)%list_elem_of_fmap. apply not_true_iff_false in Hnew. apply Hnew.
      apply existsb_exists. exists row. split; [by apply list_elem_of_In|]. by apply bool_decide_eq_true.
    + intros Hin. apply (Hfresh x Hx'). simpl. rewrite fmap_app. apply elem_of_app. by left.
Qed.

Lemma addIncomingHttpTokens_spec peerId l s :
  wp (addIncomingHttpTokens peerId l)
    (fun r s' => now s' = now s /\ ext s' = ext s /\
       match r with
       | Ret None => exists t, db s' = with_tokens t (db s) /\ tokens_added peerId l (httpTokens (db s)) t
       | Ret (Some _) | Throw _ => db s' = db s
       end) s.
Proof.
  unfold addIncomingHttpTokens, createHttpTokens. do 4 wp_step.
  eapply wp_mono; [apply insert_tokens_spec|].
  intros [u|e] s' (Hn & Hx & Hd).
  - by wp_auto.
  - destruct e; by wp_auto.
Qed.

Lemma insert_peer_spec options asset routes s :
  wp (insert_peer options asset routes)
    (fun r s' => now s' = now s /\ ext s' = ext s /\
       match r with
       | Ret peer => exists id,
           peer = with_asset (Some asset) (new_peer id (now s) options asset routes) /\
           db s' = {| peers := peers (db s) ++ [new_peer id (now s) options asset routes];
                      httpTokens := httpTokens (db s); routingTable := routingTable (db s) |} /\
           Forall (fun q => p_id q <> id /\
                            ~ (p_assetId q = cp_assetId options /\
                               p_staticIlpAddress q = cp_staticIlpAddress options)) (peers (db s))
       | Throw _ => db s' = db s
       end) s.
Proof.
  unfold insert_peer, set_peers. do 6 wp_step. cbv zeta.
  wp_step; [by wp_auto|]. rename Heqb into Hid. wp_step; [by wp_auto|]. rename Heqb into Hunique.
  wp_step; [by wp_auto|]. wp_auto. split_and!; [done|done|]. eexists. split; [done|]. split; [done|].
  apply Forall_forall. intros q Hq.
  apply not_true_iff_false in Hid, Hunique. rewrite existsb_exists in Hid, Hunique.
  apply list_elem_of_In in Hq. split.
  - intros Heq. apply Hid. exists q. split; [done|]. by apply bool_decide_eq_true.
  - intros [Ha Hs]. apply Hunique. exists q. split; [done|]. by rewrite !bool_decide_true.
Qed.

(** A peer that was created: its row, its tokens, its routes, its account and its liquidity. *)
Record peer_created (options : CreatePeerOptions) (asset : Asset) s s' (peer : Peer) : Prop := {
  pc_row : exists row, peer = with_asset (Some asset) row /\ peers (db s') = peers (db s) ++ [row] /\
    row = new_peer (p_id peer) (now s) options asset
            (cp_staticIlpAddress options :: default [] (cp_routes options));
  pc_unique : Forall (fun q => p_id q <> p_id peer /\
    ~ (p_assetId q = cp_assetId options /\ p_staticIlpAddress q = cp_staticIlpAddress options))
    (peers (db s));
  pc_tokens : tokens_added (p_id peer) (default [] (h_incoming (cp_http options)))
                (httpTokens (db s)) (httpTokens (db s'));
  pc_routes : routes_added peer (addresses peer) (routingTable (db s)) (routingTable (db s'));
  pc_account : exists x a x', createLiquidityAccount peer_accounting
    {| account_id := p_id peer; account_asset := toAsset asset;
       account_onCredit := None; account_onDebit := None |} PEER x = (Ret a, x');
  pc_liquidity : forall amount, cp_initialLiquidity options = Some amount -> amount <> 0 ->
    exists did x, createDeposit peer_accounting
      {| deposit_id := did; deposit_account := peer_account peer asset; deposit_amount := amount |} x
      = (Ret None, ext s')
}.

Lemma depositLiquidity_spec peer asset amount s :
  p_asset peer = Some asset ->
  wp (depositLiquidity peer amount None)
    (fun r s' => db s' = db s /\ now s' = now s /\
       match r with
       | Ret None => exists did x, createDeposit peer_accounting
           {| deposit_id := did; deposit_account := peer_account peer asset; deposit_amount := amount |} x
           = (Ret None, ext s')
       | _ => True
       end) s.
Proof.
  intros Ha. unfold depositLiquidity. rewrite Ha. do 3 wp_step; [|done].
  split_and!; [done|done|]. destruct a; [done|]. by eexists _, _.
Qed.

Lemma insertPeer_spec options asset s :
  dated s -> lasting (routingTable (db s)) ->
  wp (insertPeer options asset)
    (fun r s' => now s' = now s /\
       match r with
       | Ret peer => peer_created options asset s s' peer
       | Throw _ => routingTable (db s') = routingTable (db s)
       end) s.
Proof.
  intros Ht Hm. unfold insertPeer. wp_step. eapply wp_mono; [apply insert_peer_spec|].
  intros [peer|e] s1 (Hn1 & Hx1 & Hd1); [|by rewrite Hd1].
  destruct Hd1 as (id & Hpeer & Hd1 & Hunique). set (routes := _ :: _) in Hpeer, Hd1.
  assert (p_id peer = id) as Hid by (by rewrite Hpeer). rewrite <- Hid in Hpeer, Hd1, Hunique.
  assert (p_asset peer = Some asset) as Hasset by (by rewrite Hpeer).
  clear id Hid. wp_step.
  assert (forall Q, (forall r s2, now s2 = now s -> match r with
      | Ret tt => exists t, db s2 = with_tokens t (db s1) /\
          tokens_added (p_id peer) (default [] (h_incoming (cp_http options))) (httpTokens (db s)) t
      | Throw _ => db s2 = db s1 end -> Q r s2) ->
    wp match h_incoming (cp_http options) with
       | Some authTokens =>
           let! err := addIncomingHttpTokens (p_id peer) authTokens in
           match err with Some err => throw_peer err | None => ret tt end
       | None => ret tt
       end Q s1) as Htokens.
  { intros Q HQ. destruct (h_incoming _) as [l|].
    - wp_step. eapply wp_mono; [apply addIncomingHttpTokens_spec|].
      intros [[err|]|e] s2 (Hn2 & Hx2 & Hd2); [apply wp_throw|apply wp_ret|]; apply HQ;
        try congruence; try done.
      destruct Hd2 as (t & Hd2 & Ht2). exists t. split; [done|]. by rewrite Hd1 in Ht2.
    - apply wp_ret, HQ; [done|]. exists (httpTokens (db s)). split; [by rewrite Hd1|].
      exists []. rewrite app_nil_r. split_and!; [done..|]. intros x Hx. inversion Hx. }
  apply Htokens. intros [[]|e] s2 Hn2 Hd2; [|split; [done|by rewrite Hd2, Hd1]].
  destruct Hd2 as (t & Hd2 & Htok). rewrite Hd1 in Hd2. unfold with_tokens in Hd2. simpl in Hd2.
  do 2 wp_step; [|split; [done|by rewrite Hd2]]. rename a into account. wp_step.
  assert (forall Q, (forall r s3, now s3 = now s -> db s3 = db s2 ->
      match r with
      | Ret _ => forall amount, cp_initialLiquidity options = Some amount -> amount <> 0 ->
          exists did x, createDeposit peer_accounting
            {| deposit_id := did; deposit_account := peer_account peer asset; deposit_amount := amount |} x
            = (Ret None, ext s3)
      | Throw _ => True end -> Q r s3) ->
    wp match cp_initialLiquidity options with
       | Some amount =>
           if truthy amount then
             let! transferError := depositLiquidity peer amount None in
             match transferError with Some _ => throw_peer InvalidInitialLiquidity | None => ret tt end
           else ret tt
       | None => ret tt
       end Q (set_ext x s2)) as Hdeposit.
  { intros Q HQ. destruct (cp_initialLiquidity options) as [amount|]; [|by apply wp_ret, HQ].
    destruct (truthy amount) eqn:Hamount.
    - wp_step. eapply wp_mono; [by apply depositLiquidity_spec|].
      intros [[err|]|e] s3 (Hd3 & Hn3 & H3); svc_simpl; [| |apply HQ; simpl in *; [congruence|done|done]].
      + apply wp_throw, HQ; simpl in *; [congruence|done|done].
      + apply wp_ret, HQ; simpl in *; [congruence|done|]. by intros amount' [= <-].
    - apply wp_ret, HQ; [done|done|]. intros amount' [= <-] Hne.
      unfold truthy, truthy_Z in Hamount. zbool. lia. }
  apply Hdeposit. intros [u|e] s3 Hn3 Hd3 Hliq; [|split; [done|by rewrite Hd3, Hd2]].
  destruct (syncPeerRoutes_spec peer s3) as (m & Hsync & Hadded);
    [unfold dated in *; congruence|by rewrite Hd3, Hd2|].
  wp_step. unfold wp. rewrite Hsync. simpl. split; [done|]. constructor; simpl.
  - eexists. split; [exact Hpeer|]. split; [by rewrite Hd3, Hd2|done].
  - exact Hunique.
  - by rewrite Hd3, Hd2.
  - by rewrite Hd3, Hd2 in Hadded.
  - by eexists _, _, _.
  - exact Hliq.
Qed.
(** ** Looking peers up *)

(** A row with its asset. *)
Definition fetched_row (d : PeerDb) (peer : Peer) : Prop :=
  exists row a, row ∈ peers d /\ peer = with_asset a row.

Lemma getPeer_spec id tenantId s :
  wp (getPeer id tenantId)
    (fun r s' => db s' = db s /\ now s' = now s /\
       match r with
       | Ret (Some peer) => fetched_row (db s) peer /\ p_id peer = id /\
           (truthy tenantId = true -> Some (p_tenantId peer) = tenantId)
       | _ => True
       end) s.
Proof.
  unfold getPeer. do 2 wp_step. destruct (find_where _ _) as [row|] eqn:Hrow; [|by wp_auto].
  apply find_where_Some in Hrow as [Hrow Hp]. apply andb_true_iff in Hp as [Ht Hid].
  apply bool_decide_eq_true in Hid. wp_auto; [|done].
  split_and!; [done|done|by exists row, a|done|]. intros Htrue. rewrite Htrue in Ht.
  by apply bool_decide_eq_true in Ht.
Qed.

Lemma on_routes_shape {A} (f : Z -> M Routes A) s :
  wp (on_routes f) (fun r s' => now s' = now s /\ ext s' = ext s /\
    exists m, f (now s) (routingTable (db s)) = (r, m) /\ db s' = with_table m (db s)) s.
Proof.
  unfold wp, on_routes. destruct (f _ _) as [r m]. simpl. split_and!; [done|done|]. by exists m.
Qed.

(** The peer a packet is handed to is of the tenant, and not the one it came from. *)
Lemma lookup_sound address tenantId incomingPeerId assetId s :
  wp (getPeerByDestinationAddress address tenantId incomingPeerId assetId)
    (fun r _ => match r with
       | Ret (Some peer) => fetched_row (db s) peer /\
           (tenantId <> ""%string -> p_tenantId peer = tenantId) /\
           forall id, incomingPeerId = Some id -> id <> ""%string -> p_id peer <> id
       | _ => True
       end) s.
Proof.
  unfold getPeerByDestinationAddress. wp_step. eapply wp_mono; [apply on_routes_shape|].
  intros [[peerId|]|e] s1 (Hn1 & Hx1 & m & Hhop & Hd1); [|by wp_auto|done].
  wp_step; [|by wp_auto]. eapply wp_mono; [apply getPeer_spec|].
  intros [[peer|]|e] s2 (_ & _ & Hpeer); [|done..].
  destruct Hpeer as ((row & a & Hrow & ->) & Hid & Ht). rewrite Hd1 in Hrow.
  split; [by exists row, a|]. split.
  - intros Hne. assert (truthy (Some tenantId) = true) as Htrue by (by destruct tenantId).
    by injection (Ht Htrue).
  - intros id -> Hne. apply next_hop_eligible in Hhop as (route & He & Hr).
    unfold eligible in He. apply andb_true_iff in He as [He _].
    assert (truthy (Some id) = true) as Htrue by (by destruct id).
    rewrite Htrue in He. apply negb_true_iff, bool_decide_eq_false in He.
    intros Heq. apply He. congruence.
Qed.

(** With a table that lasts, it is the next hop of the longest prefix. *)
Lemma lookup_next_hop address tenantId incomingPeerId assetId s :
  (forall n, (0 < n)%nat -> (random_index n < n)%nat) -> dated s -> lasting (routingTable (db s)) ->
  wp (getPeerByDestinationAddress address tenantId incomingPeerId assetId)
    (fun r s' => db s' = db s /\ now s' = now s /\
       match r with
       | Ret (Some peer) => is_next_hop (routingTable (db s)) tenantId incomingPeerId assetId address
           (List.length (Text.split "." address)) (Some (p_id peer))
       | _ => True
       end) s.
Proof.
  intros Hrandom Ht Hm. unfold getPeerByDestinationAddress. wp_step.
  destruct (next_hop_spec (now s) (MAX_SAFE_INTEGER - 1) ltac:(unfold dated in Ht; lia) random_index Hrandom
              tenantId incomingPeerId assetId address (List.length (Text.split "." address))
              (routingTable (db s)) Hm) as (r & Hr & Hhop).
  eapply wp_on_routes; [exact Hr|]. destruct s as [[ps ts table] t f x]. unfold with_table. simpl in *.
  destruct r as [peerId|]; [|by wp_auto]. wp_step; [|by wp_auto].
  eapply wp_mono; [apply getPeer_spec|].
  intros [[peer|]|e] s2 (Hd & Hn & Hpeer); (split_and!; [done|done|]); [|done..].
  by destruct Hpeer as (_ & -> & _).
Qed.
Lemma createPeer_spec options s :
  dated s -> lasting (routingTable (db s)) ->
  wp (createPeer options)
    (fun r s' => now s' = now s /\
       match r with
       | Ret (Ok peer) => exists asset x,
           isValidIlpAddress (cp_staticIlpAddress options) = true /\
           isValidHttpUrl (endpoint (h_outgoing (cp_http options))) = true /\
           assetService_get (cp_assetId options) (cp_tenantId options) (ext s) = (Ret (Some asset), x) /\
           peer_created options asset s s' peer
       | _ => db s' = db s
       end) s.
Proof.
  intros Ht Hm. unfold createPeer. wp_step; [by wp_auto|]. apply negb_false_iff in Heqb.
  wp_step; [by wp_auto|]. apply negb_false_iff in Heqb0.
  do 2 wp_step; [|by wp_auto]. destruct a as [asset|]; [|by wp_auto]. do 2 wp_step.
  apply wp_peer_transaction. eapply wp_mono; [by apply insertPeer_spec|].
  intros [peer|e] s1 [Hn1 H1].
  - wp_auto. split; [done|]. exists asset, x. split_and!; [done..|]. by destruct H1.
  - intros s2 Hn2 Hd2. assert (db s2 = db s) as Hd.
    { rewrite Hd2, H1. simpl. by destruct (db s). }
    assert (now s2 = now s) as Hn by (rewrite Hn2, Hn1; done).
    destruct (isPeerError e) as [pe|] eqn:He; destruct e; by wp_auto.
Qed.

(** ** Every peer is routed *)

Record peers_wf (d : PeerDb) : Prop := {
  pw_ids : NoDup (p_id <$> peers d);
  pw_lasting : lasting (routingTable d);
  pw_routed : forall p, p ∈ peers d -> routed (routingTable d) p
}.

Lemma createPeer_wf options s :
  dated s -> peers_wf (db s) ->
  wp (createPeer options) (fun _ s' => now s' = now s /\ peers_wf (db s')) s.
Proof.
  intros Ht [Hids Hm Hr]. eapply wp_mono; [by apply createPeer_spec|].
  intros [[peer|err]|e] s' [Hn Hd]; (split; [done|]); [|by rewrite Hd..].
  destruct Hd as (asset & x & _ & _ & _ & [(row & Hpeer & Hrows & _) Hunique _ Hadded _ _]).
  assert (addresses peer = addresses row /\ entry peer = entry row /\ p_tenantId peer = p_tenantId row
          /\ p_id peer = p_id row) as (Ha & He & Hten & Hid) by (by rewrite Hpeer).
  constructor.
  - rewrite Hrows, fmap_app. apply NoDup_app. split; [done|]. split; [|apply NoDup_singleton].
    intros id Hin Hid'. apply list_elem_of_singleton in Hid' as ->.
    apply list_elem_of_fmap in Hin as (q & Hq & Hin).
    rewrite Forall_forall in Hunique. destruct (Hunique q Hin) as [Hne _]. congruence.
  - by destruct Hadded.
  - intros q Hq. rewrite Hrows in Hq. apply elem_of_app in Hq as [Hq|Hq].
    + eapply routes_added_other; [done|]. by apply Hr.
    + apply list_elem_of_singleton in Hq as ->.
      pose proof (routes_added_self _ _ _ Hadded) as Hself. unfold routed in *.
      by rewrite <- Ha, <- He, <- Hten.
Qed.

Lemma find_peer (l : list Peer) id q :
  NoDup (p_id <$> l) -> q ∈ l -> p_id q = id ->
  forall p, p ∈ l -> p_id p = id -> p = q.
Proof. intros Hnd Hq <- p Hp Hid. by apply (unique_key p_id l). Qed.

Context (assets_answer : forall id tenantId x, exists a x',
  assetService_get id tenantId x = (Ret a, x')).

Lemma patchPeer_spec options s :
  dated s -> peers_wf (db s) ->
  wp (patchPeer options)
    (fun r s' => now s' = now s /\
       match r with
       | Ret _ => peers_wf (db s')
       | Throw _ => routingTable (db s') = routingTable (db s)
       end) s.
Proof.
  intros Ht Hwf. unfold patchPeer. do 2 wp_step.
  destruct (find_where _ _) as [existing|] eqn:Hfind; [|by wp_auto].
  apply find_where_Some in Hfind as [Hin Hid]. apply bool_decide_eq_true in Hid. wp_step.
  assert (forall Q, (forall r s1, now s1 = now s -> peers (db s1) = peers (db s) ->
      routingTable (db s1) = routingTable (db s) -> Q r s1) ->
    wp match up_http options with
       | Some {| h_incoming := Some authTokens |} =>
           deleteHttpTokensByPeer (up_id options) ;;!
           let! err := addIncomingHttpTokens (up_id options) authTokens in
           match err with Some err => throw_peer err | None => ret tt end
       | _ => ret tt
       end Q s) as Htokens.
  { intros Q HQ. destruct (up_http options) as [[[l|] out]|]; [|by apply wp_ret, HQ..].
    unfold deleteHttpTokensByPeer, set_tokens. do 3 wp_step.
    eapply wp_mono; [apply addIncomingHttpTokens_spec|]. svc_simpl.
    intros [[err|]|e] s1 (Hn & _ & Hd);
      [apply wp_throw|apply wp_ret; destruct Hd as (t & Hd & _)|]; apply HQ; try done;
      by rewrite Hd. }
  apply Htokens. intros [u|e] s1 Hn1 Hp1 Hr1; [|by split]. clear Htokens. cbv zeta.
  set (routes := (fun routes => _ :: routes) <$> up_routes options).
  unfold patch_peer, set_peers. do 3 wp_step. cbv zeta. rewrite Hp1.
  wp_step; [by wp_auto|]. wp_step; [by wp_auto|]. do 3 wp_step.
  set (peer := patched_peer options routes existing).
  set (s2 := set_db _ s1).
  assert (dated s2) as Ht2 by (unfold dated in *; simpl; by rewrite Hn1).
  destruct (clearPeerRoutes_spec existing s2 Ht2) as (m1 & Hclear & Hremoved).
  { simpl. rewrite Hr1. apply Hwf. }
  wp_step. unfold wp at 1. rewrite Hclear. cbn [fst snd].
  destruct (syncPeerRoutes_spec peer (set_db (with_table m1 (db s2)) s2) Ht2 (proj1 Hremoved))
    as (m2 & Hsync & Hadded).
  wp_step. unfold wp at 1. rewrite Hsync. cbn [fst snd]. clear Hclear Hsync. simpl in Hremoved, Hadded.
  do 2 wp_step; [|match type of Hcall with assetService_get ?id ?t ?y = _ =>
                    destruct (assets_answer id t y) as (a' & y' & Ha) end; congruence].
  wp_step. split; [done|]. destruct Hwf as [Hids _ Hrouted]. constructor; simpl; rewrite ?Hp1.
  - by rewrite (update_where_key p_id).
  - by destruct Hadded.
  - intros q Hq. apply update_where_elem in Hq as (p & Hp & ->). case_bool_decide as Heq.
    + rewrite (unique_key p_id (peers (db s)) p existing Hids Hp Hin Heq).
      by eapply routes_added_self.
    + eapply routes_added_other; [done|]. eapply routes_removed_other; [done|done|].
      rewrite Hr1. by apply Hrouted.
Qed.

Lemma updatePeer_wf options s :
  dated s -> peers_wf (db s) ->
  wp (updatePeer options) (fun _ s' => now s' = now s /\ peers_wf (db s')) s.
Proof.
  intros Ht Hwf. unfold updatePeer. cbv zeta. wp_step; [by wp_auto|]. wp_step; [by wp_auto|].
  wp_step. apply wp_peer_transaction. eapply wp_mono; [by apply patchPeer_spec|].
  intros [r|e] s1 [Hn1 H1]; [done|]. intros s2 Hn2 Hd2.
  assert (db s2 = db s) as Hd by (rewrite Hd2, H1; unfold with_table; by destruct (db s)).
  destruct (isPeerError e); wp_auto; rewrite Hd; (split; [congruence|done]).
Qed.

Lemma deletePeer_wf id tenantId s :
  dated s -> peers_wf (db s) ->
  wp (deletePeer id tenantId) (fun _ s' => now s' = now s /\ peers_wf (db s')) s.
Proof.
  intros Ht Hwf. unfold deletePeer, set_peers, set_tokens. do 2 wp_step.
  destruct (find_where _ _) as [peer|] eqn:Hfind; [|by wp_auto].
  apply find_where_Some in Hfind as [Hin Hp].
  apply andb_true_iff in Hp as [Hid%bool_decide_eq_true Hten%bool_decide_eq_true]. do 4 wp_step.
  set (s2 := set_db _ _). wp_step.
  destruct (clearPeerRoutes_spec peer s2) as (m & Hclear & Hremoved); [done|apply Hwf|].
  unfold wp at 1. rewrite Hclear. cbn [fst snd]. clear Hclear. simpl in Hremoved.
  assert (peers_wf (with_table m (db s2))) as Hwf2.
  { destruct Hwf as [Hids _ Hrouted]. constructor; simpl.
    - by apply NoDup_key_filter.
    - by destruct Hremoved.
    - intros q Hq. apply elem_of_filter_bool in Hq as [Hkept Hq].
      eapply routes_removed_other; [done| |by apply Hrouted].
      intros Heq. rewrite (unique_key p_id (peers (db s)) q peer Hids Hq Hin Heq) in Hkept.
      rewrite !bool_decide_true in Hkept by done. done. }
  by wp_auto.
Qed.

(** *** Histories *)

Inductive peer_step : State -> State -> Prop :=
| peer_step_create options s : peer_step s (createPeer options s).2
| peer_step_update options s : peer_step s (updatePeer options s).2
| peer_step_delete id tenantId s : peer_step s (deletePeer id tenantId s).2
| peer_step_deposit id amount transferId tenantId s :
    peer_step s (depositLiquidityById id amount transferId tenantId s).2
| peer_step_lookup address tenantId incomingPeerId assetId s :
    peer_step s (getPeerByDestinationAddress address tenantId incomingPeerId assetId s).2
| peer_step_page pagination sortOrder tenantId s :
    peer_step s (getPeersPage pagination sortOrder tenantId s).2
| peer_step_token token s : peer_step s (getPeerByIncomingToken token s).2
(* Time passes and the other services do anything. *)
| peer_step_time t x s : now s <= t < MAX_SAFE_INTEGER ->
    peer_step s {| db := db s; now := t; fresh := Service.fresh s; ext := x |}.

(** Without peers; the routing table is empty when the process starts. *)
Definition no_peers s : Prop := dated s /\ peers (db s) = [] /\ routingTable (db s) = ∅.

Context (Hrandom : forall n, (0 < n)%nat -> (random_index n < n)%nat).

Definition ready s : Prop := dated s /\ peers_wf (db s).

Lemma keeps_wp {A} (I : State -> Prop) (m : M State A) :
  (forall s, I s -> wp m (fun _ s' => I s') s) -> keeps I m.
Proof. done. Qed.

Lemma ready_same s s' : ready s -> now s' = now s -> db s' = db s -> ready s'.
Proof. unfold ready, dated. by intros [Ht Hwf] -> ->. Qed.

Lemma keeps_ready_lift {A} (m : M X A) : keeps ready (lift m).
Proof.
  intros s Hs. unfold lift. destruct (m (ext s)) as [r x]. by apply (ready_same s).
Qed.
Lemma keeps_ready_uuid : keeps ready uuid.
Proof. intros s Hs. by apply (ready_same s). Qed.

Ltac keeps_ready := unfold db_get; repeat first
  [keeps_step | apply keeps_ready_lift | apply keeps_ready_uuid].

Lemma fetch_assets_ready l : keeps ready (fetch_assets l).
Proof. induction l; cbn [fetch_assets]; by keeps_ready. Qed.

Lemma getPeer_ready id tenantId : keeps ready (getPeer id tenantId).
Proof. unfold getPeer. by keeps_ready. Qed.

Lemma peer_step_ready s s' : peer_step s s' -> ready s -> ready s'.
Proof.
  intros Hstep Hs. pose proof Hs as [Ht Hwf].
  assert (forall A (m : M State A), wp m (fun _ s' => now s' = now s /\ peers_wf (db s')) s ->
    ready (m s).2) as Hop by (unfold wp, ready, dated in *; intros A m [-> Hm]; by split).
  destruct Hstep.
  - apply Hop. by apply createPeer_wf.
  - apply Hop. by apply updatePeer_wf.
  - apply Hop. by apply deletePeer_wf.
  - assert (keeps ready (depositLiquidityById id amount transferId tenantId)) as Hk
      by (unfold depositLiquidityById, depositLiquidity; repeat first [apply getPeer_ready|keeps_ready]).
    by apply Hk.
  - pose proof (lookup_next_hop address tenantId incomingPeerId assetId s Hrandom Ht (pw_lasting _ Hwf))
      as Hlookup.
    apply Hop. eapply wp_mono; [exact Hlookup|]. intros r s' (Hd & Hn & _). by rewrite Hd.
  - assert (keeps ready (getPeersPage pagination sortOrder tenantId)) as Hk
      by (unfold getPeersPage; repeat first [apply fetch_assets_ready|keeps_ready]).
    by apply Hk.
  - assert (keeps ready (getPeerByIncomingToken token)) as Hk
      by (unfold getPeerByIncomingToken, getHttpToken; keeps_ready).
    by apply Hk.
  - split; [unfold dated in *; simpl; lia|done].
Qed.

Lemma peers_ready s s' : no_peers s -> rtc peer_step s s' -> ready s'.
Proof.
  intros (Ht & Hp & Hm) Hsteps. assert (ready s) as Hs.
  { split; [done|]. constructor; rewrite ?Hp, ?Hm; [apply NoDup_nil_2| |by intros p Hp'; inversion Hp'].
    intros key c. by rewrite lookup_empty. }
  clear Hp Hm. revert Hs. induction Hsteps as [|s1 s2 s3 Hstep _ IH]; [done|]. intros Hs.
  apply IH; [|by eapply peer_step_ready]. by destruct (peer_step_ready _ _ Hstep Hs).
Qed.
End Specs.

(** Creating a peer is all or nothing.  When [createPeer] returns a peer, its asset
    was found for the tenant, there was no other peer of that asset and address, and there
    are, each exactly once, its row, a token for every token that was given, a route from
    each of its addresses, its account with the accounting service, and the deposit of its
    initial liquidity.  Otherwise, an error or an exception, the tables and the routing
    table are as they were. *)
Theorem createPeer_effect {X} `{Uuid} `{!PeerServices X} (options : CreatePeerOptions)
    (s s' : PeerState (X := X)) r :
  dated s -> lasting (routingTable (db s)) -> createPeer options s = (r, s') ->
  match r with
  | Ret (Ok peer) => exists asset x,
      isValidIlpAddress (cp_staticIlpAddress options) = true /\
      isValidHttpUrl (endpoint (h_outgoing (cp_http options))) = true /\
      assetService_get (cp_assetId options) (cp_tenantId options) (ext s) = (Ret (Some asset), x) /\
      peer_created options asset s s' peer
  | _ => db s' = db s
  end.
Proof.
  intros Ht Hm Hrun. by destruct (wp_run _ _ _ _ _ (createPeer_spec options s Ht Hm) Hrun).
Qed.

(** C27. Every peer is routed.  After any history of operations on peers from an empty
    table, with the asset service answering, a packet for any destination under an address
    of a peer, its own or one of its routes, that comes from a sender of the same tenant
    other than the peer has a next hop: no creation, change or deletion of other peers, no
    change of the peer itself and no passing of time takes its routes away. *)
Theorem peers_are_routed {X} `{Uuid} `{!PeerServices X} (s0 s : PeerState (X := X)) p address
    destination i incomingPeerId :
  (forall id tenantId x, exists a x', assetService_get id tenantId x = (Ret a, x')) ->
  (forall n, (0 < n)%nat -> (random_index n < n)%nat) ->
  no_peers s0 -> rtc peer_step s0 s ->
  p ∈ peers (db s) -> address ∈ addresses p -> incomingPeerId <> Some (p_id p) ->
  (1 <= i <= List.length (Text.split "." destination))%nat ->
  prefix_of (Text.split "." destination) i = address ->
  exists peerId, getNextHop (now s) random_index destination (p_tenantId p) incomingPeerId None
                   (routingTable (db s)) = (Ret (Some peerId), routingTable (db s)).
Proof.
  intros Hassets Hrandom H0 Hsteps Hp Ha Hne Hi Hprefix.
  destruct (peers_ready Hassets Hrandom s0 s H0 Hsteps) as [Ht [_ Hm Hrouted]].
  destruct (next_hop_spec (now s) (MAX_SAFE_INTEGER - 1) ltac:(unfold dated in Ht; lia) random_index
              Hrandom (p_tenantId p) incomingPeerId None destination
              (List.length (Text.split "." destination)) _ Hm) as ([peerId|] & Hrun & Hhop);
    [by exists peerId|exfalso].
  specialize (Hhop i Hi). unfold candidates in Hhop. rewrite Hprefix in Hhop.
  assert (entry p ∈ List.filter (eligible incomingPeerId None) (routes_of (routingTable (db s)) (p_tenantId p) address))
    as Hin.
  { apply elem_of_filter_bool. split; [|by apply Hrouted]. unfold eligible. simpl.
    rewrite bool_decide_false by congruence. by rewrite andb_false_r. }
  rewrite Hhop in Hin. by inversion Hin.
Qed.

Module Example.
Export ConcreteUuid.

Definition accounting : AccountingService unit :=
  {| createLiquidityAccount a _ := ret a;
     createLiquidityAndLinkedSettlementAccount a _ := ret a;
     getBalance _ := ret None; getTotalSent _ := ret None; getAccountsTotalSent _ := ret [];
     getTotalReceived _ := ret None; getAccountsTotalReceived _ := ret [];
     getSettlementBalance _ := ret None; createTransfer _ := ret (Err UnknownError);
     createDeposit _ := ret None; createWithdrawal _ := ret None;
     postWithdrawal _ := ret None; voidWithdrawal _ := ret None |}.
Definition usd : Asset :=
  {| a_id := "usd"; a_code := "USD"; a_scale := 2; a_ledger := 1; a_tenantId := "tenant";
     a_withdrawalThreshold := None; a_liquidityThreshold := None |}.

#[export] Instance services : PeerServices unit := {
  isValidIlpAddress s := negb (bool_decide (s = ""%string));
  parse_url s := if String.prefix "https://" s
                 then Some {| protocol := "https:"; hostname := String.substring 8 100 s |} else None;
  assetService_get id _ := ret (if bool_decide (id = "usd"%string) then Some usd else None);
  asset_fetch _ := ret (Some usd);
  peer_accounting := accounting;
  toAsset a := {| asset_id := a_id a; asset_code := Some (a_code a); asset_scale := Some (a_scale a);
                  asset_ledger := a_ledger a; asset_onDebit := None |};
  insertPeerEvent _ := ret tt;
  unwind before _ := before;
  random_index _ := 0%nat
}.

Definition create (address : string) : CreatePeerOptions :=
  {| cp_http := {| h_incoming := Some ["from-" +:+ address];
                   h_outgoing := {| authToken := "secret"; endpoint := "https://peer.example" |} |};
     cp_maxPacketAmount := None; cp_staticIlpAddress := address; cp_name := None;
     cp_liquidityThreshold := None; cp_initialLiquidity := Some 100; cp_routes := None;
     cp_assetId := "usd"; cp_tenantId := Some "tenant"%string |}.
Definition update (id : string) (address tenantId : option string) : UpdatePeerOptions :=
  {| up_id := id; up_http := None; up_maxPacketAmount := None; up_staticIlpAddress := address;
     up_name := None; up_liquidityThreshold := None; up_routes := None; up_tenantId := tenantId |}.

Definition s0 : PeerState (X := unit) :=
  {| db := {| peers := []; httpTokens := []; routingTable := ∅ |}; now := 1577836800000;
     fresh := 0; ext := tt |}.
Definition s1 : PeerState (X := unit) := (createPeer (create "test.bob") s0).2.
Definition s2 : PeerState (X := unit) := (createPeer (create "test") s1).2.
Definition bob : string := v4 0.
Definition carol : string := default "" (p_id <$> (peers (db s2) !! 1%nat)).

Definition next_hop_of (s : PeerState (X := unit)) (destination : string) : outcome (option string) :=
  (getNextHop (now s) (fun _ => 0%nat) destination "tenant" None None (routingTable (db s))).1.
Definition peer_for (s : PeerState (X := unit)) (destination : string) : outcome (option string) :=
  match (getPeerByDestinationAddress destination "tenant" None None s).1 with
  | Ret p => Ret (p_id <$> p) | Throw e => Throw e
  end.

(** Bob moves: his old address still leads to him, and after he is deleted his new one
    still does, so that what is under it goes nowhere instead of to Carol. *)
Definition moved : PeerState (X := unit) := (updatePeer (update bob (Some "test.robert"%string) None) s2).2.
Definition gone : PeerState (X := unit) := (deletePeer bob "tenant" moved).2.
Lemma stale_routes :
  next_hop_of moved "test.bob.x" = Ret (Some bob) /\ next_hop_of moved "test.robert.x" = Ret (Some bob) /\
  List.length (peers (db gone)) = 1%nat /\
  next_hop_of gone "test.robert.x" = Ret (Some bob) /\ peer_for gone "test.robert.x" = Ret None /\
  peer_for gone "test.bob.x" = Ret (Some carol).
Proof. by vm_compute. Qed.

(** ... and after a restart his new address does not lead to him. *)
Lemma moved_lost : next_hop_of (start_peers moved) "test.robert.x" = Ret (Some carol).
Proof. by vm_compute. Qed.

(** Of twenty-one peers, one is not routed after a restart. *)
Fixpoint many (n : nat) : PeerState (X := unit) :=
  match n with
  | O => s0
  | S n => (createPeer (create ("test.p" +:+ Text.bigint_toString (Z.of_nat n))) (many n)).2
  end.
Definition unrouted (s : PeerState (X := unit)) : nat :=
  List.length (List.filter (fun p =>
    match routes_of (routingTable (db s)) "tenant" (p_staticIlpAddress p) with [] => true | _ => false end)
    (peers (db s))).
Lemma restart_forgets :
  List.length (peers (db (many 21))) = 21%nat /\ unrouted (many 21) = 0%nat /\
  unrouted (start_peers (many 20)) = 0%nat /\ unrouted (start_peers (many 21)) = 1%nat.
Proof. by vm_compute. Qed.

(** A change that names a tenant gives it the peer of another. *)
Lemma update_takes_peer :
  p_tenantId <$> peers (db (updatePeer (update bob None (Some "mallory"%string)) s1).2) = ["mallory"%string].
Proof. by vm_compute. Qed.
End Example.

#[local] Existing Instances ConcreteUuid.uuid Example.services.

Lemma createPeer_effect_witness :
  exists peer, (createPeer (Example.create "test.bob") Example.s0).1 = Ret (Ok peer) /\
    exists asset, peer_created (Example.create "test.bob") asset Example.s0 Example.s1 peer.
Proof.
  destruct (createPeer (Example.create "test.bob") Example.s0) as [r s'] eqn:Hrun.
  assert (Example.s1 = s') as -> by (unfold Example.s1; by rewrite Hrun).
  assert (dated Example.s0) as Ht by (by vm_compute).
  assert (lasting (routingTable (db Example.s0))) as Hm.
  { change (lasting ∅). intros key c. by rewrite lookup_empty. }
  pose proof (createPeer_effect (Example.create "test.bob") Example.s0 s' r Ht Hm Hrun) as He.
  destruct r as [[peer|err]|e]; [|vm_compute in Hrun; discriminate Hrun..].
  destruct He as (asset & x & _ & _ & _ & He). exists peer. split; [reflexivity|]. by exists asset.
Defined.

Lemma peers_are_routed_witness :
  Example.next_hop_of Example.s2 "test.bob.dave" = Ret (Some Example.bob) /\
  exists peerId,
    getNextHop (now Example.s2) random_index "test.bob.dave" "tenant" (Some Example.carol) None
      (routingTable (db Example.s2)) = (Ret (Some peerId), routingTable (db Example.s2)).
Proof.
  split; [by vm_compute|].
  assert (no_peers Example.s0) as H0 by (by vm_compute).
  assert (rtc peer_step Example.s0 Example.s2) as Hsteps.
  { apply (rtc_l _ _ Example.s1); [apply peer_step_create|].
    apply (rtc_l _ _ Example.s2); [apply peer_step_create|apply rtc_refl]. }
  destruct (peers (db Example.s2)) as [|p l] eqn:Hp; [vm_compute in Hp; discriminate Hp|].
  assert (p ∈ peers (db Example.s2)) as Hin by (rewrite Hp; left).
  assert (p_tenantId p = "tenant"%string /\ p_id p = Example.bob /\
          head (addresses p) = Some "test.bob"%string) as (Hten & Hid & Ha)
    by (vm_compute in Hp; injection Hp as <- _; by vm_compute).
  rewrite <- Hten.
  apply (peers_are_routed Example.s0 Example.s2 p "test.bob" "test.bob.dave" 2 (Some Example.carol)
           ltac:(intros; by eexists _, _) ltac:(intros n Hn; exact Hn) H0 Hsteps Hin).
  - unfold addresses in *. injection Ha as ->. left.
  - rewrite Hid. vm_compute. discriminate.
  - vm_compute. lia.
  - reflexivity.
Defined.
