(* ===== verification/Quote.v ===== *)
(** * Quote: quotes for outgoing payments

    Models [open_payments/quote/model.ts], [errors.ts] and [service.ts].  The
    state is the [quotes] table over the state [X] of the services a quote needs:
    receivers, wallet addresses, assets, fees and payment methods.  The related
    rows a fetched quote carries ([asset], [walletAddress], [fee]) are fields that
    may be missing.  Telemetry and logging are left out. *)

From S2P Require Import Prelude Shared JsNumber Service OpenPayments PaymentMethod.
From S2P Require Pagination Fee LocalPayment PsqlAccounting.
Import Fee (Fee, fee_id, calculate, fixedFee, basisPointFee, FeeType, Sending).

Local Open Scope Z_scope.
Local Open Scope ts_scope.

Record Quote := {
  q_id : string;
  q_tenantId : string;
  q_walletAddressId : string;
  q_walletAddress : option WalletAddress;
  q_client : option string;
  q_assetId : string;
  q_asset : option Asset;
  q_estimatedExchangeRate : number;
  q_feeId : option string;
  q_fee : option Fee;
  debitAmountMinusFees : option Z;
  q_expiresAt : Z;
  q_receiver : string;
  debitAmountValue : Z;
  receiveAmountValue : Z;
  receiveAmountAssetCode : string;
  receiveAmountAssetScale : Z;
  q_createdAt : Z
}.

#[global] Instance Quote_model : Pagination.BaseModel Quote :=
  { Pagination.id := q_id; Pagination.createdAt := q_createdAt }.

(** [quote.debitAmount]; reading it throws when the asset was not fetched. *)
Definition debitAmount (q : Quote) : option Amount :=
  (fun a => {| value := debitAmountValue q; assetCode := a_code a; assetScale := a_scale a |})
    <$> q_asset q.

Definition receiveAmount (q : Quote) : Amount :=
  {| value := receiveAmountValue q;
     assetCode := receiveAmountAssetCode q;
     assetScale := receiveAmountAssetScale q |}.

Definition set_related (asset : option Asset) (w : option WalletAddress) (q : Quote) : Quote :=
  {| q_id := q_id q; q_tenantId := q_tenantId q; q_walletAddressId := q_walletAddressId q;
     q_walletAddress := w; q_client := q_client q; q_assetId := q_assetId q; q_asset := asset;
     q_estimatedExchangeRate := q_estimatedExchangeRate q; q_feeId := q_feeId q;
     q_fee := q_fee q; debitAmountMinusFees := debitAmountMinusFees q;
     q_expiresAt := q_expiresAt q; q_receiver := q_receiver q;
     debitAmountValue := debitAmountValue q; receiveAmountValue := receiveAmountValue q;
     receiveAmountAssetCode := receiveAmountAssetCode q;
     receiveAmountAssetScale := receiveAmountAssetScale q; q_createdAt := q_createdAt q |}.

(** ** The service *)

Record CreateQuoteOptions := {
  tenantId : string;
  walletAddressId : string;
  o_receiver : string;
  o_client : option string;
  o_debitAmount : option Amount;
  o_receiveAmount : option Amount
}.

Record UnfinalizedQuote := {
  u_id : string;
  u_assetId : string;
  u_debitAmount : Amount;
  u_receiveAmount : Amount;
  u_feeId : option string;
  u_fee : option Fee;
  u_estimatedExchangeRate : number
}.

Record CalculateQuoteAmountsWithFeesResult := {
  c_receiveAmountValue : Z;
  c_debitAmountValue : Z;
  c_debitAmountMinusFees : Z
}.

Record QuotePatchOptions := {
  p_amounts : CalculateQuoteAmountsWithFeesResult;
  p_expiresAt : Z
}.

(** A [QuoteError] the service returns instead of throwing. *)
Record QuoteErrorValue := { type : QuoteErrorCode.t; minSendAmount : option Amount }.

(** The services of [ServiceDependencies]. *)
Record QuoteDeps (X P : Type) := {
  quoteLifespan : Z;
  receiver_get : string -> M X (option Receiver);
  walletAddress_get : string -> option string -> M X (option WalletAddress);
  asset_get : string -> M X (option Asset);
  getLatestFee : string -> FeeType -> M X (option Fee);
  paymentMethodHandlerService : PaymentMethodHandlerService X P
}.
Arguments quoteLifespan {X P}. Arguments receiver_get {X P}. Arguments walletAddress_get {X P}.
Arguments asset_get {X P}. Arguments getLatestFee {X P}.
Arguments paymentMethodHandlerService {X P}.

Definition of_option {S A} (o : option A) (e : exn) : M S A :=
  match o with Some a => ret a | None => throw e end.

Section QuoteService.
Context {X P : Type} `{Uuid}.
Context (deps : QuoteDeps X P).

Definition QuoteState : Type := Svc (list Quote) X.

(** What both reads do to a row: fetch its asset and wallet address. *)
Definition fetch_related (q : Quote) : M QuoteState Quote :=
  let! asset := lift (asset_get deps (q_assetId q)) in
  let! w := lift (walletAddress_get deps (q_walletAddressId q) (Some (q_tenantId q))) in
  ret (set_related (match asset with Some a => Some a | None => q_asset q end) w q).

Definition getQuote (options : GetOptions) : M QuoteState (option Quote) :=
  let! quote := db_get (find_where (fun q =>
    when_given (go_tenantId options) (Some (q_tenantId q))
    && subresource_get options (q_id q) (q_walletAddressId q) (q_client q))) in
  match quote with
  | Some q => let! q := fetch_related q in ret (Some q)
  | None => ret None
  end.

Definition getWalletAddressPage (options : ListOptions) : M QuoteState (list Quote) :=
  let! table := db_get (fun d => d) in
  match subresource_list table (fun q => when_given (lo_tenantId options) (Some (q_tenantId q)))
          q_walletAddressId q_client options with
  | Ret quotes => mapM fetch_related quotes
  | Throw e => throw e
  end.

Definition throw_quote_error {A} (code : QuoteErrorCode.t) : M QuoteState A :=
  throw (QuoteError code None).

Definition resolveReceiver (options : CreateQuoteOptions) : M QuoteState Receiver :=
  let! receiver := lift (receiver_get deps (o_receiver options)) in
  let! now := date_now in
  match receiver with
  | None => throw_quote_error QuoteErrorCode.InvalidReceiver
  | Some receiver =>
      if negb (receiver_isActive now receiver)
      then throw_quote_error QuoteErrorCode.InvalidReceiver
      else
      match o_receiveAmount options with
      | Some receiveAmount =>
          if negb (assetScale receiveAmount =? r_assetScale receiver)
             || negb (bool_decide (assetCode receiveAmount = r_assetCode receiver))
          then throw_quote_error QuoteErrorCode.InvalidAmount
          else
          match receiver_remaining receiver with
          | Some receivingPaymentValue =>
              if receivingPaymentValue <? value receiveAmount
              then throw_quote_error QuoteErrorCode.InvalidAmount
              else ret receiver
          | None => ret receiver
          end
      | None =>
          if negb (is_some (o_debitAmount options)) && negb (is_some (receiver_incomingAmount receiver))
          then throw_quote_error QuoteErrorCode.InvalidAmount
          else ret receiver
      end
  end.

Definition calculateFixedSendQuoteAmounts (quote : UnfinalizedQuote)
    (maxReceiveAmountValue fees : Z) : M QuoteState CalculateQuoteAmountsWithFeesResult :=
  let receiveAmountValue := value (u_receiveAmount quote) in
  if receiveAmountValue <=? 0
  then throw_quote_error QuoteErrorCode.NonPositiveReceiveAmount
  else if maxReceiveAmountValue <? receiveAmountValue
  then throw_quote_error QuoteErrorCode.InvalidAmount
  else ret {| c_debitAmountValue := value (u_debitAmount quote) + fees;
              c_debitAmountMinusFees := value (u_debitAmount quote);
              c_receiveAmountValue := receiveAmountValue |}.

Definition calculateFixedDeliveryQuoteAmounts (quote : UnfinalizedQuote) (fees : Z)
  : M QuoteState CalculateQuoteAmountsWithFeesResult :=
  let debitAmountValue := value (u_debitAmount quote) + fees in
  if debitAmountValue <=? 0 then throw_quote_error QuoteErrorCode.InvalidAmount
  else ret {| c_debitAmountValue := debitAmountValue;
              c_debitAmountMinusFees := value (u_debitAmount quote);
              c_receiveAmountValue := value (u_receiveAmount quote) |}.

Definition calculateExpiry (now : Z) (receiver : Receiver) : Z :=
  let quoteExpiry := now + quoteLifespan deps in
  match r_expiresAt receiver with
  | Some expiresAt => if expiresAt <? quoteExpiry then expiresAt else quoteExpiry
  | None => quoteExpiry
  end.

(** The most the receiver can take of a fixed-send quote. *)
Definition maxReceiveAmount (options : CreateQuoteOptions) (quote : UnfinalizedQuote)
    (receiver : Receiver) : option Z :=
  match o_debitAmount options with
  | Some _ =>
      let quoted := value (u_receiveAmount quote) in
      match receiver_remaining receiver with
      | Some receivingPaymentValue =>
          Some (if truthy receivingPaymentValue && (receivingPaymentValue <? quoted)
                then receivingPaymentValue else quoted)
      | None => Some quoted
      end
  | None => None
  end.

Definition finalizeQuote (options : CreateQuoteOptions) (quote : UnfinalizedQuote)
    (receiver : Receiver) (sendingFees : Z) : M QuoteState QuotePatchOptions :=
  let fixed_delivery := calculateFixedDeliveryQuoteAmounts quote sendingFees in
  let! amounts :=
    match maxReceiveAmount options quote receiver with
    | Some maxReceiveAmountValue =>
        if truthy maxReceiveAmountValue
        then calculateFixedSendQuoteAmounts quote maxReceiveAmountValue sendingFees
        else fixed_delivery
    | None => fixed_delivery
    end in
  let! now := date_now in
  ret {| p_amounts := amounts; p_expiresAt := calculateExpiry now receiver |}.

Definition calculateMinSendAmount (quoteMinSendAmount : Z) (sendingFee : option Fee) : option Z :=
  match sendingFee with
  | None => Some quoteMinSendAmount
  | Some sendingFee =>
      let one := of_bigint 1 in
      let zero := of_bigint 0 in
      let invertedPercentageFee :=
        num_sub one (num_min (num_max
          (num_div (of_bigint (basisPointFee sendingFee)) (of_bigint 10000)) zero) one) in
      bigint_ceil (num_div (of_bigint (quoteMinSendAmount + fixedFee sendingFee))
                     invertedPercentageFee)
  end.

Definition RangeError : exn := JsError "RangeError" "".

(** [sendingFee?.calculate(principal) ?? 0n] *)
Definition fee_of (sendingFee : option Fee) (principal : Z) : M QuoteState Z :=
  match sendingFee with
  | Some fee => of_option (calculate fee principal) RangeError
  | None => ret 0
  end.

(** The inner [try]: a quote with a receive amount that is not positive becomes
    an error that says how much must be sent at least, fees included. *)
Definition startQuote (w : WalletAddress) (sendingFee : option Fee) (method : PaymentMethod)
    (options : StartQuoteOptions) : M QuoteState (res QuoteErrorValue PaymentQuote) :=
  try_catch
    (let! quote := lift (PaymentMethod.getQuote
                           (paymentMethodHandlerService deps method) options) in
     ret (Ok quote))
    (fun err => match err with
     | PaymentMethodHandlerError _ _ (Some QuoteNonPositiveReceiveAmount) min =>
         match min with
         | Some quoteMinSendAmount =>
             if truthy quoteMinSendAmount then
               let! v := of_option (calculateMinSendAmount quoteMinSendAmount sendingFee)
                           RangeError in
               ret (Err {| type := QuoteErrorCode.NonPositiveReceiveAmount;
                           minSendAmount := Some {| value := v;
                             assetCode := a_code (wa_asset w);
                             assetScale := a_scale (wa_asset w) |} |})
             else ret (Err {| type := QuoteErrorCode.NonPositiveReceiveAmount;
                              minSendAmount := None |})
         | None => ret (Err {| type := QuoteErrorCode.NonPositiveReceiveAmount;
                               minSendAmount := None |})
         end
     | _ => throw err
     end).

Definition quote_error (code : QuoteErrorCode.t) : res QuoteErrorValue Quote :=
  Err {| type := code; minSendAmount := None |}.

(** The amounts of the request, against the wallet address. *)
Definition validate_amounts (options : CreateQuoteOptions) (w : WalletAddress) : bool :=
  match o_debitAmount options with
  | Some d => negb ((value d <=? 0)
                    || negb (bool_decide (assetCode d = a_code (wa_asset w)))
                    || negb (assetScale d =? a_scale (wa_asset w)))
  | None => true
  end &&
  match o_receiveAmount options with
  | Some r => negb (value r <=? 0)
  | None => true
  end.

(** [Quote.query(knex).insertAndFetch]: the row, without related rows. *)
Definition insertQuote (options : CreateQuoteOptions) (u : UnfinalizedQuote)
    (patch : QuotePatchOptions) : M QuoteState Quote :=
  let! now := date_now in
  let q := {| q_id := u_id u; q_tenantId := tenantId options;
              q_walletAddressId := walletAddressId options; q_walletAddress := None;
              q_client := o_client options; q_assetId := u_assetId u; q_asset := None;
              q_estimatedExchangeRate := u_estimatedExchangeRate u; q_feeId := u_feeId u;
              q_fee := None;
              debitAmountMinusFees := Some (c_debitAmountMinusFees (p_amounts patch));
              q_expiresAt := p_expiresAt patch; q_receiver := o_receiver options;
              debitAmountValue := c_debitAmountValue (p_amounts patch);
              receiveAmountValue := c_receiveAmountValue (p_amounts patch);
              receiveAmountAssetCode := assetCode (u_receiveAmount u);
              receiveAmountAssetScale := assetScale (u_receiveAmount u);
              q_createdAt := now |} in
  db_set (fun d => d ++ [q]) ;;! ret q.

Definition set_fee (fee : option Fee) (q : Quote) : Quote :=
  {| q_id := q_id q; q_tenantId := q_tenantId q; q_walletAddressId := q_walletAddressId q;
     q_walletAddress := q_walletAddress q; q_client := q_client q; q_assetId := q_assetId q;
     q_asset := q_asset q; q_estimatedExchangeRate := q_estimatedExchangeRate q;
     q_feeId := q_feeId q; q_fee := fee; debitAmountMinusFees := debitAmountMinusFees q;
     q_expiresAt := q_expiresAt q; q_receiver := q_receiver q;
     debitAmountValue := debitAmountValue q; receiveAmountValue := receiveAmountValue q;
     receiveAmountAssetCode := receiveAmountAssetCode q;
     receiveAmountAssetScale := receiveAmountAssetScale q; q_createdAt := q_createdAt q |}.

(** The body of the outer [try]. *)
Definition quoteFrom (options : CreateQuoteOptions) (w : WalletAddress)
  : M QuoteState (res QuoteErrorValue Quote) :=
  let! receiver := resolveReceiver options in
  let paymentMethod := if r_isLocal receiver then LOCAL else ILP in
  let! quoteId := uuid in
  let! sendingFee := lift (getLatestFee deps (wa_assetId w) Sending) in
  let! fixedDebitFee := match o_debitAmount options with
                        | Some d => fee_of sendingFee (value d)
                        | None => ret 0
                        end in
  let quoteDebitAmount d :=
    let amount := value d - fixedDebitFee in if amount <=? 0 then 0 else amount in
  let! quote := startQuote w sendingFee paymentMethod
    {| quoteId := Some quoteId;
       sq_walletAddress := w;
       sq_receiver := receiver;
       sq_receiveAmount := o_receiveAmount options;
       sq_debitAmount :=
         (fun d => {| value := quoteDebitAmount d; assetCode := assetCode d;
                      assetScale := assetScale d |}) <$> o_debitAmount options |} in
  match quote with
  | Err e => ret (Err e)
  | Ok quote =>
      let! fixedReceiveFee := match o_debitAmount options with
                              | Some _ => ret 0
                              | None => fee_of sendingFee (value (pq_debitAmount quote))
                              end in
      let unfinalizedQuote :=
        {| u_id := quoteId; u_assetId := wa_assetId w;
           u_debitAmount := pq_debitAmount quote; u_receiveAmount := pq_receiveAmount quote;
           u_feeId := fee_id <$> sendingFee; u_fee := sendingFee;
           u_estimatedExchangeRate := pq_estimatedExchangeRate quote |} in
      let! finalQuoteOptions := finalizeQuote options unfinalizedQuote receiver
        (if truthy fixedDebitFee then fixedDebitFee else fixedReceiveFee) in
      let! createdQuote := insertQuote options unfinalizedQuote finalQuoteOptions in
      ret (Ok (set_fee sendingFee (set_related (Some (wa_asset w)) (Some w) createdQuote)))
  end.

Definition createQuote (options : CreateQuoteOptions)
  : M QuoteState (res QuoteErrorValue Quote) :=
  if is_some (o_debitAmount options) && is_some (o_receiveAmount options)
  then ret (quote_error QuoteErrorCode.InvalidAmount)
  else
  let! walletAddress :=
    lift (walletAddress_get deps (walletAddressId options) (Some (tenantId options))) in
  let! now := date_now in
  match walletAddress with
  | None => ret (quote_error QuoteErrorCode.UnknownWalletAddress)
  | Some w =>
      if negb (wallet_isActive now w)
      then ret (quote_error QuoteErrorCode.InactiveWalletAddress)
      else if negb (validate_amounts options w)
      then ret (quote_error QuoteErrorCode.InvalidAmount)
      else
        try_catch (quoteFrom options w)
          (fun err => match err with
                      | QuoteError code min => ret (Err {| type := code; minSendAmount := min |})
                      | _ => throw err
                      end)
  end.

(** ** What the service relies on

    The payment methods keep their contract (proved in [LocalPayment] and
    [IlpPayment]) and fees are within their bounds (proved in [Fee]). *)

Context (Hsound : forall method, SoundPaymentMethod (paymentMethodHandlerService deps method)).
Context (fees_valid : forall assetId type x fee x',
  getLatestFee deps assetId type x = (Ret (Some fee), x') ->
  0 <= fixedFee fee /\ 0 <= basisPointFee fee).

Definition same (s s' : QuoteState) : Prop := db s' = db s /\ now s' = now s.

(** The receiver accepts the requested amounts. *)
Definition accepts (options : CreateQuoteOptions) (receiver : Receiver) : Prop :=
  (forall r, o_receiveAmount options = Some r ->
     assetCode r = r_assetCode receiver /\ assetScale r = r_assetScale receiver /\
     forall remaining, receiver_remaining receiver = Some remaining -> value r <= remaining) /\
  (o_receiveAmount options = None -> o_debitAmount options = None ->
   is_some (r_incomingAmountValue receiver) = true).

Lemma resolveReceiver_spec options s :
  wp (resolveReceiver options)
    (fun r s' => same s s' /\
       match r with
       | Ret receiver => receiver_isActive (now s) receiver = true /\ accepts options receiver
       | Throw _ => True
       end) s.
Proof.
  unfold resolveReceiver, throw_quote_error, accepts. wp_auto; (split; [done|]); try done.
  all: zbool; split; [done|]; split; [intros; simplify_eq|intros; simplify_eq].
  all: repeat match goal with
       | H : (_ || _) = false |- _ => apply orb_false_iff in H as [? ?]; zbool
       end; try (by split_and!; intros; simplify_eq).
  match goal with H : o_debitAmount options = None |- _ => rewrite H in * end.
  unfold receiver_incomingAmount in *. by destruct (r_incomingAmountValue _).
Qed.

(** The fee taken from a principal. *)
Definition taken_fee (sendingFee : option Fee) (principal fees : Z) : Prop :=
  match sendingFee with
  | Some fee => calculate fee principal = Some fees /\ 0 <= fixedFee fee /\ 0 <= basisPointFee fee
  | None => fees = 0
  end.

Definition fee_valid (sendingFee : option Fee) : Prop :=
  forall fee, sendingFee = Some fee -> 0 <= fixedFee fee /\ 0 <= basisPointFee fee.

Lemma taken_fee_nonneg sendingFee principal fees :
  0 <= principal -> taken_fee sendingFee principal fees -> 0 <= fees.
Proof.
  unfold taken_fee. destruct sendingFee as [fee|]; [|lia]. intros Hp (Hc & ? & ?).
  pose proof (Fee.calculate_bounds fee principal fees ltac:(done) ltac:(done) Hp Hc). lia.
Qed.

Lemma fee_of_spec sendingFee principal s :
  fee_valid sendingFee ->
  wp (fee_of sendingFee principal)
    (fun r s' => s' = s /\
       match r with Ret fees => taken_fee sendingFee principal fees | Throw _ => True end) s.
Proof.
  intros Hv. unfold fee_of, of_option, taken_fee. wp_auto; split_and!; try done; by apply Hv.
Qed.

Lemma startQuote_spec w sendingFee method options s :
  wp (startQuote w sendingFee method options)
    (fun r s' => same s s' /\
       match r with Ret (Ok q) => sound_quote options q | _ => True end) s.
Proof.
  unfold startQuote, of_option. wp_step. wp_step. wp_step.
  - wp_auto. split; [done|]. by eapply Hsound.
  - by wp_auto.
Qed.

(** What [finalizeQuote] makes of a quote: fees on top of the quoted debit, and
    for a fixed send a receive amount within what the receiver can still take
    (when that is not zero). *)
Definition finalized (options : CreateQuoteOptions) (u : UnfinalizedQuote) (receiver : Receiver)
    (fees now : Z) (patch : QuotePatchOptions) : Prop :=
  let amounts := p_amounts patch in
  c_debitAmountMinusFees amounts = value (u_debitAmount u) /\
  c_debitAmountValue amounts = value (u_debitAmount u) + fees /\
  c_receiveAmountValue amounts = value (u_receiveAmount u) /\
  p_expiresAt patch = calculateExpiry now receiver /\
  (forall d remaining, o_debitAmount options = Some d ->
     receiver_remaining receiver = Some remaining -> remaining <> 0 ->
     0 < value (u_receiveAmount u) -> c_receiveAmountValue amounts <= remaining).

Lemma maxReceiveAmount_limit options u receiver d remaining :
  o_debitAmount options = Some d -> receiver_remaining receiver = Some remaining ->
  remaining <> 0 -> 0 < value (u_receiveAmount u) ->
  exists m, maxReceiveAmount options u receiver = Some m /\ truthy m = true /\ m <= remaining.
Proof.
  unfold maxReceiveAmount, truthy, truthy_Z. intros -> -> Hnz Hpos. eexists. split; [done|].
  destruct (Z.eqb_spec remaining 0), (Z.ltb_spec remaining (value (u_receiveAmount u)));
    simpl; lia.
Qed.

Lemma finalizeQuote_spec options u receiver fees s :
  wp (finalizeQuote options u receiver fees)
    (fun r s' => s' = s /\
       match r with Ret patch => finalized options u receiver fees (now s) patch
                  | Throw _ => True end) s.
Proof.
  unfold finalizeQuote, finalized, calculateFixedSendQuoteAmounts,
    calculateFixedDeliveryQuoteAmounts, throw_quote_error.
  wp_auto; split_and!; try done; simpl; intros d remaining Hd Hrem Hnz Hpos;
    destruct (maxReceiveAmount_limit options u receiver d remaining) as (m & Hm & Ht & Hle);
    zbool; try done; try congruence; simplify_eq; lia.
Qed.

(** What a quote that is created looks like, and what it does to the table. *)
Record created (options : CreateQuoteOptions) (s : QuoteState) (q : Quote) (s' : QuoteState)
    : Prop := {
  created_row : exists row, db s' = db s ++ [row] /\
    q = set_fee (q_fee q) (set_related (q_asset q) (q_walletAddress q) row);
  created_wallet : exists w, q_walletAddress q = Some w /\ q_asset q = Some (wa_asset w) /\
    wallet_isActive (now s) w = true;
  created_receiver : exists receiver, receiver_isActive (now s) receiver = true /\
    accepts options receiver /\ q_expiresAt q = calculateExpiry (now s) receiver /\
    in_receiver_asset receiver (receiveAmount q) /\
    (forall remaining, is_some (o_debitAmount options) = true ->
       receiver_remaining receiver = Some remaining -> remaining <> 0 ->
       receiveAmountValue q <= remaining);
  created_amounts : exists net fees,
    debitAmountMinusFees q = Some net /\ 0 < net /\ 0 < receiveAmountValue q /\
    debitAmountValue q = net + fees /\
    taken_fee (q_fee q) (default net (value <$> o_debitAmount options)) fees /\
    0 <= fees /\
    (forall d, o_debitAmount options = Some d -> net + fees <= value d)
}.

(** The fee of a fixed send, before the payment method is asked. *)
Lemma fixedDebitFee_spec options sendingFee s :
  fee_valid sendingFee ->
  wp (match o_debitAmount options with
      | Some d => fee_of sendingFee (value d)
      | None => ret 0
      end)
    (fun r s' => s' = s /\
       match r with
       | Ret z => (forall d, o_debitAmount options = Some d -> taken_fee sendingFee (value d) z) /\
                  (o_debitAmount options = None -> z = 0)
       | Throw _ => True
       end) s.
Proof.
  intros Hfee. destruct (o_debitAmount options) as [d|].
  - eapply wp_mono; [by apply fee_of_spec|]. intros [z|e] s' [-> Hz]; [|done].
    split_and!; [done| |done]. by intros d' [= <-].
  - by wp_auto.
Qed.

(** The fee of a fixed delivery, on the quoted debit. *)
Lemma fixedReceiveFee_spec options sendingFee principal s :
  fee_valid sendingFee ->
  wp (match o_debitAmount options with
      | Some _ => ret 0
      | None => fee_of sendingFee principal
      end)
    (fun r s' => s' = s /\
       match r with
       | Ret z => (o_debitAmount options = None -> taken_fee sendingFee principal z) /\
                  (is_some (o_debitAmount options) = true -> z = 0)
       | Throw _ => True
       end) s.
Proof.
  intros Hfee. destruct (o_debitAmount options) as [d|]; [by wp_auto|].
  eapply wp_mono; [by apply fee_of_spec|]. by intros [z|e] s' [-> Hz].
Qed.

(** Of the two fees one is zero: the fee that is charged is the one taken from
    the requested debit, or from the quoted one; and a fixed send stays within the
    request. *)
Lemma charged_fee options sendingFee net debitFee receiveFee :
  (forall d, o_debitAmount options = Some d -> taken_fee sendingFee (value d) debitFee) ->
  (o_debitAmount options = None -> debitFee = 0) ->
  (o_debitAmount options = None -> taken_fee sendingFee net receiveFee) ->
  (is_some (o_debitAmount options) = true -> receiveFee = 0) ->
  (forall d, o_debitAmount options = Some d ->
     net <= (if value d - debitFee <=? 0 then 0 else value d - debitFee)) -> 0 < net ->
  let fees := if truthy debitFee then debitFee else receiveFee in
  taken_fee sendingFee (default net (value <$> o_debitAmount options)) fees /\
  (forall d, o_debitAmount options = Some d -> net + fees <= value d).
Proof.
  unfold truthy, truthy_Z. intros Hd Hd0 Hr Hr0 Hnet Hpos.
  destruct (o_debitAmount options) as [d|]; simpl in *.
  - specialize (Hd d eq_refl). specialize (Hnet d eq_refl). rewrite (Hr0 eq_refl).
    revert Hnet. destruct (Z.leb_spec (value d - debitFee) 0); [lia|].
    destruct (Z.eqb_spec debitFee 0) as [E|]; simpl; intros; (split; [congruence|]);
      intros d' [= <-]; lia.
  - rewrite (Hd0 eq_refl). simpl. split; [auto|done].
Qed.

Lemma principal_nonneg options w net :
  validate_amounts options w = true -> 0 <= net ->
  0 <= default net (value <$> o_debitAmount options).
Proof.
  unfold validate_amounts. intros [Hd _]%andb_true_iff Hnet.
  destruct (o_debitAmount options); simpl; [|done]. zbool. lia.
Qed.

Lemma quoteFrom_spec options w s :
  wallet_isActive (now s) w = true -> validate_amounts options w = true ->
  wp (quoteFrom options w)
    (fun r s' => now s' = now s /\
       match r with
       | Ret (Ok q) => created options s q s'
       | _ => db s' = db s
       end) s.
Proof.
  intros Hw Hamounts. unfold quoteFrom.
  wp_step. eapply wp_mono; [apply resolveReceiver_spec|].
  intros [receiver|e] s1 [[Hdb1 Hnow1] Hr]; [|done]. destruct Hr as [Hactive Haccepts].
  do 3 wp_step. apply wp_lift. intros [sendingFee|e] x2 Hcall; svc_simpl; [|done].
  assert (fee_valid sendingFee) as Hfee by (intros fee ->; by eapply fees_valid).
  wp_step. eapply wp_mono; [by apply fixedDebitFee_spec|].
  intros [debitFee|e] s3 [-> Hd]; [|done]. destruct Hd as [Hd Hd0].
  wp_step. eapply wp_mono; [apply startQuote_spec|].
  intros [[quote|err]|e] s4 [[Hdb4 Hnow4] Hq]; [|by wp_auto; rewrite Hdb4, Hnow4..].
  simpl in Hdb4, Hnow4. wp_step.
  eapply wp_mono; [by apply (fixedReceiveFee_spec options sendingFee)|].
  intros [receiveFee|e] s5 [-> Hrf]; [|by rewrite Hdb4, Hnow4]. destruct Hrf as [Hrf Hrf0].
  wp_step. eapply wp_mono; [apply finalizeQuote_spec|].
  intros [patch|e] s6 [-> Hp]; [|by rewrite Hdb4, Hnow4].
  destruct Hp as (Hp1 & Hp2 & Hp3 & Hp4 & Hp5). simpl in Hp1, Hp2, Hp3, Hp5.
  unfold insertQuote. wp_auto. split; [congruence|].
  destruct Hq as [Hq1 Hq2 Hq3 Hq4 Hq5]. simpl in Hq3, Hq4, Hq5.
  destruct (charged_fee options sendingFee (value (pq_debitAmount quote)) debitFee receiveFee)
    as [Htaken Hwithin]; try done.
  { intros d Hod. specialize (Hq5 _ (f_equal _ Hod)). done. }
  constructor; simpl.
  - eexists. split; [by rewrite Hdb4, Hdb1|]. done.
  - by exists w.
  - exists receiver. split_and!; try done; [by rewrite Hp4, Hnow4, Hnow1|].
    intros remaining (d & Hod)%is_some_Some Hrem Hnz. rewrite Hp3 in *. by eapply Hp5.
  - eexists _, _. split_and!; [by rewrite Hp1|done|by rewrite Hp3|by rewrite Hp2|done| |].
    + eapply taken_fee_nonneg; [|done]. by apply (principal_nonneg options w); [|lia].
    + intros d Hod. by apply Hwithin.
Qed.

Lemma calculateExpiry_bounds n receiver :
  receiver_isActive n receiver = true ->
  calculateExpiry n receiver <= n + quoteLifespan deps /\
  (forall t, r_expiresAt receiver = Some t -> calculateExpiry n receiver <= t) /\
  (0 < quoteLifespan deps -> n < calculateExpiry n receiver).
Proof.
  unfold calculateExpiry, receiver_isActive. destruct (r_completed receiver); [done|].
  destruct (r_expiresAt receiver) as [t|]; [|intros _; split_and!; [lia|done|lia]].
  destruct (Z.leb_spec t n); [done|]. intros _.
  destruct (Z.ltb_spec t (n + quoteLifespan deps)); split_and!; try lia; intros t' [= ->]; lia.
Qed.

Lemma createQuote_spec options s :
  wp (createQuote options)
    (fun r s' => now s' = now s /\
       match r with
       | Ret (Ok q) => created options s q s'
       | _ => db s' = db s
       end) s.
Proof.
  unfold createQuote. wp_step; [by wp_auto|]. wp_step. apply wp_lift.
  intros [[w|]|e] x Hcall; svc_simpl; [|by wp_auto..].
  do 2 wp_step. wp_step; [by wp_auto|]. wp_step; [by wp_auto|]. zbool. wp_step.
  eapply wp_mono; [by apply quoteFrom_spec|]. simpl.
  intros [[q|err]|e] s' [Hnow Hs]; [|done|destruct e; by wp_auto].
  split; [done|]. by destruct Hs.
Qed.

Lemma createQuote_created options s q s' :
  createQuote options s = (Ret (Ok q), s') -> created options s q s'.
Proof. intros Hm. exact (proj2 (wp_run _ _ _ _ _ (createQuote_spec options s) Hm)). Qed.

(** C34. A quote adds up.  Every quote that is created debits the amount the
    payment method quoted plus exactly the fee the latest fee rule takes (from the
    requested debit for a fixed send, from the quoted debit otherwise); both the
    net and the receive amount are positive, fees are not negative, and a fixed
    send never debits more than was asked for. *)
Theorem createQuote_amounts options s q s' :
  createQuote options s = (Ret (Ok q), s') ->
  exists net fees,
    debitAmountMinusFees q = Some net /\ debitAmountValue q = net + fees /\
    0 < net /\ 0 <= fees /\ 0 < receiveAmountValue q /\
    taken_fee (q_fee q) (default net (value <$> o_debitAmount options)) fees /\
    (forall d, o_debitAmount options = Some d -> debitAmountValue q <= value d).
Proof.
  intros Hc%createQuote_created. destruct (created_amounts _ _ _ _ Hc)
    as (net & fees & Hnet & Hpos & Hrec & Hdeb & Htaken & Hnn & Hlimit).
  exists net, fees. split_and!; try done. intros d Hd. rewrite Hdeb. by apply Hlimit.
Qed.

(** A quote is made for an active wallet address and an active receiver that
    accepts it, and expires no later than the receiver.  The receiver's expiry and
    the configured lifespan both bound the quote's, and with a positive lifespan
    the quote is not yet expired when it is created; the receive amount is in the
    receiver's asset; a fixed receive amount is at most what the receiver can still
    take, and so is the quoted one of a fixed send unless nothing remains. *)
Theorem createQuote_receiver options s q s' :
  createQuote options s = (Ret (Ok q), s') ->
  (exists w, q_walletAddress q = Some w /\ wallet_isActive (now s) w = true) /\
  exists receiver,
    receiver_isActive (now s) receiver = true /\ accepts options receiver /\
    in_receiver_asset receiver (receiveAmount q) /\
    q_expiresAt q <= now s + quoteLifespan deps /\
    (forall t, r_expiresAt receiver = Some t -> q_expiresAt q <= t) /\
    (0 < quoteLifespan deps -> now s < q_expiresAt q) /\
    (forall remaining, is_some (o_debitAmount options) = true ->
       receiver_remaining receiver = Some remaining -> remaining <> 0 ->
       receiveAmountValue q <= remaining).
Proof.
  intros Hc%createQuote_created.
  destruct (created_wallet _ _ _ _ Hc) as (w & Hw & _ & Hactive).
  destruct (created_receiver _ _ _ _ Hc) as (receiver & Hr & Hacc & Hexp & Hasset & Hlimit).
  destruct (calculateExpiry_bounds (now s) receiver Hr) as (H1 & H2 & H3). rewrite <- Hexp in *.
  split; [by exists w|]. by exists receiver.
Qed.

(** Creating a quote writes one row or nothing.  On success exactly one row is
    appended, the returned quote less its related rows; on every error that is
    returned or thrown, by any guard or by any service, the table is unchanged. *)
Theorem createQuote_writes options s r s' :
  createQuote options s = (r, s') ->
  match r with
  | Ret (Ok q) => exists row, db s' = db s ++ [row] /\
      q = set_fee (q_fee q) (set_related (q_asset q) (q_walletAddress q) row)
  | _ => db s' = db s
  end.
Proof.
  intros Hm. destruct (wp_run _ _ _ _ _ (createQuote_spec options s) Hm) as [_ Hs].
  destruct r as [[q|err]|e]; [|done..]. apply (created_row _ _ _ _ Hs).
Qed.
End QuoteService.

(** ** Witnesses: local quotes with a fee of 5 and 2% *)

Module Example.
#[local] Existing Instance ConcreteUuid.uuid.

Definition W : Type := LocalPayment.Example.W.

Definition fee : Fee :=
  {| fee_id := "id-fee"; Fee.fee_assetId := "usd"; Fee.fee_type := Sending; fixedFee := 5;
     basisPointFee := 200; Fee.fee_createdAt := 0 |}.

Definition wallet : WalletAddress :=
  {| wa_id := "w"; wa_tenantId := "tenant"; wa_address := "https://host/w";
     wa_assetId := "usd"; wa_asset := LocalPayment.Example.dollars;
     wa_totalEventsAmount := 0; wa_processAt := None; wa_deactivatedAt := None |}.

(** An invoice of 100 that is open until 5000, with [received] already paid. *)
Definition invoice (received : Z) : Receiver :=
  {| r_assetCode := "USD"; r_assetScale := 2; r_isLocal := true;
     r_incomingPaymentId := "https://host/tenant/incoming-payments/invoice";
     r_completed := false; r_expiresAt := Some 5000; r_incomingAmountValue := Some 100;
     r_receivedAmountValue := received;
     r_methods := [{| method_type := "ilp"; ilpAddress := "test.a"; sharedSecret := "" |}] |}.

Definition deps (received : Z) (fee : Fee) : QuoteDeps W unit :=
  {| quoteLifespan := 60000;
     receiver_get url := ret (Some (invoice received));
     walletAddress_get id tenant := ret (Some wallet);
     asset_get id := ret (Some LocalPayment.Example.dollars);
     getLatestFee asset type := ret (Some fee);
     paymentMethodHandlerService :=
       createPaymentMethodHandlerService LocalPayment.Example.service
         LocalPayment.Example.service |}.

Lemma deps_sound received fee method :
  SoundPaymentMethod (paymentMethodHandlerService (deps received fee) method).
Proof. apply handler_sound; apply LocalPayment.local_sound. Qed.

Lemma deps_fees received assetId type x f x' :
  getLatestFee (deps received fee) assetId type x = (Ret (Some f), x') ->
  0 <= fixedFee f /\ 0 <= basisPointFee f.
Proof. simpl. intros Hf. unfold ret in Hf. simplify_eq. done. Qed.

Definition s0 : QuoteState :=
  {| db := []; now := 1000; fresh := 7; ext := PsqlAccounting.Example.funded |}.

(** Spend 90 dollar cents. *)
Definition options : CreateQuoteOptions :=
  {| tenantId := "tenant"; walletAddressId := "w"; o_receiver := "https://host/invoice";
     o_client := None;
     o_debitAmount := Some {| value := 90; assetCode := "USD"; assetScale := 2 |};
     o_receiveAmount := None |}.

(** A quote and its net debit, debit, receive amount and expiry. *)
Definition summary (r : outcome (res QuoteErrorValue Quote)) : option (option Z * Z * Z * Z) :=
  match r with
  | Ret (Ok q) => Some (debitAmountMinusFees q, debitAmountValue q, receiveAmountValue q,
                        q_expiresAt q)
  | _ => None
  end.
End Example.

#[local] Existing Instance ConcreteUuid.uuid.

Lemma createQuote_amounts_witness :
  exists q s', createQuote (Example.deps 0 Example.fee) Example.options Example.s0
               = (Ret (Ok q), s') /\
    debitAmountMinusFees q = Some 83 /\ debitAmountValue q = 90 /\ q_expiresAt q = 5000 /\
    exists net fees, debitAmountMinusFees q = Some net /\ debitAmountValue q = net + fees /\
      0 < net /\ 0 <= fees.
Proof.
  eexists _, _. split; [by vm_compute|]. split; [by vm_compute|]. split; [by vm_compute|].
  split; [by vm_compute|].
  edestruct (createQuote_amounts (Example.deps 0 Example.fee) (Example.deps_sound 0 Example.fee)
    (Example.deps_fees 0) Example.options Example.s0) as (net & fees & H1 & H2 & H3 & H4 & _);
    [by vm_compute|].
  exists net, fees. split_and!; [exact H1|exact H2|exact H3|exact H4].
Defined.

Lemma createQuote_receiver_witness :
  exists q s', createQuote (Example.deps 0 Example.fee) Example.options Example.s0
               = (Ret (Ok q), s') /\
    exists w, q_walletAddress q = Some w /\ wallet_isActive 1000 w = true.
Proof.
  eexists _, _. split; [by vm_compute|].
  edestruct (createQuote_receiver (Example.deps 0 Example.fee)
    (Example.deps_sound 0 Example.fee) (Example.deps_fees 0) Example.options Example.s0)
    as [Hw _]; [by vm_compute|]. exact Hw.
Defined.

Lemma createQuote_writes_witness :
  exists q s', createQuote (Example.deps 0 Example.fee) Example.options Example.s0
               = (Ret (Ok q), s') /\ length (db s') = 1%nat /\
    exists row, db s' = [] ++ [row] /\
      q = set_fee (q_fee q) (set_related (q_asset q) (q_walletAddress q) row).
Proof.
  eexists _, _. split; [by vm_compute|]. split; [by vm_compute|].
  pose proof (createQuote_writes (Example.deps 0 Example.fee)
    (Example.deps_sound 0 Example.fee) (Example.deps_fees 0) Example.options Example.s0) as Hw.
  specialize (Hw _ _ ltac:(by vm_compute)). exact Hw.
Defined.

(** A fixed send to an invoice that is fully paid but not yet completed: what
    remains is [0n], which counts as no limit, and the quote is created. *)
Lemma paid_invoice_quoted :
  Example.summary (createQuote (Example.deps 100 Example.fee) Example.options Example.s0).1
  = Some (Some 83, 90, 83, 5000).
Proof. by vm_compute. Qed.

(** The same request is refused when one unit more was paid than asked for. *)
Lemma overpaid_invoice_refused :
  (createQuote (Example.deps 101 Example.fee) Example.options Example.s0).1
  = Ret (quote_error QuoteErrorCode.InvalidAmount).
Proof. by vm_compute. Qed.

(** With a fee of 100% there is no minimum send amount: the division by zero makes
    [BigInt] throw instead of the quote error being returned. *)
Lemma full_fee_min_send_throws :
  calculateMinSendAmount 10
    (Some {| fee_id := "f"; Fee.fee_assetId := "usd"; Fee.fee_type := Sending;
             fixedFee := 0; basisPointFee := 10000; Fee.fee_createdAt := 0 |}) = None.
Proof. by vm_compute. Qed.
