(* ===== verification/Limits.v ===== *)
(** * Limits: the repeating intervals of a grant

    Models [getInterval] of [open_payments/payment/outgoing/limits.ts]: the period
    of an ISO 8601 repeating interval that holds a date.  The dates and durations of
    the luxon library, and the parser of numbers of the JavaScript engine, are the
    parameters [Luxon]; [LuxonLaws] is what luxon documents of them.  The loop of the
    code runs on fuel, and [None] is a loop that has not ended. *)

From S2P Require Import Prelude JsNumber.
From Stdlib Require Import SpecFloat Ascii.

Local Open Scope Z_scope.
Local Open Scope ts_scope.

(** An [Interval]: its [start] and [end] in milliseconds, [null] when invalid. *)
Record Interval := { i_start : option Z; i_end : option Z }.

(** [split('/')] *)
Fixpoint split_slash (s : string) : list string :=
  match s with
  | EmptyString => [EmptyString]
  | String c s =>
      match split_slash s with
      | [] => []
      | part :: parts =>
          if bool_decide (c = "/"%char) then EmptyString :: part :: parts
          else String c part :: parts
      end
  end.

(** [s.slice(1)] *)
Definition slice1 (s : string) : string :=
  match s with EmptyString => EmptyString | String _ s => s end.

Record Luxon := {
  Duration : Type;
  (** [Number(s)] *)
  Number : string -> number;
  (** [Interval.fromISO(s)], when it is valid and has a start. *)
  Interval_fromISO : string -> option Interval;
  Duration_fromISO : string -> Duration;
  toDuration : Interval -> Duration;
  (** [Interval.after(start, duration)] and [Interval.before(end, duration)] *)
  after : Z -> Duration -> Interval;
  before : Z -> Duration -> Interval;
  contains : Interval -> Z -> bool;
  isAfter : Interval -> Z -> bool;
  isBefore : Interval -> Z -> bool
}.

Section GetInterval.
Context (luxon : Luxon).

(** The number of repetitions, when it can be told. *)
Definition repetitions (part : string) : option number :=
  let n := match String.get 1 part with
           | Some c => if negb (bool_decide (c = "-"%char))
                       then Some (Number luxon (slice1 part)) else None
           | None => None
           end in
  match n with
  | Some n => Some n
  | None => if bool_decide (part ∈ ["R"; "R-1"]%string) then Some (S754_infinity false) else None
  end.

(** A part that is a duration, [P...]. *)
Definition is_duration (part : string) : bool :=
  (1 <? Z.of_nat (String.length part)) && bool_decide (String.get 0 part = Some "P"%char).

(** The next period. *)
Definition next (forward : bool) (d : Duration luxon) (st en : Z) : Interval :=
  if forward then after luxon en d else before luxon st d.

(** The loop, from its [i]-th round. *)
Fixpoint repeat_interval (fuel : nat) (i : Z) (reps : number) (forward : bool)
    (d : Duration luxon) (interval : Interval) (target : Z) : option (option Interval) :=
  match fuel with
  | O => None
  | S fuel =>
      if num_ltb (of_bigint i) (num_add reps (of_bigint 1)) then
        match i_start interval, i_end interval with
        | Some st, Some en =>
            let nextInterval := next forward d st en in
            if contains luxon nextInterval target then Some (Some nextInterval)
            else repeat_interval fuel (i + 1) reps forward d nextInterval target
        | _, _ => Some None
        end
      else Some None
  end.

(** The direction and the duration of the periods after the first. *)
Definition direction (part1 part2 : string) (interval : Interval) : bool * Duration luxon :=
  if is_duration part1 then (false, Duration_fromISO luxon part1)
  else if is_duration part2 then (true, Duration_fromISO luxon part2)
  else (true, toDuration luxon interval).

Definition getInterval (fuel : nat) (repeatingInterval : string) (target : Z)
  : option (outcome (option Interval)) :=
  match split_slash repeatingInterval with
  | [part0; part1; part2] =>
      match repetitions part0 with
      | None | Some S754_nan => Some (Ret None)
      | Some reps =>
          match Interval_fromISO luxon (part1 +:+ "/" +:+ part2) with
          | None => Some (Ret None)
          | Some interval =>
              if contains luxon interval target then Some (Ret (Some interval))
              else
              let '(forward, d) := direction part1 part2 interval in
              if forward && isAfter luxon interval target then Some (Ret None)
              else if negb forward && isBefore luxon interval target then Some (Ret None)
              else Ret <$> repeat_interval fuel 1 reps forward d interval target
          end
      end
  | _ => Some (Throw (JsError "Error" "invalid repearting interval"))
  end.

(** ** What luxon documents *)

Definition valid (i : Interval) : Prop :=
  exists st en, i_start i = Some st /\ i_end i = Some en /\ st <= en.

Definition invalid (i : Interval) : Prop := i_start i = None /\ i_end i = None.

(** An interval holds its start and not its end; an interval that is built after or
    before a date starts or ends there, unless it is invalid. *)
Record LuxonLaws : Prop := {
  contains_bounds i t : contains luxon i t = true <->
    exists st en, i_start i = Some st /\ i_end i = Some en /\ st <= t < en;
  fromISO_valid s i : Interval_fromISO luxon s = Some i -> valid i;
  after_valid st d : invalid (after luxon st d) \/
    (valid (after luxon st d) /\ i_start (after luxon st d) = Some st);
  before_valid en d : invalid (before luxon en d) \/
    (valid (before luxon en d) /\ i_end (before luxon en d) = Some en);
  isAfter_bounds i t : isAfter luxon i t = true <-> exists st, i_start i = Some st /\ t < st;
  isBefore_bounds i t : isBefore luxon i t = true <-> exists en, i_end i = Some en /\ en <= t
}.

(** ** The periods of a repeating interval *)

Fixpoint period (forward : bool) (d : Duration luxon) (first : Interval) (n : nat) : Interval :=
  match n with
  | O => first
  | S n => match i_start (period forward d first n), i_end (period forward d first n) with
           | Some st, Some en => next forward d st en
           | _, _ => period forward d first n
           end
  end.

Lemma period_shift forward d first st en n :
  i_start first = Some st -> i_end first = Some en ->
  period forward d (next forward d st en) n = period forward d first (S n).
Proof.
  intros Hst Hen. induction n as [|n IH]; [simpl; by rewrite Hst, Hen|].
  change (period forward d (next forward d st en) (S n)) with
    (match i_start (period forward d (next forward d st en) n),
           i_end (period forward d (next forward d st en) n) with
     | Some st, Some en => next forward d st en
     | _, _ => period forward d (next forward d st en) n
     end). by rewrite IH.
Qed.

(** The first of the periods that holds the date. *)
Definition first_period (forward : bool) (d : Duration luxon) (first : Interval) (target : Z)
    (r : Interval) : Prop :=
  exists n, r = period forward d first n /\ contains luxon r target = true /\
    forall m, (m < n)%nat -> contains luxon (period forward d first m) target = false.

Lemma repeat_interval_first fuel reps forward d target r : forall i interval,
  contains luxon interval target = false ->
  repeat_interval fuel i reps forward d interval target = Some (Some r) ->
  first_period forward d interval target r.
Proof.
  induction fuel as [|fuel IH]; intros i interval Hno; simpl; [done|].
  destruct (num_ltb _ _); [|done].
  destruct (i_start interval) as [st|] eqn:Hst, (i_end interval) as [en|] eqn:Hen; try done.
  destruct (contains luxon (next forward d st en) target) eqn:Hc.
  - intros [= <-]. exists 1%nat. split; [simpl; by rewrite Hst, Hen|]. split; [done|].
    intros m Hm. assert (m = 0%nat) as -> by lia. done.
  - intros Hr. destruct (IH _ _ Hc Hr) as (n & -> & Hcn & Hbefore).
    rewrite (period_shift _ _ interval) in * by done. exists (S n). split_and!; [done..|].
    intros [|m] Hm; [done|]. rewrite <- (period_shift _ _ interval st en) by done.
    apply Hbefore. lia.
Qed.

(** A period that is found is the first one that holds the date, of periods that
    depend on the text of the interval only. *)
Lemma getInterval_found fuel s target r :
  getInterval fuel s target = Some (Ret (Some r)) ->
  exists part0 part1 part2 first, split_slash s = [part0; part1; part2] /\
    Interval_fromISO luxon (part1 +:+ "/" +:+ part2) = Some first /\
    first_period (direction part1 part2 first).1 (direction part1 part2 first).2 first target r.
Proof.
  unfold getInterval. destruct (split_slash s) as [|part0 [|part1 [|part2 [|]]]]; try done.
  intros Hr. destruct (repetitions part0) as [reps|]; [|done].
  destruct (Interval_fromISO luxon _) as [first|] eqn:Hfirst; [|by destruct reps].
  exists part0, part1, part2, first. split_and!; [done..|].
  destruct (direction part1 part2 first) as [forward d]; cbn [fst snd].
  destruct (contains luxon first target) eqn:Hc.
  - exists 0%nat. split_and!; [|by destruct reps; simplify_eq|lia]. by destruct reps; simplify_eq.
  - apply (repeat_interval_first fuel reps forward d target r 1 first Hc).
    destruct reps; try done;
      (destruct (forward && _); [done|]; destruct (negb forward && _); [done|];
       destruct (repeat_interval _ _ _ _ _ _ _) as [[]|]; by simplify_eq/=).
Qed.

Lemma first_period_unique forward d first target r r' :
  first_period forward d first target r -> first_period forward d first target r' -> r = r'.
Proof.
  intros (n & -> & Hc & Hn) (n' & -> & Hc' & Hn').
  destruct (lt_eq_lt_dec n n') as [[Hlt| ->]|Hlt]; [|done|].
  - by rewrite Hn' in Hc by done.
  - by rewrite Hn in Hc' by done.
Qed.

Context (laws : LuxonLaws).

Lemma next_valid forward d st en :
  invalid (next forward d st en) \/
  valid (next forward d st en) /\
    if forward then i_start (next forward d st en) = Some en
    else i_end (next forward d st en) = Some st.
Proof. destruct forward; simpl; [by apply after_valid|by apply before_valid]. Qed.

Lemma period_valid_or forward d first n :
  valid first -> valid (period forward d first n) \/ invalid (period forward d first n).
Proof.
  intros Hv. induction n as [|n IH]; [by left|]. simpl.
  destruct IH as [(st & en & -> & -> & _)|[Hst Hen]].
  - destruct (next_valid forward d st en) as [|[? _]]; auto.
  - rewrite Hst. by right.
Qed.

(** Where two periods lie to each other. *)
Definition apart (forward : bool) (i j : Interval) : Prop :=
  exists st en st' en', i_start i = Some st /\ i_end i = Some en /\
    i_start j = Some st' /\ i_end j = Some en' /\ if forward then en <= st' else en' <= st.

Lemma period_apart forward d first m n :
  valid first -> (m < n)%nat -> valid (period forward d first n) ->
  apart forward (period forward d first m) (period forward d first n).
Proof.
  intros Hv. induction n as [|n IH]; [lia|]. intros Hm Hn. simpl in *.
  destruct (period_valid_or forward d first n Hv) as [Hvn|[Hst Hen]].
  2:{ rewrite Hst in Hn. destruct Hn as (? & ? & ? & _). congruence. }
  pose proof Hvn as (st & en & Hst & Hen & Hle). rewrite Hst, Hen in *.
  destruct (next_valid forward d st en) as [[Hst' _]|[(st' & en' & Hst' & Hen' & Hle') Hnext]].
  { destruct Hn as (? & ? & ? & _). congruence. }
  assert (apart forward (period forward d first n) (next forward d st en)) as Hlast.
  { exists st, en, st', en'. split_and!; [done..|]. destruct forward; simplify_eq; lia. }
  destruct (decide (m = n)) as [->|]; [done|].
  destruct (IH ltac:(lia) Hvn) as (a & b & a' & b' & Ha & Hb & Ha' & Hb' & Hab).
  exists a, b, st', en'. split_and!; [done..|]. simplify_eq.
  destruct Hlast as (? & ? & ? & ? & ? & ? & ? & ? & Hlast). simplify_eq.
  destruct forward; lia.
Qed.

Lemma apart_contains forward i j t :
  apart forward i j -> contains luxon i t = true -> contains luxon j t = true -> False.
Proof.
  intros (st & en & st' & en' & Hst & Hen & Hst' & Hen' & Hap).
  rewrite !(contains_bounds laws). intros (? & ? & ? & ? & ?) (? & ? & ? & ? & ?).
  simplify_eq. destruct forward; lia.
Qed.

Lemma contains_valid i t : contains luxon i t = true -> valid i.
Proof.
  rewrite (contains_bounds laws). intros (st & en & Hst & Hen & Ht).
  exists st, en. split_and!; [done..|lia].
Qed.

Lemma getInterval_same fuel fuel' s t t' r r' :
  getInterval fuel s t = Some (Ret (Some r)) ->
  getInterval fuel' s t' = Some (Ret (Some r')) ->
  contains luxon r t' = true -> r = r'.
Proof.
  intros (p0 & p1 & p2 & first & Hs & Hiso & Hfirst)%getInterval_found
    (p0' & p1' & p2' & first' & Hs' & Hiso' & Hfirst')%getInterval_found Hc.
  rewrite Hs in Hs'. injection Hs' as <- <- <-. rewrite Hiso in Hiso'. injection Hiso' as <-.
  apply fromISO_valid in Hiso; [|done]. destruct (direction p1 p2 first) as [forward d]; simpl in *.
  apply (first_period_unique forward d first t'); [|done].
  destruct Hfirst as (n & -> & Hct & Hn). exists n. split_and!; [done..|].
  intros m Hm. apply not_true_iff_false. intros Hcm.
  eapply apart_contains; [|exact Hcm|exact Hc].
  apply period_apart; [done..|]. by eapply contains_valid.
Qed.

(** The periods of a repeating interval do not overlap: if the period found for
    one date holds another date, then it is the period found for that date too. *)
Theorem getInterval_stable fuel fuel' s t t' r r' :
  getInterval fuel s t = Some (Ret (Some r)) ->
  getInterval fuel' s t' = Some (Ret (Some r')) ->
  contains luxon r t' = true -> r = r'.
Proof. apply getInterval_same. Qed.

(** ** Termination *)

Definition nonempty (i : Interval) : Prop :=
  forall st en, i_start i = Some st -> i_end i = Some en -> st < en.

(** The rounds left: how far the date is from the period, in the direction. *)
Definition distance (forward : bool) (st en t : Z) : Z := if forward then t - en else st - 1 - t.

Lemma repeat_interval_invalid fuel i reps forward d interval target :
  invalid interval ->
  exists o, repeat_interval (S fuel) i reps forward d interval target = Some o.
Proof.
  intros [Hst Hen]. simpl. destruct (num_ltb _ _); [rewrite Hst|]; eauto.
Qed.

Lemma repeat_interval_returns reps forward d target :
  (forall st en, nonempty (next forward d st en)) ->
  forall n i interval st en,
  i_start interval = Some st -> i_end interval = Some en ->
  0 <= distance forward st en target < Z.of_nat n ->
  exists o, repeat_interval (S n) i reps forward d interval target = Some o.
Proof.
  intros Hne. induction n as [|n IH]; intros i interval st en Hst Hen Hd; [lia|].
  remember (S n) as m. simpl. destruct (num_ltb _ _); [|eauto]. rewrite Hst, Hen.
  destruct (contains luxon (next forward d st en) target) eqn:Hc; [eauto|]. subst m.
  destruct (next_valid forward d st en) as [Hinv|[(st' & en' & Hst' & Hen' & Hle) Hnext]].
  { by apply repeat_interval_invalid. }
  apply (IH _ _ st' en' Hst' Hen'). specialize (Hne st en st' en' Hst' Hen').
  assert (~ st' <= target < en') as Hout.
  { intros Hin. apply not_true_iff_false in Hc. apply Hc. apply (contains_bounds laws). eauto. }
  assert (if forward then st' = en else en' = st) as Heq by (destruct forward; congruence).
  unfold distance in *. destruct forward; lia.
Qed.

(** C40. Finding a period ends: when the periods that follow the first one are not
    empty, there is an amount of fuel with which [getInterval] returns or throws. *)
Theorem getInterval_returns s target :
  (forall part0 part1 part2 first, split_slash s = [part0; part1; part2] ->
     Interval_fromISO luxon (part1 +:+ "/" +:+ part2) = Some first ->
     forall st en, nonempty (next (direction part1 part2 first).1
                               (direction part1 part2 first).2 st en)) ->
  exists fuel o, getInterval fuel s target = Some o.
Proof.
  intros Hne. unfold getInterval.
  destruct (split_slash s) as [|part0 [|part1 [|part2 [|]]]] eqn:Hs; try (by exists 0%nat; eauto).
  specialize (Hne part0 part1 part2).
  destruct (repetitions part0) as [reps|]; [|by exists 0%nat; eauto].
  destruct (Interval_fromISO luxon _) as [first|] eqn:Hfirst;
    [|by exists 0%nat; destruct reps; eauto].
  specialize (Hne first eq_refl eq_refl). destruct (fromISO_valid laws _ _ Hfirst) as
    (st & en & Hst & Hen & Hle).
  destruct (direction part1 part2 first) as [forward d]; cbn [fst snd] in Hne.
  destruct (contains luxon first target) eqn:Hc; [by exists 0%nat; destruct reps; eauto|].
  destruct (forward && isAfter luxon first target) eqn:Hafter; [by exists 0%nat; destruct reps; eauto|].
  destruct (negb forward && isBefore luxon first target) eqn:Hbefore;
    [by exists 0%nat; destruct reps; eauto|].
  assert (0 <= distance forward st en target) as Hdist.
  { apply not_true_iff_false in Hc. rewrite (contains_bounds laws) in Hc.
    destruct forward; simpl in *.
    - apply not_true_iff_false in Hafter. rewrite (isAfter_bounds laws) in Hafter.
      assert (~ target < st) by naive_solver. assert (~ (st <= target < en)) by naive_solver. lia.
    - apply not_true_iff_false in Hbefore. rewrite (isBefore_bounds laws) in Hbefore.
      assert (~ en <= target) by naive_solver. assert (~ (st <= target < en)) by naive_solver. lia. }
  destruct (repeat_interval_returns reps forward d target Hne
    (S (Z.to_nat (distance forward st en target))) 1 first st en Hst Hen) as [o Ho]; [lia|].
  eexists. rewrite Ho. destruct reps; eauto.
Qed.
End GetInterval.

(** ** Witnesses: dates are digits, durations are tens *)

Module Example.
(** [0/P10] is the period from 0 to 10, [0/P0] an empty one. *)
Definition luxon : Luxon :=
  {| Duration := Z; Number s := if bool_decide (s = "3"%string) then of_bigint 3 else S754_nan;
     Interval_fromISO s :=
       if bool_decide (s = "0/P10"%string) then Some {| i_start := Some 0; i_end := Some 10 |}
       else if bool_decide (s = "0/P0"%string) then Some {| i_start := Some 0; i_end := Some 0 |}
       else None;
     Duration_fromISO s := if bool_decide (s = "P10"%string) then 10 else 0;
     toDuration i := match i_start i, i_end i with Some st, Some en => en - st | _, _ => 0 end;
     after st d := if 0 <=? d then {| i_start := Some st; i_end := Some (st + d) |}
                   else {| i_start := None; i_end := None |};
     before en d := if 0 <=? d then {| i_start := Some (en - d); i_end := Some en |}
                    else {| i_start := None; i_end := None |};
     contains i t := match i_start i, i_end i with
                     | Some st, Some en => (st <=? t) && (t <? en) | _, _ => false end;
     isAfter i t := match i_start i with Some st => t <? st | None => false end;
     isBefore i t := match i_end i with Some en => en <=? t | None => false end |}.

Lemma laws : LuxonLaws luxon.
Proof.
  split; simpl.
  - intros [[st|] [en|]] t; simpl; try (split; [done|naive_solver]).
    rewrite andb_true_iff, Z.leb_le, Z.ltb_lt. naive_solver.
  - intros s i. unfold valid. repeat case_bool_decide; intros; simplify_eq/=; naive_solver lia.
  - intros st d. unfold valid, invalid. destruct (Z.leb_spec 0 d); simpl; [right|by left].
    split; [|done]. exists st, (st + d). split_and!; [done..|lia].
  - intros en d. unfold valid, invalid. destruct (Z.leb_spec 0 d); simpl; [right|by left].
    split; [|done]. exists (en - d), en. split_and!; [done..|lia].
  - intros [[st|] o] t; simpl; [|naive_solver]. rewrite Z.ltb_lt. naive_solver.
  - intros [o [en|]] t; simpl; [|naive_solver]. rewrite Z.leb_le. naive_solver.
Qed.

(** The third period of three, and none after it. *)
Lemma third_period :
  getInterval luxon 10 "R3/0/P10" 35 = Some (Ret (Some {| i_start := Some 30; i_end := Some 40 |})) /\
  getInterval luxon 10 "R3/0/P10" 45 = Some (Ret None).
Proof. by vm_compute. Qed.

(** An infinitely repeating interval with a duration of zero never holds a later
    date, and nothing ends the loop: not in ten thousand rounds. *)
Lemma empty_period_loops : getInterval luxon 10000 "R/0/P0" 5 = None.
Proof. by vm_compute. Qed.
End Example.

Lemma getInterval_stable_witness :
  {| i_start := Some 30; i_end := Some 40 |} = {| i_start := Some 30; i_end := Some 40 |} /\
  getInterval Example.luxon 10 "R3/0/P10" 35
  = Some (Ret (Some {| i_start := Some 30; i_end := Some 40 |})).
Proof.
  split; [|by vm_compute].
  exact (getInterval_stable Example.luxon Example.laws 10 20 "R3/0/P10" 35 39 _ _
    ltac:(by vm_compute) ltac:(by vm_compute) ltac:(by vm_compute)).
Defined.

Lemma getInterval_returns_witness :
  exists fuel o, getInterval Example.luxon fuel "R3/0/P10" 1000 = Some o.
Proof.
  apply (getInterval_returns Example.luxon Example.laws "R3/0/P10" 1000).
  intros p0 p1 p2 first Hs Hfirst. vm_compute in Hs. injection Hs as <- <- <-.
  intros st en a b Ha Hb. vm_compute in Hfirst. simplify_eq.
  cbv -[Z.add Z.lt] in Ha, Hb. simplify_eq. lia.
Defined.
