(* ===== verification/OutgoingPayment.v ===== *)
(** * OutgoingPayment: outgoing payments and their grants

    Models [open_payments/payment/outgoing/model.ts], [errors.ts], [service.ts] and
    [sendWebhookEvent] of [lifecycle.ts]; the rest of the lifecycle and the worker
    are in [OutgoingWorker].  The state is the tables of payments, grants and
    webhook events over the state [X] of the other services.

    A payment row carries its quote: [outgoingPayments.id] references the quote of
    the same id and quotes are never updated.  Patching an instance updates both
    its row and the instance, sets [updatedAt], and resets [stateAttempts] when it
    sets [state] ([$beforeUpdate]). *)

From S2P Require Import Prelude Shared JsNumber Service OpenPayments PaymentMethod Accounting.
From S2P Require Pagination Fee Quote Webhook Limits.
Import Limits (Interval, i_start, i_end).
Import Quote (Quote, set_related, set_fee, q_id, q_walletAddressId, q_feeId, q_assetId,
  q_asset, q_receiver, q_expiresAt, QuoteErrorValue, CreateQuoteOptions, of_option).
Import Webhook (HasWebhooks, WebhookDb, WebhookConfig, insertGraph, finalizeWebhookRecipients).

Local Open Scope Z_scope.
Local Open Scope ts_scope.

(** ** Errors *)

Module OutgoingPaymentError.
Inductive t :=
| UnknownWalletAddress
| UnknownPayment
| UnknownQuote
| WrongState
| InvalidQuote
| InsufficientGrant
| InactiveWalletAddress
| InvalidAmount
| NegativeReceiveAmount
| InvalidReceiver
| OnlyOneGrantAmountAllowed.

(** The values of the string enum, which are thrown. *)
Definition value (e : t) : string :=
  match e with
  | UnknownWalletAddress => "UnknownWalletAddress"
  | UnknownPayment => "UnknownPayment"
  | UnknownQuote => "UnknownQuote"
  | WrongState => "WrongState"
  | InvalidQuote => "InvalidQuote"
  | InsufficientGrant => "InsufficientGrant"
  | InactiveWalletAddress => "InactiveWalletAddress"
  | InvalidAmount => "InvalidAmount"
  | NegativeReceiveAmount => "NegativeReceiveAmount"
  | InvalidReceiver => "InvalidReceiver"
  | OnlyOneGrantAmountAllowed => "OnlyOneGrantAmountAllowed"
  end.

Definition all : list t :=
  [UnknownWalletAddress; UnknownPayment; UnknownQuote; WrongState; InvalidQuote;
   InsufficientGrant; InactiveWalletAddress; InvalidAmount; NegativeReceiveAmount;
   InvalidReceiver; OnlyOneGrantAmountAllowed].

(** [isOutgoingPaymentError] *)
Definition of_value (s : string) : option t :=
  List.find (fun e => bool_decide (value e = s)) all.
End OutgoingPaymentError.

Definition quoteErrorToOutgoingPaymentError (e : QuoteErrorCode.t) : OutgoingPaymentError.t :=
  match e with
  | QuoteErrorCode.UnknownWalletAddress => OutgoingPaymentError.UnknownWalletAddress
  | QuoteErrorCode.InvalidAmount => OutgoingPaymentError.InvalidAmount
  | QuoteErrorCode.InvalidReceiver => OutgoingPaymentError.InvalidReceiver
  | QuoteErrorCode.InactiveWalletAddress => OutgoingPaymentError.InactiveWalletAddress
  | QuoteErrorCode.NonPositiveReceiveAmount => OutgoingPaymentError.NegativeReceiveAmount
  end.

(** [OutgoingPaymentError | TransferError] *)
Inductive FundingError :=
| PaymentFundingError (e : OutgoingPaymentError.t)
| TransferFundingError (e : TransferError).

Module LifecycleError.
Inductive t :=
| RatesUnavailable
| BadState
| SourceAssetConflict
| DestinationAssetConflict
| MissingBalance
| MissingQuote
| MissingExpiration
| Unauthorized
| QuoteExpired.

Definition value (e : t) : string :=
  match e with
  | RatesUnavailable => "RatesUnavailable"
  | BadState => "BadState"
  | SourceAssetConflict => "SourceAssetConflict"
  | DestinationAssetConflict => "DestinationAssetConflict"
  | MissingBalance => "MissingBalance"
  | MissingQuote => "MissingQuote"
  | MissingExpiration => "MissingExpiration"
  | Unauthorized => "Unauthorized"
  | QuoteExpired => "QuoteExpired"
  end.
End LifecycleError.

Definition throw_payment {S A} (e : OutgoingPaymentError.t) : M S A :=
  throw (ThrownString (OutgoingPaymentError.value e)).
Definition throw_lifecycle {S A} (e : LifecycleError.t) : M S A :=
  throw (ThrownString (LifecycleError.value e)).

(** Reading a property of something undefined. *)
Definition TypeError : exn := JsError "TypeError" "".

(** ** Data *)

Inductive OutgoingPaymentState := Funding | Sending | Failed | Completed | Cancelled.

#[global] Instance OutgoingPaymentState_eq_dec : EqDecision OutgoingPaymentState.
Proof. solve_decision. Defined.

Inductive OutgoingPaymentInitiationReason := Card | OpenPayments | Admin.

Inductive OutgoingPaymentEventType :=
| PaymentCreated | PaymentFailed | PaymentCompleted | PaymentFunded | PaymentCancelled.

#[global] Instance OutgoingPaymentEventType_eq_dec : EqDecision OutgoingPaymentEventType.
Proof. solve_decision. Defined.

Definition OutgoingPaymentEventType_value (t : OutgoingPaymentEventType) : string :=
  match t with
  | PaymentCreated => "outgoing_payment.created"
  | PaymentFailed => "outgoing_payment.failed"
  | PaymentCompleted => "outgoing_payment.completed"
  | PaymentFunded => "outgoing_payment.funded"
  | PaymentCancelled => "outgoing_payment.cancelled"
  end.

Record CardDetails := { requestId : string; card_data : Json; initiatedAt : Z }.

Record OutgoingPayment := {
  id : string;
  tenantId : string;
  walletAddressId : string;
  walletAddress : option WalletAddress;
  client : option string;
  metadata : option (gmap string Json);
  state : OutgoingPaymentState;
  error : option string;
  stateAttempts : Z;
  grantId : option string;
  initiatedBy : OutgoingPaymentInitiationReason;
  quote : Quote;
  cardDetails : option CardDetails;
  dataToTransmit : option string;
  sentAmountValue : option Z;
  grantSpentDebitAmountValue : option Z;
  grantSpentReceiveAmountValue : option Z;
  createdAt : Z;
  updatedAt : Z
}.

#[global] Instance OutgoingPayment_model : Pagination.BaseModel OutgoingPayment :=
  { Pagination.id := id; Pagination.createdAt := createdAt }.

Definition receiver (p : OutgoingPayment) : string := q_receiver (quote p).
Definition assetId (p : OutgoingPayment) : string := q_assetId (quote p).
Definition asset (p : OutgoingPayment) : option Asset := q_asset (quote p).
Definition debitAmount (p : OutgoingPayment) : option Amount := Quote.debitAmount (quote p).
Definition receiveAmount (p : OutgoingPayment) : Amount := Quote.receiveAmount (quote p).

Definition failed (p : OutgoingPayment) : bool :=
  match state p with Cancelled | Failed => true | _ => false end.

(** Updates of a payment's fields. *)
Definition set_state (st : OutgoingPaymentState) (p : OutgoingPayment) : OutgoingPayment :=
  {| id := id p; tenantId := tenantId p; walletAddressId := walletAddressId p;
     walletAddress := walletAddress p; client := client p; metadata := metadata p; state := st;
     error := error p; stateAttempts := 0; grantId := grantId p; initiatedBy := initiatedBy p;
     quote := quote p; cardDetails := cardDetails p; dataToTransmit := dataToTransmit p;
     sentAmountValue := sentAmountValue p;
     grantSpentDebitAmountValue := grantSpentDebitAmountValue p;
     grantSpentReceiveAmountValue := grantSpentReceiveAmountValue p;
     createdAt := createdAt p; updatedAt := updatedAt p |}.

Definition set_stateAttempts (n : Z) (p : OutgoingPayment) : OutgoingPayment :=
  {| id := id p; tenantId := tenantId p; walletAddressId := walletAddressId p;
     walletAddress := walletAddress p; client := client p; metadata := metadata p;
     state := state p;
     error := error p; stateAttempts := n; grantId := grantId p; initiatedBy := initiatedBy p;
     quote := quote p; cardDetails := cardDetails p; dataToTransmit := dataToTransmit p;
     sentAmountValue := sentAmountValue p;
     grantSpentDebitAmountValue := grantSpentDebitAmountValue p;
     grantSpentReceiveAmountValue := grantSpentReceiveAmountValue p;
     createdAt := createdAt p; updatedAt := updatedAt p |}.

(** [error], [metadata] and [dataToTransmit] that a patch may set. *)
Definition set_columns (err : option string) (md : option (gmap string Json))
    (dataToSend : option string) (p : OutgoingPayment) : OutgoingPayment :=
  {| id := id p; tenantId := tenantId p; walletAddressId := walletAddressId p;
     walletAddress := walletAddress p; client := client p; metadata := md; state := state p;
     error := err; stateAttempts := stateAttempts p; grantId := grantId p;
     initiatedBy := initiatedBy p;
     quote := quote p; cardDetails := cardDetails p; dataToTransmit := dataToSend;
     sentAmountValue := sentAmountValue p;
     grantSpentDebitAmountValue := grantSpentDebitAmountValue p;
     grantSpentReceiveAmountValue := grantSpentReceiveAmountValue p;
     createdAt := createdAt p; updatedAt := updatedAt p |}.

Definition touch (now : Z) (p : OutgoingPayment) : OutgoingPayment :=
  {| id := id p; tenantId := tenantId p; walletAddressId := walletAddressId p;
     walletAddress := walletAddress p; client := client p; metadata := metadata p;
     state := state p; error := error p; stateAttempts := stateAttempts p;
     grantId := grantId p; initiatedBy := initiatedBy p;
     quote := quote p; cardDetails := cardDetails p; dataToTransmit := dataToTransmit p;
     sentAmountValue := sentAmountValue p;
     grantSpentDebitAmountValue := grantSpentDebitAmountValue p;
     grantSpentReceiveAmountValue := grantSpentReceiveAmountValue p;
     createdAt := createdAt p; updatedAt := now |}.

(** What is attached to an instance and not stored. *)
Definition attach (w : option WalletAddress) (q : Quote) (card : option CardDetails)
    (p : OutgoingPayment) : OutgoingPayment :=
  {| id := id p; tenantId := tenantId p; walletAddressId := walletAddressId p;
     walletAddress := w; client := client p; metadata := metadata p;
     state := state p; error := error p; stateAttempts := stateAttempts p;
     grantId := grantId p; initiatedBy := initiatedBy p;
     quote := q; cardDetails := card; dataToTransmit := dataToTransmit p;
     sentAmountValue := sentAmountValue p;
     grantSpentDebitAmountValue := grantSpentDebitAmountValue p;
     grantSpentReceiveAmountValue := grantSpentReceiveAmountValue p;
     createdAt := createdAt p; updatedAt := updatedAt p |}.

Definition set_amounts (sent spentDebit spentReceive : option Z) (p : OutgoingPayment)
    : OutgoingPayment :=
  {| id := id p; tenantId := tenantId p; walletAddressId := walletAddressId p;
     walletAddress := walletAddress p; client := client p; metadata := metadata p;
     state := state p; error := error p; stateAttempts := stateAttempts p;
     grantId := grantId p; initiatedBy := initiatedBy p;
     quote := quote p; cardDetails := cardDetails p; dataToTransmit := dataToTransmit p;
     sentAmountValue := sent;
     grantSpentDebitAmountValue := spentDebit;
     grantSpentReceiveAmountValue := spentReceive;
     createdAt := createdAt p; updatedAt := updatedAt p |}.

(** [payment.quote.asset = asset], when there is one. *)
Definition with_asset (a : option Asset) (p : OutgoingPayment) : OutgoingPayment :=
  match a with
  | Some a => attach (walletAddress p)
                (set_related (Some a) (Quote.q_walletAddress (quote p)) (quote p))
                (cardDetails p) p
  | None => p
  end.

Definition with_walletAddress (w : option WalletAddress) (p : OutgoingPayment) : OutgoingPayment :=
  attach w (quote p) (cardDetails p) p.

(** The data of a webhook event, [toData]; amounts are kept as numbers. *)
Record PaymentData := {
  pd_id : string;
  pd_walletAddressId : string;
  pd_client : option string;
  pd_state : OutgoingPaymentState;
  pd_receiver : string;
  pd_debitAmount : Amount;
  pd_receiveAmount : Amount;
  pd_sentAmount : Amount;
  pd_stateAttempts : Z;
  pd_createdAt : Z;
  pd_balance : Z;
  pd_metadata : option (gmap string Json);
  pd_error : option string;
  pd_grantId : option string;
  pd_cardDetails : option CardDetails
}.

Definition toData (amountSent balance : Z) (debit : Amount) (p : OutgoingPayment) : PaymentData :=
  {| pd_id := id p; pd_walletAddressId := walletAddressId p; pd_client := client p;
     pd_state := state p; pd_receiver := receiver p; pd_debitAmount := debit;
     pd_receiveAmount := receiveAmount p;
     pd_sentAmount := {| value := amountSent; assetCode := assetCode debit;
                         assetScale := assetScale debit |};
     pd_stateAttempts := stateAttempts p; pd_createdAt := createdAt p; pd_balance := balance;
     pd_metadata := metadata p; pd_error := if truthy (error p) then error p else None;
     pd_grantId := if truthy (grantId p) then grantId p else None;
     pd_cardDetails := cardDetails p |}.

Record OutgoingDb := {
  payments : list OutgoingPayment;
  outgoingPaymentGrants : list string;
  outgoingWebhooks : WebhookDb PaymentData
}.

Definition set_payments (l : list OutgoingPayment) (d : OutgoingDb) : OutgoingDb :=
  {| payments := l; outgoingPaymentGrants := outgoingPaymentGrants d;
     outgoingWebhooks := outgoingWebhooks d |}.
Definition set_grants (l : list string) (d : OutgoingDb) : OutgoingDb :=
  {| payments := payments d; outgoingPaymentGrants := l;
     outgoingWebhooks := outgoingWebhooks d |}.

#[global] Instance OutgoingDb_webhooks : HasWebhooks PaymentData OutgoingDb := {
  Webhook.webhookDb := outgoingWebhooks;
  Webhook.set_webhookDb w d :=
    {| payments := payments d; outgoingPaymentGrants := outgoingPaymentGrants d;
       outgoingWebhooks := w |}
}.

(** ** The services it depends on *)

Record Limits := {
  l_receiver : option string;
  l_debitAmount : option Amount;
  l_receiveAmount : option Amount;
  l_interval : option string
}.

Record Grant := { grant_id : string; limits : option Limits }.

Record OutgoingDeps (X : Type) := {
  maxOutgoingPaymentRetryAttempts : Z;
  webhookConfig : WebhookConfig;
  (** [encryptDbData] with the secret of the configuration, if there is one. *)
  encryptDbData : option (string -> string);
  accountingService : AccountingService X;
  receiver_get : string -> M X (option Receiver);
  paymentMethodHandlerService : PaymentMethodHandlerService X OutgoingPayment;
  walletAddress_get : string -> option string -> M X (option WalletAddress);
  quote_create : CreateQuoteOptions -> M X (res QuoteErrorValue Quote);
  quote_get : GetOptions -> M X (option Quote);
  asset_get : string -> M X (option Asset);
  fee_get : string -> M X (option Fee.Fee);
  (** The liquidity account of an asset ([asset.asset]), with its callback. *)
  asset_account : Asset -> LiquidityAccountAsset X;
  (** [getInterval] of [limits.ts], modelled in [Limits] up to its termination. *)
  getInterval : string -> Z -> outcome (option Interval)
}.
Arguments maxOutgoingPaymentRetryAttempts {X}. Arguments webhookConfig {X}.
Arguments encryptDbData {X}. Arguments accountingService {X}. Arguments receiver_get {X}.
Arguments paymentMethodHandlerService {X}. Arguments walletAddress_get {X}.
Arguments quote_create {X}. Arguments quote_get {X}. Arguments asset_get {X}.
Arguments fee_get {X}. Arguments asset_account {X}. Arguments getInterval {X}.

Section OutgoingPaymentService.
Context {X : Type} `{Uuid}.
Context (deps : OutgoingDeps X).

Definition OutgoingState : Type := Svc OutgoingDb X.

(** [payment.$query(trx).patch(...)]: the row, and the instance. *)
Definition patch (f : OutgoingPayment -> OutgoingPayment) (p : OutgoingPayment)
  : M OutgoingState OutgoingPayment :=
  let! now := date_now in
  db_set (fun d => set_payments
    (update_where (fun p' => bool_decide (id p' = id p)) (fun p' => touch now (f p'))
       (payments d)) d) ;;!
  ret (touch now (f p)).

(** ** [sendWebhookEvent] of [lifecycle.ts] *)

Definition eventRecipients (type : OutgoingPaymentEventType) (p : OutgoingPayment)
    : list Webhook.Recipient :=
  let notifyCardOnly := match type with PaymentFunded | PaymentCancelled => true | _ => false end in
  finalizeWebhookRecipients
    {| Webhook.tenantIds := [tenantId p]; Webhook.o_sendToPosService := false;
       Webhook.o_sendToCardService := notifyCardOnly;
       Webhook.omitTenantRecipients := notifyCardOnly |} (webhookConfig deps).

Definition paymentEvent (type : OutgoingPaymentEventType) (p : OutgoingPayment)
    (data : PaymentData) (balance : Z) (eventId : string) (now : Z)
    : Webhook.WebhookEvent PaymentData :=
  {| Webhook.ev_id := eventId; Webhook.ev_type := OutgoingPaymentEventType_value type;
     Webhook.ev_data := data; Webhook.ev_tenantId := tenantId p;
     Webhook.outgoingPaymentId := Some (id p); Webhook.incomingPaymentId := None;
     Webhook.walletAddressId := None; Webhook.ev_assetId := None; Webhook.peerId := None;
     Webhook.withdrawal :=
       if truthy balance
       then Some {| Webhook.accountId := id p; Webhook.assetId := assetId p;
                    Webhook.w_amount := balance |}
       else None;
     Webhook.ev_createdAt := now |}.

(** [OutgoingPaymentEvent.query(trx).insertGraph({ ... })] *)
Definition insertPaymentEvent (p : OutgoingPayment) (type : OutgoingPaymentEventType)
    (amountSent balance : Z) : M OutgoingState unit :=
  let! debit := of_option (debitAmount p) TypeError in
  insertGraph (paymentEvent type p (toData amountSent balance debit p) balance)
    (eventRecipients type p).

Definition sendWebhookEvent (p : OutgoingPayment) (type : OutgoingPaymentEventType)
  : M OutgoingState unit :=
  let isZeroAmountSent := match state p with Funding | Cancelled => true | _ => false end in
  let! amountSent :=
    if isZeroAmountSent then ret (Some 0) else lift (getTotalSent (accountingService deps) (id p)) in
  let! balance :=
    if isZeroAmountSent then ret (Some 0) else lift (getBalance (accountingService deps) (id p)) in
  match amountSent, balance with
  | Some amountSent, Some balance => insertPaymentEvent p type amountSent balance
  | _, _ => throw_lifecycle LifecycleError.MissingBalance
  end.

(** ** Reading payments *)

Definition sent_error : string :=
  "Could not get amount sent for payment. There was a problem getting the associated liquidity account.".

Definition validateSentAmount (p : OutgoingPayment) (sentAmount : option Z) : M OutgoingState Z :=
  match sentAmount with
  | Some sentAmount => ret sentAmount
  | None =>
      match state p with
      | Funding | Cancelled => ret 0
      | _ => throw_error sent_error
      end
  end.

(** [payment.sentAmount = { value, assetCode: payment.asset.code, ... }] *)
Definition with_sentAmount (v : Z) (p : OutgoingPayment) : M OutgoingState OutgoingPayment :=
  let! _a := of_option (asset p) TypeError in
  ret (set_amounts (Some v) (grantSpentDebitAmountValue p) (grantSpentReceiveAmountValue p) p).

Definition addSentAmount (p : OutgoingPayment) (value : option Z)
  : M OutgoingState OutgoingPayment :=
  let! sentAmount := match value with
                     | Some v => ret (Some v)
                     | None => lift (getTotalSent (accountingService deps) (id p))
                     end in
  let! v := validateSentAmount p sentAmount in
  with_sentAmount v p.

(** A row with its quote and, if asked for, its card details; nothing else. *)
Definition fetched (card : bool) (p : OutgoingPayment) : OutgoingPayment :=
  set_amounts None None None
    (attach None (quote p) (if card then cardDetails p else None) p).

Definition fetch_asset (p : OutgoingPayment) : M OutgoingState OutgoingPayment :=
  let! a := lift (asset_get deps (assetId p)) in ret (with_asset a p).

(** The wallet address, the quote's wallet address and the asset. *)
Definition fetch_related (p : OutgoingPayment) : M OutgoingState OutgoingPayment :=
  let! w := lift (walletAddress_get deps (walletAddressId p) (Some (tenantId p))) in
  let! qw := lift (walletAddress_get deps (q_walletAddressId (quote p)) None) in
  let p := attach w (set_related (q_asset (quote p)) qw (quote p)) (cardDetails p) p in
  fetch_asset p.

Definition getOutgoingPayment (options : GetOptions) : M OutgoingState (option OutgoingPayment) :=
  let! row := db_get (fun d => find_where (fun p =>
    when_given (go_tenantId options) (Some (tenantId p))
    && subresource_get options (id p) (walletAddressId p) (client p)) (payments d)) in
  match row with
  | Some row =>
      let! p := fetch_related (fetched false row) in
      let! p := addSentAmount p None in
      ret (Some p)
  | None => ret None
  end.

Fixpoint with_sentAmounts (page : list OutgoingPayment) (amounts : list (option Z))
    : M OutgoingState (list OutgoingPayment) :=
  match page with
  | [] => ret []
  | p :: page =>
      let! v := validateSentAmount p (mjoin (head amounts)) in
      let! p := with_sentAmount v p in
      let! page := with_sentAmounts page (tail amounts) in
      ret (p :: page)
  end.

(** What both listings do with the rows of a page. *)
Definition finish_page (related : OutgoingPayment -> M OutgoingState OutgoingPayment)
    (page : outcome (list OutgoingPayment)) : M OutgoingState (list OutgoingPayment) :=
  match page with
  | Throw e => throw e
  | Ret page =>
      let! page := mapM (fun p => related (fetched false p)) page in
      let! amounts := lift (getAccountsTotalSent (accountingService deps) (id <$> page)) in
      with_sentAmounts page amounts
  end.

Definition getWalletAddressPage (options : ListOptions) : M OutgoingState (list OutgoingPayment) :=
  let! table := db_get payments in
  finish_page fetch_related
    (subresource_list table (fun p => when_given (lo_tenantId options) (Some (tenantId p)))
       walletAddressId client options).

Record GetPageOptions := {
  pagination : option Pagination.Pagination;
  filter_receiver : option Webhook.FilterString;
  filter_walletAddressId : option Webhook.FilterString;
  filter_state : option Webhook.FilterString;
  sortOrder : option Pagination.SortOrder;
  gp_tenantId : option string
}.

Definition OutgoingPaymentState_value (st : OutgoingPaymentState) : string :=
  match st with
  | Funding => "FUNDING"
  | Sending => "SENDING"
  | Failed => "FAILED"
  | Completed => "COMPLETED"
  | Cancelled => "CANCELLED"
  end.

Definition getOutgoingPaymentsPage (options : GetPageOptions)
  : M OutgoingState (list OutgoingPayment) :=
  let! table := db_get payments in
  finish_page
    (fun p => let! w := lift (walletAddress_get deps (walletAddressId p) None) in
              fetch_asset (with_walletAddress w p))
    (Pagination.getPage table
       (fun p => when_given (gp_tenantId options) (Some (tenantId p))
                 && Webhook.filter_in (filter_receiver options) (receiver p)
                 && Webhook.filter_in (filter_walletAddressId options) (walletAddressId p)
                 && Webhook.filter_in (filter_state options) (OutgoingPaymentState_value (state p)))
       (pagination options) (default Pagination.Desc (sortOrder options))).

(** ** Cancelling *)

Record CancelOutgoingPaymentOptions := {
  c_id : string;
  c_tenantId : string;
  c_reason : option string;
  c_cardPaymentFailureReason : option string
}.

Definition find_payment (pid tenant : string) : M OutgoingState (option OutgoingPayment) :=
  db_get (fun d => find_where
    (fun p => bool_decide (id p = pid) && bool_decide (tenantId p = tenant)) (payments d)).

(** [{ ...metadata, ...(v ? { [key]: v } : {}) }] *)
Definition with_key (key : string) (v : option string) (md : gmap string Json) : gmap string Json :=
  match v with
  | Some v => if truthy v then <[key := JsonString v]> md else md
  | None => md
  end.

Definition cancel_metadata (options : CancelOutgoingPaymentOptions)
    (md : option (gmap string Json)) : gmap string Json :=
  with_key "cardPaymentFailureReason" (c_cardPaymentFailureReason options)
    (with_key "cancellationReason" (c_reason options) (default ∅ md)).

Definition cancelOutgoingPayment (options : CancelOutgoingPaymentOptions)
  : M OutgoingState (res OutgoingPaymentError.t OutgoingPayment) :=
  transaction
    (let! row := find_payment (c_id options) (c_tenantId options) in
     match row with
     | None => ret (Err OutgoingPaymentError.UnknownPayment)
     | Some row =>
         match state row with
         | Funding =>
             let! p := patch (fun p => set_state Cancelled
               (set_columns (error p) (Some (cancel_metadata options (metadata row)))
                  (dataToTransmit p) p)) (fetched true row) in
             let! p := fetch_asset p in
             let! w := lift (walletAddress_get deps (walletAddressId p) None) in
             let p := with_walletAddress w p in
             match initiatedBy p with
             | Card => sendWebhookEvent p PaymentCancelled
             | _ => ret tt
             end ;;!
             let! p := addSentAmount p None in
             ret (Ok p)
         | _ => ret (Err OutgoingPaymentError.WrongState)
         end
     end).

(** ** Funding *)

Record FundOutgoingPaymentOptions := {
  f_id : string;
  f_tenantId : string;
  f_amount : Z;
  transferId : string;
  f_dataToTransmit : option string
}.

(** The liquidity account of a payment. *)
Definition payment_account (pid : string) (a : Asset) : LiquidityAccount X :=
  {| account_id := pid; account_asset := asset_account deps a;
     account_onCredit := None; account_onDebit := None |}.

Definition stored_data (data : option string) : option string :=
  match encryptDbData deps with
  | Some encrypt => if truthy data then encrypt <$> data else data
  | None => data
  end.

(** [createLiquidityAccount], not complaining about an account that exists. *)
Definition ensure_account (account : LiquidityAccount X) (t : LiquidityAccountType)
  : M OutgoingState unit :=
  try_catch
    (lift (createLiquidityAccount (accountingService deps) account t) ;;! ret tt)
    (fun err => if isAccountAlreadyExistsError err then ret tt else throw err).

Definition fundPayment (options : FundOutgoingPaymentOptions)
  : M OutgoingState (res FundingError OutgoingPayment) :=
  transaction
    (let! row := find_payment (f_id options) (f_tenantId options) in
     match row with
     | None => ret (Err (PaymentFundingError OutgoingPaymentError.UnknownPayment))
     | Some row =>
         let! p := fetch_asset (fetched true row) in
         match state p with
         | Funding =>
             let! debit := of_option (debitAmount p) TypeError in
             if negb (f_amount options =? value debit)
             then ret (Err (PaymentFundingError OutgoingPaymentError.InvalidAmount))
             else
             let! a := of_option (asset p) TypeError in
             ensure_account (payment_account (f_id options) a) OUTGOING ;;!
             let! error := lift (createDeposit (accountingService deps)
               {| deposit_id := transferId options; deposit_account := payment_account (id p) a;
                  deposit_amount := f_amount options |}) in
             match error with
             | Some error => ret (Err (TransferFundingError error))
             | None =>
                 let! p := patch (fun p => set_state Sending
                   (set_columns (OutgoingPayment.error p) (metadata p)
                      (match stored_data (f_dataToTransmit options) with
                       | Some data => Some data
                       | None => dataToTransmit p
                       end) p)) p in
                 match initiatedBy p with
                 | Card => sendWebhookEvent p PaymentFunded
                 | _ => ret tt
                 end ;;!
                 let! p := addSentAmount p None in
                 ret (Ok p)
             end
         | _ => ret (Err (PaymentFundingError OutgoingPaymentError.WrongState))
         end
     end).

(** ** Grants *)

Record PaymentLimits := { pl_limits : Limits; paymentInterval : option Interval }.

Definition validateAmountAssets (p : OutgoingPayment) (l : Limits) : M OutgoingState bool :=
  if is_some (l_debitAmount l) && is_some (l_receiveAmount l)
  then throw_payment OutgoingPaymentError.OnlyOneGrantAmountAllowed
  else
  let receive_ok := match l_receiveAmount l with
                    | Some r => bool_decide (assetCode r = assetCode (receiveAmount p))
                                && (assetScale r =? assetScale (receiveAmount p))
                    | None => true
                    end in
  match l_debitAmount l with
  | Some d =>
      let! a := of_option (asset p) TypeError in
      if negb (bool_decide (assetCode d = a_code a)) || negb (assetScale d =? a_scale a)
      then ret false else ret receive_ok
  | None => ret receive_ok
  end.

Definition validateAccessLimits (p : OutgoingPayment) (l : Limits)
  : M OutgoingState (option PaymentLimits) :=
  if negb (truthy (l_receiver l)) || bool_decide (Some (receiver p) = l_receiver l) then
    let! assets_ok := validateAmountAssets p l in
    if assets_ok then
      match l_interval l with
      | Some interval =>
          if truthy interval then
            match getInterval deps interval (createdAt p) with
            | Throw e => throw e
            | Ret (Some i) => ret (Some {| pl_limits := l; paymentInterval := Some i |})
            | Ret None => ret None
            end
          else ret (Some {| pl_limits := l; paymentInterval := None |})
      | None => ret (Some {| pl_limits := l; paymentInterval := None |})
      end
    else ret None
  else ret None.

Definition validatePaymentInterval (l : PaymentLimits) (p : OutgoingPayment) : bool :=
  match paymentInterval l with
  | None => true
  | Some i =>
      match i_start i, i_end i with
      | Some st, Some en => (st <=? createdAt p) && (createdAt p <? en)
      | _, _ => false
      end
  end.

(** The limits of the grant, against what was spent and this payment. *)
Definition exceeds (l : Limits) (sent received debit receive : Z) : bool :=
  match l_debitAmount l with Some d => value d - sent <? debit | None => false end
  || match l_receiveAmount l with Some r => value r - received <? receive | None => false end.

(** What one earlier payment of the grant adds to the amounts sent and received. *)
Definition addSpent (l : PaymentLimits) (p : OutgoingPayment) (amounts : Z * Z)
    (grantPayment : OutgoingPayment) : M OutgoingState (Z * Z) :=
  let! grantPayment := fetch_asset grantPayment in
  let '(sent, received) := amounts in
  if validatePaymentInterval l grantPayment then
    if failed grantPayment then
      let! total := lift (getTotalSent (accountingService deps) (id grantPayment)) in
      let! totalSent := validateSentAmount p total in
      if totalSent =? 0 then ret (sent, received)
      else
      let! debit := of_option (debitAmount grantPayment) TypeError in
      if value debit =? 0 then throw (JsError "RangeError" "Division by zero")
      else ret (sent + totalSent,
                received + Z.quot (value (receiveAmount grantPayment) * totalSent) (value debit))
    else
      let! debit := of_option (debitAmount grantPayment) TypeError in
      ret (sent + value debit, received + value (receiveAmount grantPayment))
  else ret (sent, received).

Fixpoint addAllSpent (l : PaymentLimits) (p : OutgoingPayment) (amounts : Z * Z)
    (grantPayments : list OutgoingPayment) : M OutgoingState (Z * Z) :=
  match grantPayments with
  | [] => ret amounts
  | g :: gs => let! amounts := addSpent l p amounts g in addAllSpent l p amounts gs
  end.

Definition validateGrantAndAddSpentAmountsToPayment (p : OutgoingPayment) (grant : Grant)
  : M OutgoingState (bool * OutgoingPayment) :=
  match limits grant with
  | None => ret (true, p)
  | Some l =>
      let! paymentLimits := validateAccessLimits p l in
      match paymentLimits with
      | None => ret (false, p)
      | Some pl =>
          if negb (is_some (l_debitAmount l)) && negb (is_some (l_receiveAmount l))
          then ret (true, p)
          else
          let! debit := match l_debitAmount l with
                        | Some _ => let! d := of_option (debitAmount p) TypeError in ret (value d)
                        | None => ret 0
                        end in
          if exceeds l 0 0 debit (value (receiveAmount p)) then ret (false, p)
          else
          let! grantPayments := db_get (fun d => List.filter
            (fun g => bool_decide (grantId g = Some (grant_id grant))
                      && negb (bool_decide (id g = id p))) (payments d)) in
          match grantPayments with
          | [] => ret (true, p)
          | _ =>
              let! _a := of_option (asset p) TypeError in
              let! amounts := addAllSpent pl p (0, 0) (fetched false <$> grantPayments) in
              let '(sent, received) := amounts in
              ret (negb (exceeds l sent received debit (value (receiveAmount p))),
                   set_amounts (sentAmountValue p) (Some sent) (Some received) p)
          end
      end
  end.

(** ** Creating *)

Inductive CreateSource :=
| CreateFromQuote (quoteId : string)
| CreateFromIncomingPayment (incomingPayment : string) (debitAmount : option Amount)
| CreateFromCardPayment (incomingPayment : string) (debitAmount : option Amount)
    (cardDetails : CardDetails).

Record CreateOutgoingPaymentOptions := {
  o_tenantId : string;
  o_walletAddressId : string;
  o_client : option string;
  o_grant : option Grant;
  o_metadata : option (gmap string Json);
  o_source : CreateSource
}.

Definition source_card (src : CreateSource) : option CardDetails :=
  match src with CreateFromCardPayment _ _ card => Some card | _ => None end.

(** The quote of the payment: the given one, or a new one. *)
Definition quoteIdOf (options : CreateOutgoingPaymentOptions)
  : M OutgoingState (res OutgoingPaymentError.t string) :=
  let create incomingPayment debitAmount :=
    let! quoteOrError := lift (quote_create deps
      {| Quote.tenantId := o_tenantId options;
         Quote.walletAddressId := o_walletAddressId options;
         Quote.o_receiver := incomingPayment; Quote.o_client := None;
         Quote.o_debitAmount := debitAmount; Quote.o_receiveAmount := None |}) in
    ret (match quoteOrError with
         | Err e => Err (quoteErrorToOutgoingPaymentError (Quote.type e))
         | Ok q => Ok (q_id q)
         end) in
  match o_source options with
  | CreateFromQuote quoteId => ret (Ok quoteId)
  | CreateFromIncomingPayment ip d | CreateFromCardPayment ip d _ => create ip d
  end.

(** [OutgoingPaymentGrant.query(trx).insert({ id }).onConflict('id').ignore()] *)
Definition insertGrant (gid : string) : M OutgoingState unit :=
  db_set (fun d => if bool_decide (gid ∈ outgoingPaymentGrants d) then d
                   else set_grants (outgoingPaymentGrants d ++ [gid]) d).

(** [OutgoingPayment.query(trx).insertAndFetch], and the card details.  The row of
    the quote is stored without what is attached to it. *)
Definition insertPayment (options : CreateOutgoingPaymentOptions) (quoteId : string) (q : Quote)
  : M OutgoingState OutgoingPayment :=
  let! now := date_now in
  let! existing := db_get (fun d => find_where (fun p => bool_decide (id p = quoteId)) (payments d)) in
  match existing with
  | Some _ => throw (UniqueViolationError "outgoingPayments_pkey")
  | None =>
      let p := {| id := quoteId; tenantId := o_tenantId options;
                  walletAddressId := o_walletAddressId options; walletAddress := None;
                  client := o_client options; metadata := o_metadata options;
                  state := Funding; error := None; stateAttempts := 0;
                  grantId := grant_id <$> o_grant options;
                  initiatedBy := match o_source options with
                                 | CreateFromCardPayment _ _ _ => Card
                                 | _ => if is_some (o_grant options) then OpenPayments else Admin
                                 end;
                  quote := set_fee None (set_related None None q);
                  cardDetails := source_card (o_source options); dataToTransmit := None;
                  sentAmountValue := None; grantSpentDebitAmountValue := None;
                  grantSpentReceiveAmountValue := None; createdAt := now; updatedAt := now |} in
      db_set (fun d => set_payments (payments d ++ [p]) d) ;;! ret p
  end.

(** The transaction of [createOutgoingPayment]. *)
Definition createInTransaction (options : CreateOutgoingPaymentOptions) (quoteId : string)
    (w : WalletAddress) (q : Quote) (a : option Asset) : M OutgoingState OutgoingPayment :=
  transaction
    (match o_grant options with
     | Some g => if truthy (grant_id g) then insertGrant (grant_id g) else ret tt
     | None => ret tt
     end ;;!
     let! p := insertPayment options quoteId q in
     let p := with_asset a (attach (Some w) q (cardDetails p) p) in
     if negb (bool_decide (walletAddressId p = q_walletAddressId (quote p)))
        || (q_expiresAt (quote p) <=? createdAt p)
     then throw_payment OutgoingPaymentError.InvalidQuote
     else
     let! p := match o_grant options with
               | Some g =>
                   let! valid := validateGrantAndAddSpentAmountsToPayment p g in
                   let '(isValid, p) := valid in
                   if isValid then ret p
                   else throw_payment OutgoingPaymentError.InsufficientGrant
               | None => ret p
               end in
     sendWebhookEvent p PaymentCreated ;;!
     ret p).

(** The [catch] of [createOutgoingPayment]. *)
Definition create_error (err : exn) : option OutgoingPaymentError.t :=
  match err with
  | UniqueViolationError constraint =>
      if bool_decide (constraint = "outgoingPayments_pkey"%string)
      then Some OutgoingPaymentError.InvalidQuote else None
  | ForeignKeyViolationError constraint =>
      if bool_decide (constraint = "outgoingpayments_id_foreign"%string)
      then Some OutgoingPaymentError.UnknownQuote
      else if bool_decide (constraint = "outgoingpayments_walletaddressid_foreign"%string)
      then Some OutgoingPaymentError.UnknownWalletAddress
      else None
  | ThrownString s => OutgoingPaymentError.of_value s
  | _ => None
  end.

Definition createFromQuoteId (options : CreateOutgoingPaymentOptions) (quoteId : string)
  : M OutgoingState (res OutgoingPaymentError.t OutgoingPayment) :=
  let! walletAddress :=
    lift (walletAddress_get deps (o_walletAddressId options) (Some (o_tenantId options))) in
  let! now := date_now in
  match walletAddress with
  | None => throw_payment OutgoingPaymentError.UnknownWalletAddress
  | Some w =>
      if negb (wallet_isActive now w)
      then throw_payment OutgoingPaymentError.InactiveWalletAddress
      else
      let! quote := lift (quote_get deps
        {| go_id := quoteId; go_client := None; go_walletAddressId := None; go_tenantId := None |}) in
      match quote with
      | None => ret (Err OutgoingPaymentError.UnknownQuote)
      | Some q =>
          let! q := match q_feeId q with
                    | Some feeId =>
                        if truthy feeId
                        then let! fee := lift (fee_get deps feeId) in ret (set_fee fee q)
                        else ret q
                    | None => ret q
                    end in
          let! a := lift (asset_get deps (q_assetId q)) in
          let! receiver := lift (receiver_get deps (q_receiver q)) in
          if match receiver with Some r => receiver_isActive now r | None => false end then
            let! p := createInTransaction options quoteId w q a in
            let! p := addSentAmount p (Some 0) in
            ret (Ok p)
          else throw_payment OutgoingPaymentError.InvalidQuote
      end
  end.

Definition createOutgoingPayment (options : CreateOutgoingPaymentOptions)
  : M OutgoingState (res OutgoingPaymentError.t OutgoingPayment) :=
  let! quoteId := quoteIdOf options in
  match quoteId with
  | Err e => ret (Err e)
  | Ok quoteId =>
      try_catch (createFromQuoteId options quoteId)
        (fun err => match create_error err with
                    | Some e => ret (Err e)
                    | None => throw err
                    end)
  end.
End OutgoingPaymentService.
