(* ===== verification/OutgoingWorker.v ===== *)
(** * OutgoingWorker: the lifecycle of outgoing payments and its worker

    Models [open_payments/payment/outgoing/lifecycle.ts] and [worker.ts] over the
    state of [OutgoingPayment].  [LIMIT 1] without an order returns any eligible
    payment: [pick] is the database's choice. *)

From S2P Require Import Prelude Shared JsNumber Service OpenPayments PaymentMethod Accounting.
From S2P Require Pagination Quote Webhook.
From S2P Require Import OutgoingPayment.
Import Quote (of_option, q_expiresAt, q_estimatedExchangeRate, debitAmountMinusFees).

Local Open Scope Z_scope.
Local Open Scope ts_scope.

Definition RETRY_BACKOFF_SECONDS : Z := 10.

Section OutgoingWorker.
Context {X : Type} `{Uuid}.
Context (deps : OutgoingDeps X).
Context (pick : list OutgoingPayment -> option OutgoingPayment).

Notation OutgoingState := (Svc OutgoingDb X).

(** ** [lifecycle.ts] *)

Definition validateAssets (p : OutgoingPayment) (receiver : Receiver) : M OutgoingState unit :=
  if negb (bool_decide (Some (assetId p) = wa_assetId <$> walletAddress p))
  then throw_lifecycle LifecycleError.SourceAssetConflict
  else if negb (assetScale (receiveAmount p) =? r_assetScale receiver)
          || negb (bool_decide (assetCode (receiveAmount p) = r_assetCode receiver))
  then throw_lifecycle LifecycleError.DestinationAssetConflict
  else ret tt.

Record AdjustedAmounts := { maxDebitAmount : Z; maxReceiveAmount : Z }.

Definition getAdjustedAmounts (p : OutgoingPayment) (receiver : Receiver) (alreadySentAmount : Z)
  : M OutgoingState AdjustedAmounts :=
  let! debit := of_option (debitAmount p) TypeError in
  let! amountDelivered := bigint_of (bigint_ceil
    (num_mul (of_bigint alreadySentAmount) (q_estimatedExchangeRate (quote p)))) in
  let maxReceiveAmount := value (receiveAmount p) - amountDelivered in
  ret {| maxDebitAmount := value debit - alreadySentAmount;
         maxReceiveAmount :=
           match receiver_remaining receiver with
           | Some maxAmountToDeliver =>
               if maxAmountToDeliver <? maxReceiveAmount then maxAmountToDeliver
               else maxReceiveAmount
           | None => maxReceiveAmount
           end |}.

Definition handleFailed (p : OutgoingPayment) (err : string) : M OutgoingState unit :=
  let! p := patch (fun p => set_state Failed
    (set_columns (Some err) (metadata p) (dataToTransmit p) p)) p in
  sendWebhookEvent deps p PaymentFailed.

(** What [handleCompleted] leaves: the instance with its new state, and whether
    the event was written. *)
Definition handleCompleted (p : OutgoingPayment) : M OutgoingState (OutgoingPayment * outcome unit) :=
  let! p := patch (set_state Completed) p in
  try_catch (sendWebhookEvent deps p PaymentCompleted ;;! ret (p, Ret tt))
    (fun e => ret (p, Throw e)).

(** The call of the payment method. *)
Definition payPayment (p : OutgoingPayment) (receiver : Receiver) (amounts : AdjustedAmounts)
  : M OutgoingState unit :=
  let pay_with method debit :=
    lift (pay (paymentMethodHandlerService deps method)
      {| po_receiver := receiver; po_outgoingPayment := p;
         finalDebitAmount := debit; finalReceiveAmount := maxReceiveAmount amounts |}) in
  if r_isLocal receiver then
    match debitAmountMinusFees (quote p) with
    | Some d =>
        if negb (truthy d) || (d <=? 0) then throw_lifecycle LifecycleError.BadState
        else pay_with LOCAL d
    | None => throw_lifecycle LifecycleError.BadState
    end
  else pay_with ILP (maxDebitAmount amounts).

(** [handleSending] up to its calls of [handleCompleted]: every path that does not
    throw ends in one.  (A payment always has a quote.) *)
Definition trySending (p : OutgoingPayment) : M OutgoingState unit :=
  let! now := date_now in
  if q_expiresAt (quote p) <=? now then throw_lifecycle LifecycleError.QuoteExpired
  else
  let! receiver := lift (receiver_get deps (receiver p)) in
  let! amountSent := lift (getTotalSent (accountingService deps) (id p)) in
  match amountSent with
  | None => throw_lifecycle LifecycleError.MissingBalance
  | Some amountSent =>
      match receiver with
      | None => ret tt
      | Some receiver =>
          if negb (receiver_isActive now receiver) then ret tt
          else
          validateAssets p receiver ;;!
          let! amounts := getAdjustedAmounts p receiver amountSent in
          if maxReceiveAmount amounts <=? 0 then ret tt
          else if maxDebitAmount amounts <=? 0 then throw_lifecycle LifecycleError.BadState
          else payPayment p receiver amounts
      end
  end.

(** [handleSending]: the instance as the handler of errors finds it, which
    [handleCompleted] may have patched, and how it settled. *)
Definition handleSending (p : OutgoingPayment) : M OutgoingState (OutgoingPayment * outcome unit) :=
  let! sent := try_catch (trySending p ;;! ret (Ret tt)) (fun e => ret (Throw e)) in
  match sent with
  | Throw e => ret (p, Throw e)
  | Ret _ => handleCompleted p
  end.

(** ** [worker.ts] *)

Definition isRetryableError (e : exn) : bool :=
  match e with
  | PaymentMethodHandlerError _ retryable _ _ => match retryable with Some b => b | None => false end
  | ThrownString s => bool_decide (s = LifecycleError.value LifecycleError.RatesUnavailable)
  | _ => true
  end.

(** [err.message], or the string itself; of a database error, whose text is the
    driver's, the constraint. *)
Definition QuoteErrorCode_message (code : QuoteErrorCode.t) : string :=
  match code with
  | QuoteErrorCode.UnknownWalletAddress => "unknown wallet address"
  | QuoteErrorCode.InvalidAmount => "invalid amount"
  | QuoteErrorCode.InvalidReceiver => "invalid receiver"
  | QuoteErrorCode.InactiveWalletAddress => "inactive wallet address"
  | QuoteErrorCode.NonPositiveReceiveAmount => "non-positive receive amount"
  end.

Definition error_message (e : exn) : string :=
  match e with
  | JsError _ m => m
  | PaymentMethodHandlerError m _ _ _ => m
  | QuoteError code _ => QuoteErrorCode_message code
  | GrantError _ m | GNAPServerRouteError _ _ m | OpenPaymentsServerRouteError _ m => m
  | UniqueViolationError c | ForeignKeyViolationError c => c
  | ThrownString s => s
  end.

Definition onLifecycleError (p : OutgoingPayment) (e : exn) : M OutgoingState unit :=
  let attempts := stateAttempts p + 1 in
  if (attempts <? maxOutgoingPaymentRetryAttempts deps) && isRetryableError e
  then patch (set_stateAttempts attempts) p ;;! ret tt
  else handleFailed p (error_message e).

Definition handlePaymentLifecycle (p : OutgoingPayment) : M OutgoingState unit :=
  match state p with
  | Sending =>
      let! w := lift (walletAddress_get deps (walletAddressId p) None) in
      let! p := fetch_asset deps (with_walletAddress w p) in
      let! '(p, settled) := handleSending p in
      match settled with
      | Throw e => onLifecycleError p e
      | Ret _ => ret tt
      end
  | _ => ret tt
  end.

(** ["updatedAt" + LEAST("stateAttempts", 6) * 10 * interval '1 seconds' < now] *)
Definition pending (now : Z) (p : OutgoingPayment) : bool :=
  bool_decide (state p = Sending)
  && ((stateAttempts p =? 0)
      || (updatedAt p + Z.min (stateAttempts p) 6 * RETRY_BACKOFF_SECONDS * 1000 <? now)).

Definition getPendingPayment : M OutgoingState (option OutgoingPayment) :=
  let! now := date_now in
  let! row := db_get (fun d => pick (List.filter (pending now) (payments d))) in
  ret (fetched false <$> row).

Definition processPendingPayment : M OutgoingState (option string) :=
  transaction
    (let! payment := getPendingPayment in
     match payment with
     | None => ret None
     | Some p => handlePaymentLifecycle p ;;! ret (Some (id p))
     end).
End OutgoingWorker.
