(* ===== verification/OutgoingSpecs.v ===== *)
(** * OutgoingSpecs: what each operation on outgoing payments does

    For every operation of [OutgoingPayment] and [OutgoingWorker], a lemma that
    states its effect on the tables on every path, and the theorems on single
    operations.  [OutgoingHistory] composes them. *)

From S2P Require Import Prelude Shared JsNumber Service OpenPayments PaymentMethod Accounting.
From S2P Require Pagination Quote Webhook.
From S2P Require Import OutgoingPayment OutgoingWorker.
Import Quote (Quote, of_option, q_expiresAt, q_walletAddressId, debitAmountValue,
  receiveAmountValue, debitAmountMinusFees).
Import Webhook (events, ev_type, outgoingPaymentId).

Local Open Scope Z_scope.
Local Open Scope ts_scope.

Section Specs.
Context {X : Type} `{Uuid}.
Context (deps : OutgoingDeps X).

Notation OutgoingState := (Svc OutgoingDb X).
Implicit Types (s : OutgoingState) (p : OutgoingPayment).

(** ** Events *)

Definition event_for (type : OutgoingPaymentEventType) (pid : string)
    (e : Webhook.WebhookEvent PaymentData) : Prop :=
  ev_type e = OutgoingPaymentEventType_value type /\ outgoingPaymentId e = Some pid.

(** One event more, and nothing else. *)
Definition emits (type : OutgoingPaymentEventType) (pid : string) (d d' : OutgoingDb) : Prop :=
  payments d' = payments d /\ outgoingPaymentGrants d' = outgoingPaymentGrants d /\
  exists e, events (outgoingWebhooks d') = events (outgoingWebhooks d) ++ [e] /\
    event_for type pid e.

Lemma insertPaymentEvent_spec p type sent balance s :
  wp (insertPaymentEvent deps p type sent balance)
    (fun r s' => now s' = now s /\
       match r with
       | Ret _ => emits type (id p) (db s) (db s') /\ is_some (asset p) = true
       | Throw _ => db s' = db s
       end) s.
Proof.
  unfold insertPaymentEvent, of_option, debitAmount, Quote.debitAmount, asset.
  destruct (Quote.q_asset (quote p)) as [a|]; simpl; [|by wp_auto].
  wp_step. apply wp_ret. unfold wp, Webhook.insertGraph, bind, uuid; simpl.
  split; [done|]. split; [|done]. split_and!; [done..|]. by eexists.
Qed.

Lemma sendWebhookEvent_spec p type s :
  wp (sendWebhookEvent deps p type)
    (fun r s' => now s' = now s /\
       match r with
       | Ret _ => emits type (id p) (db s) (db s') /\ is_some (asset p) = true
       | Throw _ => db s' = db s
       end) s.
Proof.
  unfold sendWebhookEvent, throw_lifecycle.
  wp_auto; try done; (eapply wp_mono; [apply insertPaymentEvent_spec|]); done.
Qed.

(** ** Patches *)

(** The rows after the row of [pid] was rewritten by [f]. *)
Definition patched (pid : string) (n : Z) (f : OutgoingPayment -> OutgoingPayment)
    (l : list OutgoingPayment) : list OutgoingPayment :=
  update_where (fun p' => bool_decide (id p' = pid)) (fun p' => touch n (f p')) l.

Lemma wp_patch f p Q s :
  Q (Ret (touch (now s) (f p))) (set_db (set_payments (patched (id p) (now s) f (payments (db s)))
                                          (db s)) s) ->
  wp (patch f p) Q s.
Proof. intros HQ. unfold patch. by wp_auto. Qed.

(** ** Reads leave the tables *)

Lemma fetch_asset_spec p s :
  wp (fetch_asset deps p)
    (fun r s' => db s' = db s /\ now s' = now s /\
       match r with
       | Ret p' => exists a, p' = with_asset a p
       | Throw _ => True
       end) s.
Proof. unfold fetch_asset. wp_auto; split_and!; eauto. Qed.

Lemma addSentAmount_spec p v s :
  wp (addSentAmount deps p v)
    (fun r s' => db s' = db s /\ now s' = now s /\
       match r with
       | Ret p' => exists sent, p' = set_amounts (Some sent) (grantSpentDebitAmountValue p)
                                        (grantSpentReceiveAmountValue p) p
       | Throw _ => is_some v = true -> is_some (asset p) = false
       end) s.
Proof.
  unfold addSentAmount, validateSentAmount, with_sentAmount, of_option.
  wp_auto; split_and!; eauto; try done; by destruct (asset p).
Qed.

(** ** Cancelling *)

Definition cancel_row (options : CancelOutgoingPaymentOptions) (row p : OutgoingPayment)
    : OutgoingPayment :=
  set_state Cancelled (set_columns (error p) (Some (cancel_metadata options (metadata row)))
                         (dataToTransmit p) p).

(** What [cancel] returned and did. *)
Definition cancelled (options : CancelOutgoingPaymentOptions) s
    (r : res OutgoingPaymentError.t OutgoingPayment) s' : Prop :=
  match r with
  | Ok p => exists row, row ∈ payments (db s) /\ id row = c_id options /\
      tenantId row = c_tenantId options /\ state row = Funding /\ state p = Cancelled /\
      id p = id row /\
      payments (db s') = patched (id row) (now s) (cancel_row options row) (payments (db s))
  | Err _ => db s' = db s
  end.

(** A card payment's event, sent when the payment is a card payment. *)
Definition cardEvent p (type : OutgoingPaymentEventType) : M OutgoingState unit :=
  match initiatedBy p with Card => sendWebhookEvent deps p type | _ => ret tt end.

Lemma cardEvent_spec p type s :
  wp (cardEvent p type)
    (fun r s' => now s' = now s /\
       match r with Ret _ => payments (db s') = payments (db s) | Throw _ => True end) s.
Proof.
  unfold cardEvent. destruct (initiatedBy p); try by wp_auto.
  eapply wp_mono; [apply sendWebhookEvent_spec|]. intros [u|e] s' [Hn Hs]; [|done].
  split; [done|]. apply Hs.
Qed.

Lemma cancelOutgoingPayment_spec options s :
  wp (cancelOutgoingPayment deps options)
    (fun r s' => now s' = now s /\
       match r with Ret r => cancelled options s r s' | Throw _ => db s' = db s end) s.
Proof.
  unfold cancelOutgoingPayment, find_payment. apply wp_atomic. do 2 wp_step.
  destruct (find_where _ _) as [row|] eqn:Hrow; [|by wp_auto].
  apply find_where_Some in Hrow as [Hin [Hid Hten]%andb_true_iff]. zbool.
  destruct (state row) eqn:Hst; try by wp_auto.
  wp_step. apply wp_patch. wp_step.
  eapply wp_mono; [apply fetch_asset_spec|]. intros [p|e] s1 (Hdb1 & Hn1 & Hp); [|done].
  destruct Hp as (a & ->). wp_step. apply wp_lift. intros [w|e] x Hcall; svc_simpl; [|done].
  match goal with |- context [with_walletAddress w ?q] => set (p := with_walletAddress w q) end.
  assert (state p = Cancelled /\ id p = id row) as [Hpst Hpid] by by destruct a.
  wp_step. eapply wp_mono; [apply cardEvent_spec|]. intros [u|e] s2 [Hn2 Hp2]; [|svc_done].
  wp_step. eapply wp_mono; [apply addSentAmount_spec|].
  intros [p'|e] s3 (Hdb3 & Hn3 & Hp'); [|svc_done].
  destruct Hp' as (sent & ->). apply wp_ret. split; [simpl in *; congruence|].
  exists row. split_and!; try done. rewrite Hdb3, Hp2. simpl. by rewrite Hdb1.
Qed.

(** ** Funding *)

Definition fund_row (options : FundOutgoingPaymentOptions) (p : OutgoingPayment) : OutgoingPayment :=
  set_state Sending
    (set_columns (error p) (metadata p)
       (match stored_data deps (f_dataToTransmit options) with
        | Some data => Some data
        | None => dataToTransmit p
        end) p).

(** The deposit [fund] asks the ledger for. *)
Definition fund_deposit (options : FundOutgoingPaymentOptions) (pid : string) (a : Asset)
    : Deposit X :=
  {| deposit_id := transferId options; deposit_account := payment_account deps pid a;
     deposit_amount := f_amount options |}.

(** What [fund] returned and did. *)
Definition funded (options : FundOutgoingPaymentOptions) s (r : res FundingError OutgoingPayment) s'
    : Prop :=
  match r with
  | Ok p => exists row a x x', row ∈ payments (db s) /\ id row = f_id options /\
      tenantId row = f_tenantId options /\ state row = Funding /\
      f_amount options = debitAmountValue (quote row) /\
      createDeposit (accountingService deps) (fund_deposit options (id row) a) x = (Ret None, x') /\
      state p = Sending /\ id p = id row /\
      payments (db s') = patched (id row) (now s) (fund_row options) (payments (db s))
  | Err (TransferFundingError e) => db s' = db s /\ exists pid a x x',
      createDeposit (accountingService deps) (fund_deposit options pid a) x = (Ret (Some e), x')
  | Err _ => db s' = db s
  end.

Lemma ensure_account_spec account t s :
  wp (ensure_account deps account t)
    (fun r s' => db s' = db s /\ now s' = now s) s.
Proof. unfold ensure_account. wp_auto; svc_done. Qed.

Lemma debitAmount_with_asset a p d :
  debitAmount (with_asset a p) = Some d -> value d = debitAmountValue (quote p).
Proof.
  unfold debitAmount, Quote.debitAmount. destruct a as [a|]; simpl.
  - by intros [= <-].
  - destruct (Quote.q_asset (quote p)); simpl; [by intros [= <-]|done].
Qed.

Lemma fundPayment_spec options s :
  wp (fundPayment deps options)
    (fun r s' => now s' = now s /\
       match r with Ret r => funded options s r s' | Throw _ => db s' = db s end) s.
Proof.
  unfold fundPayment, find_payment. apply wp_atomic. do 2 wp_step.
  destruct (find_where _ _) as [row|] eqn:Hrow; [|by wp_auto].
  apply find_where_Some in Hrow as [Hin [Hid Hten]%andb_true_iff]. zbool.
  wp_step. eapply wp_mono; [apply fetch_asset_spec|].
  intros [p|e] s1 (Hdb1 & Hn1 & Hp); [|svc_done]. destruct Hp as (a & ->).
  set (p := with_asset a (fetched true row)).
  assert (state p = state row /\ id p = id row) as [Hst Hpid] by by destruct a.
  rewrite Hst. destruct (state row) eqn:Hfund; try (wp_auto; svc_done).
  wp_step. unfold of_option at 1. destruct (debitAmount p) as [debit|] eqn:Hdebit; [|wp_auto; svc_done].
  apply debitAmount_with_asset in Hdebit. wp_step. wp_step; [wp_auto; svc_done|]. zbool.
  wp_step. unfold of_option at 1. destruct (asset p) as [a'|]; [|wp_auto; svc_done].
  wp_step. wp_step. eapply wp_mono; [apply ensure_account_spec|].
  intros [u|e] s2 [Hdb2 Hn2]; [|svc_done]. wp_step. apply wp_lift.
  intros [[err|]|e] x Hdep; svc_simpl; [| |svc_done].
  { apply wp_ret. split; [svc_done|]. split; [simpl; congruence|]. by exists (id p), a', (ext s2), x. }
  wp_step. apply wp_patch. svc_simpl. wp_step. fold (fund_row options).
  eapply wp_mono; [apply cardEvent_spec|]. intros [u'|e] s3 [Hn3 Hp3]; [|svc_done].
  wp_step. eapply wp_mono; [apply addSentAmount_spec|].
  intros [p'|e] s4 (Hdb4 & Hn4 & Hp'); [|svc_done].
  destruct Hp' as (sent & ->). apply wp_ret. split; [svc_done|].
  exists row, a', (ext s2), x. rewrite Hpid in *. change (quote (fetched true row)) with (quote row) in Hdebit.
  split_and!; try done; [congruence|].
  rewrite Hdb4, Hp3. simpl. by rewrite Hn2, Hn1, Hdb2, Hdb1.
Qed.

(** ** Grants

    The ledger never reports a negative total, and stored quotes have amounts that
    are not negative (what [Quote] proves of the quotes it creates). *)

Context (sent_nonneg : forall pid x z x',
  getTotalSent (accountingService deps) pid x = (Ret (Some z), x') -> 0 <= z).

Definition quote_ok p : Prop :=
  0 <= debitAmountValue (quote p) /\ 0 <= receiveAmountValue (quote p).

Definition debit_of p : Z := debitAmountValue (quote p).
Definition receive_of p : Z := receiveAmountValue (quote p).

(** An earlier payment of the grant counts in full. *)
Definition counts (pl : PaymentLimits) (g : OutgoingPayment) : bool :=
  validatePaymentInterval pl g && negb (failed g).

Lemma addSpent_spec pl p a b g s :
  quote_ok g ->
  wp (addSpent deps pl p (a, b) g)
    (fun r s' => db s' = db s /\ now s' = now s /\
       match r with
       | Ret (a', b') => a + (if counts pl g then debit_of g else 0) <= a' /\
                         b + (if counts pl g then receive_of g else 0) <= b'
       | Throw _ => True
       end) s.
Proof.
  intros [Hd Hr]. unfold addSpent. wp_step. eapply wp_mono; [apply fetch_asset_spec|].
  intros [g'|e] s1 (Hdb1 & Hn1 & Hg); [|done]. destruct Hg as (asset & ->).
  assert (validatePaymentInterval pl (with_asset asset g) = validatePaymentInterval pl g) as ->
    by by destruct asset.
  assert (failed (with_asset asset g) = failed g) as -> by by destruct asset.
  assert (receiveAmount (with_asset asset g) = receiveAmount g) as -> by by destruct asset.
  unfold counts, debit_of, receive_of, validateSentAmount, of_option.
  destruct (validatePaymentInterval pl g); simpl; [|wp_auto; split_and!; try svc_done; lia].
  destruct (failed g); simpl.
  - wp_auto; split_and!; try svc_done; try (apply sent_nonneg in Hcall); zbool; try lia.
    all: try match goal with
         | H : debitAmount _ = Some ?d |- _ => apply debitAmount_with_asset in H
         end.
    all: unfold receiveAmount; simpl.
    all: match goal with |- context [Z.quot ?n ?d] => assert (0 <= Z.quot n d); [|lia] end.
    all: apply Z.quot_pos; [apply Z.mul_nonneg_nonneg; lia|lia].
  - destruct (debitAmount (with_asset asset g)) as [d|] eqn:Ed; [|wp_auto; svc_done].
    apply debitAmount_with_asset in Ed. wp_auto. split_and!; try svc_done; simpl; lia.
Qed.

Lemma addAllSpent_spec pl p gs : forall a b s, Forall quote_ok gs ->
  wp (addAllSpent deps pl p (a, b) gs)
    (fun r s' => db s' = db s /\ now s' = now s /\
       match r with
       | Ret (a', b') => a + sum_where (counts pl) debit_of gs <= a' /\
                         b + sum_where (counts pl) receive_of gs <= b'
       | Throw _ => True
       end) s.
Proof.
  induction gs as [|g gs IH]; intros a b s Hok; cbn [addAllSpent].
  - apply wp_ret. simpl. split_and!; try done; lia.
  - apply Forall_cons in Hok as [Hg Hok]. wp_step. eapply wp_mono; [by apply addSpent_spec|].
    intros [[a1 b1]|e] s1 (Hdb & Hn & Hs); [|done]. destruct Hs as [Ha Hb].
    eapply wp_mono; [by apply IH|]. intros [[a2 b2]|e] s2 (Hdb2 & Hn2 & Hs2); [|svc_done].
    rewrite !sum_where_cons. split_and!; try svc_done; lia.
Qed.

(** The earlier payments of the grant that count, among the rows. *)
Definition in_force (pl : PaymentLimits) (gid pid : string) (g : OutgoingPayment) : bool :=
  bool_decide (grantId g = Some gid) && negb (bool_decide (id g = pid)) && counts pl g.

(** The limits that apply to the payment: those of the grant, in the period of
    its interval that holds the payment. *)
Definition applies (l : Limits) p (pl : PaymentLimits) : Prop :=
  pl_limits pl = l /\
  match paymentInterval pl with
  | None => truthy (l_interval l) = false
  | Some i => exists interval, l_interval l = Some interval /\ truthy interval = true /\
      getInterval deps interval (createdAt p) = Ret (Some i)
  end.

(** The payment is within the limits of the grant, given the rows. *)
Definition within_grant (g : Grant) p (rows : list OutgoingPayment) : Prop :=
  forall l, limits g = Some l -> exists pl, applies l p pl /\
    (truthy (l_receiver l) = true -> l_receiver l = Some (receiver p)) /\
    (forall d, l_debitAmount l = Some d ->
       sum_where (in_force pl (grant_id g) (id p)) debit_of rows + debit_of p <= value d) /\
    (forall r, l_receiveAmount l = Some r ->
       sum_where (in_force pl (grant_id g) (id p)) receive_of rows + receive_of p <= value r).

Lemma validateAmountAssets_spec p l s :
  wp (validateAmountAssets p l) (fun _ s' => db s' = db s /\ now s' = now s) s.
Proof. unfold validateAmountAssets, of_option, throw_payment. by wp_auto. Qed.

Lemma validateAccessLimits_spec p l s :
  wp (validateAccessLimits deps p l)
    (fun r s' => db s' = db s /\ now s' = now s /\
       match r with
       | Ret (Some pl) => applies l p pl /\
           (truthy (l_receiver l) = true -> l_receiver l = Some (receiver p))
       | _ => True
       end) s.
Proof.
  unfold validateAccessLimits. wp_step; [|by wp_auto]. wp_step.
  assert (truthy (l_receiver l) = true -> l_receiver l = Some (receiver p)) as Hrec.
  { intros Ht. rewrite Ht in Heqb. simpl in Heqb. by apply bool_decide_eq_true in Heqb. }
  eapply wp_mono; [apply validateAmountAssets_spec|].
  intros [[|]|e] s1 [Hdb Hn]; [|wp_auto; svc_done|done].
  unfold applies. wp_auto; split_and!; try svc_done; simpl; eauto 6.
Qed.

(** The instance keeps what matters while amounts are attached to it. *)
Definition same_payment p p' : Prop :=
  id p' = id p /\ quote p' = quote p /\ state p' = state p /\ initiatedBy p' = initiatedBy p.

Lemma exceeds_false l sent received d r :
  exceeds l sent received d r = false ->
  (forall a, l_debitAmount l = Some a -> sent + d <= value a) /\
  (forall a, l_receiveAmount l = Some a -> received + r <= value a).
Proof.
  unfold exceeds. intros [Hd Hr]%orb_false_iff.
  split; intros a Ha; rewrite Ha in *; zbool; lia.
Qed.

Lemma in_force_sum pl gid pid f rows :
  sum_where (in_force pl gid pid) f rows
  = sum_where (counts pl) f
      (List.filter (fun g => bool_decide (grantId g = Some gid) && negb (bool_decide (id g = pid)))
         rows).
Proof. rewrite sum_where_filter. by apply sum_where_ext. Qed.

Lemma sum_fetched pl (f : OutgoingPayment -> Z) gs :
  (forall p, f (fetched false p) = f p) ->
  sum_where (counts pl) f (fetched false <$> gs) = sum_where (counts pl) f gs.
Proof.
  intros Hf. induction gs as [|g gs IH]; [done|].
  rewrite fmap_cons, !sum_where_cons, IH, Hf. done.
Qed.

Lemma debitValue_spec p l s :
  wp (match l_debitAmount l with
      | Some _ => let! d := of_option (debitAmount p) TypeError in ret (value d)
      | None => ret 0
      end)%ts
    (fun r s' => s' = s /\
       match r with
       | Ret d => is_some (l_debitAmount l) = true -> d = debit_of p
       | Throw _ => True
       end) s.
Proof.
  unfold of_option. wp_auto; split_and?; try done. intros _.
  apply (debitAmount_with_asset None p) in Heqo0. done.
Qed.

Lemma validateGrant_spec p g s :
  Forall quote_ok (payments (db s)) ->
  wp (validateGrantAndAddSpentAmountsToPayment deps p g)
    (fun r s' => db s' = db s /\ now s' = now s /\
       match r with
       | Ret (true, p') => same_payment p p' /\ asset p' = asset p /\
           within_grant g p (payments (db s))
       | _ => True
       end) s.
Proof.
  intros Hok. unfold validateGrantAndAddSpentAmountsToPayment, within_grant.
  destruct (limits g) as [l|] eqn:Hl; [|wp_auto; split_and!; try done; intros; simplify_eq].
  wp_step. eapply wp_mono; [apply validateAccessLimits_spec|].
  intros [[pl|]|e] s1 (Hdb1 & Hn1 & Hpl); [|wp_auto; svc_done|done]. destruct Hpl as [Happ Hrec].
  wp_step.
  { wp_auto. split_and!; try done. intros ? [= <-]. exists pl. zbool.
    by destruct (l_debitAmount l), (l_receiveAmount l). }
  wp_step. eapply wp_mono; [apply debitValue_spec|].
  intros [debit|e] s2 [-> Hdebit]; [|svc_done].
  wp_step; [wp_auto; svc_done|]. do 2 wp_step. rewrite Hdb1.
  pose proof (exceeds_false _ _ _ _ _ Heqb0) as [He1 He2].
  assert (forall d, l_debitAmount l = Some d -> debit = debit_of p) as Hd
    by (intros d E; apply Hdebit; by rewrite E).
  set (gs := List.filter _ _).
  assert (Forall quote_ok (fetched false <$> gs)) as Hgs.
  { apply Forall_fmap, Forall_forall. intros q Hq. rewrite Forall_forall in Hok.
    apply (Hok q). by apply elem_of_filter_bool in Hq as [_ Hq]. }
  assert (forall debit' sent received, exceeds l sent received debit' (value (receiveAmount p)) = false ->
    (forall d, l_debitAmount l = Some d -> debit' = debit_of p) ->
    sum_where (counts pl) debit_of gs <= sent -> sum_where (counts pl) receive_of gs <= received ->
    forall l', Some l = Some l' -> exists pl, applies l' p pl /\
      (truthy (l_receiver l') = true -> l_receiver l' = Some (receiver p)) /\
      (forall d, l_debitAmount l' = Some d ->
         sum_where (in_force pl (grant_id g) (id p)) debit_of (payments (db s)) + debit_of p <= value d) /\
      (forall r, l_receiveAmount l' = Some r ->
         sum_where (in_force pl (grant_id g) (id p)) receive_of (payments (db s)) + receive_of p
         <= value r)) as Hwithin.
  { intros debit' sent received [H1 H2]%exceeds_false Hd' Hs Hr l' [= <-]. exists pl.
    rewrite !in_force_sum. split_and!; try done; fold gs.
    - intros d E. specialize (H1 d E). rewrite (Hd' d E) in H1. lia.
    - intros r E. specialize (H2 r E). unfold receive_of at 2. simpl in H2. lia. }
  destruct gs as [|g0 gs0] eqn:Egs.
  { apply wp_ret. split_and!; try svc_done. by apply (Hwithin debit 0 0). }
  wp_step. unfold of_option. destruct (asset p) as [a|] eqn:Ha; [|wp_auto; svc_done].
  wp_step. wp_step. eapply wp_mono; [by apply addAllSpent_spec|].
  intros [[sent received]|e] s3 (Hdb3 & Hn3 & Hs3); [|svc_done]. destruct Hs3 as [Hsent Hreceived].
  apply wp_ret. split; [congruence|]. split; [congruence|].
  destruct (exceeds l sent received debit (value (receiveAmount p))) eqn:E; simpl; [done|].
  split_and!; try done. rewrite !sum_fetched in * by done. by apply (Hwithin debit sent received).
Qed.

(** ** Creating *)

Context (quotes_ok : forall options x q x',
  quote_get deps options x = (Ret (Some q), x') ->
  0 <= debitAmountValue q /\ 0 <= receiveAmountValue q).

(** The row a payment starts as. *)
Record created_row (options : CreateOutgoingPaymentOptions) (n : Z) (row : OutgoingPayment) : Prop := {
  cr_state : state row = Funding /\ stateAttempts row = 0;
  cr_owner : tenantId row = o_tenantId options /\ walletAddressId row = o_walletAddressId options;
  cr_grant : grantId row = grant_id <$> o_grant options;
  cr_quote : quote_ok row;
  cr_created : createdAt row = n
}.

(** What a successful creation did. *)
Definition created_payment (options : CreateOutgoingPaymentOptions) s p s' : Prop :=
  exists row, id p = id row /\ state p = Funding /\
    created_row options (now s) row /\
    id row ∉ (id <$> payments (db s)) /\
    payments (db s') = payments (db s) ++ [row] /\
    walletAddressId row = q_walletAddressId (quote row) /\ now s < q_expiresAt (quote row) /\
    (forall g, o_grant options = Some g -> within_grant g row (payments (db s'))) /\
    exists e, events (outgoingWebhooks (db s')) = events (outgoingWebhooks (db s)) ++ [e] /\
      event_for PaymentCreated (id row) e.

Lemma insertGrant_spec gid s :
  wp (insertGrant gid)
    (fun r s' => now s' = now s /\
       match r with
       | Ret _ => payments (db s') = payments (db s) /\
                  outgoingWebhooks (db s') = outgoingWebhooks (db s)
       | Throw _ => True
       end) s.
Proof. unfold insertGrant. wp_step. by case_bool_decide. Qed.

Lemma insertPayment_spec options quoteId q s :
  0 <= debitAmountValue q /\ 0 <= receiveAmountValue q ->
  wp (insertPayment options quoteId q)
    (fun r s' => now s' = now s /\
       match r with
       | Ret row => payments (db s') = payments (db s) ++ [row] /\
           outgoingWebhooks (db s') = outgoingWebhooks (db s) /\
           id row = quoteId /\ quoteId ∉ (id <$> payments (db s)) /\
           created_row options (now s) row /\ quote row = Quote.set_fee None (Quote.set_related None None q)
       | Throw _ => True
       end) s.
Proof.
  intros Hq. unfold insertPayment. do 4 wp_step.
  destruct (find_where _ _) as [p|] eqn:E; [by wp_auto|]. wp_auto.
  split_and!; try done. intros (p & -> & Hp)%list_elem_of_fmap.
  apply find_where_None with (x := p) in E; [|done]. by rewrite bool_decide_eq_true_2 in E.
Qed.

Lemma within_grant_same g p p' rows :
  id p' = id p -> createdAt p' = createdAt p -> receiver p' = receiver p ->
  debit_of p' = debit_of p -> receive_of p' = receive_of p ->
  within_grant g p rows -> within_grant g p' rows.
Proof.
  intros Hid Hc Hr Hd Hrec Hw l Hl. destruct (Hw l Hl) as (pl & Happ & H1 & H2 & H3).
  exists pl. unfold applies in *. by rewrite Hid, Hc, Hr, Hd, Hrec.
Qed.

Lemma validGrant_step options p s :
  Forall quote_ok (payments (db s)) ->
  wp (match o_grant options with
      | Some g =>
          let! valid := validateGrantAndAddSpentAmountsToPayment deps p g in
          let '(isValid, p) := valid in
          if isValid then ret p else throw_payment OutgoingPaymentError.InsufficientGrant
      | None => ret p
      end)%ts
    (fun r s' => db s' = db s /\ now s' = now s /\
       match r with
       | Ret p' => same_payment p p' /\ asset p' = asset p /\
           forall g, o_grant options = Some g -> within_grant g p (payments (db s))
       | Throw _ => True
       end) s.
Proof.
  intros Hok. destruct (o_grant options) as [g|]; [|by apply wp_ret].
  wp_step. eapply wp_mono; [by apply validateGrant_spec|].
  intros [[[|] p']|e] s' (Hdb & Hn & Hs); [|wp_auto; svc_done|done].
  destruct Hs as (Hsame & Hasset & Hw).
  apply wp_ret. do 4 (split; [done|]). by intros ? [= <-].
Qed.

Lemma createInTransaction_spec options quoteId w q a s :
  Forall quote_ok (payments (db s)) -> 0 <= debitAmountValue q /\ 0 <= receiveAmountValue q ->
  wp (createInTransaction deps options quoteId w q a)
    (fun r s' => now s' = now s /\
       match r with
       | Ret p => created_payment options s p s' /\ is_some (asset p) = true
       | Throw _ => db s' = db s
       end) s.
Proof.
  intros Hok Hq. unfold createInTransaction. apply wp_atomic. wp_step.
  apply (wp_mono _ (fun r s' => now s' = now s /\ match r with
    | Ret _ => payments (db s') = payments (db s) /\ outgoingWebhooks (db s') = outgoingWebhooks (db s)
    | Throw _ => True end)).
  { destruct (o_grant options) as [g|]; [|by wp_auto].
    destruct (truthy (grant_id g)); [|by wp_auto].
    eapply wp_mono; [apply insertGrant_spec|]. done. }
  intros [u|e] s1 [Hn1 Hs1]; [|done]. destruct Hs1 as [Hp1 Hw1].
  wp_step. eapply wp_mono; [by apply insertPayment_spec|].
  intros [row|e] s2 [Hn2 Hs2]; [|svc_done].
  destruct Hs2 as (Hp2 & Hw2 & Hid & Hfresh & Hrow & Hquote).
  set (p := with_asset a (attach (Some w) q (cardDetails row) row)).
  assert (id p = id row /\ state p = state row /\ createdAt p = createdAt row /\
    walletAddressId p = walletAddressId row /\ receiver p = receiver row /\
    debit_of p = debit_of row /\ receive_of p = receive_of row /\
    q_walletAddressId (quote p) = q_walletAddressId (quote row) /\
    q_expiresAt (quote p) = q_expiresAt (quote row))
    as (Epid & Est & Ecr & Ewa & Erc & Edeb & Erec & Eqw & Eqx)
    by (unfold receiver, debit_of, receive_of; rewrite Hquote; by destruct a).
  wp_step; [unfold throw_payment; wp_auto; svc_done|]. zbool.
  wp_step. eapply wp_mono; [apply validGrant_step|].
  { rewrite Hp2, Hp1. apply Forall_app. split; [done|]. constructor; [apply Hrow|done]. }
  intros [p'|e] s3 (Hdb3 & Hn3 & Hs3); [|svc_done]. destruct Hs3 as (Hsame & Hasset & Hgrant).
  wp_step. eapply wp_mono; [apply sendWebhookEvent_spec|].
  intros [u'|e] s4 [Hn4 Hs4]; [|svc_done]. destruct Hs4 as [(Hp4 & _ & ev & Hev & Hfor) Hsome].
  apply wp_ret. split; [congruence|]. split; [|done].
  destruct Hsame as (Hid' & _ & Hst' & _). destruct Hrow as [Hcs Hco Hcg Hcq Hcc].
  exists row. assert (payments (db s4) = payments (db s) ++ [row]) as Hrows by congruence.
  split; [congruence|]. split; [rewrite Hst', Est; apply Hcs|].
  split; [rewrite Hn1 in Hcc; by constructor|].
  split; [by rewrite Hid, <- Hp1|]. split; [done|].
  split; [congruence|]. split; [lia|]. split.
  - intros g Hg. specialize (Hgrant g Hg). rewrite Hp4, Hdb3.
    eapply within_grant_same; [..|exact Hgrant]; congruence.
  - exists ev. rewrite Hev, Hdb3, Hw2, Hw1. split; [done|]. by rewrite <- Epid, <- Hid'.
Qed.

Lemma createFromQuoteId_spec options quoteId s :
  Forall quote_ok (payments (db s)) ->
  wp (createFromQuoteId deps options quoteId)
    (fun r s' => now s' = now s /\
       match r with
       | Ret (Ok p) => created_payment options s p s'
       | _ => db s' = db s
       end) s.
Proof.
  intros Hok. unfold createFromQuoteId, throw_payment.
  wp_step. apply wp_lift. intros [[w|]|e] x Hw; svc_simpl; [|by wp_auto|done].
  do 3 wp_step; [by wp_auto|]. wp_step. apply wp_lift.
  intros [[q|]|e] x1 Hqg; svc_simpl; [|by wp_auto|done].
  wp_step. apply (wp_mono _ (fun r s' => db s' = db s /\ now s' = now s /\
    match r with Ret q' => debitAmountValue q' = debitAmountValue q /\
                           receiveAmountValue q' = receiveAmountValue q
               | Throw _ => True end)).
  { by wp_auto. }
  intros [q'|e] s1 (Hdb1 & Hn1 & Hq'); [|done]. destruct Hq' as [Hqd Hqr].
  wp_step. apply wp_lift. intros [a|e] x2 Ha; svc_simpl; [|done].
  wp_step. apply wp_lift. intros [r|e] x3 Hr; svc_simpl; [|done].
  wp_step; [|wp_auto; svc_done]. wp_step.
  eapply wp_mono; [apply createInTransaction_spec; svc_simpl|].
  { by rewrite Hdb1. }
  { rewrite Hqd, Hqr. by eapply quotes_ok. }
  svc_simpl. intros [p|e] s2 [Hn2 Hs2]; [|svc_done]. destruct Hs2 as [Hs2 Hsome].
  wp_step. eapply wp_mono; [apply addSentAmount_spec|].
  intros [p'|e] s3 (Hdb3 & Hn3 & Hs3); [|by specialize (Hs3 eq_refl); congruence].
  destruct Hs3 as (sent & ->). apply wp_ret. split; [congruence|].
  unfold created_payment in *. cbn [db now set_ext set_db] in Hs2. rewrite Hn1, Hdb1 in Hs2. by rewrite Hdb3.
Qed.

Lemma quoteIdOf_spec options s :
  wp (quoteIdOf deps options) (fun _ s' => db s' = db s /\ now s' = now s) s.
Proof. unfold quoteIdOf. wp_auto; svc_done. Qed.

Lemma createOutgoingPayment_spec options s :
  Forall quote_ok (payments (db s)) ->
  wp (createOutgoingPayment deps options)
    (fun r s' => now s' = now s /\
       match r with
       | Ret (Ok p) => created_payment options s p s'
       | _ => db s' = db s
       end) s.
Proof.
  intros Hok. unfold createOutgoingPayment. wp_step.
  eapply wp_mono; [apply quoteIdOf_spec|]. intros [[quoteId|e]|e] s1 [Hdb Hn]; [|by wp_auto|done].
  apply wp_try_catch. eapply wp_mono; [apply createFromQuoteId_spec; by rewrite Hdb|].
  unfold created_payment. rewrite Hdb, Hn.
  intros [[p|e]|e] s2 [Hn2 Hs2]; [done|done|]. wp_auto; svc_done.
Qed.

(** ** The properties of single operations *)

(** C31. Creating an outgoing payment writes one payment or nothing.  If it returns a
    payment, exactly one row was added, under an identifier that was free, in state
    FUNDING with no attempts, for the requested owner and grant, with a quote made
    for its wallet address that had not expired; the limits of the grant hold for it
    together with the earlier payments of the grant; and exactly one event, that it
    was created, was written.  If it returns an error or throws, nothing was written. *)
Theorem createOutgoingPayment_effect options s r s' :
  Forall quote_ok (payments (db s)) ->
  createOutgoingPayment deps options s = (r, s') ->
  match r with
  | Ret (Ok p) => created_payment options s p s'
  | _ => db s' = db s
  end.
Proof.
  intros Hok Hm.
  exact (proj2 (wp_run _ _ _ _ _ (createOutgoingPayment_spec options s Hok) Hm)).
Qed.

(** A payment is funded once, in full, and by a deposit.  If [fund] returns a
    payment, the row was in state FUNDING for that tenant, the amount given was
    exactly its debit amount, the ledger accepted a deposit of it into the payment's
    account, and the row, and no other, is now in state SENDING.  If it returns an
    error or throws, no row changed, and an error of the ledger is what the deposit
    was refused with. *)
Theorem fundPayment_effect options s r s' :
  fundPayment deps options s = (r, s') ->
  match r with Ret r => funded options s r s' | Throw _ => db s' = db s end.
Proof. intros Hm. exact (proj2 (wp_run _ _ _ _ _ (fundPayment_spec options s) Hm)). Qed.

(** Only a payment that was not funded is cancelled.  If [cancel] returns a
    payment, the row was in state FUNDING for that tenant, and it, and no other, is
    now CANCELLED with the reasons in its metadata; otherwise nothing changed. *)
Theorem cancelOutgoingPayment_effect options s r s' :
  cancelOutgoingPayment deps options s = (r, s') ->
  match r with Ret r => cancelled options s r s' | Throw _ => db s' = db s end.
Proof. intros Hm. exact (proj2 (wp_run _ _ _ _ _ (cancelOutgoingPayment_spec options s) Hm)). Qed.
End Specs.

(** ** Example services for the witnesses

    A ledger of deposits and totals sent, one quote, and a payment method that
    sends what it is asked to. *)

Module Example.
#[local] Existing Instance ConcreteUuid.uuid.

(** What was deposited for a payment, and what it sent. *)
Definition Ledger : Type := gmap string (N * N).

Definition accounting : AccountingService Ledger :=
  {| createLiquidityAccount a _ := fun x =>
       match x !! account_id a with
       | Some _ => (Throw (JsError "AccountAlreadyExistsError" ""), x)
       | None => (Ret a, <[account_id a := (0%N, 0%N)]> x)
       end;
     createLiquidityAndLinkedSettlementAccount a _ := ret a;
     getBalance pid := gets (fun x => (fun '(d, n) => Z.of_N d - Z.of_N n) <$> x !! pid);
     getTotalSent pid := gets (fun x => (fun '(_, n) => Z.of_N n) <$> x !! pid);
     getAccountsTotalSent pids := ret ((fun _ => None) <$> pids);
     getTotalReceived _ := ret None; getAccountsTotalReceived pids := ret ((fun _ => None) <$> pids);
     getSettlementBalance _ := ret None; createTransfer _ := ret (Err UnknownSourceAccount);
     createDeposit d := fun x =>
       if deposit_amount d <=? 0 then (Ret (Some InvalidAmount), x)
       else (Ret None, <[account_id (deposit_account d) := (Z.to_N (deposit_amount d), 0%N)]> x);
     createWithdrawal _ := ret (Some UnknownSourceAccount);
     postWithdrawal _ := ret None; voidWithdrawal _ := ret None |}.

Definition receiver : Receiver :=
  {| r_assetCode := "USD"; r_assetScale := 2; r_isLocal := true;
     r_incomingPaymentId := "https://host/tenant/incoming-payments/invoice";
     r_completed := false; r_expiresAt := Some 5000; r_incomingAmountValue := Some 200;
     r_receivedAmountValue := 0;
     r_methods := [{| method_type := "ilp"; ilpAddress := "test.a"; sharedSecret := "" |}] |}.

Definition wallet : WalletAddress := Quote.Example.wallet.
Definition dollars : Asset := wa_asset wallet.

(** A quote to deliver 95 for 100 until 4000. *)
Definition quote (qid : string) : Quote :=
  {| Quote.q_id := qid; Quote.q_tenantId := "tenant"; Quote.q_walletAddressId := "w";
     Quote.q_walletAddress := None; Quote.q_client := None; Quote.q_assetId := "usd";
     Quote.q_asset := Some dollars; Quote.q_estimatedExchangeRate := of_bigint 1;
     Quote.q_feeId := None; Quote.q_fee := None; debitAmountMinusFees := Some 95;
     q_expiresAt := 4000; Quote.q_receiver := "https://host/invoice"; debitAmountValue := 100;
     receiveAmountValue := 95; Quote.receiveAmountAssetCode := "USD";
     Quote.receiveAmountAssetScale := 2; Quote.q_createdAt := 500 |}.

Definition method : PaymentMethodService Ledger OutgoingPayment :=
  {| getQuote _ := throw_error "not used";
     pay o := modify (fun x =>
       <[id (po_outgoingPayment o) := (100%N, Z.to_N (finalDebitAmount o))]> x) |}.

Definition deps : OutgoingDeps Ledger :=
  {| maxOutgoingPaymentRetryAttempts := 5;
     webhookConfig := {| Webhook.operatorTenantId := "operator";
       Webhook.sendTenantWebhooksToOperator := false; Webhook.posWebhookServiceUrl := None;
       Webhook.cardWebhookUrl := None; Webhook.webhookUrl := "https://host/hook";
       Webhook.webhookTimeout := 1000; Webhook.webhookMaxRetry := 10;
       Webhook.signatureSecret := None; Webhook.signatureVersion := 1 |};
     encryptDbData := None; accountingService := accounting;
     receiver_get _ := ret (Some receiver);
     paymentMethodHandlerService _ := method;
     walletAddress_get _ _ := ret (Some wallet);
     quote_create _ := throw_error "not used";
     quote_get o := ret (Some (quote (go_id o)));
     asset_get _ := ret (Some dollars); fee_get _ := ret None;
     asset_account a := {| asset_id := a_id a; asset_code := Some (a_code a); asset_scale := Some (a_scale a);
                           asset_ledger := a_ledger a; asset_onDebit := None |};
     getInterval _ _ := Ret None |}.

Definition empty : Svc OutgoingDb Ledger :=
  {| db := {| payments := []; outgoingPaymentGrants := [];
              outgoingWebhooks := {| events := []; Webhook.webhooks := [] |} |};
     now := 1000; Service.fresh := 7; ext := ∅ |}.

(** A grant to spend 150 dollar cents. *)
Definition limits : Limits :=
  {| l_receiver := None;
     l_debitAmount := Some {| value := 150; assetCode := "USD"; assetScale := 2 |};
     l_receiveAmount := None; l_interval := None |}.
Definition grant : Grant := {| grant_id := "g"; OutgoingPayment.limits := Some limits |}.

Definition create (qid : string) : CreateOutgoingPaymentOptions :=
  {| o_tenantId := "tenant"; o_walletAddressId := "w"; o_client := None;
     o_grant := Some grant; o_metadata := None; o_source := CreateFromQuote qid |}.
Definition fund (qid : string) : FundOutgoingPaymentOptions :=
  {| f_id := qid; f_tenantId := "tenant"; f_amount := 100; transferId := "t";
     f_dataToTransmit := None |}.
Definition cancel (qid : string) : CancelOutgoingPaymentOptions :=
  {| c_id := qid; c_tenantId := "tenant"; c_reason := Some "no"%string;
     c_cardPaymentFailureReason := None |}.

Definition created : Svc OutgoingDb Ledger := (createOutgoingPayment deps (create "q1") empty).2.
Definition funded : Svc OutgoingDb Ledger := (fundPayment deps (fund "q1") created).2.

(** The rows of the table: identifier, state, attempts. *)
Definition rows (s : Svc OutgoingDb Ledger) : list (string * OutgoingPaymentState * Z) :=
  (fun p => (id p, state p, stateAttempts p)) <$> payments (db s).

Lemma sent_nonneg pid x z x' :
  getTotalSent (accountingService deps) pid x = (Ret (Some z), x') -> 0 <= z.
Proof. simpl. unfold gets. destruct (x !! pid) as [[d n]|]; intros [= <- <-]; lia. Qed.

Lemma quotes_ok options x q x' :
  quote_get deps options x = (Ret (Some q), x') ->
  0 <= debitAmountValue q /\ 0 <= receiveAmountValue q.
Proof. simpl. by intros [= <- <-]. Qed.

Lemma rows_created : rows created = [("q1"%string, Funding, 0)].
Proof. by vm_compute. Qed.
Lemma rows_funded : rows funded = [("q1"%string, Sending, 0)].
Proof. by vm_compute. Qed.

(** A second payment would exceed the grant. *)
Lemma second_refused :
  (createOutgoingPayment deps (create "q2") created).1
  = Ret (Err OutgoingPaymentError.InsufficientGrant).
Proof. by vm_compute. Qed.
End Example.

#[local] Existing Instance ConcreteUuid.uuid.

Lemma createOutgoingPayment_effect_witness :
  exists p, createOutgoingPayment Example.deps (Example.create "q1") Example.empty
            = (Ret (Ok p), Example.created) /\
    created_payment Example.deps (Example.create "q1") Example.empty p Example.created.
Proof.
  eexists. split; [by vm_compute|].
  refine (createOutgoingPayment_effect Example.deps Example.sent_nonneg Example.quotes_ok
    (Example.create "q1") Example.empty (Ret (Ok _)) Example.created _ _); [constructor|by vm_compute].
Defined.

Lemma fundPayment_effect_witness :
  exists p, fundPayment Example.deps (Example.fund "q1") Example.created
            = (Ret (Ok p), Example.funded) /\
    funded Example.deps (Example.fund "q1") Example.created (Ok p) Example.funded.
Proof.
  eexists. split; [by vm_compute|].
  refine (fundPayment_effect Example.deps (Example.fund "q1") Example.created (Ret (Ok _))
    Example.funded _). by vm_compute.
Defined.

Lemma cancelOutgoingPayment_effect_witness :
  exists p s', cancelOutgoingPayment Example.deps (Example.cancel "q1") Example.created
               = (Ret (Ok p), s') /\ Example.rows s' = [("q1"%string, Cancelled, 0)] /\
    cancelled (Example.cancel "q1") Example.created (Ok p) s'.
Proof.
  eexists _, _. split; [by vm_compute|]. split; [by vm_compute|].
  refine (cancelOutgoingPayment_effect Example.deps (Example.cancel "q1") Example.created
    (Ret (Ok _)) _ _). by vm_compute.
Defined.
