(* ===== verification/OutgoingWorkerSpecs.v ===== *)
(** * OutgoingWorkerSpecs: what one run of the outgoing payments' worker does

    How a payment that is due is settled ([settles]): completed, retried, failed,
    or completed without its event; and that the payment method is called with
    amounts that what was quoted, and what was sent, allow. *)

From S2P Require Import Prelude Shared JsNumber Service OpenPayments PaymentMethod Accounting.
From S2P Require Quote Webhook.
From S2P Require Import OutgoingPayment OutgoingWorker OutgoingSpecs.
Import Quote (Quote, of_option, q_expiresAt, debitAmountValue, receiveAmountValue,
  debitAmountMinusFees, q_estimatedExchangeRate).
Import Webhook (events).

Local Open Scope Z_scope.
Local Open Scope ts_scope.

Section WorkerSpecs.
Context {X : Type} `{Uuid}.
Context (deps : OutgoingDeps X).
Context (pick : list OutgoingPayment -> option OutgoingPayment).

Notation OutgoingState := (Svc OutgoingDb X).
Notation Event := (Webhook.WebhookEvent PaymentData).
Implicit Types (s : OutgoingState) (p row : OutgoingPayment).

(** ** Rewriting one row, and writing events *)

Definition rewrites (pid : string) (F : OutgoingPayment -> OutgoingPayment) (evs : list Event)
    (d d' : OutgoingDb) : Prop :=
  payments d' = update_where (fun p => bool_decide (id p = pid)) F (payments d) /\
  events (outgoingWebhooks d') = events (outgoingWebhooks d) ++ evs.

Lemma rewrites_comp pid F G evs evs' d d' d'' :
  (forall p, id (F p) = id p) ->
  rewrites pid F evs d d' -> rewrites pid G evs' d' d'' ->
  rewrites pid (fun p => G (F p)) (evs ++ evs') d d''.
Proof.
  intros HF [Hp He] [Hp' He']. split.
  - rewrite Hp', Hp. unfold update_where. rewrite map_map. apply map_ext. intros p.
    destruct (bool_decide (id p = pid)) eqn:E; [by rewrite HF, E|by rewrite E].
  - by rewrite He', He, app_assoc.
Qed.

Lemma wp_patch_rewrites f p s :
  wp (patch f p)
    (fun r s' => now s' = now s /\ r = Ret (touch (now s) (f p)) /\
       rewrites (id p) (fun row => touch (now s) (f row)) [] (db s) (db s')) s.
Proof. apply wp_patch. split; [done|]. split; [done|]. split; [done|]. simpl. by rewrite app_nil_r. Qed.

Lemma emits_rewrites type pid d d' :
  emits type pid d d' ->
  exists e, event_for type pid e /\ forall q, rewrites q (fun p => p) [e] d d'.
Proof.
  intros (Hp & _ & e & He & Hfor). exists e. split; [done|]. intros q. split; [|done].
  rewrite Hp. unfold update_where. symmetry. rewrite <- (map_id (payments d)) at 2.
  apply map_ext. intros p. by destruct (bool_decide _).
Qed.

Lemma rewrites_emit pid F type pid' d d' d'' :
  (forall p, id (F p) = id p) ->
  rewrites pid F [] d d' -> emits type pid' d' d'' ->
  exists e, event_for type pid' e /\ rewrites pid F [e] d d''.
Proof.
  intros HF Hrw (e & Hfor & He)%emits_rewrites. exists e. split; [done|].
  exact (rewrites_comp pid F (fun p => p) [] [e] d d' d'' HF Hrw (He pid)).
Qed.

(** ** What becomes of a payment *)

Definition complete_row (n : Z) row : OutgoingPayment := touch n (set_state Completed row).
Definition retry_row (n attempts : Z) row : OutgoingPayment := touch n (set_stateAttempts attempts row).
Definition fail_row (n : Z) (msg : string) row : OutgoingPayment :=
  touch n (set_state Failed (set_columns (Some msg) (metadata row) (dataToTransmit row) row)).

Definition retries (attempts : Z) (e : exn) : bool :=
  (attempts + 1 <? maxOutgoingPaymentRetryAttempts deps) && isRetryableError e.

(** How the row is rewritten, and the events written, after sending settled to
    [tried] at the time [n]. *)
Inductive settles (n : Z) row (tried : outcome unit)
    : (OutgoingPayment -> OutgoingPayment) -> list Event -> Prop :=
| settles_completed e :
    tried = Ret tt -> event_for PaymentCompleted (id row) e ->
    settles n row tried (complete_row n) [e]
| settles_retried err :
    tried = Throw err -> retries (stateAttempts row) err = true ->
    settles n row tried (retry_row n (stateAttempts row + 1)) []
| settles_failed err e :
    tried = Throw err -> retries (stateAttempts row) err = false ->
    event_for PaymentFailed (id row) e ->
    settles n row tried (fail_row n (error_message err)) [e]
| settles_unannounced err :
    tried = Ret tt -> retries 0 err = true ->
    settles n row tried (fun p => retry_row n 1 (complete_row n p)) []
| settles_failed_unannounced err e :
    tried = Ret tt -> retries 0 err = false ->
    event_for PaymentFailed (id row) e ->
    settles n row tried (fun p => fail_row n (error_message err) (complete_row n p)) [e].

Lemma handleFailed_spec p msg s :
  wp (handleFailed deps p msg)
    (fun r s' => now s' = now s /\
       match r with
       | Ret _ => exists e, event_for PaymentFailed (id p) e /\
           rewrites (id p) (fail_row (now s) msg) [e] (db s) (db s')
       | Throw _ => True
       end) s.
Proof.
  unfold handleFailed. wp_step. eapply wp_mono; [apply wp_patch_rewrites|].
  intros ? s1 (Hn1 & -> & Hrw). eapply wp_mono; [apply sendWebhookEvent_spec|].
  intros [u|e] s2 [Hn2 Hs2]; split; try congruence; [|done].
  destruct Hs2 as [Hem _]. by eapply (rewrites_emit (id p)).
Qed.

Lemma onLifecycleError_spec p err s :
  wp (onLifecycleError deps p err)
    (fun r s' => now s' = now s /\
       match r with
       | Ret _ =>
           if retries (stateAttempts p) err
           then rewrites (id p) (retry_row (now s) (stateAttempts p + 1)) [] (db s) (db s')
           else exists e, event_for PaymentFailed (id p) e /\
                  rewrites (id p) (fail_row (now s) (error_message err)) [e] (db s) (db s')
       | Throw _ => True
       end) s.
Proof.
  unfold onLifecycleError, retries. destruct (_ && _).
  - wp_step. eapply wp_mono; [apply wp_patch_rewrites|]. intros ? s1 (Hn1 & -> & Hrw).
    by apply wp_ret.
  - apply handleFailed_spec.
Qed.

Lemma handleCompleted_spec p s :
  wp (handleCompleted deps p)
    (fun r s' => now s' = now s /\
       exists settled, r = Ret (complete_row (now s) p, settled) /\
       match settled with
       | Ret _ => exists e, event_for PaymentCompleted (id p) e /\
           rewrites (id p) (complete_row (now s)) [e] (db s) (db s')
       | Throw _ => rewrites (id p) (complete_row (now s)) [] (db s) (db s')
       end) s.
Proof.
  unfold handleCompleted. wp_step. eapply wp_mono; [apply wp_patch_rewrites|].
  intros ? s1 (Hn1 & -> & Hrw). apply wp_try_catch. wp_step.
  eapply wp_mono; [apply sendWebhookEvent_spec|].
  intros [u|e] s2 [Hn2 Hs2]; apply wp_ret; (split; [congruence|]); (eexists; split; [done|]).
  - destruct Hs2 as [Hem _]. by eapply (rewrites_emit (id p)).
  - by rewrite Hs2.
Qed.

Lemma validateAssets_spec p r s :
  wp (validateAssets p r) (fun _ s' => s' = s) s.
Proof. unfold validateAssets, throw_lifecycle. by wp_auto. Qed.

Lemma getAdjustedAmounts_spec p r sent s :
  wp (getAdjustedAmounts p r sent) (fun _ s' => s' = s) s.
Proof. unfold getAdjustedAmounts, of_option, bigint_of. by wp_auto. Qed.

Lemma payPayment_spec p r amounts s :
  wp (payPayment deps p r amounts) (fun _ s' => db s' = db s /\ now s' = now s) s.
Proof. unfold payPayment, throw_lifecycle. wp_auto; svc_done. Qed.

Lemma trySending_spec p s :
  wp (trySending deps p) (fun _ s' => db s' = db s /\ now s' = now s) s.
Proof.
  unfold trySending, throw_lifecycle. do 3 wp_step; [by wp_auto|].
  wp_step. apply wp_lift. intros [r|e] x Hr; svc_simpl; [|done].
  wp_step. apply wp_lift. intros [[sent|]|e] x' Hsent; svc_simpl; [|by wp_auto|done].
  destruct r as [r|]; [|by wp_auto]. destruct (negb _); [by wp_auto|].
  wp_step. eapply wp_mono; [apply validateAssets_spec|]. intros [u|e] ? ->; [|done].
  wp_step. eapply wp_mono; [apply getAdjustedAmounts_spec|]. intros [a|e] ? ->; [|done].
  wp_step; [by wp_auto|]. wp_step; [by wp_auto|].
  eapply wp_mono; [apply payPayment_spec|]. done.
Qed.

(** An instance of the row, with its related objects. *)
Definition instance_of row p : Prop :=
  exists w a, p = with_asset a (with_walletAddress w (fetched false row)).

Lemma instance_of_id row p :
  instance_of row p -> id p = id row /\ stateAttempts p = stateAttempts row /\ state p = state row.
Proof. intros (w & [a|] & ->); done. Qed.

(** The payment was settled by one attempt to send it. *)
Definition attempted s row s' : Prop :=
  exists p s1 s2 tried F evs,
    instance_of row p /\ db s1 = db s /\ now s1 = now s /\
    trySending deps p s1 = (tried, s2) /\
    settles (now s) row tried F evs /\ rewrites (id row) F evs (db s) (db s').

Lemma handlePaymentLifecycle_spec row s :
  state row = Sending ->
  wp (handlePaymentLifecycle deps (fetched false row))
    (fun r s' => now s' = now s /\
       match r with Ret _ => attempted s row s' | Throw _ => True end) s.
Proof.
  intros Hst. unfold handlePaymentLifecycle. change (state (fetched false row)) with (state row).
  rewrite Hst. wp_step. apply wp_lift. intros [w|e] x Hw; svc_simpl; [|done].
  wp_step. eapply wp_mono; [apply fetch_asset_spec|]. intros [p|e] s1 (Hdb1 & Hn1 & Hp); [|done].
  destruct Hp as (a & ->). set (p := with_asset a _).
  assert (instance_of row p) as Hinst by by exists w, a.
  destruct (instance_of_id _ _ Hinst) as (Hid & Hatt & _). clearbody p.
  svc_simpl. cbn [db now set_ext] in Hdb1, Hn1. unfold handleSending. do 4 wp_step.
  destruct (trySending deps p s1) as [tried s2] eqn:Htry.
  assert (db s2 = db s1 /\ now s2 = now s1) as [Hdb2 Hn2]
    by exact (wp_run _ _ _ _ _ (trySending_spec p s1) Htry).
  unfold attempted. rewrite <- Hdb1. rewrite <- Hn1.
  assert (forall F evs s', now s' = now s2 -> settles (now s1) row tried F evs ->
    rewrites (id row) F evs (db s1) (db s') -> now s' = now s1 /\ exists p s1' s2 tried F evs,
    instance_of row p /\ db s1' = db s1 /\ now s1' = now s1 /\
    trySending deps p s1' = (tried, s2) /\
    settles (now s1) row tried F evs /\ rewrites (id row) F evs (db s1) (db s')) as Hfinish
    by (intros F evs s' Hn' Hs Hr; split; [congruence|]; by exists p, s1, s2, tried, F, evs).
  unfold wp at 1. rewrite Htry. destruct tried as [[]|err]; cbn [fst snd].
  - wp_step. eapply wp_mono; [apply handleCompleted_spec|].
    intros ? s3 (Hn3 & settled & -> & Hs3). rewrite Hdb2, Hn2 in Hs3.
    destruct settled as [u|err].
    + destruct Hs3 as (e & Hfor & Hrw). apply wp_ret. rewrite Hid in *.
      eapply Hfinish; [done|by apply settles_completed|done].
    + eapply wp_mono; [apply onLifecycleError_spec|]. intros [u|e'] s4 [Hn4 Hs4]; [|split; [congruence|done]].
      change (stateAttempts (complete_row (now s2) p)) with 0 in Hs4.
      change (id (complete_row (now s2) p)) with (id p) in Hs4. rewrite Hid in *.
      rewrite Hn3, Hn2 in Hs4.
      destruct (retries 0 err) eqn:Hret.
      * eapply Hfinish; [congruence|by eapply settles_unannounced|].
        by eapply (rewrites_comp (id row) _ _ [] []).
      * destruct Hs4 as (e & Hfor & Hrw). eapply Hfinish; [congruence|by eapply settles_failed_unannounced|].
        by eapply (rewrites_comp (id row) _ _ [] [e]).
  - do 2 wp_step. eapply wp_mono; [apply onLifecycleError_spec|].
    intros [u|e'] s4 [Hn4 Hs4]; [|split; [congruence|done]].
    rewrite Hid, Hatt, Hdb2, Hn2 in Hs4. destruct (retries _ _) eqn:Hret.
    + eapply Hfinish; [congruence|by eapply settles_retried|done].
    + destruct Hs4 as (e & Hfor & Hrw). eapply Hfinish; [congruence|by eapply settles_failed|done].
Qed.

Lemma processPendingPayment_spec
    (pick_sound : forall l row, pick l = Some row -> row ∈ l) s :
  wp (processPendingPayment deps pick)
    (fun r s' => now s' = now s /\
       match r with
       | Ret (Some pid) => exists row, row ∈ payments (db s) /\ id row = pid /\
           pending (now s) row = true /\ attempted s row s'
       | _ => db s' = db s
       end) s.
Proof.
  unfold processPendingPayment, getPendingPayment. apply wp_transaction. do 6 wp_step.
  destruct (pick _) as [row|] eqn:Hpick; simpl; [|by apply wp_ret].
  apply pick_sound, elem_of_filter_bool in Hpick as [Hpend Hin].
  pose proof Hpend as Hst. unfold pending in Hst. zbool. wp_step.
  eapply wp_mono; [by apply handlePaymentLifecycle_spec|].
  intros [u|e] s' [Hn Hs]; [|done]. apply wp_ret. split; [done|]. by exists row.
Qed.

(** C30. One run of the worker settles at most one payment that is due, by one
    attempt to send it.  If the run returns an identifier, it is that of a payment in
    state SENDING whose back-off has passed, and its row, and no other, was rewritten
    as one of [settles] says: completed with its event after the attempt succeeded;
    or, after the attempt failed, kept for a retry when the error may be retried and
    attempts are left, and failed with the error's message and one event otherwise;
    or, when the attempt succeeded but its event could not be written, completed
    without an event.  If the run returns nothing or throws, no table changed. *)
Theorem processPendingPayment_settles
    (pick_sound : forall l row, pick l = Some row -> row ∈ l) s r s' :
  processPendingPayment deps pick s = (r, s') ->
  match r with
  | Ret (Some pid) => exists row, row ∈ payments (db s) /\ id row = pid /\
      pending (now s) row = true /\ attempted s row s'
  | _ => db s' = db s
  end.
Proof.
  intros Hm. exact (proj2 (wp_run _ _ _ _ _ (processPendingPayment_spec pick_sound s) Hm)).
Qed.

(** ** The amounts given to the payment method *)

(** What the payment method may be asked for, when [sent] was sent so far: never
    nothing; to deliver no more than what is left of the quoted amount and of what the
    receiver accepts; to debit, by ILP, no more than what is left of the quoted amount,
    and locally the quoted amount less the fees. *)
Definition pay_allowed p (sent : Z) (method : PaymentMethod) (o : PayOptions OutgoingPayment) : bool :=
  bool_decide (id (po_outgoingPayment o) = id p) &&
  (0 <? finalReceiveAmount o) &&
  match bigint_ceil (num_mul (of_bigint sent) (q_estimatedExchangeRate (quote p))) with
  | Some delivered => finalReceiveAmount o <=? receiveAmountValue (quote p) - delivered
  | None => false
  end &&
  match receiver_remaining (po_receiver o) with
  | Some remaining => finalReceiveAmount o <=? remaining
  | None => true
  end &&
  (0 <? finalDebitAmount o) &&
  match method with
  | ILP => finalDebitAmount o <=? debitAmountValue (quote p) - sent
  | LOCAL => bool_decide (debitAmountMinusFees (quote p) = Some (finalDebitAmount o))
  end.

(** The services, with a payment method that does [bad] when it is called for
    another payment, for another method or with amounts that are not allowed. *)
Definition guarded p (sent : Z) (bad : PaymentMethod -> PayOptions OutgoingPayment -> M X unit)
    : OutgoingDeps X :=
  {| maxOutgoingPaymentRetryAttempts := maxOutgoingPaymentRetryAttempts deps;
     webhookConfig := webhookConfig deps; encryptDbData := encryptDbData deps;
     accountingService := accountingService deps; receiver_get := receiver_get deps;
     paymentMethodHandlerService method :=
       {| getQuote := getQuote (paymentMethodHandlerService deps method);
          pay o := if pay_allowed p sent method o && eqb (r_isLocal (po_receiver o))
                        match method with LOCAL => true | ILP => false end
                   then pay (paymentMethodHandlerService deps method) o else bad method o |};
     walletAddress_get := walletAddress_get deps; quote_create := quote_create deps;
     quote_get := quote_get deps; asset_get := asset_get deps; fee_get := fee_get deps;
     asset_account := asset_account deps; getInterval := getInterval deps |}.

(** What the ledger answers when the worker asks for the amount sent. *)
Definition sent_so_far p s : option Z :=
  let '(_, x) := receiver_get deps (receiver p) (ext s) in
  match (getTotalSent (accountingService deps) (id p) x).1 with
  | Ret o => o
  | Throw _ => None
  end.

Lemma getAdjustedAmounts_value p r sent s :
  wp (getAdjustedAmounts p r sent)
    (fun res s' => s' = s /\
       match res with
       | Ret a => maxDebitAmount a = debitAmountValue (quote p) - sent /\
           (exists delivered, bigint_ceil (num_mul (of_bigint sent)
                (q_estimatedExchangeRate (quote p))) = Some delivered /\
              maxReceiveAmount a <= receiveAmountValue (quote p) - delivered) /\
           (forall m, receiver_remaining r = Some m -> maxReceiveAmount a <= m)
       | Throw _ => True
       end) s.
Proof.
  unfold getAdjustedAmounts, of_option, bigint_of.
  wp_step. destruct (debitAmount p) as [d|] eqn:Hd; [|by wp_auto].
  apply (debitAmount_with_asset None p) in Hd.
  wp_auto; (split; [done|]); try done. simpl. rewrite Hd. split; [done|].
  split; [eexists; split; [done|]|]; destruct (receiver_remaining r) as [m|] eqn:Em;
    try (intros ? [= <-]); try (destruct (_ <? _) eqn:E); zbool; simpl; try done; lia.
Qed.

Lemma payPayment_guarded p r sent bad amounts s :
  maxDebitAmount amounts = debitAmountValue (quote p) - sent ->
  (exists delivered, bigint_ceil (num_mul (of_bigint sent)
        (q_estimatedExchangeRate (quote p))) = Some delivered /\
     maxReceiveAmount amounts <= receiveAmountValue (quote p) - delivered) ->
  (forall m, receiver_remaining r = Some m -> maxReceiveAmount amounts <= m) ->
  0 < maxReceiveAmount amounts -> 0 < maxDebitAmount amounts ->
  payPayment (guarded p sent bad) p r amounts s = payPayment deps p r amounts s.
Proof.
  intros Hdebit (delivered & Hdel & Hrec) Hrem Hpos Hdpos. unfold payPayment.
  assert (match receiver_remaining r with
          | Some m => maxReceiveAmount amounts <=? m | None => true end = true) as Hremb.
  { destruct (receiver_remaining r) as [m|]; [|done]. apply Z.leb_le. by apply Hrem. }
  unfold lift, guarded, pay_allowed. simpl.
  destruct (r_isLocal r) eqn:Hlocal; simpl; rewrite bool_decide_eq_true_2 by done;
    rewrite Hdel, Hremb, (proj2 (Z.ltb_lt _ _) Hpos), (proj2 (Z.leb_le _ _) Hrec); simpl.
  - destruct (debitAmountMinusFees (quote p)) as [d|]; [|done].
    destruct (negb (truthy d)); [done|]. simpl. destruct (d <=? 0) eqn:E; [done|]. zbool.
    by rewrite (proj2 (Z.ltb_lt _ _) E), bool_decide_eq_true_2.
  - rewrite (proj2 (Z.ltb_lt _ _) Hdpos), (proj2 (Z.leb_le (maxDebitAmount amounts) _)) by lia. done.
Qed.

(** C25. The worker never asks a payment method for an amount that is not allowed:
    sending a payment does the same when the payment method is replaced by one that
    does anything else ([bad]) on a call for another payment, by the method that is
    not the receiver's, or for an amount that [pay_allowed] excludes.  Allowed is to
    deliver something, at most what the quote leaves of the receive amount after what
    was delivered and at most what the receiver still takes; and to debit something:
    by ILP at most what the quote leaves of the debit amount after what the ledger
    says was sent; locally exactly the quote's debit amount less its fees, however
    much was sent ([Example.local_debit_ignores_sent]). *)
Theorem trySending_pays_within_quote p s bad :
  trySending (guarded p (default 0 (sent_so_far p s)) bad) p s = trySending deps p s.
Proof.
  unfold trySending. apply bind_same. intros n s0 [= <- <-].
  destruct (_ <=? _); [done|]. apply bind_same. intros r s1 Hr.
  apply bind_same. intros [sent|] s2 Hsent; [|done].
  assert (default 0 (sent_so_far p s) = sent) as ->.
  { unfold sent_so_far. cbn [receiver_get guarded] in Hr. unfold lift in Hr, Hsent.
    destruct (receiver_get deps (receiver p) (ext s)) as [r' x]. simplify_eq/=.
    destruct (getTotalSent _ _ _) as [r' x']. by simplify_eq/=. }
  destruct r as [r|]; [|done]. destruct (negb _); [done|].
  apply bind_same. intros u s3 _. apply bind_same. intros a s4 Ha.
  destruct (wp_run _ _ _ _ _ (getAdjustedAmounts_value p r sent s3) Ha) as (-> & Hd & Hrec & Hrem).
  destruct (maxReceiveAmount a <=? 0) eqn:E1; [done|].
  destruct (maxDebitAmount a <=? 0) eqn:E2; [done|]. zbool. by apply payPayment_guarded.
Qed.
End WorkerSpecs.

(** ** Witnesses *)

Module Example.
#[local] Existing Instance ConcreteUuid.uuid.
Import OutgoingSpecs.Example.

Definition pick (l : list OutgoingPayment) : option OutgoingPayment := head l.

Lemma pick_sound l row : pick l = Some row -> row ∈ l.
Proof. destruct l; [done|]. intros [= ->]. left. Qed.

Definition sent : Svc OutgoingDb Ledger := (processPendingPayment deps pick funded).2.

(** The payment is completed, with events that it was created and completed. *)
Lemma rows_sent :
  rows sent = [("q1"%string, Completed, 0)] /\
  Webhook.ev_type <$> events (outgoingWebhooks (db sent))
  = ["outgoing_payment.created"; "outgoing_payment.completed"]%string.
Proof. by vm_compute. Qed.

(** A ledger that cannot be read any more once a payment has sent something. *)
Definition unreadable : AccountingService Ledger :=
  {| createLiquidityAccount := createLiquidityAccount accounting;
     createLiquidityAndLinkedSettlementAccount := createLiquidityAndLinkedSettlementAccount accounting;
     getBalance := getBalance accounting;
     getTotalSent pid := fun x =>
       match x !! pid with
       | Some (_, 0%N) => (Ret (Some 0), x)
       | _ => (Throw (JsError "Error" "connection lost"), x)
       end;
     getAccountsTotalSent := getAccountsTotalSent accounting;
     getTotalReceived := getTotalReceived accounting;
     getAccountsTotalReceived := getAccountsTotalReceived accounting;
     getSettlementBalance := getSettlementBalance accounting;
     createTransfer := createTransfer accounting; createDeposit := createDeposit accounting;
     createWithdrawal := createWithdrawal accounting; postWithdrawal := postWithdrawal accounting;
     voidWithdrawal := voidWithdrawal accounting |}.

Definition unreadable_deps : OutgoingDeps Ledger :=
  {| maxOutgoingPaymentRetryAttempts := maxOutgoingPaymentRetryAttempts deps;
     webhookConfig := webhookConfig deps; encryptDbData := encryptDbData deps;
     accountingService := unreadable; receiver_get := receiver_get deps;
     paymentMethodHandlerService := paymentMethodHandlerService deps;
     walletAddress_get := walletAddress_get deps; quote_create := quote_create deps;
     quote_get := quote_get deps; asset_get := asset_get deps; fee_get := fee_get deps;
     asset_account := asset_account deps; getInterval := getInterval deps |}.

(** The payment was sent, but the ledger cannot be read for its event: the error is
    caught after the row was patched, the retry only counts an attempt, and the
    transaction commits a completed payment that no event announces and that no
    later run picks up. *)
Lemma completed_unannounced :
  let s := (processPendingPayment unreadable_deps pick funded).2 in
  (processPendingPayment unreadable_deps pick funded).1 = Ret (Some "q1"%string) /\
  rows s = [("q1"%string, Completed, 1)] /\
  Webhook.ev_type <$> events (outgoingWebhooks (db s)) = ["outgoing_payment.created"%string] /\
  List.filter (pending 10000000) (payments (db s)) = [].
Proof. by vm_compute. Qed.

(** The ledger says that 50 were sent. *)
Definition resumed : Svc OutgoingDb Ledger :=
  {| db := db funded; now := now funded; Service.fresh := Service.fresh funded;
     ext := <["q1"%string := (100%N, 50%N)]> (ext funded) |}.

(** A local payment that is resumed: 50 are left to debit and 45 to deliver, and the payment
    method is asked to debit 95 (it writes in the ledger what it is asked). *)
Lemma local_debit_ignores_sent :
  (fun p => (getAdjustedAmounts (with_asset (Some dollars) p) receiver 50 resumed).1)
    <$> head (payments (db resumed))
  = Some (Ret {| maxDebitAmount := 50; maxReceiveAmount := 45 |}) /\
  (processPendingPayment deps pick resumed).1 = Ret (Some "q1"%string) /\
  ext (processPendingPayment deps pick resumed).2 !! "q1"%string = Some (100%N, 95%N).
Proof. by vm_compute. Qed.
End Example.

#[local] Existing Instance ConcreteUuid.uuid.

Lemma processPendingPayment_settles_witness :
  processPendingPayment OutgoingSpecs.Example.deps Example.pick OutgoingSpecs.Example.funded
    = (Ret (Some "q1"%string), Example.sent) /\
  exists row, row ∈ payments (db OutgoingSpecs.Example.funded) /\ id row = "q1"%string /\
    pending 1000 row = true /\
    attempted OutgoingSpecs.Example.deps OutgoingSpecs.Example.funded row Example.sent.
Proof.
  assert (processPendingPayment OutgoingSpecs.Example.deps Example.pick
    OutgoingSpecs.Example.funded = (Ret (Some "q1"%string), Example.sent)) as Hrun by (by vm_compute).
  split; [exact Hrun|].
  exact (processPendingPayment_settles OutgoingSpecs.Example.deps Example.pick
    Example.pick_sound _ _ _ Hrun).
Defined.
