(* ===== verification/OutgoingHistory.v ===== *)
(** * OutgoingHistory: outgoing payments over all histories of operations

    The operations of the service and of the worker as the steps of one machine
    ([step]), in any order and any number, whatever the other services answer and
    do in between.  Over all its histories: a payment keeps what it was created
    with and moves only along FUNDING, SENDING, COMPLETED or FAILED, or FUNDING,
    CANCELLED; retries are bounded; the payments of a grant stay within its limit. *)

From S2P Require Import Prelude Shared Service OpenPayments PaymentMethod Accounting.
From S2P Require Quote Webhook Limits.
Import Limits (Interval, i_start, i_end, Luxon, LuxonLaws).
From S2P Require Import OutgoingPayment OutgoingWorker OutgoingSpecs OutgoingWorkerSpecs.
Import Quote (Quote, debitAmountValue, receiveAmountValue).

Local Open Scope Z_scope.
Local Open Scope ts_scope.

(** What a payment keeps from its creation on. *)
Record core_eq (row row' : OutgoingPayment) : Prop := {
  core_id : id row' = id row;
  core_owner : tenantId row' = tenantId row /\ walletAddressId row' = walletAddressId row /\
    client row' = client row;
  core_grant : grantId row' = grantId row /\ initiatedBy row' = initiatedBy row;
  core_quote : quote row' = quote row;
  core_created : createdAt row' = createdAt row
}.

(** The moves of the state machine. *)
Inductive moves : OutgoingPaymentState -> OutgoingPaymentState -> Prop :=
| moves_fund : moves Funding Sending
| moves_cancel : moves Funding Cancelled
| moves_complete : moves Sending Completed
| moves_fail : moves Sending Failed.

(** What a state may become, in any number of moves. *)
Definition may_become (st st' : OutgoingPaymentState) : bool :=
  bool_decide (st = st') ||
  match st, st' with
  | Funding, _ => true
  | Sending, (Completed | Failed) => true
  | _, _ => false
  end.

Lemma may_become_refl st : may_become st st = true.
Proof. by destruct st. Qed.

Lemma may_become_trans a b c :
  may_become a b = true -> may_become b c = true -> may_become a c = true.
Proof. by destruct a, b, c. Qed.

Lemma moves_may_become a b : moves a b -> may_become a b = true.
Proof. by destruct 1. Qed.

Lemma core_eq_refl row : core_eq row row.
Proof. done. Qed.

Lemma core_eq_trans a b c : core_eq a b -> core_eq b c -> core_eq a c.
Proof.
  intros [? (? & ? & ?) [? ?] ? ?] [? (? & ? & ?) [? ?] ? ?]. split; try congruence.
  all: split_and?; congruence.
Qed.

Section History.
Context {X : Type} `{Uuid}.
Context (deps : OutgoingDeps X).
Context (pick : list OutgoingPayment -> option OutgoingPayment).
(** The creations the history may hold. *)
Context (allowed : CreateOutgoingPaymentOptions -> Prop).

Notation OutgoingState := (Svc OutgoingDb X).
Implicit Types (s : OutgoingState) (row : OutgoingPayment).

Inductive step : OutgoingState -> OutgoingState -> Prop :=
| step_create options s :
    allowed options -> step s (createOutgoingPayment deps options s).2
| step_cancel options s : step s (cancelOutgoingPayment deps options s).2
| step_fund options s : step s (fundPayment deps options s).2
| step_process s : step s (processPendingPayment deps pick s).2
| step_elapse s ms x :
    0 <= ms ->
    step s {| db := db s; now := now s + ms; Service.fresh := Service.fresh s; ext := x |}.

(** One step of a row. *)
Record evolves (row row' : OutgoingPayment) : Prop := {
  ev_core : core_eq row row';
  ev_moves : state row' = state row \/ moves (state row) (state row');
  ev_attempts : state row' = Sending ->
    row' = row \/ stateAttempts row' = 0 \/
    (state row = Sending /\ stateAttempts row' = stateAttempts row + 1 /\
     stateAttempts row' < maxOutgoingPaymentRetryAttempts deps)
}.

Lemma evolves_refl row : evolves row row.
Proof. split; auto using core_eq_refl. Qed.

(** The rows after a step: the old ones, evolved, and perhaps a new one. *)
Definition rows_step (n : Z) (rows rows' : list OutgoingPayment) : Prop :=
  exists F new, rows' = map F rows ++ new /\
    (forall row, row ∈ rows -> evolves row (F row)) /\
    (new = [] \/ exists options row, new = [row] /\ allowed options /\
       created_row options n row /\ id row ∉ (id <$> rows) /\
       forall g, o_grant options = Some g -> within_grant deps g row (rows ++ [row])).

Lemma rows_step_same n rows : rows_step n rows rows.
Proof.
  exists (fun row => row), []. rewrite map_id, app_nil_r. split_and!; auto using evolves_refl.
Qed.

Lemma rows_step_update n rows row F :
  NoDup (id <$> rows) -> row ∈ rows -> evolves row (F row) ->
  rows_step n rows (update_where (fun p => bool_decide (id p = id row)) F rows).
Proof.
  intros Hnd Hin Hev. eexists (fun p => if bool_decide (id p = id row) then F p else p), [].
  rewrite app_nil_r. split_and!; [done| |by left].
  intros p Hp. case_bool_decide as E; [|apply evolves_refl].
  by rewrite (unique_key id rows p row Hnd Hp Hin E).
Qed.

(** ** What is known of every state *)

Record wf s : Prop := {
  wf_ids : NoDup (id <$> payments (db s));
  wf_quotes : Forall quote_ok (payments (db s))
}.

Context (sent_nonneg : forall pid x z x',
  getTotalSent (accountingService deps) pid x = (Ret (Some z), x') -> 0 <= z).
Context (quotes_ok : forall options x q x',
  quote_get deps options x = (Ret (Some q), x') ->
  0 <= debitAmountValue q /\ 0 <= receiveAmountValue q).
Context (pick_sound : forall l row, pick l = Some row -> row ∈ l).

Lemma settles_evolves n row tried F evs :
  state row = Sending -> settles deps n row tried F evs -> evolves row (F row).
Proof.
  intros Hst Hs. destruct Hs; (split; [done|simpl; rewrite ?Hst; auto using moves|simpl; try done]).
  unfold retries in *. zbool. intros _. right. right. split_and!; [done..|]. simpl. lia.
Qed.

Lemma step_rows s s' :
  wf s -> step s s' -> rows_step (now s) (payments (db s)) (payments (db s')).
Proof.
  intros Hwf Hstep.
  destruct Hstep as [options s0 Hall|options s0|options s0|s0|s0 ms x Hms];
    destruct Hwf as [Hnd Hok].
  - pose proof (createOutgoingPayment_spec deps sent_nonneg quotes_ok options s0 Hok) as [_ Hs].
    destruct (createOutgoingPayment deps options s0) as [[[p|e]|e] s']; simpl in *;
      [|rewrite Hs; apply rows_step_same..].
    destruct Hs as (row & _ & _ & Hrow & Hfresh & Hrows & _ & _ & Hgrant & _).
    exists (fun row => row), [row]. rewrite map_id. split; [done|]. split; [auto using evolves_refl|].
    right. exists options, row. rewrite <- Hrows. done.
  - pose proof (cancelOutgoingPayment_spec deps options s0) as [_ Hs].
    destruct (cancelOutgoingPayment deps options s0) as [[[p|e]|e] s']; simpl in *;
      [|rewrite Hs; apply rows_step_same..].
    destruct Hs as (row & Hin & _ & _ & Hst & _ & _ & ->).
    apply rows_step_update; [done..|]. split; [done|simpl; rewrite Hst; auto using moves|done].
  - pose proof (fundPayment_spec deps options s0) as [_ Hs].
    destruct (fundPayment deps options s0) as [[[p|e]|e] s']; simpl in *.
    + destruct Hs as (row & a & x & x' & Hin & _ & _ & Hst & _ & _ & _ & _ & ->).
      apply rows_step_update; [done..|]. split; [done|simpl; rewrite Hst; auto using moves|auto].
    + assert (db s' = db s0) as -> by by destruct e as [|]; destruct_and?; try destruct Hs.
      apply rows_step_same.
    + rewrite Hs. apply rows_step_same.
  - pose proof (processPendingPayment_spec deps pick pick_sound s0) as [_ Hs].
    destruct (processPendingPayment deps pick s0) as [[[pid|]|e] s']; simpl in *;
      [|rewrite Hs; apply rows_step_same..].
    destruct Hs as (row & Hin & _ & Hpend & (p & s1 & s2 & tried & F & evs & _ & _ & _ & _ & Hs & [-> _])).
    apply rows_step_update; [done..|]. eapply settles_evolves; [|done].
    unfold pending in Hpend. by zbool.
  - apply rows_step_same.
Qed.

Lemma evolves_quote_ok row row' : evolves row row' -> quote_ok row -> quote_ok row'.
Proof. intros [[_ _ _ Hq _] _ _]. unfold quote_ok. by rewrite Hq. Qed.

Lemma step_wf s s' : wf s -> step s s' -> wf s'.
Proof.
  intros Hwf Hstep. destruct (step_rows s s' Hwf Hstep) as (F & new & Hrows & HF & Hnew).
  destruct Hwf as [Hnd Hok].
  assert (id <$> map F (payments (db s)) = id <$> payments (db s)) as Hids.
  { rewrite <- (list_fmap_compose F id). apply list_fmap_ext. intros i row Hrow.
    apply list_elem_of_lookup_2 in Hrow. simpl. apply core_id, ev_core, HF, Hrow. }
  assert (Forall quote_ok (map F (payments (db s)))) as HokF.
  { apply Forall_forall. intros row' (row & -> & Hin)%list_elem_of_fmap.
    rewrite Forall_forall in Hok. by apply (evolves_quote_ok row); auto. }
  split; rewrite Hrows.
  - rewrite fmap_app, Hids. destruct Hnew as [->|(o & row & -> & _ & _ & Hfresh & _)].
    + by rewrite app_nil_r.
    + apply NoDup_app. split_and!; [done| |apply NoDup_singleton]. set_solver.
  - apply Forall_app. split; [done|]. destruct Hnew as [->|(o & row & -> & _ & Hrow & _)]; [done|].
    constructor; [apply Hrow|done].
Qed.

(** ** The state machine *)

(** C5. The state machine of an outgoing payment: whatever operations run, in
    whatever order, a payment that exists stays, keeps its identifier, owner, grant,
    quote and creation date, and its state is only what the state machine lets it
    become: a payment that was completed, has failed or was cancelled stays so. *)
Theorem outgoing_payment_state_machine s s' row :
  wf s -> rtc step s s' -> row ∈ payments (db s) ->
  exists row', row' ∈ payments (db s') /\ core_eq row row' /\
    may_become (state row) (state row') = true.
Proof.
  intros Hwf Hsteps. revert row. induction Hsteps as [s|s s1 s2 Hstep Hsteps IH]; intros row Hin.
  { exists row. auto using core_eq_refl, may_become_refl. }
  destruct (step_rows s s1 Hwf Hstep) as (F & new & Hrows & HF & _).
  destruct (HF row Hin) as [Hcore Hmoves _].
  destruct (IH (step_wf s s1 Hwf Hstep) (F row)) as (row' & Hin' & Hcore' & Hbecome).
  { rewrite Hrows. apply elem_of_app. left. by apply list_elem_of_fmap_2. }
  exists row'. split_and!; [done|by eapply core_eq_trans|].
  eapply may_become_trans; [|done].
  destruct Hmoves as [->|Hm]; [apply may_become_refl|by apply moves_may_become].
Qed.

(** ** Retries *)

Definition attempts_bounded row : Prop :=
  state row = Sending ->
  0 <= stateAttempts row < maxOutgoingPaymentRetryAttempts deps.

(** Retries are bounded: when at least one attempt is configured, every payment
    that is being sent, in every state the service and the worker can reach from an
    empty table, has made fewer attempts than the configured maximum. *)
Theorem sending_attempts_bounded s s' row :
  0 < maxOutgoingPaymentRetryAttempts deps ->
  payments (db s) = [] -> rtc step s s' -> row ∈ payments (db s') ->
  state row = Sending -> 0 <= stateAttempts row < maxOutgoingPaymentRetryAttempts deps.
Proof.
  intros Hmax Hempty Hsteps.
  enough (Forall attempts_bounded (payments (db s'))) as Hall
    by (rewrite Forall_forall in Hall; intros Hin; by apply Hall).
  assert (wf s) as Hwf by (split; rewrite Hempty; constructor).
  assert (Forall attempts_bounded (payments (db s))) as Hs by by rewrite Hempty.
  clear Hempty. induction Hsteps as [s|s s1 s2 Hstep Hsteps IH]; [done|].
  apply IH; [by eapply step_wf|].
  destruct (step_rows s s1 Hwf Hstep) as (F & new & -> & HF & Hnew). apply Forall_app. split.
  - apply Forall_forall. intros p (q & -> & Hin)%list_elem_of_fmap Hst.
    rewrite Forall_forall in Hs. specialize (Hs q Hin). unfold attempts_bounded in Hs.
    destruct (HF q Hin) as [_ _ Hatt]. destruct (Hatt Hst) as [E|[E|(Hq & E & Hlt)]].
    + rewrite E in *. by apply Hs.
    + lia.
    + specialize (Hs Hq). lia.
  - destruct Hnew as [->|(o & p & -> & _ & [[Hst _] _ _ _ _] & _)]; [done|].
    constructor; [|done]. unfold attempts_bounded. by rewrite Hst.
Qed.

(** ** Grants *)

Definition in_interval (i : Interval) (t : Z) : bool :=
  match i_start i, i_end i with
  | Some st, Some en => (st <=? t) && (t <? en)
  | _, _ => false
  end.

(** What [Limits.getInterval] finds, when it returns, is what the service gets. *)
Context (luxon : Luxon) (luxon_laws : LuxonLaws luxon).
Context (interval_found : forall interval t i, getInterval deps interval t = Ret (Some i) ->
  exists fuel, Limits.getInterval luxon fuel interval t = Some (Ret (Some i))).

(** A date in the period found for another date has that period too. *)
Lemma interval_stable interval t t' i i' :
  getInterval deps interval t = Ret (Some i) -> getInterval deps interval t' = Ret (Some i') ->
  in_interval i t' = true -> i = i'.
Proof.
  intros (fuel & Hi)%interval_found (fuel' & Hi')%interval_found Hin.
  refine (Limits.getInterval_same luxon luxon_laws _ _ _ _ _ _ _ Hi Hi' _).
  apply (Limits.contains_bounds _ luxon_laws). unfold in_interval in Hin.
  destruct (i_start i) as [st|], (i_end i) as [en|]; try done. zbool. by exists st, en.
Qed.

(** A period of the limits: the limits, in one of the periods of their interval. *)
Definition period_of (l : Limits) (pl : PaymentLimits) : Prop :=
  pl_limits pl = l /\
  match paymentInterval pl with
  | None => truthy (l_interval l) = false
  | Some i => exists interval t, l_interval l = Some interval /\ truthy interval = true /\
      getInterval deps interval t = Ret (Some i)
  end.

(** The payments of the grant that count in the period. *)
Definition spends (pl : PaymentLimits) (gid : string) row : bool :=
  bool_decide (grantId row = Some gid) && counts pl row.

Lemma period_of_unique l pl pl' row :
  period_of l pl -> applies deps l row pl' ->
  validatePaymentInterval pl row = true -> pl = pl'.
Proof.
  intros [Hl Hpl] [Hl' Hpl'] Hval. destruct pl as [l1 o1], pl' as [l2 o2]; simpl in *.
  subst l1 l2. f_equal. unfold validatePaymentInterval in Hval. simpl in Hval.
  destruct o1 as [i1|], o2 as [i2|]; [| | |done].
  - destruct Hpl as (interval & t & Hi & Htr & Ht), Hpl' as (interval' & Hi' & _ & Ht'). simplify_eq.
    f_equal. by eapply interval_stable.
  - destruct Hpl as (interval & t & Hi & Htr & Ht). rewrite Hi in Hpl'.
    assert (truthy (Some interval) = truthy interval) by done. congruence.
  - destruct Hpl' as (interval & Hi & Htr & Ht). rewrite Hi in Hpl.
    assert (truthy (Some interval) = truthy interval) by done. congruence.
Qed.

Lemma evolves_sum (f : OutgoingPayment -> Z) pl gid rows F :
  (forall p p', quote p' = quote p -> f p' = f p) ->
  (forall row, row ∈ rows -> 0 <= f row) ->
  (forall row, row ∈ rows -> evolves row (F row)) ->
  sum_where (spends pl gid) f (map F rows) <= sum_where (spends pl gid) f rows.
Proof.
  intros Hf Hpos HF. induction rows as [|row rows IH]; [done|]. cbn [map].
  rewrite !sum_where_cons.
  assert (sum_where (spends pl gid) f (map F rows) <= sum_where (spends pl gid) f rows)
    by (apply IH; intros; [apply Hpos|apply HF]; set_solver).
  destruct (HF row ltac:(set_solver)) as [[_ _ [Hg _] Hq Hc] Hm _].
  specialize (Hpos row ltac:(set_solver)). rewrite (Hf row (F row) Hq).
  assert (spends pl gid (F row) = true -> spends pl gid row = true) as Hspends.
  { unfold spends, counts, validatePaymentInterval. rewrite Hg, Hc.
    rewrite !andb_true_iff, !negb_true_iff. intros (? & ? & Hfail). split_and!; [done..|].
    unfold failed in *. destruct Hm as [Em|Hm]; [by rewrite <- Em|].
    destruct Hm; done. }
  destruct (spends pl gid (F row)), (spends pl gid row); try lia; by specialize (Hspends eq_refl).
Qed.

Lemma created_sum (f : OutgoingPayment -> Z) pl gid rows row bound :
  id row ∉ (id <$> rows) ->
  sum_where (in_force pl gid (id row)) f (rows ++ [row]) + f row <= bound ->
  sum_where (spends pl gid) f rows + f row <= bound.
Proof.
  intros Hfresh. rewrite sum_where_app. simpl.
  assert (in_force pl gid (id row) row = false) as ->.
  { unfold in_force. rewrite (bool_decide_eq_true_2 (id row = id row)) by done.
    by destruct (bool_decide _). }
  assert (sum_where (in_force pl gid (id row)) f rows = sum_where (spends pl gid) f rows) as ->; [|lia].
  apply sum_where_ext. intros p Hp. unfold in_force, spends.
  rewrite (bool_decide_eq_false_2 (id p = id row)).
  - by destruct (bool_decide (grantId p = Some gid)).
  - intros E. apply Hfresh. rewrite <- E. by apply list_elem_of_fmap_2.
Qed.

(** The creations of the history that use the grant, use it with these limits. *)
Definition grant_is (gid : string) (l : Limits) : Prop :=
  forall options g, allowed options -> o_grant options = Some g -> grant_id g = gid ->
    limits g = Some l.

Lemma grant_step (f : OutgoingPayment -> Z) gid l pl bound s s' :
  (forall p p', quote p' = quote p -> f p' = f p) -> (forall row, quote_ok row -> 0 <= f row) ->
  (forall g row rows, within_grant deps g row rows -> limits g = Some l ->
     exists pl', applies deps l row pl' /\
       sum_where (in_force pl' (grant_id g) (id row)) f rows + f row <= bound) ->
  grant_is gid l -> period_of l pl ->
  wf s -> step s s' ->
  sum_where (spends pl gid) f (payments (db s)) <= Z.max 0 bound ->
  sum_where (spends pl gid) f (payments (db s')) <= Z.max 0 bound.
Proof.
  intros Hf Hpos Hwithin Hgrant Hpl Hwf Hstep Hs.
  destruct (step_rows s s' Hwf Hstep) as (F & new & -> & HF & Hnew).
  assert (sum_where (spends pl gid) f (map F (payments (db s)))
          <= sum_where (spends pl gid) f (payments (db s))) as Hle.
  { apply evolves_sum; [done| |done]. intros row Hin. apply Hpos.
    destruct Hwf as [_ Hok]. rewrite Forall_forall in Hok. by apply Hok. }
  rewrite sum_where_app.
  destruct Hnew as [->|(options & row & -> & Hall & [[Hst _] _ Hg Hq _] & Hfresh & Hw)]; simpl; [lia|].
  destruct (spends pl gid row) eqn:Hspends; [|lia].
  unfold spends, counts in Hspends. zbool.
  destruct (o_grant options) as [g|] eqn:Ho; simpl in Hg; [|congruence].
  assert (grant_id g = gid) as <- by congruence.
  specialize (Hgrant _ _ Hall Ho eq_refl).
  destruct (Hwithin g row _ (Hw g eq_refl) Hgrant) as (pl' & Happ & Hbound).
  assert (pl = pl') as <- by by eapply period_of_unique.
  apply created_sum in Hbound; [lia|done].
Qed.

Lemma grant_history (f : OutgoingPayment -> Z) gid l pl bound s s' :
  (forall p p', quote p' = quote p -> f p' = f p) -> (forall row, quote_ok row -> 0 <= f row) ->
  (forall g row rows, within_grant deps g row rows -> limits g = Some l ->
     exists pl', applies deps l row pl' /\
       sum_where (in_force pl' (grant_id g) (id row)) f rows + f row <= bound) ->
  grant_is gid l -> period_of l pl ->
  payments (db s) = [] -> rtc step s s' ->
  sum_where (spends pl gid) f (payments (db s')) <= Z.max 0 bound.
Proof.
  intros Hf Hpos Hwithin Hgrant Hpl Hempty Hsteps.
  assert (wf s) as Hwf by (split; rewrite Hempty; constructor).
  assert (sum_where (spends pl gid) f (payments (db s)) <= Z.max 0 bound) as Hs
    by (rewrite Hempty; simpl; lia).
  clear Hempty. induction Hsteps as [s|s s1 s2 Hstep Hsteps IH]; [done|].
  apply IH; [by eapply step_wf|by eapply grant_step].
Qed.

(** C2. The payments made with a grant stay within its limit.  When every creation
    that uses the grant uses it with the limits [l], then in every state that any
    sequence of creations, cancellations, fundings and worker runs can reach from
    an empty table, the payments of the grant that are not failed or cancelled debit
    at most the grant's debit amount and deliver at most its receive amount; if the
    limits have a repeating interval, they do so in each of its periods. *)
Theorem grant_limit_respected gid l pl s s' :
  grant_is gid l -> period_of l pl ->
  payments (db s) = [] -> rtc step s s' ->
  (forall d, l_debitAmount l = Some d ->
     sum_where (spends pl gid) debit_of (payments (db s')) <= Z.max 0 (value d)) /\
  (forall r, l_receiveAmount l = Some r ->
     sum_where (spends pl gid) receive_of (payments (db s')) <= Z.max 0 (value r)).
Proof.
  intros Hgrant Hpl Hempty Hsteps.
  split; intros a Ha; (apply (grant_history _ gid l pl) with (s := s); try done).
  - intros p p'. unfold debit_of. by intros ->.
  - intros row [Hd _]. done.
  - intros g row rows Hw Hg. destruct (Hw l Hg) as (pl' & Happ & _ & Hd & _). eauto.
  - intros p p'. unfold receive_of. by intros ->.
  - intros row [_ Hr]. done.
  - intros g row rows Hw Hg. destruct (Hw l Hg) as (pl' & Happ & _ & _ & Hr). eauto.
Qed.
End History.

(** ** Witnesses *)

#[local] Existing Instance ConcreteUuid.uuid.

Module Example.
Import OutgoingSpecs.Example.

(** Only creations with the example's grant. *)
Definition allowed (options : CreateOutgoingPaymentOptions) : Prop := o_grant options = Some grant.

Notation example_step := (step deps OutgoingWorkerSpecs.Example.pick allowed).

(** Create, fund, send. *)
Lemma step_created : example_step empty created.
Proof. exact (step_create deps OutgoingWorkerSpecs.Example.pick allowed (create "q1") empty eq_refl). Qed.
Lemma step_funded : example_step created funded.
Proof. exact (step_fund deps OutgoingWorkerSpecs.Example.pick allowed (fund "q1") created). Qed.
Lemma step_sent : example_step funded OutgoingWorkerSpecs.Example.sent.
Proof. exact (step_process deps OutgoingWorkerSpecs.Example.pick allowed funded). Qed.

Lemma history_funded : rtc example_step empty funded.
Proof. exact (rtc_l _ _ _ _ step_created (rtc_once _ _ step_funded)). Qed.

Lemma sending : rtc example_step funded OutgoingWorkerSpecs.Example.sent.
Proof. exact (rtc_once _ _ step_sent). Qed.

Lemma history : rtc example_step empty OutgoingWorkerSpecs.Example.sent.
Proof. exact (transitivity history_funded sending). Qed.

Lemma wf_funded : wf funded.
Proof.
  assert (wf empty) as Hwf by (split; [apply NoDup_nil_2|apply Forall_nil_2]).
  pose proof history_funded as Hs. revert Hwf. induction Hs as [|s s1 s2 Hstep _ IH]; [done|].
  intros Hwf. apply IH. exact (step_wf deps _ allowed sent_nonneg quotes_ok
    OutgoingWorkerSpecs.Example.pick_sound s s1 Hwf Hstep).
Qed.

Definition no_payment : OutgoingPayment :=
  {| id := ""; tenantId := ""; walletAddressId := ""; walletAddress := None; client := None;
     metadata := None; state := Cancelled; error := None; stateAttempts := 0; grantId := None;
     initiatedBy := Admin; OutgoingPayment.quote := quote ""; cardDetails := None; dataToTransmit := None;
     sentAmountValue := None; grantSpentDebitAmountValue := None;
     grantSpentReceiveAmountValue := None; createdAt := 0; updatedAt := 0 |}.

(** The row of the payment, once funded. *)
Definition row : OutgoingPayment := hd no_payment (payments (db funded)).

Lemma row_in : row ∈ payments (db funded).
Proof. left. Qed.

Definition period : PaymentLimits := {| pl_limits := limits; paymentInterval := None |}.
End Example.

Lemma outgoing_payment_state_machine_witness :
  exists row', row' ∈ payments (db OutgoingWorkerSpecs.Example.sent) /\
    core_eq Example.row row' /\ may_become (state Example.row) (state row') = true.
Proof.
  exact (outgoing_payment_state_machine _ _ _ OutgoingSpecs.Example.sent_nonneg
    OutgoingSpecs.Example.quotes_ok OutgoingWorkerSpecs.Example.pick_sound _ _ _
    Example.wf_funded Example.sending Example.row_in).
Defined.

Lemma sending_attempts_bounded_witness :
  state Example.row = Sending /\ 0 <= stateAttempts Example.row < 5.
Proof.
  split; [by vm_compute|].
  exact (sending_attempts_bounded _ _ _ OutgoingSpecs.Example.sent_nonneg
    OutgoingSpecs.Example.quotes_ok OutgoingWorkerSpecs.Example.pick_sound
    OutgoingSpecs.Example.empty OutgoingSpecs.Example.funded Example.row
    ltac:(by vm_compute) eq_refl Example.history_funded Example.row_in ltac:(by vm_compute)).
Defined.

Lemma grant_limit_respected_witness :
  sum_where (spends Example.period "g") debit_of (payments (db OutgoingWorkerSpecs.Example.sent)) = 100 /\
  sum_where (spends Example.period "g") debit_of (payments (db OutgoingWorkerSpecs.Example.sent))
  <= Z.max 0 150.
Proof.
  split; [by vm_compute|].
  assert (grant_is Example.allowed "g" OutgoingSpecs.Example.limits) as Hgrant
    by (intros options g Hall Ho _; unfold Example.allowed in Hall; by simplify_eq).
  assert (forall interval t i, getInterval OutgoingSpecs.Example.deps interval t = Ret (Some i) ->
    exists fuel, Limits.getInterval Limits.Example.luxon fuel interval t = Some (Ret (Some i)))
    as Hfound by (intros interval t i [=]).
  exact (proj1 (grant_limit_respected _ _ _ OutgoingSpecs.Example.sent_nonneg
    OutgoingSpecs.Example.quotes_ok OutgoingWorkerSpecs.Example.pick_sound
    Limits.Example.luxon Limits.Example.laws Hfound "g" OutgoingSpecs.Example.limits Example.period OutgoingSpecs.Example.empty _
    Hgrant (conj eq_refl eq_refl) eq_refl Example.history) _ eq_refl).
Defined.
