(* ===== verification/IncomingPayment.v ===== *)
(** * IncomingPayment: incoming payments

    Models [open_payments/payment/incoming/model.ts], [errors.ts], [types.ts] and
    [service.ts], and [poll] of [shared/utils.ts].  The state is the tables of
    payments and webhook events over the state [X] of the other services.  Deleting
    a payment deletes its events and their webhooks ([ON DELETE CASCADE]).  While a
    creation polls for its approval, [sleep] is what everything else does. *)

From S2P Require Import Prelude Shared Service OpenPayments Accounting.
From S2P Require Pagination Webhook.
Import Webhook (HasWebhooks, WebhookDb, WebhookConfig, insertGraph, finalizeWebhookRecipients).

Local Open Scope Z_scope.
Local Open Scope ts_scope.

(** ** Errors and data *)

Module IncomingPaymentError.
Inductive t :=
| UnknownWalletAddress
| InvalidAmount
| UnknownPayment
| InvalidState
| InvalidExpiry
| WrongState
| InactiveWalletAddress
| ActionNotPerformed
| AlreadyActioned.
End IncomingPaymentError.

Definition TypeError : exn := JsError "TypeError" "".

Inductive IncomingPaymentState := Pending | Processing | Completed | Expired.

#[global] Instance IncomingPaymentState_eq_dec : EqDecision IncomingPaymentState.
Proof. solve_decision. Defined.

Inductive IncomingPaymentInitiationReason := Card | OpenPayments | Admin.

Definition IncomingPaymentInitiationReason_value (r : IncomingPaymentInitiationReason) : string :=
  match r with Card => "CARD" | OpenPayments => "OPEN_PAYMENTS" | Admin => "ADMIN" end.

Inductive IncomingPaymentEventType :=
| IncomingPaymentCreated | IncomingPaymentExpired | IncomingPaymentCompleted.

Definition IncomingPaymentEventType_value (t : IncomingPaymentEventType) : string :=
  match t with
  | IncomingPaymentCreated => "incoming_payment.created"
  | IncomingPaymentExpired => "incoming_payment.expired"
  | IncomingPaymentCompleted => "incoming_payment.completed"
  end.

Record IncomingPayment := {
  id : string;
  tenantId : string;
  walletAddressId : string;
  walletAddress : option WalletAddress;
  client : option string;
  expiresAt : Z;
  state : IncomingPaymentState;
  metadata : option (gmap string Json);
  processAt : option Z;
  approvedAt : option Z;
  cancelledAt : option Z;
  initiatedBy : IncomingPaymentInitiationReason;
  assetId : string;
  asset : option Asset;
  incomingAmountValue : option Z;
  receivedAmountValue : option Z;
  senderWalletAddress : option string;
  createdAt : Z;
  updatedAt : Z
}.

#[global] Instance IncomingPayment_model : Pagination.BaseModel IncomingPayment :=
  { Pagination.id := id; Pagination.createdAt := createdAt }.

(** The columns a patch may set, with [updatedAt]. *)
Definition with_columns (tenant : string) (st : IncomingPaymentState)
    (md : option (gmap string Json)) (process approved cancelled : option Z) (now : Z)
    (p : IncomingPayment) : IncomingPayment :=
  {| id := id p; tenantId := tenant; walletAddressId := walletAddressId p;
     walletAddress := walletAddress p; client := client p; expiresAt := expiresAt p; state := st;
     metadata := md; processAt := process; approvedAt := approved; cancelledAt := cancelled;
     initiatedBy := initiatedBy p; assetId := assetId p; asset := asset p;
     incomingAmountValue := incomingAmountValue p; receivedAmountValue := receivedAmountValue p;
     senderWalletAddress := senderWalletAddress p; createdAt := createdAt p; updatedAt := now |}.

Definition set_state (st : IncomingPaymentState) (process : option Z) (now : Z)
    (p : IncomingPayment) : IncomingPayment :=
  with_columns (tenantId p) st (metadata p) process (approvedAt p) (cancelledAt p) now p.
Definition set_processAt (process : option Z) (now : Z) (p : IncomingPayment) : IncomingPayment :=
  set_state (state p) process now p.
Definition set_approvedAt (t : option Z) (now : Z) (p : IncomingPayment) : IncomingPayment :=
  with_columns (tenantId p) (state p) (metadata p) (processAt p) t (cancelledAt p) now p.
Definition set_cancelledAt (t : option Z) (now : Z) (p : IncomingPayment) : IncomingPayment :=
  with_columns (tenantId p) (state p) (metadata p) (processAt p) (approvedAt p) t now p.

(** What is attached to an instance and not stored. *)
Definition attach (a : option Asset) (w : option WalletAddress) (received : option Z)
    (p : IncomingPayment) : IncomingPayment :=
  {| id := id p; tenantId := tenantId p; walletAddressId := walletAddressId p;
     walletAddress := w; client := client p; expiresAt := expiresAt p; state := state p;
     metadata := metadata p; processAt := processAt p; approvedAt := approvedAt p;
     cancelledAt := cancelledAt p; initiatedBy := initiatedBy p; assetId := assetId p; asset := a;
     incomingAmountValue := incomingAmountValue p; receivedAmountValue := received;
     senderWalletAddress := senderWalletAddress p; createdAt := createdAt p;
     updatedAt := updatedAt p |}.

(** An instance as a query returns it. *)
Definition fetched (p : IncomingPayment) : IncomingPayment := attach None None None p.

Definition completed (p : IncomingPayment) : bool := bool_decide (state p = Completed).

Definition isExpiredOrComplete (p : IncomingPayment) : bool :=
  bool_decide (state p = Expired) || bool_decide (state p = Completed).

Definition amount_of (v : Z) (a : Asset) : Amount :=
  {| value := v; assetCode := a_code a; assetScale := a_scale a |}.

(** [payment.asset], which throws when a property of it is read and it is missing. *)
Definition the_asset {S} (p : IncomingPayment) : M S Asset :=
  match asset p with Some a => ret a | None => throw TypeError end.

(** [get incomingAmount] *)
Definition incomingAmount {S} (p : IncomingPayment) : M S (option Amount) :=
  match incomingAmountValue p with
  | Some v => if truthy v then let! a := the_asset p in ret (Some (amount_of v a)) else ret None
  | None => ret None
  end.

(** The data of a webhook event; amounts are kept as numbers. *)
Record IncomingPaymentData := {
  pd_id : string;
  pd_walletAddressId : string;
  pd_client : option string;
  pd_createdAt : Z;
  pd_expiresAt : Z;
  pd_incomingAmount : option Amount;
  pd_receivedAmount : Amount;
  pd_completed : bool;
  pd_metadata : option (gmap string Json);
  pd_approvedAt : option Z;
  pd_cancelledAt : option Z
}.

Definition toData {S} (amountReceived : Z) (p : IncomingPayment) : M S IncomingPaymentData :=
  let! a := the_asset p in
  let! incoming := incomingAmount p in
  ret {| pd_id := id p; pd_walletAddressId := walletAddressId p; pd_client := client p;
         pd_createdAt := createdAt p; pd_expiresAt := expiresAt p; pd_incomingAmount := incoming;
         pd_receivedAmount := amount_of amountReceived a; pd_completed := completed p;
         pd_metadata := metadata p; pd_approvedAt := approvedAt p;
         pd_cancelledAt := cancelledAt p |}.

Record IncomingDb := {
  payments : list IncomingPayment;
  incomingWebhooks : WebhookDb IncomingPaymentData
}.

Definition set_payments (l : list IncomingPayment) (d : IncomingDb) : IncomingDb :=
  {| payments := l; incomingWebhooks := incomingWebhooks d |}.

#[global] Instance IncomingDb_webhooks : HasWebhooks IncomingPaymentData IncomingDb := {
  Webhook.webhookDb := incomingWebhooks;
  Webhook.set_webhookDb w d := {| payments := payments d; incomingWebhooks := w |}
}.

(** [DELETE FROM incomingPayments WHERE id], with what refers to the payment. *)
Definition delete_row (pid : string) (d : IncomingDb) : IncomingDb :=
  let w := incomingWebhooks d in
  let kept e := negb (bool_decide (Webhook.incomingPaymentId e = Some pid)) in
  let events := List.filter kept (Webhook.events w) in
  {| payments := List.filter (fun p => negb (bool_decide (id p = pid))) (payments d);
     incomingWebhooks :=
       {| Webhook.events := events;
          Webhook.webhooks := List.filter
            (fun h => bool_decide (Webhook.eventId h ∈ (Webhook.ev_id <$> events)))
            (Webhook.webhooks w) |} |}.

(** ** The services it depends on *)

Record IncomingDeps (X : Type) := {
  incomingPaymentExpiryMaxMs : Z;
  pollIncomingPaymentCreatedWebhook : bool;
  incomingPaymentCreatedPollFrequency : Z;
  incomingPaymentCreatedPollTimeout : Z;
  webhookConfig : WebhookConfig;
  accountingService : AccountingService X;
  walletAddress_get : string -> option string -> M X (option WalletAddress);
  asset_get : string -> M X (option Asset)
}.
Arguments incomingPaymentExpiryMaxMs {X}. Arguments pollIncomingPaymentCreatedWebhook {X}.
Arguments incomingPaymentCreatedPollFrequency {X}.
Arguments incomingPaymentCreatedPollTimeout {X}. Arguments webhookConfig {X}.
Arguments accountingService {X}. Arguments walletAddress_get {X}. Arguments asset_get {X}.

(** ** [poll] of [shared/utils.ts]

    A request takes no time here, so that it is never timed out itself; the rounds
    are bounded by the timeout over the frequency when the frequency is positive. *)

Section Poll.
Context {S A : Type} (request : M S (option A)) (sleep : Z -> M S unit).
Context (pollingFrequencyMs timeoutMs : Z).

Definition timed_out : exn := JsError "Error" "Request timed out".

Fixpoint poll_rounds (fuel : nat) (elapsedTimeMs : Z) : M S A :=
  match fuel with
  | O => throw timed_out
  | Datatypes.S fuel =>
      let! response := request in
      match response with
      | Some response => ret response
      | None =>
          let elapsedTimeMs := elapsedTimeMs + pollingFrequencyMs in
          if timeoutMs <=? elapsedTimeMs then throw timed_out
          else sleep pollingFrequencyMs ;;! poll_rounds fuel elapsedTimeMs
      end
  end.

Definition poll : M S A :=
  poll_rounds (Datatypes.S (Z.to_nat (timeoutMs / pollingFrequencyMs))) 0.

(** The fuel is never used up. *)
Lemma poll_rounds_enough fuel fuel' elapsed s :
  0 < pollingFrequencyMs ->
  timeoutMs - elapsed <= Z.of_nat fuel * pollingFrequencyMs -> (fuel <= fuel')%nat ->
  (0 < fuel)%nat ->
  poll_rounds fuel' elapsed s = poll_rounds fuel elapsed s.
Proof.
  intros Hfreq. revert fuel' elapsed s. induction fuel as [|fuel IH]; intros fuel' elapsed s Hfuel Hle Hpos;
    [lia|].
  destruct fuel' as [|fuel']; [lia|]. simpl. apply bind_same. intros [r|] s' _; [done|].
  destruct (timeoutMs <=? elapsed + pollingFrequencyMs) eqn:E; [done|]. zbool.
  apply bind_same. intros u s'' _. apply IH; [lia|lia|].
  destruct fuel; [|lia]. lia.
Qed.
End Poll.

Section IncomingPaymentService.
Context {X : Type} `{Uuid}.
Context (deps : IncomingDeps X).

Definition IncomingState : Type := Svc IncomingDb X.

(** What everything else does while a creation waits between two polls. *)
Context (sleep : Z -> M IncomingState unit).
(** The row a query without an order returns first. *)
Context (pick : list IncomingPayment -> option IncomingPayment).

(** [payment.$query(trx).patch(...)]: the row, and the instance. *)
Definition patch (f : Z -> IncomingPayment -> IncomingPayment) (p : IncomingPayment)
  : M IncomingState IncomingPayment :=
  let! now := date_now in
  db_set (fun d => set_payments
    (update_where (fun p' => bool_decide (id p' = id p)) (f now) (payments d)) d) ;;!
  ret (f now p).

Definition find_payment (p : IncomingPayment -> bool) : M IncomingState (option IncomingPayment) :=
  db_get (fun d => fetched <$> find_where p (payments d)).

(** The asset and the wallet address of an instance. *)
Definition fetch_related (p : IncomingPayment) : M IncomingState IncomingPayment :=
  let! a := lift (asset_get deps (assetId p)) in
  let! w := lift (walletAddress_get deps (walletAddressId p) None) in
  ret (attach (match a with Some a => Some a | None => asset p end) w (receivedAmountValue p) p).

(** [payment.receivedAmount = ...] *)
Definition with_receivedAmount (v : option Z) (p : IncomingPayment)
  : M IncomingState IncomingPayment :=
  let! _a := the_asset p in
  ret (attach (asset p) (walletAddress p) (Some (default 0 v)) p).

Definition addReceivedAmount (p : IncomingPayment) (value : option Z)
  : M IncomingState IncomingPayment :=
  let! received := match value with
                   | Some v => ret (Some v)
                   | None => lift (getTotalReceived (accountingService deps) (id p))
                   end in
  with_receivedAmount received p.

(** ** Reading *)

Definition getIncomingPayment (options : GetOptions) : M IncomingState (option IncomingPayment) :=
  let! row := find_payment (fun p =>
    subresource_get options (id p) (walletAddressId p) (client p)) in
  match row with
  | None => ret None
  | Some p => let! p := fetch_related p in let! p := addReceivedAmount p None in ret (Some p)
  end.

Record GetPageOptions := {
  pagination : option Pagination.Pagination;
  filter_initiatedBy : option Webhook.FilterString;
  sortOrder : option Pagination.SortOrder;
  gp_tenantId : option string;
  gp_walletAddressId : option string;
  gp_client : option string
}.

Fixpoint with_receivedAmounts (page : list IncomingPayment) (amounts : list (option Z))
    : M IncomingState (list IncomingPayment) :=
  match page with
  | [] => ret []
  | p :: page =>
      let! p := with_receivedAmount (mjoin (head amounts)) p in
      let! page := with_receivedAmounts page (tail amounts) in
      ret (p :: page)
  end.

Definition page_clause (options : GetPageOptions) (p : IncomingPayment) : bool :=
  when_given (gp_tenantId options) (Some (tenantId p))
  && when_given (gp_client options) (client p)
  && when_given (gp_walletAddressId options) (Some (walletAddressId p))
  && Webhook.filter_in (filter_initiatedBy options)
       (IncomingPaymentInitiationReason_value (initiatedBy p))
  && Webhook.filter_notIn (filter_initiatedBy options)
       (IncomingPaymentInitiationReason_value (initiatedBy p)).

(** The loop over a page fetches the wallet address before the asset. *)
Definition fetch_page_related (p : IncomingPayment) : M IncomingState IncomingPayment :=
  let! w := lift (walletAddress_get deps (walletAddressId p) None) in
  let! a := lift (asset_get deps (assetId p)) in
  ret (attach (match a with Some a => Some a | None => asset p end) w (receivedAmountValue p) p).

Definition getPage (options : GetPageOptions) : M IncomingState (list IncomingPayment) :=
  let! table := db_get payments in
  match Pagination.getPage table (page_clause options) (pagination options)
          (default Pagination.Desc (sortOrder options)) with
  | Throw e => throw e
  | Ret page =>
      let! page := mapM (fun p => fetch_page_related (fetched p)) page in
      let! amounts := lift (getAccountsTotalReceived (accountingService deps) (id <$> page)) in
      with_receivedAmounts page amounts
  end.

Definition getWalletAddressPage (options : ListOptions) : M IncomingState (list IncomingPayment) :=
  getPage {| pagination := lo_pagination options; filter_initiatedBy := None;
             sortOrder := lo_sortOrder options; gp_tenantId := lo_tenantId options;
             gp_walletAddressId := Some (lo_walletAddressId options);
             gp_client := lo_client options |}.

(** ** Updating the metadata *)

Record UpdateOptions := {
  u_id : string;
  u_metadata : gmap string Json;
  u_tenantId : string
}.

(** [patchAndFetchById(options.id, options)]: the options are the patch. *)
Definition updateIncomingPayment (options : UpdateOptions)
  : M IncomingState (res IncomingPaymentError.t IncomingPayment) :=
  let! row := find_payment (fun p => bool_decide (id p = u_id options)) in
  match row with
  | None => ret (Err IncomingPaymentError.UnknownPayment)
  | Some p =>
      let! p := patch (fun now p =>
        with_columns (u_tenantId options) (state p) (Some (u_metadata options)) (processAt p)
          (approvedAt p) (cancelledAt p) now p) p in
      let! p := fetch_related p in
      let! p := addReceivedAmount p None in
      ret (Ok p)
  end.

(** ** Creating *)

Record CreateIncomingPaymentOptions := {
  o_walletAddressId : string;
  o_client : option string;
  o_expiresAt : option Z;
  o_incomingAmount : option Amount;
  o_metadata : option (gmap string Json);
  o_tenantId : string;
  o_initiationReason : IncomingPaymentInitiationReason;
  o_senderWalletAddress : option string
}.

(** [IncomingPayment.query().insertAndFetch] *)
Definition insertPayment (options : CreateIncomingPaymentOptions) (w : WalletAddress) (expires : Z)
  : M IncomingState IncomingPayment :=
  let! pid := uuid in
  let! now := date_now in
  let! existing := db_get (fun d => find_where (fun p => bool_decide (id p = pid)) (payments d)) in
  match existing with
  | Some _ => throw (UniqueViolationError "incomingPayments_pkey")
  | None =>
      let p := {| id := pid; tenantId := o_tenantId options;
                  walletAddressId := o_walletAddressId options; walletAddress := None;
                  client := o_client options; expiresAt := expires; state := Pending;
                  metadata := o_metadata options; processAt := Some expires; approvedAt := None;
                  cancelledAt := None; initiatedBy := o_initiationReason options;
                  assetId := a_id (wa_asset w); asset := None;
                  incomingAmountValue := value <$> o_incomingAmount options;
                  receivedAmountValue := None;
                  senderWalletAddress := o_senderWalletAddress options;
                  createdAt := now; updatedAt := now |} in
      db_set (fun d => set_payments (payments d ++ [p]) d) ;;! ret p
  end.

Definition paymentEvent (type : IncomingPaymentEventType) (p : IncomingPayment)
    (data : IncomingPaymentData) (withdrawal : option Webhook.Withdrawal)
    (eventId : string) (now : Z) : Webhook.WebhookEvent IncomingPaymentData :=
  {| Webhook.ev_id := eventId; Webhook.ev_type := IncomingPaymentEventType_value type;
     Webhook.ev_data := data; Webhook.ev_tenantId := tenantId p;
     Webhook.outgoingPaymentId := None; Webhook.incomingPaymentId := Some (id p);
     Webhook.walletAddressId := None; Webhook.ev_assetId := None; Webhook.peerId := None;
     Webhook.withdrawal := withdrawal; Webhook.ev_createdAt := now |}.

Definition recipients (p : IncomingPayment) (sendToPosService : bool) : list Webhook.Recipient :=
  finalizeWebhookRecipients
    {| Webhook.tenantIds := [tenantId p]; Webhook.o_sendToPosService := sendToPosService;
       Webhook.o_sendToCardService := false; Webhook.omitTenantRecipients := false |}
    (webhookConfig deps).

(** The checks of [createIncomingPayment] up to the wallet address's asset. *)
Definition checkExpiry (options : CreateIncomingPaymentOptions) (now : Z)
  : res IncomingPaymentError.t Z :=
  match o_expiresAt options with
  | None => Ok (now + incomingPaymentExpiryMaxMs deps)
  | Some t => if (t <=? now) || (now + incomingPaymentExpiryMaxMs deps <? t)
              then Err IncomingPaymentError.InvalidExpiry else Ok t
  end.

Definition wrong_asset (options : CreateIncomingPaymentOptions) (w : WalletAddress) : bool :=
  match o_incomingAmount options with
  | Some a => negb (bool_decide (assetCode a = a_code (wa_asset w)))
              || negb (assetScale a =? a_scale (wa_asset w))
  | None => false
  end.

(** [createIncomingPayment] up to the polling: the row and its event. *)
Definition insertIncomingPayment (options : CreateIncomingPaymentOptions)
  : M IncomingState (res IncomingPaymentError.t IncomingPayment) :=
  let! now := date_now in
  match checkExpiry options now with
  | Err e => ret (Err e)
  | Ok expires =>
      if match o_incomingAmount options with Some a => value a <=? 0 | None => false end
      then ret (Err IncomingPaymentError.InvalidAmount)
      else
      let! w := lift (walletAddress_get deps (o_walletAddressId options)
                        (Some (o_tenantId options))) in
      match w with
      | None => ret (Err IncomingPaymentError.UnknownWalletAddress)
      | Some w =>
          if negb (wallet_isActive now w) then ret (Err IncomingPaymentError.InactiveWalletAddress)
          else if wrong_asset options w then ret (Err IncomingPaymentError.InvalidAmount)
          else
          let! p := insertPayment options w expires in
          let! p := fetch_related p in
          let! data := toData 0 p in
          insertGraph (paymentEvent IncomingPaymentCreated p data None) (recipients p false) ;;!
          let! p := addReceivedAmount p (Some 0) in
          ret (Ok p)
      end
  end.

(** [query.get({ id }).whereNotNull('approvedAt').orWhereNotNull('cancelledAt')]: the
    [OR] binds weaker than the clauses before it. *)
Definition getApprovedOrCanceledIncomingPayment (pid : string)
  : M IncomingState (option IncomingPayment) :=
  let! row := db_get (fun d => pick (List.filter (fun p =>
    (bool_decide (id p = pid) && is_some (approvedAt p)) || is_some (cancelledAt p)) (payments d))) in
  match row with
  | None => ret None
  | Some p => let! p := fetch_related (fetched p) in ret (Some p)
  end.

(** The rest of [createIncomingPayment]. *)
Definition pollApproval (pid : string)
  : M IncomingState (res IncomingPaymentError.t IncomingPayment) :=
  try_catch
    (let! response := poll (getApprovedOrCanceledIncomingPayment pid) sleep
       (incomingPaymentCreatedPollFrequency deps) (incomingPaymentCreatedPollTimeout deps) in
     ret (if is_some (cancelledAt response) then Err IncomingPaymentError.ActionNotPerformed
          else if is_some (approvedAt response) then Ok response
          else Err IncomingPaymentError.ActionNotPerformed))
    (fun _ => ret (Err IncomingPaymentError.ActionNotPerformed)).

Definition createIncomingPayment (options : CreateIncomingPaymentOptions)
  : M IncomingState (res IncomingPaymentError.t IncomingPayment) :=
  let! r := insertIncomingPayment options in
  match r with
  | Err e => ret (Err e)
  | Ok p => if pollIncomingPaymentCreatedWebhook deps then pollApproval (id p) else ret (Ok p)
  end.

(** ** Approving and cancelling *)

Definition tenant_payment (pid tenant : string) (p : IncomingPayment) : bool :=
  bool_decide (id p = pid) && bool_decide (tenantId p = tenant).

Definition approveIncomingPayment (pid tenant : string)
  : M IncomingState (res IncomingPaymentError.t IncomingPayment) :=
  transaction
    (let! row := find_payment (tenant_payment pid tenant) in
     match row with
     | None => ret (Err IncomingPaymentError.UnknownPayment)
     | Some p =>
         let! p := fetch_related p in
         if negb (bool_decide (state p = Pending)) then ret (Err IncomingPaymentError.WrongState)
         else if is_some (cancelledAt p) then ret (Err IncomingPaymentError.AlreadyActioned)
         else
         let! p := if is_some (approvedAt p) then ret p
                   else patch (fun now => set_approvedAt (Some now) now) p in
         let! p := addReceivedAmount p None in
         ret (Ok p)
     end).

Definition cancelIncomingPayment (pid tenant : string)
  : M IncomingState (res IncomingPaymentError.t IncomingPayment) :=
  transaction
    (let! row := find_payment (tenant_payment pid tenant) in
     match row with
     | None => ret (Err IncomingPaymentError.UnknownPayment)
     | Some p =>
         let! p := fetch_related p in
         if negb (bool_decide (state p = Pending)) then ret (Err IncomingPaymentError.WrongState)
         else if is_some (approvedAt p) then ret (Err IncomingPaymentError.AlreadyActioned)
         else
         let! p := if is_some (cancelledAt p) then ret p
                   else patch (fun now => set_cancelledAt (Some now) now) p in
         let! p := addReceivedAmount p None in
         ret (Ok p)
     end).

(** ** Completing *)

Definition completeIncomingPayment (pid : string) (tenant : option string)
  : M IncomingState (res IncomingPaymentError.t IncomingPayment) :=
  transaction
    (let! row := find_payment (fun p =>
       bool_decide (id p = pid) && when_given tenant (Some (tenantId p))) in
     match row with
     | None => ret (Err IncomingPaymentError.UnknownPayment)
     | Some p =>
         let! p := fetch_related p in
         match state p with
         | Pending | Processing =>
             let! p := patch (fun now => set_state Completed (Some now) now) p in
             let! p := addReceivedAmount p None in
             ret (Ok p)
         | _ => ret (Err IncomingPaymentError.WrongState)
         end
     end).

(** [onCredit], the callback of the ledger: the row is rewritten unless it is
    expired or completed. *)
Definition onCredit (p : IncomingPayment) (options : OnCreditOptions)
  : M IncomingState IncomingPayment :=
  let! amount := incomingAmount p in
  let! now := date_now in
  let patchIn f :=
    let! d := db_get (fun d => d) in
    let open q := bool_decide (id q = id p) && negb (isExpiredOrComplete q) in
    match find_where open (payments d) with
    | Some q => db_set (set_payments (update_where open f (payments d))) ;;! ret (fetched (f q))
    | None => ret p
    end in
  if match amount with Some a => value a <=? totalReceived options | None => false end
  then patchIn (set_state Completed (Some now) now)
  else patchIn (fun q => set_state Processing (processAt q) now q).

(** ** The worker *)

Definition handleExpired (p : IncomingPayment) : M IncomingState unit :=
  let! amountReceived := lift (getTotalReceived (accountingService deps) (id p)) in
  if truthy amountReceived
  then patch (fun now => set_state Expired (Some now) now) p ;;! ret tt
  else db_set (delete_row (id p)).

Definition handleDeactivated (p : IncomingPayment) : M IncomingState unit :=
  match processAt p with
  | None => throw_error "processAt field is not defined"
  | Some _ =>
      try_catch
        (let! amountReceived := lift (getTotalReceived (accountingService deps) (id p)) in
         if negb (truthy amountReceived)
         then patch (set_processAt None) p ;;! ret tt
         else
         let amountReceived := default 0 amountReceived in
         let type := if bool_decide (state p = Expired) then IncomingPaymentExpired
                     else IncomingPaymentCompleted in
         let! data := toData amountReceived p in
         insertGraph
           (paymentEvent type p data
              (Some {| Webhook.accountId := id p; Webhook.assetId := assetId p;
                       Webhook.w_amount := amountReceived |}))
           (recipients p match initiatedBy p with Card => true | _ => false end) ;;!
         patch (set_processAt None) p ;;!
         ret tt)
        (fun _ => ret tt)
  end.

(** [WHERE processAt <= now], which [NULL] does not satisfy. *)
Definition due (now : Z) (p : IncomingPayment) : bool :=
  match processAt p with Some t => t <=? now | None => false end.

Definition processNextIncomingPayment : M IncomingState (option string) :=
  transaction
    (let! now := date_now in
     let! row := db_get (fun d => pick (List.filter (due now) (payments d))) in
     match row with
     | None => ret None
     | Some row =>
         let! p := fetch_related (fetched row) in
         match state p with
         | Expired | Completed => handleDeactivated p
         | Pending | Processing => handleExpired p
         end ;;!
         ret (Some (id p))
     end).
End IncomingPaymentService.
