(* ===== verification/IncomingSpecs.v ===== *)
(** * IncomingSpecs: what each operation on incoming payments does

    Every operation of [IncomingPayment] has one of a few effects on the tables
    ([effect]), shown on every path; [IncomingHistory] composes them.  The creation that
    waits for an approval returns a payment only if that payment was approved, and the
    worker settles a payment that is due in one of the ways the code has. *)

From S2P Require Import Prelude Shared Service OpenPayments Accounting.
From S2P Require Webhook.
From S2P Require Import IncomingPayment.
Import Webhook (events, ev_type, incomingPaymentId).

Local Open Scope Z_scope.
Local Open Scope ts_scope.

Lemma is_some_false {A} (o : option A) : is_some o = false -> o = None.
Proof. by destruct o. Qed.

(** What a payment keeps from its creation on; an update may change its tenant. *)
Record core_eq (row row' : IncomingPayment) : Prop := {
  core_id : id row' = id row;
  core_owner : walletAddressId row' = walletAddressId row /\ client row' = client row /\
    initiatedBy row' = initiatedBy row /\ senderWalletAddress row' = senderWalletAddress row;
  core_amount : assetId row' = assetId row /\ incomingAmountValue row' = incomingAmountValue row;
  core_times : createdAt row' = createdAt row /\ expiresAt row' = expiresAt row
}.

Lemma incoming_core_trans a b c : core_eq a b -> core_eq b c -> core_eq a c.
Proof.
  intros [? (? & ? & ? & ?) [? ?] [? ?]] [? (? & ? & ? & ?) [? ?] [? ?]].
  split; split_and?; congruence.
Qed.

(** What a state may become. *)
Definition may_become (st st' : IncomingPaymentState) : bool :=
  bool_decide (st = st') ||
  match st, st' with
  | Pending, _ => true
  | Processing, (Completed | Expired) => true
  | _, _ => false
  end.

Lemma incoming_become_refl st : may_become st st = true.
Proof. by destruct st. Qed.

Lemma incoming_become_trans a b c :
  may_become a b = true -> may_become b c = true -> may_become a c = true.
Proof. by destruct a, b, c. Qed.

Definition not_both (row : IncomingPayment) : Prop := approvedAt row = None \/ cancelledAt row = None.

(** The tenant and the metadata of a row stay, or are what the update [u] gave. *)
Definition settings_from (u : option UpdateOptions) (row row' : IncomingPayment) : Prop :=
  (tenantId row' = tenantId row /\ metadata row' = metadata row) \/
  exists options, u = Some options /\ u_id options = id row /\
    tenantId row' = u_tenantId options /\ metadata row' = Some (u_metadata options).

(** One step of a row, an update by [u] if any: the row is closed for good, and then
    no longer scheduled. *)
Record evolves (u : option UpdateOptions) (row row' : IncomingPayment) : Prop := {
  ev_core : core_eq row row';
  ev_settings : settings_from u row row';
  ev_state : may_become (state row) (state row') = true;
  ev_actions : not_both row -> not_both row';
  ev_closed : isExpiredOrComplete row = true -> processAt row = None -> processAt row' = None
}.

Lemma incoming_evolves_refl u row : evolves u row row.
Proof. split; [done|by left|apply incoming_become_refl|done..]. Qed.

Section Specs.
Context {X : Type} `{Uuid}.
Context (deps : IncomingDeps X).
(** The update that may have been asked for. *)
Context (u : option UpdateOptions).

Notation evolves := (evolves u).
Notation IncomingState := (Svc IncomingDb X).
Notation Event := (Webhook.WebhookEvent IncomingPaymentData).
Implicit Types (s : IncomingState) (p row : IncomingPayment) (d : IncomingDb).

Definition rows d : list IncomingPayment := payments d.
Definition evs d : list Event := events (incomingWebhooks d).

(** The event that announces what a closed payment received. *)
Definition announces (pid : string) (e : Event) : bool :=
  bool_decide (incomingPaymentId e = Some pid) &&
  bool_decide (ev_type e <> IncomingPaymentEventType_value IncomingPaymentCreated).

Definition event_for (type : IncomingPaymentEventType) (pid : string) (e : Event) : Prop :=
  ev_type e = IncomingPaymentEventType_value type /\ incomingPaymentId e = Some pid.

(** The row a payment starts as. *)
Record created_row (options : CreateIncomingPaymentOptions) (n : Z) row : Prop := {
  cr_state : state row = Pending /\ approvedAt row = None /\ cancelledAt row = None;
  cr_owner : tenantId row = o_tenantId options /\
    walletAddressId row = o_walletAddressId options /\ client row = o_client options;
  cr_expiry : 0 < incomingPaymentExpiryMaxMs deps ->
    n < expiresAt row <= n + incomingPaymentExpiryMaxMs deps;
  cr_scheduled : processAt row = Some (expiresAt row);
  cr_amount : incomingAmountValue row = value <$> o_incomingAmount options /\
    (forall a, o_incomingAmount options = Some a -> 0 < value a)
}.

(** What one operation does to the tables. *)
Inductive effect s s' : Prop :=
| effect_none :
    rows (db s') = rows (db s) -> evs (db s') = evs (db s) -> effect s s'
| effect_insert options row new :
    created_row options (now s) row ->
    id row = v4 (Service.fresh s) -> (Service.fresh s < Service.fresh s')%nat ->
    id row ∉ (id <$> rows (db s)) ->
    rows (db s') = rows (db s) ++ [row] -> evs (db s') = evs (db s) ++ new ->
    (forall e, e ∈ new -> event_for IncomingPaymentCreated (id row) e) ->
    effect s s'
| effect_update row F :
    row ∈ rows (db s) -> evolves row (F row) ->
    rows (db s') = update_where (fun p => bool_decide (id p = id row)) F (rows (db s)) ->
    evs (db s') = evs (db s) -> effect s s'
| effect_delete row :
    row ∈ rows (db s) -> isExpiredOrComplete row = false ->
    db s' = delete_row (id row) (db s) -> effect s s'
| effect_announce row F e :
    row ∈ rows (db s) -> evolves row (F row) ->
    isExpiredOrComplete row = true -> is_some (processAt row) = true -> processAt (F row) = None ->
    announces (id row) e = true ->
    rows (db s') = update_where (fun p => bool_decide (id p = id row)) F (rows (db s)) ->
    evs (db s') = evs (db s) ++ [e] -> effect s s'.

(** The operation had an effect while the clock stood still; identifiers were only
    taken from the supply. *)
Definition acts s s' : Prop :=
  effect s s' /\ now s' = now s /\ (Service.fresh s <= Service.fresh s')%nat.

Lemma acts_none s s' :
  db s' = db s -> now s' = now s -> (Service.fresh s <= Service.fresh s')%nat -> acts s s'.
Proof. intros Hdb Hn Hf. split; [|done]. apply effect_none; by rewrite Hdb. Qed.

(** Reads leave everything but the other services. *)
Definition reads s s' : Prop := db s' = db s /\ now s' = now s /\ Service.fresh s' = Service.fresh s.

Lemma reads_acts s s' : reads s s' -> acts s s'.
Proof. intros (Hdb & Hn & Hf). apply acts_none; [done..|lia]. Qed.

Lemma acts_reads s s1 s2 : acts s s1 -> reads s1 s2 -> acts s s2.
Proof.
  intros (He & Hn & Hf) (Hdb & Hn2 & Hf2). split; [|split; [congruence|lia]].
  destruct He; [eapply effect_none|eapply effect_insert|eapply effect_update
    |eapply effect_delete|eapply effect_announce];
    rewrite ?Hdb, ?Hf2; eassumption.
Qed.

Lemma reads_acts_trans s s1 s2 : reads s s1 -> acts s1 s2 -> acts s s2.
Proof.
  intros (Hdb & Hn & Hf) (He & Hn2 & Hf2). split; [|split; [congruence|lia]].
  destruct He; rewrite ?Hdb, ?Hf, ?Hn in *;
    [eapply effect_none|eapply effect_insert|eapply effect_update
    |eapply effect_delete|eapply effect_announce]; eassumption.
Qed.

Lemma fetch_related_spec p s :
  wp (fetch_related deps p)
    (fun r s' => reads s s' /\
       match r with
       | Ret p' => exists a w, p' = attach a w (receivedAmountValue p) p /\
           (a = None -> exists x x', asset_get deps (assetId p) x = (Ret None, x'))
       | Throw _ => True
       end) s.
Proof.
  unfold fetch_related. wp_step. apply wp_lift. intros [a|e] x Ha; svc_simpl; [|by split].
  wp_step. apply wp_lift. intros [w|e] x' _; svc_simpl; [|by split]. apply wp_ret. split; [done|].
  do 2 eexists. split; [done|]. destruct a; [done|eauto].
Qed.

Lemma addReceivedAmount_spec p v s :
  wp (addReceivedAmount deps p v)
    (fun r s' => reads s s' /\
       match r with
       | Ret p' => exists a w n, p' = attach a w n p
       | Throw _ => is_some v = true -> asset p = None
       end) s.
Proof. unfold addReceivedAmount, with_receivedAmount, the_asset. wp_auto; (split; [done|]); eauto; done. Qed.

Lemma toData_spec {T} n p (t : T) :
  wp (toData n p)
    (fun r t' => t' = t /\ is_some (asset p) = match r with Ret _ => true | Throw _ => false end) t.
Proof. unfold toData, incomingAmount, the_asset. destruct (asset p); by wp_auto. Qed.

Lemma find_payment_spec q s :
  wp (find_payment q)
    (fun r s' => s' = s /\
       match r with
       | Ret (Some p) => exists row, row ∈ rows (db s) /\ p = fetched row /\ q row = true
       | Ret None => True
       | Throw _ => False
       end) s.
Proof.
  unfold find_payment. wp_step. split; [done|].
  destruct (find_where _ _) as [row|] eqn:E; simpl; [|done].
  apply find_where_Some in E as [Hin Hq]. by exists row.
Qed.

Lemma patch_acts f p row s :
  row ∈ rows (db s) -> id p = id row -> evolves row (f (now s) row) ->
  wp (patch f p)
    (fun r s' => acts s s' /\ r = Ret (f (now s) p) /\
       rows (db s') = update_where (fun p => bool_decide (id p = id row)) (f (now s)) (rows (db s))) s.
Proof.
  intros Hin Hid Hev. unfold patch. do 4 wp_step. apply wp_ret. rewrite Hid. split; [|done].
  split; [|done]. by eapply (effect_update _ _ row (f (now s))).
Qed.

(** Only the clock and the supply of identifiers are known. *)
Definition calm s s' : Prop := now s' = now s /\ (Service.fresh s <= Service.fresh s')%nat.

Lemma reads_calm s s' : reads s s' -> calm s s'.
Proof. intros (_ & ? & Hf). split; [done|lia]. Qed.

(** A transaction that acts, acts; one that throws does nothing. *)
Lemma acts_transaction {A} (m : M IncomingState A) (P : A -> IncomingState -> Prop) s :
  wp m (fun r s' => match r with Ret a => acts s s' /\ P a s' | Throw _ => calm s s' end) s ->
  wp (transaction m)
    (fun r s' => acts s s' /\
       match r with Ret a => P a s' | Throw _ => db s' = db s end) s.
Proof.
  intros Hm. apply wp_transaction. eapply wp_mono; [exact Hm|].
  intros [a|e] s' Hs; [done|]. split; [by apply acts_none; destruct Hs|done].
Qed.

Lemma evolves_approved n row :
  state row = Pending -> cancelledAt row = None -> evolves row (set_approvedAt (Some n) n row).
Proof. intros Hst Hc. split; [done|by left|apply incoming_become_refl|by right|done]. Qed.

Lemma evolves_cancelled n row :
  state row = Pending -> approvedAt row = None -> evolves row (set_cancelledAt (Some n) n row).
Proof. intros Hst Hc. split; [done|by left|apply incoming_become_refl|by left|done]. Qed.

Lemma evolves_state n st process row :
  isExpiredOrComplete row = false -> may_become (state row) st = true ->
  evolves row (set_state st process n row).
Proof. intros Hopen Hst. split; [done|by left|done|done|congruence]. Qed.

Lemma evolves_unscheduled n row : evolves row (set_processAt None n row).
Proof. split; [done|by left|apply incoming_become_refl|done|done]. Qed.

(** ** Approving, cancelling, completing, updating *)

(** What approving or cancelling did: the timestamp is there, on the row of the
    tenant's payment, which was pending and not dealt with the other way. *)
Definition acted (other mine : IncomingPayment -> option Z) (pid tenant : string) s
    (r : res IncomingPaymentError.t IncomingPayment) s' : Prop :=
  match r with
  | Ok p => exists row, row ∈ rows (db s) /\ id row = pid /\ tenantId row = tenant /\
      state row = Pending /\ other row = None /\ is_some (mine p) = true /\ id p = pid /\
      exists row', row' ∈ rows (db s') /\ id row' = pid /\ is_some (mine row') = true
  | Err e => db s' = db s
  end.

Lemma acts_calm s s' : acts s s' -> calm s s'.
Proof. by intros (_ & ? & ?). Qed.

(** How these operations end: a patch, unless it is not needed, and the amount. *)
Lemma finish_spec (b : bool) f p row s :
  row ∈ rows (db s) -> id p = id row -> (b = false -> evolves row (f (now s) row)) ->
  wp (let! p := if b then ret p else patch f p in
      let! p := addReceivedAmount deps p None in
      ret (@Ok IncomingPaymentError.t _ p))%ts
    (fun r s' => acts s s' /\
       match r with
       | Ret (Ok p') => (exists a w n, p' = attach a w n (if b then p else f (now s) p)) /\
           (if b then row else f (now s) row) ∈ rows (db s')
       | Ret (Err _) => False
       | Throw _ => True
       end) s.
Proof.
  intros Hin Hid Hev. wp_step.
  apply (wp_mono _ (fun r s2 => acts s s2 /\ r = Ret (if b then p else f (now s) p) /\
    (if b then row else f (now s) row) ∈ rows (db s2))).
  { destruct b; [apply wp_ret; split; [by apply acts_none|done]|].
    eapply wp_mono; [by eapply patch_acts; [..|apply Hev]|]. intros r s2 (Hact & -> & Hrows).
    split; [done|]. split; [done|]. rewrite Hrows. apply update_where_elem. exists row.
    by rewrite bool_decide_eq_true_2. }
  intros ? s2 (Hact & -> & Hin2). wp_step. eapply wp_mono; [apply addReceivedAmount_spec|].
  intros [p'|e] s3 [Hr3 Hp']; [|by split; [eapply acts_reads|]].
  destruct Hp' as (a & w & n & ->). apply wp_ret. split; [by eapply acts_reads|].
  split; [eauto|]. by rewrite (proj1 Hr3).
Qed.

Lemma approveIncomingPayment_spec pid tenant s :
  wp (approveIncomingPayment deps pid tenant)
    (fun r s' => acts s s' /\
       match r with
       | Ret r => acted cancelledAt approvedAt pid tenant s r s'
       | Throw _ => db s' = db s
       end) s.
Proof.
  unfold approveIncomingPayment. apply acts_transaction. wp_step.
  eapply wp_mono; [apply find_payment_spec|]. intros [[p|]|e] ? [-> Hs]; [| |done].
  2:{ apply wp_ret. split; [by apply acts_none|done]. }
  destruct Hs as (row & Hin & -> & Hq). unfold tenant_payment in Hq. zbool.
  wp_step. eapply wp_mono; [apply fetch_related_spec|].
  intros [p|e] s1 [Hr1 Hp]; [|by apply reads_calm]. destruct Hp as (a & w & -> & Ha).
  wp_step; [apply wp_ret; exact (conj (reads_acts _ _ Hr1) (proj1 Hr1))|].
  wp_step; [apply wp_ret; exact (conj (reads_acts _ _ Hr1) (proj1 Hr1))|]. zbool.
  assert (cancelledAt row = None) as Hcan by by apply is_some_false.
  eapply wp_mono; [apply (finish_spec (is_some (approvedAt row)) _ _ row)|].
  - by rewrite (proj1 Hr1).
  - done.
  - intros _. by apply evolves_approved.
  - intros [[p|e]|e] s2 [Hact Hp]; [|done|by apply acts_calm, (reads_acts_trans _ s1)].
    split; [by eapply reads_acts_trans|]. destruct Hp as [(a' & w' & n & ->) Hin2].
    exists row. destruct (is_some (approvedAt row)) eqn:Happ; split_and!; try done; by eexists.
Qed.

Lemma cancelIncomingPayment_spec pid tenant s :
  wp (cancelIncomingPayment deps pid tenant)
    (fun r s' => acts s s' /\
       match r with
       | Ret r => acted approvedAt cancelledAt pid tenant s r s'
       | Throw _ => db s' = db s
       end) s.
Proof.
  unfold cancelIncomingPayment. apply acts_transaction. wp_step.
  eapply wp_mono; [apply find_payment_spec|]. intros [[p|]|e] ? [-> Hs]; [| |done].
  2:{ apply wp_ret. split; [by apply acts_none|done]. }
  destruct Hs as (row & Hin & -> & Hq). unfold tenant_payment in Hq. zbool.
  wp_step. eapply wp_mono; [apply fetch_related_spec|].
  intros [p|e] s1 [Hr1 Hp]; [|by apply reads_calm]. destruct Hp as (a & w & -> & Ha).
  wp_step; [apply wp_ret; exact (conj (reads_acts _ _ Hr1) (proj1 Hr1))|].
  wp_step; [apply wp_ret; exact (conj (reads_acts _ _ Hr1) (proj1 Hr1))|]. zbool.
  assert (approvedAt row = None) as Happ by by apply is_some_false.
  eapply wp_mono; [apply (finish_spec (is_some (cancelledAt row)) _ _ row)|].
  - by rewrite (proj1 Hr1).
  - done.
  - intros _. by apply evolves_cancelled.
  - intros [[p|e]|e] s2 [Hact Hp]; [|done|by apply acts_calm, (reads_acts_trans _ s1)].
    split; [by eapply reads_acts_trans|]. destruct Hp as [(a' & w' & n & ->) Hin2].
    exists row. destruct (is_some (cancelledAt row)) eqn:Hcan; split_and!; try done; by eexists.
Qed.

Lemma completeIncomingPayment_spec pid tenant s :
  wp (completeIncomingPayment deps pid tenant)
    (fun r s' => acts s s' /\
       match r with
       | Ret (Ok p) => exists row, row ∈ rows (db s) /\ id row = pid /\
           isExpiredOrComplete row = false /\ state p = Completed /\ id p = pid
       | _ => db s' = db s
       end) s.
Proof.
  unfold completeIncomingPayment. eapply wp_mono; [apply (acts_transaction _ (fun r s' =>
    match r with Ok p => exists row, row ∈ rows (db s) /\ id row = pid /\
        isExpiredOrComplete row = false /\ state p = Completed /\ id p = pid
      | Err _ => db s' = db s end))|]; [|by intros [[p|e]|e] s' Hs].
  wp_step.
  eapply wp_mono; [apply find_payment_spec|]. intros [[p|]|e] ? [-> Hs]; [| |done].
  2:{ apply wp_ret. split; [by apply acts_none|done]. }
  destruct Hs as (row & Hin & -> & Hq). zbool.
  wp_step. eapply wp_mono; [apply fetch_related_spec|].
  intros [p|e] s1 [Hr1 Hp]; [|by apply reads_calm]. destruct Hp as (a & w & -> & Ha).
  change (state (attach a w (receivedAmountValue (fetched row)) (fetched row))) with (state row).
  assert (isExpiredOrComplete row = false ->
    wp (let! p := patch (fun now => set_state Completed (Some now) now)
                    (attach a w (receivedAmountValue (fetched row)) (fetched row)) in
        let! p := addReceivedAmount deps p None in ret (@Ok IncomingPaymentError.t _ p))%ts
      (fun r s' => match r with
       | Ret r => acts s s' /\
           match r with Ok p => exists row, row ∈ rows (db s) /\ id row = pid /\
               isExpiredOrComplete row = false /\ state p = Completed /\ id p = pid
             | Err _ => db s' = db s end
       | Throw _ => calm s s' end) s1) as Hfinish.
  { intros Hopen. eapply wp_mono; [apply (finish_spec false _ _ row)|].
    - by rewrite (proj1 Hr1).
    - done.
    - intros _. apply evolves_state; [done|]. by destruct (state row) eqn:E; unfold isExpiredOrComplete in Hopen; rewrite E in *.
    - intros [[p|e]|e] s2 [Hact Hp]; [|done|by apply acts_calm, (reads_acts_trans _ s1)].
      split; [by eapply reads_acts_trans|]. destruct Hp as [(a' & w' & n & ->) _]. by exists row. }
  destruct (state row) eqn:Hst;
    try (apply Hfinish; unfold isExpiredOrComplete; by rewrite Hst);
    apply wp_ret; exact (conj (reads_acts _ _ Hr1) (proj1 Hr1)).
Qed.

Lemma updateIncomingPayment_spec options s :
  u = Some options ->
  wp (updateIncomingPayment deps options) (fun r s' => acts s s') s.
Proof.
  intros Hu. unfold updateIncomingPayment. wp_step.
  eapply wp_mono; [apply find_payment_spec|]. intros [[p|]|e] ? [-> Hs]; [| |done].
  2:{ apply wp_ret. by apply acts_none. }
  destruct Hs as (row & Hin & -> & Hq). zbool. wp_step.
  eapply wp_mono; [apply (patch_acts _ _ row); [done|done|]|].
  { split; [done|right; by exists options|apply incoming_become_refl|done|done]. }
  intros ? s1 (Hact & -> & _). wp_step. eapply wp_mono; [apply fetch_related_spec|].
  intros [p|e] s2 [Hr2 Hp]; [|by eapply acts_reads]. wp_step.
  eapply wp_mono; [apply addReceivedAmount_spec|].
  intros [p'|e] s3 [Hr3 _]; [apply wp_ret|]; eapply acts_reads; [|done| |done]; by eapply acts_reads.
Qed.

(** ** Events *)

Lemma insertGraph_spec (event : string -> Z -> Event) rs s :
  wp (Webhook.insertGraph event rs)
    (fun r s' => r = Ret tt /\ calm s s' /\ rows (db s') = rows (db s) /\
       exists eid, evs (db s') = evs (db s) ++ [event eid (now s)]) s.
Proof.
  unfold wp, Webhook.insertGraph, bind, uuid; simpl.
  split; [done|]. split; [split; simpl; [done|lia]|]. eauto.
Qed.

(** ** Credits *)

Lemma update_where_unique pid (q : IncomingPayment -> bool) F l row :
  NoDup (id <$> l) -> row ∈ l -> id row = pid -> q row = true ->
  update_where (fun p => bool_decide (id p = pid) && q p) F l
  = update_where (fun p => bool_decide (id p = pid)) F l.
Proof.
  intros Hnd Hin Hid Hq. unfold update_where. apply map_ext_in. intros p Hp.
  case_bool_decide as E; [|done]. apply list_elem_of_In in Hp.
  by rewrite (unique_key id l p row) by congruence; rewrite Hq.
Qed.

Lemma onCredit_spec p options s :
  NoDup (id <$> rows (db s)) ->
  wp (onCredit p options) (fun _ s' => acts s s') s.
Proof.
  intros Hnd. unfold onCredit. wp_step.
  apply (wp_mono _ (fun _ s' => s' = s)); [unfold incomingAmount, the_asset; by wp_auto|].
  intros [amount|e] ? ->; [|by apply acts_none]. do 2 wp_step.
  assert (forall F, (forall q, isExpiredOrComplete q = false -> evolves q (F q)) ->
    wp (let! d := db_get (fun d => d) in
        let open q := bool_decide (id q = id p) && negb (isExpiredOrComplete q) in
        match find_where open (payments d) with
        | Some q => db_set (set_payments (update_where open F (payments d))) ;;! ret (fetched (F q))
        | None => ret p
        end)%ts (fun _ s' => acts s s') s) as Hpatch.
  { intros F HF. wp_step. wp_step. destruct (find_where _ _) as [q|] eqn:E; [|by apply acts_none].
    apply find_where_Some in E as [Hin Hq]. zbool. wp_step. wp_step. wp_step.
    split; [|done]. apply (effect_update _ _ q F); [done|by apply HF| |done].
    svc_simpl. cbn [rows payments set_payments]. rewrite <- H0.
    rewrite (update_where_unique (id q) (fun q => negb (isExpiredOrComplete q)) F _ q); try done.
    by rewrite negb_true_iff. }
  destruct (match amount with Some a => _ | None => _ end); apply Hpatch; intros q Hq;
    apply evolves_state; try done; unfold isExpiredOrComplete in Hq;
    by destruct (state q).
Qed.

(** ** Creating *)

(** What a creation that returned a payment did. *)
Definition created (options : CreateIncomingPaymentOptions) s p s' : Prop :=
  exists row w e, created_row options (now s) row /\
    id p = id row /\ id row ∉ (id <$> rows (db s)) /\
    rows (db s') = rows (db s) ++ [row] /\ evs (db s') = evs (db s) ++ [e] /\
    event_for IncomingPaymentCreated (id row) e /\
    wallet_isActive (now s) w = true /\ assetId row = a_id (wa_asset w) /\
    (forall a, o_incomingAmount options = Some a ->
       assetCode a = a_code (wa_asset w) /\ assetScale a = a_scale (wa_asset w)).

Lemma checkExpiry_bounds options n t :
  checkExpiry deps options n = Ok t -> 0 < incomingPaymentExpiryMaxMs deps ->
  n < t <= n + incomingPaymentExpiryMaxMs deps.
Proof.
  unfold checkExpiry. destruct (o_expiresAt options) as [e|].
  - destruct (_ || _) eqn:E; [done|]. intros [= <-] _. zbool. lia.
  - intros [= <-]. lia.
Qed.

Lemma insertIncomingRow_spec options w expires s :
  checkExpiry deps options (now s) = Ok expires ->
  (forall a, o_incomingAmount options = Some a -> 0 < value a) ->
  wp (insertPayment options w expires)
    (fun r s' => now s' = now s /\ (Service.fresh s < Service.fresh s')%nat /\
       match r with
       | Ret row => created_row options (now s) row /\ id row = v4 (Service.fresh s) /\
           id row ∉ (id <$> rows (db s)) /\ assetId row = a_id (wa_asset w) /\
           rows (db s') = rows (db s) ++ [row] /\ evs (db s') = evs (db s)
       | Throw _ => db s' = db s
       end) s.
Proof.
  intros Hexp Hamount. unfold insertPayment. do 6 wp_step.
  destruct (find_where _ _) as [q|] eqn:E; [apply wp_throw; split_and!; simpl; [done|lia|done]|].
  do 3 wp_step. split; [done|]. split; [simpl; lia|]. split.
  { split; try done. by eapply checkExpiry_bounds. }
  split; [done|]. split; [|done]. intros (q & Hq & Hin)%list_elem_of_fmap. simpl in Hq.
  apply find_where_None with (x := q) in E; [|done]. by rewrite bool_decide_eq_true_2 in E.
Qed.

Lemma insertIncomingPayment_spec options s :
  wp (insertIncomingPayment deps options)
    (fun r s' => acts s s' /\
       match r with
       | Ret (Ok p) => created options s p s'
       | Ret (Err _) => db s' = db s
       | Throw _ => evs (db s') = evs (db s)
       end) s.
Proof.
  unfold insertIncomingPayment. do 2 wp_step.
  destruct (checkExpiry deps options (now s)) as [expires|e] eqn:Hexp; [|apply wp_ret; split; [by apply acts_none|done]].
  destruct (match o_incomingAmount options with Some a => value a <=? 0 | None => false end) eqn:Ham;
    [apply wp_ret; split; [by apply acts_none|done]|].
  assert (forall a, o_incomingAmount options = Some a -> 0 < value a) as Hpos
    by (intros a Ha; rewrite Ha in Ham; zbool; lia).
  wp_step. apply wp_lift. intros [[w|]|e] x Hw; svc_simpl;
    [|apply wp_ret; split; [by apply acts_none|done]|split; [by apply acts_none|done]].
  destruct (negb _) eqn:Hactive; [apply wp_ret; split; [by apply acts_none|done]|].
  destruct (wrong_asset options w) eqn:Hasset; [apply wp_ret; split; [by apply acts_none|done]|].
  wp_step. eapply wp_mono; [by apply insertIncomingRow_spec|]. svc_simpl.
  intros [row|e] s1 (Hn1 & Hf1 & Hs1);
    [|split; [apply acts_none; [done|done|simpl in Hf1; lia]|by rewrite Hs1]].
  destruct Hs1 as (Hrow & Hid & Hfresh & Hasid & Hrows & Hevs).
  simpl in Hn1, Hf1, Hrow, Hid, Hfresh, Hrows, Hevs.
  assert (forall s2, reads s1 s2 -> acts s s2 /\ evs (db s2) = evs (db s)) as Hbare.
  { intros s2 (Hdb2 & Hn2 & Hf2). split; [|by rewrite Hdb2].
    split; [|split; [congruence|lia]].
    apply (effect_insert _ _ options row []); try done; [lia|by rewrite Hdb2| |set_solver].
    by rewrite app_nil_r, Hdb2. }
  wp_step. eapply wp_mono; [apply fetch_related_spec|].
  intros [p|e] s2 [Hr2 Hp]; [|by apply Hbare]. destruct Hp as (a & wa & -> & Ha).
  wp_step. eapply wp_mono; [apply toData_spec|]. intros [data|e] ? [-> Hsome]; [|by apply Hbare].
  wp_step. eapply wp_mono; [apply insertGraph_spec|].
  intros ? s3 (-> & [Hn3 Hf3] & Hrows3 & eid & Hevs3). destruct Hr2 as (Hdb2 & Hn2 & Hf2).
  wp_step. eapply wp_mono; [apply addReceivedAmount_spec|].
  assert (acts s s3) as Hact3.
  { split; [|split; [congruence|lia]].
    eapply (effect_insert _ _ options row [_]); try done; [lia| |by rewrite Hevs3, Hdb2, Hevs|].
    - by rewrite Hrows3, Hdb2.
    - intros e He%list_elem_of_singleton. by subst e. }
  intros [p'|e] s4 [Hr4 Hp'].
  - destruct Hp' as (a' & w' & n & ->). apply wp_ret. split; [by eapply acts_reads|].
    destruct Hr4 as (Hdb4 & _). exists row, w. eexists. split; [done|]. split; [done|].
    split; [done|]. split; [by rewrite Hdb4, Hrows3, Hdb2|].
    split; [by rewrite Hdb4, Hevs3, Hdb2, Hevs|]. split; [done|].
    split; [by apply negb_false_iff|]. split; [done|].
    intros a0 Ha0. unfold wrong_asset in Hasset. rewrite Ha0 in Hasset. by zbool.
  - exfalso. specialize (Hp' eq_refl). simpl in Hp', Hsome. by rewrite Hp' in Hsome.
Qed.

(** ** The worker *)

(** What a run of the worker does with a payment that is due, by what the ledger
    says it received: a payment still open is closed as expired, or deleted if it
    received nothing; a closed one is announced with a withdrawal of what it
    received, and no longer scheduled.  An announcement that fails leaves the payment
    as it is; it fails only if the ledger fails or the asset is unknown. *)
Definition unanswered row : Prop :=
  (exists x e x', getTotalReceived (accountingService deps) (id row) x = (Throw e, x')) \/
  (exists x x', asset_get deps (assetId row) x = (Ret None, x')).

Inductive processed s row s' : Prop :=
| processed_expired x x' amount :
    getTotalReceived (accountingService deps) (id row) x = (Ret (Some amount), x') ->
    amount <> 0 -> isExpiredOrComplete row = false ->
    rows (db s') = update_where (fun p => bool_decide (id p = id row))
      (set_state Expired (Some (now s)) (now s)) (rows (db s)) ->
    evs (db s') = evs (db s) -> processed s row s'
| processed_deleted x x' received :
    getTotalReceived (accountingService deps) (id row) x = (Ret received, x') ->
    default 0 received = 0 -> isExpiredOrComplete row = false ->
    db s' = delete_row (id row) (db s) -> processed s row s'
| processed_announced x x' amount e :
    getTotalReceived (accountingService deps) (id row) x = (Ret (Some amount), x') ->
    amount <> 0 -> isExpiredOrComplete row = true ->
    event_for (if bool_decide (state row = Expired) then IncomingPaymentExpired
               else IncomingPaymentCompleted) (id row) e ->
    Webhook.withdrawal e = Some {| Webhook.accountId := id row; Webhook.assetId := assetId row;
                                   Webhook.w_amount := amount |} ->
    rows (db s') = update_where (fun p => bool_decide (id p = id row))
      (set_processAt None (now s)) (rows (db s)) ->
    evs (db s') = evs (db s) ++ [e] -> processed s row s'
| processed_empty x x' received :
    getTotalReceived (accountingService deps) (id row) x = (Ret received, x') ->
    default 0 received = 0 -> isExpiredOrComplete row = true ->
    rows (db s') = update_where (fun p => bool_decide (id p = id row))
      (set_processAt None (now s)) (rows (db s)) ->
    evs (db s') = evs (db s) -> processed s row s'
| processed_later :
    unanswered row -> isExpiredOrComplete row = true -> db s' = db s -> processed s row s'.

Lemma processed_effect s row s' :
  row ∈ rows (db s) -> is_some (processAt row) = true ->
  processed s row s' -> effect s s'.
Proof.
  intros Hin Hdue [x x' amount _ _ Hopen Hr He|x x' received _ _ Hopen Hdb
    |x x' amount e _ _ Hclosed [Ht He] _ Hr Hevs|x x' received _ _ Hclosed Hr He|_ Hclosed Hdb].
  - apply (effect_update _ _ row (set_state Expired (Some (now s)) (now s))); try done.
    apply evolves_state; [done|]. unfold isExpiredOrComplete in Hopen. by destruct (state row).
  - by eapply effect_delete.
  - apply (effect_announce _ _ row (set_processAt None (now s)) e); try done.
    + apply evolves_unscheduled.
    + unfold announces. rewrite He, Ht, bool_decide_eq_true_2 by done.
      by destruct (bool_decide (state row = Expired)).
  - apply (effect_update _ _ row (set_processAt None (now s))); try done. apply evolves_unscheduled.
  - by apply effect_none; rewrite Hdb.
Qed.

Lemma truthy_amount (o : option Z) :
  truthy o = true -> exists v, o = Some v /\ v <> 0.
Proof.
  destruct o as [v|]; [|done]. intros Hv. exists v. split; [done|]. by intros ->.
Qed.

Lemma falsy_amount (o : option Z) : truthy o = false -> default 0 o = 0.
Proof.
  destruct o as [v|]; [|done]. cbv [truthy truthy_option truthy_Z]. simpl.
  destruct (Z.eqb_spec v 0); [done|]. done.
Qed.

Lemma handleExpired_spec p row s :
  id p = id row -> isExpiredOrComplete row = false ->
  wp (handleExpired deps p)
    (fun r s' => calm s s' /\ match r with Ret _ => processed s row s' | Throw _ => True end) s.
Proof.
  intros Hid Hopen. unfold handleExpired. wp_step. apply wp_lift.
  intros [received|e] x Hcall; svc_simpl; [|split; [split; simpl; [done|lia]|done]].
  rewrite Hid in *. destruct (truthy received) eqn:Ht.
  - apply truthy_amount in Ht as (amount & -> & Hne). wp_step. unfold patch. do 4 wp_step.
    apply wp_ret. wp_step. rewrite Hid. split; [split; simpl; [done|lia]|].
    by eapply processed_expired.
  - apply falsy_amount in Ht. wp_step. split; [split; simpl; [done|lia]|].
    by eapply processed_deleted.
Qed.

Lemma handleDeactivated_spec p row s :
  id p = id row -> state p = state row -> assetId p = assetId row ->
  isExpiredOrComplete row = true ->
  (asset p = None -> exists x x', asset_get deps (assetId row) x = (Ret None, x')) ->
  wp (handleDeactivated deps p)
    (fun r s' => calm s s' /\ match r with Ret _ => processed s row s' | Throw _ => True end) s.
Proof.
  intros Hid Hst Has Hclosed Hasset. unfold handleDeactivated.
  destruct (processAt p); [|apply wp_throw_error; split; [split; [done|lia]|done]].
  apply wp_try_catch. wp_step. apply wp_lift. intros [received|e] x Hcall; svc_simpl.
  2:{ apply wp_ret. split; [split; simpl; [done|lia]|]. rewrite Hid in Hcall.
      apply processed_later; [left; eauto|done..]. }
  rewrite Hid in Hcall. destruct (negb (truthy received)) eqn:Ht.
  { apply negb_true_iff, falsy_amount in Ht. wp_step. unfold patch. do 4 wp_step.
    apply wp_ret. wp_step. rewrite Hid. split; [split; simpl; [done|lia]|].
    by eapply processed_empty. }
  apply negb_false_iff, truthy_amount in Ht as (amount & -> & Hne). simpl default.
  wp_step. eapply wp_mono; [apply toData_spec|]. intros [data|e] ? [-> Hsome].
  2:{ apply wp_ret. split; [split; simpl; [done|lia]|].
      apply processed_later; [right; by apply Hasset, is_some_false|done..]. }
  wp_step. eapply wp_mono; [apply insertGraph_spec|].
  intros ? s1 (-> & [Hn1 Hf1] & Hrows & eid & Hevs). wp_step. unfold patch. do 4 wp_step.
  apply wp_ret. wp_step. simpl in Hn1, Hf1, Hrows, Hevs.
  split; [split; simpl; [done|lia]|].
  eapply processed_announced; [exact Hcall|done|done| | | |simpl; exact Hevs].
  - split; simpl; [by rewrite Hst|by rewrite Hid].
  - simpl. by rewrite Hid, Has.
  - simpl. rewrite Hid, Hn1. by rewrite <- Hrows.
Qed.

Context (pick : list IncomingPayment -> option IncomingPayment).
Context (pick_sound : forall l row, pick l = Some row -> row ∈ l).

Lemma processNextIncomingPayment_spec s :
  wp (processNextIncomingPayment deps pick)
    (fun r s' => acts s s' /\
       match r with
       | Ret (Some pid) => exists row, row ∈ rows (db s) /\ id row = pid /\
           due (now s) row = true /\ processed s row s'
       | Ret None => db s' = db s /\ pick (List.filter (due (now s)) (rows (db s))) = None
       | Throw _ => db s' = db s
       end) s.
Proof.
  unfold processNextIncomingPayment.
  eapply wp_mono; [apply (acts_transaction _ (fun r s' => match r with
    | Some pid => exists row, row ∈ rows (db s) /\ id row = pid /\ due (now s) row = true /\
        processed s row s'
    | None => db s' = db s /\ pick (List.filter (due (now s)) (rows (db s))) = None end))|];
    [|by intros [[pid|]|e] s' Hs].
  do 4 wp_step. destruct (pick _) as [row|] eqn:Hpick; [|apply wp_ret; split; [by apply acts_none|done]].
  apply pick_sound, elem_of_filter_bool in Hpick as [Hdue Hin].
  wp_step. eapply wp_mono; [apply fetch_related_spec|].
  intros [p|e] s1 [Hr1 Hp]; [|by apply reads_calm]. destruct Hp as (a & w & -> & Ha).
  set (p := attach a w _ _). pose proof Hr1 as (Hdb1 & Hn1 & Hf1).
  assert (is_some (processAt row) = true) as Hsched
    by (unfold due in Hdue; by destruct (processAt row)).
  assert (forall m : M IncomingState unit, wp m (fun r s' => calm s1 s' /\
      match r with Ret _ => processed s1 row s' | Throw _ => True end) s1 ->
    wp (m ;;! ret (Some (id p)))%ts (fun r s' => match r with
       | Ret r => acts s s' /\ match r with
           | Some pid => exists row, row ∈ rows (db s) /\ id row = pid /\ due (now s) row = true /\
               processed s row s'
           | None => db s' = db s /\ Some row = None end
       | Throw _ => calm s s' end) s1) as Hfinish.
  { intros m Hm. wp_step. eapply wp_mono; [exact Hm|].
    intros [v|e] s2 [[Hn2 Hf2] Hs2]; [|split; [congruence|lia]]. apply wp_ret.
    assert (processed s row s2) as Hproc.
    { destruct Hs2; rewrite ?Hdb1, ?Hn1 in *;
        [eapply processed_expired|eapply processed_deleted|eapply processed_announced
        |eapply processed_empty|eapply processed_later]; eassumption. }
    split; [|by exists row]. split; [by eapply processed_effect|]. split; [congruence|lia]. }
  change (state p) with (state row). destruct (state row) eqn:Hst; apply Hfinish;
    try (apply handleExpired_spec; [done|unfold isExpiredOrComplete; by rewrite Hst]);
    apply handleDeactivated_spec; try done; unfold isExpiredOrComplete; by rewrite Hst.
Qed.

(** ** Waiting for the approval of a creation *)

(** An answer of the query that is polled, as it stands in the table. *)
Definition answers_poll pid p s : Prop :=
  exists row a w n, row ∈ rows (db s) /\ p = attach a w n (fetched row) /\
    (id row = pid /\ is_some (approvedAt row) = true \/ is_some (cancelledAt row) = true).

Lemma getApprovedOrCanceled_spec pid s :
  wp (getApprovedOrCanceledIncomingPayment deps pick pid)
    (fun r s' => match r with
       | Ret (Some p) => answers_poll pid p s'
       | _ => True
       end) s.
Proof.
  unfold getApprovedOrCanceledIncomingPayment. do 2 wp_step.
  destruct (pick _) as [row|] eqn:Hpick; [|by apply wp_ret].
  apply pick_sound, elem_of_filter_bool in Hpick as [Hq Hin].
  wp_step. eapply wp_mono; [apply fetch_related_spec|].
  intros [p|e] s1 [(Hdb & _) Hp]; [|done]. destruct Hp as (a & w & -> & _). apply wp_ret.
  exists row. do 3 eexists. rewrite Hdb. split; [done|]. split; [done|].
  apply orb_true_iff in Hq as [Hq|Hq]; [left; by zbool|by right].
Qed.

Lemma poll_spec pid (sleep : Z -> M IncomingState unit) freq timeout s :
  wp (poll (getApprovedOrCanceledIncomingPayment deps pick pid) sleep freq timeout)
    (fun r s' => match r with Ret p => answers_poll pid p s' | Throw _ => True end) s.
Proof.
  unfold poll. generalize (Datatypes.S (Z.to_nat (timeout / freq))) as fuel. intros fuel.
  generalize 0 as elapsed. revert s. induction fuel as [|fuel IH]; intros s elapsed; [done|].
  simpl. wp_step. eapply wp_mono; [apply getApprovedOrCanceled_spec|].
  intros [[p|]|e] s1 Hp; [by apply wp_ret| |done].
  destruct (_ <=? _); [by apply wp_throw|]. wp_step. apply wp_call.
  intros [v|e] s2 _; [apply IH|done].
Qed.

(** A payment that can be handed to its creator. *)
Definition approved_in pid p s : Prop :=
  id p = pid /\ is_some (approvedAt p) = true /\ cancelledAt p = None /\
  exists row a w n, row ∈ rows (db s) /\ p = attach a w n (fetched row).

Lemma pollApproval_spec pid (sleep : Z -> M IncomingState unit) s :
  wp (pollApproval deps sleep pick pid)
    (fun r s' => r = Ret (Err IncomingPaymentError.ActionNotPerformed) \/
       exists p, r = Ret (Ok p) /\ approved_in pid p s') s.
Proof.
  unfold pollApproval. apply wp_try_catch. wp_step.
  eapply wp_mono; [apply poll_spec|]. intros [p|e] s1 Hp; [|apply wp_ret; by left].
  apply wp_ret. destruct Hp as (row & a & w & n & Hin & -> & Hq).
  change (cancelledAt (attach a w n (fetched row))) with (cancelledAt row).
  change (approvedAt (attach a w n (fetched row))) with (approvedAt row).
  destruct (is_some (cancelledAt row)) eqn:Hc; [by left|]. apply is_some_false in Hc.
  destruct (is_some (approvedAt row)) eqn:Ha; [right|by left].
  eexists. split; [done|]. destruct Hq as [[Hid _]|Hq]; [|done].
  split; [done|]. split; [done|]. split; [done|]. by exists row, a, w, n.
Qed.

End Specs.

(** ** What the operations promise *)

Section Promises.
Context {X : Type} `{Uuid}.
Context (deps : IncomingDeps X).
Context (pick : list IncomingPayment -> option IncomingPayment).
Context (pick_sound : forall l row, pick l = Some row -> row ∈ l).
Implicit Types s : Svc IncomingDb X.

(** A creation is all or nothing and keeps its word.  When it returns a payment,
    exactly one PENDING row with a new identifier was added, which expires after now
    and within the configured time, is scheduled for that moment, asks for a positive
    amount in the asset of an active wallet address, and is announced by exactly one
    event; when it returns an error, nothing was written. *)
Theorem incoming_create_effect options s s' r :
  insertIncomingPayment deps options s = (Ret r, s') ->
  match r with
  | Ok p => created deps options s p s'
  | Err _ => db s' = db s
  end.
Proof.
  intros E. pose proof (wp_run _ _ _ _ _ (insertIncomingPayment_spec deps None options s) E) as [_ Hs].
  by destruct r.
Qed.

(** With polling, a creation hands out only what was approved: it returns the
    payment it created, whose row is approved and not cancelled, or the error
    ACTION_NOT_PERFORMED or that of the creation; waiting never throws, whatever
    happens meanwhile. *)
Theorem create_returns_approved sleep options s r s' :
  pollIncomingPaymentCreatedWebhook deps = true ->
  createIncomingPayment deps sleep pick options s = (r, s') ->
  match (insertIncomingPayment deps options s).1 with
  | Ret (Ok p0) =>
      r = Ret (Err IncomingPaymentError.ActionNotPerformed) \/
      exists p, r = Ret (Ok p) /\ approved_in (id p0) p s'
  | Ret (Err e) => r = Ret (Err e)
  | Throw e => r = Throw e
  end.
Proof.
  intros Hpoll. unfold createIncomingPayment, bind. rewrite Hpoll.
  destruct (insertIncomingPayment deps options s) as [[[p0|e]|e] s1]; simpl.
  - intros E. exact (wp_run _ _ _ _ _ (pollApproval_spec deps pick pick_sound _ sleep s1) E).
  - by intros [= <- _].
  - by intros [= <- _].
Qed.

(** The worker settles exactly one payment that is due, by what the ledger says
    the payment received: an open payment is closed as expired, or deleted when it
    received nothing; a closed one is announced with a withdrawal of the amount and
    not scheduled again.  Only a failing ledger or an unknown asset delays it; when
    nothing is due or the run throws, nothing changes. *)
Theorem incoming_worker_settles s r s' :
  processNextIncomingPayment deps pick s = (r, s') ->
  match r with
  | Ret (Some pid) => exists row, row ∈ rows (db s) /\ id row = pid /\
      due (now s) row = true /\ processed deps s row s'
  | _ => db s' = db s
  end.
Proof.
  intros E.
  pose proof (wp_run _ _ _ _ _ (processNextIncomingPayment_spec deps None pick pick_sound s) E) as [_ Hs].
  by destruct r as [[pid|]|e]; [|destruct Hs|].
Qed.

(** Approving acts on the tenant's own payment only, which is PENDING and was not
    cancelled, and leaves its row approved; otherwise it returns an error and changes
    nothing. *)
Theorem approve_effect pid tenant s r s' :
  approveIncomingPayment deps pid tenant s = (Ret r, s') ->
  acted cancelledAt approvedAt pid tenant s r s'.
Proof.
  intros E. by destruct (wp_run _ _ _ _ _ (approveIncomingPayment_spec deps None pid tenant s) E).
Qed.
End Promises.
