(* ===== verification/IncomingHistory.v ===== *)
(** * IncomingHistory: incoming payments over all histories of operations

    Whatever operations, credits, worker runs and other events happen, in whatever
    order, a payment's state only moves forward, a payment is never both approved and
    cancelled, and what it received is announced for withdrawal at most once. *)

From S2P Require Import Prelude Shared Service OpenPayments Accounting.
From S2P Require Webhook.
From S2P Require Import IncomingPayment IncomingSpecs.
Import Webhook (events, ev_type, incomingPaymentId).

Local Open Scope Z_scope.
Local Open Scope ts_scope.

Section History.
Context {X : Type} `{Uuid}.
Context (deps : IncomingDeps X).
Context (pick : list IncomingPayment -> option IncomingPayment).
Context (pick_sound : forall l row, pick l = Some row -> row ∈ l).

Notation IncomingState := (Svc IncomingDb X).
Notation Event := (Webhook.WebhookEvent IncomingPaymentData).
Notation effect := (effect deps).
Implicit Types (s : IncomingState) (p row : IncomingPayment) (d : IncomingDb).

(** ** Histories *)

(** One operation of the service, of its worker or of the ledger, or time passing
    while the other services do anything.  A creation is the part that writes. *)
Inductive step : IncomingState -> IncomingState -> Prop :=
| step_create options s : step s (insertIncomingPayment deps options s).2
| step_update options s : step s (updateIncomingPayment deps options s).2
| step_approve pid tenant s : step s (approveIncomingPayment deps pid tenant s).2
| step_cancel pid tenant s : step s (cancelIncomingPayment deps pid tenant s).2
| step_complete pid tenant s : step s (completeIncomingPayment deps pid tenant s).2
| step_credit p options s : step s (onCredit p options s).2
| step_process s : step s (processNextIncomingPayment deps pick s).2
| step_elapse s ms x :
    0 <= ms ->
    step s {| db := db s; now := now s + ms; Service.fresh := Service.fresh s; ext := x |}.

Record wf s : Prop := {
  wf_ids : NoDup (id <$> rows (db s));
  wf_issued : forall row, row ∈ rows (db s) ->
    exists n, (n < Service.fresh s)%nat /\ id row = v4 n
}.

(** A step is an effect, but for the clock. *)
Lemma step_acts s s' :
  wf s -> step s s' -> exists u, effect u s s' /\ (Service.fresh s <= Service.fresh s')%nat /\
    forall options, u = Some options -> s' = (updateIncomingPayment deps options s).2.
Proof.
  intros [Hnd _] Hstep. destruct Hstep as [options s|options s|pid tenant s|pid tenant s
    |pid tenant s|p options s|s|s ms x Hms].
  - exists None. by destruct (insertIncomingPayment_spec deps None options s) as [(? & _ & ?) _].
  - exists (Some options).
    destruct (updateIncomingPayment_spec deps (Some options) options s eq_refl) as (? & _ & ?).
    split_and!; [done..|]. by intros ? [= ->].
  - exists None. by destruct (approveIncomingPayment_spec deps None pid tenant s) as [(? & _ & ?) _].
  - exists None. by destruct (cancelIncomingPayment_spec deps None pid tenant s) as [(? & _ & ?) _].
  - exists None. by destruct (completeIncomingPayment_spec deps None pid tenant s) as [(? & _ & ?) _].
  - exists None. by destruct (onCredit_spec deps None p options s Hnd) as (? & _ & ?).
  - exists None.
    by destruct (processNextIncomingPayment_spec deps None pick pick_sound s) as [(? & _ & ?) _].
  - exists None. split_and!; [by apply effect_none|done..].
Qed.

(** Every row after an effect comes from a row before it, or is new. *)
Lemma effect_rows u s s' row' :
  wf s -> effect u s s' -> row' ∈ rows (db s') ->
  (exists row, row ∈ rows (db s) /\ evolves u row row') \/
  (exists options, created_row deps options (now s) row' /\ id row' = v4 (Service.fresh s) /\
     (Service.fresh s < Service.fresh s')%nat).
Proof.
  intros [Hnd _] He Hin.
  assert (forall row F, row ∈ rows (db s) -> evolves u row (F row) ->
    row' ∈ update_where (fun p => bool_decide (id p = id row)) F (rows (db s)) ->
    exists row, row ∈ rows (db s) /\ evolves u row row') as Hupdate.
  { intros row F Hrow Hev (q & Hq & ->)%update_where_elem. exists q. split; [done|].
    case_bool_decide as E; [|apply incoming_evolves_refl]. by rewrite (unique_key id _ q row Hnd Hq Hrow E). }
  destruct He as [Hr _|options row new Hrow Hid Hf _ Hr _ _|row F Hrow Hev Hr _
    |row Hrow _ Hdb|row F e Hrow Hev _ _ _ _ Hr _].
  - rewrite Hr in Hin. left. exists row'. split; [done|apply incoming_evolves_refl].
  - rewrite Hr in Hin. apply elem_of_app in Hin as [Hin| ->%list_elem_of_singleton]; [left|right].
    + exists row'. split; [done|apply incoming_evolves_refl].
    + by exists options.
  - rewrite Hr in Hin. left. by eapply Hupdate.
  - rewrite Hdb in Hin. unfold delete_row, rows in Hin. simpl in Hin.
    apply elem_of_filter_bool in Hin as [_ Hin]. left. exists row'. split; [done|apply incoming_evolves_refl].
  - rewrite Hr in Hin. left. by eapply Hupdate.
Qed.

Lemma effect_wf u s s' :
  wf s -> effect u s s' -> (Service.fresh s <= Service.fresh s')%nat -> wf s'.
Proof.
  intros Hwf He Hfresh. split.
  - destruct Hwf as [Hnd _].
    assert (forall row F, row ∈ rows (db s) -> evolves u row (F row) ->
      NoDup (id <$> update_where (fun p => bool_decide (id p = id row)) F (rows (db s)))) as Hupdate.
    { intros row F Hrow Hev.
      replace (id <$> update_where (fun p => bool_decide (id p = id row)) F (rows (db s)))
        with (id <$> rows (db s)); [done|].
      unfold update_where. rewrite <- list_fmap_compose. apply list_fmap_ext.
      intros i q Hq%list_elem_of_lookup_2. simpl. case_bool_decide as E; [|done].
      rewrite (unique_key id _ q row Hnd Hq Hrow E). symmetry. apply core_id, (ev_core u), Hev. }
    destruct He as [Hr _|options row new Hrow Hid Hf Hn Hr _ _|row F Hrow Hev Hr _
      |row Hrow _ Hdb|row F e Hrow Hev _ _ _ _ Hr _]; rewrite ?Hr; auto.
    + rewrite fmap_app. apply NoDup_app. split_and!; [done| |apply NoDup_singleton]. set_solver.
    + rewrite Hdb. by apply NoDup_key_filter.
  - intros row' Hin. destruct (effect_rows u s s' row' Hwf He Hin) as [(row & Hrow & Hev)|(o & _ & -> & Hf)].
    + destruct (wf_issued _ Hwf row Hrow) as (n & Hn & Hid). exists n. split; [lia|].
      by rewrite <- Hid, (core_id _ _ (ev_core _ _ _ Hev)).
    + eauto.
Qed.

Lemma incoming_step_wf s s' : wf s -> step s s' -> wf s'.
Proof. intros Hwf Hstep. destruct (step_acts s s' Hwf Hstep) as (u & He & Hf & _). by apply (effect_wf u s). Qed.

Lemma incoming_steps_wf s s' : wf s -> rtc step s s' -> wf s'.
Proof. intros Hwf Hsteps. induction Hsteps; eauto using incoming_step_wf. Qed.

(** ** The properties over all histories *)

(** An identifier that was given out and whose payment is gone stays gone. *)
Lemma gone_stays `{!UuidLaws} s s' n :
  wf s -> rtc step s s' -> (n < Service.fresh s)%nat -> v4 n ∉ (id <$> rows (db s)) ->
  v4 n ∉ (id <$> rows (db s')).
Proof.
  intros Hwf Hsteps. induction Hsteps as [s|s s1 s2 Hstep Hsteps IH]; [done|].
  intros Hn Hgone. destruct (step_acts s s1 Hwf Hstep) as (u & He & Hf & Hu).
  apply IH; [by eapply incoming_step_wf|lia|]. intros (row & Hid & Hin)%list_elem_of_fmap.
  destruct (effect_rows u s s1 row Hwf He Hin) as [(row0 & Hrow0 & Hev)|(o & _ & Hid' & _)].
  - apply Hgone. rewrite Hid, (core_id _ _ (ev_core _ _ _ Hev)). by apply list_elem_of_fmap_2.
  - rewrite Hid' in Hid. apply v4_inj in Hid. lia.
Qed.

(** The tenant and the metadata a payment had, or those that an update of this very
    payment gave it on the way from [s] to [s']. *)
Definition settings_in_history s s' row row' : Prop :=
  (tenantId row' = tenantId row /\ metadata row' = metadata row) \/
  exists options s1, rtc step s s1 /\ rtc step (updateIncomingPayment deps options s1).2 s' /\
    u_id options = id row /\ tenantId row' = u_tenantId options /\
    metadata row' = Some (u_metadata options).

Lemma settings_step u s s1 s2 row row1 row2 :
  step s s1 -> (forall options, u = Some options -> s1 = (updateIncomingPayment deps options s).2) ->
  id row1 = id row -> settings_from u row row1 -> rtc step s1 s2 ->
  settings_in_history s1 s2 row1 row2 -> settings_in_history s s2 row row2.
Proof.
  intros Hstep Hu Hid Hfrom Hsteps [[Ht Hm]|(options & s3 & Hs3 & Hs2 & Ho & Ht & Hm)].
  - destruct Hfrom as [[Ht1 Hm1]|(options & -> & Ho & Ht1 & Hm1)]; [left; split; congruence|right].
    exists options, s. rewrite <- (Hu options eq_refl). split_and!; [constructor|done..|congruence|congruence].
  - right. exists options, s3. split_and!; [by eapply rtc_l|done|congruence|done..].
Qed.

(** C6. The state machine of an incoming payment: whatever operations, credits and
    worker runs happen, in whatever order, a payment that is still there is the one
    that was there before:

    - it keeps its identifier, wallet address, client, initiation reason, sender's
      wallet address, asset, incoming amount, creation and expiry date;
    - its tenant and its metadata are those it had, or the ones given by an update
      of this payment in between (an update takes whatever tenant it is called with);
    - its state only moves forward, from PENDING over PROCESSING to COMPLETED or
      EXPIRED, where it stays. *)
Theorem incoming_payment_state_machine `{!UuidLaws} s s' row row' :
  wf s -> rtc step s s' -> row ∈ rows (db s) -> row' ∈ rows (db s') -> id row' = id row ->
  core_eq row row' /\ settings_in_history s s' row row' /\
  may_become (state row) (state row') = true.
Proof.
  intros Hwf Hsteps. revert row. induction Hsteps as [s|s s1 s2 Hstep Hsteps IH];
    intros row Hin Hin' Hid.
  { rewrite (unique_key id _ row' row (wf_ids _ Hwf) Hin' Hin Hid).
    split; [done|split; [by left|apply incoming_become_refl]]. }
  destruct (step_acts s s1 Hwf Hstep) as (u & He & Hf & Hu).
  pose proof (incoming_step_wf s s1 Hwf Hstep) as Hwf1.
  destruct (wf_issued _ Hwf row Hin) as (n & Hn & Hidn).
  destruct (decide (id row ∈ (id <$> rows (db s1)))) as [Hstill|Hgone].
  - apply list_elem_of_fmap in Hstill as (row1 & Hid1 & Hin1).
    destruct (effect_rows u s s1 row1 Hwf He Hin1) as [(row0 & Hin0 & Hev)|(o & _ & Hid' & _)].
    + assert (row0 = row) as ->.
      { apply (unique_key id _ _ _ (wf_ids _ Hwf) Hin0 Hin).
        by rewrite Hid1, (core_id _ _ (ev_core _ _ _ Hev)). }
      destruct (IH Hwf1 row1 Hin1 Hin') as (Hcore & Hset & Hst); [congruence|].
      split; [by eapply incoming_core_trans; [apply (ev_core u)|]|]. split.
      * by eapply settings_step; [| |symmetry|apply (ev_settings u)|..].
      * eapply incoming_become_trans; [|done]. apply (ev_state u), Hev.
    + rewrite Hid', Hidn in Hid1. apply v4_inj in Hid1. lia.
  - exfalso. rewrite Hidn in Hgone.
    apply (gone_stays s1 s2 n Hwf1 Hsteps) in Hgone; [|lia]. apply Hgone.
    rewrite <- Hidn, <- Hid. by apply list_elem_of_fmap_2.
Qed.

Lemma empty_wf s : rows (db s) = [] -> wf s.
Proof.
  intros Hs. split; rewrite Hs; [constructor|]. intros row Hin. by apply elem_of_nil in Hin.
Qed.

(** Approving and cancelling exclude each other: in every state the service can
    reach from an empty table, no payment is both approved and cancelled. *)
Theorem never_approved_and_cancelled s s' row :
  rows (db s) = [] -> rtc step s s' -> row ∈ rows (db s') -> not_both row.
Proof.
  intros Hempty Hsteps. pose proof (empty_wf s Hempty) as Hwf.
  assert (forall row, row ∈ rows (db s) -> not_both row) as Hs
    by (rewrite Hempty; intros r Hr; by apply elem_of_nil in Hr).
  clear Hempty. revert row. induction Hsteps as [s|s s1 s2 Hstep Hsteps IH]; [done|].
  apply IH; [by eapply incoming_step_wf|]. intros row1 Hin1.
  destruct (step_acts s s1 Hwf Hstep) as (u & He & _).
  destruct (effect_rows u s s1 row1 Hwf He Hin1) as [(row & Hin & Hev)|(o & Hrow & _)].
  - apply (ev_actions _ _ _ Hev). by apply Hs.
  - left. apply (cr_state _ _ _ _ Hrow).
Qed.

(** ** Withdrawals *)

(** How often a payment's money was announced for withdrawal. *)
Definition announcements (pid : string) d : nat := length (List.filter (announces pid) (evs d)).

(** An announced payment is closed and not scheduled any more. *)
Definition announced_once s : Prop :=
  forall pid, announcements pid (db s) = 0%nat \/
    (announcements pid (db s) = 1%nat /\
     exists row, row ∈ rows (db s) /\ id row = pid /\ isExpiredOrComplete row = true /\
       processAt row = None).

Lemma evolves_closed u row row' :
  evolves u row row' -> isExpiredOrComplete row = true -> processAt row = None ->
  isExpiredOrComplete row' = true /\ processAt row' = None.
Proof.
  intros Hev Hclosed Hp. split; [|by apply Hev].
  pose proof (ev_state _ _ _ Hev) as Hst. unfold isExpiredOrComplete in *.
  by destruct (state row), (state row').
Qed.

Lemma announcements_app pid d d' new :
  evs d' = evs d ++ new ->
  announcements pid d' = (announcements pid d + length (List.filter (announces pid) new))%nat.
Proof. intros E. unfold announcements. by rewrite E, List.filter_app, length_app. Qed.

(** The row that shows a payment was announced, after a rewriting. *)
Lemma closed_after_update u rs row F pid r :
  NoDup (id <$> rs) -> row ∈ rs -> evolves u row (F row) ->
  r ∈ rs -> id r = pid -> isExpiredOrComplete r = true -> processAt r = None ->
  exists r', r' ∈ update_where (fun p => bool_decide (id p = id row)) F rs /\ id r' = pid /\
    isExpiredOrComplete r' = true /\ processAt r' = None.
Proof.
  intros Hnd Hrow Hev Hr Hid Hclosed Hp.
  exists (if bool_decide (id r = id row) then F r else r). split; [apply update_where_elem; eauto|].
  case_bool_decide as E; [|done]. rewrite (unique_key id rs r row Hnd Hr Hrow E) in *.
  destruct (evolves_closed _ _ _ Hev Hclosed Hp). by rewrite (core_id _ _ (ev_core _ _ _ Hev)).
Qed.

Lemma announcements_deleted pid d : announcements pid (delete_row pid d) = 0%nat.
Proof.
  unfold announcements, evs, delete_row. simpl.
  induction (events (incomingWebhooks d)) as [|e l IH]; [done|]. simpl.
  destruct (bool_decide (incomingPaymentId e = Some pid)) eqn:E; simpl; [done|].
  unfold announces at 1. by rewrite E.
Qed.

Lemma announcements_kept pid pid' d :
  pid' <> pid -> announcements pid (delete_row pid' d) = announcements pid d.
Proof.
  intros Hne. unfold announcements, evs, delete_row. simpl.
  induction (events (incomingWebhooks d)) as [|e l IH]; [done|]. simpl.
  destruct (bool_decide (incomingPaymentId e = Some pid')) eqn:E; simpl.
  - zbool. unfold announces at 2. rewrite E, bool_decide_eq_false_2; [done|congruence].
  - destruct (announces pid e); simpl; by rewrite IH.
Qed.

Lemma effect_announced_once u s s' :
  wf s -> effect u s s' -> announced_once s -> announced_once s'.
Proof.
  intros Hwf He Hs pid. specialize (Hs pid).
  destruct He as [Hr Hevs|options row new Hrow Hid Hf Hn Hr Hevs Hnew|row F Hrow Hev Hr Hevs
    |row Hrow Hopen Hdb|row F e Hrow Hev Hclosed Hsched Hun Hfor Hr Hevs].
  - unfold announcements. by rewrite Hr, Hevs.
  - rewrite (announcements_app pid (db s) _ new Hevs).
    assert (List.filter (announces pid) new = []) as ->.
    { destruct (List.filter _ _) as [|e l] eqn:E; [done|].
      assert (e ∈ List.filter (announces pid) new) as Hin by (rewrite E; left).
      apply elem_of_filter_bool in Hin as [Ha Hin]. unfold announces in Ha.
      destruct (Hnew e Hin) as [Ht _]. by zbool. }
    rewrite Nat.add_0_r, Hr. destruct Hs as [|(? & r & Hin & ?)]; [by left|right].
    split; [done|]. exists r. split; [|done]. apply elem_of_app. by left.
  - unfold announcements. rewrite Hr, Hevs. destruct Hs as [|(? & r & Hin & ? & ? & ?)]; [by left|right].
    split; [done|]. by apply (closed_after_update u _ row F pid r); [apply Hwf|..].
  - rewrite Hdb. destruct (decide (id row = pid)) as [<-|Hne].
    + left. apply announcements_deleted.
    + rewrite announcements_kept by done. destruct Hs as [|(? & r & Hin & <- & ? & ?)]; [by left|right].
      split; [done|]. exists r. split; [|done]. unfold delete_row, rows. simpl.
      apply elem_of_filter_bool. split; [|done]. by rewrite bool_decide_eq_false_2.
  - rewrite (announcements_app pid (db s) _ [e] Hevs), Hr. cbn [List.filter].
    destruct (decide (id row = pid)) as [<-|Hne].
    + right. assert (announcements (id row) (db s) = 0%nat) as ->.
      { destruct Hs as [|(_ & r & Hin & Hid & _ & Hp)]; [done|exfalso].
        rewrite (unique_key id _ r row (wf_ids _ Hwf) Hin Hrow Hid) in Hp. by rewrite Hp in Hsched. }
      rewrite Hfor. split; [done|]. exists (F row). split; [apply update_where_elem; exists row; split; [done|]|].
      { by rewrite bool_decide_eq_true_2. }
      split; [apply (core_id _ _ (ev_core _ _ _ Hev))|]. split; [|done].
      pose proof (ev_state _ _ _ Hev) as Hst. unfold isExpiredOrComplete in *.
      by destruct (state row), (state (F row)).
    + assert (announces pid e = false) as ->.
      { unfold announces in *. zbool. rewrite bool_decide_eq_false_2; [done|congruence]. }
      rewrite Nat.add_0_r. destruct Hs as [|(? & r & Hin & ? & ? & ?)]; [by left|right].
      split; [done|]. by apply (closed_after_update u _ row F pid r); [apply Hwf|..].
Qed.

(** C11. What an incoming payment received is announced for withdrawal at most once:
    in every state the service can reach from an empty table, at most one event that
    the payment expired or was completed was written for each payment. *)
Theorem withdrawal_announced_once s s' pid :
  rows (db s) = [] -> evs (db s) = [] -> rtc step s s' ->
  (announcements pid (db s') <= 1)%nat.
Proof.
  intros Hrows Hevs Hsteps. pose proof (empty_wf s Hrows) as Hwf.
  assert (announced_once s) as Hs by (intros q; left; unfold announcements; by rewrite Hevs).
  assert (announced_once s') as Hs'.
  { clear Hrows Hevs. induction Hsteps as [s|s s1 s2 Hstep Hsteps IH]; [done|].
    apply IH; [by eapply incoming_step_wf|]. destruct (step_acts s s1 Hwf Hstep) as (u & He & _).
    by eapply effect_announced_once. }
  destruct (Hs' pid) as [->|[-> _]]; lia.
Qed.
End History.
