(* ===== verification/IncomingWorker.v ===== *)
(** * IncomingWorker: the worker of incoming payments makes progress

    The worker calls [processNextIncomingPayment] until it answers that there was
    nothing to do.  When the services it asks answer, every run settles one of the
    two things that can be due of a payment, so that the calls come to an end with
    nothing due. *)

From S2P Require Import Prelude Shared Service OpenPayments Accounting.
From S2P Require Webhook.
From S2P Require Import IncomingPayment IncomingSpecs IncomingHistory.

Local Open Scope Z_scope.
Local Open Scope ts_scope.

Section Worker.
Context {X : Type} `{Uuid}.
Context (deps : IncomingDeps X).
Context (pick : list IncomingPayment -> option IncomingPayment).
Context (pick_sound : forall l row, pick l = Some row -> row ∈ l).
(** A query returns a row when there is one. *)
Context (pick_total : forall l, pick l = None -> l = []).

Notation IncomingState := (Svc IncomingDb X).
Implicit Types (s : IncomingState) (p row : IncomingPayment).

(** The services the worker asks return, and know the asset of every payment. *)
Record answers : Prop := {
  received_answers pid x :
    exists r x', getTotalReceived (accountingService deps) pid x = (Ret r, x');
  wallet_answers wid t x : exists w x', walletAddress_get deps wid t x = (Ret w, x');
  asset_answers aid x : exists a x', asset_get deps aid x = (Ret (Some a), x')
}.
Context (services : answers).

Notation processNext := (processNextIncomingPayment deps pick).

(** The worker's calls, at most [n] of them. *)
Fixpoint run_worker (n : nat) s : IncomingState :=
  match n with
  | O => s
  | S n => match processNext s with
           | (Ret (Some _), s') => run_worker n s'
           | (_, s') => s'
           end
  end.

(** What is due of a payment at time [n]: closing it, and announcing it. *)
Definition weight (n : Z) row : Z :=
  if due n row then if isExpiredOrComplete row then 1 else 2 else 0.

Definition workload s : Z := sum_where (fun _ => true) (weight (now s)) (rows (db s)).

Lemma weight_bounds n row : 0 <= weight n row <= 2.
Proof. unfold weight. by destruct (due n row), (isExpiredOrComplete row). Qed.

Lemma workload_bounds s : 0 <= workload s <= 2 * Z.of_nat (length (rows (db s))).
Proof.
  unfold workload. split; [apply sum_where_nonneg; intros; apply weight_bounds|].
  induction (rows (db s)) as [|row l IH]; [done|]. rewrite sum_where_cons.
  pose proof (weight_bounds (now s) row). rewrite length_cons. lia.
Qed.

Lemma answered row : ~ unanswered deps row.
Proof.
  intros [(x & e & x' & Hcall)|(x & x' & Hcall)].
  - destruct (received_answers services (id row) x) as (r & x0 & E). congruence.
  - destruct (asset_answers services (assetId row) x) as (a & x0 & E). congruence.
Qed.

(** A run that settles a payment leaves less to do. *)
Lemma processed_workload s row s' :
  wf s -> row ∈ rows (db s) -> due (now s) row = true -> now s' = now s ->
  processed deps s row s' -> workload s' < workload s.
Proof.
  intros [Hnd _] Hin Hdue Hnow Hproc. unfold workload. rewrite Hnow.
  assert (forall F, rows (db s') = update_where (fun p => bool_decide (id p = id row)) F (rows (db s)) ->
    weight (now s) (F row) < weight (now s) row ->
    sum_where (fun _ => true) (weight (now s)) (rows (db s'))
      < sum_where (fun _ => true) (weight (now s)) (rows (db s))) as Hupdate.
  { intros F -> Hless. rewrite (sum_where_update id) by done. lia. }
  destruct Hproc as [x x' amount _ _ Hopen Hr _|x x' received _ _ Hopen Hdb
    |x x' amount e _ _ Hclosed _ _ Hr _|x x' received _ _ Hclosed Hr _|Hno _ _].
  - apply (Hupdate _ Hr). unfold weight. rewrite Hdue, Hopen.
    change (isExpiredOrComplete (set_state _ _ _ row)) with true. case_match; cbv iota; lia.
  - rewrite Hdb. unfold delete_row, rows. cbn [payments].
    rewrite (sum_where_remove id) by done. unfold weight. rewrite Hdue, Hopen. lia.
  - apply (Hupdate _ Hr). unfold weight. rewrite Hdue, Hclosed. change (due _ _) with false. cbv iota. lia.
  - apply (Hupdate _ Hr). unfold weight. rewrite Hdue, Hclosed. change (due _ _) with false. cbv iota. lia.
  - by apply answered in Hno.
Qed.

Lemma lift_answers {A} (m : M X A) (a : A) x Q s :
  m (ext s) = (Ret a, x) -> Q (Ret a) (set_ext x s) -> wp (lift m) Q s.
Proof. intros Hm HQ. apply wp_lift. intros r x' E. rewrite Hm in E. by simplify_eq. Qed.

(** No run throws. *)
Lemma processNext_returns s : wp processNext (fun r _ => exists o, r = Ret o) s.
Proof.
  unfold processNextIncomingPayment. wp_step. do 4 wp_step.
  destruct (pick _) as [row|] eqn:Hpick; [|apply wp_ret; eauto].
  apply pick_sound, elem_of_filter_bool in Hpick as [Hdue _]. unfold due in Hdue.
  wp_step. unfold fetch_related. wp_step.
  destruct (asset_answers services (assetId (fetched row)) (ext s)) as (a & xa & Ha).
  eapply lift_answers; [exact Ha|]. wp_step.
  destruct (wallet_answers services (walletAddressId (fetched row)) None xa) as (w & xw & Hw).
  eapply lift_answers; [exact Hw|]. apply wp_ret. svc_simpl. wp_step.
  set (p := attach _ _ _ _). change (state p) with (state row).
  destruct (received_answers services (id p) xw) as (r & xr & Hr).
  apply (wp_mono _ (fun o _ => exists u, o = Ret u)); [|intros ? s' [u ->]; apply wp_ret; eauto].
  destruct (state row);
    try (unfold handleExpired; wp_step; eapply lift_answers; [exact Hr|];
         destruct (truthy r); unfold patch; wp_auto; eauto);
    unfold handleDeactivated; change (processAt p) with (processAt row);
    destruct (processAt row); try done; apply wp_try_catch;
    apply wp_call; intros [[]|e] s' _; [eauto|by apply wp_ret; eauto|eauto|by apply wp_ret; eauto].
Qed.

(** One run of the worker: nothing was due, or there is less to do. *)
Lemma processNext_progress s :
  wf s ->
  exists s', now s' = now s /\ wf s' /\
    ((processNext s = (Ret None, s') /\ db s' = db s /\
        forall row, row ∈ rows (db s) -> due (now s) row = false) \/
     (exists pid, processNext s = (Ret (Some pid), s') /\ workload s' < workload s)).
Proof.
  intros Hwf. pose proof (processNext_returns s) as Hret.
  pose proof (processNextIncomingPayment_spec deps None pick pick_sound s) as Hspec.
  unfold wp in Hret, Hspec. destruct (processNext s) as [r s'] eqn:E. cbn [fst snd] in *.
  destruct Hret as [o ->], Hspec as [(He & Hn & Hf) Hs]. exists s'. split; [done|].
  split; [by eapply effect_wf|]. destruct o as [pid|].
  - right. exists pid. split; [done|]. destruct Hs as (row & Hin & _ & Hdue & Hproc).
    by apply (processed_workload s row).
  - left. split; [done|]. destruct Hs as [Hdb Hnone]. split; [done|].
    intros row Hin. destruct (due (now s) row) eqn:Hdue; [exfalso|done].
    apply pick_total in Hnone.
    assert (row ∈ List.filter (due (now s)) (rows (db s))) as Hrow by by apply elem_of_filter_bool.
    rewrite Hnone in Hrow. by apply elem_of_nil in Hrow.
Qed.

(** C29. The worker makes progress: when the services it asks answer, then after at
    most two runs for each payment it finds nothing due any more, and no payment is
    left whose time has come. *)
Theorem incoming_worker_drains s :
  wf s ->
  let s' := run_worker (2 * length (rows (db s))) s in
  (processNext s').1 = Ret None /\
  forall row, row ∈ rows (db s') -> due (now s) row = false.
Proof.
  intros Hwf s'. subst s'. pose proof (workload_bounds s) as [_ Hb].
  assert (workload s <= Z.of_nat (2 * length (rows (db s)))) as Hfuel by lia.
  clear Hb. revert Hfuel. generalize (2 * length (rows (db s)))%nat as n. intros n.
  revert s Hwf. induction n as [|n IH]; intros s Hwf Hfuel;
    destruct (processNext_progress s Hwf) as (s' & Hn & Hwf' & [(E & Hdb & Hdone)|(pid & E & Hless)]).
  - simpl. by rewrite E.
  - pose proof (workload_bounds s'). lia.
  - simpl. rewrite E. rewrite Hdb. split; [|done].
    destruct (processNext_progress s' Hwf') as (s2 & _ & _ & [(E2 & _ & _)|(pid & E2 & Hless)]);
      [by rewrite E2|exfalso].
    pose proof (processNextIncomingPayment_spec deps None pick pick_sound s') as Hspec.
    unfold wp in Hspec. rewrite E2 in Hspec. destruct Hspec as [_ (row & Hin & _ & Hdue & _)].
    rewrite Hdb in Hin. rewrite Hn, (Hdone row Hin) in Hdue. done.
  - simpl. rewrite E. rewrite <- Hn. apply IH; [done|lia].
Qed.
End Worker.
