(* ===== verification/IncomingExamples.v ===== *)
(** * IncomingExamples: a history of incoming payments

    A ledger of totals received and one wallet address.  A payment is created,
    approved, paid, and its money announced; the theorems on incoming payments are
    applied to that history.  Two histories show where the code does not do what it
    means to. *)

From S2P Require Import Prelude Shared Service OpenPayments Accounting.
From S2P Require Quote Webhook.
From S2P Require Import IncomingPayment IncomingSpecs IncomingHistory IncomingWorker.

Local Open Scope Z_scope.
Local Open Scope ts_scope.
Local Open Scope string_scope.

#[local] Existing Instance ConcreteUuid.uuid.
#[local] Existing Instance ConcreteUuid.uuid_laws.

Module Example.

Definition Ledger : Type := gmap string N.

Definition accounting : AccountingService Ledger :=
  {| createLiquidityAccount a _ := ret a;
     createLiquidityAndLinkedSettlementAccount a _ := ret a;
     getBalance _ := ret None; getTotalSent _ := ret None;
     getAccountsTotalSent pids := ret ((fun _ => None) <$> pids);
     getTotalReceived pid := gets (fun x => Z.of_N <$> x !! pid);
     getAccountsTotalReceived pids := gets (fun x => (fun pid => Z.of_N <$> x !! pid) <$> pids);
     getSettlementBalance _ := ret None; createTransfer _ := ret (Err UnknownSourceAccount);
     createDeposit _ := ret None; createWithdrawal _ := ret None;
     postWithdrawal _ := ret None; voidWithdrawal _ := ret None |}.

Definition wallet : WalletAddress := Quote.Example.wallet.

Definition deps : IncomingDeps Ledger :=
  {| incomingPaymentExpiryMaxMs := 10000; pollIncomingPaymentCreatedWebhook := true;
     incomingPaymentCreatedPollFrequency := 10; incomingPaymentCreatedPollTimeout := 50;
     webhookConfig := {| Webhook.operatorTenantId := "operator";
       Webhook.sendTenantWebhooksToOperator := false; Webhook.posWebhookServiceUrl := None;
       Webhook.cardWebhookUrl := None; Webhook.webhookUrl := "https://host/hook";
       Webhook.webhookTimeout := 1000; Webhook.webhookMaxRetry := 10;
       Webhook.signatureSecret := None; Webhook.signatureVersion := 1 |};
     accountingService := accounting;
     walletAddress_get _ _ := ret (Some wallet);
     asset_get _ := ret (Some (wa_asset wallet)) |}.

Definition pick (l : list IncomingPayment) : option IncomingPayment := head l.

Lemma incoming_pick_sound l row : pick l = Some row -> row ∈ l.
Proof. destruct l; [done|]. intros [= ->]. left. Qed.

Lemma pick_total l : pick l = None -> l = [].
Proof. by destruct l. Qed.

Lemma services : answers deps.
Proof. split; intros; do 2 eexists; reflexivity. Qed.

Definition empty : Svc IncomingDb Ledger :=
  {| db := {| payments := [];
              incomingWebhooks := {| Webhook.events := []; Webhook.webhooks := [] |} |};
     now := 1000; Service.fresh := 0; ext := ∅ |}.

Definition create : CreateIncomingPaymentOptions :=
  {| o_walletAddressId := "w"; o_client := None; o_expiresAt := None;
     o_incomingAmount := Some {| value := 100; assetCode := "USD"; assetScale := 2 |};
     o_metadata := None; o_tenantId := "tenant"; o_initiationReason := OpenPayments;
     o_senderWalletAddress := None |}.

(** The payment is created, approved, credited with 100 a second later. *)
Definition created : Svc IncomingDb Ledger := (insertIncomingPayment deps create empty).2.
Definition approved : Svc IncomingDb Ledger := (approveIncomingPayment deps "id-" "tenant" created).2.
Definition funded : Svc IncomingDb Ledger :=
  {| db := db approved; now := now approved + 1000; Service.fresh := Service.fresh approved;
     ext := <["id-" := 100%N]> (ext approved) |}.

Definition no_payment : IncomingPayment :=
  {| id := ""; tenantId := ""; walletAddressId := ""; walletAddress := None; client := None;
     expiresAt := 0; state := Pending; metadata := None; processAt := None; approvedAt := None;
     cancelledAt := None; initiatedBy := Admin; assetId := ""; asset := None;
     incomingAmountValue := None; receivedAmountValue := None; senderWalletAddress := None;
     createdAt := 0; updatedAt := 0 |}.

Definition the_row (s : Svc IncomingDb Ledger) : IncomingPayment := hd no_payment (payments (db s)).

(** The instance the ledger holds, with its asset. *)
Definition account : IncomingPayment := attach (Some (wa_asset wallet)) None None (the_row funded).

Definition credited : Svc IncomingDb Ledger :=
  (onCredit account {| totalReceived := 100; withdrawalThrottleDelay := None |} funded).2.
Definition announced : Svc IncomingDb Ledger := (processNextIncomingPayment deps pick credited).2.

Lemma rows_announced :
  (fun p => (id p, state p, processAt p)) <$> rows (db announced) = [("id-", Completed, None)] /\
  Webhook.ev_type <$> evs (db announced) = ["incoming_payment.created"; "incoming_payment.completed"].
Proof. by vm_compute. Qed.

Notation example_step := (step deps pick).

Lemma incoming_step_created : example_step empty created.
Proof. exact (step_create deps pick create empty). Qed.
Lemma step_approved : example_step created approved.
Proof. exact (step_approve deps pick "id-" "tenant" created). Qed.
Lemma incoming_step_funded : example_step approved funded.
Proof. exact (step_elapse deps pick approved 1000 _ ltac:(lia)). Qed.
Lemma step_credited : example_step funded credited.
Proof. exact (step_credit deps pick _ _ funded). Qed.
Lemma step_announced : example_step credited announced.
Proof. exact (step_process deps pick credited). Qed.

Lemma until_credited : rtc example_step created credited.
Proof.
  exact (rtc_l _ _ _ _ step_approved (rtc_l _ _ _ _ incoming_step_funded (rtc_once _ _ step_credited))).
Qed.

Lemma until_paid : rtc example_step empty credited.
Proof. exact (rtc_l _ _ _ _ incoming_step_created until_credited). Qed.

Lemma whole_history : rtc example_step empty announced.
Proof. exact (transitivity until_paid (rtc_once _ _ step_announced)). Qed.

Lemma wf_created : wf created.
Proof. exact (incoming_step_wf deps pick incoming_pick_sound _ _ (empty_wf empty eq_refl) incoming_step_created). Qed.

Lemma wf_credited : wf credited.
Proof. exact (incoming_steps_wf deps pick incoming_pick_sound _ _ wf_created until_credited). Qed.

Lemma row_created : the_row created ∈ rows (db created).
Proof. left. Qed.
Lemma row_credited : the_row credited ∈ rows (db credited).
Proof. left. Qed.

(** While the creation waits, somebody approves the payment. *)
Definition approving (ms : Z) : M (Svc IncomingDb Ledger) unit :=
  approveIncomingPayment deps "id-" "tenant" ;;! ret tt.

(** ** Another payment's cancellation ends the waiting

    The clause of the query that is polled, [id AND approved OR cancelled], is true of
    every cancelled payment: a creation is refused although it is approved in time. *)

Definition with_cancelled : Svc IncomingDb Ledger :=
  (cancelIncomingPayment deps "id-" "tenant" created).2.

(** The second payment is ["id-111"]. *)
Definition approving_second (ms : Z) : M (Svc IncomingDb Ledger) unit :=
  approveIncomingPayment deps "id-111" "tenant" ;;! ret tt.

Lemma cancelled_payment_blocks_others :
  (exists p, (createIncomingPayment deps approving pick create empty).1 = Ret (Ok p)) /\
  (createIncomingPayment deps approving_second pick create with_cancelled).1
  = Ret (Err IncomingPaymentError.ActionNotPerformed) /\
  (fun p => (id p, is_some (approvedAt p), is_some (cancelledAt p))) <$>
    rows (db (approving_second 10 (insertIncomingPayment deps create with_cancelled).2).2)
  = [("id-", false, true); ("id-111", true, false)].
Proof. split; [eexists; by vm_compute|split; by vm_compute]. Qed.

(** ** An update reaches the payments of other tenants *)

Definition foreign_update : UpdateOptions :=
  {| u_id := "id-"; u_metadata := ∅; u_tenantId := "other" |}.

(** The payment of ["tenant"] then belongs to the tenant that updated it. *)
Lemma update_takes_over :
  tenantId (the_row created) = "tenant" /\
  tenantId (the_row (updateIncomingPayment deps foreign_update created).2) = "other".
Proof. by vm_compute. Qed.
End Example.

Lemma incoming_payment_state_machine_witness :
  core_eq (Example.the_row Example.created) (Example.the_row Example.credited) /\
  settings_in_history Example.deps Example.pick Example.created Example.credited
    (Example.the_row Example.created) (Example.the_row Example.credited) /\
  may_become (state (Example.the_row Example.created)) (state (Example.the_row Example.credited)) = true.
Proof.
  exact (incoming_payment_state_machine Example.deps Example.pick Example.incoming_pick_sound
    Example.created Example.credited (Example.the_row Example.created)
    (Example.the_row Example.credited) Example.wf_created Example.until_credited Example.row_created Example.row_credited
    (eq_refl : id (Example.the_row Example.credited) = id (Example.the_row Example.created))).
Defined.

Lemma never_approved_and_cancelled_witness :
  is_some (approvedAt (Example.the_row Example.credited)) = true /\
  not_both (Example.the_row Example.credited).
Proof.
  split; [by vm_compute|].
  exact (never_approved_and_cancelled Example.deps Example.pick Example.incoming_pick_sound _ _ _
    (eq_refl : rows (db Example.empty) = []) Example.until_paid Example.row_credited).
Defined.

Lemma withdrawal_announced_once_witness :
  announcements "id-" (db Example.announced) = 1%nat /\
  (announcements "id-" (db Example.announced) <= 1)%nat.
Proof.
  split; [by vm_compute|].
  exact (withdrawal_announced_once Example.deps Example.pick Example.incoming_pick_sound _ _ "id-"
    (eq_refl : rows (db Example.empty) = []) eq_refl Example.whole_history).
Defined.

Lemma incoming_create_effect_witness :
  exists p, IncomingSpecs.created Example.deps Example.create Example.empty p Example.created.
Proof.
  assert (exists p, insertIncomingPayment Example.deps Example.create Example.empty
                    = (Ret (Ok p), Example.created)) as [p E] by (eexists; by vm_compute).
  exists p. exact (incoming_create_effect Example.deps Example.create _ _ _ E).
Defined.

Lemma create_returns_approved_witness :
  exists p s, createIncomingPayment Example.deps Example.approving Example.pick Example.create
                Example.empty = (Ret (Ok p), s) /\ approved_in "id-" p s.
Proof.
  assert (exists p s, createIncomingPayment Example.deps Example.approving Example.pick
    Example.create Example.empty = (Ret (Ok p), s)) as (p & s & E) by (do 2 eexists; by vm_compute).
  exists p, s. split; [exact E|].
  pose proof (create_returns_approved Example.deps Example.pick Example.incoming_pick_sound Example.approving
    Example.create Example.empty _ _ eq_refl E) as Hs.
  destruct (insertIncomingPayment Example.deps Example.create Example.empty).1 as [[p0|]|] eqn:E0;
    [|discriminate Hs|discriminate Hs].
  assert (id p0 = "id-") as <- by (vm_compute in E0; by simplify_eq).
  destruct Hs as [[=]|(p' & [= ->] & Hp)]. exact Hp.
Defined.

Lemma incoming_worker_settles_witness :
  exists row, row ∈ rows (db Example.credited) /\ id row = "id-" /\
    due (now Example.credited) row = true /\
    processed Example.deps Example.credited row Example.announced.
Proof.
  exact (incoming_worker_settles Example.deps Example.pick Example.incoming_pick_sound
    Example.credited (Ret (Some "id-")) Example.announced ltac:(by vm_compute)).
Defined.

Lemma approve_effect_witness :
  exists p, acted cancelledAt approvedAt "id-" "tenant" Example.created (Ok p) Example.approved.
Proof.
  assert (exists p, approveIncomingPayment Example.deps "id-" "tenant" Example.created
                    = (Ret (Ok p), Example.approved)) as [p E] by (eexists; by vm_compute).
  exists p. exact (approve_effect Example.deps "id-" "tenant" _ _ _ E).
Defined.

Lemma incoming_worker_drains_witness :
  due (now Example.credited) (Example.the_row Example.credited) = true /\
  (processNextIncomingPayment Example.deps Example.pick
     (run_worker Example.deps Example.pick (2 * length (rows (db Example.credited)))
        Example.credited)).1 = Ret None.
Proof.
  split; [by vm_compute|].
  exact (proj1 (incoming_worker_drains Example.deps Example.pick Example.incoming_pick_sound
    Example.pick_total Example.services _ Example.wf_credited)).
Defined.
