(* ===== verification/WalletAddresses.v ===== *)
(** * WalletAddresses: wallet addresses, their keys and their events

    Models [open_payments/wallet_address/{model,service,errors}.ts], [key/{model,service}.ts]
    and [additional_property/model.ts].  The tables are those of the service, with the
    incoming payments it expires and the webhook events it writes; [walletAddressCache] is an
    in-memory store of [Cache], which no transaction restores.  The cache holds the objects
    themselves: a method that changes an object it was given changes the entry, which
    [onCredit] writes out.  URLs are parsed by a parameter; texts are of one byte a
    character, and only letters of ASCII have two cases. *)

From Stdlib Require Import Ascii.
From S2P Require Import Prelude Text Shared Service Cache Pagination OpenPayments Accounting Tenants Webhook IncomingPayment.

Local Open Scope Z_scope.
Local Open Scope ts_scope.

(** ** [errors.ts] *)

Inductive WalletAddressError :=
| InvalidUrl | WalletUnknownAsset | UnknownWalletAddress | DuplicateWalletAddress
| WalletAddressSettingNotFound.

#[global] Instance WalletAddressError_eq_dec : EqDecision WalletAddressError.
Proof. solve_decision. Defined.

Inductive WalletAddressKeyError := DuplicateKey.

(** ** The tables *)

Record AdditionalPropertyInput := {
  fieldKey : string;
  fieldValue : string;
  visibleInOpenPayments : bool
}.

Record AdditionalProperty := { ap_id : string; ap_walletAddressId : string; ap_input : AdditionalPropertyInput }.

(** A row, and what is attached to an instance: its asset, and its properties when it was
    just created. *)
Record WalletRow := {
  w_id : string;
  w_tenantId : string;
  w_address : string;
  w_publicName : option string;
  w_assetId : string;
  w_totalEventsAmount : Z;
  w_processAt : option Z;
  w_deactivatedAt : option Z;
  w_createdAt : Z;
  w_asset : option Asset;
  w_properties : option (list AdditionalProperty)
}.

#[global] Instance WalletRow_model : BaseModel WalletRow := { id := w_id; createdAt := w_createdAt }.

(** The columns that change, and what is attached. *)
Definition with_wallet (name : option string) (total : Z) (process deactivated : option Z)
    (a : option Asset) (ps : option (list AdditionalProperty)) (w : WalletRow) : WalletRow :=
  {| w_id := w_id w; w_tenantId := w_tenantId w; w_address := w_address w; w_publicName := name;
     w_assetId := w_assetId w; w_totalEventsAmount := total; w_processAt := process;
     w_deactivatedAt := deactivated; w_createdAt := w_createdAt w; w_asset := a; w_properties := ps |}.

Definition set_wprocessAt (t : option Z) (w : WalletRow) : WalletRow :=
  with_wallet (w_publicName w) (w_totalEventsAmount w) t (w_deactivatedAt w) (w_asset w) (w_properties w) w.
Definition set_total (z : Z) (w : WalletRow) : WalletRow :=
  with_wallet (w_publicName w) z (w_processAt w) (w_deactivatedAt w) (w_asset w) (w_properties w) w.
Definition set_wallet_columns (name : option string) (deactivated : option Z) (w : WalletRow) : WalletRow :=
  with_wallet name (w_totalEventsAmount w) (w_processAt w) deactivated (w_asset w) (w_properties w) w.
Definition set_asset (a : option Asset) (w : WalletRow) : WalletRow :=
  with_wallet (w_publicName w) (w_totalEventsAmount w) (w_processAt w) (w_deactivatedAt w) a (w_properties w) w.

(** [get isActive] *)
Definition is_wallet_active (now : Z) (w : WalletRow) : bool :=
  match w_deactivatedAt w with Some t => now <? t | None => true end.

Record JWK := { kid : string; jwk_x : string }.

Record WalletAddressKey := {
  wk_id : string;
  wk_walletAddressId : string;
  wk_jwk : JWK;
  wk_revoked : bool;
  wk_createdAt : Z
}.

#[global] Instance WalletAddressKey_model : BaseModel WalletAddressKey :=
  { id := wk_id; createdAt := wk_createdAt }.

Inductive WalletAddressEventType := WalletAddressWebMonetization | WalletAddressNotFound.

Definition WalletAddressEventType_value (t : WalletAddressEventType) : string :=
  match t with
  | WalletAddressWebMonetization => "wallet_address.web_monetization"
  | WalletAddressNotFound => "wallet_address.not_found"
  end.

Inductive WalletAddressEventData :=
| WalletAddressData (wid : string) (created : Z) (receivedAmount : Amount)
| WalletAddressRequestedData (url : string).

Record WalletDb := {
  walletAddresses : list WalletRow;
  additionalProperties : list AdditionalProperty;
  walletAddressKeys : list WalletAddressKey;
  incomingPayments : list IncomingPayment;
  walletWebhooks : WebhookDb WalletAddressEventData;
  walletAddressCache : Cache WalletRow
}.

#[global] Instance WalletDb_webhooks : HasWebhooks WalletAddressEventData WalletDb := {
  webhookDb := walletWebhooks;
  set_webhookDb h d :=
    {| walletAddresses := walletAddresses d; additionalProperties := additionalProperties d;
       walletAddressKeys := walletAddressKeys d; incomingPayments := incomingPayments d;
       walletWebhooks := h; walletAddressCache := walletAddressCache d |}
}.

Definition set_wallets (f : list WalletRow -> list WalletRow) (d : WalletDb) : WalletDb :=
  {| walletAddresses := f (walletAddresses d); additionalProperties := additionalProperties d;
     walletAddressKeys := walletAddressKeys d; incomingPayments := incomingPayments d;
     walletWebhooks := walletWebhooks d; walletAddressCache := walletAddressCache d |}.
Definition set_properties (f : list AdditionalProperty -> list AdditionalProperty) (d : WalletDb) : WalletDb :=
  {| walletAddresses := walletAddresses d; additionalProperties := f (additionalProperties d);
     walletAddressKeys := walletAddressKeys d; incomingPayments := incomingPayments d;
     walletWebhooks := walletWebhooks d; walletAddressCache := walletAddressCache d |}.
Definition set_keys (f : list WalletAddressKey -> list WalletAddressKey) (d : WalletDb) : WalletDb :=
  {| walletAddresses := walletAddresses d; additionalProperties := additionalProperties d;
     walletAddressKeys := f (walletAddressKeys d); incomingPayments := incomingPayments d;
     walletWebhooks := walletWebhooks d; walletAddressCache := walletAddressCache d |}.
Definition set_incoming (f : list IncomingPayment -> list IncomingPayment) (d : WalletDb) : WalletDb :=
  {| walletAddresses := walletAddresses d; additionalProperties := additionalProperties d;
     walletAddressKeys := walletAddressKeys d; incomingPayments := f (incomingPayments d);
     walletWebhooks := walletWebhooks d; walletAddressCache := walletAddressCache d |}.
Definition set_walletCache (f : Cache WalletRow -> Cache WalletRow) (d : WalletDb) : WalletDb :=
  {| walletAddresses := walletAddresses d; additionalProperties := additionalProperties d;
     walletAddressKeys := walletAddressKeys d; incomingPayments := incomingPayments d;
     walletWebhooks := walletWebhooks d; walletAddressCache := f (walletAddressCache d) |}.

(** ** What the service is given and calls *)

Record WalletConfig := {
  openPaymentsUrl : string;
  walletAddressPollingFrequencyMs : Z;
  walletAddressLookupTimeoutMs : Z;
  walletAddressDeactivationPaymentGracePeriodMs : Z;
  walletCacheDuration : Z;
  walletWebhookConfig : WebhookConfig
}.

(** A parsed URL. *)
Record UrlParts := { href : string; origin : string; pathname : string; url_protocol : string }.

Class WalletServices (X : Type) := {
  (* [new URL(s)], [None] where it throws *)
  newURL : string -> option UrlParts;
  (* [assetService.get] *)
  walletAsset_get : string -> option string -> M X (option Asset);
  (* [tenantSettingService.get] and [getSettingsByPrefix] *)
  walletSettings_get : string -> string -> M X (list TenantSetting);
  settings_by_prefix : string -> M X (list TenantSetting);
  (* [accountingService.getTotalReceived] *)
  wallet_totalReceived : string -> M X (option Z);
  (* the row of [assets] a relation fetches *)
  asset_relation : X -> string -> option Asset;
  (* rows of [assets] and [tenants] *)
  has_asset : X -> string -> bool;
  has_tenant : X -> string -> bool
}.

Record CreateWalletOptions := {
  cw_tenantId : string;
  cw_address : string;
  cw_assetId : string;
  cw_publicName : option string;
  cw_additionalProperties : option (list AdditionalPropertyInput);
  cw_isOperator : bool
}.

Inductive Status := ACTIVE | INACTIVE.

#[global] Instance Status_eq_dec : EqDecision Status.
Proof. solve_decision. Defined.

Record UpdateWalletOptions := {
  uw_id : string;
  uw_status : option Status;
  uw_publicName : option string;
  uw_additionalProperties : option (list AdditionalPropertyInput)
}.

(** ** Texts *)

Fixpoint toLowerCase (s : string) : string :=
  match s with String c s => String (lower c) (toLowerCase s) | EmptyString => EmptyString end.

(** [s.includes(t)] *)
Fixpoint includes (t s : string) : bool :=
  String.prefix t s || match s with String _ s => includes t s | EmptyString => false end.

Fixpoint endsWith_slash (s : string) : bool :=
  match s with
  | EmptyString => false
  | String c EmptyString => Ascii.eqb c "/"%char
  | String _ s => endsWith_slash s
  end.

Definition FORBIDDEN_PATHS : list string := ["/incoming-payments"; "/outgoing-payments"; "/quotes"]%string.

Definition trim (s : string) : string := trim_left (trim_right s).

Definition cleanAdditionalProperties (l : list AdditionalPropertyInput) : list AdditionalPropertyInput :=
  List.filter (fun p => truthy (fieldKey p) && truthy (fieldValue p))
    (map (fun p => {| fieldKey := trim (fieldKey p); fieldValue := trim (fieldValue p);
                      visibleInOpenPayments := visibleInOpenPayments p |}) l).

Section WalletService.
Context {X : Type} `{Uuid} `{!WalletServices X}.
Context (config : WalletConfig).

Definition WalletState : Type := Svc WalletDb X.

(** What everything else does while a lookup waits between two polls. *)
Context (sleep : Z -> M WalletState unit).
(** [SELECT ... LIMIT n] without an order. *)
Context (select : Z -> list WalletRow -> list WalletRow).

(** A transaction over the tables. *)
Definition wallet_transaction {A} (m : M WalletState A) : M WalletState A :=
  with_transaction (fun s s' =>
    set_db (set_walletCache (fun _ => walletAddressCache (db s')) (db s)) s') m.

Definition TypeError : exn := JsError "TypeError" "".

(** [new URL(s)] *)
Definition parse_or_throw (s : string) : M WalletState UrlParts :=
  match newURL s with Some u => ret u | None => throw TypeError end.

Definition isValidWalletAddressUrl (walletAddressUrl : string) : bool :=
  match newURL walletAddressUrl with
  | None => false
  | Some url =>
      if negb (bool_decide (url_protocol url = "https:"%string)) || bool_decide (pathname url = "/"%string)
      then false
      else negb (existsb (fun path => includes path (pathname url)) FORBIDDEN_PATHS)
  end.

(** The URL of the tenant under which an address is made: the setting, or that of the node
    for the operator. *)
Definition tenant_url (options : CreateWalletOptions) : M WalletState (res WalletAddressError UrlParts) :=
  let! tenantWalletAddressUrl := parse_or_throw (openPaymentsUrl config) in
  let! found := lift (walletSettings_get (cw_tenantId options) WALLET_ADDRESS_URL) in
  match found with
  | [] => if negb (cw_isOperator options) then ret (Err WalletAddressSettingNotFound)
          else ret (Ok tenantWalletAddressUrl)
  | setting :: _ => let! url := parse_or_throw (ts_value setting) in ret (Ok url)
  end.

Definition tenant_base (url : UrlParts) : string :=
  if negb (endsWith_slash (pathname url)) then origin url +:+ pathname url +:+ "/" else href url.

(** A full URL must begin with that of the tenant; anything else is put behind it. *)
Definition final_url (tenant : UrlParts) (address : string) : res WalletAddressError string :=
  match newURL address with
  | Some walletAddressUrl =>
      if negb (String.prefix (href tenant) (href walletAddressUrl)) then Err InvalidUrl
      else Ok (href walletAddressUrl)
  | None =>
      let relativePath := match address with String "/"%char rest => rest | _ => address end in
      Ok (tenant_base tenant +:+ relativePath)
  end.

Definition createWalletAddressUrl (options : CreateWalletOptions)
  : M WalletState (res WalletAddressError string) :=
  let! tenant := tenant_url options in
  match tenant with
  | Err e => ret (Err e)
  | Ok tenant =>
      match final_url tenant (cw_address options) with
      | Err e => ret (Err e)
      | Ok url => if negb (isValidWalletAddressUrl url) then ret (Err InvalidUrl) else ret (Ok url)
      end
  end.

Definition walletCache_get (k : string) : M WalletState (option WalletRow) :=
  let! now := date_now in
  let! cache := db_get walletAddressCache in
  let '(wallet, cache) := cache_get now k cache in
  db_set (set_walletCache (fun _ => cache)) ;;! ret wallet.

Definition walletCache_set (k : string) (w : WalletRow) : M WalletState unit :=
  let! now := date_now in
  db_set (set_walletCache (cache_set (walletCacheDuration config) now k w)).

(** Columns of text hold 255 characters. *)
Definition fits_text (o : option string) : bool :=
  match o with Some s => fits_varchar s | None => true end.

Definition insert_wallet (tenantId address : string) (name : option string) (assetId : string)
  : M WalletState WalletRow :=
  let! i := uuid in
  let! now := date_now in
  let! rows := db_get walletAddresses in
  let! x := gets ext in
  let w := {| w_id := i; w_tenantId := tenantId; w_address := address; w_publicName := name;
              w_assetId := assetId; w_totalEventsAmount := 0; w_processAt := None;
              w_deactivatedAt := None; w_createdAt := now; w_asset := None; w_properties := None |} in
  if negb (fits_varchar address && fits_text name) then throw value_too_long
  else if existsb (fun w => bool_decide (w_id w = i)) rows
  then throw (UniqueViolationError "walletAddresses_pkey")
  else if existsb (fun w => bool_decide (w_address w = address)) rows
  then throw (UniqueViolationError "walletaddresses_url_unique")
  else if negb (has_asset x assetId) then throw (ForeignKeyViolationError "walletaddresses_assetid_foreign")
  else if negb (has_tenant x tenantId) then throw (ForeignKeyViolationError "walletaddresses_tenantid_foreign")
  else db_set (set_wallets (fun l => l ++ [w])) ;;! ret w.

(** One statement. *)
Fixpoint insert_properties (wid : string) (l : list AdditionalPropertyInput)
  : M WalletState (list AdditionalProperty) :=
  match l with
  | [] => ret []
  | p :: l =>
      let! i := uuid in
      if negb (fits_varchar (fieldKey p) && fits_varchar (fieldValue p)) then throw value_too_long
      else
      let row := {| ap_id := i; ap_walletAddressId := wid; ap_input := p |} in
      db_set (set_properties (fun l => l ++ [row])) ;;!
      let! rows := insert_properties wid l in
      ret (row :: rows)
  end.

Definition with_properties (ps : option (list AdditionalProperty)) (w : WalletRow) : WalletRow :=
  with_wallet (w_publicName w) (w_totalEventsAmount w) (w_processAt w) (w_deactivatedAt w) (w_asset w) ps w.

(** [insertGraphAndFetch]: the row, then the rows that refer to it; no transaction is given. *)
Definition insert_wallet_graph (tenantId address : string) (name : option string) (assetId : string)
    (properties : option (list AdditionalPropertyInput)) : M WalletState WalletRow :=
  let! w := insert_wallet tenantId address name assetId in
  match properties with
  | Some properties =>
      let! rows := transaction (insert_properties (w_id w) properties) in
      ret (with_properties (Some rows) w)
  | None => ret w
  end.

Definition createWalletAddress (options : CreateWalletOptions)
  : M WalletState (res WalletAddressError WalletRow) :=
  let! url := createWalletAddressUrl options in
  match url with
  | Err e => ret (Err e)
  | Ok url =>
      try_catch
        (let! asset := lift (walletAsset_get (cw_assetId options) (Some (cw_tenantId options))) in
         match asset with
         | None => ret (Err WalletUnknownAsset)
         | Some asset =>
             let! w := insert_wallet_graph (cw_tenantId options) (toLowerCase url)
                         (cw_publicName options) (a_id asset)
                         (cleanAdditionalProperties <$> cw_additionalProperties options) in
             let w := set_asset (Some asset) w in
             walletCache_set (w_id w) w ;;!
             ret (Ok w)
         end)
        (fun err => match err with
                    | ForeignKeyViolationError constraint =>
                        if bool_decide (constraint = "walletaddresses_assetid_foreign"%string)
                        then ret (Err WalletUnknownAsset) else throw err
                    | UniqueViolationError constraint =>
                        if bool_decide (constraint = "walletaddresses_url_unique"%string)
                        then ret (Err DuplicateWalletAddress) else throw err
                    | _ => throw err
                    end)
  end.

Definition wallet_by_id (i : string) (w : WalletRow) : bool := bool_decide (w_id w = i).

(** The asset of an instance, when there is one. *)
Definition attach_asset (w : WalletRow) : M WalletState WalletRow :=
  let! asset := lift (walletAsset_get (w_assetId w) None) in
  ret (match asset with Some a => set_asset (Some a) w | None => w end).

(** The open payments of the wallet address that expire later expire at [expiresAt]. *)
Definition expires_with (wid : string) (expiresAt : Z) (p : IncomingPayment) : bool :=
  bool_decide (IncomingPayment.walletAddressId p = wid)
  && (bool_decide (state p = Pending) || bool_decide (state p = Processing))
  && (expiresAt <? IncomingPayment.expiresAt p).

Definition set_expiresAt (expiresAt now : Z) (p : IncomingPayment) : IncomingPayment :=
  {| IncomingPayment.id := IncomingPayment.id p; tenantId := tenantId p;
     IncomingPayment.walletAddressId := IncomingPayment.walletAddressId p;
     walletAddress := walletAddress p; client := client p; IncomingPayment.expiresAt := expiresAt;
     state := state p; metadata := metadata p; processAt := processAt p; approvedAt := approvedAt p;
     cancelledAt := cancelledAt p; initiatedBy := initiatedBy p; assetId := assetId p; asset := asset p;
     incomingAmountValue := incomingAmountValue p; receivedAmountValue := receivedAmountValue p;
     senderWalletAddress := senderWalletAddress p; IncomingPayment.createdAt := IncomingPayment.createdAt p;
     updatedAt := now |}.

Definition deactivateOpenIncomingPaymentsByWalletAddress (wid : string) : M WalletState unit :=
  let! now := date_now in
  let expiresAt := now + walletAddressDeactivationPaymentGracePeriodMs config in
  db_set (set_incoming (update_where (expires_with wid expiresAt) (set_expiresAt expiresAt now))).

(** The body of the transaction. *)
Definition patchWalletAddress (options : UpdateWalletOptions) : M WalletState WalletRow :=
  let i := uw_id options in
  let! found := db_get (fun d => find_where (wallet_by_id i) (walletAddresses d)) in
  match found with
  | None => throw (JsError "NotFoundError" "")
  | Some walletAddress =>
      let! now := date_now in
      let! deactivatedAt :=
        if bool_decide (uw_status options = Some INACTIVE) && is_wallet_active now walletAddress then
          deactivateOpenIncomingPaymentsByWalletAddress i ;;! ret (Some now)
        else if bool_decide (uw_status options = Some ACTIVE) && negb (is_wallet_active now walletAddress)
        then ret None else ret (w_deactivatedAt walletAddress) in
      if negb (fits_text (uw_publicName options)) then throw value_too_long
      else
      let name w := match uw_publicName options with Some n => Some n | None => w_publicName w end in
      db_set (set_wallets (update_where (wallet_by_id i) (fun w => set_wallet_columns (name w) deactivatedAt w))) ;;!
      let! updated := attach_asset (set_wallet_columns (name walletAddress) deactivatedAt walletAddress) in
      match uw_additionalProperties options with
      | Some properties =>
          db_set (set_properties (List.filter (fun p => negb (bool_decide (ap_walletAddressId p = i))))) ;;!
          insert_properties i (cleanAdditionalProperties properties) ;;! ret tt
      | None => ret tt
      end ;;!
      ret updated
  end.

Definition updateWalletAddress (options : UpdateWalletOptions)
  : M WalletState (res WalletAddressError WalletRow) :=
  try_catch
    (let! updated := wallet_transaction (patchWalletAddress options) in
     walletCache_set (w_id updated) updated ;;!
     ret (Ok updated))
    (fun err => match err with
                | JsError name _ =>
                    if bool_decide (name = "NotFoundError"%string) then ret (Err UnknownWalletAddress)
                    else throw err
                | _ => throw err
                end).

Definition wallet_of_tenant (tenantId : option string) (w : WalletRow) : bool :=
  negb (truthy tenantId) || bool_decide (Some (w_tenantId w) = tenantId).

Definition getWalletAddress (i : string) (tenantId : option string) : M WalletState (option WalletRow) :=
  let! inMem := walletCache_get i in
  match inMem with
  | Some inMem => ret (if wallet_of_tenant tenantId inMem then Some inMem else None)
  | None =>
      let! walletAddress := db_get (fun d =>
        find_where (fun w => wallet_of_tenant tenantId w && wallet_by_id i w) (walletAddresses d)) in
      match walletAddress with
      | Some w =>
          let! w := attach_asset w in
          walletCache_set i w ;;!
          ret (Some w)
      | None => ret None
      end
  end.

Definition getWalletAdditionalProperties (wid : string) (includeVisibleOnlyAddProps : bool)
  : M WalletState (list AdditionalProperty) :=
  db_get (fun d => List.filter (fun p =>
    bool_decide (ap_walletAddressId p = wid)
    && (negb includeVisibleOnlyAddProps || visibleInOpenPayments (ap_input p))) (additionalProperties d)).

Definition getWalletAddressByUrl (url : string) (tenantId : option string)
  : M WalletState (option WalletRow) :=
  let! walletAddress := db_get (fun d => find_where (fun w =>
    wallet_of_tenant tenantId w && bool_decide (w_address w = toLowerCase url)) (walletAddresses d)) in
  match walletAddress with
  | Some w => let! w := attach_asset w in ret (Some w)
  | None => ret None
  end.

Definition not_found_event (url eventId : string) (now : Z) : WebhookEvent WalletAddressEventData :=
  {| ev_id := eventId; ev_type := WalletAddressEventType_value WalletAddressNotFound;
     ev_data := WalletAddressRequestedData url;
     ev_tenantId := Webhook.operatorTenantId (walletWebhookConfig config);
     outgoingPaymentId := None; incomingPaymentId := None; Webhook.walletAddressId := None;
     ev_assetId := None; peerId := None; withdrawal := None; ev_createdAt := now |}.

Definition tenant_recipients (ids : list string) : list Recipient :=
  finalizeWebhookRecipients
    {| tenantIds := ids; o_sendToPosService := false; o_sendToCardService := false;
       omitTenantRecipients := false |} (walletWebhookConfig config).

(** A failure of the polling is an address that is not found. *)
Definition getOrPollByUrl (url : string) : M WalletState (option WalletRow) :=
  let! existingWalletAddress := getWalletAddressByUrl url None in
  match existingWalletAddress with
  | Some w => ret (Some w)
  | None =>
      let! settings := lift (settings_by_prefix url) in
      let webhookRecipients :=
        match ts_tenantId <$> settings with
        | [] => [Webhook.operatorTenantId (walletWebhookConfig config)]
        | ids => ids
        end in
      insertGraph (not_found_event url) (tenant_recipients webhookRecipients) ;;!
      try_catch
        (let! w := poll (getWalletAddressByUrl url None) sleep
                     (walletAddressPollingFrequencyMs config) (walletAddressLookupTimeoutMs config) in
         ret (Some w))
        (fun _ => ret None)
  end.

Fixpoint attach_assets (l : list WalletRow) : M WalletState (list WalletRow) :=
  match l with
  | [] => ret []
  | w :: l => let! w := attach_asset w in let! l := attach_assets l in ret (w :: l)
  end.

Definition getWalletAddressPage (pagination : option Pagination.Pagination) (sortOrder : Pagination.SortOrder)
    (tenantId : option string) : M WalletState (list WalletRow) :=
  let! table := db_get walletAddresses in
  match Pagination.getPage table (wallet_of_tenant tenantId) pagination sortOrder with
  | Ret page => attach_assets page
  | Throw e => throw e
  end.

(** *** Web monetization *)

(** [toData], which reads the asset of the instance. *)
Definition toData (received : Z) (w : WalletRow) : M WalletState WalletAddressEventData :=
  match w_asset w with
  | Some a => ret (WalletAddressData (w_id w) (w_createdAt w)
                     {| value := received; assetCode := a_code a; assetScale := a_scale a |})
  | None => throw TypeError
  end.

Definition withdrawal_event (w : WalletRow) (data : WalletAddressEventData) (amount : Z)
    (eventId : string) (now : Z) : WebhookEvent WalletAddressEventData :=
  {| ev_id := eventId; ev_type := WalletAddressEventType_value WalletAddressWebMonetization;
     ev_data := data; ev_tenantId := w_tenantId w; outgoingPaymentId := None; incomingPaymentId := None;
     Webhook.walletAddressId := Some (w_id w); ev_assetId := None; peerId := None;
     withdrawal := Some {| accountId := w_id w; Webhook.assetId := w_assetId w; w_amount := amount |};
     ev_createdAt := now |}.

Definition createWithdrawalEvent (w : WalletRow) : M WalletState unit :=
  let! totalReceived := lift (wallet_totalReceived (w_id w)) in
  match totalReceived with
  | None => ret tt
  | Some totalReceived =>
      if negb (truthy totalReceived) then ret tt
      else
      let amount := totalReceived - w_totalEventsAmount w in
      if amount <=? 0 then ret tt
      else
      let! data := toData amount w in
      if negb (amount <? 2 ^ 63) then throw (JsError "DataError" "")
      else
      insertGraph (withdrawal_event w data amount) (tenant_recipients [w_tenantId w]) ;;!
      if negb (w_totalEventsAmount w + amount <? 2 ^ 63) then throw (JsError "DataError" "")
      else
      db_set (set_wallets (update_where (wallet_by_id (w_id w))
                             (set_total (w_totalEventsAmount w + amount))))
  end.

Fixpoint process_wallets (l : list WalletRow) : M WalletState unit :=
  match l with
  | [] => ret tt
  | w :: l =>
      createWithdrawalEvent w ;;!
      db_set (set_wallets (update_where (wallet_by_id (w_id w)) (set_wprocessAt None))) ;;!
      process_wallets l
  end.

Definition wallet_due (now : Z) (w : WalletRow) : bool :=
  match w_processAt w with Some t => t <=? now | None => false end.

Definition processNextWalletAddresses (limit : Z) : M WalletState (list WalletRow) :=
  wallet_transaction
    (let! now := date_now in
     let! walletAddresses := db_get (fun d =>
       select limit (List.filter (wallet_due now) (walletAddresses d))) in
     let! walletAddresses := attach_assets walletAddresses in
     process_wallets walletAddresses ;;!
     ret walletAddresses).

Definition processNextWalletAddress : M WalletState (option string) :=
  let! walletAddresses := processNextWalletAddresses 1 in
  ret (w_id <$> head walletAddresses).

Definition triggerWalletAddressEvents (limit : Z) : M WalletState Z :=
  let! walletAddresses := processNextWalletAddresses limit in
  ret (Z.of_nat (List.length walletAddresses)).

(** [$query().patch] changes the row, and the instance, which the cache holds. *)
Definition patch_instance (t : option Z) (w : WalletRow) : M WalletState WalletRow :=
  db_set (set_wallets (update_where (wallet_by_id (w_id w)) (set_wprocessAt t))) ;;!
  db_set (set_walletCache (alter (fun c => {| expiry := expiry c; data := set_wprocessAt t (data c) |})
                             (w_id w))) ;;!
  ret (set_wprocessAt t w).

(** [onCredit] of an instance from [getWalletAddress]. *)
Definition onCredit (w : WalletRow) (options : OnCreditOptions) : M WalletState WalletRow :=
  match w_asset w with
  | None => throw TypeError
  | Some asset =>
      let! now := date_now in
      let! scheduled :=
        match a_withdrawalThreshold asset with
        | Some threshold =>
            let p w' := wallet_by_id (w_id w) w'
                        && (w_totalEventsAmount w' <=? totalReceived options - threshold) in
            let! found := db_get (fun d => find_where p (walletAddresses d)) in
            match found with
            | Some w' =>
                db_set (set_wallets (update_where p (set_wprocessAt (Some now)))) ;;!
                let! x := gets ext in
                ret (Some (set_asset (asset_relation x (w_assetId w')) (set_wprocessAt (Some now) w')))
            | None => ret None
            end
        | None => ret None
        end in
      match scheduled, withdrawalThrottleDelay options with
      | Some w', _ => ret w'
      | None, Some delay => if negb (is_some (w_processAt w)) then patch_instance (Some (now + delay)) w else ret w
      | None, None => ret w
      end
  end.

(** *** [key/service.ts]

    A wallet address has one key for a [kid] that is not revoked. *)

Definition createKey (wid : string) (jwk : JWK) : M WalletState (res WalletAddressKeyError WalletAddressKey) :=
  let! i := uuid in
  let! now := date_now in
  let! d := db_get (fun d => d) in
  let row := {| wk_id := i; wk_walletAddressId := wid; wk_jwk := jwk; wk_revoked := false; wk_createdAt := now |} in
  if negb (fits_varchar (kid jwk) && fits_varchar (jwk_x jwk)) then throw value_too_long
  else if existsb (fun k => bool_decide (wk_walletAddressId k = wid) && bool_decide (kid (wk_jwk k) = kid jwk)
                            && negb (wk_revoked k))
            (walletAddressKeys d)
  then ret (Err DuplicateKey)
  else if negb (existsb (wallet_by_id wid) (walletAddresses d))
  then throw (ForeignKeyViolationError "walletaddresskeys_walletaddressid_foreign")
  else db_set (set_keys (fun l => l ++ [row])) ;;! ret (Ok row).

Definition set_revoked (k : WalletAddressKey) : WalletAddressKey :=
  {| wk_id := wk_id k; wk_walletAddressId := wk_walletAddressId k; wk_jwk := wk_jwk k;
     wk_revoked := true; wk_createdAt := wk_createdAt k |}.

Definition revokeKey (i : string) : M WalletState (option WalletAddressKey) :=
  let! key := db_get (fun d => find_where (fun k => bool_decide (wk_id k = i)) (walletAddressKeys d)) in
  match key with
  | None => ret None
  | Some key =>
      if wk_revoked key then ret (Some key)
      else
      db_set (set_keys (update_where (fun k => bool_decide (wk_id k = i)) set_revoked)) ;;!
      ret (Some (set_revoked key))
  end.

Definition getKeysByWalletAddressId (wid : string) : M WalletState (list WalletAddressKey) :=
  db_get (fun d => List.filter (fun k => bool_decide (wk_walletAddressId k = wid) && negb (wk_revoked k))
                     (walletAddressKeys d)).

Definition getWalletAddressKeyPage (wid : string) (pagination : option Pagination.Pagination)
    (sortOrder : Pagination.SortOrder) : M WalletState (list WalletAddressKey) :=
  let! table := db_get walletAddressKeys in
  match Pagination.getPage table (fun k => bool_decide (wk_walletAddressId k = wid)) pagination sortOrder with
  | Ret page => ret page
  | Throw e => throw e
  end.
End WalletService.
