(* ===== verification/WalletSpecs.v ===== *)
(** * WalletSpecs: what is announced of a wallet address was received

    Histories of the operations of [WalletAddresses].  What a wallet address received is
    announced for withdrawal by events; its column [totalEventsAmount] is what they announced,
    as the comment in [model.ts] has it, and is never more than the accounting service says it
    received ([WalletAccounting]).  Addresses are distinct, in lower case and valid. *)

From S2P Require Import Prelude Shared Service Cache OpenPayments Accounting Tenants Webhook IncomingPayment WalletAddresses.

Local Open Scope Z_scope.
Local Open Scope ts_scope.

(** What accounts received only grows; to ask for it does not change it. *)
Class WalletAccounting (X : Type) `{!WalletServices X} := {
  received : X -> string -> Z;
  no_less (x x' : X) : Prop := forall i, received x i <= received x' i;
  received_nonneg : forall x i, 0 <= received x i;
  total_received_is : forall i x v x',
    wallet_totalReceived i x = (Ret (Some v), x') -> v <= received x i;
  total_received_keeps : forall i x, no_less x (wallet_totalReceived i x).2;
  asset_get_keeps : forall i t x, no_less x (walletAsset_get i t x).2;
  settings_get_keeps : forall t k x, no_less x (walletSettings_get t k x).2;
  by_prefix_keeps : forall p x, no_less x (settings_by_prefix p x).2
}.

Section Specs.
Context {X : Type} `{Uuid} `{!WalletServices X} `{!WalletAccounting X}.
Context (config : WalletConfig).
Context (sleep : Z -> M (WalletState (X := X)) unit).
Context (select : Z -> list WalletRow -> list WalletRow).
(** What a query returns are rows of the table, each once. *)
Context (select_sub : forall n l, select n l ⊆ l).
Context (select_once : forall n l, NoDup (w_id <$> l) -> NoDup (w_id <$> select n l)).
Implicit Types (s : WalletState (X := X)) (w : WalletRow).

(** The withdrawals of an account that were announced. *)
Definition of_account (i : string) (e : WebhookEvent WalletAddressEventData) : bool :=
  match withdrawal e with Some v => bool_decide (accountId v = i) | None => false end.
Definition event_amount (e : WebhookEvent WalletAddressEventData) : Z :=
  match withdrawal e with Some v => w_amount v | None => 0 end.
Definition announced (i : string) (d : WalletDb) : Z :=
  sum_where (of_account i) event_amount (events (walletWebhooks d)).

Lemma no_less_refl x : no_less x x.
Proof. intros i. lia. Qed.
Lemma no_less_trans x y z : no_less x y -> no_less y z -> no_less x z.
Proof. intros Hxy Hyz i. specialize (Hxy i). specialize (Hyz i). lia. Qed.

Record wallet_inv s : Prop := {
  wi_ids : NoDup (w_id <$> walletAddresses (db s));
  wi_addresses : NoDup (w_address <$> walletAddresses (db s));
  wi_lower : forall w, w ∈ walletAddresses (db s) ->
    exists u, w_address w = toLowerCase u /\ isValidWalletAddressUrl (X := X) u = true;
  wi_announced : forall w, w ∈ walletAddresses (db s) ->
    w_totalEventsAmount w = announced (w_id w) (db s);
  wi_received : forall w, w ∈ walletAddresses (db s) ->
    0 <= w_totalEventsAmount w <= received (ext s) (w_id w);
  wi_events : forall e, e ∈ events (walletWebhooks (db s)) ->
    forall v, withdrawal e = Some v -> accountId v ∈ w_id <$> walletAddresses (db s)
}.

(** The identifiers, addresses and totals of the rows, and the events. *)
Definition row_facts w : string * string * Z := (w_id w, w_address w, w_totalEventsAmount w).
Definition same_money s s' : Prop :=
  row_facts <$> walletAddresses (db s') = row_facts <$> walletAddresses (db s) /\
  (exists more, events (walletWebhooks (db s')) = events (walletWebhooks (db s)) ++ more /\
                forall e, e ∈ more -> withdrawal e = None) /\
  no_less (ext s) (ext s').

Lemma same_money_refl s : same_money s s.
Proof. split_and!; [done| |apply no_less_refl]. exists []. split; [by rewrite app_nil_r|set_solver]. Qed.

Lemma same_money_trans s1 s2 s3 : same_money s1 s2 -> same_money s2 s3 -> same_money s1 s3.
Proof.
  intros (R1 & (m1 & E1 & N1) & L1) (R2 & (m2 & E2 & N2) & L2). split_and!; [congruence| |].
  - exists (m1 ++ m2). split; [by rewrite E2, E1, app_assoc|]. set_solver.
  - by eapply no_less_trans.
Qed.

Lemma wallet_row_in (l l' : list WalletRow) w :
  row_facts <$> l = row_facts <$> l' -> w ∈ l -> exists w', w' ∈ l' /\ row_facts w = row_facts w'.
Proof.
  intros E Hw. apply (list_elem_of_fmap_2 row_facts) in Hw. rewrite E in Hw.
  by apply list_elem_of_fmap in Hw as (w' & ? & ?); eauto.
Qed.

Lemma same_columns (l l' : list WalletRow) :
  row_facts <$> l' = row_facts <$> l -> w_id <$> l' = w_id <$> l /\ w_address <$> l' = w_address <$> l.
Proof.
  intros E. assert (forall A (f : string * string * Z -> A),
    (fun w => f (row_facts w)) <$> l' = (fun w => f (row_facts w)) <$> l) as Hmap.
  { intros A f. pose proof (f_equal (fmap f) E) as Ef. by rewrite <- !list_fmap_compose in Ef. }
  split; [exact (Hmap _ (fun r => r.1.1))|exact (Hmap _ (fun r => r.1.2))].
Qed.

Lemma announced_more i d d' more :
  events (walletWebhooks d') = events (walletWebhooks d) ++ more ->
  (forall e, e ∈ more -> withdrawal e = None) -> announced i d' = announced i d.
Proof.
  intros E Hnone. unfold announced. rewrite E, sum_where_app, (sum_where_none _ _ more); [lia|].
  intros e He. unfold of_account. by rewrite (Hnone e He).
Qed.

Lemma wallet_inv_same s s' : wallet_inv s -> same_money s s' -> wallet_inv s'.
Proof.
  intros [H1 H2 H3 H4 H5 H6] (Hrows & (more & He & Hnone) & Hx).
  destruct (same_columns _ _ Hrows) as [Hids Haddr].
  split.
  - by rewrite Hids.
  - by rewrite Haddr.
  - intros w Hw. destruct (wallet_row_in _ _ w Hrows Hw) as (w' & Hw' & [= E1 E2 E3]). rewrite E2. by apply H3.
  - intros w Hw. destruct (wallet_row_in _ _ w Hrows Hw) as (w' & Hw' & [= E1 E2 E3]).
    rewrite E1, E3, (announced_more _ (db s) (db s') more) by done. by apply H4.
  - intros w Hw. destruct (wallet_row_in _ _ w Hrows Hw) as (w' & Hw' & [= E1 E2 E3]).
    rewrite E1, E3. specialize (H5 w' Hw'). specialize (Hx (w_id w')). lia.
  - intros e Hin v Hv. rewrite Hids.
    rewrite He in Hin. apply elem_of_app in Hin as [Hin|Hin]; [by eapply H6|].
    by rewrite (Hnone e Hin) in Hv.
Qed.

(** ** Operations that leave the money *)

Section Same.
Context (s0 : WalletState (X := X)).

Lemma same_db_set f :
  (forall d, row_facts <$> walletAddresses (f d) = row_facts <$> walletAddresses d) ->
  (forall d, events (walletWebhooks (f d)) = events (walletWebhooks d)) ->
  keeps (same_money s0) (db_set f).
Proof.
  intros Hr He s Hs. eapply same_money_trans; [exact Hs|]. unfold db_set. simpl.
  split_and!; simpl; [apply Hr| |apply no_less_refl]. exists []. rewrite app_nil_r. split; [apply He|set_solver].
Qed.

Lemma same_lift {A} (m : M X A) :
  (forall x, no_less x (m x).2) -> keeps (same_money s0) (lift m).
Proof.
  intros Hm s Hs. eapply same_money_trans; [exact Hs|]. unfold lift. specialize (Hm (ext s)).
  destruct (m (ext s)) as [r x]. simpl in *. split_and!; [done| |done].
  exists []. rewrite app_nil_r. split; [done|set_solver].
Qed.

Lemma same_uuid : keeps (same_money s0) uuid.
Proof. by intros s (Hr & He & Hx). Qed.

Lemma same_db_get {A} (f : WalletDb -> A) : keeps (same_money s0) (db_get f).
Proof. by intros s Hs. Qed.

Lemma same_date_now : keeps (same_money s0) date_now.
Proof. by intros s Hs. Qed.
End Same.

(** A transaction that throws leaves the tables as they were. *)
Lemma same_transaction {A} s0 (m : M (WalletState (X := X)) A) restore :
  (forall s s', row_facts <$> walletAddresses (db (restore s s')) = row_facts <$> walletAddresses (db s)) ->
  (forall s s', events (walletWebhooks (db (restore s s'))) = events (walletWebhooks (db s))) ->
  (forall s s', ext (restore s s') = ext s') ->
  (forall s1, keeps (same_money s1) m) -> keeps (same_money s0) (with_transaction restore m).
Proof.
  intros Hr He Hx Hm s Hs. unfold with_transaction. pose proof (Hm s s (same_money_refl s)) as H1.
  destruct (m s) as [[a|e] s']; simpl in *; [by eapply same_money_trans|].
  eapply same_money_trans; [exact Hs|]. destruct H1 as (_ & _ & Hle). split_and!; [apply Hr| |by rewrite Hx].
  exists []. rewrite app_nil_r. split; [apply He|set_solver].
Qed.

Lemma same_insertGraph s0 event rs :
  (forall i t, withdrawal (event i t) = None) -> keeps (same_money s0) (insertGraph event rs).
Proof.
  intros Hev s Hs. eapply same_money_trans; [exact Hs|]. unfold insertGraph, bind, uuid. simpl.
  split_and!; simpl; [done| |apply no_less_refl]. eexists. split; [done|].
  intros e ->%list_elem_of_singleton. apply Hev.
Qed.

#[local] Hint Resolve same_db_get same_date_now same_uuid total_received_keeps asset_get_keeps
  settings_get_keeps by_prefix_keeps : keeps.
#[local] Hint Extern 1 (keeps _ (db_set _)) =>
  apply same_db_set; intros; simpl; first [done | by apply update_where_key] : keeps.
#[local] Hint Extern 1 (keeps _ (lift _)) => apply same_lift; intros; auto with keeps : keeps.
#[local] Hint Extern 1 (keeps _ (with_transaction _ _)) =>
  apply same_transaction; [done..|intros] : keeps.

Section Keeping.
Context (s0 : WalletState (X := X)).
#[local] Notation same := (keeps (same_money s0)).

Lemma same_tenant_url options : same (tenant_url config options).
Proof. unfold tenant_url, parse_or_throw. keeps_auto. Qed.

Lemma same_createUrl options : same (createWalletAddressUrl config options).
Proof. unfold createWalletAddressUrl. keeps_auto. apply same_tenant_url. Qed.

Lemma same_cache_get k : same (walletCache_get k).
Proof. unfold walletCache_get. keeps_auto. Qed.

Lemma same_cache_set k w : same (walletCache_set config k w).
Proof. unfold walletCache_set. keeps_auto. Qed.

Lemma same_attach w : same (attach_asset w).
Proof. unfold attach_asset. keeps_auto. Qed.

Lemma same_attach_all l : same (attach_assets l).
Proof.
  induction l as [|w l IH]; simpl; [apply keeps_ret|]. keeps_auto. apply same_attach.
Qed.

Lemma same_insert_properties wid l : same (insert_properties wid l).
Proof. induction l as [|p l IH]; simpl; keeps_auto. Qed.

Lemma same_deactivate wid : same (deactivateOpenIncomingPaymentsByWalletAddress config wid).
Proof. unfold deactivateOpenIncomingPaymentsByWalletAddress. keeps_auto. Qed.

Lemma same_patch_instance t w : same (patch_instance t w).
Proof. unfold patch_instance. keeps_auto. Qed.

Lemma same_keys wid jwk : same (createKey wid jwk).
Proof. unfold createKey. keeps_auto. Qed.

Lemma same_revoke i : same (revokeKey i).
Proof. unfold revokeKey. keeps_auto. Qed.
End Keeping.

#[local] Hint Resolve same_createUrl same_cache_get same_cache_set same_attach same_attach_all
  same_insert_properties same_deactivate same_patch_instance same_keys same_revoke : keeps.

Section KeepingOperations.
Context (s0 : WalletState (X := X)).
#[local] Notation same := (keeps (same_money s0)).

Lemma same_patch options : same (patchWalletAddress config options).
Proof. unfold patchWalletAddress. cbv zeta. keeps_auto. Qed.

Lemma same_get i tid : same (getWalletAddress config i tid).
Proof. unfold getWalletAddress. keeps_auto. Qed.

Lemma same_get_by_url url tid : same (getWalletAddressByUrl url tid).
Proof. unfold getWalletAddressByUrl. keeps_auto. Qed.

Lemma same_page pagination order tid : same (getWalletAddressPage pagination order tid).
Proof. unfold getWalletAddressPage. keeps_auto. Qed.

Lemma same_credit w options : same (onCredit w options).
Proof. unfold onCredit. cbv zeta. keeps_auto. Qed.
End KeepingOperations.

Lemma same_update s0 options : keeps (same_money s0) (updateWalletAddress config options).
Proof.
  unfold updateWalletAddress, wallet_transaction. keeps_auto. apply same_transaction; [done..|].
  intros s1. apply same_patch.
Qed.

#[local] Hint Resolve same_update same_get same_get_by_url same_page same_credit : keeps.

(** What leaves the money keeps the invariant. *)
Lemma same_keeps_inv {A} (m : M (WalletState (X := X)) A) :
  (forall s0, keeps (same_money s0) m) -> keeps wallet_inv m.
Proof. intros Hm s Hs. eapply wallet_inv_same; [exact Hs|]. apply Hm, same_money_refl. Qed.

Lemma wp_both {S A} (I : S -> Prop) (m : M S A) (st : S) (P : outcome A -> S -> Prop) :
  keeps I m -> I st -> wp m P st -> wp m (fun r t' => I t' /\ P r t') st.
Proof. intros Hm Hi HP. split; [by apply Hm|exact HP]. Qed.

(** ** Creating *)

Lemma createUrl_valid options s :
  wp (createWalletAddressUrl config options)
    (fun r _ => forall u, r = Ret (Ok u) -> isValidWalletAddressUrl (X := X) u = true) s.
Proof.
  unfold createWalletAddressUrl. wp_step. apply wp_call. intros [[t|e]|e] s1 _; [|by apply wp_ret|done].
  destruct (final_url t (cw_address options)) as [u|e]; [|by apply wp_ret].
  destruct (negb (isValidWalletAddressUrl u)) eqn:E; apply wp_ret; [done|].
  apply negb_false_iff in E. by intros ? [= <-].
Qed.

Lemma announced_new i s : wallet_inv s -> i ∉ w_id <$> walletAddresses (db s) -> announced i (db s) = 0.
Proof.
  intros Hinv Hi. apply sum_where_none. intros e He. unfold of_account.
  destruct (withdrawal e) as [v|] eqn:E; [|done]. apply bool_decide_eq_false. intros <-.
  by apply Hi, (wi_events s Hinv e).
Qed.

Lemma wallet_inv_append s s' w :
  wallet_inv s -> w_id w ∉ w_id <$> walletAddresses (db s) ->
  w_address w ∉ w_address <$> walletAddresses (db s) ->
  (exists u, w_address w = toLowerCase u /\ isValidWalletAddressUrl (X := X) u = true) ->
  w_totalEventsAmount w = 0 -> walletAddresses (db s') = walletAddresses (db s) ++ [w] ->
  walletWebhooks (db s') = walletWebhooks (db s) -> ext s' = ext s -> wallet_inv s'.
Proof.
  intros Hinv Hid Haddr Hvalid Htotal Hrows Hev Hx.
  assert (forall i, announced i (db s') = announced i (db s)) as Hann
    by (intros i; unfold announced; by rewrite Hev).
  pose proof (announced_new _ s Hinv Hid) as Hnew. destruct Hinv as [H1 H2 H3 H4 H5 H6].
  split; rewrite Hrows, ?Hx, ?Hev; rewrite ?fmap_app.
  - apply NoDup_app. split_and!; [done| |apply NoDup_singleton]. by intros k Hk ->%list_elem_of_singleton.
  - apply NoDup_app. split_and!; [done| |apply NoDup_singleton]. by intros k Hk ->%list_elem_of_singleton.
  - intros v [Hv| ->%list_elem_of_singleton]%elem_of_app; [by apply H3|done].
  - intros v [Hv| ->%list_elem_of_singleton]%elem_of_app; rewrite Hann; [by apply H4|by rewrite Hnew].
  - intros v [Hv| ->%list_elem_of_singleton]%elem_of_app; [by apply H5|].
    rewrite Htotal. split; [done|apply received_nonneg].
  - intros e He v Hv. apply elem_of_app. left. by eapply H6.
Qed.

Lemma no_row {K} `{EqDecision K} (key : WalletRow -> K) k l :
  existsb (fun w => bool_decide (key w = k)) l = false -> k ∉ key <$> l.
Proof.
  intros He (w & -> & Hw)%list_elem_of_fmap. apply not_true_iff_false in He. apply He.
  apply existsb_exists. exists w. split; [by apply list_elem_of_In|by apply bool_decide_eq_true].
Qed.

Lemma insert_wallet_inv tenantId u name assetId s :
  wallet_inv s -> isValidWalletAddressUrl (X := X) u = true ->
  wp (insert_wallet tenantId (toLowerCase u) name assetId) (fun _ s' => wallet_inv s') s.
Proof.
  intros Hinv Hu. unfold insert_wallet. do 8 wp_step. cbv zeta.
  assert (forall n, wallet_inv {| db := db s; now := now s; fresh := n; ext := ext s |}) as Hsame
    by (intros n; by destruct Hinv).
  destruct (negb _); [by apply wp_throw|].
  destruct (existsb _ _) eqn:Hid; [by apply wp_throw|].
  destruct (existsb (fun w => bool_decide (w_address w = _)) _) eqn:Haddr; [by apply wp_throw|].
  destruct (negb _); [by apply wp_throw|]. destruct (negb _); [by apply wp_throw|]. wp_auto.
  eapply (wallet_inv_append s); [exact Hinv|..|reflexivity|reflexivity|reflexivity]; simpl; eauto.
  - by apply (no_row w_id).
  - by apply (no_row w_address).
Qed.

Lemma insert_graph_inv tenantId u name assetId properties s :
  wallet_inv s -> isValidWalletAddressUrl (X := X) u = true ->
  wp (insert_wallet_graph tenantId (toLowerCase u) name assetId properties) (fun _ s' => wallet_inv s') s.
Proof.
  intros Hinv Hu. unfold insert_wallet_graph. wp_step. eapply wp_mono; [by apply insert_wallet_inv|].
  intros [w|e] s1 H1; [|done]. destruct properties as [l|]; [|by apply wp_ret].
  eapply (same_keeps_inv (A := WalletRow)); [|exact H1]. intros s2. unfold transaction. keeps_auto.
Qed.

Lemma create_inv options s :
  wallet_inv s -> wp (createWalletAddress config options) (fun _ s' => wallet_inv s') s.
Proof.
  intros Hinv. unfold createWalletAddress. wp_step.
  eapply wp_mono; [eapply (wp_both wallet_inv); [|exact Hinv|apply createUrl_valid]|].
  { apply same_keeps_inv. intros s0. apply same_createUrl. }
  intros [[u|e]|e] s1 [H1 Hvalid]; [|by apply wp_ret|done]. specialize (Hvalid u eq_refl).
  apply wp_try_catch. wp_step.
  eapply wp_mono; [eapply (wp_both wallet_inv); [apply same_keeps_inv; intros; auto with keeps|exact H1|]|].
  { by apply (wp_call _ (fun _ _ => True)). }
  intros [[a|]|e] s2 [H2 _]; [|by apply wp_ret|destruct e; by wp_auto].
  wp_step. eapply wp_mono; [by apply insert_graph_inv|].
  intros [w|e] s3 H3; [|destruct e; by wp_auto]. cbv zeta.
  eapply (same_keeps_inv (A := res WalletAddressError WalletRow)); [|exact H3]. intros s4. keeps_auto.
Qed.

(** ** Announcing what was received *)

(** An instance that carries the columns of its row. *)
Definition in_table s w : Prop := row_facts w ∈ row_facts <$> walletAddresses (db s).

Lemma attach_assets_facts l s :
  wp (attach_assets l) (fun r _ => forall l', r = Ret l' -> row_facts <$> l' = row_facts <$> l) s.
Proof.
  revert s. induction l as [|w l IH]; intros s; simpl; [by apply wp_ret; intros l' [= <-]|].
  unfold attach_asset. repeat wp_step; [|done]. eapply wp_mono; [apply IH|].
  intros [l'|e] s1 H1; [|done]. apply wp_ret. intros ? [= <-]. rewrite !fmap_cons, (H1 l' eq_refl).
  by destruct a.
Qed.

(** The other instances still carry the columns of their rows. *)
Definition others_kept w s s' : Prop :=
  forall v, in_table s v -> w_id v <> w_id w -> in_table s' v.

Lemma others_kept_same w s s' : same_money s s' -> others_kept w s s'.
Proof. intros (Hr & _) v Hv _. unfold in_table. by rewrite Hr. Qed.

Lemma withdrawal_inv s s' w amount data eid t :
  wallet_inv s -> in_table s w -> 0 < amount -> no_less (ext s) (ext s') ->
  w_totalEventsAmount w + amount <= received (ext s') (w_id w) ->
  walletAddresses (db s') = update_where (wallet_by_id (w_id w))
    (set_total (w_totalEventsAmount w + amount)) (walletAddresses (db s)) ->
  events (walletWebhooks (db s')) =
    events (walletWebhooks (db s)) ++ [withdrawal_event w data amount eid t] ->
  wallet_inv s' /\ others_kept w s s'.
Proof.
  intros [H1 H2 H3 H4 H5 H6] Hw Hamount Hx Hle Hrows Hev.
  set (f := set_total (w_totalEventsAmount w + amount)) in *.
  assert (forall v, w_id v = w_id w -> v ∈ walletAddresses (db s) ->
    w_totalEventsAmount v = w_totalEventsAmount w) as Hv.
  { intros v Hid Hin. apply list_elem_of_fmap in Hw as (w0 & [= E1 E2 E3] & Hw0).
    rewrite E3. f_equal. apply (unique_key w_id (walletAddresses (db s))); congruence. }
  assert (forall i, announced i (db s') =
    announced i (db s) + (if bool_decide (w_id w = i) then amount else 0)) as Hann.
  { intros i. unfold announced. rewrite Hev, sum_where_app. unfold of_account at 2, event_amount at 2. simpl.
    case_bool_decide; lia. }
  split; [split|]; rewrite ?Hrows.
  - by rewrite update_where_key.
  - by rewrite update_where_key.
  - intros v (v0 & Hv0 & ->)%update_where_elem. destruct (wallet_by_id _ _); exact (H3 v0 Hv0).
  - intros v (v0 & Hv0 & ->)%update_where_elem. rewrite Hann. unfold wallet_by_id.
    case_bool_decide as E; simpl; rewrite <- (H4 v0 Hv0).
    + rewrite bool_decide_eq_true_2 by done. by rewrite (Hv v0).
    + rewrite bool_decide_eq_false_2 by congruence. lia.
  - intros v (v0 & Hv0 & ->)%update_where_elem. specialize (H5 v0 Hv0). specialize (Hx (w_id v0)).
    unfold wallet_by_id. case_bool_decide as E; simpl; [|lia]. rewrite E. rewrite (Hv v0 E Hv0) in H5. lia.
  - intros e He v Hwd. rewrite update_where_key by done. rewrite Hev in He.
    apply elem_of_app in He as [He| ->%list_elem_of_singleton]; [by eapply H6|].
    injection Hwd as <-. simpl. apply list_elem_of_fmap in Hw as (w0 & [= -> _ _] & Hw0).
    by apply list_elem_of_fmap_2.
  - intros v Hin Hne. unfold in_table in *. rewrite Hrows. apply list_elem_of_fmap in Hin as (v0 & E & Hv0).
    apply list_elem_of_fmap. exists v0. split; [done|]. apply update_where_elem. exists v0. split; [done|].
    unfold wallet_by_id. rewrite bool_decide_eq_false_2; [done|]. injection E as E1 E2 E3. congruence.
Qed.

Lemma createWithdrawalEvent_spec w s :
  wallet_inv s -> in_table s w ->
  wp (createWithdrawalEvent config w)
    (fun r s' => no_less (ext s) (ext s') /\ (r = Ret tt -> wallet_inv s' /\ others_kept w s s')) s.
Proof.
  intros Hinv Hw. unfold createWithdrawalEvent. wp_step. apply wp_lift. intros r x Hcall.
  pose proof (total_received_keeps (w_id w) (ext s)) as Hx. rewrite Hcall in Hx.
  assert (wallet_inv (set_ext x s) /\ others_kept w s (set_ext x s)) as Hnone.
  { split; [|by intros v Hv _]. eapply wallet_inv_same; [exact Hinv|]. split_and!; [done| |done].
    exists []. rewrite app_nil_r. split; [done|set_solver]. }
  destruct r as [[total|]|e]; [|by apply wp_ret|by split].
  apply total_received_is in Hcall. destruct (negb (truthy total)); [by apply wp_ret|]. cbv zeta.
  destruct (total - w_totalEventsAmount w <=? 0) eqn:Hpos; [by apply wp_ret|]. zbool.
  unfold toData. destruct (w_asset w) as [a|]; [|by wp_step; wp_step]. do 2 wp_step.
  destruct (negb (_ <? _)); [by wp_step|]. wp_step. unfold wp at 1, insertGraph, bind, uuid. simpl.
  destruct (negb (_ <? _)); [by wp_step|]. apply wp_db_set. split; [done|]. intros _.
  eapply (withdrawal_inv s); [done|done| |done| |reflexivity|reflexivity]; simpl in *; pose proof (Hx (w_id w)); lia.
Qed.

Lemma process_wallets_spec l s :
  wallet_inv s -> NoDup (w_id <$> l) -> (forall w, w ∈ l -> in_table s w) ->
  wp (process_wallets config l)
    (fun r s' => no_less (ext s) (ext s') /\ (r = Ret tt -> wallet_inv s')) s.
Proof.
  revert s. induction l as [|w l IH]; intros s Hinv Hnd Hin; simpl.
  { apply wp_ret. split; [apply no_less_refl|done]. }
  rewrite fmap_cons in Hnd. apply NoDup_cons in Hnd as [Hw Hnd].
  wp_step. eapply wp_mono; [apply createWithdrawalEvent_spec; [done|apply Hin; set_solver]|].
  intros [[]|e] s1 [Hx1 Hs1]; [|by split]. destruct (Hs1 eq_refl) as [Hinv1 Hkept]. do 2 wp_step.
  set (s2 := set_db _ s1).
  assert (same_money s1 s2) as Hsame.
  { split_and!; [by apply update_where_key| |apply no_less_refl]. exists []. rewrite app_nil_r.
    split; [done|set_solver]. }
  eapply wp_mono; [apply IH; [by eapply wallet_inv_same|done|]|].
  - intros v Hv. eapply others_kept_same; [exact Hsame|..]; [apply Hkept; [apply Hin; set_solver|]|];
      intros E; apply Hw; rewrite <- E; by apply list_elem_of_fmap_2.
  - intros r s3 [Hx3 Hs3]. split; [|done]. eapply no_less_trans; [exact Hx1|]. exact Hx3.
Qed.

Lemma process_inv limit s :
  wallet_inv s -> wp (processNextWalletAddresses config select limit) (fun _ s' => wallet_inv s') s.
Proof.
  intros Hinv. unfold processNextWalletAddresses, wallet_transaction. apply wp_with_transaction. do 4 wp_step.
  set (l := select limit (List.filter (wallet_due (now s)) (walletAddresses (db s)))).
  assert (NoDup (w_id <$> l)) as Hnd by (apply select_once, NoDup_key_filter, Hinv).
  assert (forall w, w ∈ l -> w ∈ walletAddresses (db s)) as Hsub.
  { intros w Hw. apply select_sub, elem_of_filter_bool in Hw. by destruct Hw. }
  assert (forall s', no_less (ext s) (ext s') ->
    wallet_inv (set_db (set_walletCache (fun _ => walletAddressCache (db s')) (db s)) s')) as Hundone.
  { intros s' Hx. eapply wallet_inv_same; [exact Hinv|]. split_and!; [done| |done].
    exists []. rewrite app_nil_r. split; [done|set_solver]. }
  wp_step. eapply wp_mono; [apply wp_both; [apply same_attach_all|apply same_money_refl|apply attach_assets_facts]|].
  intros [l'|e] s1 [Hsame Hl]; [|by apply Hundone, Hsame]. specialize (Hl l' eq_refl).
  wp_step. eapply wp_mono; [apply process_wallets_spec; [by eapply wallet_inv_same| |]|].
  - by rewrite (proj1 (same_columns _ _ Hl)).
  - intros w Hw. unfold in_table. destruct Hsame as (-> & _ & _).
    destruct (wallet_row_in l' l w Hl Hw) as (w' & Hw' & ->). by apply list_elem_of_fmap_2, Hsub.
  - destruct Hsame as (_ & _ & Hx). intros [[]|e] s2 [Hx2 Hs2]; [wp_step; by apply Hs2|].
    apply Hundone. by eapply no_less_trans.
Qed.

(** ** Histories *)

(** Others do not write the rows or the events of wallet addresses. *)
Definition others_act s s' : Prop :=
  walletAddresses (db s') = walletAddresses (db s) /\
  events (walletWebhooks (db s')) = events (walletWebhooks (db s)) /\ no_less (ext s) (ext s').

Inductive wallet_step : WalletState (X := X) -> WalletState (X := X) -> Prop :=
| step_createWallet options s : wallet_step s (createWalletAddress config options s).2
| step_updateWallet options s : wallet_step s (updateWalletAddress config options s).2
| step_getWallet i tid s : wallet_step s (getWalletAddress config i tid s).2
| step_walletByUrl url tid s : wallet_step s (getWalletAddressByUrl url tid s).2
| step_walletPage pagination order tid s : wallet_step s (getWalletAddressPage pagination order tid s).2
| step_processWallets limit s : wallet_step s (processNextWalletAddresses config select limit s).2
| step_creditWallet w options s : wallet_step s (onCredit w options s).2
| step_createKey wid jwk s : wallet_step s (createKey wid jwk s).2
| step_revokeKey i s : wallet_step s (revokeKey i s).2
| step_wallet_others s s' : others_act s s' -> wallet_step s s'.

Lemma wallet_step_inv s s' : wallet_step s s' -> wallet_inv s -> wallet_inv s'.
Proof.
  intros [| | | | | | | | |? ? Hothers] Hinv; [by apply create_inv|..|]; try (by apply process_inv);
    try (apply same_keeps_inv; [intros s2; solve [auto with keeps]|exact Hinv]).
  destruct Hothers as (Hr & He & Hx). eapply wallet_inv_same; [exact Hinv|]. split_and!; [by rewrite Hr| |done].
  exists []. rewrite app_nil_r. split; [done|set_solver].
Qed.

(** What happens while a lookup waits is a history of the others. *)
Context (sleep_steps : forall ms s, rtc wallet_step s (sleep ms s).2).

Inductive wallet_run : WalletState (X := X) -> WalletState (X := X) -> Prop :=
| run_step s s' : wallet_step s s' -> wallet_run s s'
| run_getOrPoll url s : wallet_run s (getOrPollByUrl config sleep url s).2.

Lemma keeps_poll {A} (I : WalletState (X := X) -> Prop) (m : M (WalletState (X := X)) (option A)) f t :
  keeps I m -> (forall ms, keeps I (sleep ms)) -> keeps I (poll m sleep f t).
Proof.
  intros Hm Hsleep. unfold poll. generalize (Datatypes.S (Z.to_nat (t / f))) as n. generalize 0 as e.
  intros e n. revert e. induction n as [|n IH]; intros e; simpl; keeps_auto.
Qed.

Lemma getOrPoll_inv url : keeps wallet_inv (getOrPollByUrl config sleep url).
Proof.
  assert (forall ms, keeps wallet_inv (sleep ms)) as Hsleep.
  { intros ms s Hs. pose proof (sleep_steps ms s) as Hsteps.
    induction Hsteps as [|s1 s2 s3 Hstep _ IH]; [done|]. apply IH. by eapply wallet_step_inv. }
  assert (forall tid, keeps wallet_inv (getWalletAddressByUrl url tid)) as Hget
    by (intros tid; apply same_keeps_inv; intros; apply same_get_by_url).
  unfold getOrPollByUrl. apply keeps_bind; [done|]. intros [w|]; [apply keeps_ret|].
  apply keeps_bind; [apply same_keeps_inv; intros; auto with keeps|]. intros l. cbv zeta.
  apply keeps_bind; [by apply same_keeps_inv; intros; apply same_insertGraph|]. intros _.
  apply keeps_try_catch; [|intros; apply keeps_ret]. apply keeps_bind; [by apply keeps_poll|].
  intros; apply keeps_ret.
Qed.

Definition wallet_init s : Prop := walletAddresses (db s) = [] /\ events (walletWebhooks (db s)) = [].

Lemma wallets_reachable s0 s : wallet_init s0 -> rtc wallet_run s0 s -> wallet_inv s.
Proof.
  intros (Hrows & Hev) Hs. assert (wallet_inv s0) as Hinv.
  { split; rewrite ?Hrows, ?Hev; try constructor; set_solver. }
  clear Hrows Hev. induction Hs as [|s1 s2 s3 Hstep _ IH]; [done|]. apply IH.
  destruct Hstep as [? ? Hstep|url s1]; [by eapply wallet_step_inv|by apply getOrPoll_inv].
Qed.

(** C15. What wallet addresses received is announced exactly.  In every history of the
    operations on wallet addresses, their credits, the worker that announces withdrawals and
    the polling lookups, whatever the other services answer, the column
    [totalEventsAmount] of a wallet address is the sum of the withdrawals its events
    announced, and is never more than what the accounting service says it received, so that
    nothing is announced twice; and a wallet address is the only one with its
    identifier and with its address, which is a valid one put in lower case. *)
Theorem announced_within_received s0 s w :
  wallet_init s0 -> rtc wallet_run s0 s -> w ∈ walletAddresses (db s) ->
  w_totalEventsAmount w = announced (w_id w) (db s) /\
  0 <= announced (w_id w) (db s) <= received (ext s) (w_id w) /\
  (exists u, w_address w = toLowerCase u /\ isValidWalletAddressUrl (X := X) u = true) /\
  forall v, v ∈ walletAddresses (db s) -> w_id v = w_id w \/ w_address v = w_address w -> v = w.
Proof.
  intros Hinit Hs Hw. destruct (wallets_reachable s0 s Hinit Hs) as [H1 H2 H3 H4 H5 _].
  rewrite <- (H4 w Hw). split_and!; [done|by apply H5..|by apply H3|].
  intros v Hv [E|E]; [by apply (unique_key w_id (walletAddresses (db s)))
    |by apply (unique_key w_address (walletAddresses (db s)))].
Qed.
End Specs.
