(* ===== verification/Connector.v ===== *)
(** * Connector: the pipeline of an Interledger packet

    Models [ilp/connector]: the middlewares of [core/middleware], the controllers of
    [core/controllers] that the pipeline uses, their composition ([connector/index.ts])
    and its two entry points: of local senders ([handleIlpData] of [core/rafiki.ts]) and
    of peers over HTTP ([publicServer], with [auth.ts] and the middleware of [ilp-packet.ts]).

    The context of a request is one mutable object that the middlewares share: the field
    [ctx] of the state.  A middleware takes the rest of the pipeline ([next]) and is a
    computation on that state; the limits are the maps of buckets that the middlewares
    close over, and [net] is the state of the services and of the peers.  A late answer:
    [late] says that the timer of a packet fires before the answer is there; what the
    answer would do to the response comes after the reply was made and is left out.
    The texts of the ILP errors are shortened to their constant parts. *)

From S2P Require Import Prelude JsNumber OpenPayments Service Accounting IlpPacket TokenBucket.
From S2P Require Text IncomingPayment Rates.
Import Text (bigint_toString, BigInt).
Import Rates (RateConvertOpts, RateAsset, ConvertError, ConvertResults).

Local Open Scope Z_scope.
Local Open Scope ts_scope.

(** ** Accounts and requests *)

(** [ConnectorAccount], with what an incoming and an outgoing account may add. *)
Record ConnectorAccount (N : Type) := {
  ca_account : LiquidityAccount N;
  ca_assetCode : string;
  ca_assetScale : Z;
  ca_tenantId : string;
  ca_maxPacketAmount : option Z;
  ca_staticIlpAddress : option string;
  ca_http : option (string * string)
}.
Arguments ca_account {N}. Arguments ca_assetCode {N}. Arguments ca_assetScale {N}.
Arguments ca_tenantId {N}. Arguments ca_maxPacketAmount {N}.
Arguments ca_staticIlpAddress {N}. Arguments ca_http {N}.

Definition ca_id {N} (a : ConnectorAccount N) : string := account_id (ca_account a).
Definition ca_asset {N} (a : ConnectorAccount N) : RateAsset :=
  {| Rates.code := ca_assetCode a; Rates.scale := ca_assetScale a |}.

(** [ctx.accounts]: getters that throw for a local sender, nothing for a request over
    HTTP, until the account middleware sets them. *)
Inductive Accounts (N : Type) :=
| NotAvailable
| Undefined
| Available (incoming outgoing : ConnectorAccount N).
Arguments NotAvailable {N}. Arguments Undefined {N}. Arguments Available {N}.

(** [ILPContext]; [state.streamServer] is the address the server was made for, and
    [revertTotalReceived] the key its closure holds.  [index] is the variable of one
    run of the composed pipeline. *)
Record ILPContext (N : Type) := {
  prepare : ZeroCopyIlpPrepare;
  rawPrepare : Buffer;
  response : IlpResponse;
  accounts : Accounts N;
  incomingAccount : option (ConnectorAccount N);
  unfulfillable : bool;
  streamServer : option string;
  streamDestination : option string;
  revertTotalReceived : option string;
  throw_status : Z -> string -> exn;
  index : Z
}.
Arguments prepare {N}. Arguments rawPrepare {N}. Arguments response {N}. Arguments accounts {N}.
Arguments incomingAccount {N}. Arguments unfulfillable {N}. Arguments streamServer {N}.
Arguments streamDestination {N}. Arguments revertTotalReceived {N}.
Arguments throw_status {N}. Arguments index {N}.

(** The maps of the rate limit and of the throughput limits. *)
Record Buckets := {
  rateBuckets : gmap string TokenBucket;
  incomingBuckets : gmap string TokenBucket;
  outgoingBuckets : gmap string TokenBucket
}.

Record Conn (N : Type) := { ctx : ILPContext N; limits : Buckets; clock : Z; net : N }.
Arguments ctx {N}. Arguments limits {N}. Arguments clock {N}. Arguments net {N}.

Section Setters.
Context {N : Type}.
Implicit Types c : ILPContext N.
Implicit Types s : Conn N.

Definition set_prepare (p : ZeroCopyIlpPrepare) c : ILPContext N :=
  {| prepare := p; rawPrepare := rawPrepare c; response := response c; accounts := accounts c;
     incomingAccount := incomingAccount c; unfulfillable := unfulfillable c;
     streamServer := streamServer c; streamDestination := streamDestination c;
     revertTotalReceived := revertTotalReceived c; throw_status := throw_status c;
     index := index c |}.
Definition set_rawPrepare (b : Buffer) c : ILPContext N :=
  {| prepare := prepare c; rawPrepare := b; response := response c; accounts := accounts c;
     incomingAccount := incomingAccount c; unfulfillable := unfulfillable c;
     streamServer := streamServer c; streamDestination := streamDestination c;
     revertTotalReceived := revertTotalReceived c; throw_status := throw_status c;
     index := index c |}.
Definition set_response (r : IlpResponse) c : ILPContext N :=
  {| prepare := prepare c; rawPrepare := rawPrepare c; response := r; accounts := accounts c;
     incomingAccount := incomingAccount c; unfulfillable := unfulfillable c;
     streamServer := streamServer c; streamDestination := streamDestination c;
     revertTotalReceived := revertTotalReceived c; throw_status := throw_status c;
     index := index c |}.
Definition set_accounts (a : Accounts N) c : ILPContext N :=
  {| prepare := prepare c; rawPrepare := rawPrepare c; response := response c; accounts := a;
     incomingAccount := incomingAccount c; unfulfillable := unfulfillable c;
     streamServer := streamServer c; streamDestination := streamDestination c;
     revertTotalReceived := revertTotalReceived c; throw_status := throw_status c;
     index := index c |}.
Definition set_stream (server destination : option string) c : ILPContext N :=
  {| prepare := prepare c; rawPrepare := rawPrepare c; response := response c;
     accounts := accounts c; incomingAccount := incomingAccount c;
     unfulfillable := unfulfillable c; streamServer := server;
     streamDestination := destination; revertTotalReceived := revertTotalReceived c;
     throw_status := throw_status c; index := index c |}.
Definition set_revert (key : option string) c : ILPContext N :=
  {| prepare := prepare c; rawPrepare := rawPrepare c; response := response c;
     accounts := accounts c; incomingAccount := incomingAccount c;
     unfulfillable := unfulfillable c; streamServer := streamServer c;
     streamDestination := streamDestination c; revertTotalReceived := key;
     throw_status := throw_status c; index := index c |}.
Definition set_index (i : Z) c : ILPContext N :=
  {| prepare := prepare c; rawPrepare := rawPrepare c; response := response c;
     accounts := accounts c; incomingAccount := incomingAccount c;
     unfulfillable := unfulfillable c; streamServer := streamServer c;
     streamDestination := streamDestination c; revertTotalReceived := revertTotalReceived c;
     throw_status := throw_status c; index := i |}.

Definition set_ctx (f : ILPContext N -> ILPContext N) s : Conn N :=
  {| ctx := f (ctx s); limits := limits s; clock := clock s; net := net s |}.
Definition set_limits (l : Buckets) s : Conn N :=
  {| ctx := ctx s; limits := l; clock := clock s; net := net s |}.
Definition set_net (y : N) s : Conn N :=
  {| ctx := ctx s; limits := limits s; clock := clock s; net := y |}.

(** Reading and writing the context, calling a service, setting the response. *)
Definition ctx_get {A} (f : ILPContext N -> A) : M (Conn N) A := gets (fun s => f (ctx s)).
Definition ctx_set (f : ILPContext N -> ILPContext N) : M (Conn N) unit := modify (set_ctx f).
Definition call {A} (m : M N A) : M (Conn N) A :=
  fun s => let '(r, y) := m (net s) in (r, set_net y s).
Definition on_response {A} (m : M IlpResponse A) : M (Conn N) A :=
  fun s => let '(r, x) := m (response (ctx s)) in (r, set_ctx (set_response x) s).

Lemma wp_ctx_get {A} (f : ILPContext N -> A) Q s : Q (Ret (f (ctx s))) s -> wp (ctx_get f) Q s.
Proof. done. Qed.
Lemma wp_ctx_set f Q s : Q (Ret tt) (set_ctx f s) -> wp (ctx_set f) Q s.
Proof. done. Qed.
Lemma wp_service {A} (m : M N A) Q s :
  (forall r y, m (net s) = (r, y) -> Q r (set_net y s)) -> wp (call m) Q s.
Proof. unfold wp, call. intros HQ. destruct (m (net s)) as [r y]. by apply HQ. Qed.
Lemma wp_on_response {A} (m : M IlpResponse A) Q s :
  wp m (fun r x => Q r (set_ctx (set_response x) s)) (response (ctx s)) -> wp (on_response m) Q s.
Proof. unfold wp, on_response. by destruct (m (response (ctx s))) as [r x]. Qed.
End Setters.

(** A middleware: what it does with the rest of the pipeline. *)
Definition ILPMiddleware (N : Type) : Type := M (Conn N) unit -> M (Conn N) unit.

(** An error of [ilp-packet] of the class [name]. *)
Definition ilp_packet_error (name message : string) : exn := JsError name message.
Definition throw_ilp {S A} (name message : string) : M S A := throw (ilp_packet_error name message).

(** ** The services *)

(** What [@interledger/stream-receiver] answers a packet with: a reply, or money that is
    accepted after the total received was set. *)
Record IncomingMoney := {
  connectionId : string;
  accept : option string -> IlpReply
}.
Inductive MoneyOrReply := Money (m : IncomingMoney) | Reply (r : IlpReply).

(** The replies of [redis.multi().incrby(key, amount).expire(key, seconds).exec()]; the
    client returns numbers as strings. *)
Record RedisQuery := { q_err : bool; q_totalReceived : option string; q_err2 : bool }.

Record ConnectorConfig := {
  operatorTenantId : string;
  config_ilpAddress : string;
  enableIlpTiming : bool;
  tigerBeetleTwoPhaseTimeout : Z
}.

(** [RafikiServices] and the libraries the middlewares call.  [I] is the type of
    incoming payments. *)
Class ConnectorServices (N I : Type) := {
  config : ConnectorConfig;
  payment_account : I -> ConnectorAccount N;
  payment_state : I -> IncomingPayment.IncomingPaymentState;
  (* [incomingPayments.get({ id })] *)
  incomingPayments_get : string -> M N (option I);
  wallet_account : WalletAddress -> ConnectorAccount N;
  (* [walletAddresses.get(id)] *)
  walletAddresses_get : string -> M N (option WalletAddress);
  (* [peers.getByDestinationAddress(address, tenantId, incomingPeerId)] *)
  getByDestinationAddress : string -> string -> string -> M N (option (ConnectorAccount N));
  accounting : AccountingService N;
  (* [rates.convertSource(opts, tenantId)] *)
  rates_convertSource : RateConvertOpts -> string -> M N (res ConvertError ConvertResults);
  (* The values of the tenant setting [ILP_ADDRESS]. *)
  ilpAddress_get : string -> M N (list string);
  (* A STREAM server at an address: [decodePaymentTag] and [createReply]. *)
  decodePaymentTag : string -> string -> option string;
  createReply : string -> ZeroCopyIlpPrepare -> outcome MoneyOrReply;
  redis_incrby_expire : string -> string -> Z -> M N (option RedisQuery);
  redis_decrby : string -> string -> M N unit;
  (* The packet, the address and the asset of the client, the server's address. *)
  ildcpServe : Buffer -> string -> string -> Z -> string -> M N Buffer;
  (* [createHash('sha256')] *)
  sha256 : Buffer -> Buffer;
  (* The endpoint, the packet and the token. *)
  axios_post : string -> Buffer -> string -> M N Buffer;
  (* [oer-utils] *)
  skip : Buffer -> nat -> nat -> outcome nat;
  readLengthPrefix : Buffer -> nat -> outcome nat;
  (* The timer of a packet fires before its answer is there, after a duration. *)
  late : Z -> N -> bool
}.

Section Connector.
Context {N I : Type} `{IlpPacketLib} `{!ConnectorServices N I}.
Notation Account := (ConnectorAccount N).
Notation State := (Conn N).

Definition get_incoming : M State Account :=
  let! a := ctx_get accounts in
  match a with
  | Available i _ => ret i
  | NotAvailable => throw_error "incoming account not available"
  | Undefined => throw (JsError "TypeError" "")
  end.
Definition get_outgoing : M State Account :=
  let! a := ctx_get accounts in
  match a with
  | Available _ o => ret o
  | NotAvailable => throw_error "outgoing account not available"
  | Undefined => throw (JsError "TypeError" "")
  end.

(** [ctx.throw(status, message)] *)
Definition ctx_throw {A} (status : Z) (message : string) : M State A :=
  let! f := ctx_get throw_status in throw (f status message).

(** *** [ilp-timing.ts] *)

(** What the [finally] reads of the accounts, for the name of the operation. *)
Definition read_operation : M State unit :=
  let! a := ctx_get accounts in
  match a with
  | Undefined => ret tt
  | _ => get_incoming ;;! get_outgoing ;;! ret tt
  end.

Definition createIlpTimingMiddleware : ILPMiddleware N := fun next =>
  if negb (enableIlpTiming config) then next else finally next read_operation.

(** *** [error-handler.ts] *)

Definition as_object (e : exn) : exn :=
  match e with
  | ThrownString s => JsError "Error" ("Non-object thrown: " +:+ s)
  | _ => e
  end.

Definition revert_total : M State unit :=
  let! key := ctx_get revertTotalReceived in
  match key with
  | Some key =>
      let! p := ctx_get prepare in
      call (redis_decrby key (get_amount p))
  | None => ret tt
  end.

Definition createIncomingErrorHandlerMiddleware (serverAddress : string) : ILPMiddleware N :=
  fun next =>
    try_catch
      (next ;;!
       let! r := ctx_get response in
       match rawReply r with
       | None => throw_error "handler did not return a value."
       | Some _ => ret tt
       end)
      (fun e =>
         let err := as_object e in
         revert_total ;;!
         on_response (set_reject (Some (errorToIlpReject serverAddress
           (if isIlpError err then IlpError err
            else InternalError "unexpected internal error"))))).

(** *** [stream-address.ts] *)

Definition getIlpAddressForTenant : M State (option string) :=
  let! a := ctx_get incomingAccount in
  match a with
  | None => ret None
  | Some a =>
      if negb (truthy (ca_tenantId a)) then ret None
      else if bool_decide (ca_tenantId a = operatorTenantId config)
      then ret (Some (config_ilpAddress config))
      else let! tenantSettings := call (ilpAddress_get (ca_tenantId a)) in
           ret (head tenantSettings)
  end.

Definition createStreamAddressMiddleware : ILPMiddleware N := fun next =>
  let! tenantIlpAddress := getIlpAddressForTenant in
  let! p := ctx_get prepare in
  let server := if truthy tenantIlpAddress then tenantIlpAddress else None in
  let tag := match server with
             | Some address => decodePaymentTag address (get_destination p)
             | None => None
             end in
  ctx_set (set_stream server (if truthy tag then tag else None)) ;;!
  next.

(** *** [account.ts] *)

Definition ensureLiquidityAccount (account : Account) (accountType : LiquidityAccountType)
  : M State unit :=
  try_catch
    (call (createLiquidityAccount accounting (ca_account account) accountType) ;;! ret tt)
    (fun err => if isAccountAlreadyExistsError err then ret tt else throw err).

Definition getAccountByDestinationAddress (incoming : Account) : M State (option Account) :=
  let! p := ctx_get prepare in
  let! destination := ctx_get streamDestination in
  let! found :=
    match destination with
    | Some destination =>
        let! incomingPayment := call (incomingPayments_get destination) in
        match incomingPayment with
        | Some incomingPayment =>
            if negb (bool_decide (get_amount p = "0"%string))
               && bool_decide (payment_state incomingPayment
                               ∈ [IncomingPayment.Completed; IncomingPayment.Expired])
            then throw_ilp "UnreachableError" "destination account is in an incorrect state"
            else
            (if bool_decide (payment_state incomingPayment = IncomingPayment.Pending)
             then ensureLiquidityAccount (payment_account incomingPayment) INCOMING
             else ret tt) ;;!
            ret (Some (payment_account incomingPayment))
        | None =>
            let! walletAddress := call (walletAddresses_get destination) in
            match walletAddress with
            | Some walletAddress =>
                (if negb (truthy (wa_totalEventsAmount walletAddress))
                 then ensureLiquidityAccount (wallet_account walletAddress) WEB_MONETIZATION
                 else ret tt) ;;!
                ret (Some (wallet_account walletAddress))
            | None => ret None
            end
        end
    | None => ret None
    end in
  match found with
  | Some account => ret (Some account)
  | None =>
      call (getByDestinationAddress (get_destination p) (ca_tenantId incoming) (ca_id incoming))
  end.

Definition createAccountMiddleware : ILPMiddleware N := fun next =>
  let! incoming := ctx_get incomingAccount in
  match incoming with
  | None => ctx_throw 401 "unauthorized"
  | Some incoming =>
      let! outgoing := getAccountByDestinationAddress incoming in
      match outgoing with
      | None => throw_ilp "UnreachableError" "unknown destination account"
      | Some outgoing =>
          ctx_set (set_accounts (Available incoming outgoing)) ;;!
          next
      end
  end.

(** *** [max-packet-amount.ts] *)

Definition createIncomingMaxPacketAmountMiddleware : ILPMiddleware N := fun next =>
  let! incoming := get_incoming in
  let! p := ctx_get prepare in
  match ca_maxPacketAmount incoming with
  | Some maxPacketAmount =>
      if truthy maxPacketAmount && (maxPacketAmount <? zc_amount p)
      then throw_ilp "AmountTooLargeError" "packet size too large."
      else next
  | None => next
  end.

(** *** [rate-limit.ts] and [throughput.ts] *)

Definition get_limits : M State Buckets := gets limits.
Definition put_limits (l : Buckets) : M State unit := modify (set_limits l).

(** [bucket.take(count)] of the bucket of an account: whether it was let through, and
    the map with the bucket as it is left. *)
Definition take_from (bucket : TokenBucket) (key : string) (now count : Z)
    (buckets : gmap string TokenBucket) : outcome (bool * gmap string TokenBucket) :=
  match take_tokens now count bucket with
  | Some (ok, bucket) => Ret (ok, <[key := bucket]> buckets)
  | None => Throw (JsError "RangeError" "")
  end.

Record RateLimitMiddlewareOptions := {
  rl_refillPeriod : option Z;
  rl_refillCount : option Z;
  rl_capacity : option Z
}.
Definition or_default (o : option Z) (d : Z) : Z :=
  match o with Some z => if truthy z then z else d | None => d end.

Definition createIncomingRateLimitMiddleware (options : RateLimitMiddlewareOptions)
  : ILPMiddleware N := fun next =>
  let refillPeriod := or_default (rl_refillPeriod options) (60 * 1000) in
  let refillCount := or_default (rl_refillCount options) 10000 in
  let capacity := default refillCount (rl_capacity options) in
  let! incoming := get_incoming in
  let! now := gets clock in
  let! l := get_limits in
  let bucket := default (newTokenBucket now refillPeriod refillCount (Some capacity))
                  (rateBuckets l !! ca_id incoming) in
  let! '(ok, buckets) := of_outcome (take_from bucket (ca_id incoming) now 1 (rateBuckets l)) in
  put_limits {| rateBuckets := buckets; incomingBuckets := incomingBuckets l;
                outgoingBuckets := outgoingBuckets l |} ;;!
  if negb ok then throw_ilp "RateLimitedError" "too many requests, throttling."
  else next.

Record ThroughputMiddlewareOptions := {
  throughputLimitRefillPeriod : option Z;
  throughputLimit : option Z
}.

Definition createThroughputLimitBucket (options : ThroughputMiddlewareOptions) (now : Z)
  : option TokenBucket :=
  match throughputLimit options with
  | Some limit =>
      if truthy limit
      then Some (newTokenBucket now (or_default (throughputLimitRefillPeriod options) 1000) limit None)
      else None
  | None => None
  end.

(** Both directions: the account, its map and where the map goes. *)
Definition throughput (options : ThroughputMiddlewareOptions) (account : M State Account)
    (buckets_of : Buckets -> gmap string TokenBucket)
    (with_buckets : gmap string TokenBucket -> Buckets -> Buckets) (message : string)
  : ILPMiddleware N := fun next =>
  let! account := account in
  let! p := ctx_get prepare in
  let! now := gets clock in
  let! l := get_limits in
  let bucket := match buckets_of l !! ca_id account with
                | Some bucket => Some bucket
                | None => createThroughputLimitBucket options now
                end in
  match bucket with
  | None => next
  | Some bucket =>
      let! amount := of_outcome (BigInt (get_amount p)) in
      let! '(ok, buckets) := of_outcome (take_from bucket (ca_id account) now amount (buckets_of l)) in
      put_limits (with_buckets buckets l) ;;!
      if negb ok then throw_ilp "InsufficientLiquidityError" message else next
  end.

Definition createIncomingThroughputMiddleware (options : ThroughputMiddlewareOptions)
  : ILPMiddleware N :=
  throughput options get_incoming incomingBuckets
    (fun b l => {| rateBuckets := rateBuckets l; incomingBuckets := b;
                   outgoingBuckets := outgoingBuckets l |})
    "exceeded money bandwidth, throttling.".
Definition createOutgoingThroughputMiddleware (options : ThroughputMiddlewareOptions)
  : ILPMiddleware N :=
  throughput options get_outgoing outgoingBuckets
    (fun b l => {| rateBuckets := rateBuckets l; incomingBuckets := incomingBuckets l;
                   outgoingBuckets := b |})
    "exceeded money bandwidth, throttling.".

(** *** [ildcp.ts] *)

Definition createIldcpMiddleware (serverAddress : string) : ILPMiddleware N := fun next =>
  let! incoming := get_incoming in
  let! c := ctx_get (fun c => c) in
  if negb (bool_decide (get_destination (prepare c) = "peer.config"%string)) then next
  else
  match ca_staticIlpAddress incoming with
  | Some clientAddress =>
      if truthy clientAddress then
        let! raw := call (ildcpServe (rawPrepare c) clientAddress (ca_assetCode incoming)
                            (ca_assetScale incoming) serverAddress) in
        on_response (set_rawReply (Some raw))
      else ctx_throw 500 "not a peer account"
  | None => ctx_throw 500 "not a peer account"
  end.

(** *** [balance.ts] *)

Definition packetTransfer (incoming outgoing : Account) (sourceAmount destinationAmount : Z)
  : TransferOptions N :=
  {| sourceAccount := ca_account incoming; destinationAccount := ca_account outgoing;
     sourceAmount := sourceAmount; destinationAmount := Some destinationAmount;
     transferType := Some TRANSFER; timeout := tigerBeetleTwoPhaseTimeout config |}.

Definition createPendingTransfer (options : TransferOptions N) : M State (Transaction N) :=
  let! trxOrError := call (createTransfer accounting options) in
  match trxOrError with
  | Ok trx => ret trx
  | Err (InsufficientBalance | InsufficientLiquidity) =>
      throw_ilp "InsufficientLiquidityError" ""
  | Err _ => ctx_throw 500 "[object Object]"
  end.

Definition is_fulfilled : M State bool := ctx_get (fun c => is_some (r_fulfill (response c))).

(** The error that [post] and [void] may return is not looked at. *)
Definition settle (trx : Transaction N) : M State unit :=
  let! fulfilled := is_fulfilled in
  (if fulfilled then call (post trx) else call (void trx)) ;;! ret tt.

Definition createBalanceMiddleware : ILPMiddleware N := fun next =>
  let! p := ctx_get prepare in
  if bool_decide (get_amount p = "0"%string) then next
  else
  let! sourceAmount := of_outcome (BigInt (get_amount p)) in
  let! incoming := get_incoming in
  let! outgoing := get_outgoing in
  let! destinationAmountOrError :=
    call (rates_convertSource
            {| Rates.rc_amount := Rates.SourceAmount sourceAmount;
               Rates.sourceAsset := ca_asset incoming;
               Rates.destinationAsset := ca_asset outgoing |} (ca_tenantId outgoing)) in
  match destinationAmountOrError with
  | Err _ => throw_ilp "CannotReceiveError" "Exchange rate error"
  | Ok results =>
      let destinationAmount := Rates.cr_amount results in
      let! p := of_outcome (set_amount (bigint_toString destinationAmount) p) in
      ctx_set (set_prepare p) ;;!
      let! unfulfillable := ctx_get unfulfillable in
      if unfulfillable then next
      else
      let! streamDestination := ctx_get streamDestination in
      let options := packetTransfer incoming outgoing sourceAmount destinationAmount in
      if truthy streamDestination then
        next ;;!
        let! fulfilled := is_fulfilled in
        if fulfilled then let! trx := createPendingTransfer options in settle trx
        else ret tt
      else
        let! trx := createPendingTransfer options in
        next ;;!
        settle trx
  end.

(** *** [controllers/stream.ts] *)

Definition CONNECTION_EXPIRY : Z := 60 * 10.
Definition streamReceivedKey (connectionId : string) : string := "stream_received:" +:+ connectionId.

Definition createStreamController : ILPMiddleware N := fun next =>
  let! outgoing := get_outgoing in
  let! c := ctx_get (fun c => c) in
  match ca_http outgoing, streamDestination c, streamServer c with
  | None, Some _, Some server =>
      let! moneyOrReply := of_outcome (createReply server (prepare c)) in
      match moneyOrReply with
      | Reply r => on_response (set_reply (Some r))
      | Money money =>
          let connectionKey := streamReceivedKey (connectionId money) in
          let! query := call (redis_incrby_expire connectionKey (get_amount (prepare c))
                                CONNECTION_EXPIRY) in
          match query with
          | None => ret tt
          | Some query =>
              match q_totalReceived query with
              | Some totalReceived =>
                  if negb (q_err query) && negb (q_err2 query) then
                    ctx_set (set_revert (Some connectionKey)) ;;!
                    on_response (set_reply (Some (accept money (Some totalReceived))))
                  else on_response (set_reply (Some (accept money None)))
              | None => on_response (set_reply (Some (accept money None)))
              end
          end
      end
  | _, _, _ => next
  end.

(** *** [reduce-expiry.ts] *)

Definition getDestinationExpiry (sourceExpiryTime now minExpirationWindow maxHoldWindow : Z)
  : outcome Z :=
  if sourceExpiryTime <? now
  then Throw (ilp_packet_error "InsufficientTimeoutError" "source transfer has already expired.")
  else
  let destinationExpiryTime := Z.min (sourceExpiryTime - minExpirationWindow) (now + maxHoldWindow) in
  if destinationExpiryTime <? now + minExpirationWindow
  then Throw (ilp_packet_error "InsufficientTimeoutError"
                "source transfer expires too soon to complete payment.")
  else Ret destinationExpiryTime.

Record ReduceExpiryMiddlewareOptions := {
  minExpirationWindow : option Z;
  maxHoldWindow : option Z
}.

Definition createOutgoingReduceExpiryMiddleware (options : ReduceExpiryMiddlewareOptions)
  : ILPMiddleware N := fun next =>
  let! p := ctx_get prepare in
  let! now := gets clock in
  let! expiresAt := of_outcome
    (getDestinationExpiry (get_expiresAt p) now (or_default (minExpirationWindow options) 1000)
       (or_default (maxHoldWindow options) 30000)) in
  ctx_set (set_prepare (set_prepare_expiresAt expiresAt p)) ;;!
  next.

(** *** [expire.ts] *)

Definition race_with_timer (duration : Z) (next : M State unit) : M State unit :=
  fun s => let '(r, s') := next s in
           if late duration (net s')
           then (Throw (ilp_packet_error "TransferTimedOutError" "packet expired."),
                 set_ctx (set_response (response (ctx s))) s')
           else (r, s').

Definition createOutgoingExpireMiddleware : ILPMiddleware N := fun next =>
  let! p := ctx_get prepare in
  let! now := gets clock in
  let duration := get_expiresAt p - now in
  if duration <=? 0 then throw_ilp "TransferTimedOutError" "packet expired."
  else race_with_timer duration next.

(** *** [validate-fulfillment.ts] *)

Definition createOutgoingValidateFulfillmentMiddleware : ILPMiddleware N := fun next =>
  let! executionCondition := ctx_get (fun c => ip_executionCondition (zc_prepare (prepare c))) in
  next ;;!
  let! fulfill := ctx_get (fun c => r_fulfill (response c)) in
  match fulfill with
  | Some f =>
      if negb (bool_decide (sha256 (fulfillment f) = executionCondition))
      then throw_ilp "WrongConditionError" "fulfillment did not match expected value."
      else ret tt
  | None => ret tt
  end.

(** *** [controllers/client.ts] and [services/client.ts] *)

Definition sendToPeer (account : Account) (prepare : Buffer) : M State Buffer :=
  match ca_http account with
  | None => throw_ilp "UnreachableError" "no outgoing endpoint"
  | Some (authToken, endpoint) => call (axios_post endpoint prepare authToken)
  end.

(** The packet is rewritten in place. *)
Definition createClientController : ILPMiddleware N := fun _ =>
  let! outgoing := get_outgoing in
  let! c := ctx_get (fun c => c) in
  let amount := if zc_amountChanged (prepare c) then Some (zc_amount (prepare c)) else None in
  let expiresAt := if zc_expiresAtChanged (prepare c) then Some (get_expiresAt (prepare c)) else None in
  let! outgoingPrepare :=
    of_outcome (modifySerializedIlpPrepare skip readLengthPrefix (rawPrepare c) amount expiresAt) in
  ctx_set (set_rawPrepare outgoingPrepare) ;;!
  let! raw := sendToPeer outgoing outgoingPrepare in
  on_response (set_rawReply (Some raw)).

(** *** [connector/index.ts] *)

(** [compose(middlewares)], from the middleware with the number [i]. *)
Fixpoint dispatch (middlewares : list (ILPMiddleware N)) (i : Z) (next : M State unit)
  : M State unit :=
  let! last := ctx_get index in
  if i <=? last then throw_error "next() called multiple times"
  else
  ctx_set (set_index i) ;;!
  match middlewares with
  | [] => next
  | fn :: middlewares => fn (dispatch middlewares (i + 1) next)
  end.

Definition no_throughput : ThroughputMiddlewareOptions :=
  {| throughputLimitRefillPeriod := None; throughputLimit := None |}.

Definition routes : list (ILPMiddleware N) :=
  [createIlpTimingMiddleware;
   createIncomingErrorHandlerMiddleware (config_ilpAddress config);
   createStreamAddressMiddleware;
   createAccountMiddleware;
   createIncomingMaxPacketAmountMiddleware;
   createIncomingRateLimitMiddleware
     {| rl_refillPeriod := None; rl_refillCount := None; rl_capacity := None |};
   createIncomingThroughputMiddleware no_throughput;
   createIldcpMiddleware (config_ilpAddress config);
   createBalanceMiddleware;
   createStreamController;
   createOutgoingThroughputMiddleware no_throughput;
   createOutgoingReduceExpiryMiddleware {| minExpirationWindow := None; maxHoldWindow := None |};
   createOutgoingExpireMiddleware;
   createOutgoingValidateFulfillmentMiddleware;
   createClientController].

Definition run_routes (next : M State unit) : M State unit := dispatch routes 0 next.

(** *** [core/rafiki.ts] *)

(** The connector between two requests. *)
Record Node := { node_limits : Buckets; node_clock : Z; node_net : N }.
Definition node_of (s : State) : Node :=
  {| node_limits := limits s; node_clock := clock s; node_net := net s |}.
Definition with_ctx (c : ILPContext N) (n : Node) : State :=
  {| ctx := c; limits := node_limits n; clock := node_clock n; net := node_net n |}.

(** The context of a request of a local sender. *)
Definition local_ctx (sourceAccount : Account) (unfulfillable : bool) (p : ZeroCopyIlpPrepare)
    (raw : Buffer) : ILPContext N :=
  {| prepare := p; rawPrepare := raw; response := new_response; accounts := NotAvailable;
     incomingAccount := Some sourceAccount; unfulfillable := unfulfillable;
     streamServer := None; streamDestination := None; revertTotalReceived := None;
     throw_status := fun _ message => ilp_packet_error "BadRequestError" message; index := -1 |}.

(** The run of the pipeline for a request, and the bytes of its answer. *)
Definition respond (c : ILPContext N) (no_reply : exn) : M Node Buffer := fun n =>
  match run_routes (ret tt) (with_ctx c n) with
  | (Throw e, s) => (Throw e, node_of s)
  | (Ret _, s) =>
      match rawReply (response (ctx s)) with
      | None => (Throw no_reply, node_of s)
      | Some reply => (Ret reply, node_of s)
      end
  end.

Definition handleIlpData (sourceAccount : Account) (unfulfillable : bool) (raw : Buffer)
  : M Node Buffer :=
  let! p := of_outcome (zeroCopyOf raw) in
  respond (local_ctx sourceAccount unfulfillable p raw)
    (JsError "Error" "error generating reply").

(** *** The packets of peers: [auth.ts] and [ilp-packet.ts] *)

(** What [ctx.throw] and [ctx.assert] throw. *)
Definition http_error (status : Z) (message : string) : exn :=
  JsError (bigint_toString status) message.
Definition http_assert {S} (b : bool) (status : Z) (message : string) : M S unit :=
  if b then ret tt else throw (http_error status message).

Definition lower (c : Ascii.ascii) : Ascii.ascii :=
  let n := Ascii.nat_of_ascii c in
  if ((65 <=? n) && (n <=? 90))%nat then Ascii.ascii_of_nat (n + 32) else c.
Fixpoint toLowerCase (s : string) : string :=
  match s with EmptyString => EmptyString | String c s => String (lower c) (toLowerCase s) end.

Definition getBearerToken (authorization : option string) : option string :=
  match authorization with
  | Some authorization =>
      if negb (truthy authorization) then None
      else match Text.split " " authorization with
           | [scheme; credentials] =>
               if bool_decide (toLowerCase scheme = "bearer"%string) then Some credentials else None
           | _ => None
           end
  | None => None
  end.

(** The [ILPContext] of a request over HTTP: nothing sets [ctx.accounts] before the
    account middleware, nor [state.unfulfillable]. *)
Definition http_ctx (incoming : Account) (p : ZeroCopyIlpPrepare) (raw : Buffer) : ILPContext N :=
  {| prepare := p; rawPrepare := raw; response := new_response; accounts := Undefined;
     incomingAccount := Some incoming; unfulfillable := false;
     streamServer := None; streamDestination := None; revertTotalReceived := None;
     throw_status := http_error; index := -1 |}.

Record HttpRequest := {
  authorization : option string;
  contentType : string;
  rawBody : Buffer
}.
Definition CONTENT_TYPE : string := "application/octet-stream".

Definition on_net {A} (m : M N A) : M Node A :=
  fun n => let '(r, y) := m (node_net n) in
           (r, {| node_limits := node_limits n; node_clock := node_clock n; node_net := y |}).

Section Http.
(** [peers.getByIncomingToken(token)] *)
Context (getByIncomingToken : string -> M N (option Account)).

Definition createTokenAuthMiddleware (authorization : option string) : M Node Account :=
  match getBearerToken authorization with
  | Some token =>
      http_assert (truthy token) 401 "Bearer token required in Authorization header" ;;!
      let! incomingAccount := on_net (getByIncomingToken token) in
      match incomingAccount with
      | Some a => ret a
      | None => throw (http_error 401 "Access Denied - Invalid Token")
      end
  | None => throw (http_error 401 "Bearer token required in Authorization header")
  end.

Definition createIlpPacketMiddleware (incoming : Account) (request : HttpRequest) : M Node Buffer :=
  http_assert (bool_decide (contentType request = CONTENT_TYPE)) 400
    "Expected Content-Type of application/octet-stream" ;;!
  let! p := of_outcome (zeroCopyOf (rawBody request)) in
  respond (http_ctx incoming p (rawBody request)) (http_error 500 "ilp reply not set").

(** The two middlewares of the server. *)
Definition publicServer (request : HttpRequest) : M Node Buffer :=
  let! incoming := createTokenAuthMiddleware (authorization request) in
  createIlpPacketMiddleware incoming request.
End Http.
End Connector.
