(* ===== verification/ConnectorSpecs.v ===== *)
(** * ConnectorSpecs: what the pipeline does with a packet

    For each middleware of [Connector] the states in which it may call the rest of the
    pipeline and what it does around that call; composed along [routes] into theorems
    about [handleIlpData]: a fulfilled packet is paid ([fulfilled_is_paid]), what is
    forwarded is the packet at its converted amount and a reduced expiry
    ([forwards_only_allowed]), and what the pipeline may throw instead of an answer
    ([connector_replies]). *)

From S2P Require Import Prelude JsNumber OpenPayments Service Accounting IlpPacket TokenBucket Connector.
From S2P Require Text IncomingPayment Rates.
Import Text (bigint_toString, BigInt).

Local Open Scope Z_scope.
Local Open Scope ts_scope.

(** A step of a middleware: [wp_step], or the operations on the context. *)
Ltac conn_simpl :=
  cbn [ctx limits clock net set_ctx set_limits set_net set_prepare set_rawPrepare set_response
       set_accounts set_stream set_revert set_index prepare rawPrepare response accounts
       incomingAccount unfulfillable streamServer streamDestination revertTotalReceived
       throw_status index].
Ltac conn_step :=
  lazymatch goal with
  | |- wp (bind _ _) _ _ => apply wp_bind
  | |- wp (ctx_get _) _ _ => apply wp_ctx_get
  | |- wp (ctx_set _) _ _ => apply wp_ctx_set
  | |- wp get_limits _ _ => apply wp_gets
  | |- wp (put_limits _) _ _ => apply wp_modify
  | |- wp (throw_ilp _ _) _ _ => apply wp_throw
  | |- wp (call _) _ _ =>
      let r := fresh "r" in let y := fresh "y" in let H := fresh "Hcall" in
      apply wp_service; intros r y H; destruct r
  | |- wp (of_outcome ?o) _ _ => unfold of_outcome; destruct o eqn:?
  | |- wp (let _ := _ in _) _ _ => cbv zeta
  | |- _ => wp_step
  end; cbv beta iota; conn_simpl.
Ltac conn_auto := repeat conn_step.

Lemma wp_keeps {S A} (Inv : S -> Prop) (m : M S A) Q s :
  keeps Inv m -> Inv s -> wp m Q s -> wp m (fun r s' => Q r s' /\ Inv s') s.
Proof. intros Hm Hs HQ. split; [exact HQ|by apply Hm]. Qed.

Lemma keeps_of_outcome {S A} (Inv : S -> Prop) (o : outcome A) : keeps Inv (of_outcome o).
Proof. destruct o; by intros s. Qed.

Section Specs.
Context {N I : Type} `{IlpPacketLib} `{!ConnectorServices N I}.
Notation Account := (ConnectorAccount N).
Notation State := (Conn N).
Implicit Types s : State.

Lemma wp_dispatch_cons fn rest i next Q s :
  index (ctx s) < i ->
  wp (fn (dispatch rest (i + 1) next)) Q (set_ctx (set_index i) s) ->
  wp (dispatch (fn :: rest) i next) Q s.
Proof.
  intros Hi Hfn. unfold dispatch; fold (@dispatch N). do 2 conn_step.
  destruct (Z.leb_spec i (index (ctx s))); [lia|]. by do 2 conn_step.
Qed.

Lemma wp_get_incoming i o Q s :
  accounts (ctx s) = Available i o -> Q (Ret i) s -> wp get_incoming Q s.
Proof. intros Ha HQ. unfold get_incoming. do 2 conn_step. rewrite Ha. by conn_step. Qed.
Lemma wp_get_outgoing i o Q s :
  accounts (ctx s) = Available i o -> Q (Ret o) s -> wp get_outgoing Q s.
Proof. intros Ha HQ. unfold get_outgoing. do 2 conn_step. rewrite Ha. by conn_step. Qed.

(** ** Invariants of a request *)

Lemma keeps_ctx_get {A} (Inv : State -> Prop) (f : ILPContext N -> A) : keeps Inv (ctx_get f).
Proof. by intros s. Qed.

Lemma keeps_ctx_set (Inv : State -> Prop) f :
  (forall s, Inv s -> Inv (set_ctx f s)) -> keeps Inv (ctx_set f).
Proof. intros Hf s Hs. by apply Hf. Qed.

Lemma keeps_call {A} (Inv : State -> Prop) (m : M N A) :
  (forall s, Inv s -> Inv (set_net (m (net s)).2 s)) -> keeps Inv (call m).
Proof.
  intros Hm s Hs. specialize (Hm s Hs). unfold call. by destruct (m (net s)) as [r y].
Qed.

(** ** Around the rest of the pipeline

    [P] is a property of the services that they keep. *)

(** The callbacks of an account keep [P]. *)
Record account_keeps (P : N -> Prop) (a : LiquidityAccount N) : Prop := {
  keep_onDebit : forall f o, account_onDebit a = Some f -> keeps P (f o);
  keep_onCredit : forall f o, account_onCredit a = Some f -> keeps P (f o);
  keep_asset_onDebit : forall f o, asset_onDebit (account_asset a) = Some f -> keeps P (f o)
}.

Record services_keep (P : N -> Prop) : Prop := {
  keep_payment_account : forall i, account_keeps P (ca_account (payment_account i));
  keep_wallet_account : forall w, account_keeps P (ca_account (wallet_account w));
  keep_peer_account : forall address tenant id y a y',
    getByDestinationAddress address tenant id y = (Ret (Some a), y') ->
    account_keeps P (ca_account a);
  keep_payments : forall id, keeps P (incomingPayments_get id);
  keep_wallets : forall id, keeps P (walletAddresses_get id);
  keep_peers : forall address tenant id, keeps P (getByDestinationAddress address tenant id);
  keep_accounts : forall a t, keeps P (createLiquidityAccount accounting a t);
  keep_transfer : forall o, keeps P (createTransfer accounting o);
  keep_post : forall o y trx y',
    account_keeps P (sourceAccount o) -> account_keeps P (destinationAccount o) ->
    P y -> createTransfer accounting o y = (Ret (Ok trx), y') -> keeps P (post trx);
  keep_void : forall o y trx y',
    P y -> createTransfer accounting o y = (Ret (Ok trx), y') -> keeps P (void trx);
  keep_rates : forall o t, keeps P (rates_convertSource o t);
  keep_setting : forall t, keeps P (ilpAddress_get t);
  keep_ildcp : forall b a c z o, keeps P (ildcpServe b a c z o);
  keep_incr : forall k v t, keeps P (redis_incrby_expire k v t);
  keep_decr : forall k v, keeps P (redis_decrby k v)
}.

Lemma account_keeps_True a : account_keeps (fun _ => True) a.
Proof. by constructor. Qed.
Lemma services_keep_True : services_keep (fun _ => True).
Proof. by constructor. Qed.

Lemma keeps_run {A} (P : N -> Prop) (m : M N A) y r y' :
  keeps P m -> P y -> m y = (r, y') -> P y'.
Proof. intros Hm Hy E. specialize (Hm y Hy). by rewrite E in Hm. Qed.

Section Passes.
Context (P : N -> Prop) (HP : services_keep P).
Context (next : M State unit) (Q : outcome unit -> State -> Prop).

Context (Hthrow : forall e s, P (net s) -> Q (Throw e) s).

(** [wp] of the rest of the pipeline, from a state with this request. *)
Definition continues (c : ILPContext N) (t : Z) : Prop :=
  forall s, ctx s = c -> clock s = t -> P (net s) -> wp next Q s.

Lemma pass_max s :
  P (net s) -> continues (ctx s) (clock s) ->
  wp (createIncomingMaxPacketAmountMiddleware next) Q s.
Proof.
  intros Hs Hnext. unfold createIncomingMaxPacketAmountMiddleware, get_incoming.
  conn_auto; by first [apply Hthrow|apply Hnext].
Qed.

Lemma pass_rate options s :
  P (net s) -> continues (ctx s) (clock s) ->
  wp (createIncomingRateLimitMiddleware options next) Q s.
Proof.
  intros Hs Hnext. unfold createIncomingRateLimitMiddleware, get_incoming.
  conn_auto; by first [apply Hthrow|apply Hnext].
Qed.

Lemma pass_incoming_throughput options s :
  P (net s) -> continues (ctx s) (clock s) ->
  wp (createIncomingThroughputMiddleware options next) Q s.
Proof.
  intros Hs Hnext. unfold createIncomingThroughputMiddleware, throughput, get_incoming.
  conn_auto; by first [apply Hthrow|apply Hnext].
Qed.

Lemma pass_outgoing_throughput options s :
  P (net s) -> continues (ctx s) (clock s) ->
  wp (createOutgoingThroughputMiddleware options next) Q s.
Proof.
  intros Hs Hnext. unfold createOutgoingThroughputMiddleware, throughput, get_outgoing.
  conn_auto; by first [apply Hthrow|apply Hnext].
Qed.

Lemma pass_ildcp address s :
  P (net s) -> get_destination (prepare (ctx s)) <> "peer.config"%string ->
  continues (ctx s) (clock s) -> wp (createIldcpMiddleware address next) Q s.
Proof.
  intros Hs Hd Hnext. unfold createIldcpMiddleware, get_incoming. conn_auto.
  all: zbool; try done; by first [apply Hthrow|apply Hnext].
Qed.

Lemma pass_stream_address s :
  P (net s) ->
  (forall server destination,
     continues (set_stream server destination (ctx s)) (clock s)) ->
  wp (createStreamAddressMiddleware next) Q s.
Proof.
  intros Hs Hnext. unfold createStreamAddressMiddleware, getIlpAddressForTenant. conn_auto.
  all: try (by eapply Hnext).
  - eapply Hnext; [done|done|]. by eapply (keeps_run P), Hcall; [apply HP|].
  - apply Hthrow. by eapply (keeps_run P), Hcall; [apply HP|].
Qed.
End Passes.


(** The same request, whatever the services and the limits became. *)
Definition same_request (P : N -> Prop) (c : ILPContext N) (t : Z) (s : State) : Prop :=
  ctx s = c /\ clock s = t /\ P (net s).

Lemma keeps_service {A} (P : N -> Prop) c t (m : M N A) :
  keeps P m -> keeps (same_request P c t) (call m).
Proof.
  intros Hm. apply keeps_call. intros s (Hc & Ht & Hp). split_and!; [done|done|]. by apply Hm.
Qed.

(** The account the packet [p] from [incoming] was looked up for. *)
Definition routed (incoming : Account) (p : ZeroCopyIlpPrepare) (outgoing : Account) : Prop :=
  exists s s', prepare (ctx s) = p /\
    getAccountByDestinationAddress incoming s = (Ret (Some outgoing), s').

(** Without the services having been run. *)
Lemma wp_ensure account ty Q s :
  (forall r s', Q r s') -> wp (ensureLiquidityAccount account ty) Q s.
Proof. intros HQ. unfold wp. by destruct (ensureLiquidityAccount _ _ s). Qed.

Lemma routed_keeps (P : N -> Prop) incoming p outgoing :
  services_keep P -> routed incoming p outgoing -> account_keeps P (ca_account outgoing).
Proof.
  intros HP (s & s' & _ & Hrun).
  refine (wp_run _ (fun r _ => match r with
    | Ret (Some a) => account_keeps P (ca_account a) | _ => True end) _ _ _ _ Hrun).
  unfold getAccountByDestinationAddress, throw_ilp.
  repeat first [apply wp_ensure; intros [u|e] x | conn_step]; try done.
  all: first [by apply (keep_payment_account P HP)|by apply (keep_wallet_account P HP)|idtac].
  all: match goal with |- match ?a with _ => _ end => destruct a end; try done;
    by eapply (keep_peer_account P HP).
Qed.

Section Account.
Context (P : N -> Prop) (HP : services_keep P).
Context (next : M State unit) (Q : outcome unit -> State -> Prop).
Context (Hthrow : forall e s, P (net s) -> Q (Throw e) s).

Lemma keeps_getAccount incoming c t :
  keeps (same_request P c t) (getAccountByDestinationAddress incoming).
Proof.
  unfold getAccountByDestinationAddress, ensureLiquidityAccount, throw_ilp.
  repeat first [keeps_step | apply keeps_ctx_get | apply keeps_service; apply HP].
Qed.

Lemma pass_account s :
  P (net s) ->
  (forall incoming outgoing, incomingAccount (ctx s) = Some incoming ->
     routed incoming (prepare (ctx s)) outgoing ->
     continues P next Q (set_accounts (Available incoming outgoing) (ctx s)) (clock s)) ->
  wp (createAccountMiddleware next) Q s.
Proof.
  intros Hs Hnext. unfold createAccountMiddleware, ctx_throw. do 2 conn_step.
  destruct (incomingAccount (ctx s)) as [incoming|] eqn:Hi; [|by conn_auto; apply Hthrow].
  conn_step. apply wp_call. intros found s1 Hfound.
  pose proof (keeps_getAccount incoming (ctx s) (clock s) s ltac:(done)) as Hsame.
  rewrite Hfound in Hsame. destruct Hsame as (Hc & Ht & Hp). simpl in Hc, Ht, Hp.
  destruct found as [[outgoing|]|e]; [|conn_auto; by apply Hthrow|by apply Hthrow].
  do 2 conn_step. apply (Hnext incoming outgoing); simpl; try congruence.
  by exists s, s1.
Qed.
End Account.

(** ** The outgoing part *)

Definition outgoing_routes : list (ILPMiddleware N) :=
  [createStreamController;
   createOutgoingThroughputMiddleware no_throughput;
   createOutgoingReduceExpiryMiddleware {| minExpirationWindow := None; maxHoldWindow := None |};
   createOutgoingExpireMiddleware;
   createOutgoingValidateFulfillmentMiddleware;
   createClientController].

(** The expiry of what is forwarded: a second less, half a minute at most, and at least a
    second away. *)
Definition reduced_expiry (expiresAt now e : Z) : Prop :=
  e = Z.min (expiresAt - 1000) (now + 30000) /\ now + 1000 <= e.

Lemma getDestinationExpiry_spec expiresAt now e :
  getDestinationExpiry expiresAt now 1000 30000 = Ret e -> reduced_expiry expiresAt now e.
Proof.
  unfold getDestinationExpiry, reduced_expiry. intros He. split_ifs_in He. zbool. lia.
Qed.

(** The amount that is written into a forwarded packet, if any. *)
Definition changed_amount (p : ZeroCopyIlpPrepare) : option Z :=
  if zc_amountChanged p then Some (zc_amount p) else None.

Section Outgoing.
Context `{!IlpPacketLaws} (P : N -> Prop) (HP : services_keep P).
Context (c : ILPContext N) (t : Z).

(** [P] allows the packets that may be forwarded for this request. *)
Context (Hpost : forall incoming outgoing token endpoint e b,
  accounts c = Available incoming outgoing ->
  ca_http outgoing = Some (token, endpoint) ->
  reduced_expiry (get_expiresAt (prepare c)) t e ->
  modifySerializedIlpPrepare skip readLengthPrefix (rawPrepare c)
    (changed_amount (prepare c)) (Some e) = Ret b ->
  keeps P (axios_post endpoint b token)).

(** What the outgoing part ends with. *)
Definition outgoing_post (r : outcome unit) (s : State) : Prop :=
  P (net s) /\ match r with Ret _ => response_wf (response (ctx s)) | Throw _ => True end.

(** A state of this request: as it came in, up to its number in the pipeline. *)
Definition requested (c : ILPContext N) (s : State) : Prop :=
  (exists i, ctx s = set_index i c) /\ clock s = t /\ P (net s).

Lemma client_spec e i s next :
  reduced_expiry (get_expiresAt (prepare c)) t e ->
  ctx s = set_index i (set_prepare (set_prepare_expiresAt e (prepare c)) c) ->
  P (net s) ->
  wp (createClientController next) outgoing_post s.
Proof.
  intros He Hc Hs. unfold createClientController, get_outgoing, sendToPeer, outgoing_post.
  do 3 conn_step. rewrite Hc. conn_simpl. destruct (accounts c) as [| |incoming outgoing] eqn:Ha;
    [by conn_auto|by conn_auto|]. conn_step. do 2 conn_step. rewrite Hc. conn_simpl.
  cbn [zc_expiresAtChanged set_prepare_expiresAt zc_amountChanged zc_amount].
  change (get_expiresAt (set_prepare_expiresAt e (prepare c))) with e.
  do 2 conn_step; [|done]. rename a into b. rename Heqo into Hb.
  do 3 conn_step. destruct (ca_http outgoing) as [[token endpoint]|] eqn:Hh; [|by conn_auto].
  assert (keeps P (axios_post endpoint b token)) as Hk by (by eapply Hpost).
  do 2 conn_step; specialize (keeps_run P _ _ _ _ Hk Hs Hcall) as Hy; [|done].
  apply wp_on_response. eapply wp_mono; [apply set_rawReply_spec|].
  intros [u|e'] x Hx; conn_simpl; [|done]. split; [done|by destruct Hx].
Qed.

Lemma validate_spec next s :
  wp next outgoing_post s -> wp (createOutgoingValidateFulfillmentMiddleware next) outgoing_post s.
Proof.
  intros Hnext. unfold createOutgoingValidateFulfillmentMiddleware. do 3 conn_step.
  eapply wp_mono; [exact Hnext|]. intros [u|e] s' [Hp Hr]; [|done]. by conn_auto.
Qed.

Lemma expire_spec next s :
  P (net s) -> wp next outgoing_post s -> wp (createOutgoingExpireMiddleware next) outgoing_post s.
Proof.
  intros Hs Hnext. unfold createOutgoingExpireMiddleware. conn_auto; [done|].
  unfold wp, race_with_timer in *. destruct (next s) as [r s']. destruct Hnext as [Hp Hr].
  by destruct (late _ _).
Qed.

Lemma stream_spec next s :
  P (net s) -> response_wf (response (ctx s)) ->
  continues P next outgoing_post (ctx s) (clock s) ->
  wp (createStreamController next) outgoing_post s.
Proof.
  intros Hs Hr Hnext. unfold createStreamController, get_outgoing.
  assert (forall r s1, P (net s1) -> wp (on_response (set_reply (Some r))) outgoing_post s1) as Hset.
  { intros r s1 Hp. apply wp_on_response. eapply wp_mono; [apply set_reply_spec|].
    intros [u|e] x Hx; split; try done. by destruct Hx. }
  assert (forall k v z, keeps P (redis_incrby_expire k v z)) as Hk by (intros; apply HP).
  conn_auto; try done.
  all: try (by apply Hnext). all: try (by apply Hset).
  all: try (by split; [eapply (keeps_run P); [apply Hk|exact Hs|exact Hcall]|]).
  all: apply Hset; eapply (keeps_run P); [apply Hk|exact Hs|exact Hcall].
Qed.

(** What the outgoing part leaves: [P], and on return a response that is one reply. *)
Lemma outgoing_spec i next s :
  index (ctx s) < i -> ctx s = set_index (index (ctx s)) c -> clock s = t -> P (net s) ->
  response_wf (response (ctx s)) ->
  wp (dispatch outgoing_routes i next) outgoing_post s.
Proof.
  intros Hi Hc Ht Hs Hr. unfold outgoing_routes.
  assert (forall e s1, P (net s1) -> outgoing_post (Throw e) s1) as Hthrow by (by intros; split).
  apply wp_dispatch_cons; [done|]. apply stream_spec; [done|done|].
  intros s1 Hc1 Ht1 Hs1. assert (ctx s1 = set_index i c) as Hi1.
  { rewrite Hc1. simpl. by rewrite Hc. }
  clear Hc1. apply wp_dispatch_cons; [rewrite Hi1; simpl; lia|].
  apply (pass_outgoing_throughput P); [done|done|].
  intros s2 Hc2 Ht2 Hs2. assert (ctx s2 = set_index (i + 1) c) as Hi2.
  { rewrite Hc2. simpl. by rewrite Hi1. }
  simpl in Ht1, Ht2. clear Hc2. apply wp_dispatch_cons; [rewrite Hi2; simpl; lia|].
  unfold createOutgoingReduceExpiryMiddleware. do 4 conn_step.
  do 2 conn_step; [|by split].
  rename a into e. apply getDestinationExpiry_spec in Heqo. rewrite Hi2 in Heqo |- *.
  assert (clock s2 = t) as Ht' by congruence. rewrite Ht' in Heqo.
  do 2 conn_step. apply wp_dispatch_cons; [simpl; rewrite ?Hi2; simpl; lia|].
  apply expire_spec; [done|].
  apply wp_dispatch_cons; [simpl; rewrite ?Hi2; simpl; lia|]. apply validate_spec.
  apply wp_dispatch_cons; [simpl; rewrite ?Hi2; simpl; lia|].
  apply (client_spec e (i + 1 + 1 + 1 + 1 + 1)); [|simpl; by rewrite ?Hi2|done].
  exact Heqo.
Qed.
End Outgoing.

(** ** The balances *)

(** The prepare packet after the conversion between the accounts. *)
Definition converted (incoming outgoing : Account) (p p' : ZeroCopyIlpPrepare) : Prop :=
  (get_amount p = "0"%string /\ p' = p) \/
  exists sourceAmount results y y',
    BigInt (get_amount p) = Ret sourceAmount /\
    rates_convertSource
      {| Rates.rc_amount := Rates.SourceAmount sourceAmount;
         Rates.sourceAsset := ca_asset incoming;
         Rates.destinationAsset := ca_asset outgoing |} (ca_tenantId outgoing) y
    = (Ret (Ok results), y') /\
    p' = set_intAmount (Rates.cr_amount results) p.

(** What may be sent, and where, for a packet that came from an account. *)
Definition forwardable (incoming : Account) (p : ZeroCopyIlpPrepare) (raw : Buffer) (now : Z)
    (endpoint : string) (b : Buffer) (token : string) : Prop :=
  exists outgoing p' e,
    routed incoming p outgoing /\
    ca_http outgoing = Some (token, endpoint) /\
    converted incoming outgoing p p' /\
    reduced_expiry (get_expiresAt p) now e /\
    modifySerializedIlpPrepare skip readLengthPrefix raw (changed_amount p') (Some e) = Ret b.

(** The transfer of a packet's amount at its rate was created, and posting it is the last
    thing that was asked of the services; [refused] is what posting returned. *)
Definition charged (incoming : Account) (p : ZeroCopyIlpPrepare) (refused : option TransferError)
    (y' : N) : Prop :=
  exists outgoing sourceAmount results trx y0 y1 y2 y3 y4,
    routed incoming p outgoing /\
    BigInt (get_amount p) = Ret sourceAmount /\
    rates_convertSource
      {| Rates.rc_amount := Rates.SourceAmount sourceAmount;
         Rates.sourceAsset := ca_asset incoming;
         Rates.destinationAsset := ca_asset outgoing |} (ca_tenantId outgoing) y0
    = (Ret (Ok results), y1) /\
    createTransfer accounting
      (packetTransfer incoming outgoing sourceAmount (Rates.cr_amount results)) y2
    = (Ret (Ok trx), y3) /\
    post trx y4 = (Ret refused, y').

Definition paid (incoming : Account) (p : ZeroCopyIlpPrepare) (y' : N) : Prop :=
  exists refused, charged incoming p refused y'.

Section Balance.
Context `{!IlpPacketLaws} (P : N -> Prop) (HP : services_keep P).
Context (incoming : Account) (p : ZeroCopyIlpPrepare) (raw : Buffer) (t : Z) (probe : bool).
Context (Hincoming : account_keeps P (ca_account incoming)).
Context (Hforward : forall endpoint b token,
  forwardable incoming p raw t endpoint b token -> keeps P (axios_post endpoint b token)).

(** Packets that move no money. *)
Definition unpaid : Prop :=
  get_amount p = "0"%string \/ probe = true \/ get_destination p = "peer.config"%string.

(** What the pipeline ends with: a fulfilled packet is paid. *)
Definition pipeline_post (r : outcome unit) (s : State) : Prop :=
  P (net s) /\
  match r with
  | Ret _ => response_wf (response (ctx s)) /\
             (is_some (r_fulfill (response (ctx s))) = true -> unpaid \/ paid incoming p (net s))
  | Throw _ => True
  end.

Lemma settle_spec trx s :
  P (net s) -> keeps P (post trx) -> keeps P (void trx) -> response_wf (response (ctx s)) ->
  wp (settle trx)
    (fun r s' => P (net s') /\
       match r with
       | Ret _ => response_wf (response (ctx s')) /\
                  (is_some (r_fulfill (response (ctx s'))) = true ->
                   exists e, post trx (net s) = (Ret e, net s'))
       | Throw _ => True
       end) s.
Proof.
  intros Hs Hpost Hvoid Hr. unfold settle, is_fulfilled.
  destruct (is_some (r_fulfill (response (ctx s)))) eqn:Hf.
  - do 2 conn_step. rewrite Hf. do 2 conn_step; [conn_step|];
      (split; [by eapply (keeps_run P); [exact Hpost| |exact Hcall]|]); [|done].
    split; [done|]. eauto.
  - do 2 conn_step. rewrite Hf. do 2 conn_step; [conn_step|];
      (split; [by eapply (keeps_run P); [exact Hvoid| |exact Hcall]|]); [|done].
    split; [done|]. by rewrite Hf.
Qed.

Lemma createPendingTransfer_spec options s :
  account_keeps P (sourceAccount options) -> account_keeps P (destinationAccount options) ->
  P (net s) ->
  wp (createPendingTransfer options)
    (fun r s' => P (net s') /\
       match r with
       | Ret trx => ctx s' = ctx s /\ clock s' = clock s /\ keeps P (post trx) /\ keeps P (void trx) /\
                    createTransfer accounting options (net s) = (Ret (Ok trx), net s')
       | Throw _ => True
       end) s.
Proof.
  intros Hsource Hdestination Hs. unfold createPendingTransfer, ctx_throw.
  assert (keeps P (createTransfer accounting options)) as Hk by apply HP.
  conn_auto; (split; [by eapply (keeps_run P); [exact Hk| |exact Hcall]|]); try done.
  split_and!; [done|done| | |done];
    [by eapply (keep_post P HP)|by eapply (keep_void P HP)].
Qed.

(** A request that reached the balances. *)
Record at_balance (outgoing : Account) (i : Z) (s : State) : Prop := {
  ab_index : index (ctx s) = i;
  ab_clock : clock s = t;
  ab_services : P (net s);
  ab_response : response_wf (response (ctx s));
  ab_prepare : prepare (ctx s) = p;
  ab_raw : rawPrepare (ctx s) = raw;
  ab_accounts : accounts (ctx s) = Available incoming outgoing;
  ab_probe : unfulfillable (ctx s) = probe;
  ab_routed : routed incoming p outgoing
}.

Lemma converted_expiresAt outgoing p' :
  converted incoming outgoing p p' -> get_expiresAt p' = get_expiresAt p.
Proof. by intros [[_ ->]|(? & ? & ? & ? & _ & _ & ->)]. Qed.

Lemma rest_spec outgoing i next s s1 p' :
  at_balance outgoing i s -> converted incoming outgoing p p' ->
  ctx s1 = set_prepare p' (ctx s) -> clock s1 = t -> P (net s1) ->
  wp (dispatch outgoing_routes (i + 1) next) (outgoing_post P) s1.
Proof.
  intros Hs Hp' Hc1 Ht1 Hs1.
  apply (outgoing_spec P HP (ctx s1) t); [|rewrite Hc1; simpl..| |done|].
  - intros incoming' outgoing' token endpoint e b Ha Hh He Hb. apply Hforward.
    rewrite Hc1 in Ha, He, Hb. simpl in Ha, He, Hb.
    rewrite (ab_accounts _ _ _ Hs) in Ha. injection Ha as <- <-.
    rewrite (ab_raw _ _ _ Hs) in Hb. rewrite (converted_expiresAt _ _ Hp') in He.
    exists outgoing, p', e. split; [apply (ab_routed _ _ _ Hs)|done].
  - rewrite (ab_index _ _ _ Hs). lia.
  - done.
  - done.
  - rewrite Hc1. simpl. apply (ab_response _ _ _ Hs).
Qed.

(** Settling a transfer of the packet ends the pipeline as it should. *)
Lemma settle_paid outgoing sourceAmount results trx y0 y1 y2 y3 s :
  routed incoming p outgoing ->
  BigInt (get_amount p) = Ret sourceAmount ->
  rates_convertSource
    {| Rates.rc_amount := Rates.SourceAmount sourceAmount;
       Rates.sourceAsset := ca_asset incoming;
       Rates.destinationAsset := ca_asset outgoing |} (ca_tenantId outgoing) y0
  = (Ret (Ok results), y1) ->
  createTransfer accounting
    (packetTransfer incoming outgoing sourceAmount (Rates.cr_amount results)) y2
  = (Ret (Ok trx), y3) ->
  keeps P (post trx) -> keeps P (void trx) ->
  P (net s) -> response_wf (response (ctx s)) ->
  wp (settle trx) pipeline_post s.
Proof.
  intros Hrouted Hamount Hrates Htrx Hpost Hvoid Hs Hr. eapply wp_mono; [by apply settle_spec|].
  intros [u|e] s' [Hp Hsettled]; (split; [done|]); [|done].
  destruct Hsettled as [Hr' Hpaid]. split; [done|]. intros Hf. right.
  destruct (Hpaid Hf) as [e He].
  exists e. by exists outgoing, sourceAmount, results, trx, y0, y1, y2, y3, (net s).
Qed.

Lemma balance_spec outgoing i next s :
  at_balance outgoing i s ->
  wp (createBalanceMiddleware (dispatch outgoing_routes (i + 1) next)) pipeline_post s.
Proof.
  intros Hs. pose proof Hs as [Hi Ht Hp Hr Hprep Hraw Hacc Hprobe Hrouted].
  pose proof (routed_keeps P incoming p outgoing HP Hrouted) as Hout.
  unfold createBalanceMiddleware, pipeline_post.
  do 2 conn_step. rewrite Hprep. case_bool_decide as Hzero.
  { eapply wp_mono; [apply (rest_spec outgoing i next s s p Hs); [by left| |done|done]|].
    - destruct s as [[] l k y]. simpl in *. by subst.
    - intros [u|e] s' [Hp' Hr']; [|done]. split_and!; [done|done|]. intros _. left. by left. }
  do 2 conn_step; [conn_step|by split]. rename a into sourceAmount. rename Heqo into Hamount.
  conn_step. apply (wp_get_incoming _ _ _ _ Hacc). conn_step.
  apply (wp_get_outgoing _ _ _ _ Hacc). do 2 conn_step.
  all: assert (P y) as Hy by (by eapply (keeps_run P); [apply (keep_rates P HP)|exact Hp|exact Hcall]).
  2: by split.
  destruct a as [results|]; [|by conn_auto]. rename Hcall into Hrates. cbv zeta.
  assert (converted incoming outgoing p (set_intAmount (Rates.cr_amount results) p)) as Hconv.
  { right. by exists sourceAmount, results, (net s), y. }
  conn_step. rewrite set_amount_toString. do 5 conn_step. rewrite Hprobe.
  assert (forall s1, ctx s1 = set_prepare (set_intAmount (Rates.cr_amount results) p) (ctx s) ->
    clock s1 = t -> P (net s1) ->
    wp (dispatch outgoing_routes (i + 1) next) (outgoing_post P) s1) as Hrest.
  { intros s1 Hc1 Ht1 Hp1. by eapply rest_spec. }
  destruct probe eqn:Eprobe.
  { eapply wp_mono; [by apply Hrest|]. intros [u|e] s' [Hp' Hr']; [|done].
    split_and!; [done|done|]. intros _. left. right. by left. }
  conn_step. apply wp_ctx_get. cbv beta iota.
  destruct (truthy _); (conn_step; eapply wp_mono; [first [by apply Hrest|by apply createPendingTransfer_spec]|]).
  - intros [u|e] s1 [Hp1 Hr1]; [|by split]. unfold is_fulfilled. do 2 conn_step.
    destruct (is_some (r_fulfill (response (ctx s1)))) eqn:Hf.
    + conn_step. eapply wp_mono; [by apply createPendingTransfer_spec|].
      intros [trx|e] s2 [Hp2 Htrx]; [|by split]. destruct Htrx as (Hc2 & _ & Hpost & Hvoid & Htrx).
      eapply settle_paid; [done..|by rewrite Hc2].
    + conn_step. split_and!; [done|done|]. by rewrite Hf.
  - intros [trx|e] s1 [Hp1 Htrx]; [|by split]. destruct Htrx as (Hc1 & Ht1 & Hpost & Hvoid & Htrx).
    conn_step. eapply wp_mono; [apply Hrest; [by rewrite Hc1|by rewrite Ht1|done]|].
    intros [u|e] s2 [Hp2 Hr2]; [|by split]. by eapply settle_paid.
Qed.

(** ** The incoming part *)

Lemma pipeline_throws e s : P (net s) -> pipeline_post (Throw e) s.
Proof. by split. Qed.

Lemma ildcp_config_spec address next s :
  get_destination p = "peer.config"%string -> prepare (ctx s) = p -> P (net s) ->
  wp (createIldcpMiddleware address next) pipeline_post s.
Proof.
  intros Hd Hp Hs. unfold createIldcpMiddleware, get_incoming, ctx_throw.
  assert (forall b a c z o, keeps P (ildcpServe b a c z o)) as Hk by (intros; apply HP).
  conn_auto; try (by split); zbool; try congruence.
  all: assert (P y) as Hy by (by eapply (keeps_run P); [apply Hk|exact Hs|exact Hcall]).
  2: by split.
  apply wp_on_response. eapply wp_mono; [apply set_rawReply_spec|].
  intros [u|e] x Hx; split; try done. destruct Hx as [Hx _]. split; [done|].
  intros _. left. by do 2 right.
Qed.

(** A request before its accounts are known. *)
Record at_address (i : Z) (s : State) : Prop := {
  aa_index : index (ctx s) < i;
  aa_clock : clock s = t;
  aa_services : P (net s);
  aa_response : response_wf (response (ctx s));
  aa_prepare : prepare (ctx s) = p;
  aa_raw : rawPrepare (ctx s) = raw;
  aa_account : incomingAccount (ctx s) = Some incoming;
  aa_probe : unfulfillable (ctx s) = probe
}.

Definition limit_routes : list (ILPMiddleware N) :=
  createIncomingMaxPacketAmountMiddleware ::
  createIncomingRateLimitMiddleware
    {| rl_refillPeriod := None; rl_refillCount := None; rl_capacity := None |} ::
  createIncomingThroughputMiddleware no_throughput ::
  createIldcpMiddleware (config_ilpAddress config) ::
  createBalanceMiddleware :: outgoing_routes.

Lemma limit_routes_spec outgoing i next s :
  index (ctx s) < i -> at_balance outgoing (index (ctx s)) s ->
  wp (dispatch limit_routes i next) pipeline_post s.
Proof.
  intros Hi [_ Ht Hp Hr Hprep Hraw Hacc Hprobe Hrouted]. unfold limit_routes.
  pose proof pipeline_throws as Hthrow.
  apply wp_dispatch_cons; [done|]. apply (pass_max P); [done|done|].
  intros s1 Hc1 Ht1 Hp1. simpl in Hc1, Ht1. apply wp_dispatch_cons; [rewrite Hc1; simpl; lia|].
  apply (pass_rate P); [done|done|].
  intros s2 Hc2 Ht2 Hp2. simpl in Hc2, Ht2. rewrite Hc1 in Hc2.
  apply wp_dispatch_cons; [rewrite Hc2; simpl; lia|].
  apply (pass_incoming_throughput P); [done|done|].
  intros s3 Hc3 Ht3 Hp3. simpl in Hc3, Ht3. rewrite Hc2 in Hc3.
  apply wp_dispatch_cons; [rewrite Hc3; simpl; lia|].
  destruct (decide (get_destination p = "peer.config"%string)) as [Hd|Hd].
  { apply ildcp_config_spec; [done| |done]. simpl. rewrite Hc3. exact Hprep. }
  apply (pass_ildcp P); [done|done|simpl; rewrite Hc3; simpl; by rewrite Hprep|].
  intros s4 Hc4 Ht4 Hp4. simpl in Hc4, Ht4. rewrite Hc3 in Hc4.
  apply wp_dispatch_cons; [rewrite Hc4; simpl; lia|].
  apply (balance_spec outgoing). constructor; simpl; rewrite ?Hc4; simpl; try done. congruence.
Qed.

Lemma incoming_routes_spec i next s :
  at_address i s ->
  wp (dispatch (createStreamAddressMiddleware :: createAccountMiddleware :: limit_routes) i next)
    pipeline_post s.
Proof.
  intros [Hi Ht Hp Hr Hprep Hraw Hacc Hprobe]. pose proof pipeline_throws as Hthrow.
  apply wp_dispatch_cons; [done|]. apply (pass_stream_address P); [done|done|done|].
  intros server destination s1 Hc1 Ht1 Hp1. simpl in Hc1, Ht1.
  apply wp_dispatch_cons; [rewrite Hc1; simpl; lia|]. apply (pass_account P); [done|done|done|].
  intros incoming' outgoing Hi1 Hrouted s2 Hc2 Ht2 Hp2. simpl in Hc2, Ht2, Hi1, Hrouted.
  rewrite Hc1 in Hc2, Hi1, Hrouted. simpl in Hi1, Hrouted. rewrite Hprep in Hrouted. rewrite Hacc in Hi1. injection Hi1 as <-.
  apply (limit_routes_spec outgoing); [rewrite Hc2; simpl; lia|].
  constructor; rewrite ?Hc2; simpl; try done. congruence.
Qed.

(** ** The error handler and the timer *)

Lemma revert_total_spec s :
  P (net s) -> wp revert_total (fun _ s' => P (net s')) s.
Proof.
  intros Hs. unfold revert_total. conn_auto; try done.
  all: by eapply (keeps_run P); [apply (keep_decr P HP)|exact Hs|exact Hcall].
Qed.

Lemma handler_spec address next s :
  wp next pipeline_post s -> wp (createIncomingErrorHandlerMiddleware address next) pipeline_post s.
Proof.
  intros Hnext. unfold createIncomingErrorHandlerMiddleware.
  assert (forall e s1, P (net s1) -> wp
    (revert_total ;;! on_response (set_reject (Some (errorToIlpReject address
       (if isIlpError e then IlpError e else InternalError "unexpected internal error")))))
    pipeline_post s1) as Hcatch.
  { intros e s1 Hp1. conn_step. eapply wp_mono; [by apply revert_total_spec|].
    intros [u|e'] s2 Hp2; [|by split]. apply wp_on_response.
    eapply wp_mono; [apply (set_reply_spec (ReplyReject _))|].
    intros [u'|e'] x Hx; (split; [done|]); [|done]. destruct Hx as [Hx Hrep].
    split; [done|]. simpl. unfold reply in Hrep. by destruct (r_fulfill x). }
  do 2 conn_step. eapply wp_mono; [exact Hnext|].
  intros [u|e] s1 [Hp1 Hr1]; [|by apply Hcatch]. do 2 conn_step.
  destruct (rawReply (response (ctx s1))) as [b|]; conn_step; [by split|by apply Hcatch].
Qed.

Lemma read_operation_spec s : wp read_operation (fun _ s' => s' = s) s.
Proof. unfold read_operation, get_incoming, get_outgoing. by conn_auto. Qed.

Lemma timing_spec next s :
  wp next pipeline_post s -> wp (createIlpTimingMiddleware next) pipeline_post s.
Proof.
  intros Hnext. unfold createIlpTimingMiddleware. destruct (enableIlpTiming config); [|done].
  simpl. apply wp_finally. eapply wp_mono; [exact Hnext|]. intros r s1 Hr1.
  eapply wp_mono; [apply read_operation_spec|]. intros [u|e] s2 ->; [done|].
  split; [apply Hr1|done].
Qed.

Lemma run_routes_spec next s : at_address 0 s -> wp (run_routes next) pipeline_post s.
Proof.
  intros [Hi Ht Hp Hr Hprep Hraw Hacc Hprobe]. unfold run_routes, routes.
  apply wp_dispatch_cons; [done|]. apply timing_spec.
  apply wp_dispatch_cons; [simpl; lia|]. apply handler_spec.
  apply incoming_routes_spec. by constructor.
Qed.
End Balance.

(** ** A packet of a local sender *)

Section Handle.
Context `{!IlpPacketLaws}.

(** A request as an entry point makes it. *)
Record at_entry (incoming : Account) (p : ZeroCopyIlpPrepare) (raw : Buffer) (probe : bool)
    (c : ILPContext N) : Prop := {
  ae_index : index c = -1;
  ae_response : response c = new_response;
  ae_prepare : prepare c = p;
  ae_raw : rawPrepare c = raw;
  ae_account : incomingAccount c = Some incoming;
  ae_probe : unfulfillable c = probe
}.

(** The answer of the pipeline: [P] is kept, and a fulfilled packet is paid. *)
Definition answer_post (P : N -> Prop) (incoming : Account) (p : ZeroCopyIlpPrepare) (probe : bool)
    (r : outcome Buffer) (n : Node) : Prop :=
  P (node_net n) /\
  forall b f, r = Ret b -> deserializeIlpReply b = Ret (ReplyFulfill f) ->
    unpaid p probe \/ paid incoming p (node_net n).

Lemma respond_spec (P : N -> Prop) incoming p raw probe c no_reply n :
  services_keep P -> account_keeps P (ca_account incoming) -> P (node_net n) ->
  (forall endpoint b token,
     forwardable incoming p raw (node_clock n) endpoint b token -> keeps P (axios_post endpoint b token)) ->
  at_entry incoming p raw probe c ->
  wp (respond c no_reply) (answer_post P incoming p probe) n.
Proof.
  intros HP Hin Hn Hforward [Hi Hc Hp Hraw Ha Hprobe]. unfold wp, respond, answer_post.
  destruct (run_routes _ _) as [r0 s] eqn:Hrun.
  assert (pipeline_post P incoming p probe r0 s) as [Hs Hr].
  { eapply wp_run; [|exact Hrun].
    apply (run_routes_spec P HP incoming p raw (node_clock n) probe Hin Hforward).
    constructor; simpl; [by rewrite Hi|done..|by rewrite Hc|done|done|done|done]. }
  destruct r0 as [u|e]; [|by split].
  destruct Hr as [Hwf Hpaid]. pose proof (response_wf_reply _ Hwf) as Hrep.
  destruct (rawReply (response (ctx s))) as [b|]; (split; [done|]); [|done].
  intros b' f [= <-] Hb. apply Hpaid. unfold reply in Hrep. rewrite Hb in Hrep.
  destruct (r_fulfill (response (ctx s))); [done|].
  by destruct (r_reject (response (ctx s))).
Qed.

Lemma handle_spec (P : N -> Prop) incoming probe raw n :
  services_keep P -> account_keeps P (ca_account incoming) -> P (node_net n) ->
  (forall p, zeroCopyOf raw = Ret p -> forall endpoint b token,
     forwardable incoming p raw (node_clock n) endpoint b token -> keeps P (axios_post endpoint b token)) ->
  forall r n', handleIlpData incoming probe raw n = (r, n') ->
  P (node_net n') /\
  forall b f, r = Ret b -> deserializeIlpReply b = Ret (ReplyFulfill f) ->
    exists p, zeroCopyOf raw = Ret p /\ (unpaid p probe \/ paid incoming p (node_net n')).
Proof.
  intros HP Hin Hn Hforward r n'. unfold handleIlpData, bind, of_outcome.
  destruct (zeroCopyOf raw) as [p|e] eqn:Hraw; [|intros [= <- <-]; by split].
  simpl. intros Hrun.
  assert (answer_post P incoming p probe r n') as [Hp Hpaid].
  { eapply wp_run; [|exact Hrun]. eapply respond_spec; [done..|by apply Hforward|done]. }
  split; [done|]. intros b f Hb Hf. exists p. split; [done|]. by eapply Hpaid.
Qed.

(** C7. A fulfilled packet is paid.  If [handleIlpData] answers a packet with a fulfill,
    then a transfer from the sender's account of exactly the amount of the packet, to the
    account it was routed to of exactly that amount at the rate of the rates service, was
    created, and posting it is the last thing the connector asked of its services.  Whether
    posting succeeded is not looked at (see [fulfilled_and_unpaid]).  The packets that move
    no money are the ones without an amount, the unfulfillable ones of
    rate probes and the configuration requests of a peer. *)
Theorem fulfilled_is_paid incoming probe raw n b n' f :
  handleIlpData incoming probe raw n = (Ret b, n') ->
  deserializeIlpReply b = Ret (ReplyFulfill f) ->
  exists p, zeroCopyOf raw = Ret p /\ (unpaid p probe \/ paid incoming p (node_net n')).
Proof.
  intros Hh Hb.
  destruct (handle_spec (fun _ => True) incoming probe raw n services_keep_True (account_keeps_True _) Logic.I
    ltac:(done) _ _ Hh) as [_ Hpaid]. by eapply Hpaid.
Qed.

(** C8. Only allowed packets are forwarded.  Let [P] hold of the services and be kept by
    all of them, and by sending, to the endpoint of an account and with its token, the
    packet as it came in, with its amount at the rate of the rates service (or as it is,
    when it is zero) and with an expiry one second earlier, at most half a minute and at
    least a second from now, written into its bytes.  Then handling a packet keeps [P]:
    nothing else is ever sent, to nobody else, whatever the peers answer and however the
    pipeline ends. *)
Theorem forwards_only_allowed (P : N -> Prop) incoming probe raw n :
  services_keep P -> account_keeps P (ca_account incoming) -> P (node_net n) ->
  (forall p, zeroCopyOf raw = Ret p -> forall endpoint b token,
     forwardable incoming p raw (node_clock n) endpoint b token -> keeps P (axios_post endpoint b token)) ->
  P (node_net (handleIlpData incoming probe raw n).2).
Proof.
  intros HP Hin Hn Hforward. destruct (handleIlpData incoming probe raw n) as [r n'] eqn:Hh.
  by destruct (handle_spec P incoming probe raw n HP Hin Hn Hforward r n' Hh).
Qed.

(** What the lookup of a peer promises to the connector: a peer of the tenant, and not the
    one the packet came from. *)
Class PeerLookup : Prop := {
  lookup_other : forall address tenantId id y a y',
    getByDestinationAddress address tenantId id y = (Ret (Some a), y') ->
    (tenantId <> ""%string -> ca_tenantId a = tenantId) /\ (id <> ""%string -> ca_id a <> id)
}.

(** Incoming payments and wallet addresses have no endpoint. *)
Definition receivers_are_local : Prop :=
  (forall i, ca_http (payment_account i) = None) /\ (forall w, ca_http (wallet_account w) = None).

Lemma routed_to_peer `{!PeerLookup} (incoming : Account) p (outgoing : Account) h :
  receivers_are_local -> ca_tenantId incoming <> ""%string -> ca_id incoming <> ""%string ->
  routed incoming p outgoing -> ca_http outgoing = Some h ->
  ca_tenantId outgoing = ca_tenantId incoming /\ ca_id outgoing <> ca_id incoming.
Proof.
  intros [Hpayments Hwallets] Ht Hid (s & s' & _ & Hrun).
  refine (wp_run _ (fun r _ => match r with
    | Ret (Some a) => ca_http a = Some h ->
        ca_tenantId a = ca_tenantId incoming /\ ca_id a <> ca_id incoming
    | _ => True end) _ _ _ _ Hrun).
  unfold getAccountByDestinationAddress, throw_ilp.
  repeat first [apply wp_ensure; intros [u|e] x | conn_step]; try done.
  all: try (rewrite ?Hpayments, ?Hwallets; done).
  all: match goal with |- match ?a with _ => _ end => destruct a end; try done.
  all: intros _; match goal with Hl : getByDestinationAddress _ _ _ _ = _ |- _ =>
         destruct (lookup_other _ _ _ _ _ _ Hl) end; auto.
Qed.

(** A packet is forwarded within its tenant and never back.  With a lookup of peers
    that keeps what it promises ([PeerLookup], which [ConnectorPeers] proves of the peers of
    the backend), handling a packet keeps every property of the services that sending to
    the endpoint of an account of the sender's tenant, other than the sender, keeps. *)
Theorem forwards_to_other_peers `{!PeerLookup} (P : N -> Prop) (incoming : Account) probe raw n :
  receivers_are_local -> ca_tenantId incoming <> ""%string -> ca_id incoming <> ""%string ->
  services_keep P -> account_keeps P (ca_account incoming) -> P (node_net n) ->
  (forall (outgoing : Account) token endpoint b,
     ca_http outgoing = Some (token, endpoint) ->
     ca_tenantId outgoing = ca_tenantId incoming -> ca_id outgoing <> ca_id incoming ->
     keeps P (axios_post endpoint b token)) ->
  P (node_net (handleIlpData incoming probe raw n).2).
Proof.
  intros Hlocal Ht Hid HP Hin Hn Hsend.
  destruct (handleIlpData incoming probe raw n) as [r n'] eqn:Hh.
  refine (proj1 (handle_spec P incoming probe raw n HP Hin Hn _ r n' Hh)).
  intros p _ endpoint b token (outgoing & p' & e & Hrouted & Hhttp & _).
  destruct (routed_to_peer incoming p outgoing _ Hlocal Ht Hid Hrouted Hhttp). by eapply Hsend.
Qed.

(** C9. Packets over HTTP are charged to the peer whose token came with them.  A request
    over HTTP is answered only if its Authorization header is a bearer token that
    [peers.getByIncomingToken] knows; any other request leaves everything as it was, but
    for the lookup of its token.  If a packet it carries is answered with a fulfill, then
    the packet has no amount or asks for the peer's configuration, or else a transfer from
    the account of that very peer, of exactly the amount of the packet, to the account it
    was routed to, of exactly that amount at the rate of the rates service, was created
    and posting it was the last thing asked of the services.  What posting returned,
    [refused], is any: the connector does not look at it, and a transfer that expired
    before the fulfill came back is not posted (see [fulfilled_and_unpaid]). *)
Theorem peer_is_charged (getByIncomingToken : string -> M N (option Account)) request n r n' :
  publicServer getByIncomingToken request n = (r, n') ->
  match getBearerToken (authorization request) with
  | None => (exists e, r = Throw e) /\ n' = n
  | Some token =>
      token = ""%string /\ (exists e, r = Throw e) /\ n' = n \/
      exists o y, getByIncomingToken token (node_net n) = (o, y) /\
      match o with
      | Ret (Some peer) =>
          forall b f, r = Ret b -> deserializeIlpReply b = Ret (ReplyFulfill f) ->
          exists p, zeroCopyOf (rawBody request) = Ret p /\
            (get_amount p = "0"%string \/ get_destination p = "peer.config"%string \/
             exists refused, charged peer p refused (node_net n'))
      | _ => (exists e, r = Throw e) /\
             n' = {| node_limits := node_limits n; node_clock := node_clock n; node_net := y |}
      end
  end.
Proof.
  intros Hrun. unfold publicServer, createTokenAuthMiddleware, http_assert in Hrun.
  destruct (getBearerToken _) as [token|]; [|injection Hrun as <- <-; eauto].
  destruct (truthy token) eqn:Htoken.
  - right. unfold bind at 1 2 3, ret at 1, on_net in Hrun.
    destruct (getByIncomingToken token (node_net n)) as [o y]. exists o, y. split; [done|].
    destruct o as [[peer|]|e]; [|injection Hrun as <- <-; eauto..].
    intros b f -> Hf. unfold createIlpPacketMiddleware in Hrun. simpl in Hrun.
    unfold bind at 1, http_assert in Hrun. case_bool_decide; [|done]. simpl in Hrun.
    unfold bind, of_outcome in Hrun.
    destruct (zeroCopyOf (rawBody request)) as [p|e] eqn:Hraw; [|done]. simpl in Hrun.
    exists p. split; [done|].
    assert (answer_post (fun _ => True) peer p false (Ret b) n') as [_ Hpaid].
    { eapply wp_run; [|exact Hrun].
      by apply respond_spec with (raw := rawBody request); [apply services_keep_True|..]. }
    destruct (Hpaid b f eq_refl Hf) as [[Hz|[Hz|Hz]]|Hc]; [by left|done|by right; left|].
    right. by right.
  - left. injection Hrun as <- <-. destruct token; [eauto|done].
Qed.
End Handle.

(** ** The pipeline always answers *)

Section Replies.
Definition answered (r : outcome unit) (s : State) : Prop :=
  r = Ret tt /\ is_some (rawReply (response (ctx s))) = true.

(** What the error handler itself may throw: the error of Redis, when the total received
    of a connection is taken back, or that of writing its reject. *)
Definition handler_throws (e : exn) : Prop :=
  (exists key amount y y', redis_decrby key amount y = (Throw e, y')) \/
  (exists err, serializeIlpReject (errorToIlpReject (config_ilpAddress config) err) = Throw e).

Definition answered_or_thrown (r : outcome unit) (s : State) : Prop :=
  match r with Ret _ => answered r s | Throw e => handler_throws e end.

Lemma handler_answers next s :
  wp (createIncomingErrorHandlerMiddleware (config_ilpAddress config) next) answered_or_thrown s.
Proof.
  unfold createIncomingErrorHandlerMiddleware. set (address := config_ilpAddress config).
  assert (forall e s1, wp
    (revert_total ;;! on_response (set_reject (Some (errorToIlpReject address e))))
    answered_or_thrown s1) as Hcatch.
  { intros e s1. conn_step. unfold revert_total.
    assert (forall s2, wp (on_response (set_reject (Some (errorToIlpReject address e))))
              answered_or_thrown s2) as Hset.
    { intros s2. apply wp_on_response. simpl. do 2 conn_step. apply wp_bind.
      destruct (serializeIlpReject _) as [b|err] eqn:Hb; [by conn_auto|]. right. eauto. }
    do 2 conn_step. destruct (revertTotalReceived (ctx s1)) as [key|]; [|conn_step; apply Hset].
    do 2 conn_step. apply wp_service. intros [u|err] y Hy; [apply Hset|]. left. eauto. }
  do 2 conn_step. apply wp_call. intros [u|e] s1 _; [|by apply Hcatch].
  do 2 conn_step. destruct (rawReply (response (ctx s1))) as [b|] eqn:Hb; conn_step; [|by apply Hcatch].
  split; [done|]. by rewrite Hb.
Qed.

(** What the timing of packets throws, if the accounts of the packet are not known. *)
Definition timing_throws (e : exn) : Prop :=
  enableIlpTiming config = true /\ e = JsError "Error" "incoming account not available".

(** What the operation's name is read from may not be there. *)
Lemma read_operation_throws s :
  wp read_operation (fun r s' => s' = s /\
    (r = Ret tt \/ r = Throw (JsError "Error" "incoming account not available"))) s.
Proof.
  unfold wp, read_operation, get_incoming, get_outgoing, bind, ctx_get, gets.
  destruct (accounts (ctx s)) eqn:E; simpl; rewrite ?E; simpl; rewrite ?E; auto.
Qed.

(** C35. The connector answers, and when it does not it is known why.  Whatever the
    middlewares and the services do and throw, a packet that can be read is answered, with
    a fulfill or a reject, because the error handler turns every error into a reject, but
    for what is thrown outside of the handler's [try]: Redis failing while the handler
    takes back the total received of a connection, the handler's reject failing to be
    written, and, when the timing of packets is enabled, reading the accounts of a packet
    that failed before they were known.  The caller is then thrown exactly that error. *)
Theorem connector_replies incoming probe raw n p r n' :
  zeroCopyOf raw = Ret p ->
  handleIlpData incoming probe raw n = (r, n') ->
  match r with
  | Ret _ => True
  | Throw e => handler_throws e \/ timing_throws e
  end.
Proof.
  intros Hraw. unfold handleIlpData, bind, of_outcome. rewrite Hraw. unfold ret at 1, respond.
  destruct (run_routes _ _) as [r0 s] eqn:Hrun.
  assert (match r0 with Ret _ => answered r0 s | Throw e => handler_throws e \/ timing_throws e end)
    as Hr.
  { refine (wp_run _ (fun r s => match r with
      | Ret _ => answered r s | Throw e => handler_throws e \/ timing_throws e end) _ _ _ _ Hrun).
    unfold run_routes, routes. apply wp_dispatch_cons; [done|]. unfold createIlpTimingMiddleware.
    assert (forall rest s1, index (ctx s1) < 0 + 1 -> wp (dispatch
      (createIncomingErrorHandlerMiddleware (config_ilpAddress config) :: rest) (0 + 1) (ret tt))
      answered_or_thrown s1) as Hh.
    { intros rest s1 Hi. apply wp_dispatch_cons; [done|]. apply handler_answers. }
    destruct (enableIlpTiming config) eqn:Etiming; cbn [negb].
    - apply wp_finally. eapply wp_mono; [by apply Hh|]. intros r1 s1 Hr1.
      eapply wp_mono; [apply read_operation_throws|].
      intros r2 s2 [-> [-> | ->]]; cbv beta iota; [destruct r1; [done|by left]|right; by split].
    - eapply wp_mono; [by apply Hh|]. intros [u|e] s1 H1; [done|by left]. }
  destruct r0 as [u|e]; [|by intros [= <- <-]]. destruct Hr as [_ Hb].
  destruct (rawReply _) as [b|] eqn:E; [|done]. by intros [= <- <-].
Qed.
End Replies.
End Specs.
