(* ===== verification/ConnectorExamples.v ===== *)
(** * ConnectorExamples: packets through a concrete connector

    A small packet format, the Postgres ledger as the accounting service, and a peer that
    logs what it is sent and fulfills it: witnesses of the theorems of [ConnectorSpecs], and
    the behaviours that modelling the pipeline showed. *)

From Stdlib Require Import Strings.Byte.
From S2P Require Import Prelude Shared JsNumber OpenPayments Service Accounting.
From S2P Require Import PsqlLedger PsqlAccounting IlpPacket Connector ConnectorSpecs.
From S2P Require Text IncomingPayment Rates.
Import Text (bigint_toString).

Local Open Scope Z_scope.
Local Open Scope ts_scope.

(** ** The Postgres ledger under the connector *)

Section Ledger.
Context {E : Type} `{Uuid}.

(** A healthy ledger, and whatever holds of the rest of the state. *)
Definition ledger_ok (Q : E -> Prop) (w : World E) : Prop := Healthy w /\ Q (ext w).

Lemma ledger_ok_framed (Q : E -> Prop) (w w' : World E) :
  ledger_ok Q w -> framed w w' -> Healthy w' -> ledger_ok Q w'.
Proof. intros [_ HQ] [_ _ _ He] Hw'. split; [done|]. by rewrite He. Qed.

Lemma psql_createTransfer_keeps Q delay (o : TransferOptions (World E)) :
  keeps (ledger_ok Q) (createTransfer delay o).
Proof.
  intros w Hw. pose proof (createTransfer_spec delay o w (proj1 Hw)) as Hs.
  destruct (createTransfer delay o w) as [r w']. destruct Hs as (Hf & Hh & _).
  by eapply ledger_ok_framed.
Qed.

Lemma psql_update_keeps Q refs st :
  st = POSTED \/ st = VOIDED -> keeps (ledger_ok Q) (updateTransferState (E := E) refs st).
Proof.
  intros Hst w Hw. destruct (updateTransferState_keeps st refs w Hst (proj1 Hw)) as [Hf Hh].
  by eapply ledger_ok_framed.
Qed.

Lemma psql_read_keeps Q ref :
  keeps (ledger_ok Q) (getLiquidityAccountBalance (E := E) ref) /\
  keeps (ledger_ok Q) (getAccountTotalReceived (E := E) ref).
Proof.
  unfold getLiquidityAccountBalance, getAccountTotalReceived, getLiquidityAccount, getAccountBalances.
  split; keeps_auto.
Qed.

(** What a transaction does when it is posted: callbacks of its accounts included. *)
Lemma psql_post_keeps Q delay (o : TransferOptions (World E)) w trx w' :
  account_keeps (ledger_ok Q) (sourceAccount o) ->
  account_keeps (ledger_ok Q) (destinationAccount o) ->
  ledger_ok Q w -> createTransfer delay o w = (Ret (Ok trx), w') ->
  keeps (ledger_ok Q) (post trx).
Proof.
  intros [Hs _ _] [_ Hc Hd] Hw Hrun. pose proof (createTransfer_spec delay o w (proj1 Hw)) as Hspec.
  rewrite Hrun in Hspec. destruct Hspec as (_ & _ & ts & rs & rows & _ & _ & _ & _ & _ & _ & ->).
  unfold postTransaction, runOnDebit, runOnCredit. keeps_auto.
  all: first [by apply psql_update_keeps; left|by apply psql_read_keeps|eauto].
Qed.

Lemma psql_void_keeps Q delay (o : TransferOptions (World E)) w trx w' :
  ledger_ok Q w -> createTransfer delay o w = (Ret (Ok trx), w') -> keeps (ledger_ok Q) (void trx).
Proof.
  intros Hw Hrun. pose proof (createTransfer_spec delay o w (proj1 Hw)) as Hspec.
  rewrite Hrun in Hspec. destruct Hspec as (_ & _ & ts & rs & rows & _ & _ & _ & _ & _ & -> & _).
  apply psql_update_keeps. by right.
Qed.

Lemma psql_createLiquidityAccount_keeps Q (a : LiquidityAccount (World E)) ty :
  keeps (ledger_ok Q) (createLiquidityAccount a ty).
Proof.
  intros w [Hw HQ]. split; [by apply createLiquidityAccount_keeps|].
  assert (keeps (fun w' => ext w' = ext w) (createLiquidityAccount a ty)) as Hk.
  { unfold createLiquidityAccount, createAccount, uuid. keeps_auto; apply keeps_modify; by intros []. }
  by rewrite (Hk w eq_refl).
Qed.
End Ledger.

(** ** A connector with one sender and one peer *)

Module Example.
Export ConcreteUuid.

Definition code_of (r : IlpReject) : option string :=
  match triggeredBy r, reject_message r, reject_data r with
  | EmptyString, EmptyString, [] => Some (reject_code r)
  | _, _, _ => None
  end.
Definition reject_of (code : string) : IlpReject :=
  {| reject_code := code; triggeredBy := ""; reject_message := ""; reject_data := [] |}.

(** [YYYYMMDDhhmmssmmm] as milliseconds since 1970. *)
Definition digits_at (b : Buffer) (start length : nat) : Z :=
  value_of 10 ((fun d => byte_val d - 48) <$> take length (drop start b)).
Definition date_of (b : Buffer) : Z :=
  let y := digits_at b 0 4 in
  let m := digits_at b 4 2 in
  let y := if m <=? 2 then y - 1 else y in
  let yearOfEra := y mod 400 in
  let dayOfYear := (153 * (if m <=? 2 then m + 9 else m - 3) + 2) / 5 + digits_at b 6 2 - 1 in
  let days := y / 400 * 146097 + (yearOfEra * 365 + yearOfEra / 4 - yearOfEra / 100 + dayOfYear)
              - 719468 in
  days * 86400000 + digits_at b 8 2 * 3600000 + digits_at b 10 2 * 60000
    + digits_at b 12 2 * 1000 + digits_at b 14 3.

Definition parse_error {A} : outcome A := Throw (JsError "ParseError" "").

(** A type, a length, an amount, an expiry, a condition of one byte and an address. *)
Definition parse_prepare (b : Buffer) : outcome IlpPrepare :=
  match b, drop 27 b with
  | x0c :: _, condition :: address =>
      Ret {| ip_amount := bigint_toString (be_value (take 8 (drop 2 b)));
             ip_destination := String.string_of_list_byte address;
             ip_executionCondition := [condition];
             ip_expiresAt := date_of (drop 10 b); ip_data := [] |}
  | _, _ => parse_error
  end.
Definition parse_reply (b : Buffer) : outcome IlpReply :=
  match b with
  | x0d :: f => Ret (ReplyFulfill {| fulfillment := f; fulfill_data := [] |})
  | x0e :: r => Ret (ReplyReject (reject_of (String.string_of_list_byte r)))
  | _ => parse_error
  end.

#[export] Instance packets : IlpPacketLib := {
  deserializeIlpPrepare := parse_prepare;
  serializeIlpFulfill f :=
    match fulfill_data f with [] => Ret (x0d :: fulfillment f) | _ => parse_error end;
  serializeIlpReject r :=
    match code_of r with
    | Some code => Ret (x0e :: String.list_byte_of_string code)
    | None => parse_error
    end;
  deserializeIlpFulfill b :=
    match parse_reply b with
    | Ret (ReplyFulfill f) => Ret f | Ret _ => parse_error | Throw e => Throw e
    end;
  deserializeIlpReject b :=
    match parse_reply b with
    | Ret (ReplyReject r) => Ret r | Ret _ => parse_error | Throw e => Throw e
    end;
  deserializeIlpReply := parse_reply;
  isIlpError e := match e with JsError name _ => negb (bool_decide (name = "Error"%string)) | _ => false end;
  errorToIlpReject _ e := reject_of (match e with IlpError _ => "F00" | InternalError _ => "T00" end)
}.

#[export] Instance packets_laws : IlpPacketLaws.
Proof.
  split.
  - intros [f [|d ds]] raw; simpl; [by intros [= <-]|done].
  - intros [c [] [] []] bytes; simpl; try done. intros [= <-]. simpl.
    by rewrite String.string_of_list_byte_of_string.
  - intros raw f. simpl. by destruct (parse_reply raw) as [[]|]; intros [= ->].
  - intros raw j. simpl. by destruct (parse_reply raw) as [[]|]; intros [= ->].
Qed.

(** What was sent: the endpoint, the packet, the token. *)
Definition Sent : Type := list (string * Buffer * string).
Definition W : Type := World Sent.

Definition usd : LiquidityAccountAsset W :=
  {| asset_id := "usd"; asset_code := Some "USD"%string; asset_scale := Some 2;
     asset_ledger := 1; asset_onDebit := None |}.
Definition account (id : string) (http : option (string * string)) : ConnectorAccount W :=
  {| ca_account := {| account_id := id; account_asset := usd;
                      account_onCredit := None; account_onDebit := None |};
     ca_assetCode := "USD"; ca_assetScale := 2; ca_tenantId := "tenant";
     ca_maxPacketAmount := None; ca_staticIlpAddress := None; ca_http := http |}.
Definition alice : ConnectorAccount W := account "alice" None.
Definition bob : ConnectorAccount W := account "bob" (Some ("secret", "https://bob/ilp")%string).

Definition settings (timing : bool) : ConnectorConfig :=
  {| operatorTenantId := "tenant"; config_ilpAddress := "test.node"; enableIlpTiming := timing;
     tigerBeetleTwoPhaseTimeout := 5 |}.

(** Two in a hundred are kept; the peer fulfills everything, after [delay] milliseconds. *)
Definition services_with (timing : bool) (delay : Z) : ConnectorServices W unit := {|
  config := settings timing;
  payment_account _ := account "invoice" None;
  payment_state _ := IncomingPayment.Pending;
  incomingPayments_get _ := ret None;
  wallet_account _ := account "wallet" None;
  walletAddresses_get _ := ret None;
  getByDestinationAddress address tenantId id :=
    ret (if String.prefix "test.bob" address && bool_decide (tenantId = "tenant"%string)
            && negb (bool_decide (id = "bob"%string)) then Some bob else None);
  accounting := createAccountingService None;
  rates_convertSource opts _ :=
    match Rates.rc_amount opts with
    | Rates.SourceAmount a => ret (Ok {| Rates.cr_amount := a * 98 / 100;
                                         Rates.scaledExchangeRate := of_bigint 1 |})
    | _ => ret (Err Rates.InvalidDestinationPrice)
    end;
  ilpAddress_get _ := ret [];
  decodePaymentTag _ _ := None;
  createReply _ _ := Ret (Reply (ReplyReject (reject_of "F00")));
  redis_incrby_expire _ _ _ := ret None;
  redis_decrby _ _ := ret tt;
  ildcpServe _ _ _ _ _ := ret [];
  sha256 b := b;
  axios_post endpoint b token :=
    modify (fun w => set_now (now w + delay) (set_ext (ext w ++ [(endpoint, b, token)]) w)) ;;! ret [x0d; x2a];
  skip := IlpPacket.Example.skip;
  readLengthPrefix := IlpPacket.Example.readLengthPrefix;
  late _ _ := false
|}.

(** Alice has 100, Bob an empty account. *)
Definition empty : W := mkWorld [] [] [{| ar_id := "usd"; ar_ledger := 1 |}] 0 0 [].
Definition opened : W :=
  let account id := {| account_id := id; account_asset := usd;
                       account_onCredit := None; account_onDebit := None |} in
  let w := (createLiquidityAndLinkedSettlementAccount (account "usd") ASSET empty).2 in
  let w := (createLiquidityAccount (account "alice") OUTGOING w).2 in
  let w := (createLiquidityAccount (account "bob") PEER w).2 in
  (createAccountDeposit {| deposit_id := "id-a"; deposit_account := account "alice";
                           deposit_amount := 100 |} w).2.

Lemma opened_reachable : reachable opened.
Proof.
  exists empty. split; [done|].
  eapply rtc_l; [apply step_linked|]. eapply rtc_l; [apply step_account|].
  eapply rtc_l; [apply step_account|]. eapply rtc_l; [apply step_deposit|]. apply rtc_refl.
Qed.

(** 2020-01-01, and packets that expire ten seconds later. *)
Definition now2020 : Z := 1577836800000.
Definition packet_to (amount : Z) (expiry address : string) : Buffer :=
  [x0c; x1d] ++ amount_bytes amount ++ ascii_bytes expiry ++ [x2a] ++ ascii_bytes address.
Definition packet : Buffer := packet_to 50 "20200101000010000" "test.bob.carol".
Definition node : Node (N := W) :=
  {| node_limits := {| rateBuckets := ∅; incomingBuckets := ∅; outgoingBuckets := ∅ |};
     node_clock := now2020; node_net := opened |}.
#[export] Instance services : ConnectorServices W unit := services_with false 0.

Definition handled : outcome Buffer * Node := handleIlpData (I := unit) alice false packet node.

(** A sender of nowhere: with the timing of packets, nothing is answered. *)
Definition lost : outcome Buffer * Node :=
  handleIlpData (I := unit) (ConnectorServices0 := services_with true 0) alice false
    (packet_to 50 "20200101000010000" "test.nowhere") node.
Lemma reject_lost : lost.1 = Throw (JsError "Error" "incoming account not available").
Proof. by vm_compute. Qed.
(** Without it the sender is told. *)
Lemma reject_kept :
  (handleIlpData (I := unit) alice false (packet_to 50 "20200101000010000" "test.nowhere") node).1
  = Ret (x0e :: String.list_byte_of_string "F00").
Proof. by vm_compute. Qed.

(** A packet of one: its amount after the conversion is zero, which is not written, and
    the ledger refuses the transfer. *)
Lemma one_rejected :
  (handleIlpData (I := unit) alice false (packet_to 1 "20200101000010000" "test.bob.carol") node).1
  = Ret (x0e :: String.list_byte_of_string "F00").
Proof. by vm_compute. Qed.

(** The transfer of a packet expires after five seconds, the packet after up to thirty.
    Six seconds later posting the transfer fails, which is not looked at: the sender has
    the fulfillment, and nobody was paid. *)
Definition late_fulfill : outcome Buffer * Node :=
  handleIlpData (I := unit) (ConnectorServices0 := services_with false 6000) alice false packet node.
Lemma fulfilled_and_unpaid :
  late_fulfill.1 = Ret [x0d; x2a] /\
  (getLiquidityAccountBalance "alice" (node_net late_fulfill.2)).1 = Ret (Some 100) /\
  (getLiquidityAccountBalance "bob" (node_net late_fulfill.2)).1 = Ret (Some 0).
Proof. by vm_compute. Qed.

(** The same packet, as a peer's request. *)
Definition getByIncomingToken (token : string) : M W (option (ConnectorAccount W)) :=
  ret (if bool_decide (token = "of-alice"%string) then Some alice else None).
Definition request (authorization : string) : HttpRequest :=
  {| authorization := Some authorization; contentType := "application/octet-stream";
     rawBody := packet |}.
Definition served : outcome Buffer * Node :=
  publicServer (I := unit) getByIncomingToken (request "bEARER of-alice") node.
Lemma stranger_refused :
  (publicServer (I := unit) getByIncomingToken (request "Bearer of-bob") node).1
  = Throw (http_error 401 "Access Denied - Invalid Token").
Proof. by vm_compute. Qed.

(** Only Bob is ever sent anything, with his token. *)
Definition to_bob (entry : string * Buffer * string) : Prop :=
  entry.1.1 = "https://bob/ilp"%string /\ entry.2 = "secret"%string.
Definition only_bob : W -> Prop := ledger_ok (Forall to_bob).

Lemma no_callbacks (P : W -> Prop) (a : ConnectorAccount W) :
  (exists id http, a = account id http) -> account_keeps P (ca_account a).
Proof. by intros (id & http & ->). Qed.

Lemma services_keep_ledger Q : services_keep (I := unit) (ledger_ok Q).
Proof.
  assert (forall A (a : A), keeps (ledger_ok Q) (ret a)) as Hret by (intros; keeps_auto).
  constructor.
  - intros i. apply no_callbacks. by eexists _, _.
  - intros w. apply no_callbacks. by eexists _, _.
  - intros address tenant id y a y' Ha. apply no_callbacks. simpl in Ha.
    unfold ret in Ha. destruct (_ && _); simplify_eq. by eexists _, _.
  - intros id. apply Hret.
  - intros id. apply Hret.
  - intros address tenant id. apply Hret.
  - intros a ty. apply psql_createLiquidityAccount_keeps.
  - intros o. apply psql_createTransfer_keeps.
  - intros o y trx y'. apply psql_post_keeps.
  - intros o y trx y'. apply psql_void_keeps.
  - intros o t. simpl. destruct (Rates.rc_amount o); apply Hret.
  - intros t. apply Hret.
  - intros b address c z o. apply Hret.
  - intros k v t. apply Hret.
  - intros k v. apply Hret.
Qed.

(** Who has an endpoint, is Bob. *)
Lemma routed_to_bob p outgoing token endpoint :
  routed (I := unit) alice p outgoing -> ca_http outgoing = Some (token, endpoint) -> outgoing = bob.
Proof.
  intros (s & s' & _ & Hrun) Hhttp. unfold getAccountByDestinationAddress in Hrun.
  unfold bind, ctx_get, gets, call, ret in Hrun. simpl in Hrun.
  destruct (streamDestination (ctx s)); simpl in Hrun; unfold ret in Hrun;
    destruct (String.prefix _ _); by simplify_eq.
Qed.
End Example.

#[local] Existing Instances ConcreteUuid.uuid Example.packets Example.packets_laws Example.services.

(** 50 left Alice, of which 49 arrived at Bob. *)
Lemma fulfilled_is_paid_witness :
  exists b f p,
    Example.handled.1 = Ret b /\ deserializeIlpReply b = Ret (ReplyFulfill f) /\
    paid (I := unit) Example.alice p (node_net Example.handled.2) /\
    (getLiquidityAccountBalance "alice" (node_net Example.handled.2)).1 = Ret (Some 50) /\
    (getLiquidityAccountBalance "bob" (node_net Example.handled.2)).1 = Ret (Some 49).
Proof.
  destruct (handleIlpData (I := unit) Example.alice false Example.packet Example.node) as [o n'] eqn:Hh.
  assert (Example.handled = (o, n')) as Hhandled by exact Hh.
  assert (Example.handled.1 = Ret [x0d; x2a]) as Ho by (by vm_compute).
  assert (o = Ret [x0d; x2a]) as -> by (by rewrite Hhandled in Ho).
  exists [x0d; x2a], {| fulfillment := [x2a]; fulfill_data := [] |}.
  destruct (fulfilled_is_paid Example.alice false Example.packet Example.node [x0d; x2a] n'
              {| fulfillment := [x2a]; fulfill_data := [] |} Hh eq_refl) as (p & Hp & Hpaid).
  exists p. split; [exact Ho|]. split; [reflexivity|].
  split; [|split; by vm_compute].
  rewrite Hhandled. destruct Hpaid as [[Hz|[Hz|Hz]]|Hpaid]; [| |
    |exact Hpaid]; exfalso; vm_compute in Hp; injection Hp as <-; vm_compute in Hz; discriminate Hz.
Defined.

(** Alice's packet is sent to Bob, and the ledger stays healthy. *)
Lemma forwards_only_allowed_witness :
  List.length (ext (node_net Example.handled.2)) = 1%nat /\
  Example.only_bob (node_net (handleIlpData (I := unit) Example.alice false Example.packet Example.node).2).
Proof.
  split; [by vm_compute|].
  apply (forwards_only_allowed Example.only_bob Example.alice false Example.packet Example.node
           (Example.services_keep_ledger _)).
  - apply Example.no_callbacks. by eexists _, _.
  - split; [|by constructor]. apply reachable_Healthy, Example.opened_reachable.
  - intros p _ endpoint b token (outgoing & p' & e & Hrouted & Hhttp & _).
    pose proof (Example.routed_to_bob _ _ _ _ Hrouted Hhttp) as ->.
    injection Hhttp as <- <-. intros w [Hw HQ]. split.
    { unfold Healthy. simpl. rewrite Z.add_0_r. exact Hw. }
    apply Forall_app. split; [exact HQ|]. repeat constructor.
Defined.

#[local] Instance example_lookup : PeerLookup (I := unit).
Proof.
  constructor. intros address tenantId id y a y' Ha. simpl in Ha. unfold ret in Ha.
  destruct (_ && negb _) eqn:Hb; simplify_eq.
  apply andb_true_iff in Hb as [[_ Ht%bool_decide_eq_true]%andb_true_iff Hid].
  apply negb_true_iff, bool_decide_eq_false in Hid. split; intros _; [by rewrite Ht|intros Heq; apply Hid; by rewrite <- Heq].
Qed.

(** Only accounts other than Alice are sent anything. *)
Lemma forwards_to_other_peers_witness :
  List.length (ext (node_net Example.handled.2)) = 1%nat /\
  ledger_ok (fun _ => True)
    (node_net (handleIlpData (I := unit) Example.alice false Example.packet Example.node).2).
Proof.
  split; [by vm_compute|].
  apply (forwards_to_other_peers (ledger_ok (fun _ => True)) Example.alice false Example.packet
           Example.node); [by split|discriminate|discriminate| |by constructor| |].
  - apply Example.services_keep_ledger.
  - split; [|exact Logic.I]. apply reachable_Healthy, Example.opened_reachable.
  - intros outgoing token endpoint b _ _ _ w [Hw _]. split; [|exact Logic.I].
    unfold Healthy. simpl. rewrite Z.add_0_r. exact Hw.
Defined.

(** The packet to nowhere is answered with a reject. *)
Lemma connector_replies_witness :
  exists r n' b, handleIlpData (I := unit) Example.alice false
    (Example.packet_to 50 "20200101000010000" "test.nowhere") Example.node = (r, n') /\
    r = Ret b /\
    match r with
    | Ret _ => True
    | Throw e => handler_throws (I := unit) (N := Example.W) e \/ timing_throws (I := unit) (N := Example.W) e
    end.
Proof.
  destruct (handleIlpData (I := unit) Example.alice false
    (Example.packet_to 50 "20200101000010000" "test.nowhere") Example.node) as [r n'] eqn:Hh.
  destruct (zeroCopyOf (Example.packet_to 50 "20200101000010000" "test.nowhere")) as [p|e] eqn:Hp;
    [|vm_compute in Hp; discriminate Hp].
  pose proof (connector_replies (I := unit) Example.alice false _ Example.node p r n' Hp Hh) as Hr.
  destruct r as [b|e]; [by exists (Ret b), n', b|exfalso].
  assert (match (handleIlpData (I := unit) Example.alice false
    (Example.packet_to 50 "20200101000010000" "test.nowhere") Example.node).1 with
    | Ret _ => true | Throw _ => false end = true) as Hret by (by vm_compute).
  by rewrite Hh in Hret.
Defined.

Lemma peer_is_charged_witness :
  exists b f p,
    Example.served.1 = Ret b /\ deserializeIlpReply b = Ret (ReplyFulfill f) /\
    (exists refused, charged (I := unit) Example.alice p refused (node_net Example.served.2)) /\
    (getLiquidityAccountBalance "alice" (node_net Example.served.2)).1 = Ret (Some 50).
Proof.
  destruct (publicServer (I := unit) Example.getByIncomingToken (Example.request "bEARER of-alice")
              Example.node) as [o n'] eqn:Hh.
  assert (Example.served = (o, n')) as Hserved by exact Hh.
  assert (Example.served.1 = Ret [x0d; x2a]) as Ho by (by vm_compute).
  assert (o = Ret [x0d; x2a]) as -> by (by rewrite Hserved in Ho).
  exists [x0d; x2a], {| fulfillment := [x2a]; fulfill_data := [] |}.
  destruct (peer_is_charged Example.getByIncomingToken _ _ _ _ Hh)
    as [[Ht _]|(o & y & Hget & Hpeer)]; [discriminate Ht|].
  vm_compute in Hget. injection Hget as <- <-.
  destruct (Hpeer [x0d; x2a] {| fulfillment := [x2a]; fulfill_data := [] |} eq_refl eq_refl)
    as (p & Hp & Hpaid).
  exists p. split; [exact Ho|]. split; [reflexivity|].
  split; [|by vm_compute].
  rewrite Hserved. destruct Hpaid as [Hz|[Hz|[refused Hpaid]]];
    [exfalso; vm_compute in Hp; injection Hp as <-; vm_compute in Hz; discriminate Hz..|].
  by exists refused.
Defined.
