(* ===== verification/ConnectorPeers.v ===== *)
(** * ConnectorPeers: the peers of the backend as the connector's lookup

    The services of the connector over the peers of [Peers]: an outgoing account for a peer,
    its callbacks lifted to the state of the peer service.  The lookup by destination
    address, with the sender as the peer the packet came from, keeps what the connector
    relies on ([ConnectorSpecs.PeerLookup]). *)

From S2P Require Import Prelude Shared Service OpenPayments Accounting Peers PeerSpecs.
From S2P Require Import IlpPacket Connector ConnectorSpecs.

Local Open Scope Z_scope.
Local Open Scope ts_scope.

Section Lookup.
Context {X I : Type} `{Uuid} `{!PeerServices X} `{!IlpPacketLib}.
Notation State := (PeerState (X := X)).

Definition lift_asset (a : LiquidityAccountAsset X) : LiquidityAccountAsset State :=
  {| asset_id := asset_id a; asset_code := asset_code a; asset_scale := asset_scale a;
     asset_ledger := asset_ledger a;
     asset_onDebit := (fun onDebit options => lift (onDebit options)) <$> asset_onDebit a |}.

(** A [Peer] is a [ConnectorAccount]. *)
Definition as_account (p : Peer) (a : Asset) : ConnectorAccount State :=
  {| ca_account := {| account_id := p_id p; account_asset := lift_asset (toAsset a);
                      account_onCredit := None;
                      account_onDebit := Some (fun options => lift (peer_onDebit p options)) |};
     ca_assetCode := a_code a; ca_assetScale := a_scale a; ca_tenantId := p_tenantId p;
     ca_maxPacketAmount := p_maxPacketAmount p; ca_staticIlpAddress := Some (p_staticIlpAddress p);
     ca_http := (fun h => (authToken h, endpoint h)) <$> peer_http p |}.

(** A peer without its asset makes the connector throw when it reads it. *)
Definition account_of (m : M State (option Peer)) : M State (option (ConnectorAccount State)) :=
  let! peer := m in
  match peer with
  | None => ret None
  | Some p => match p_asset p with
              | Some a => ret (Some (as_account p a))
              | None => throw (JsError "TypeError" "")
              end
  end.

Definition peer_for_destination (address tenantId incomingPeerId : string)
  : M State (option (ConnectorAccount State)) :=
  account_of (getPeerByDestinationAddress address tenantId (Some incomingPeerId) None).
Definition peer_for_token (token : string) : M State (option (ConnectorAccount State)) :=
  account_of (getPeerByIncomingToken token).

Lemma account_of_Some m s a s' :
  account_of m s = (Ret (Some a), s') ->
  exists p s1, m s = (Ret (Some p), s1) /\ ca_id a = p_id p /\ ca_tenantId a = p_tenantId p.
Proof.
  unfold account_of, bind, ret, throw. destruct (m s) as [[[p|]|e] s1]; [|done..].
  destruct (p_asset p) as [asset|]; [|done]. intros [= <- _]. by exists p, s1.
Qed.

(** A connector that looks up its peers in the table of the backend. *)
Context `{!ConnectorServices State I}.

Lemma peers_lookup :
  (forall address tenantId id, getByDestinationAddress address tenantId id
                               = peer_for_destination address tenantId id) ->
  PeerLookup.
Proof.
  intros Hget. constructor. intros address tenantId id y a y' Ha. rewrite Hget in Ha.
  apply account_of_Some in Ha as (p & s1 & Hp & -> & ->).
  destruct (wp_run _ _ _ _ _ (lookup_sound address tenantId (Some id) None y) Hp)
    as (_ & Ht & Hid).
  split; [done|]. by apply Hid.
Qed.
End Lookup.
