(* ===== verification/AuthAccess.v ===== *)
(** * AuthAccess: what a client may ask for and what a grant gives

    Models [access/types.ts], [access/utils.ts], [toOpenPaymentsAccess] of
    [access/model.ts], [validateLimits] of [access/service.ts] and [grant/utils.ts]
    of the authorization server.  The actions are those of the Open Payments
    specification ([open-payments-specifications/openapi/auth-server.yaml]). *)

From S2P Require Import Prelude.

Local Open Scope Z_scope.
Local Open Scope ts_scope.
Local Open Scope string_scope.

(** ** Data *)

Record PaymentAmount := { pa_value : string; pa_assetCode : string; pa_assetScale : Z }.

Record LimitData := {
  receiver : string;
  debitAmount : option PaymentAmount;
  receiveAmount : option PaymentAmount;
  interval : option string
}.

#[global] Instance PaymentAmount_eq_dec : EqDecision PaymentAmount.
Proof. solve_decision. Defined.
#[global] Instance LimitData_eq_dec : EqDecision LimitData.
Proof. solve_decision. Defined.

Definition AccessAction_values : list string :=
  ["create"; "complete"; "read"; "read-all"; "list"; "list-all"].

(** An [AccessRequest] of a client, or an [AccessItem] as it is sent. *)
Record AccessItem := {
  type : string;
  actions : list string;
  identifier : option string;
  limits : option LimitData
}.

(** A row of [accesses]. *)
Record Access := {
  acc_id : string;
  acc_grantId : string;
  acc_type : string;
  acc_actions : list string;
  acc_identifier : option string;
  acc_limits : option LimitData;
  acc_createdAt : Z
}.

Definition toOpenPaymentsAccess (accessItem : Access) : AccessItem :=
  {| type := acc_type accessItem; actions := acc_actions accessItem;
     identifier := acc_identifier accessItem; limits := acc_limits accessItem |}.

Record SubjectRequest := { sub_format : string; sub_id : string }.

Record Finish := { method : string; uri : string; nonce : string }.
Record Interact := { start : list string; finish : option Finish }.

Record GrantRequest := {
  access_token : option (list AccessItem);
  gr_client : string;
  interact : option Interact;
  subject : option (list SubjectRequest)
}.

(** The part of [config/app.ts] the server uses. *)
Record AuthConfig := {
  authServerUrl : string;
  waitTimeSeconds : Z;
  interactionExpirySeconds : Z;
  accessTokenExpirySeconds : Z;
  incomingPaymentInteraction : bool;
  quoteInteraction : bool;
  listAllInteraction : bool
}.

(** ** Which requests need no interaction *)

Definition isAction (actions : list string) : bool :=
  forallb (fun action => bool_decide (action ∈ AccessAction_values)) actions.

Definition isIncomingPaymentAccessRequest (r : AccessItem) : bool :=
  bool_decide (type r = "incoming-payment") && isAction (actions r) && negb (is_some (limits r)).

Definition isQuoteAccessRequest (r : AccessItem) : bool :=
  bool_decide (type r = "quote") && isAction (actions r) && negb (is_some (limits r)).

Definition may_skip (config : AuthConfig) (access : AccessItem) : bool :=
  (isIncomingPaymentAccessRequest access
   && negb (incomingPaymentInteraction config)
   && (negb (bool_decide ("list-all" ∈ actions access)) || negb (listAllInteraction config)))
  || (isQuoteAccessRequest access
      && negb (quoteInteraction config)
      && (negb (bool_decide ("list-all" ∈ actions access)) || negb (listAllInteraction config))).

(** [access.every(callback)], whose callback may throw; it stops at the first access
    that cannot be skipped. *)
Fixpoint every_may_skip (config : AuthConfig) (accesses : list AccessItem) : outcome bool :=
  match accesses with
  | [] => Ret true
  | access :: accesses =>
      let canSkip := may_skip config access in
      if negb canSkip && negb (truthy (identifier access))
      then Throw (GrantError GrantErrorCode.InvalidRequest "access identifier required")
      else if canSkip then every_may_skip config accesses else Ret false
  end.

Definition canSkipInteraction (config : AuthConfig) (body : GrantRequest) : outcome bool :=
  let emptySubject := Nat.eqb (length (default [] (subject body))) 0 in
  let emptyAccess := Nat.eqb (length (default [] (access_token body))) 0 in
  if emptySubject && emptyAccess
  then Throw (GrantError GrantErrorCode.InvalidRequest "subject or access_token required")
  else
  match match access_token body with
        | Some accesses => every_may_skip config accesses
        | None => Ret false
        end with
  | Ret canSkipAccess => Ret (emptySubject && canSkipAccess)
  | Throw e => Throw e
  end.

(** ** The limits of an access *)

Definition both_limits (access : AccessItem) : bool :=
  match limits access with
  | Some l => is_some (debitAmount l) && is_some (receiveAmount l)
  | None => false
  end.

(** An [AccessError] is thrown as the string it is. *)
Definition OnlyOneAccessAmountAllowed : exn := ThrownString "only one access amount allowed".

Definition validateLimits {S} (accessRequests : list AccessItem) : M S unit :=
  if existsb both_limits accessRequests then throw OnlyOneAccessAmountAllowed else ret tt.

(** ** Comparing what is asked with what was granted *)

(** An action that was granted and stands for the one that is asked. *)
Definition grants_action (actionItem grantAccessAction : string) : bool :=
  bool_decide (grantAccessAction = actionItem)
  || (bool_decide (actionItem = "read") && bool_decide (grantAccessAction = "read-all"))
  || (bool_decide (actionItem = "list") && bool_decide (grantAccessAction = "list-all")).

Definition actions_granted (requested granted : list string) : bool :=
  forallb (fun actionItem => truthy (List.find (grants_action actionItem) granted)) requested.

Definition compareRequestAndGrantAccessItems (request grant : AccessItem) : bool :=
  if negb (actions_granted (actions request) (actions grant)) then false
  else if is_some (limits request) && negb (bool_decide (limits request = limits grant)) then false
  else if negb (bool_decide (type request = type grant)) then false
  else if truthy (identifier grant) && negb (bool_decide (identifier request = identifier grant))
  then false
  else true.

(** ** What they mean *)

(** The grant gives what is asked: every action or the one that includes it, of the
    same type, on its identifier if it is restricted to one, and the limits if they
    are asked for. *)
Record covers (grant request : AccessItem) : Prop := {
  covers_actions : forall a, a ∈ actions request ->
    a ∈ actions grant \/ (a = "read" /\ "read-all" ∈ actions grant) \/
    (a = "list" /\ "list-all" ∈ actions grant);
  covers_type : type request = type grant;
  covers_identifier : forall i, identifier grant = Some i -> i <> "" -> identifier request = Some i;
  covers_limits : forall l, limits request = Some l -> limits grant = Some l
}.

Lemma grants_action_iff a g :
  grants_action a g = true <-> g = a \/ (a = "read" /\ g = "read-all") \/ (a = "list" /\ g = "list-all").
Proof. unfold grants_action. rewrite !orb_true_iff, !andb_true_iff, !bool_decide_eq_true. tauto. Qed.

Lemma actions_granted_iff requested granted :
  "" ∉ requested ->
  actions_granted requested granted = true <->
  forall a, a ∈ requested ->
    a ∈ granted \/ (a = "read" /\ "read-all" ∈ granted) \/ (a = "list" /\ "list-all" ∈ granted).
Proof.
  intros Hne. unfold actions_granted. rewrite forallb_forall.
  assert (forall a, a ∈ requested -> truthy (List.find (grants_action a) granted) = true <->
    a ∈ granted \/ (a = "read" /\ "read-all" ∈ granted) \/ (a = "list" /\ "list-all" ∈ granted)) as Ha.
  { intros a Hin. destruct (List.find _ granted) as [g|] eqn:E.
    - apply List.find_some in E as [Hg%list_elem_of_In Hq%grants_action_iff].
      split; [|intros _]; [destruct Hq as [->|[[-> ->]|[-> ->]]]; auto|].
      apply truthy_Some_string. intros ->. by destruct Hq as [<-|[[_ ?]|[_ ?]]].
    - split; [done|]. intros Hq. exfalso.
      assert (exists g, g ∈ granted /\ grants_action a g = true) as (g & Hg%list_elem_of_In & Hgr)
        by (destruct Hq as [Hg|[[-> Hg]|[-> Hg]]]; eexists; (split; [exact Hg|]);
            apply grants_action_iff; auto).
      pose proof (List.find_none _ _ E _ Hg). congruence. }
  split; intros Hall a Hin; apply Ha.
  - done.
  - by apply Hall, list_elem_of_In.
  - by apply list_elem_of_In.
  - apply Hall. by apply list_elem_of_In.
Qed.

Lemma compare_iff request grant :
  "" ∉ actions request ->
  compareRequestAndGrantAccessItems request grant = true <-> covers grant request.
Proof.
  intros Hne. unfold compareRequestAndGrantAccessItems.
  destruct (actions_granted _ _) eqn:Hact; simpl.
  2:{ split; [done|]. intros [Hc _ _ _]. by apply actions_granted_iff in Hc; [congruence|]. }
  pose proof (proj1 (actions_granted_iff _ _ Hne) Hact) as Hall.
  destruct (is_some (limits request) && _) eqn:Hlim.
  { split; [done|]. intros [_ _ _ Hl]. apply andb_true_iff in Hlim as [Hsome Hneq]. zbool.
    apply is_some_Some in Hsome as [l E]. contradict Hneq. by rewrite E, (Hl l E). }
  assert (forall l, limits request = Some l -> limits grant = Some l) as Hl.
  { intros l E. rewrite E in Hlim. simpl in Hlim. zbool. congruence. }
  destruct (bool_decide (type request = type grant)) eqn:Ht; zbool; simpl; [|split; [done|by intros [_ ? _ _]]].
  destruct (truthy (identifier grant) && _) eqn:Hid.
  - split; [done|]. intros [_ _ Hi _]. apply andb_true_iff in Hid as [Htr Hneq]. zbool.
    destruct (identifier grant) as [i|] eqn:E; [|done]. contradict Hneq.
    by apply Hi, truthy_Some_string.
  - split; [|done]. intros _. split; try done. intros i E Hi. rewrite E in Hid.
    rewrite (proj2 (truthy_Some_string i) Hi) in Hid. simpl in Hid. by zbool.
Qed.

Lemma may_skip_iff config a :
  may_skip config a = true <->
  (forall action, action ∈ actions a -> action ∈ AccessAction_values) /\ limits a = None /\
  ((type a = "incoming-payment" /\ incomingPaymentInteraction config = false) \/
   (type a = "quote" /\ quoteInteraction config = false)) /\
  ("list-all" ∈ actions a -> listAllInteraction config = false).
Proof.
  assert (isAction (actions a) = true <-> forall action, action ∈ actions a -> action ∈ AccessAction_values)
    as Hact.
  { unfold isAction. rewrite forallb_forall. split; intros Hall x Hx.
    - apply (bool_decide_eq_true (x ∈ AccessAction_values)). by apply Hall, list_elem_of_In.
    - apply bool_decide_eq_true, Hall. by apply list_elem_of_In. }
  unfold may_skip, isIncomingPaymentAccessRequest, isQuoteAccessRequest. rewrite <- Hact.
  rewrite !orb_true_iff, !andb_true_iff, !orb_true_iff, !negb_true_iff, !bool_decide_eq_true,
    !bool_decide_eq_false.
  destruct (limits a); simpl; [naive_solver|].
  destruct (decide ("list-all" ∈ actions a)); naive_solver.
Qed.

Lemma every_may_skip_iff config accesses :
  every_may_skip config accesses = Ret true <-> Forall (fun a => may_skip config a = true) accesses.
Proof.
  induction accesses as [|a l IH]; simpl; [by split; [constructor|]|].
  destruct (may_skip config a) eqn:E; simpl.
  - rewrite IH, Forall_cons. naive_solver.
  - rewrite Forall_cons, E. split; [by destruct (negb _)|by intros []].
Qed.

(** What is skipped asks nothing about a subject, and only for accesses that are exempt. *)
Lemma can_skip_exempt config body :
  canSkipInteraction config body = Ret true ->
  default [] (subject body) = [] /\
  exists l, access_token body = Some l /\ l <> [] /\ forall a, a ∈ l -> may_skip config a = true.
Proof.
  unfold canSkipInteraction.
  destruct (Nat.eqb _ 0) eqn:Hsub; destruct (access_token body) as [l|] eqn:Hacc;
    try (by destruct (Nat.eqb _ 0)); simpl.
  2:{ by destruct (every_may_skip config l). }
  apply Nat.eqb_eq, length_zero_iff_nil in Hsub. destruct (Nat.eqb (length l) 0) eqn:Hl; [done|].
  destruct (every_may_skip config l) as [b|] eqn:E; [|done]. intros [= ->]. split; [done|].
  exists l. split; [done|]. split; [by intros ->|].
  apply every_may_skip_iff in E. by rewrite Forall_forall in E.
Qed.

(** A token is issued without asking the resource owner only if nothing about a
    subject is asked and every access asked for, and there is one, is an incoming
    payment or a quote without limits, of a kind the configuration exempts, and does
    not list everything where listing everything needs a consent; in particular no
    outgoing payment is. *)
Theorem skip_interaction_iff config body :
  canSkipInteraction config body = Ret true <->
  default [] (subject body) = [] /\
  exists accesses, access_token body = Some accesses /\ accesses <> [] /\
    forall a, a ∈ accesses ->
      (forall action, action ∈ actions a -> action ∈ AccessAction_values) /\ limits a = None /\
      ((type a = "incoming-payment" /\ incomingPaymentInteraction config = false) \/
       (type a = "quote" /\ quoteInteraction config = false)) /\
      ("list-all" ∈ actions a -> listAllInteraction config = false).
Proof.
  split.
  - intros (Hsub & l & Hacc & Hne & Hall)%can_skip_exempt. split; [done|]. exists l.
    split; [done|]. split; [done|]. intros a Ha. by apply may_skip_iff, Hall.
  - intros (Hsub & l & Hacc & Hne & Hall). unfold canSkipInteraction. rewrite Hsub, Hacc. simpl. destruct l as [|a l]; [done|].
    change (Nat.eqb (length (a :: l)) 0) with false. cbv iota beta.
    assert (every_may_skip config (a :: l) = Ret true) as ->; [|done].
    apply every_may_skip_iff, Forall_forall. intros b Hb. by apply may_skip_iff, Hall.
Qed.

(** The check for an identifier stops at the first access that needs an interaction:
    the same request is refused or not by the order of its accesses. *)
Definition outgoing (i : option string) : AccessItem :=
  {| type := "outgoing-payment"; actions := ["create"]; identifier := i; limits := None |}.

Definition asks (l : list AccessItem) : GrantRequest :=
  {| access_token := Some l; gr_client := "https://client"; interact := None; subject := None |}.

Lemma identifier_check_depends_on_order config :
  canSkipInteraction config (asks [outgoing (Some "https://alice"); outgoing None]) = Ret false /\
  canSkipInteraction config (asks [outgoing None; outgoing (Some "https://alice")])
  = Throw (GrantError GrantErrorCode.InvalidRequest "access identifier required").
Proof. done. Qed.
