(* ===== verification/AuthServer.v ===== *)
(** * AuthServer: the data and the services of the authorization server

    Models [grant/model.ts], [grant/service.ts], [interaction/{model,service}.ts],
    [accessToken/{model,service}.ts], [access/service.ts], [subject/{model,service}.ts],
    [tenant/{model,service}.ts] and [client/service.ts] of [packages/auth].  The state is
    the tables of the server over the state [X] of the client's wallet addresses.
    Identifiers, tokens and nonces come from one supply ([Service.fresh]).  An
    operation that the code runs in the transaction it is given is modelled without
    one; its callers in [AuthRoutes] open and close it. *)

From S2P Require Import Prelude Shared Service AuthAccess.
From S2P Require OpenPayments.
Import OpenPayments (when_given).

Local Open Scope Z_scope.
Local Open Scope ts_scope.
Local Open Scope string_scope.

(** ** Data *)

Inductive GrantFinalization := Issued | Revoked | Rejected.

Inductive GrantState := Processing | Pending | Approved | Finalized.

#[global] Instance GrantFinalization_eq_dec : EqDecision GrantFinalization.
Proof. solve_decision. Defined.
#[global] Instance GrantState_eq_dec : EqDecision GrantState.
Proof. solve_decision. Defined.

Record Grant := {
  id : string;
  tenantId : string;
  state : GrantState;
  finalizationReason : option GrantFinalization;
  startMethod : option (list string);
  continueToken : string;
  continueId : string;
  finishMethod : option string;
  finishUri : option string;
  client : string;
  clientNonce : option string;
  lastContinuedAt : Z;
  createdAt : Z;
  updatedAt : Z
}.

Definition isFinishableGrant (grant : Grant) : bool :=
  truthy (finishMethod grant) && truthy (finishUri grant).

Definition isRejectedGrant (grant : Grant) : bool :=
  bool_decide (state grant = Finalized) && bool_decide (finalizationReason grant = Some Rejected).

Definition isRevokedGrant (grant : Grant) : bool :=
  bool_decide (state grant = Finalized) && bool_decide (finalizationReason grant = Some Revoked).

(** The columns a patch may set, with [updatedAt]. *)
Definition with_columns (st : GrantState) (reason : option GrantFinalization) (continued : Z)
    (now : Z) (grant : Grant) : Grant :=
  {| id := id grant; tenantId := tenantId grant; state := st; finalizationReason := reason;
     startMethod := startMethod grant; continueToken := continueToken grant;
     continueId := continueId grant; finishMethod := finishMethod grant;
     finishUri := finishUri grant; client := client grant; clientNonce := clientNonce grant;
     lastContinuedAt := continued; createdAt := createdAt grant; updatedAt := now |}.

Definition set_state (st : GrantState) (now : Z) (grant : Grant) : Grant :=
  with_columns st (finalizationReason grant) (lastContinuedAt grant) now grant.
Definition set_finalized (reason : GrantFinalization) (now : Z) (grant : Grant) : Grant :=
  with_columns Finalized (Some reason) (lastContinuedAt grant) now grant.
Definition set_continued (now : Z) (grant : Grant) : Grant :=
  with_columns (state grant) (finalizationReason grant) now now grant.

Module InteractionState.
Inductive t := Pending | Approved | Denied.
End InteractionState.

#[global] Instance InteractionState_eq_dec : EqDecision InteractionState.t.
Proof. solve_decision. Defined.

Record Interaction := {
  i_id : string;
  i_grantId : string;
  ref : string;
  i_nonce : string;
  i_state : InteractionState.t;
  expiresIn : Z;
  i_createdAt : Z;
  i_updatedAt : Z
}.

Definition set_interaction_state (st : InteractionState.t) (now : Z) (i : Interaction) : Interaction :=
  {| i_id := i_id i; i_grantId := i_grantId i; ref := ref i; i_nonce := i_nonce i; i_state := st;
     expiresIn := expiresIn i; i_createdAt := i_createdAt i; i_updatedAt := now |}.

Record AccessToken := {
  t_id : string;
  value : string;
  managementId : string;
  t_grantId : string;
  t_expiresIn : Z;
  revokedAt : option Z;
  t_createdAt : Z;
  t_updatedAt : Z
}.

Definition set_revokedAt (now : Z) (t : AccessToken) : AccessToken :=
  {| t_id := t_id t; value := value t; managementId := managementId t; t_grantId := t_grantId t;
     t_expiresIn := t_expiresIn t; revokedAt := Some now; t_createdAt := t_createdAt t;
     t_updatedAt := now |}.

Record Subject := {
  s_id : string;
  s_grantId : string;
  subId : string;
  subIdFormat : string;
  s_createdAt : Z
}.

Definition toOpenPaymentsSubject (s : Subject) : SubjectRequest :=
  {| sub_format := subIdFormat s; sub_id := subId s |}.

Record Tenant := {
  tn_id : string;
  apiSecret : string;
  idpConsentUrl : option string;
  idpSecret : option string;
  deletedAt : option Z
}.

Definition isTenantWithIdp (tenant : Tenant) : bool :=
  truthy (idpConsentUrl tenant) && truthy (idpSecret tenant).

Record AuthDb := {
  tenants : list Tenant;
  grants : list Grant;
  accesses : list Access;
  subjects : list Subject;
  interactions : list Interaction;
  accessTokens : list AccessToken
}.

Definition set_tenants (l : list Tenant) (d : AuthDb) : AuthDb :=
  {| tenants := l; grants := grants d; accesses := accesses d; subjects := subjects d;
     interactions := interactions d; accessTokens := accessTokens d |}.
Definition set_grants (l : list Grant) (d : AuthDb) : AuthDb :=
  {| tenants := tenants d; grants := l; accesses := accesses d; subjects := subjects d;
     interactions := interactions d; accessTokens := accessTokens d |}.
Definition set_accesses (l : list Access) (d : AuthDb) : AuthDb :=
  {| tenants := tenants d; grants := grants d; accesses := l; subjects := subjects d;
     interactions := interactions d; accessTokens := accessTokens d |}.
Definition set_subjects (l : list Subject) (d : AuthDb) : AuthDb :=
  {| tenants := tenants d; grants := grants d; accesses := accesses d; subjects := l;
     interactions := interactions d; accessTokens := accessTokens d |}.
Definition set_interactions (l : list Interaction) (d : AuthDb) : AuthDb :=
  {| tenants := tenants d; grants := grants d; accesses := accesses d; subjects := subjects d;
     interactions := l; accessTokens := accessTokens d |}.
Definition set_accessTokens (l : list AccessToken) (d : AuthDb) : AuthDb :=
  {| tenants := tenants d; grants := grants d; accesses := accesses d; subjects := subjects d;
     interactions := interactions d; accessTokens := l |}.

(** [crypto.randomBytes] in hexadecimal: tokens of ten bytes and nonces of eight. *)
Class Random := { randomToken : nat -> string; randomNonce : nat -> string }.

(** A token is never drawn twice. *)
Class RandomLaws `{Random} : Prop := {
  randomToken_inj : forall n m, randomToken n = randomToken m -> n = m
}.

Record ClientDetails := { cl_name : string; cl_uri : string }.

Section AuthServices.
Context {X : Type} `{Uuid} `{Random}.
Context (config : AuthConfig).
(** Whether [new URL(s)] parses the text. *)
Context (isUrl : string -> bool).
(** [openPaymentsClient.walletAddress.get({ url })], its public name. *)
Context (walletAddress_get : string -> M X (option string)).

Definition AuthState : Type := Svc AuthDb X.

Definition generateToken : M AuthState string :=
  fun s => (Ret (randomToken (Service.fresh s)),
            {| db := db s; now := now s; Service.fresh := S (Service.fresh s); ext := ext s |}).
Definition generateNonce : M AuthState string :=
  fun s => (Ret (randomNonce (Service.fresh s)),
            {| db := db s; now := now s; Service.fresh := S (Service.fresh s); ext := ext s |}).

(** ** Tenants *)

Record TenantUpdate := {
  u_apiSecret : option string;
  u_idpConsentUrl : option string;
  u_idpSecret : option string
}.

Definition active_tenant (tid : string) (t : Tenant) : bool :=
  bool_decide (tn_id t = tid) && negb (is_some (deletedAt t)).

Definition createTenant (t : Tenant) : M AuthState Tenant :=
  let! existing := db_get (fun d => find_where (fun t' => bool_decide (tn_id t' = tn_id t)) (tenants d)) in
  match existing with
  | Some _ => throw (UniqueViolationError "tenants_pkey")
  | None => db_set (fun d => set_tenants (tenants d ++ [t])%list d) ;;! ret t
  end.

Definition getTenant (tid : string) : M AuthState (option Tenant) :=
  db_get (fun d => find_where (active_tenant tid) (tenants d)).

(** An undefined field is left as it is. *)
Definition update_tenant (input : TenantUpdate) (t : Tenant) : Tenant :=
  {| tn_id := tn_id t; apiSecret := default (apiSecret t) (u_apiSecret input);
     idpConsentUrl := match u_idpConsentUrl input with Some u => Some u | None => idpConsentUrl t end;
     idpSecret := match u_idpSecret input with Some s => Some s | None => idpSecret t end;
     deletedAt := deletedAt t |}.

Definition updateTenant (tid : string) (input : TenantUpdate) : M AuthState (option Tenant) :=
  db_set (fun d => set_tenants (update_where (active_tenant tid) (update_tenant input) (tenants d)) d) ;;!
  getTenant tid.

Definition deleteTenant (tid : string) (deletedAt : Z) : M AuthState bool :=
  let! existing := getTenant tid in
  match existing with
  | None => ret false
  | Some _ =>
      db_set (fun d => set_tenants (update_where (active_tenant tid) (fun t =>
        {| tn_id := tn_id t; apiSecret := apiSecret t; idpConsentUrl := idpConsentUrl t;
           idpSecret := idpSecret t; AuthServer.deletedAt := Some deletedAt |}) (tenants d)) d) ;;!
      ret true
  end.

(** At the start of the server, with [operatorTenantId] and [adminApiSecret] of its
    configuration. *)
Definition updateOperatorApiSecretFromConfig (operatorTenantId adminApiSecret : string)
  : M AuthState unit :=
  let! tenant := getTenant operatorTenantId in
  match tenant with
  | None => throw_error "Could not find operator tenant when updating the operator API secret from config"
  | Some tenant =>
      if negb (bool_decide (apiSecret tenant = adminApiSecret))
      then db_set (fun d => set_tenants (update_where (fun t => bool_decide (tn_id t = tn_id tenant))
             (update_tenant {| u_apiSecret := Some adminApiSecret; u_idpConsentUrl := None;
                               u_idpSecret := None |}) (tenants d)) d)
      else ret tt
  end.

(** ** Clients *)

Definition getClient (client : string) : M AuthState (option ClientDetails) :=
  try_catch
    (let! publicName := lift (walletAddress_get client) in
     match publicName with
     | Some name => if truthy name then ret (Some {| cl_name := name; cl_uri := client |}) else ret None
     | None => ret None
     end)
    (fun _ => ret None).

(** ** Accesses and subjects *)

(** [Model.insert(rows)], each with an identifier of its own. *)
Fixpoint insert_accesses (grantId : string) (requests : list AccessItem) : M AuthState unit :=
  match requests with
  | [] => ret tt
  | r :: requests =>
      let! aid := uuid in
      let! now := date_now in
      db_set (fun d => set_accesses (accesses d ++
        [{| acc_id := aid; acc_grantId := grantId; acc_type := type r; acc_actions := actions r;
            acc_identifier := identifier r; acc_limits := limits r; acc_createdAt := now |}])%list d) ;;!
      insert_accesses grantId requests
  end.

Definition createAccess (grantId : string) (accessRequests : list AccessItem) : M AuthState unit :=
  validateLimits accessRequests ;;!
  insert_accesses grantId accessRequests.

Definition access_of (grantId : string) (d : AuthDb) : list Access :=
  List.filter (fun a => bool_decide (acc_grantId a = grantId)) (accesses d).

Definition getAccessByGrant (grantId : string) : M AuthState (list Access) :=
  db_get (access_of grantId).

Definition invalid_request (message : string) : exn := GrantError GrantErrorCode.InvalidRequest message.

Definition validateSubjectRequest {S} (subject : SubjectRequest) : M S unit :=
  if negb (isUrl (sub_id subject)) then throw (invalid_request "subject id must be a valid https url")
  else if negb (bool_decide (sub_format subject = "uri"))
  then throw (invalid_request "subject format is invalid")
  else ret tt.

Fixpoint insert_subjects (grantId : string) (requests : list SubjectRequest) : M AuthState unit :=
  match requests with
  | [] => ret tt
  | r :: requests =>
      let! sid := uuid in
      let! now := date_now in
      db_set (fun d => set_subjects (subjects d ++
        [{| s_id := sid; s_grantId := grantId; subId := sub_id r; subIdFormat := sub_format r;
            s_createdAt := now |}])%list d) ;;!
      insert_subjects grantId requests
  end.

Definition createSubject (grantId : string) (subjectRequests : list SubjectRequest)
  : M AuthState unit :=
  mapM validateSubjectRequest subjectRequests ;;!
  insert_subjects grantId subjectRequests.

Definition getSubjectsByGrant (grantId : string) : M AuthState (list Subject) :=
  db_get (fun d => List.filter (fun s => bool_decide (s_grantId s = grantId)) (subjects d)).

(** ** Access tokens *)

Definition isTokenExpired (now : Z) (token : AccessToken) : bool :=
  (t_createdAt token + t_expiresIn token * 1000 <? now)%Z.

Definition find_grant (grantId : string) (d : AuthDb) : option Grant :=
  find_where (fun g => bool_decide (id g = grantId)) (grants d).

Definition not_revoked (t : AccessToken) : bool := negb (is_some (revokedAt t)).

(** With its grant. *)
Definition getByManagementId (mid : string) : M AuthState (option (AccessToken * option Grant)) :=
  db_get (fun d =>
    match find_where (fun t => bool_decide (managementId t = mid) && not_revoked t) (accessTokens d) with
    | Some t => Some (t, find_grant (t_grantId t) d)
    | None => None
    end).

(** The accesses of a grant that give what is asked, one for each access asked for that
    has one. *)
Fixpoint found_access (requested : list AccessItem) (grantAccess : list Access) : list Access :=
  match requested with
  | [] => []
  | accessItem :: requested =>
      match List.find (fun grantAccessItem =>
              compareRequestAndGrantAccessItems accessItem (toOpenPaymentsAccess grantAccessItem))
            grantAccess with
      | Some found => found :: found_access requested grantAccess
      | None => found_access requested grantAccess
      end
  end.

Definition introspect (tokenValue : string) (access : option (list AccessItem))
  : M AuthState (option (Grant * list Access)) :=
  let! now := date_now in
  db_get (fun d =>
    match find_where (fun t => bool_decide (value t = tokenValue) && not_revoked t) (accessTokens d) with
    | None => None
    | Some token =>
        if isTokenExpired now token then None
        else match find_grant (t_grantId token) d with
             | None => None
             | Some grant =>
                 if isRevokedGrant grant then None
                 else Some (grant, match access with
                                   | Some access => found_access access (access_of (id grant) d)
                                   | None => []
                                   end)
             end
    end).

Definition revoke (tid : string) : M AuthState (option AccessToken) :=
  let! now := date_now in
  let this t := bool_decide (t_id t = tid) && not_revoked t in
  let! existing := db_get (fun d => find_where this (accessTokens d)) in
  match existing with
  | None => ret None
  | Some t =>
      db_set (fun d => set_accessTokens (update_where this (set_revokedAt now) (accessTokens d)) d) ;;!
      ret (Some (set_revokedAt now t))
  end.

Definition revokeByGrantId (grantId : string) : M AuthState unit :=
  let! now := date_now in
  db_set (fun d => set_accessTokens
    (update_where (fun t => bool_decide (t_grantId t = grantId)) (set_revokedAt now) (accessTokens d)) d).

Definition createAccessToken (grantId : string) : M AuthState AccessToken :=
  let! v := generateToken in
  let! mid := uuid in
  let! tid := uuid in
  let! now := date_now in
  let! grant := db_get (find_grant grantId) in
  match grant with
  | None => throw (ForeignKeyViolationError "accesstokens_grantid_foreign")
  | Some _ =>
      let t := {| t_id := tid; value := v; managementId := mid; t_grantId := grantId;
                  t_expiresIn := accessTokenExpirySeconds config; revokedAt := None;
                  t_createdAt := now; t_updatedAt := now |} in
      db_set (fun d => set_accessTokens (accessTokens d ++ [t])%list d) ;;! ret t
  end.

Definition rotate (tid : string) : M AuthState (option AccessToken) :=
  let! revokedToken := revoke tid in
  match revokedToken with
  | None => ret None
  | Some t => let! t := createAccessToken (t_grantId t) in ret (Some t)
  end.

(** ** Grants *)

(** [Grant.query().patchAndFetchById(id, ...)] *)
Definition patch_grant (grantId : string) (f : Z -> Grant -> Grant) : M AuthState (option Grant) :=
  let! now := date_now in
  db_set (fun d => set_grants
    (update_where (fun g => bool_decide (id g = grantId)) (f now) (grants d)) d) ;;!
  db_get (find_grant grantId).

Definition approve_grant (grantId : string) : M AuthState (option Grant) :=
  patch_grant grantId (set_state Approved).

Definition finalize (grantId : string) (reason : GrantFinalization) : M AuthState (option Grant) :=
  patch_grant grantId (set_finalized reason).

Definition updateLastContinuedAt (grantId : string) : M AuthState (option Grant) :=
  patch_grant grantId set_continued.

(** In the transaction of its caller. *)
Definition markPending (grantId : string) : M AuthState (Grant * Tenant) :=
  let! grant := patch_grant grantId (set_state Pending) in
  match grant with
  | None => throw (JsError "TypeError" "Cannot read properties of undefined (reading 'tenant')")
  | Some grant =>
      let! tenant := db_get (fun d => find_where (fun t => bool_decide (tn_id t = tenantId grant)) (tenants d)) in
      match tenant with
      | Some tenant => ret (grant, tenant)
      | None => throw_error "required graph not returned in query"
      end
  end.

Definition revokeGrant (grantId : string) (tenant : option string) : M AuthState bool :=
  transaction
    (let! now := date_now in
     let this g := bool_decide (id g = grantId) && when_given tenant (Some (tenantId g)) in
     let! grant := db_get (fun d => find_where this (grants d)) in
     match grant with
     | None => ret false
     | Some grant =>
         db_set (fun d => set_grants (update_where this (set_finalized Revoked now) (grants d)) d) ;;!
         revokeByGrantId (id grant) ;;!
         ret true
     end).

(** An error of an access request becomes an error of the grant request. *)
Definition accessErrorToGrantError (e : exn) : exn :=
  match e with
  | ThrownString m => if bool_decide (m = "only one access amount allowed")
                      then GrantError GrantErrorCode.OnlyOneAccessAmountAllowed
                             "only one access amount allowed"
                      else e
  | _ => e
  end.

Definition insert_grant (grantRequest : GrantRequest) (tenant : string) (st : GrantState)
  : M AuthState Grant :=
  let! cid := uuid in
  let! token := generateToken in
  let! gid := uuid in
  let! now := date_now in
  let! known := db_get (fun d => find_where (fun t => bool_decide (tn_id t = tenant)) (tenants d)) in
  match known with
  | None => throw (ForeignKeyViolationError "grants_tenantid_foreign")
  | Some _ =>
      let fin := match interact grantRequest with Some i => finish i | None => None end in
      let grant := {| id := gid; tenantId := tenant; state := st; finalizationReason := None;
                      startMethod := start <$> interact grantRequest; continueToken := token;
                      continueId := cid; finishMethod := method <$> fin; finishUri := uri <$> fin;
                      client := gr_client grantRequest; clientNonce := nonce <$> fin;
                      lastContinuedAt := now; createdAt := now; updatedAt := now |} in
      db_set (fun d => set_grants (grants d ++ [grant])%list d) ;;! ret grant
  end.

Definition create_grant (grantRequest : GrantRequest) (tenant : string) : M AuthState Grant :=
  try_catch
    (match canSkipInteraction config grantRequest with
     | Throw e => throw e
     | Ret skip =>
         let! grant := insert_grant grantRequest tenant (if skip then Approved else Pending) in
         match access_token grantRequest with
         | Some access => createAccess (id grant) access
         | None => ret tt
         end ;;!
         match subject grantRequest with
         | Some sub_ids => createSubject (id grant) sub_ids
         | None => ret tt
         end ;;!
         ret grant
     end)
    (fun e => throw (accessErrorToGrantError e)).

Definition getByContinue (cid token : string) (includeRevoked : bool) : M AuthState (option Grant) :=
  db_get (fun d => find_where (fun g =>
    bool_decide (continueId g = cid) && bool_decide (continueToken g = token)
    && (includeRevoked || negb (bool_decide (finalizationReason g = Some Revoked)))) (grants d)).

Definition getByIdWithAccessAndSubject (grantId : string) (tenant : option string)
  : M AuthState (option (Grant * list Access * list Subject)) :=
  db_get (fun d =>
    match find_where (fun g => bool_decide (id g = grantId) && when_given tenant (Some (tenantId g)))
            (grants d) with
    | Some g => Some (g, access_of (id g) d,
                      List.filter (fun s => bool_decide (s_grantId s = id g)) (subjects d))
    | None => None
    end).

(** ** Interactions *)

Definition with_grant (o : option Interaction) (d : AuthDb) : option (Interaction * Grant) :=
  match o with
  | Some i => match find_grant (i_grantId i) d with Some g => Some (i, g) | None => None end
  | None => None
  end.

Definition getInteractionByGrant (grantId : string) : M AuthState (option (Interaction * Grant)) :=
  db_get (fun d => with_grant (find_where (fun i => bool_decide (i_grantId i = grantId)) (interactions d)) d).

Definition getBySession (iid nonce : string) : M AuthState (option (Interaction * Grant)) :=
  db_get (fun d => with_grant (find_where (fun i =>
    bool_decide (i_id i = iid) && bool_decide (i_nonce i = nonce)) (interactions d)) d).

Definition getByRef (r : string) : M AuthState (option (Interaction * Grant)) :=
  db_get (fun d => with_grant (find_where (fun i => bool_decide (ref i = r)) (interactions d)) d).

(** In the transaction of its caller. *)
Definition create_interaction (grantId : string) : M AuthState Interaction :=
  let! r := uuid in
  let! n := generateNonce in
  let! iid := uuid in
  let! now := date_now in
  let! grant := db_get (find_grant grantId) in
  match grant with
  | None => throw (ForeignKeyViolationError "interactions_grantid_foreign")
  | Some _ =>
      let i := {| i_id := iid; i_grantId := grantId; ref := r; i_nonce := n;
                  i_state := InteractionState.Pending; expiresIn := interactionExpirySeconds config;
                  i_createdAt := now; i_updatedAt := now |} in
      db_set (fun d => set_interactions (interactions d ++ [i])%list d) ;;! ret i
  end.

Definition patch_interaction (iid : string) (st : InteractionState.t) : M AuthState unit :=
  let! now := date_now in
  db_set (fun d => set_interactions
    (update_where (fun i => bool_decide (i_id i = iid)) (set_interaction_state st now) (interactions d)) d).

Definition approve_interaction (iid : string) : M AuthState unit :=
  patch_interaction iid InteractionState.Approved.

Definition deny (iid : string) : M AuthState unit := patch_interaction iid InteractionState.Denied.
End AuthServices.
