(* ===== verification/AuthRoutes.v ===== *)
(** * AuthRoutes: the requests of the authorization server

    Models [grant/routes.ts], [interaction/routes.ts], [accessToken/routes.ts] and
    [tenant/routes.ts] of [packages/auth], with the part of [signature/middleware.ts]
    that finds the token.  A route is a computation from what it reads of the
    request to what it answers; the session cookie is read and written as such.  What
    it throws, [GNAPServerRouteError] or anything else, is the error response.  The
    signature of the client is checked before these routes run and is left out. *)

From Stdlib Require Import Ascii.
From S2P Require Import Prelude Text Shared Service AuthAccess AuthServer.

Local Open Scope Z_scope.
Local Open Scope ts_scope.
Local Open Scope string_scope.

(** ** Answers *)

(** A URL and what was set on its search parameters, in this order. *)
Record Url := { href : string; searchParams : list (string * string) }.

Record OpenPaymentsAccessToken := {
  at_access : list AccessItem;
  at_value : string;
  at_manage : string;
  at_expires_in : Z
}.

Record Continue := { c_token : string; c_uri : string; c_wait : option Z }.

Record OpenPaymentsGrant := {
  og_access_token : option OpenPaymentsAccessToken;
  og_continue : Continue;
  og_subject : option (list SubjectRequest)
}.

Record OpenPaymentsPendingGrant := {
  pg_redirect : Url;
  pg_finish : string;
  pg_continue : Continue
}.

Inductive GrantResponse :=
| GrantBody (body : OpenPaymentsGrant)
| PendingGrantBody (body : OpenPaymentsPendingGrant)
| ContinuationBody (continue : Continue).

(** A redirect, or an empty answer with a status. *)
Inductive InteractionResponse := Redirect (url : Url) | Status (status : Z).

Record GrantDetails := {
  gd_grantId : string;
  gd_access : list AccessItem;
  gd_subject : option (list SubjectRequest);
  gd_state : InteractionState.t
}.

Inductive TokenInfo :=
| Inactive
| Active (grant : string) (access : list AccessItem) (client : string).

Inductive ContinueBody := NoBody | Body (interact_ref : option string).

Definition not_found (code : GNAPErrorCode.t) (message : string) : exn :=
  GNAPServerRouteError 404 code message.
Definition unauthorized (code : GNAPErrorCode.t) (message : string) : exn :=
  GNAPServerRouteError 401 code message.
Definition bad_request (code : GNAPErrorCode.t) (message : string) : exn :=
  GNAPServerRouteError 400 code message.
Definition internal_error : exn :=
  GNAPServerRouteError 500 GNAPErrorCode.RequestDenied "internal server error".

Definition toOpenPaymentsAccessToken (authServerUrl : string) (accessToken : AccessToken)
    (accessItems : list Access) : OpenPaymentsAccessToken :=
  {| at_access := map toOpenPaymentsAccess accessItems; at_value := value accessToken;
     at_manage := authServerUrl ++ "/token/" ++ managementId accessToken;
     at_expires_in := t_expiresIn accessToken |}.

Definition continue_of (authServerUrl : string) (wait : option Z) (grant : Grant) : Continue :=
  {| c_token := continueToken grant; c_uri := authServerUrl ++ "/continue/" ++ continueId grant;
     c_wait := wait |}.

Definition toOpenPaymentsGrant (authServerUrl : string) (grant : Grant)
    (accessToken : option AccessToken) (accessItems : list Access) (subjectItems : list Subject)
  : OpenPaymentsGrant :=
  {| og_access_token := match accessToken, accessItems with
                        | Some t, _ :: _ => Some (toOpenPaymentsAccessToken authServerUrl t accessItems)
                        | _, _ => None
                        end;
     og_continue := continue_of authServerUrl None grant;
     og_subject := match subjectItems with
                   | [] => None
                   | _ => Some (map toOpenPaymentsSubject subjectItems)
                   end |}.

Definition toOpenPaymentPendingGrant (authServerUrl : string) (wait : Z) (client : ClientDetails)
    (grant : Grant) (interaction : Interaction) : OpenPaymentsPendingGrant :=
  {| pg_redirect := {| href := authServerUrl ++ "/interact/" ++ i_id interaction ++ "/" ++ i_nonce interaction;
                       searchParams := [("clientName", cl_name client); ("clientUri", cl_uri client)] |};
     pg_finish := i_nonce interaction;
     pg_continue := continue_of authServerUrl (Some wait) grant |}.

Definition grantToTokenInfo (o : option (Grant * list Access)) : TokenInfo :=
  match o with
  | None => Inactive
  | Some (grant, access) => Active (id grant) (map toOpenPaymentsAccess access) (client grant)
  end.

Definition ensureTrailingSlash (str : string) : string :=
  match String.get (pred (String.length str)) str with
  | Some "/"%char => str
  | _ => str ++ "/"
  end.

(** The text in double quotes. *)
Definition quoted (s : string) : string := String (ascii_of_nat 34) (s ++ String (ascii_of_nat 34) "").

Definition newline : string := String (ascii_of_nat 10) "".

Section AuthRoutes.
Context {X : Type} `{Uuid} `{Random}.
Context (config : AuthConfig).
Context (isUrl : string -> bool).
Context (walletAddress_get : string -> M X (option string)).
(** [crypto.createHash('sha-256').update(data).digest('base64')] *)
Context (sha256_base64 : string -> string).

Notation AuthState := (Svc AuthDb X).

(** [new URL(s)] *)
Definition new_URL (s : string) : M AuthState Url :=
  if isUrl s then ret {| href := s; searchParams := [] |} else throw (JsError "TypeError" "Invalid URL").

Definition set_param (key v : string) (u : Url) : Url :=
  {| href := href u; searchParams := (searchParams u ++ [(key, v)])%list |}.

(** ** Requesting a grant *)

(** The errors of a transaction of [createApprovedGrant] or [createPendingGrant]. *)
Definition grant_route_error (e : exn) : exn :=
  match e with
  | GrantError _ message => bad_request GNAPErrorCode.InvalidRequest message
  | _ => internal_error
  end.

Definition createApprovedGrant (tenantId : string) (body : GrantRequest) : M AuthState GrantResponse :=
  let! ' (grant, accessToken) :=
    try_catch
      (transaction
         (let! grant := create_grant config isUrl body tenantId in
          let! accessToken := createAccessToken config (id grant) in
          ret (grant, accessToken)))
      (fun e => throw (grant_route_error e)) in
  let! access := getAccessByGrant (id grant) in
  ret (GrantBody (toOpenPaymentsGrant (authServerUrl config) grant (Some accessToken) access [])).

Definition createPendingGrant (tenant : Tenant) (body : GrantRequest) : M AuthState GrantResponse :=
  match interact body with
  | None => throw (bad_request GNAPErrorCode.InvalidRequest "missing required request field 'interact'")
  | Some _ =>
      if negb (isTenantWithIdp tenant)
      then throw (bad_request GNAPErrorCode.InvalidRequest "invalid tenant")
      else
      let! client := getClient walletAddress_get (gr_client body) in
      match client with
      | None => throw (bad_request GNAPErrorCode.InvalidClient "missing required request field 'client'")
      | Some client =>
          let! ' (grant, interaction) :=
            try_catch
              (transaction
                 (let! grant := create_grant config isUrl body (tn_id tenant) in
                  let! interaction := create_interaction config (id grant) in
                  ret (grant, interaction)))
              (fun e => throw (grant_route_error e)) in
          ret (PendingGrantBody (toOpenPaymentPendingGrant (authServerUrl config)
                 (waitTimeSeconds config) client grant interaction))
      end
  end.

Definition createGrant (tenantId : option string) (body : GrantRequest) : M AuthState GrantResponse :=
  let! tenant := match tenantId with
                 | Some t => if truthy t then getTenant t else ret None
                 | None => ret None
                 end in
  match tenant with
  | None => throw (not_found GNAPErrorCode.InvalidRequest "Not Found")
  | Some tenant =>
      match canSkipInteraction config body with
      | Throw (GrantError _ message) => throw (bad_request GNAPErrorCode.InvalidRequest message)
      | Throw e => throw e
      | Ret true => createApprovedGrant (tn_id tenant) body
      | Ret false => createPendingGrant tenant body
      end
  end.

(** ** Continuing a grant *)

Definition isMatchingContinueRequest (reqContinueId reqContinueToken : string) (grant : Grant) : bool :=
  bool_decide (reqContinueId = continueId grant) && bool_decide (reqContinueToken = continueToken grant).

Definition isContinuableGrant (grant : Grant) : bool :=
  negb (isRejectedGrant grant) && negb (isRevokedGrant grant).

Definition isGrantStillWaiting (now : Z) (grant : Grant) : bool :=
  (now <? lastContinuedAt grant + waitTimeSeconds config * 1000)%Z.

(** What ends both ways to continue: a token, and the grant is finalized. *)
Definition issue (grant : Grant) : M AuthState GrantResponse :=
  let! accessToken := createAccessToken config (id grant) in
  let! access := getAccessByGrant (id grant) in
  let! subjects := getSubjectsByGrant (id grant) in
  finalize (id grant) Issued ;;!
  ret (GrantBody (toOpenPaymentsGrant (authServerUrl config) grant (Some accessToken) access subjects)).

Definition pollGrantContinuation (continueId continueToken : string) : M AuthState GrantResponse :=
  let! grant := getByContinue continueId continueToken false in
  match grant with
  | None => throw (not_found GNAPErrorCode.InvalidRequest "grant not found")
  | Some grant =>
      let! now := date_now in
      if isGrantStillWaiting now grant
      then throw (bad_request GNAPErrorCode.TooFast ("polled grant faster than " ++ quoted "wait" ++ " period"))
      else if truthy (finishMethod grant)
      then throw (unauthorized GNAPErrorCode.RequestDenied "grant cannot be polled")
      else
      match state grant with
      | Pending | Processing =>
          updateLastContinuedAt (id grant) ;;!
          ret (ContinuationBody (continue_of (authServerUrl config) (Some (waitTimeSeconds config)) grant))
      | Approved =>
          if negb (isContinuableGrant grant)
          then throw (unauthorized GNAPErrorCode.RequestDenied "grant cannot be continued")
          else issue grant
      | Finalized => throw (unauthorized GNAPErrorCode.RequestDenied "grant cannot be continued")
      end
  end.

(** [headers['authorization']?.split('GNAP ')[1]] *)
Definition continue_token (authorization : option string) : string :=
  match authorization with
  | Some h => default "" (nth_error (split "GNAP " h) 1)
  | None => ""
  end.

Definition continueGrant (continueId : string) (authorization : option string) (body : ContinueBody)
  : M AuthState GrantResponse :=
  let continueToken := continue_token authorization in
  if negb (truthy continueId) || negb (truthy continueToken)
  then throw (unauthorized GNAPErrorCode.InvalidContinuation "missing continuation information")
  else
  match body with
  | NoBody => pollGrantContinuation continueId continueToken
  | Body interactRef =>
      if negb (truthy interactRef)
      then throw (unauthorized GNAPErrorCode.InvalidRequest "missing interaction reference")
      else
      let! interaction := getByRef (default "" interactRef) in
      let! now := date_now in
      match interaction with
      | None => throw (not_found GNAPErrorCode.InvalidContinuation "grant not found")
      | Some (_, grant) =>
          if negb (isContinuableGrant grant)
             || negb (isMatchingContinueRequest continueId continueToken grant)
          then throw (not_found GNAPErrorCode.InvalidContinuation "grant not found")
          else if isGrantStillWaiting now grant
          then throw (bad_request GNAPErrorCode.TooFast ("continued grant faster than " ++ quoted "wait" ++ " period"))
          else if negb (bool_decide (state grant = Approved))
          then throw (unauthorized GNAPErrorCode.RequestDenied "grant interaction not approved")
          else issue grant
      end
  end.

Definition revokeGrantRoute (continueId : string) (authorization tenantId : option string)
  : M AuthState Z :=
  let continueToken := continue_token authorization in
  if negb (truthy continueId) || negb (truthy continueToken)
  then throw (unauthorized GNAPErrorCode.InvalidRequest "invalid continuation information")
  else
  let! grant := getByContinue continueId continueToken false in
  match grant with
  | None => throw (not_found GNAPErrorCode.InvalidRequest "unknown grant")
  | Some grant =>
      let! revoked := revokeGrant (id grant) tenantId in
      if negb revoked then throw (not_found GNAPErrorCode.InvalidRequest "invalid grant") else ret 204
  end.

(** ** Interactions *)

Definition isInteractionExpired (now : Z) (interaction : Interaction) : bool :=
  (i_createdAt interaction + expiresIn interaction * 1000 <? now)%Z.

(** [crypto.timingSafeEqual], which throws on buffers of different lengths. *)
Definition timingSafeEqual (a b : string) : M AuthState bool :=
  if Nat.eqb (String.length a) (String.length b) then ret (bool_decide (a = b))
  else throw (JsError "RangeError" "Input buffers must have the same byte length").

(** [!secret || !timingSafeEqual(secret, tenant.idpSecret)] *)
Definition wrong_secret (secret : option string) (tenant : Tenant) : M AuthState bool :=
  match secret with
  | Some s =>
      if truthy s
      then let! same := timingSafeEqual s (default "" (idpSecret tenant)) in ret (negb same)
      else ret true
  | None => ret true
  end.

Definition getGrantDetails (interactId nonce : string) (secret : option string)
  : M AuthState GrantDetails :=
  let! found := getBySession interactId nonce in
  match found with
  | None => throw (not_found GNAPErrorCode.UnknownInteraction "unknown interaction")
  | Some (interaction, grant) =>
      if isRevokedGrant grant
      then throw (not_found GNAPErrorCode.UnknownInteraction "unknown interaction")
      else
      let! tenant := getTenant (tenantId grant) in
      match tenant with
      | None => throw (GNAPServerRouteError 500 GNAPErrorCode.InvalidRequest "internal server error")
      | Some tenant =>
          if negb (isTenantWithIdp tenant)
          then throw (GNAPServerRouteError 500 GNAPErrorCode.InvalidRequest "internal server error")
          else
          let! wrong := wrong_secret secret tenant in
          if wrong then throw (unauthorized GNAPErrorCode.InvalidRequest "invalid x-idp-secret")
          else
          let! access := getAccessByGrant (i_grantId interaction) in
          let! subjects := getSubjectsByGrant (i_grantId interaction) in
          ret {| gd_grantId := id grant; gd_access := map toOpenPaymentsAccess access;
                 gd_subject := match subjects with
                               | [] => None
                               | _ => Some (map toOpenPaymentsSubject subjects)
                               end;
                 gd_state := i_state interaction |}
      end
  end.

(** A redirect to the client with what went wrong. *)
Definition redirect_to_client (grant : Grant) (result message : string) : M AuthState InteractionResponse :=
  let! u := new_URL (default "" (finishUri grant)) in
  ret (Redirect (set_param "message" message (set_param "result" result u))).

(** The end of the [catch] of [startInteraction], after what was written to the session. *)
Definition start_failed (grant : Grant) (session : option string)
  : M AuthState (InteractionResponse * option string) :=
  if isFinishableGrant grant
  then let! r := redirect_to_client grant "request_denied" "internal server error" in ret (r, session)
  else throw internal_error.

(** The answer, and the nonce that is written to the session. *)
Definition startInteraction (interactId nonce clientName clientUri : string)
  : M AuthState (InteractionResponse * option string) :=
  let! found := getBySession interactId nonce in
  match found with
  | None => throw (bad_request GNAPErrorCode.UnknownInteraction "unknown interaction")
  | Some (interaction, grant) =>
      let isValidInteraction :=
        bool_decide (i_state interaction = InteractionState.Pending) && negb (isRevokedGrant grant) in
      if negb isValidInteraction && negb (isFinishableGrant grant)
      then throw (GNAPServerRouteError 403 GNAPErrorCode.InvalidInteraction "invalid interaction")
      else if negb isValidInteraction
      then let! r := redirect_to_client grant "invalid_interaction" "invalid interaction" in ret (r, None)
      else
      let! started := try_catch
        (let! ' (_, tenant) := transaction (markPending (id grant)) in
         if negb (isTenantWithIdp tenant) then throw_error "invalid interaction" else ret (Some tenant))
        (fun _ => ret None) in
      match started with
      | None => start_failed grant None
      | Some tenant =>
          let consentUrl := default "" (idpConsentUrl tenant) in
          let session := Some (i_nonce interaction) in
          if isUrl consentUrl
          then ret (Redirect (set_param "clientUri" clientUri (set_param "clientName" clientName
                 (set_param "nonce" (i_nonce interaction) (set_param "interactId" (i_id interaction)
                    {| href := consentUrl; searchParams := [] |})))), session)
          else start_failed grant session
      end
  end.

Definition handleInteractionChoice (interactId nonce choice : string) (secret : option string)
  : M AuthState Z :=
  let! found := getBySession interactId nonce in
  match found with
  | None => throw (not_found GNAPErrorCode.UnknownInteraction "unknown interaction")
  | Some (interaction, grant) =>
      let! tenant := getTenant (tenantId grant) in
      match tenant with
      | None => throw (not_found GNAPErrorCode.UnknownInteraction "unknown interaction")
      | Some tenant =>
          if negb (isTenantWithIdp tenant)
          then throw (not_found GNAPErrorCode.UnknownInteraction "unknown interaction")
          else
          let! wrong := wrong_secret secret tenant in
          if wrong then throw (unauthorized GNAPErrorCode.InvalidInteraction "invalid x-idp-secret")
          else if bool_decide (state grant = Finalized)
                  && negb (bool_decide (finalizationReason grant = Some Issued))
          then throw (unauthorized GNAPErrorCode.UserDenied "user denied interaction")
          else
          let! now := date_now in
          if negb (bool_decide (i_state interaction = InteractionState.Pending))
             || isInteractionExpired now interaction
          then throw (bad_request GNAPErrorCode.InvalidInteraction "invalid interaction")
          else if bool_decide (choice = "accept") then approve_interaction interactId ;;! ret 202
          else if bool_decide (choice = "reject") then deny interactId ;;! ret 202
          else throw (bad_request GNAPErrorCode.InvalidRequest "invalid interaction choice")
      end
  end.

Definition interaction_hash (interaction : Interaction) (grant : Grant) : string :=
  let grantRequestUrl := ensureTrailingSlash (authServerUrl config) ++ tenantId grant in
  sha256_base64 (default "null" (clientNonce grant) ++ newline ++ i_nonce interaction ++ newline
                 ++ ref interaction ++ newline ++ grantRequestUrl).

Definition handleFinishableGrant (interaction : Interaction) (grant : Grant)
  : M AuthState InteractionResponse :=
  let! u := new_URL (default "" (finishUri grant)) in
  match i_state interaction with
  | InteractionState.Approved =>
      approve_grant (i_grantId interaction) ;;!
      ret (Redirect (set_param "interact_ref" (ref interaction)
             (set_param "hash" (interaction_hash interaction grant) u)))
  | InteractionState.Denied =>
      finalize (id grant) Rejected ;;! ret (Redirect (set_param "result" "grant_rejected" u))
  | InteractionState.Pending => ret (Redirect (set_param "result" "grant_invalid" u))
  end.

Definition handleUnfinishableGrant (interaction : Interaction) (grant : Grant)
  : M AuthState InteractionResponse :=
  match i_state interaction with
  | InteractionState.Approved => approve_grant (id grant) ;;! ret (Status 202)
  | InteractionState.Denied => finalize (id grant) Rejected ;;! ret (Status 202)
  | InteractionState.Pending =>
      throw (unauthorized GNAPErrorCode.InvalidInteraction "interaction is not active")
  end.

Definition finishInteraction (interactId nonce : string) (sessionNonce : option string)
  : M AuthState InteractionResponse :=
  let! found := getBySession interactId nonce in
  match found with
  | None => throw (not_found GNAPErrorCode.UnknownInteraction "unknown interaction")
  | Some (interaction, grant) =>
      let! now := date_now in
      if isInteractionExpired now interaction && isFinishableGrant grant
      then redirect_to_client grant "invalid_interaction" "interaction expired"
      else if isInteractionExpired now interaction
      then throw (unauthorized GNAPErrorCode.InvalidInteraction "interaction expired")
      else if negb (bool_decide (sessionNonce = Some nonce))
      then throw (unauthorized GNAPErrorCode.InvalidRequest "invalid session")
      else if isRevokedGrant grant && isFinishableGrant grant
      then redirect_to_client grant "unknown_interaction" "unknown interaction"
      else if isRevokedGrant grant
      then throw (not_found GNAPErrorCode.UnknownInteraction "unknown interaction")
      else if isFinishableGrant grant then handleFinishableGrant interaction grant
      else handleUnfinishableGrant interaction grant
  end.

(** ** Tokens *)

Definition introspectToken (accessToken : string) (access : option (list AccessItem))
  : M AuthState TokenInfo :=
  let! tokenInfo := introspect accessToken access in ret (grantToTokenInfo tokenInfo).

(** What [tokenHttpsigMiddleware] looks up. *)
Definition managed_token (mid : string) : M AuthState AccessToken :=
  let! found := getByManagementId mid in
  match found with
  | None => throw (unauthorized GNAPErrorCode.InvalidClient "invalid access token")
  | Some (_, None) => throw internal_error
  | Some (t, Some _) => ret t
  end.

Definition revokeToken (mid : string) : M AuthState Z :=
  let! accessToken := managed_token mid in
  revoke (t_id accessToken) ;;! ret 204.

(** [error instanceof Error ? error.message : ...] *)
Definition rotation_error (e : exn) : string :=
  match e with
  | ThrownString _ => "Could not rotate token"
  | JsError _ m | PaymentMethodHandlerError m _ _ _ | GrantError _ m | GNAPServerRouteError _ _ m | OpenPaymentsServerRouteError _ m
  | UniqueViolationError m | ForeignKeyViolationError m => m
  | QuoteError _ _ => ""
  end.

(** The service's [rotate] does not take the transaction of its caller. *)
Definition rotateToken (mid : string) : M AuthState OpenPaymentsAccessToken :=
  let! accessToken := managed_token mid in
  let! ' (newToken, accessItems) :=
    try_catch
      (let! newToken := rotate config (t_id accessToken) in
       match newToken with
       | None => throw_error "invalid access token"
       | Some t => let! accessItems := getAccessByGrant (t_grantId t) in ret (t, accessItems)
       end)
      (fun e => throw (not_found GNAPErrorCode.InvalidRotation (rotation_error e))) in
  ret (toOpenPaymentsAccessToken (authServerUrl config) newToken accessItems).

(** ** Tenants *)

Definition createTenantRoute (body : Tenant) : M AuthState Z := createTenant body ;;! ret 204.

Definition updateTenantRoute (tid : string) (body : TenantUpdate) : M AuthState Z :=
  let! tenant := updateTenant tid body in
  match tenant with None => ret 404 | Some _ => ret 204 end.

(** [Date.parse] of the text is an argument. *)
Definition deleteTenantRoute (Date_parse : string -> option Z) (tid deletedAtString : string)
  : M AuthState Z :=
  match Date_parse deletedAtString with
  | None => ret 400
  | Some deletedAt =>
      let! deleted := deleteTenant tid deletedAt in
      if negb deleted then ret 404 else ret 204
  end.

(** ** The admin API *)

(** [revokeGrant] of [graphql/resolvers/grant.ts]: an operator may revoke any grant. *)
Definition adminRevokeGrant (grantId : string) (isOperator : bool) (tenant : string)
  : M AuthState string :=
  if truthy grantId then
    let! revoked := revokeGrant grantId (if isOperator then None else Some tenant) in
    if negb revoked then throw (JsError "GraphQLError" "Revoke grant was not successful") else ret grantId
  else throw (JsError "GraphQLError" "Grant id is not provided").
End AuthRoutes.
