(* ===== verification/AuthSpecs.v ===== *)
(** * AuthSpecs: what the requests of the authorization server do

    Every request has one of a few effects on the tables ([effect]); the routes of
    [AuthRoutes] are shown to have them, with the conditions under which they do. *)

From S2P Require Import Prelude Shared Service AuthAccess AuthServer AuthRoutes.
From S2P Require OpenPayments.
Import OpenPayments (when_given).

Local Open Scope Z_scope.
Local Open Scope ts_scope.

Section Specs.
Context {X : Type} `{Uuid} `{Random}.
Context (config : AuthConfig).
Context (isUrl : string -> bool).
Context (walletAddress_get : string -> M X (option string)).

Notation AuthState := (Svc AuthDb X).
Implicit Types (s : AuthState) (g : Grant) (i : Interaction) (t : AccessToken) (d : AuthDb).

Definition patched_grants (gid : string) (F : Grant -> Grant) d : AuthDb :=
  set_grants (update_where (fun g => bool_decide (id g = gid)) F (grants d)) d.

Definition patched_interactions (iid : string) (F : Interaction -> Interaction) d : AuthDb :=
  set_interactions (update_where (fun i => bool_decide (i_id i = iid)) F (interactions d)) d.

Definition with_token t d : AuthDb := set_accessTokens (accessTokens d ++ [t]) d.

(** A text that was drawn between two states, and an identifier that was. *)
Definition drawn_by (draw : nat -> string) s s' (x : string) : Prop :=
  exists n, (Service.fresh s <= n < Service.fresh s')%nat /\ x = draw n.

Notation drawn := (drawn_by v4).

Definition new_token s s' t : Prop := drawn s s' (t_id t) /\ drawn_by randomToken s s' (value t).

(** A new grant with what it asks for: nothing is asked that needs a consent if it
    needs no interaction. *)
Record new_grant s s' (skip : bool) g (acc : list Access) (subj : list Subject) : Prop := {
  ng_id : drawn s s' (id g);
  ng_state : state g = (if skip then Approved else Pending) /\ finalizationReason g = None;
  ng_accesses : forall a, a ∈ acc -> acc_grantId a = id g /\
    both_limits (toOpenPaymentsAccess a) = false /\
    (skip = true -> may_skip config (toOpenPaymentsAccess a) = true);
  ng_subjects : forall x, x ∈ subj -> s_grantId x = id g;
  ng_no_subjects : skip = true -> subj = []
}.

Definition with_new_grant g (acc : list Access) (subj : list Subject) d : AuthDb :=
  {| tenants := tenants d; grants := grants d ++ [g]; accesses := accesses d ++ acc;
     subjects := subjects d ++ subj; interactions := interactions d; accessTokens := accessTokens d |}.

(** What one request does to the tables. *)
Inductive effect s s' : Prop :=
| effect_none : db s' = db s -> effect s s'
| effect_tenants l : db s' = set_tenants l (db s) -> effect s s'
| effect_approved g acc subj t :
    new_grant s s' true g acc subj -> t_grantId t = id g -> new_token s s' t ->
    db s' = with_token t (with_new_grant g acc subj (db s)) -> effect s s'
| effect_pending g acc subj i :
    new_grant s s' false g acc subj -> i_grantId i = id g ->
    i_state i = InteractionState.Pending -> drawn s s' (i_id i) ->
    db s' = set_interactions (interactions (db s) ++ [i]) (with_new_grant g acc subj (db s)) ->
    effect s s'
| effect_touch g F :
    g ∈ grants (db s) -> (forall g, id (F g) = id g /\ state (F g) = state g /\
      finalizationReason (F g) = finalizationReason g) ->
    db s' = patched_grants (id g) F (db s) -> effect s s'
| effect_restart g i :
    g ∈ grants (db s) -> isRevokedGrant g = false -> i ∈ interactions (db s) -> i_grantId i = id g ->
    i_state i = InteractionState.Pending ->
    db s' = patched_grants (id g) (set_state Pending (now s)) (db s) -> effect s s'
| effect_grant_approved g i :
    g ∈ grants (db s) -> isRevokedGrant g = false -> i ∈ interactions (db s) -> i_grantId i = id g ->
    i_state i = InteractionState.Approved ->
    db s' = patched_grants (id g) (set_state Approved (now s)) (db s) -> effect s s'
| effect_grant_rejected g i :
    g ∈ grants (db s) -> isRevokedGrant g = false -> i ∈ interactions (db s) -> i_grantId i = id g ->
    i_state i = InteractionState.Denied ->
    db s' = patched_grants (id g) (set_finalized Rejected (now s)) (db s) -> effect s s'
| effect_issued g t :
    g ∈ grants (db s) -> state g = Approved -> t_grantId t = id g -> revokedAt t = None ->
    new_token s s' t ->
    db s' = patched_grants (id g) (set_finalized Issued (now s)) (with_token t (db s)) -> effect s s'
| effect_revoked g q :
    g ∈ grants (db s) -> q g = true -> (forall g', q g' = true -> id g' = id g) ->
    db s' = set_accessTokens
      (update_where (fun t => bool_decide (t_grantId t = id g)) (set_revokedAt (now s)) (accessTokens (db s)))
      (set_grants (update_where q (set_finalized Revoked (now s)) (grants (db s))) (db s)) ->
    effect s s'
| effect_decided i st :
    i ∈ interactions (db s) -> i_state i = InteractionState.Pending ->
    db s' = patched_interactions (i_id i) (set_interaction_state st (now s)) (db s) -> effect s s'
| effect_token_revoked q :
    db s' = set_accessTokens (update_where q (set_revokedAt (now s)) (accessTokens (db s))) (db s) ->
    effect s s'
| effect_rotated q t t' :
    t ∈ accessTokens (db s) -> revokedAt t = None -> q t = true ->
    t_grantId t' = t_grantId t -> revokedAt t' = None -> new_token s s' t' ->
    db s' = with_token t'
      (set_accessTokens (update_where q (set_revokedAt (now s)) (accessTokens (db s))) (db s)) ->
    effect s s'.

Definition calm s s' : Prop := now s' = now s /\ (Service.fresh s <= Service.fresh s')%nat.

Definition acts s s' : Prop := effect s s' /\ calm s s'.

Lemma calm_refl s : calm s s.
Proof. by split. Qed.

Lemma calm_trans s1 s2 s3 : calm s1 s2 -> calm s2 s3 -> calm s1 s3.
Proof. intros [? ?] [? ?]. split; [congruence|lia]. Qed.

Lemma acts_same s s' : db s' = db s -> calm s s' -> acts s s'.
Proof. intros Hdb Hc. split; [by apply effect_none|done]. Qed.

Lemma acts_refl s : acts s s.
Proof. by apply acts_same. Qed.
Hint Resolve calm_refl acts_refl : core.

(** A route that only reads, or throws before it writes. *)
Definition reads s s' : Prop := db s' = db s /\ calm s s'.

(** ** Creating *)

Lemma insert_accesses_spec gid requests s :
  wp (insert_accesses gid requests)
    (fun r s' => r = Ret tt /\ calm s s' /\
       exists acc, db s' = set_accesses (accesses (db s) ++ acc) (db s) /\
         map toOpenPaymentsAccess acc = requests /\ forall a, a ∈ acc -> acc_grantId a = gid) s.
Proof.
  revert s. induction requests as [|r l IH]; intros s; simpl.
  - apply wp_ret. split; [done|]. split; [done|]. exists []. rewrite app_nil_r.
    split; [by destruct (db s)|]. split; [done|]. intros a Ha. by apply elem_of_nil in Ha.
  - do 6 wp_step. eapply wp_mono; [apply IH|]. svc_simpl.
    intros ? s' (-> & [Hn Hf] & acc & Hdb & Hmap & Hid). simpl in Hn, Hf.
    split; [done|]. split; [split; [done|lia]|]. eexists (_ :: acc). split; [|split].
    + rewrite Hdb. unfold set_accesses. simpl. f_equal. by rewrite <- app_assoc.
    + simpl. rewrite Hmap. by destruct r.
    + intros a Ha. apply elem_of_cons in Ha as [->|Ha]; [done|by apply Hid].
Qed.

Lemma insert_subjects_spec gid requests s :
  wp (insert_subjects gid requests)
    (fun r s' => r = Ret tt /\ calm s s' /\
       exists subj, db s' = set_subjects (subjects (db s) ++ subj) (db s) /\
         (requests = [] -> subj = []) /\ forall x, x ∈ subj -> s_grantId x = gid) s.
Proof.
  revert s. induction requests as [|r l IH]; intros s; simpl.
  - apply wp_ret. split; [done|]. split; [done|]. exists []. rewrite app_nil_r.
    split; [by destruct (db s)|]. split; [done|]. intros a Ha. by apply elem_of_nil in Ha.
  - do 6 wp_step. eapply wp_mono; [apply IH|]. svc_simpl.
    intros ? s' (-> & [Hn Hf] & subj & Hdb & _ & Hid). simpl in Hn, Hf.
    split; [done|]. split; [split; [done|lia]|]. eexists (_ :: subj). split; [|split].
    + rewrite Hdb. unfold set_subjects. simpl. f_equal. by rewrite <- app_assoc.
    + done.
    + intros a Ha. apply elem_of_cons in Ha as [->|Ha]; [done|by apply Hid].
Qed.

Lemma createAccess_spec gid requests s :
  wp (createAccess gid requests)
    (fun r s' => calm s s' /\
       match r with
       | Ret _ => exists acc, db s' = set_accesses (accesses (db s) ++ acc) (db s) /\
           forall a, a ∈ acc -> acc_grantId a = gid /\ toOpenPaymentsAccess a ∈ requests /\
             both_limits (toOpenPaymentsAccess a) = false
       | Throw _ => True
       end) s.
Proof.
  unfold createAccess, validateLimits. wp_step. destruct (existsb both_limits requests) eqn:Hlim.
  { by wp_step. }
  wp_step. eapply wp_mono; [apply insert_accesses_spec|].
  intros ? s' (-> & Hc & acc & Hdb & Hmap & Hid). split; [done|]. exists acc. split; [done|].
  intros a Ha. split; [by apply Hid|].
  assert (toOpenPaymentsAccess a ∈ requests) as Hin.
  { rewrite <- Hmap. apply list_elem_of_In, in_map. by apply list_elem_of_In. }
  split; [done|]. apply not_true_iff_false. intros Hb.
  assert (existsb both_limits requests = true) as E; [|congruence].
  apply existsb_exists. eexists. split; [by apply list_elem_of_In|done].
Qed.

Lemma createSubject_spec gid requests s :
  wp (createSubject isUrl gid requests)
    (fun r s' => calm s s' /\
       match r with
       | Ret _ => exists subj, db s' = set_subjects (subjects (db s) ++ subj) (db s) /\
           (requests = [] -> subj = []) /\ forall x, x ∈ subj -> s_grantId x = gid
       | Throw _ => True
       end) s.
Proof.
  unfold createSubject. wp_step. eapply wp_mono.
  { apply (wp_mapM _ _ (fun s' => s' = s)); [done|]. intros x s' _ ->. unfold validateSubjectRequest.
    by destruct (negb (isUrl (sub_id x))); [|destruct (negb _)]. }
  intros [?|?] ? ->; [|done]. eapply wp_mono; [apply insert_subjects_spec|].
  intros ? s' (-> & Hc & subj & Hdb & Hs). eauto.
Qed.

(** A generated token is one more draw. *)
Lemma wp_generateToken Q s :
  Q (Ret (randomToken (Service.fresh s)))
    {| db := db s; now := now s; Service.fresh := S (Service.fresh s); ext := ext s |} ->
  wp (generateToken (X := X)) Q s.
Proof. done. Qed.

Lemma wp_generateNonce Q s :
  Q (Ret (randomNonce (Service.fresh s)))
    {| db := db s; now := now s; Service.fresh := S (Service.fresh s); ext := ext s |} ->
  wp (generateNonce (X := X)) Q s.
Proof. done. Qed.

Lemma insert_grant_spec request tenant st s :
  wp (insert_grant request tenant st)
    (fun r s' => calm s s' /\
       match r with
       | Ret g => drawn s s' (id g) /\ state g = st /\ finalizationReason g = None /\
           db s' = set_grants (grants (db s) ++ [g]) (db s)
       | Throw _ => True
       end) s.
Proof.
  unfold insert_grant. do 2 wp_step. wp_step. apply wp_generateToken. svc_simpl. wp_auto.
  - split; [split; svc_simpl; [done|lia]|]. split; [|done]. exists (S (S (Service.fresh s))).
    split; [svc_simpl; lia|done].
  - split; [|done]. split; svc_simpl; [done|lia].
Qed.

Lemma create_grant_spec request tenant s :
  wp (create_grant config isUrl request tenant)
    (fun r s' => calm s s' /\
       match r with
       | Ret g => exists acc subj skip, canSkipInteraction config request = Ret skip /\
           new_grant s s' skip g acc subj /\ db s' = with_new_grant g acc subj (db s)
       | Throw _ => True
       end) s.
Proof.
  unfold create_grant. wp_step. destruct (canSkipInteraction config request) as [skip|] eqn:Hskip.
  2:{ do 2 wp_step. done. }
  wp_step. eapply wp_mono; [apply insert_grant_spec|].
  intros [g|e] s1 [Hc1 Hg]; [|by wp_step]. destruct Hg as (Hid & Hst & Hfin & Hdb1).
  wp_step. eapply wp_mono with (P := fun r s2 => calm s1 s2 /\ match r with
    | Ret _ => exists acc, db s2 = set_accesses (accesses (db s1) ++ acc) (db s1) /\
        forall a, a ∈ acc -> acc_grantId a = id g /\ both_limits (toOpenPaymentsAccess a) = false /\
          toOpenPaymentsAccess a ∈ default [] (access_token request)
    | Throw _ => True end).
  { destruct (access_token request) as [l|].
    - eapply wp_mono; [apply createAccess_spec|]. intros [?|?] s2 [Hc2 H2]; [|done].
      split; [done|]. destruct H2 as (acc & E & Hacc). exists acc. split; [done|]. naive_solver.
    - wp_step. split; [done|]. exists []. rewrite app_nil_r. split; [by destruct (db s1)|].
      intros a Ha. by apply elem_of_nil in Ha. }
  intros [?|?] s2 [Hc2 H2]; [|wp_step; split; [by eapply calm_trans|done]].
  destruct H2 as (acc & Hdb2 & Hacc).
  wp_step. eapply wp_mono with (P := fun r s3 => calm s2 s3 /\ match r with
    | Ret _ => exists subj, db s3 = set_subjects (subjects (db s2) ++ subj) (db s2) /\
        (default [] (subject request) = [] -> subj = []) /\ forall x, x ∈ subj -> s_grantId x = id g
    | Throw _ => True end).
  { destruct (subject request) as [l|]; [apply createSubject_spec|].
    wp_step. split; [done|]. exists []. rewrite app_nil_r. split; [by destruct (db s2)|].
    split; [done|]. intros x Hx. by apply elem_of_nil in Hx. }
  intros [?|?] s3 [Hc3 H3]; [|wp_step; split; [by eauto using calm_trans|done]].
  destruct H3 as (subj & Hdb3 & Hnil & Hsubj). wp_step. split; [by eauto using calm_trans|].
  exists acc, subj, skip. split; [done|]. split.
  - split.
    + destruct Hid as (n & Hn & ->). exists n. split; [|done].
      destruct Hc2 as [_ ?], Hc3 as [_ ?]. lia.
    + done.
    + intros b Hb. destruct (Hacc b Hb) as (? & ? & Hin). split; [done|]. split; [done|]. intros ->.
      destruct (can_skip_exempt _ _ Hskip) as (_ & l & E & _ & Hall). apply Hall. by rewrite E in Hin.
    + done.
    + intros ->. by apply Hnil, (can_skip_exempt config).
  - rewrite Hdb3, Hdb2, Hdb1. done.
Qed.

(** ** Effects with reads around them *)

Lemma drawn_mono draw s0 s s1 s2 x :
  calm s0 s -> calm s1 s2 -> drawn_by draw s s1 x -> drawn_by draw s0 s2 x.
Proof. intros [_ ?] [_ ?] (n & ? & ->). exists n. split; [lia|done]. Qed.

Lemma new_token_mono s0 s s1 s2 t : calm s0 s -> calm s1 s2 -> new_token s s1 t -> new_token s0 s2 t.
Proof. intros ? ? [? ?]. split; by eapply (drawn_mono _ s0 s s1 s2). Qed.

Lemma new_grant_mono s0 s s1 s2 skip g acc subj :
  calm s0 s -> calm s1 s2 -> new_grant s s1 skip g acc subj -> new_grant s0 s2 skip g acc subj.
Proof. intros ? ? [? ? ? ? ?]. split; eauto using drawn_mono. Qed.

Lemma acts_mono s0 s s1 s2 : reads s0 s -> acts s s1 -> reads s1 s2 -> acts s0 s2.
Proof.
  intros [E0 Hc0] [He Hc1] [E2 H2]. split; [|eauto using calm_trans].
  pose proof Hc0 as [En _]. destruct He; rewrite <- ?E2, ?E0, ?En in *.
  - by apply effect_none.
  - by eapply effect_tenants.
  - by eapply effect_approved; eauto using new_grant_mono, new_token_mono.
  - by eapply effect_pending; eauto using new_grant_mono, drawn_mono.
  - by eapply effect_touch.
  - by eapply effect_restart.
  - by eapply effect_grant_approved.
  - by eapply effect_grant_rejected.
  - by eapply effect_issued; eauto using new_token_mono.
  - by eapply effect_revoked.
  - by eapply effect_decided.
  - by eapply effect_token_revoked.
  - by eapply (effect_rotated _ _ q t t'); eauto using new_token_mono.
Qed.

Lemma reads_refl s : reads s s.
Proof. by split. Qed.

Lemma auth_acts_reads s s1 s2 : acts s s1 -> reads s1 s2 -> acts s s2.
Proof. intros ? ?. eapply acts_mono; eauto using reads_refl. Qed.

Lemma auth_reads_acts s s1 s2 : reads s s1 -> acts s1 s2 -> acts s s2.
Proof. intros ? ?. eapply acts_mono; eauto using reads_refl. Qed.

Lemma reads_act s s' : reads s s' -> acts s s'.
Proof. intros []. by apply acts_same. Qed.

Lemma reads_trans s1 s2 s3 : reads s1 s2 -> reads s2 s3 -> reads s1 s3.
Proof. intros [? ?] [? ?]. split; [congruence|by eapply calm_trans]. Qed.

(** A transaction that throws leaves the tables as they were. *)
Lemma transaction_acts {A} (m : M AuthState A) (P : A -> AuthState -> Prop) s :
  wp m (fun r s' => calm s s' /\ match r with Ret a => effect s s' /\ P a s' | Throw _ => True end) s ->
  wp (transaction m)
    (fun r s' => match r with Ret a => acts s s' /\ P a s' | Throw _ => reads s s' end) s.
Proof.
  intros Hm. apply wp_transaction. eapply wp_mono; [exact Hm|].
  intros [a|e] s' [Hc HP]; [by destruct HP|]. split; [done|]. by destruct Hc.
Qed.

(** ** Requesting a grant *)

Lemma createAccessToken_spec gid s :
  wp (createAccessToken config gid)
    (fun r s' => calm s s' /\
       match r with
       | Ret t => t_grantId t = gid /\ revokedAt t = None /\ t_createdAt t = now s /\
           t_expiresIn t = accessTokenExpirySeconds config /\
           new_token s s' t /\ value t = randomToken (Service.fresh s) /\
           (exists g, find_grant gid (db s) = Some g) /\ db s' = with_token t (db s)
       | Throw _ => db s' = db s /\ find_grant gid (db s) = None
       end) s.
Proof.
  unfold createAccessToken. wp_step. apply wp_generateToken. svc_simpl. wp_auto.
  - split; [split; svc_simpl; [done|lia]|]. simpl. split_and!; try done.
    + split; [exists (S (S (Service.fresh s)))|exists (Service.fresh s)]; (split; [svc_simpl; lia|done]).
    + eauto.
  - split; [|done]. split; svc_simpl; [done|lia].
Qed.

Lemma createApprovedGrant_spec tenant body s :
  canSkipInteraction config body = Ret true ->
  wp (createApprovedGrant config isUrl tenant body) (fun _ s' => acts s s') s.
Proof.
  intros Hskip. unfold createApprovedGrant. wp_step. wp_step.
  eapply wp_mono; [apply (transaction_acts _ (fun _ _ => True))|].
  { wp_step. eapply wp_mono; [apply create_grant_spec|]. intros [g|e] s1 [Hc1 H1]; [|done].
    destruct H1 as (acc & subj & skip & E & Hnew & Hdb1). simplify_eq. rewrite Hskip in E. simplify_eq.
    wp_step. eapply wp_mono; [apply createAccessToken_spec|].
    intros [t|e] s2 [Hc2 H2]; [|split; [by eapply calm_trans|done]].
    destruct H2 as (Hg & _ & _ & _ & Hid & _ & _ & Hdb2). wp_step.
    split; [by eapply calm_trans|]. split; [|done].
    eapply effect_approved; [by eapply (new_grant_mono s s s1 s2)|done|by eapply (new_token_mono s s1 s2 s2)|]. by rewrite Hdb2, Hdb1. }
  intros [[g t]|e] s1 H1; [|wp_step; by apply reads_act].
  destruct H1 as [H1 _]. unfold getAccessByGrant. by wp_auto.
Qed.

Lemma getClient_spec c s : wp (getClient walletAddress_get c) (fun _ s' => reads s s') s.
Proof. unfold getClient. wp_auto; by split. Qed.

Lemma create_interaction_spec gid s :
  wp (create_interaction config gid)
    (fun r s' => calm s s' /\
       match r with
       | Ret i => i_grantId i = gid /\ i_state i = InteractionState.Pending /\ drawn s s' (i_id i) /\
           db s' = set_interactions (interactions (db s) ++ [i]) (db s)
       | Throw _ => db s' = db s
       end) s.
Proof.
  unfold create_interaction. do 2 wp_step. wp_step. apply wp_generateNonce. svc_simpl. wp_auto.
  - split; [split; svc_simpl; [done|lia]|]. split_and!; try done.
    exists (S (S (Service.fresh s))). split; [svc_simpl; lia|done].
  - split; [|done]. split; svc_simpl; [done|lia].
Qed.

Lemma createPendingGrant_spec tenant body s :
  canSkipInteraction config body = Ret false ->
  wp (createPendingGrant config isUrl walletAddress_get tenant body) (fun _ s' => acts s s') s.
Proof.
  intros Hskip. unfold createPendingGrant. wp_step; [|by wp_step]. wp_step; [by wp_step|].
  wp_step. eapply wp_mono; [apply getClient_spec|]. intros [cl|e] s0 Hr0; [|by apply reads_act].
  wp_step; [|wp_step; by apply reads_act]. wp_step. wp_step.
  eapply wp_mono; [apply (transaction_acts _ (fun _ _ => True))|].
  { wp_step. eapply wp_mono; [apply create_grant_spec|]. intros [g|e] s1 [Hc1 H1]; [|done].
    destruct H1 as (acc & subj & skip & E & Hnew & Hdb1). rewrite Hskip in E. simplify_eq.
    wp_step. eapply wp_mono; [apply create_interaction_spec|].
    intros [j|e] s2 [Hc2 H2]; [|split; [by eapply calm_trans|done]].
    destruct H2 as (Hg & Hst & Hid & Hdb2). wp_step.
    split; [by eapply calm_trans|]. split; [|done].
    eapply effect_pending; [by eapply (new_grant_mono s0 s0 s1 s2)|done|done| |].
    - by eapply (drawn_mono v4 s0 s1 s2 s2).
    - by rewrite Hdb2, Hdb1. }
  intros [[g i']|e] s1 H1; wp_step.
  - destruct H1. by eapply auth_reads_acts.
  - by apply reads_act; eapply reads_trans.
Qed.

Lemma createGrant_spec tenant body s :
  wp (createGrant config isUrl walletAddress_get tenant body) (fun _ s' => acts s s') s.
Proof.
  unfold createGrant. wp_step.
  eapply wp_mono with (P := fun r s' => s' = s).
  { unfold getTenant. by wp_auto. }
  intros [[t|]|e] ? ->; [|by wp_step|done].
  destruct (canSkipInteraction config body) as [[]|[]] eqn:Hskip; try (by wp_step).
  - by apply createApprovedGrant_spec.
  - by apply createPendingGrant_spec.
Qed.

(** ** Continuing and revoking a grant *)

Lemma find_grant_spec gid d g : find_grant gid d = Some g -> g ∈ grants d /\ id g = gid.
Proof. intros [Hin Hq]%find_where_Some. by zbool. Qed.

(** What a lookup of an interaction with its grant finds. *)
Lemma with_grant_spec q d i g :
  with_grant (find_where q (interactions d)) d = Some (i, g) ->
  i ∈ interactions d /\ q i = true /\ g ∈ grants d /\ i_grantId i = id g.
Proof.
  unfold with_grant. destruct (find_where _ _) as [i'|] eqn:E; [|done].
  destruct (find_grant _ _) as [g'|] eqn:Eg; [|done]. intros [= -> ->].
  apply find_where_Some in E as []. by apply find_grant_spec in Eg as [? ->].
Qed.

Lemma not_revoked_of_state g : state g = Approved -> isRevokedGrant g = false.
Proof. unfold isRevokedGrant. by intros ->. Qed.

Lemma issue_spec g s :
  g ∈ grants (db s) -> state g = Approved -> wp (issue config g) (fun _ s' => acts s s') s.
Proof.
  intros Hg Hst. unfold issue. wp_step. eapply wp_mono; [apply createAccessToken_spec|].
  intros [t|e] s1 [Hc1 H1]; [|destruct H1; by apply acts_same].
  destruct H1 as (Ht & Hrev & _ & _ & Hid & _ & _ & Hdb1).
  unfold getAccessByGrant, getSubjectsByGrant, finalize, patch_grant. wp_auto.
  split; [|done]. eapply effect_issued; [exact Hg|done|done|done|exact Hid|]. svc_simpl.
  destruct Hc1 as [-> _]. by rewrite Hdb1.
Qed.

Lemma getByContinue_spec cid token s :
  wp (getByContinue cid token false)
    (fun r s' => s' = s /\ match r with
       | Ret (Some g) => g ∈ grants (db s) /\ continueId g = cid /\ continueToken g = token /\
           finalizationReason g <> Some Revoked
       | Ret None => True
       | Throw _ => False
       end) s.
Proof.
  unfold getByContinue. wp_step. split; [done|]. destruct (find_where _ _) as [g|] eqn:E; [|done].
  apply find_where_Some in E as [Hin Hq]. simpl in Hq. by zbool.
Qed.

Lemma pollGrant_spec cid token s :
  wp (pollGrantContinuation config cid token) (fun _ s' => acts s s') s.
Proof.
  unfold pollGrantContinuation. wp_step. eapply wp_mono; [apply getByContinue_spec|].
  intros [[g|]|e] ? [-> Hg]; [|by wp_step|done]. destruct Hg as (Hin & _).
  assert (acts s (set_db (patched_grants (id g) (set_continued (now s)) (db s)) s)) as Htouch.
  { split; [|done]. eapply effect_touch; [exact Hin| |done]. done. }
  do 2 wp_step. wp_step; [by wp_step|]. wp_step; [by wp_step|]. destruct (state g) eqn:Hst.
  1,2: unfold updateLastContinuedAt, patch_grant; by wp_auto.
  - wp_step; [by wp_step|]. by apply issue_spec.
  - by wp_step.
Qed.

Lemma continueGrant_spec cid authorization body s :
  wp (continueGrant config cid authorization body) (fun _ s' => acts s s') s.
Proof.
  unfold continueGrant. wp_step; [by wp_step|]. destruct body as [|r]; [apply pollGrant_spec|].
  wp_step; [by wp_step|]. unfold getByRef. do 4 wp_step.
  destruct (with_grant _ _) as [[i g]|] eqn:E; [|by wp_step].
  apply with_grant_spec in E as (_ & _ & Hin & _).
  wp_step; [by wp_step|]. wp_step; [by wp_step|]. wp_step; [by wp_step|]. zbool. by apply issue_spec.
Qed.

Lemma revokeGrant_spec gid tenant s : wp (revokeGrant gid tenant) (fun _ s' => acts s s') s.
Proof.
  unfold revokeGrant. eapply wp_mono; [apply (transaction_acts _ (fun _ _ => True))|].
  { unfold revokeByGrantId. do 2 wp_step. cbv zeta. do 2 wp_step. destruct (find_where _ _) as [g|] eqn:E; wp_auto.
    - split; [done|]. split; [|done]. apply find_where_Some in E as [Hin Hq].
      apply (effect_revoked _ _ g
        (fun g => bool_decide (id g = gid) && when_given tenant (Some (tenantId g)))%bool);
        [done|exact Hq| |done].
      apply andb_true_iff in Hq as [Hq _]. zbool. subst gid.
      intros g' Hq'. apply andb_true_iff in Hq' as [Hq' _]. by zbool.
    - split; [done|]. split; [by apply effect_none|done]. }
  intros [b|e] s' H1; [by destruct H1|by apply reads_act].
Qed.

Lemma revokeGrantRoute_spec cid authorization tenant s :
  wp (revokeGrantRoute cid authorization tenant) (fun _ s' => acts s s') s.
Proof.
  unfold revokeGrantRoute. wp_step; [by wp_step|]. wp_step.
  eapply wp_mono; [apply getByContinue_spec|]. intros [[g|]|e] ? [-> Hg]; [|by wp_step|done].
  wp_step. eapply wp_mono; [apply revokeGrant_spec|]. intros [b|e] s' Ha; [|done]. by wp_auto.
Qed.

Lemma adminRevokeGrant_spec gid isOperator tenant s :
  wp (adminRevokeGrant gid isOperator tenant) (fun _ s' => acts s s') s.
Proof.
  unfold adminRevokeGrant. wp_step; [|by wp_step]. wp_step.
  eapply wp_mono; [apply revokeGrant_spec|]. intros [b|e] s' Ha; [|done]. by wp_auto.
Qed.

(** ** Interactions *)

Lemma redirect_to_client_spec g result message s :
  wp (redirect_to_client isUrl (X := X) g result message) (fun _ s' => s' = s) s.
Proof. unfold redirect_to_client, new_URL. by wp_auto. Qed.

(** The secret of the tenant's identity provider is known to who calls. *)
Lemma wrong_secret_spec secret tenant s :
  wp (wrong_secret (X := X) secret tenant)
    (fun r s' => s' = s /\
       match r with
       | Ret false => exists v, secret = Some v /\ v <> ""%string /\ default ""%string (idpSecret tenant) = v
       | _ => True
       end) s.
Proof.
  unfold wrong_secret, timingSafeEqual. destruct secret as [v|]; [|by wp_step].
  wp_step; [|by wp_step]. wp_auto; [|done]. split; [done|]. destruct (negb _) eqn:E; [done|]. zbool.
  exists v. split; [done|]. split; [by apply truthy_Some_string|done].
Qed.

Lemma getBySession_found iid n s :
  wp (getBySession iid n)
    (fun r s' => s' = s /\ match r with
       | Ret (Some (i, g)) => i ∈ interactions (db s) /\ i_id i = iid /\ i_nonce i = n /\
           g ∈ grants (db s) /\ i_grantId i = id g
       | Ret None => True
       | Throw _ => False
       end) s.
Proof.
  unfold getBySession. wp_step. split; [done|]. destruct (with_grant _ _) as [[i g]|] eqn:E; [|done].
  apply with_grant_spec in E as (Hi & Hq & Hg & Eg). by zbool.
Qed.

Lemma startInteraction_spec iid n cn cu s :
  wp (startInteraction isUrl iid n cn cu) (fun _ s' => acts s s') s.
Proof.
  unfold startInteraction. wp_step. eapply wp_mono; [apply getBySession_found|].
  intros [[[i g]|]|e] ? [-> Hf]; [|by wp_step|done]. destruct Hf as (Hi & Hid & _ & Hg & Eg).
  cbv zeta. destruct (bool_decide _ && _)%bool eqn:Hvalid; simpl.
  2:{ wp_step; [by wp_step|]. wp_step. eapply wp_mono; [apply redirect_to_client_spec|].
      intros [r|e] ? ->; by try wp_step. }
  zbool. wp_step. wp_step. wp_step. eapply wp_mono; [apply (transaction_acts _ (fun _ _ => True))|].
  { unfold markPending, patch_grant. wp_auto; try done.
    - split; [done|]. split; [|done]. by eapply (effect_restart _ _ g i). }
  assert (forall session s1, acts s s1 ->
    wp (start_failed isUrl g session) (fun _ s' => acts s s') s1) as Hfailed.
  { intros session s1 Ha. unfold start_failed. wp_step; [|by wp_step]. wp_step.
    eapply wp_mono; [apply redirect_to_client_spec|]. intros [r|e] ? ->; by try wp_step. }
  intros [[g' t]|e] s1 Ha.
  - destruct Ha as [Ha _]. wp_step; do 2 wp_step; [by apply Hfailed|by wp_step|by apply Hfailed].
  - wp_step. by apply Hfailed, reads_act.
Qed.

(** Where a choice was made: the interaction was pending and had not expired, and who
    made it knew its nonce and the secret of the identity provider. *)
Record chooses iid n secret s i : Prop := {
  ch_in : i ∈ interactions (db s);
  ch_id : i_id i = iid;
  ch_nonce : i_nonce i = n;
  ch_pending : i_state i = InteractionState.Pending;
  ch_active : isInteractionExpired (now s) i = false;
  ch_secret : exists g tenant v, g ∈ grants (db s) /\ id g = i_grantId i /\
    tenant ∈ tenants (db s) /\ tn_id tenant = tenantId g /\ deletedAt tenant = None /\
    secret = Some v /\ idpSecret tenant = Some v
}.

Lemma getTenant_spec tid s :
  wp (getTenant (X := X) tid) (fun r s' => s' = s /\ match r with
    | Ret (Some t) => t ∈ tenants (db s) /\ tn_id t = tid /\ deletedAt t = None
    | Ret None => True
    | Throw _ => False
    end) s.
Proof.
  unfold getTenant. wp_step. split; [done|]. destruct (find_where _ _) as [t|] eqn:E; [|done].
  apply find_where_Some in E as [Hin Hq]. unfold active_tenant in Hq. zbool.
  split; [done|]. split; [done|]. by destruct (deletedAt t).
Qed.

Lemma handleInteractionChoice_spec iid n choice secret s :
  wp (handleInteractionChoice iid n choice secret)
    (fun r s' => now s' = now s /\ Service.fresh s' = Service.fresh s /\
       match r with
       | Ret _ => exists i st, chooses iid n secret s i /\
           db s' = patched_interactions iid (set_interaction_state st (now s)) (db s) /\
           ((choice = "accept" /\ st = InteractionState.Approved) \/
            (choice = "reject" /\ st = InteractionState.Denied))
       | Throw _ => db s' = db s
       end) s.
Proof.
  unfold handleInteractionChoice. wp_step. eapply wp_mono; [apply getBySession_found|].
  intros [[[i g]|]|e] ? [-> Hf]; [|by wp_step|done]. destruct Hf as (Hi & Hid & Hn & Hg & Eg).
  wp_step. eapply wp_mono; [apply getTenant_spec|].
  intros [[tenant|]|e] ? [-> Ht]; [|by wp_step|done]. destruct Ht as (Ht & Etn & Hdel).
  wp_step; [by wp_step|]. wp_step. eapply wp_mono; [apply wrong_secret_spec|].
  intros [[]|e] ? [-> Hs]; [by wp_step| |done]. destruct Hs as (v & -> & Hv & Eidp).
  wp_step; [by wp_step|]. do 2 wp_step. wp_step; [by wp_step|]. zbool.
  assert (chooses iid n (Some v) s i) as Hch.
  { split; try done. exists g, tenant, v. split_and!; try done.
    destruct (idpSecret tenant); simpl in *; congruence. }
  unfold approve_interaction, deny, patch_interaction. wp_auto; try done.
  all: svc_simpl; split; [done|]; split; [done|]; eexists i, _; split; [done|]; split; [done|].
  all: zbool; auto.
Qed.

Lemma choice_acts iid n choice secret s :
  wp (handleInteractionChoice iid n choice secret) (fun _ s' => acts s s') s.
Proof.
  eapply wp_mono; [apply handleInteractionChoice_spec|]. intros [z|e] s' (Hn & Hf & HP).
  - destruct HP as (i & st & [Hi <- _ Hp _ _] & Hdb & _). split; [by eapply effect_decided|].
    split; [done|lia].
  - apply acts_same; [done|]. split; [done|lia].
Qed.

Lemma finishInteraction_spec sha256_base64 iid n session s :
  wp (finishInteraction config isUrl sha256_base64 iid n session) (fun _ s' => acts s s') s.
Proof.
  unfold finishInteraction. wp_step. eapply wp_mono; [apply getBySession_found|].
  intros [[[i g]|]|e] ? [-> Hf]; [|by wp_step|done]. destruct Hf as (Hi & _ & _ & Hg & Eg).
  do 2 wp_step. wp_step.
  { eapply wp_mono; [apply redirect_to_client_spec|]. by intros [] ? ->. }
  wp_step; [by wp_step|]. wp_step; [by wp_step|]. wp_step.
  { eapply wp_mono; [apply redirect_to_client_spec|]. by intros [] ? ->. }
  wp_step; [by wp_step|].
  assert (i_state i = InteractionState.Approved ->
    acts s (set_db (patched_grants (id g) (set_state Approved (now s)) (db s)) s)) as Happrove.
  { intros Hst. split; [|done]. by eapply (effect_grant_approved _ _ g i). }
  assert (i_state i = InteractionState.Denied ->
    acts s (set_db (patched_grants (id g) (set_finalized Rejected (now s)) (db s)) s)) as Hreject.
  { intros Hst. split; [|done]. by eapply (effect_grant_rejected _ _ g i). }
  unfold handleFinishableGrant, handleUnfinishableGrant, new_URL, approve_grant, finalize, patch_grant.
  rewrite Eg. wp_auto; auto.
Qed.

(** ** Tokens and tenants *)

Lemma introspectToken_spec v access s :
  wp (introspectToken (X := X) v access) (fun _ s' => s' = s) s.
Proof. unfold introspectToken, introspect. do 4 wp_step. by wp_step. Qed.

Definition unrevoked (tid : string) t : bool := bool_decide (t_id t = tid) && not_revoked t.

Lemma revoke_spec tid s :
  wp (revoke (X := X) tid)
    (fun r s' => now s' = now s /\ Service.fresh s' = Service.fresh s /\
       match r with
       | Ret (Some t') => exists t, t ∈ accessTokens (db s) /\ unrevoked tid t = true /\
           t' = set_revokedAt (now s) t /\
           db s' = set_accessTokens
             (update_where (unrevoked tid) (set_revokedAt (now s)) (accessTokens (db s))) (db s)
       | Ret None => db s' = db s /\ forall t, t ∈ accessTokens (db s) -> unrevoked tid t = false
       | Throw _ => False
       end) s.
Proof.
  unfold revoke. do 2 wp_step. cbv zeta. do 2 wp_step.
  destruct (find_where _ _) as [t|] eqn:E; wp_auto; (split; [done|]; split; [done|]).
  - apply find_where_Some in E as [Hin Hq]. by exists t.
  - split; [done|]. intros t. by apply find_where_None.
Qed.

Lemma managed_token_spec mid s :
  wp (managed_token (X := X) mid)
    (fun r s' => s' = s /\ match r with
       | Ret t => t ∈ accessTokens (db s) /\ managementId t = mid /\ revokedAt t = None /\
           exists g, find_grant (t_grantId t) (db s) = Some g
       | Throw _ =>
           (forall t, t ∈ accessTokens (db s) -> managementId t = mid -> revokedAt t <> None) \/
           exists t, t ∈ accessTokens (db s) /\ find_grant (t_grantId t) (db s) = None
       end) s.
Proof.
  unfold managed_token, getByManagementId. do 2 wp_step.
  destruct (find_where _ _) as [t|] eqn:E.
  - apply find_where_Some in E as [Hin Hq]. unfold not_revoked in Hq. zbool.
    assert (revokedAt t = None) by (by destruct (revokedAt t)).
    destruct (find_grant _ _) eqn:Eg; wp_step; eauto 7.
  - wp_step. split; [done|]. left. intros t Hin Hmid Hrev.
    pose proof (find_where_None _ _ t E Hin) as Hq. simpl in Hq. unfold not_revoked in Hq.
    rewrite Hrev, bool_decide_eq_true_2 in Hq; done.
Qed.

Lemma revokeToken_spec mid s : wp (revokeToken (X := X) mid) (fun _ s' => acts s s') s.
Proof.
  unfold revokeToken. wp_step. eapply wp_mono; [apply managed_token_spec|].
  intros [t|e] ? [-> _]; [|done]. wp_step. eapply wp_mono; [apply revoke_spec|].
  intros [[t'|]|e] s' (Hn & Hf & HP); [| |done]; wp_step.
  - destruct HP as (? & _ & _ & _ & Hdb). split; [by eapply effect_token_revoked|split; [done|lia]].
  - destruct HP. apply acts_same; [done|split; [done|lia]].
Qed.

(** A rotation of a live token succeeds: it revokes that token and issues one for the
    same grant. *)
Lemma rotateToken_spec mid s :
  NoDup (t_id <$> accessTokens (db s)) ->
  wp (rotateToken config mid)
    (fun r s' => calm s s' /\
       match r with
       | Ret new => exists t t', t ∈ accessTokens (db s) /\ managementId t = mid /\
           revokedAt t = None /\ t_grantId t' = t_grantId t /\ revokedAt t' = None /\
           t_createdAt t' = now s /\ t_expiresIn t' = accessTokenExpirySeconds config /\
           value t' = randomToken (Service.fresh s) /\ new_token s s' t' /\
           db s' = with_token t' (set_accessTokens
             (update_where (unrevoked (t_id t)) (set_revokedAt (now s)) (accessTokens (db s))) (db s)) /\
           new = toOpenPaymentsAccessToken (authServerUrl config) t' (access_of (t_grantId t) (db s))
       | Throw _ => db s' = db s /\
           ((forall t, t ∈ accessTokens (db s) -> managementId t = mid -> revokedAt t <> None) \/
            exists t, t ∈ accessTokens (db s) /\ find_grant (t_grantId t) (db s) = None)
       end) s.
Proof.
  intros Hnd. unfold rotateToken. wp_step. eapply wp_mono; [apply managed_token_spec|].
  intros [t|e] ? [-> Ht]; [|done]. destruct Ht as (Hin & Hmid & Hlive & g & Hg).
  assert (unrevoked (t_id t) t = true) as Hun.
  { unfold unrevoked, not_revoked. rewrite Hlive. by rewrite bool_decide_eq_true_2. }
  wp_step. wp_step. wp_step. unfold rotate. wp_step.
  eapply wp_mono; [apply revoke_spec|]. intros [[tr|]|e] s1 (Hn1 & Hf1 & HP); [| |done].
  2:{ destruct HP as [_ Hno]. by rewrite (Hno t Hin) in Hun. }
  destruct HP as (t0 & Hin0 & Hun0 & -> & Hdb1).
  assert (t0 = t) as ->.
  { apply (unique_key t_id _ t0 t Hnd Hin0 Hin). unfold unrevoked in Hun0. by zbool. }
  wp_step. eapply wp_mono; [apply createAccessToken_spec|]. intros [t'|e] s2 [[Hn2 Hf2] HP].
  2:{ destruct HP as [_ Hnone]. rewrite Hdb1 in Hnone. simpl in Hnone.
      change (find_grant (t_grantId t) (db s) = None) in Hnone. congruence. }
  destruct HP as (Ht' & Hrev' & Hcr & Hexp & Hid' & Hv & _ & Hdb2).
  unfold getAccessByGrant. wp_auto. split; [split; [congruence|lia]|]. exists t, t'.
  split; [done|]. split; [done|]. split; [done|]. split; [done|]. split; [done|].
  split; [congruence|]. split; [done|]. split; [congruence|]. split.
  { eapply (new_token_mono s s1 s2 s2); [by split; [|lia]|done|done]. }
  split; [by rewrite Hdb2, Hdb1|]. rewrite Hdb2, Hdb1. simpl in Ht'. by rewrite Ht'.
Qed.

Lemma rotate_acts mid s :
  NoDup (t_id <$> accessTokens (db s)) ->
  wp (rotateToken config mid) (fun _ s' => acts s s') s.
Proof.
  intros Hnd. eapply wp_mono; [by apply rotateToken_spec|]. intros [new|e] s' [Hc HP].
  - destruct HP as (t & t' & Hin & _ & Hlive & Hg & Hl' & _ & _ & _ & Hid & Hdb & _).
    split; [|done]. apply (effect_rotated _ _ (unrevoked (t_id t)) t t'); try done.
    unfold unrevoked, not_revoked. rewrite Hlive. by rewrite bool_decide_eq_true_2.
  - destruct HP. by apply acts_same.
Qed.

Lemma createTenant_spec tenant s : wp (createTenantRoute (X := X) tenant) (fun _ s' => acts s s') s.
Proof.
  unfold createTenantRoute, createTenant. do 3 wp_step. wp_step; wp_auto; [done|].
  split; [by eapply effect_tenants|done].
Qed.

Lemma updateTenant_spec tid input s :
  wp (updateTenantRoute (X := X) tid input) (fun _ s' => acts s s') s.
Proof.
  unfold updateTenantRoute, updateTenant, getTenant. wp_auto; (split; [by eapply effect_tenants|done]).
Qed.

Lemma deleteTenant_spec parse tid ts s :
  wp (deleteTenantRoute (X := X) parse tid ts) (fun _ s' => acts s s') s.
Proof.
  unfold deleteTenantRoute, deleteTenant. destruct (parse ts); [|by wp_step].
  do 2 wp_step. eapply wp_mono; [apply getTenant_spec|].
  intros [[t|]|e] ? [-> _]; [|wp_auto; done|done]. wp_auto; (split; [by eapply effect_tenants|done]).
Qed.

Lemma operatorSecret_spec tid secret s :
  wp (updateOperatorApiSecretFromConfig (X := X) tid secret) (fun _ s' => acts s s') s.
Proof.
  unfold updateOperatorApiSecretFromConfig. wp_step. eapply wp_mono; [apply getTenant_spec|].
  intros [[t|]|e] ? [-> _]; [|by wp_step|done]. wp_auto; [|done].
  split; [by eapply effect_tenants|done].
Qed.

(** The rows after the revocation of a live token with a unique key. *)
Lemma rotated_rows s t t0 :
  NoDup (t_id <$> accessTokens (db s)) -> t ∈ accessTokens (db s) -> revokedAt t = None ->
  t0 ∈ update_where (unrevoked (t_id t)) (set_revokedAt (now s)) (accessTokens (db s)) <->
  t0 = set_revokedAt (now s) t \/ (t0 ∈ accessTokens (db s) /\ t0 <> t).
Proof.
  intros Hnd Ht Hlive.
  assert (forall t1, t1 ∈ accessTokens (db s) -> unrevoked (t_id t) t1 = true <-> t1 = t) as Hq.
  { intros t1 Hin. unfold unrevoked, not_revoked. rewrite andb_true_iff, bool_decide_eq_true. split.
    - intros [E _]. by apply (unique_key t_id _ _ _ Hnd Hin Ht).
    - intros ->. by rewrite Hlive. }
  rewrite update_where_elem. split.
  - intros (t1 & Hin & ->). destruct (unrevoked (t_id t) t1) eqn:E.
    + left. by rewrite (proj1 (Hq t1 Hin) E).
    + right. split; [done|]. intros ->. by rewrite (proj2 (Hq t Hin) eq_refl) in E.
  - intros [->|[Hin Hne]].
    + exists t. split; [done|]. by rewrite (proj2 (Hq t Ht) eq_refl).
    + exists t0. split; [done|]. destruct (unrevoked (t_id t) t0) eqn:E; [|done].
      by contradict Hne; apply Hq.
Qed.

Lemma introspectToken_total v access s :
  exists info, introspectToken (X := X) v access s = (Ret info, s).
Proof. eexists. reflexivity. Qed.

(** What an active answer to an introspection says. *)
Lemma introspect_active v access s gid items c :
  (introspectToken (X := X) v access s).1 = Ret (Active gid items c) ->
  exists t g, t ∈ accessTokens (db s) /\ value t = v /\ revokedAt t = None /\
    isTokenExpired (now s) t = false /\ g ∈ grants (db s) /\ id g = t_grantId t /\
    isRevokedGrant g = false /\ gid = id g /\ c = client g /\
    items = map toOpenPaymentsAccess
      match access with Some l => found_access l (access_of (id g) (db s)) | None => [] end.
Proof.
  unfold introspectToken, introspect, bind, date_now, db_get, gets. simpl.
  destruct (find_where _ _) as [t|] eqn:E; [|done].
  apply find_where_Some in E as [Ht Hq]. unfold not_revoked in Hq.
  destruct (isTokenExpired _ _) eqn:Hexp; [done|].
  destruct (find_grant _ _) as [g|] eqn:Eg; [|done]. apply find_grant_spec in Eg as [Hg Eid].
  destruct (isRevokedGrant g) eqn:Hr; [done|]. simpl. intros [= <- <- <-].
  exists t, g. zbool. split_and!; try done. by destruct (revokedAt t).
Qed.

(** The accesses found are accesses of the grant, each for one that was asked for, and
    nothing that could be given is left out. *)
Lemma found_access_spec requested given :
  (forall r, r ∈ requested -> ""%string ∉ actions r) ->
  (forall a, a ∈ found_access requested given ->
     a ∈ given /\ exists r, r ∈ requested /\ covers (toOpenPaymentsAccess a) r) /\
  (forall r a, r ∈ requested -> a ∈ given -> covers (toOpenPaymentsAccess a) r ->
     exists a', a' ∈ found_access requested given /\ covers (toOpenPaymentsAccess a') r).
Proof.
  induction requested as [|r l IH]; intros Hne; simpl.
  { split; [intros a Ha; by apply elem_of_nil in Ha|intros r a Hr; by apply elem_of_nil in Hr]. }
  destruct IH as [IH1 IH2]; [intros r' Hr'; apply Hne; by right|].
  pose proof (Hne r ltac:(by left)) as Hr. destruct (List.find _ given) as [b|] eqn:E.
  - apply List.find_some in E as [Hb%list_elem_of_In Hc%(compare_iff _ _ Hr)]. split.
    + intros a [->|Ha]%elem_of_cons; [split; [done|]; exists r; split; [left|done]|].
      destruct (IH1 a Ha) as (? & r' & ? & ?). split; [done|]. exists r'. split; [by right|done].
    + intros r' a [->|Hr']%elem_of_cons Ha Hcov; [exists b; split; [left|done]|].
      destruct (IH2 r' a Hr' Ha Hcov) as (a' & ? & ?). exists a'. split; [by right|done].
  - split.
    + intros a Ha. destruct (IH1 a Ha) as (? & r' & ? & ?). split; [done|]. exists r'. split; [by right|done].
    + intros r' a [->|Hr']%elem_of_cons Ha Hcov; [|by apply (IH2 r' a)].
      apply (compare_iff _ _ Hr) in Hcov. apply list_elem_of_In in Ha.
      pose proof (List.find_none _ _ E a Ha) as Hf. simpl in Hf. congruence.
Qed.
End Specs.
