(* ===== verification/TenantMirror.v ===== *)
(** * TenantMirror: the tenants of the two servers

    The backend keeps tenants ([Tenants]) and tells the authorization server of each, over
    the requests of [auth-service-client/client.ts], which [auth/src/tenant/routes.ts]
    answers ([AuthRoutes]).  This file puts the two together: what is asked of the client is
    what the routes do, a status that is not of success is thrown, and so is a request that
    did not reach the server or whose answer was lost, which the server may have carried
    out.  In every history a tenant of the backend is one of the authorization server, and one
    that the backend has deleted is deleted there; where no answer was lost and no secret
    was emptied, the two servers agree on the tenant. *)

From S2P Require Import Prelude Text Shared Service Cache Tenants TenantSpecs AuthAccess AuthServer AuthRoutes.

Local Open Scope Z_scope.
Local Open Scope ts_scope.

Section Mirror.
Context {Y : Type} `{Uuid} `{SettingValidators}.
(** [date.toISOString()] and [Date.parse]: they are inverse on dates. *)
Context (toISOString : Z -> string) (Date_parse : string -> option Z).
Context (parse_iso : forall t, Date_parse (toISOString t) = Some t).
Context (config : TenantConfig).

Notation Auth := (Svc AuthDb Y).
Notation State := (TenantState (X := Auth)).
Implicit Types (s : State) (x : Auth).

(** ** The client *)

(** What becomes of a [fetch]: the server is not reached, or its answer is lost (the
    connection breaks, the client gives up) after it did what was asked, or it answers. *)
Inductive Transport := Unreached (e : exn) | Lost (e : exn) | Answered.
Context (network : string -> string -> Auth -> Transport).
(** An answer with a body, which cannot be read or parsed. *)
Context (unreadable : Auth -> bool).

(** What a route throws is answered with 500. *)
Definition fetch (method path : string) (route : M Auth Z) : M Auth Z := fun x =>
  match network method path x with
  | Unreached e => (Throw e, x)
  | Lost e => let '(_, x') := route x in (Throw e, x')
  | Answered => try_catch route (fun _ => ret 500) x
  end.

Definition request (method path : string) (route : M Auth Z) : M Auth unit :=
  let! status := fetch method path route in
  if negb ((200 <=? status) && (status <? 300))
  then throw (JsError "AuthServiceClientError" ("Auth Service Client Error: " +:+ bigint_toString status))
  else if status =? 204 then ret tt
  else
  let! broken := gets unreadable in
  if broken : bool then throw (JsError "AuthServiceClientError" ("Failed to parse JSON response from " +:+ path))
  else ret tt.

Definition tenant_path (i : string) : string := "/tenant/" +:+ i.

Definition auth_row (data : AuthTenant) : AuthServer.Tenant :=
  {| tn_id := at_id data; AuthServer.apiSecret := at_apiSecret data;
     AuthServer.idpConsentUrl := at_idpConsentUrl data; AuthServer.idpSecret := at_idpSecret data;
     AuthServer.deletedAt := None |}.

Definition auth_update (data : AuthTenantUpdate) : TenantUpdate :=
  {| u_apiSecret := au_apiSecret data; u_idpConsentUrl := au_idpConsentUrl data;
     u_idpSecret := au_idpSecret data |}.

#[local] Instance auth_client : AuthServiceClient Auth := {
  tenant_create data := request "POST" "/tenant" (createTenantRoute (auth_row data));
  tenant_update i data := request "PATCH" (tenant_path i) (updateTenantRoute i (auth_update data));
  tenant_delete i deletedAt :=
    request "DELETE" (tenant_path i) (deleteTenantRoute Date_parse i (toISOString deletedAt))
}.

Notation auth_tenants x := (AuthServer.tenants (db x)).

(** The answers to the updates and to the deletion of a tenant are not lost. *)
Definition heard (i : string) : Prop := forall method x e, network method (tenant_path i) x <> Lost e.

(** A request returns when the route answers with success and that is heard. *)
Lemma wp_request method path (route : M Auth Z) (Q : outcome unit -> Auth -> Prop) x :
  (forall e, Q (Throw e) x) ->
  wp route (fun r x' =>
    (forall e, network method path x = Lost e -> Q (Throw e) x') /\
    match r with
    | Ret status => if (200 <=? status) && (status <? 300) then status = 204 /\ Q (Ret tt) x'
                    else forall e, Q (Throw e) x'
    | Throw _ => forall e, Q (Throw e) x'
    end) x ->
  wp (request method path route) Q x.
Proof.
  intros Hx Hr. unfold request, fetch. wp_step. unfold wp at 1. unfold wp in Hr.
  destruct (network method path x) as [e|e|] eqn:En; [apply Hx| |].
  - destruct (route x) as [r x']. by apply Hr.
  - unfold try_catch. destruct (route x) as [[status|e] x'] eqn:Eo; simpl in Hr |- *; destruct Hr as [_ Hr].
    + destruct ((200 <=? status) && (status <? 300)); simpl; [|apply Hr]. by destruct Hr as [-> HQ].
    + apply Hr.
Qed.

(** What the routes do to the tenants of the authorization server. *)
Lemma tenant_create_spec data x :
  wp (tenant_create data) (fun r x' =>
    let created := at_id data ∉ tn_id <$> auth_tenants x /\ auth_tenants x' = auth_tenants x ++ [auth_row data] in
    match r with Ret _ => created | Throw _ => auth_tenants x' = auth_tenants x \/ created end) x.
Proof.
  apply wp_request; [by left|]. unfold createTenantRoute, createTenant. do 3 wp_step.
  destruct (find_where _ _) as [a|] eqn:F; wp_auto; [split; by left|].
  assert (at_id data ∉ tn_id <$> auth_tenants x) as Hnew.
  { intros (a & Ea & Ha)%list_elem_of_fmap. eapply find_where_None in F; [|exact Ha].
    by rewrite bool_decide_eq_true_2 in F. }
  split; [by right|]. by split.
Qed.

(** Requests about a tenant fail when there is none that is active. *)
Lemma find_active_None i f (l : list AuthServer.Tenant) :
  find_where (active_tenant i) l = None -> update_where (active_tenant i) f l = l.
Proof. intros F. apply update_where_id. intros a. by apply find_where_None. Qed.

Lemma find_active_update i f (l : list AuthServer.Tenant) :
  (forall a, active_tenant i (f a) = active_tenant i a) ->
  is_some (find_where (active_tenant i) (update_where (active_tenant i) f l))
  = is_some (find_where (active_tenant i) l).
Proof.
  intros Hf. induction l as [|a l IH]; [done|]. rewrite update_where_cons. simpl.
  destruct (active_tenant i a) eqn:E; [by rewrite Hf, E|by rewrite E].
Qed.

Lemma tenant_update_spec i data x :
  wp (tenant_update i data) (fun r x' =>
    let told := auth_tenants x'
                = update_where (active_tenant i) (update_tenant (auth_update data)) (auth_tenants x) in
    match r with Ret _ => told | Throw _ => auth_tenants x' = auth_tenants x \/ (told /\ ~ heard i) end) x.
Proof.
  assert (forall e, network "PATCH" (tenant_path i) x = Lost e -> ~ heard i) as Hlost
    by (intros e E H'; by eapply H').
  apply wp_request; [by left|]. unfold updateTenantRoute, updateTenant, getTenant. do 4 wp_step. simpl.
  pose proof (find_active_update i (update_tenant (auth_update data)) (auth_tenants x) ltac:(done)) as Hsome.
  destruct (find_where _ (update_where _ _ _)) as [a|]; wp_auto; (split; [intros e E; right; split; [done|by eapply Hlost]|]).
  - done.
  - intros e. left. simpl. apply find_active_None. by destruct (find_where _ (auth_tenants x)).
Qed.

Lemma tenant_delete_spec i t x :
  wp (tenant_delete i t) (fun r x' =>
    let told := exists f, auth_tenants x' = update_where (active_tenant i) f (auth_tenants x) /\
                  (forall a, tn_id (f a) = tn_id a) /\ (forall a, deletedAt (f a) = Some t) in
    match r with Ret _ => told | Throw _ => auth_tenants x' = auth_tenants x \/ (told /\ ~ heard i) end) x.
Proof.
  assert (forall e, network "DELETE" (tenant_path i) x = Lost e -> ~ heard i) as Hlost
    by (intros e E H'; by eapply H').
  apply wp_request; [by left|]. unfold deleteTenantRoute, AuthServer.deleteTenant, getTenant. rewrite parse_iso.
  do 3 wp_step. destruct (find_where _ _) as [a|]; wp_auto; try discriminate; [|split; by left].
  split; [intros e E; right; split; [|by eapply Hlost]|split; [done|]];
    (eexists; split; [reflexivity|done]).
Qed.

(** ** The tenants of the two servers agree *)

(** The tenants that the authorization server is told of everything about. *)
Context (told : string -> Prop).
Context (told_heard : forall i, told i -> heard i).

(** [a] is the tenant [t] as the authorization server keeps it: deleted when it is; and if
    everything was told, deleted only when it is, with the secrets of the backend, but for
    the operator, whose secrets either server takes from its own configuration. *)
Definition mirrors (t : Tenants.Tenant) (a : AuthServer.Tenant) : Prop :=
  tn_id a = te_id t /\ (is_active t = false -> is_some (deletedAt a) = true) /\
  (told (te_id t) -> is_active t = true ->
   is_some (deletedAt a) = false /\
   (te_id t <> operatorTenantId config ->
    AuthServer.apiSecret a = te_apiSecret t /\ AuthServer.idpConsentUrl a = te_idpConsentUrl t /\
    AuthServer.idpSecret a = te_idpSecret t)).

(** What the authorization server does besides: its grants, which leave the tenants, and
    its start. *)
Definition auth_others x x' : Prop :=
  auth_tenants x' = auth_tenants x \/
  exists secret, x' = (AuthServer.updateOperatorApiSecretFromConfig (operatorTenantId config) secret x).2.

(** An update, of a tenant that everything is told about and that is not the operator,
    that gives a secret or a URL gives one that is not empty. *)
Definition tells_all (options : UpdateTenantOptions) : Prop :=
  told (ut_id options) -> ut_id options <> operatorTenantId config ->
  is_some (ut_idpConsentUrl options) || is_some (ut_idpSecret options) || is_some (ut_apiSecret options) = true ->
  tells options = true.

Definition is_mirrored (l : list Tenants.Tenant) (al : list AuthServer.Tenant) : Prop :=
  NoDup (tn_id <$> al) /\ forall t, t ∈ l -> exists a, a ∈ al /\ mirrors t a.

(** Rewriting a tenant on both sides. *)
Lemma mirrored_update i f g l al :
  is_mirrored l al ->
  (forall t, te_id (f t) = te_id t) -> (forall a, tn_id (g a) = tn_id a) ->
  (forall t a, t ∈ l -> te_id t = i -> mirrors t a ->
     mirrors (f t) (if active_tenant i a then g a else a)) ->
  is_mirrored (update_where (has_id i) f l) (update_where (active_tenant i) g al).
Proof.
  intros [Hnd Hm] Hf Hg Hfg. split; [by rewrite update_where_key|].
  intros t' (t & Ht & ->)%update_where_elem. destruct (Hm t Ht) as (a & Ha & Hma).
  exists (if active_tenant i a then g a else a). split; [apply update_where_elem; by exists a|].
  destruct (has_id i t) eqn:E; [by apply Hfg; [|apply has_id_true|]|].
  destruct (active_tenant i a) eqn:Ea; [|done]. unfold active_tenant in Ea. zbool.
  destruct Hma as [Hid _]. destruct (proj2 (not_true_iff_false _) E). apply has_id_true. congruence.
Qed.

(** One more tenant of the authorization server, and one more on both sides. *)
Lemma mirrored_auth_app l al a :
  is_mirrored l al -> tn_id a ∉ tn_id <$> al -> is_mirrored l (al ++ [a]).
Proof.
  intros [Hnd Hm] Hnew. split.
  - rewrite fmap_app. apply NoDup_app. split_and!; [done| |apply NoDup_singleton].
    by intros y Hy ->%list_elem_of_singleton.
  - intros t Ht. destruct (Hm t Ht) as (b & Hb & ?). exists b. split; [set_solver|done].
Qed.

Lemma mirrored_app l al t a :
  is_mirrored l al -> tn_id a ∉ tn_id <$> al -> mirrors t a -> is_mirrored (l ++ [t]) (al ++ [a]).
Proof.
  intros Hm Hnew Hma. destruct (mirrored_auth_app l al a Hm Hnew) as [Hnd Hm']. split; [done|].
  intros u [Hu| ->%list_elem_of_singleton]%elem_of_app; [by apply Hm'|]. exists a. split; [set_solver|done].
Qed.

Lemma mirror_active i t a :
  mirrors t a -> told i -> is_active t = true -> te_id t = i -> active_tenant i a = true.
Proof.
  intros (Hid & _ & Hs) Htold Ha Hi. subst i. destruct (Hs Htold Ha) as [Hd _].
  unfold active_tenant. rewrite Hd, andb_true_r. apply bool_decide_eq_true. congruence.
Qed.

(** The authorization server did what the backend was not told that it did. *)
Lemma mirrored_unheard i g l al :
  is_mirrored l al -> ~ heard i -> (forall a, tn_id (g a) = tn_id a) ->
  (forall a, is_some (deletedAt a) = true -> is_some (deletedAt (g a)) = true) ->
  is_mirrored l (update_where (active_tenant i) g al).
Proof.
  intros [Hnd Hm] Hno Hg Hd. split; [by rewrite update_where_key|].
  intros t Ht. destruct (Hm t Ht) as (a & Ha & Hid & Hdel & Hs).
  exists (if active_tenant i a then g a else a). split; [apply update_where_elem; by exists a|].
  destruct (active_tenant i a) eqn:E; [|by split_and!]. unfold active_tenant in E. zbool.
  split_and!; [by rewrite Hg|auto|]. intros Htold. destruct Hno. apply told_heard. congruence.
Qed.

(** What an operation does on both sides, composed from what [TenantSpecs] and the routes
    say. *)
Lemma mirrored_created options s r s' :
  is_mirrored (Tenants.tenants (db s)) (auth_tenants (ext s)) -> created options s r s' ->
  is_mirrored (Tenants.tenants (db s')) (auth_tenants (ext s')).
Proof.
  intros Hm Hr.
  assert (forall e, create_effect options s (Throw e) s' -> same_rows s s' ->
    is_mirrored (Tenants.tenants (db s')) (auth_tenants (ext s'))) as Hfail.
  { intros e Heff [-> _]. destruct Heff as [->|(i & Hi & ->)]; [done|].
    pose proof (tenant_create_spec (auth_data options i) (ext s)) as Hc. unfold wp in Hc.
    assert (at_id (auth_data options i) ∉ tn_id <$> auth_tenants (ext s) /\
      auth_tenants (tenant_create (auth_data options i) (ext s)).2
      = auth_tenants (ext s) ++ [auth_row (auth_data options i)] \/
      auth_tenants (tenant_create (auth_data options i) (ext s)).2 = auth_tenants (ext s)) as [[Hnew ->]| ->];
      [by destruct (tenant_create _ _).1; [left|destruct Hc; [right|left]]|by apply mirrored_auth_app|done]. }
  destruct r as [[t|e]|e]; simpl in Hr.
  - destruct Hr as (_ & -> & Hb & Hnew & _ & Hx).
    destruct (wp_run _ _ _ _ _ (tenant_create_spec _ _) Hx) as [Hnew' ->].
    apply mirrored_app; [done..|]. destruct Hb as (_ & _ & H1 & H2 & H3 & _ & Ha).
    split_and!; [done|by rewrite Ha|]. intros _ _. split; [done|]. by rewrite H1, H2, H3.
  - destruct Hr as (Hrows & Heff & _). by apply (Hfail (ThrownString "")).
  - destruct Hr as (Hrows & _ & Heff). by apply (Hfail e).
Qed.

Lemma mirrored_updated options s r s' :
  tells_all options -> tenants_inv s ->
  is_mirrored (Tenants.tenants (db s)) (auth_tenants (ext s)) -> updated options s r s' ->
  is_mirrored (Tenants.tenants (db s')) (auth_tenants (ext s')).
Proof.
  intros Hall Hinv Hm Hr. destruct r as [t'|e].
  - destruct Hr as (t & Ht & Hi & Ha & _ & -> & Hx).
    assert (forall u, u ∈ Tenants.tenants (db s) -> te_id u = ut_id options -> u = t) as Hone.
    { intros u Hu Eu. apply (unique_key te_id (Tenants.tenants (db s))); [apply Hinv|done..|congruence]. }
    destruct (tells options) eqn:Htell.
    + rewrite (wp_run _ _ _ _ _ (tenant_update_spec _ _ _) Hx).
      apply mirrored_update; [done..|]. intros u a Hu Eu Hma. rewrite (Hone u Hu Eu) in *.
      destruct Hma as (Hid & Hd & Hs) eqn:Em.
      split_and!; [by destruct (active_tenant _ a)|intros Hin; unfold is_active in *; simpl in Hin; congruence|].
      intros Htold Hact. simpl in Htold. rewrite (mirror_active (ut_id options) t a) by congruence.
      destruct (Hs Htold Ha) as [Hnd Hsec]. split; [done|]. intros Hop.
      destruct (Hsec Hop) as (E1 & E2 & E3). unfold patched_tenant, update_tenant. simpl. by rewrite E1, E2, E3.
    + rewrite Hx. destruct Hm as [Hnd Hm]. split; [done|].
      intros u' (u & Hu & ->)%update_where_elem. destruct (Hm u Hu) as (a & Hina & Hma).
      exists a. split; [done|]. destruct (has_id _ u) eqn:E; [|done]. apply has_id_true in E.
      destruct Hma as (Hid & Hd & Hs). split_and!; [done..|]. intros Htold Hact. simpl in Htold.
      destruct (Hs Htold Hact) as [Hnd' Hsec]. split; [done|]. intros Hop. simpl in Hop.
      destruct (Hsec Hop) as (E1 & E2 & E3). unfold patched_tenant. simpl. rewrite E in Hop, Htold.
      destruct (ut_apiSecret options) eqn:Ek, (ut_idpConsentUrl options) eqn:Eu, (ut_idpSecret options) eqn:Ei;
        try done; rewrite (Hall Htold Hop) in Htell; rewrite ?Ek, ?Eu, ?Ei; done.
  - destruct Hr as [-> [->|Hx]]; [done|].
    destruct (wp_run _ _ _ _ _ (tenant_update_spec _ _ _) Hx) as [->|[-> Hno]]; [done|].
    by apply mirrored_unheard.
Qed.

Lemma mirrored_deleted i s r s' :
  tenants_inv s -> is_mirrored (Tenants.tenants (db s)) (auth_tenants (ext s)) -> deleted i s r s' ->
  is_mirrored (Tenants.tenants (db s')) (auth_tenants (ext s')).
Proof.
  intros Hinv Hm Hr. destruct r as [[]|e]; destruct Hr as [-> Hx].
  - destruct (wp_run _ _ _ _ _ (tenant_delete_spec _ _ _) Hx) as (f & -> & Hf & Hd).
    apply mirrored_update; [done..|]. intros t a Ht Ei (Hid & Hdel & _).
    split_and!; [destruct (active_tenant i a); by rewrite ?Hf|intros _|by intros _ [=]].
    destruct (active_tenant i a) eqn:E; [by rewrite Hd|].
    unfold active_tenant in E. rewrite bool_decide_eq_true_2 in E by congruence. simpl in E.
    by apply negb_false_iff in E.
  - destruct (wp_run _ _ _ _ _ (tenant_delete_spec _ _ _) Hx) as [->|[(f & -> & Hf & Hd) Hno]]; [done|].
    apply mirrored_unheard; [done..|]. intros a _. by rewrite Hd.
Qed.

(** A change of the operator's row that keeps its identifier and whether it is deleted. *)
Lemma mirrored_operator_l f l al :
  is_mirrored l al -> (forall t, te_id (f t) = te_id t /\ te_deletedAt (f t) = te_deletedAt t) ->
  is_mirrored (update_where (has_id (operatorTenantId config)) f l) al.
Proof.
  intros [Hnd Hm] Hf. split; [done|]. intros t' (t & Ht & ->)%update_where_elem.
  destruct (Hm t Ht) as (a & Ha & Hma). exists a. split; [done|].
  destruct (has_id _ t) eqn:E; [|done]. apply has_id_true in E. destruct (Hf t) as [Hi Hd].
  destruct Hma as (Hid & Hdel & Hs). unfold mirrors, is_active in *. rewrite Hi, Hd. split_and!; [done..|].
  intros Htold Hact. destruct (Hs Htold Hact) as [Hn _]. by split.
Qed.

Lemma mirrored_others l x x' :
  is_mirrored l (auth_tenants x) -> auth_others x x' -> is_mirrored l (auth_tenants x').
Proof.
  intros Hm [->|[secret ->]]; [done|].
  eapply (wp_run (AuthServer.updateOperatorApiSecretFromConfig (operatorTenantId config) secret)
    (fun _ x' => is_mirrored l (auth_tenants x')) x); [|apply surjective_pairing].
  unfold AuthServer.updateOperatorApiSecretFromConfig, AuthServer.getTenant. do 2 wp_step.
  destruct (find_where _ _) as [b|] eqn:F; wp_auto; [|done..].
  apply find_where_Some in F as [Hb Hact]. unfold active_tenant in Hact. zbool. simpl.
  destruct Hm as [Hnd Hm]. split; [by rewrite update_where_key|]. intros t Ht.
  destruct (Hm t Ht) as (a & Ha & Hma). eexists. split; [apply update_where_elem; exists a; by split|].
  case_bool_decide as E; [|done]. destruct Hma as (Hid & Hdel & Hs). split_and!; [done..|].
  intros Htold Hact2. destruct (Hs Htold Hact2) as [Hn _]. split; [done|]. intros Hne. congruence.
Qed.

Notation tenant_step := (tenant_step config auth_others tells_all).

Lemma mirror_step s s' :
  tenant_step s s' -> tenants_inv s -> is_mirrored (Tenants.tenants (db s)) (auth_tenants (ext s)) ->
  is_mirrored (Tenants.tenants (db s')) (auth_tenants (ext s')).
Proof.
  intros [] Hinv Hm.
  - destruct (createTenant_result config options s0 Hinv) as (_ & _ & Hr). by eapply mirrored_created.
  - destruct (updateTenant_result config options s0 Hinv) as (_ & _ & Hr). by eapply mirrored_updated.
  - destruct (deleteTenant_result i s0 Hinv) as (_ & _ & Hr). by eapply mirrored_deleted.
  - destruct (getTenant_result config i includeDeleted s0 Hinv) as (_ & Ht & _ & Hx & _).
    by rewrite Ht, Hx.
  - destruct (updateOperatorApiSecretFromConfig_spec config s0 Hinv) as (_ & _ & Hx & [Ht|Ht]);
      rewrite Ht, Hx; [done|]. by apply mirrored_operator_l.
  - destruct (createTenantSetting_spec tid l s0 (inv_settings s0 Hinv)) as [(Ht & _ & _ & Hx) _].
    by rewrite Ht, Hx.
  - destruct (updateTenantSetting_spec tid k v s0 (inv_settings s0 Hinv)) as [(Ht & _ & _ & Hx) _].
    by rewrite Ht, Hx.
  - destruct (deleteTenantSetting_spec tid k d s0 (inv_settings s0 Hinv)) as (_ & (Ht & _ & _ & Hx) & _).
    by rewrite Ht, Hx.
  - by eapply mirrored_others.
Qed.

(** The migrations of both servers seed the operator. *)
Definition both_seeded s : Prop :=
  tenants_seeded config s /\
  exists a, auth_tenants (ext s) = [a] /\ tn_id a = operatorTenantId config /\ deletedAt a = None.

Lemma mirror_reachable s0 s :
  both_seeded s0 -> rtc tenant_step s0 s ->
  tenants_inv s /\ is_mirrored (Tenants.tenants (db s)) (auth_tenants (ext s)).
Proof.
  intros (Hseed & a & Ha & Hid & Hdel) Hs.
  assert (tenants_inv s0 /\ is_mirrored (Tenants.tenants (db s0)) (auth_tenants (ext s0))) as Hinv.
  { split; [by eapply (tenants_reachable config auth_others tells_all); [|apply rtc_refl]|].
    destruct Hseed as ((op & Ht & Hop & Hact) & _). rewrite Ht, Ha.
    split; [apply NoDup_singleton|]. intros t ->%list_elem_of_singleton. exists a.
    split; [by apply list_elem_of_singleton|]. split_and!; [congruence|congruence|].
    intros _ _. rewrite Hdel. split; [done|congruence]. }
  clear Hseed Ha Hid Hdel. induction Hs as [|s1 s2 s3 Hstep _ IH]; [done|].
  apply IH. destruct Hinv as [Hinv Hm]. split; [by eapply tenant_step_inv|by eapply mirror_step].
Qed.

(** C19. What the two servers agree on about a tenant.  In every history of the operations
    of the backend on tenants and settings and of the authorization server on anything else,
    in which requests between the two fail before or after they had their effect:

    - a tenant the backend serves is one the authorization server has, and a tenant the
      backend has deleted is not served by the authorization server; the lookup of the
      backend, which reads through its cache, does not fail;
    - if moreover no answer to an update or the deletion of the tenant is lost, and no
      update of it gives only empty secrets or URLs ([told] is any set of tenants for which
      that is so), then the authorization server serves it, with the
      same API secret, consent URL and identity provider secret unless it is the operator.

    Where an answer is lost the backend undoes its half, and the servers disagree
    ([TenantExamples.TenantsExample.lost_answer_disagrees]). *)
Theorem tenants_agree s0 s i :
  both_seeded s0 -> rtc tenant_step s0 s ->
  match (Tenants.getTenant config i false s).1 with
  | Ret (Some t) => te_id t = i /\ i ∈ tn_id <$> auth_tenants (ext s) /\
      (told i -> exists a, (AuthServer.getTenant i (ext s)).1 = Ret (Some a) /\
        (i <> operatorTenantId config ->
         AuthServer.apiSecret a = te_apiSecret t /\ AuthServer.idpConsentUrl a = te_idpConsentUrl t /\
         AuthServer.idpSecret a = te_idpSecret t))
  | Ret None => i ∈ te_id <$> Tenants.tenants (db s) -> (AuthServer.getTenant i (ext s)).1 = Ret None
  | Throw _ => False
  end.
Proof.
  intros Hseed Hs. destruct (mirror_reachable s0 s Hseed Hs) as [Hinv [Hnd Hm]].
  destruct (getTenant_result config i false s Hinv) as (_ & _ & _ & _ & ->).
  unfold AuthServer.getTenant, db_get, gets. simpl.
  destruct (tenant_row i false _) as [t|] eqn:F.
  - destruct (tenant_row_Some _ _ _ _ F) as (Ht & Hi & Ha). split; [done|].
    destruct (Hm t Ht) as (a & Hina & Hma). split.
    { rewrite <- Hi, <- (proj1 Hma). by apply list_elem_of_fmap_2. }
    intros Htold. exists a. split.
    + pose proof (mirror_active i t a Hma Htold (Ha eq_refl) Hi) as Hact.
      destruct (find_where _ _) as [b|] eqn:Fb; [|eapply find_where_None in Fb; [|done]; congruence].
      apply find_where_Some in Fb as [Hb Hb']. f_equal. f_equal.
      apply (unique_key tn_id (auth_tenants (ext s))); [done..|].
      unfold active_tenant in *. zbool. congruence.
    + rewrite <- Hi in *. intros Hop. by apply Hma; [|apply Ha|].
  - intros (t & -> & Ht)%list_elem_of_fmap. destruct (Hm t Ht) as (a & Hina & Hid & Hdel & _).
    rewrite (tenant_row_spec _ false _ t) in F by (done || apply Hinv). simpl in F.
    destruct (find_where _ _) as [b|] eqn:Fb; [|done]. apply find_where_Some in Fb as [Hb Hb'].
    assert (b = a) as ->.
    { apply (unique_key tn_id (auth_tenants (ext s))); [done..|]. unfold active_tenant in *. zbool. congruence. }
    unfold active_tenant in Hb'. rewrite Hdel in Hb'; [by rewrite andb_false_r in Hb'|].
    by destruct (is_active t).
Qed.
End Mirror.
