(* ===== verification/TenantExamples.v ===== *)
(** * TenantExamples: a history of tenants, and what settings do not do

    The backend and the authorization server from their migrations on, with the witnesses of
    [TenantSpecs] and [TenantMirror]; and histories where the services do not do what they
    mean to. *)

From S2P Require Import Prelude Text Shared Service Cache AuthServer Tenants TenantSpecs TenantMirror.

Local Open Scope Z_scope.
Local Open Scope ts_scope.

Module TenantsExample.
#[export] Existing Instance ConcreteUuid.uuid.

#[export] Instance validators : SettingValidators := {
  is_url := String.prefix "https://";
  isValidIlpAddress := String.prefix "test."
}.

Lemma parse_iso t : StringToBigInt (bigint_toString t) = Some t.
Proof. pose proof (BigInt_toString t) as E. unfold BigInt in E. by destruct (StringToBigInt _); simplify_eq. Qed.

#[export] Instance client : AuthServiceClient (Svc AuthDb unit) :=
  auth_client bigint_toString StringToBigInt (fun _ _ _ => Answered) (fun _ => false).

(** The answers to requests with this method are lost. *)
Definition losing (method : string) : AuthServiceClient (Svc AuthDb unit) :=
  auth_client bigint_toString StringToBigInt
    (fun m _ _ => if bool_decide (m = method) then Lost (JsError "TypeError" "fetch failed") else Answered)
    (fun _ => false).

Definition config : TenantConfig :=
  {| ilpAddress := "test.rafiki"; adminApiSecret := "admin"; operatorTenantId := "id-op";
     localCacheDuration := 15000 |}.

Notation State := (TenantState (X := Svc AuthDb unit)).

Definition auth0 : Svc AuthDb unit :=
  {| db := {| AuthServer.tenants := [{| tn_id := "id-op"; AuthServer.apiSecret := "admin";
                 AuthServer.idpConsentUrl := None; AuthServer.idpSecret := None;
                 AuthServer.deletedAt := None |}];
              grants := []; accesses := []; subjects := []; interactions := []; accessTokens := [] |};
     now := 1000; fresh := 0; ext := tt |}.

Definition s0 : State :=
  {| db := {| Tenants.tenants := [{| te_id := "id-op"; te_email := None; te_apiSecret := "admin";
                 te_idpConsentUrl := None; te_idpSecret := None; te_publicName := None;
                 te_createdAt := 0; te_deletedAt := None |}];
              tenantSettings := []; tenantCache := ∅ |};
     now := 1000; fresh := 0; ext := auth0 |}.

Definition acme (settings : option (list KeyValuePair)) : CreateTenantOptions :=
  {| ct_id := Some "id-acme"; ct_email := None; ct_apiSecret := "s3cret";
     ct_idpSecret := Some "idp"; ct_idpConsentUrl := Some "https://idp.acme";
     ct_publicName := Some "Acme"; ct_settings := settings |}.

Definition set_secret (secret : string) : UpdateTenantOptions :=
  {| ut_id := "id-acme"; ut_email := None; ut_publicName := None; ut_apiSecret := None;
     ut_idpConsentUrl := None; ut_idpSecret := Some secret |}.

Definition url (v : string) : KeyValuePair := {| key := WALLET_ADDRESS_URL; kv_value := v |}.

Definition s1 : State := (Tenants.createTenant config (acme (Some [url "https://acme"])) s0).2.
Definition s2 : State := (Tenants.updateTenant config (set_secret "new") s1).2.
Definition s3 : State := (Tenants.deleteTenant "id-acme" s2).2.

Lemma seeded : both_seeded config s0.
Proof.
  split; [split; [eexists; by split_and!|by split]|]. eexists. by split_and!.
Qed.

Definition everyone (i : string) : Prop := True.

Lemma told : tells_all config everyone (set_secret "new").
Proof. intros _ _ _. by vm_compute. Qed.

Notation step := (tenant_step config (auth_others config) (tells_all config everyone)).

Lemma steps_s2 : rtc step s0 s2.
Proof.
  apply (rtc_l _ _ s1); [apply step_createTenant|].
  apply (rtc_l _ _ s2); [apply step_updateTenant, told|constructor].
Qed.

(** Every key is written once by a statement, and the settings of a new tenant are one
    statement with the defaults: a tenant that is created with a timeout of its own is not
    created.  The authorization server keeps it, so that it cannot be created again under its
    identifier. *)
Lemma custom_timeout_throws :
  let options := acme (Some [{| key := "WEBHOOK_TIMEOUT"; kv_value := "5000" |}]) in
  let r := Tenants.createTenant config options s0 in
  (exists e, r.1 = Throw e) /\ Tenants.tenants (db r.2) = Tenants.tenants (db s0) /\
  tn_id <$> AuthServer.tenants (db (ext r.2)) = ["id-op"; "id-acme"]%string /\
  exists e, (Tenants.createTenant config (acme None) r.2).1 = Throw e.
Proof. vm_compute. split_and!; eauto. Qed.

(** A setting that is refused is not reported: the tenant is created without settings. *)
Lemma refused_settings_ignored :
  let options := acme (Some [{| key := "WEBHOOK_URL"; kv_value := "not a url" |}]) in
  let r := Tenants.createTenant config options s0 in
  (exists t, r.1 = Ret (Ok t)) /\ tenantSettings (db r.2) = [].
Proof. vm_compute. split_and!; eauto. Qed.

(** A tenant that brings its ILP address gets no defaults. *)
Lemma own_address_drops_defaults :
  let options := acme (Some [{| key := ILP_ADDRESS; kv_value := "test.acme" |}]) in
  ts_key <$> tenantSettings (db (Tenants.createTenant config options s0).2) = [ILP_ADDRESS] /\
  ts_key <$> tenantSettings (db (Tenants.createTenant config (acme None) s0).2)
  = ["WEBHOOK_TIMEOUT"; "WEBHOOK_MAX_RETRY"; "ILP_ADDRESS"]%string.
Proof. by vm_compute. Qed.

(** A secret that is emptied is emptied in the backend only. *)
Lemma emptied_secret_not_told :
  let s := (Tenants.updateTenant config (set_secret "") s1).2 in
  (te_idpSecret <$> Tenants.tenants (db s), AuthServer.idpSecret <$> AuthServer.tenants (db (ext s)))
  = ([None; Some ""], [None; Some "idp"])%string.
Proof. by vm_compute. Qed.

(** An answer that is lost: the backend undoes its update or its deletion, which the
    authorization server has carried out. *)
Lemma lost_answer_disagrees :
  let u := (Tenants.updateTenant (AuthServiceClient0 := losing "PATCH") config (set_secret "new") s1).2 in
  let d := (Tenants.deleteTenant (AuthServiceClient0 := losing "DELETE") "id-acme" s1).2 in
  (te_idpSecret <$> Tenants.tenants (db u), AuthServer.idpSecret <$> AuthServer.tenants (db (ext u)))
  = ([None; Some "idp"], [None; Some "new"])%string /\
  (is_active <$> Tenants.tenants (db d), is_some ∘ AuthServer.deletedAt <$> AuthServer.tenants (db (ext d)))
  = ([true; true], [false; true]).
Proof. by vm_compute. Qed.

(** Deleted settings: a creation does not bring one back, and a URL stays taken. *)
Lemma deleted_settings_linger :
  let s := (deleteTenantSetting "id-acme" (Some WALLET_ADDRESS_URL) None s1).2 in
  let r := createTenantSetting "id-acme" [url "https://new.acme"] s in
  (exists l, r.1 = Ret (Ok l) /\ List.length l = 1%nat) /\
  (getTenantSettings "id-acme" (Some WALLET_ADDRESS_URL) r.2).1 = Ret [] /\
  (createTenantSetting "id-op" [url "https://acme"] s).1 = Ret (Err DuplicateWalletAddressUrl) /\
  (exists t, (getWalletAddressSettingsByPrefix "https://acme" s3).1 = Ret [t] /\
             is_some (ts_deletedAt t) = true).
Proof. vm_compute. split_and!; eauto. Qed.

(** A fraction is a valid number of retries, which the query of the webhooks casts to an
    integer, and so are nothing and a number below zero. *)
Lemma fractional_retries_valid :
  invalid_setting "WEBHOOK_MAX_RETRY" "1.5" = false /\
  invalid_setting "WEBHOOK_MAX_RETRY" "" = false /\
  invalid_setting "WEBHOOK_MAX_RETRY" "-0.5" = false.
Proof. by vm_compute. Qed.
End TenantsExample.

Import TenantsExample.

(** ** Witnesses *)

Lemma tenant_settings_sound_witness :
  exists l, (getTenantSettings "id-acme" (Some WALLET_ADDRESS_URL) s2).1 = Ret l /\
    (List.length l <= 1)%nat /\ ts_value <$> l = ["https://acme"%string].
Proof.
  destruct (tenant_settings_sound config (auth_others config) (tells_all config everyone) s0 s2 "id-acme"
    WALLET_ADDRESS_URL (proj1 seeded) steps_s2) as (l & Hl & Hlen & _).
  exists l. split; [exact Hl|]. split; [exact Hlen|]. revert Hl. vm_compute. by intros [= <-].
Defined.

Lemma createTenant_effect_witness :
  created (acme (Some [url "https://acme"])) s0
    (Tenants.createTenant config (acme (Some [url "https://acme"])) s0).1 s1 /\
  exists t, (Tenants.createTenant config (acme (Some [url "https://acme"])) s0).1 = Ret (Ok t).
Proof.
  split.
  - exact (createTenant_effect config (auth_others config) (tells_all config everyone) s0 s0
      (acme (Some [url "https://acme"])) (proj1 seeded) (rtc_refl _ _)).
  - vm_compute. eauto.
Defined.

Lemma tenants_agree_witness :
  exists t a, (Tenants.getTenant config "id-acme" false s2).1 = Ret (Some t) /\
    (AuthServer.getTenant "id-acme" (ext s2)).1 = Ret (Some a) /\
    AuthServer.idpSecret a = te_idpSecret t /\ te_idpSecret t = Some "new"%string.
Proof.
  pose proof (tenants_agree bigint_toString StringToBigInt parse_iso config
    (fun _ _ _ => Answered) (fun _ => false) everyone ltac:(intros i _ m x e; discriminate)
    s0 s2 "id-acme" seeded steps_s2) as Hagree.
  destruct (Tenants.getTenant config "id-acme" false s2).1 as [[t|]|e] eqn:E;
    [|vm_compute in E; discriminate E..].
  destruct Hagree as (_ & _ & Htold). destruct (Htold Logic.I) as (a & Ha & Hsame). exists t, a. split; [done|]. split; [done|].
  split; [apply Hsame; discriminate|]. revert E. vm_compute. by intros [= <-].
Defined.
