(* ===== verification/WalletExamples.v ===== *)
(** * WalletExamples: a history of wallet addresses, and where addresses go wrong

    A concrete parser of URLs with a host, a ledger of what was received, and tenants with
    the URL under which they make addresses; the witness of [WalletSpecs]; and inputs for
    which the service does not do what it means to. *)

From Stdlib Require Import Ascii.
From S2P Require Import Prelude Text Shared Service Cache OpenPayments Accounting Tenants Webhook IncomingPayment WalletAddresses WalletSpecs TenantExamples.

Local Open Scope Z_scope.
Local Open Scope ts_scope.

Module WalletsExample.
#[export] Existing Instance ConcreteUuid.uuid.

(** The text before the first slash, and from it on. *)
Fixpoint host_path (s : string) : string * string :=
  match s with
  | String "/"%char _ => (""%string, s)
  | String c s => let '(h, p) := host_path s in (String c h, p)
  | EmptyString => (""%string, ""%string)
  end.

Definition parse_url (s : string) : option UrlParts :=
  if String.prefix "https://" s
  then
    let '(host, path) := host_path (String.substring 8 (String.length s - 8) s) in
    let path := if truthy path then path else "/"%string in
    Some {| href := "https://" +:+ host +:+ path; origin := "https://" +:+ host;
            pathname := path; url_protocol := "https:" |}
  else None.

(** What wallet addresses received, and the URLs of tenants. *)
Record World := { credited : list (string * Z); urls : list TenantSetting }.

Definition total (i : string) (l : list (string * Z)) : Z :=
  sum_where (fun p => bool_decide (p.1 = i)) (fun p => Z.abs p.2) l.

Definition usd : Asset :=
  {| a_id := "usd"; a_code := "USD"; a_scale := 2; a_ledger := 1; a_tenantId := "acme";
     a_withdrawalThreshold := Some 100; a_liquidityThreshold := None |}.

#[export] Instance services : WalletServices World := {|
  newURL := parse_url;
  walletAsset_get i _ := ret (if bool_decide (i = "usd"%string) then Some usd else None);
  walletSettings_get tid _ := gets (fun x =>
    List.filter (fun t => bool_decide (ts_tenantId t = tid)) (urls x));
  settings_by_prefix p := gets (fun x =>
    List.filter (fun t => String.prefix p (ts_value t)) (urls x));
  wallet_totalReceived i := gets (fun x => Some (total i (credited x)));
  asset_relation _ i := if bool_decide (i = "usd"%string) then Some usd else None;
  has_asset _ i := bool_decide (i = "usd"%string);
  has_tenant _ i := bool_decide (i = "acme"%string)
|}.

#[export] Program Instance accounting : WalletAccounting World := {|
  received x i := total i (credited x)
|}.
Next Obligation. intros x i. apply sum_where_nonneg. lia. Qed.
Next Obligation. intros i x v x' [= <- <-]. done. Qed.
Next Obligation. by intros i x j. Qed.
Next Obligation. by intros i t x j. Qed.
Next Obligation. by intros t k x j. Qed.
Next Obligation. by intros p x j. Qed.

Definition config : WalletConfig :=
  {| openPaymentsUrl := "https://op.example"; walletAddressPollingFrequencyMs := 100;
     walletAddressLookupTimeoutMs := 1000; walletAddressDeactivationPaymentGracePeriodMs := 10000;
     walletCacheDuration := 15000;
     walletWebhookConfig := {| operatorTenantId := "op"; sendTenantWebhooksToOperator := false;
       posWebhookServiceUrl := None; cardWebhookUrl := None; webhookUrl := "https://hook";
       webhookTimeout := 2000; webhookMaxRetry := 10; signatureSecret := None; signatureVersion := 1 |} |}.

Notation State := (WalletState (X := World)).

Definition setting (url : string) : TenantSetting :=
  {| ts_id := "set"; ts_tenantId := "acme"; ts_key := WALLET_ADDRESS_URL; ts_value := url;
     ts_createdAt := 0; ts_deletedAt := None |}.

Definition empty (x : World) : State :=
  {| db := {| walletAddresses := []; additionalProperties := []; walletAddressKeys := [];
              incomingPayments := []; walletWebhooks := {| events := []; webhooks := [] |};
              walletAddressCache := ∅ |};
     now := 1000; fresh := 0; ext := x |}.

Definition s0 : State := empty {| credited := []; urls := [setting "https://acme.example"] |}.

Definition make (address : string) (properties : option (list AdditionalPropertyInput)) : CreateWalletOptions :=
  {| cw_tenantId := "acme"; cw_address := address; cw_assetId := "usd"; cw_publicName := None;
     cw_additionalProperties := properties; cw_isOperator := false |}.

Definition credit (i : string) (amount : Z) (s : State) : State :=
  set_ext {| credited := (i, amount) :: credited (ext s); urls := urls (ext s) |} s.

Definition later (ms : Z) (s : State) : State :=
  {| db := db s; now := now s + ms; fresh := fresh s; ext := ext s |}.

(** While a lookup waits, the account servicing entity makes the wallet address. *)
Definition sleep (ms : Z) : M State unit := createWalletAddress config (make "Alice" None) ;;! ret tt.
Definition select (n : Z) (l : list WalletRow) : list WalletRow := take (Z.to_nat n) l.

Lemma select_rows n l : select n l ⊆ l.
Proof. apply subseteq_take. Qed.

Lemma select_distinct n (l : list WalletRow) : NoDup (w_id <$> l) -> NoDup (w_id <$> select n l).
Proof. unfold select. rewrite fmap_take. intros Hnd. eapply sublist_NoDup; [done|apply sublist_take]. Qed.

Notation step := (wallet_step config select).
Notation run := (wallet_run config sleep select).

Lemma sleeping ms s : rtc step s (sleep ms s).2.
Proof.
  unfold sleep, bind. pose proof (step_createWallet config select (make "Alice" None) s) as Hstep.
  destruct (createWalletAddress config (make "Alice" None) s) as [[r|e] s']; by apply rtc_once.
Qed.

(** A lookup of an address that is made while it waits, a credit, its announcement. *)
Definition alice : string := "https://acme.example/alice".
Definition polled := getOrPollByUrl config sleep alice s0.
Definition s1 : State := polled.2.
Definition row : WalletRow :=
  match polled.1 with
  | Ret (Some w) => w
  | _ => with_wallet None 0 None None None None
           {| w_id := ""; w_tenantId := ""; w_address := ""; w_publicName := None; w_assetId := "";
              w_totalEventsAmount := 0; w_processAt := None; w_deactivatedAt := None; w_createdAt := 0;
              w_asset := None; w_properties := None |}
  end.
Definition s2 : State := credit (w_id row) 250 s1.
Definition s3 : State := (onCredit row {| totalReceived := 250; withdrawalThrottleDelay := None |} s2).2.
Definition s4 : State := (processNextWalletAddresses config select 1 s3).2.

Lemma credit_step i amount s : run s (credit i amount s).
Proof.
  apply run_step, step_wallet_others. split_and!; [done..|]. intros j.
  change (total j (credited (ext s)) <= total j ((i, amount) :: credited (ext s))).
  unfold total. rewrite sum_where_cons. case_bool_decide; simpl; lia.
Qed.

Lemma wallet_steps : rtc run s0 s4.
Proof.
  apply (rtc_l _ _ s1); [apply run_getOrPoll|].
  apply (rtc_l _ _ s2); [apply credit_step|].
  apply (rtc_l _ _ s3); [apply run_step, step_creditWallet|].
  apply (rtc_l _ _ s4); [apply run_step, step_processWallets|constructor].
Qed.

Lemma wallet_started : wallet_init s0.
Proof. done. Qed.

(** Paths are looked at before the address is put in lower case: the address of the
    quotes of the node is given to a wallet address. *)
Lemma forbidden_path_stored :
  (createWalletAddress config (make "quotes" None) s0).1 = Ret (Err InvalidUrl) /\
  w_address <$> walletAddresses (db (createWalletAddress config (make "Quotes" None) s0).2)
  = ["https://acme.example/quotes"]%string.
Proof. by vm_compute. Qed.

(** A full URL only has to begin with the letters of that of the tenant. *)
Lemma other_tenants_address :
  let s := empty {| credited := []; urls := [setting "https://host.example/acme"] |} in
  w_address <$> walletAddresses (db (createWalletAddress config (make "https://host.example/acme-bank/bob" None) s).2)
  = ["https://host.example/acme-bank/bob"]%string.
Proof. by vm_compute. Qed.

(** The settings that are asked for an address are those that begin with it. *)
Lemma tenant_not_asked :
  let found url := match (getWalletAddressSettingsByPrefix url TenantsExample.s1).1 with
                   | Ret l => ts_tenantId <$> l | Throw _ => [] end in
  found "https://acme/alice" = [] /\ found "https://acme" = ["id-acme"]%string.
Proof. by vm_compute. Qed.

(** The instance in the cache keeps the date it was scheduled for after it was processed: a
    later credit schedules nothing, and what was received is not announced. *)
Lemma throttled_credit_forgotten :
  let throttled amount s :=
    let s := credit (v4 0) amount s in
    match (getWalletAddress config (v4 0) None s).1 with
    | Ret (Some w) => (onCredit w {| totalReceived := total (v4 0) (credited (ext s));
                                     withdrawalThrottleDelay := Some 10 |} s).2
    | _ => s
    end in
  let process s := (processNextWalletAddresses config select 1 s).2 in
  let made := (createWalletAddress config (make "alice" None) s0).2 in
  let once := process (later 20 (throttled 30 made)) in
  let twice := process (later 20 (throttled 40 once)) in
  announced (v4 0) (db once) = 30 /\ total (v4 0) (credited (ext twice)) = 70 /\
  announced (v4 0) (db twice) = 30 /\ w_processAt <$> walletAddresses (db twice) = [None].
Proof. by vm_compute. Qed.

(** Columns hold 255 characters: the creation throws, and the wallet address is there. *)
Fixpoint repeated (n : nat) : string := match n with O => "" | Datatypes.S n => String "x"%char (repeated n) end.

Lemma wallet_address_left :
  let property := {| fieldKey := "note"; fieldValue := repeated 256; visibleInOpenPayments := true |} in
  let r := createWalletAddress config (make "alice" (Some [property])) s0 in
  (exists e, r.1 = Throw e) /\ w_address <$> walletAddresses (db r.2) = [alice] /\
  (createWalletAddress config (make "alice" None) r.2).1 = Ret (Err DuplicateWalletAddress).
Proof. vm_compute. split_and!; eauto. Qed.
End WalletsExample.

Import WalletsExample.

Lemma announced_within_received_witness :
  exists w, walletAddresses (db s4) = [w] /\ announced (w_id w) (db s4) = 250 /\
    w_totalEventsAmount w = announced (w_id w) (db s4).
Proof.
  eexists. split; [vm_compute; reflexivity|]. split; [vm_compute; reflexivity|].
  match goal with |- w_totalEventsAmount ?w = _ =>
    destruct (announced_within_received config sleep select select_rows select_distinct sleeping
      s0 s4 w wallet_started wallet_steps) as [H1 _]; [apply elem_of_cons; left; reflexivity|]
  end. exact H1.
Defined.
