(* ===== verification/AuthHistory.v ===== *)
(** * AuthHistory: the authorization server over all histories of requests

    Whatever requests are made, in whatever order, by clients, resource owners and
    operators: a token exists only for a grant whose interaction was approved or that
    needs none, a revoked grant stays revoked and has no live token, and no stored
    access limits both amounts. *)

From S2P Require Import Prelude Shared Service AuthAccess AuthServer AuthRoutes AuthSpecs.

Local Open Scope Z_scope.
Local Open Scope ts_scope.
Local Open Scope string_scope.

Section History.
Context {X : Type} `{Uuid} `{Random}.
Context (config : AuthConfig).
Context (isUrl : string -> bool).
Context (walletAddress_get : string -> M X (option string)).
Context (sha256_base64 : string -> string).

Notation AuthState := (Svc AuthDb X).
Notation effect := (effect config).
Implicit Types (s : AuthState) (g : Grant) (i : Interaction) (t : AccessToken) (d : AuthDb).

(** One request, or time passing while wallet addresses change. *)
Inductive step : AuthState -> AuthState -> Prop :=
| step_createGrant tenant body s :
    step s (createGrant config isUrl walletAddress_get tenant body s).2
| step_continue cid auth body s : step s (continueGrant config cid auth body s).2
| step_revokeGrant cid auth tenant s : step s (revokeGrantRoute cid auth tenant s).2
| step_adminRevokeGrant gid isOperator tenant s :
    step s (adminRevokeGrant gid isOperator tenant s).2
| step_start iid n name uri s : step s (startInteraction isUrl iid n name uri s).2
| step_choice iid n choice secret s : step s (handleInteractionChoice iid n choice secret s).2
| step_finish iid n session s :
    step s (finishInteraction config isUrl sha256_base64 iid n session s).2
| step_introspect v access s : step s (introspectToken v access s).2
| step_revokeToken mid s : step s (revokeToken mid s).2
| step_rotateToken mid s : step s (rotateToken config mid s).2
| step_createTenant tenant s : step s (createTenantRoute tenant s).2
| step_updateTenant tid input s : step s (updateTenantRoute tid input s).2
| step_deleteTenant Date_parse tid ts s : step s (deleteTenantRoute Date_parse tid ts s).2
| step_operatorSecret tid secret s : step s (updateOperatorApiSecretFromConfig tid secret s).2
| step_elapse s ms x :
    0 <= ms ->
    step s {| db := db s; now := now s + ms; Service.fresh := Service.fresh s; ext := x |}.

(** A text that was given out, and an identifier that was. *)
Definition issued_by (draw : nat -> string) s (x : string) : Prop :=
  exists n, (n < Service.fresh s)%nat /\ x = draw n.

Notation issued := (issued_by v4).
Notation drawn := (drawn_by v4).

(** The resource owner agreed to the grant, or nobody needs to. *)
Definition consented d (gid : string) : Prop :=
  (exists i, i ∈ interactions d /\ i_grantId i = gid /\ i_state i = InteractionState.Approved) \/
  ((forall a, a ∈ accesses d -> acc_grantId a = gid -> may_skip config (toOpenPaymentsAccess a) = true) /\
   (forall x, x ∈ subjects d -> s_grantId x <> gid)).

Record wf s : Prop := {
  wf_grants : NoDup (id <$> grants (db s));
  wf_interactions : NoDup (i_id <$> interactions (db s));
  wf_tokens : NoDup (t_id <$> accessTokens (db s));
  wf_values : NoDup (value <$> accessTokens (db s));
  wf_grant_ids : forall g, g ∈ grants (db s) -> issued s (id g);
  wf_interaction_ids : forall i, i ∈ interactions (db s) -> issued s (i_id i);
  wf_token_ids : forall t, t ∈ accessTokens (db s) -> issued s (t_id t);
  wf_value_draws : forall t, t ∈ accessTokens (db s) -> issued_by randomToken s (value t);
  wf_access_grants : forall a, a ∈ accesses (db s) -> issued s (acc_grantId a);
  wf_subject_grants : forall x, x ∈ subjects (db s) -> issued s (s_grantId x);
  wf_token_grants : forall t, t ∈ accessTokens (db s) -> exists g, g ∈ grants (db s) /\ id g = t_grantId t;
  wf_limits : forall a, a ∈ accesses (db s) -> both_limits (toOpenPaymentsAccess a) = false;
  wf_approved : forall g, g ∈ grants (db s) -> state g = Approved -> consented (db s) (id g);
  wf_token_consent : forall t, t ∈ accessTokens (db s) -> consented (db s) (t_grantId t);
  wf_revoked : forall g t, g ∈ grants (db s) -> t ∈ accessTokens (db s) ->
    isRevokedGrant g = true -> t_grantId t = id g -> revokedAt t <> None
}.

(** ** What an effect does to the rows of a table *)

Lemma issued_mono draw s s' x :
  (Service.fresh s <= Service.fresh s')%nat -> issued_by draw s x -> issued_by draw s' x.
Proof. intros ? (n & ? & ->). exists n. split; [lia|done]. Qed.

Lemma drawn_issued draw s s' x : drawn_by draw s s' x -> issued_by draw s' x.
Proof. intros (n & ? & ->). exists n. split; [lia|done]. Qed.

Lemma drawn_by_not_issued draw s s' x :
  (forall n m, draw n = draw m -> n = m) -> drawn_by draw s s' x -> ~ issued_by draw s x.
Proof. intros Hinj (n & ? & ->) (m & ? & E%Hinj). lia. Qed.

Lemma drawn_not_issued `{!UuidLaws} s s' x : drawn s s' x -> ~ issued s x.
Proof. apply drawn_by_not_issued, v4_inj. Qed.

(** The keys of a table are those it had, and perhaps one that was just drawn. *)
Definition keys_grow {A} (draw : nat -> string) (key : A -> string) s s' (l l' : list A) : Prop :=
  key <$> l' = key <$> l \/ exists y, key <$> l' = ((key <$> l) ++ [key y])%list /\ drawn_by draw s s' (key y).

Lemma keys_grow_wf {A} (draw : nat -> string) (key : A -> string) s s' l l' :
  (forall n m, draw n = draw m -> n = m) ->
  (Service.fresh s <= Service.fresh s')%nat -> keys_grow draw key s s' l l' ->
  NoDup (key <$> l) -> (forall x, x ∈ l -> issued_by draw s (key x)) ->
  NoDup (key <$> l') /\ forall x, x ∈ l' -> issued_by draw s' (key x).
Proof.
  intros Hinj Hf Hgrow Hnd Hissued.
  assert (forall k, k ∈ (key <$> l) -> issued_by draw s k) as Hkeys.
  { intros k (x & -> & Hx)%list_elem_of_fmap. by apply Hissued. }
  assert (NoDup (key <$> l') /\ forall k, k ∈ (key <$> l') -> issued_by draw s' k) as [Hnd' Hk'].
  { destruct Hgrow as [->|(y & -> & Hy)].
    - split; [done|]. intros k Hk. by apply (issued_mono _ s), Hkeys.
    - split.
      + apply NoDup_app. split; [done|]. split; [|apply NoDup_singleton].
        intros k Hk ->%list_elem_of_singleton.
        by apply (drawn_by_not_issued draw s s' (key y) Hinj), Hkeys.
      + intros k [Hk| ->%list_elem_of_singleton]%elem_of_app; [|by apply (drawn_issued _ s)].
        by apply (issued_mono _ s), Hkeys. }
  split; [done|]. intros x Hx. by apply Hk', list_elem_of_fmap_2.
Qed.

Lemma keys_update {A} (key : A -> string) q F l :
  (forall x, key (F x) = key x) -> key <$> update_where q F l = key <$> l.
Proof. apply update_where_key. Qed.

Lemma effect_keys s s' :
  effect s s' ->
  keys_grow v4 id s s' (grants (db s)) (grants (db s')) /\
  keys_grow v4 i_id s s' (interactions (db s)) (interactions (db s')) /\
  keys_grow v4 t_id s s' (accessTokens (db s)) (accessTokens (db s')) /\
  keys_grow randomToken value s s' (accessTokens (db s)) (accessTokens (db s')).
Proof.
  unfold keys_grow. intros He. destruct He as [Hdb|? Hdb|g acc subj t [? _ _ _ _] _ [? ?] Hdb
    |g acc subj i [? _ _ _ _] _ _ ? Hdb|g F _ HF Hdb|g i _ _ _ _ _ Hdb|g i _ _ _ _ _ Hdb
    |g i _ _ _ _ _ Hdb|g t _ _ _ _ [? ?] Hdb|g q _ _ _ Hdb|i st _ _ Hdb|q Hdb|q t t' _ _ _ _ _ [? ?] Hdb];
    rewrite Hdb; simpl; rewrite ?fmap_app, ?(keys_update id), ?(keys_update i_id), ?(keys_update t_id), ?(keys_update value)
      by (done || apply HF);
    split_and!; eauto.
Qed.

(** Accesses and subjects are only added, to a grant that was just made. *)
Lemma effect_accesses s s' a :
  effect s s' -> a ∈ accesses (db s') ->
  a ∈ accesses (db s) \/
  (drawn s s' (acc_grantId a) /\ both_limits (toOpenPaymentsAccess a) = false).
Proof.
  intros He Ha. destruct He; match goal with E : db s' = _ |- _ => rewrite E in Ha end; simpl in Ha; auto.
  all: apply elem_of_app in Ha as [Ha|Ha]; [by left|right].
  all: match goal with N : new_grant _ _ _ _ _ _ _ |- _ => destruct N as [Hid _ Hacc _ _] end.
  all: by destruct (Hacc a Ha) as (-> & ? & _).
Qed.

Lemma effect_subjects s s' x :
  effect s s' -> x ∈ subjects (db s') -> x ∈ subjects (db s) \/ drawn s s' (s_grantId x).
Proof.
  intros He Hx. destruct He; match goal with E : db s' = _ |- _ => rewrite E in Hx end; simpl in Hx; auto.
  all: apply elem_of_app in Hx as [Hx|Hx]; [by left|right].
  all: match goal with N : new_grant _ _ _ _ _ _ _ |- _ => destruct N as [Hid _ _ Hs _] end.
  all: by rewrite (Hs x Hx).
Qed.

(** An approved interaction stays one. *)
Lemma effect_approval s s' i :
  wf s -> effect s s' -> i ∈ interactions (db s) -> i_state i = InteractionState.Approved ->
  i ∈ interactions (db s').
Proof.
  intros Hwf He Hi Hst. destruct He as [Hdb|? Hdb|? ? ? ? _ _ _ Hdb|? ? ? j _ _ _ _ Hdb|? ? _ _ Hdb
    |? ? _ _ _ _ _ Hdb|? ? _ _ _ _ _ Hdb|? ? _ _ _ _ _ Hdb|? ? _ _ _ _ _ Hdb|? ? _ _ _ Hdb|j st Hj Hp Hdb
    |? Hdb|? ? ? _ _ _ _ _ _ Hdb]; rewrite Hdb; simpl; auto.
  - apply elem_of_app. by left.
  - apply update_where_elem. exists i. split; [done|]. case_bool_decide as E; [|done].
    rewrite (unique_key i_id _ i j (wf_interactions _ Hwf) Hi Hj E) in Hst. congruence.
Qed.

Lemma consented_stable `{!UuidLaws} s s' gid :
  wf s -> effect s s' -> issued s gid -> consented (db s) gid -> consented (db s') gid.
Proof.
  intros Hwf He Hgid [(i & Hi & Eg & Hst)|[Hacc Hsubj]].
  - left. exists i. split; [by eapply effect_approval|done].
  - right. split.
    + intros a Ha Eg. destruct (effect_accesses s s' a He Ha) as [Hin|[Hd _]]; [by apply Hacc|].
      exfalso. rewrite Eg in Hd. by eapply drawn_not_issued.
    + intros x Hx. destruct (effect_subjects s s' x He Hx) as [Hin|Hd]; [by apply Hsubj|].
      intros E. rewrite E in Hd. by eapply drawn_not_issued.
Qed.

(** A new grant that needs no interaction is for what needs no consent. *)
Lemma new_grant_consented `{!UuidLaws} s s' g acc subj d :
  wf s -> new_grant config s s' true g acc subj ->
  accesses d = (accesses (db s) ++ acc)%list -> subjects d = (subjects (db s) ++ subj)%list -> consented d (id g).
Proof.
  intros Hwf [Hid _ Hacc _ Hno] Ea Es. right. rewrite Ea, Es, (Hno eq_refl), app_nil_r. split.
  - intros a [Ha|Ha]%elem_of_app Eg; [|by apply Hacc].
    exfalso. apply (drawn_not_issued s s' (id g) Hid). rewrite <- Eg. by apply (wf_access_grants _ Hwf).
  - intros x Hx Eg. apply (drawn_not_issued s s' (id g) Hid). rewrite <- Eg.
    by apply (wf_subject_grants _ Hwf).
Qed.

(** What a grant may become: revoked for good, approved only with consent, and no token
    of it is live once it is revoked. *)
Record grant_becomes s s' g g' : Prop := {
  gb_id : id g' = id g;
  gb_revoked : isRevokedGrant g = true -> isRevokedGrant g' = true;
  gb_approved : state g' = Approved -> state g = Approved \/ consented (db s) (id g);
  gb_dead : isRevokedGrant g' = true -> isRevokedGrant g = true \/
    forall t, t ∈ accessTokens (db s') -> t_grantId t = id g -> revokedAt t <> None
}.

Lemma grant_becomes_refl s s' g : grant_becomes s s' g g.
Proof. split; auto. Qed.

Lemma revoked_finalized g : isRevokedGrant g = true -> state g = Finalized /\ finalizationReason g = Some Revoked.
Proof. unfold isRevokedGrant. intros Hr. by zbool. Qed.

(** A patch of one grant. *)
Lemma patched_grant s s' g F g' :
  wf s -> g ∈ grants (db s) -> grant_becomes s s' g (F g) ->
  g' ∈ update_where (fun g' => bool_decide (id g' = id g)) F (grants (db s)) ->
  exists g0, g0 ∈ grants (db s) /\ grant_becomes s s' g0 g'.
Proof.
  intros Hwf Hg HF [Hin| ->]%(update_where_one id); [|eauto|apply Hwf|done].
  exists g'. split; [done|apply grant_becomes_refl].
Qed.

Lemma effect_grants `{!UuidLaws} s s' g' :
  wf s -> effect s s' -> g' ∈ grants (db s') ->
  (exists g, g ∈ grants (db s) /\ grant_becomes s s' g g') \/
  (drawn s s' (id g') /\ isRevokedGrant g' = false /\ (state g' = Approved -> consented (db s') (id g'))).
Proof.
  intros Hwf He Hg'.
  assert (g' ∈ grants (db s) -> exists g, g ∈ grants (db s) /\ grant_becomes s s' g g') as Hsame.
  { exists g'. split; [done|apply grant_becomes_refl]. }
  destruct He as [Hdb|? Hdb|g acc subj t Hnew _ _ Hdb|g acc subj i Hnew _ _ _ Hdb|g F Hg HF Hdb
    |g i Hg Hr _ _ _ Hdb|g i Hg Hr Hi Eg Hst Hdb|g i Hg Hr _ _ _ Hdb|g t Hg Hst _ _ _ Hdb|g q Hg Hqg Hq Hdb
    |? ? _ _ Hdb|? Hdb|? ? ? _ _ _ _ _ _ Hdb]; rewrite Hdb in Hg'; simpl in Hg'; auto.
  - apply elem_of_app in Hg' as [Hg'| ->%list_elem_of_singleton]; [auto|right].
    pose proof Hnew as [Hid [Hst _] _ _ _]. split; [done|]. unfold isRevokedGrant. rewrite Hst. split; [done|].
    intros _. by eapply new_grant_consented; [|done|rewrite Hdb..].
  - apply elem_of_app in Hg' as [Hg'| ->%list_elem_of_singleton]; [auto|right].
    destruct Hnew as [Hid [Hst _] _ _ _]. split; [done|]. unfold isRevokedGrant. rewrite Hst. by split.
  - left. eapply patched_grant; [done|exact Hg| |exact Hg']. destruct (HF g) as (Eid & Est & Er).
    split; unfold isRevokedGrant; rewrite ?Est, ?Er; auto.
  - left. eapply patched_grant; [done|exact Hg| |exact Hg']. split; try done. congruence.
  - left. eapply patched_grant; [done|exact Hg| |exact Hg']. split; try done; [congruence|].
    intros _. right. left. by exists i.
  - left. eapply patched_grant; [done|exact Hg| |exact Hg']. split; try done. congruence.
  - left. eapply patched_grant; [done|exact Hg| |exact Hg']. split; try done.
    by rewrite not_revoked_of_state.
  - left. apply update_where_elem in Hg' as (x & Hx & ->). exists x. split; [done|].
    destruct (q x) eqn:E; [|apply grant_becomes_refl]. split; try done. intros _. right.
    rewrite Hdb. simpl. intros t (t0 & Ht0 & ->)%update_where_elem Et. rewrite (Hq x E) in Et.
    case_bool_decide; [done|by contradict Et].
Qed.

(** Where the tokens come from. *)
Lemma effect_tokens `{!UuidLaws} s s' t' :
  wf s -> effect s s' -> t' ∈ accessTokens (db s') ->
  (exists t, t ∈ accessTokens (db s) /\ t_id t' = t_id t /\ t_grantId t' = t_grantId t /\
     (revokedAt t <> None -> revokedAt t' <> None)) \/
  (consented (db s') (t_grantId t') /\
   exists g', g' ∈ grants (db s') /\ id g' = t_grantId t' /\ isRevokedGrant g' = false).
Proof.
  intros Hwf He Ht'.
  assert (t' ∈ accessTokens (db s) -> exists t, t ∈ accessTokens (db s) /\ t_id t' = t_id t /\
    t_grantId t' = t_grantId t /\ (revokedAt t <> None -> revokedAt t' <> None)) as Hsame by eauto.
  assert (forall q, t' ∈ update_where q (set_revokedAt (now s)) (accessTokens (db s)) ->
    exists t, t ∈ accessTokens (db s) /\ t_id t' = t_id t /\
      t_grantId t' = t_grantId t /\ (revokedAt t <> None -> revokedAt t' <> None)) as Hpatch.
  { intros q (t & Ht & ->)%update_where_elem. exists t. split; [done|]. by destruct (q t). }
  assert (forall gid, issued s gid -> consented (db s) gid -> consented (db s') gid) as Hstable.
  { intros gid. by apply consented_stable. }
  destruct He as [Hdb|? Hdb|g acc subj t Hnew Hg Hl Hdb|? ? ? ? _ _ _ _ Hdb|? ? _ _ Hdb
    |? ? _ _ _ _ _ Hdb|? ? _ _ _ _ _ Hdb|? ? _ _ _ _ _ Hdb|g t Hg Hst Et Hl _ Hdb|? ? _ _ _ Hdb
    |? ? _ _ Hdb|? Hdb|q t t2 Ht Hlive Hq Eg Hl2 _ Hdb]; rewrite Hdb in Ht'; simpl in Ht'; eauto.
  - apply elem_of_app in Ht' as [Ht'| ->%list_elem_of_singleton]; [auto|right].
    rewrite Hg. split; [by eapply new_grant_consented; [|done|rewrite Hdb..]|]. exists g.
    pose proof Hnew as [_ [Hst _] _ _ _]. unfold isRevokedGrant. rewrite Hst, Hdb. split; [|done].
    apply elem_of_app. right. by apply list_elem_of_singleton.
  - apply elem_of_app in Ht' as [Ht'| ->%list_elem_of_singleton]; [auto|right]. rewrite Et. split.
    { apply Hstable; [by apply (wf_grant_ids _ Hwf)|by apply (wf_approved _ Hwf)]. }
    exists (set_finalized Issued (now s) g). split; [|done]. rewrite Hdb. apply update_where_elem.
    exists g. split; [done|]. by rewrite bool_decide_eq_true_2.
  - apply elem_of_app in Ht' as [Ht'| ->%list_elem_of_singleton]; [by eapply Hpatch in Ht'; auto|right].
    destruct (wf_token_grants _ Hwf t Ht) as (g & Hg & Eid). rewrite Eg. split.
    { apply Hstable; [|by apply (wf_token_consent _ Hwf)]. rewrite <- Eid. by apply (wf_grant_ids _ Hwf). }
    exists g. rewrite Hdb. split; [done|]. split; [done|]. destruct (isRevokedGrant g) eqn:Er; [|done].
    by destruct (wf_revoked _ Hwf g t Hg Ht Er (eq_sym Eid)).
Qed.

(** Every grant is still there. *)
Lemma effect_keeps_grant s s' g :
  wf s -> effect s s' -> g ∈ grants (db s) -> exists g', g' ∈ grants (db s') /\ id g' = id g.
Proof.
  intros Hwf He Hg. destruct (effect_keys s s' He) as [Hk _].
  assert (id g ∈ (id <$> grants (db s'))) as (g' & E & Hg')%list_elem_of_fmap; [|by exists g'].
  destruct Hk as [->|(y & -> & _)]; [|apply elem_of_app; left]; by apply list_elem_of_fmap_2.
Qed.

Lemma auth_effect_wf `{!UuidLaws, !RandomLaws} s s' :
  wf s -> effect s s' -> (Service.fresh s <= Service.fresh s')%nat -> wf s'.
Proof.
  intros Hwf He Hf. destruct (effect_keys s s' He) as (Kg & Ki & Kt & Kv).
  destruct (keys_grow_wf v4 id s s' _ _ v4_inj Hf Kg (wf_grants _ Hwf) (wf_grant_ids _ Hwf)) as [Ng Ig].
  destruct (keys_grow_wf v4 i_id s s' _ _ v4_inj Hf Ki (wf_interactions _ Hwf) (wf_interaction_ids _ Hwf)) as [Ni Ii].
  destruct (keys_grow_wf v4 t_id s s' _ _ v4_inj Hf Kt (wf_tokens _ Hwf) (wf_token_ids _ Hwf)) as [Nt It].
  destruct (keys_grow_wf randomToken value s s' _ _ randomToken_inj Hf Kv (wf_values _ Hwf) (wf_value_draws _ Hwf))
    as [Nv Iv].
  assert (forall gid, issued s gid -> consented (db s) gid -> consented (db s') gid) as Hstable.
  { intros gid. by apply consented_stable. }
  split; try done.
  - intros a Ha. destruct (effect_accesses s s' a He Ha) as [Hin|[Hd _]]; [|by apply (drawn_issued _ s)].
    by apply (issued_mono _ s), wf_access_grants.
  - intros x Hx. destruct (effect_subjects s s' x He Hx) as [Hin|Hd]; [|by apply (drawn_issued _ s)].
    by apply (issued_mono _ s), wf_subject_grants.
  - intros t' Ht'. destruct (effect_tokens s s' t' Hwf He Ht') as [(t & Ht & _ & -> & _)|(_ & g & Hg & E & _)].
    + destruct (wf_token_grants _ Hwf t Ht) as (g & Hg & <-). by apply (effect_keeps_grant s).
    + by exists g.
  - intros a Ha. destruct (effect_accesses s s' a He Ha) as [Hin|[_ Hl]]; [by apply (wf_limits _ Hwf)|done].
  - intros g' Hg' Hst. destruct (effect_grants s s' g' Hwf He Hg') as [(g & Hg & [Eid _ Ha _])|(_ & _ & Hn)]; [|auto].
    rewrite Eid. apply Hstable; [by apply (wf_grant_ids _ Hwf)|].
    destruct (Ha Hst); [by apply (wf_approved _ Hwf)|done].
  - intros t' Ht'. destruct (effect_tokens s s' t' Hwf He Ht') as [(t & Ht & _ & -> & _)|(Hc & _)]; [|done].
    destruct (wf_token_grants _ Hwf t Ht) as (g & Hg & E).
    apply Hstable; [rewrite <- E; by apply (wf_grant_ids _ Hwf)|by apply (wf_token_consent _ Hwf)].
  - intros g' t' Hg' Ht' Hr Et.
    destruct (effect_tokens s s' t' Hwf He Ht') as [(t & Ht & _ & Eg & Hrev)|(_ & g2 & Hg2 & E2 & Hl2)].
    + destruct (effect_grants s s' g' Hwf He Hg') as [(g & Hg & [Eid _ _ Hd])|(Hd & Hnr & _)]; [|congruence].
      destruct (Hd Hr) as [Hrg|Hdead]; [|apply Hdead; congruence].
      apply Hrev, (wf_revoked _ Hwf g t); congruence.
    + assert (g2 = g') as -> by (apply (unique_key id _ _ _ Ng Hg2 Hg'); congruence). congruence.
Qed.

Lemma acts_wf `{!UuidLaws, !RandomLaws} s s' : wf s -> acts config s s' -> wf s'.
Proof. intros Hwf [He [_ Hf]]. by apply (auth_effect_wf s). Qed.

(** A step is a request with its effect, or time passing. *)
Lemma auth_step_effect s s' :
  wf s -> step s s' -> effect s s' /\ (Service.fresh s <= Service.fresh s')%nat.
Proof.
  intros Hwf Hstep.
  assert (forall A (m : M AuthState A), wp m (fun _ s' => acts config s s') s ->
    effect s (m s).2 /\ (Service.fresh s <= Service.fresh (m s).2)%nat) as Hacts.
  { by intros A m [He [_ ?]]. }
  destruct Hstep; try (apply Hacts).
  - apply createGrant_spec.
  - apply continueGrant_spec.
  - apply revokeGrantRoute_spec.
  - apply adminRevokeGrant_spec.
  - apply startInteraction_spec.
  - apply choice_acts.
  - apply finishInteraction_spec.
  - eapply wp_mono; [apply introspectToken_spec|]. intros ? ? ->. apply acts_refl.
  - apply revokeToken_spec.
  - apply rotate_acts, Hwf.
  - apply createTenant_spec.
  - apply updateTenant_spec.
  - apply deleteTenant_spec.
  - apply operatorSecret_spec.
  - split; [by apply effect_none|done].
Qed.

(** A server with tenants, before any request. *)
Definition started s : Prop :=
  exists l, db s = {| tenants := l; grants := []; accesses := []; subjects := [];
                      interactions := []; accessTokens := [] |}.

Lemma started_wf s : started s -> wf s.
Proof.
  intros [l E]. split; rewrite E; simpl; try apply NoDup_nil_2.
  all: try by intros ? Hin; apply elem_of_nil in Hin.
  by intros ? ? Hin; apply elem_of_nil in Hin.
Qed.

Definition reachable s : Prop := exists s0, started s0 /\ rtc step s0 s.

Lemma steps_wf `{!UuidLaws, !RandomLaws} s s' : wf s -> rtc step s s' -> wf s'.
Proof.
  intros Hwf Hsteps. induction Hsteps as [s|s s1 s2 Hstep _ IH]; [done|].
  apply IH. destruct (auth_step_effect s s1 Hwf Hstep). by apply (auth_effect_wf s).
Qed.

Lemma reachable_wf `{!UuidLaws, !RandomLaws} s : reachable s -> wf s.
Proof. intros (s0 & H0' & Hsteps). by eapply steps_wf; [apply started_wf|]. Qed.

(** A token that is answered inactive is revoked or expired. *)
Lemma introspect_inactive s v access t :
  wf s -> (introspectToken v access s).1 = Ret Inactive -> t ∈ accessTokens (db s) -> value t = v ->
  revokedAt t <> None \/ isTokenExpired (now s) t = true.
Proof.
  intros Hwf Hi Ht Ev. unfold introspectToken, introspect, bind, date_now, db_get, gets in Hi. simpl in Hi.
  destruct (revokedAt t) eqn:Hl; [by left|right].
  destruct (find_where _ _) as [t0|] eqn:E.
  - apply find_where_Some in E as [Ht0 Hq]. unfold not_revoked in Hq. zbool.
    assert (t0 = t) as -> by (apply (unique_key value _ _ _ (wf_values _ Hwf) Ht0 Ht); congruence).
    destruct (isTokenExpired _ _); [done|].
    destruct (wf_token_grants _ Hwf t Ht) as (g & Hg & Eid).
    destruct (find_grant _ _) as [g0|] eqn:Eg.
    + apply find_grant_spec in Eg as [Hg0 Eid0]. destruct (isRevokedGrant g0) eqn:Hr; [|done].
      by destruct (wf_revoked _ Hwf g0 t Hg0 Ht Hr (eq_sym Eid0)).
    + pose proof (find_where_None _ _ g Eg Hg) as Hq. simpl in Hq. zbool. done.
  - pose proof (find_where_None _ _ t E Ht) as Hq. simpl in Hq. unfold not_revoked in Hq.
    rewrite Hl, bool_decide_eq_true_2 in Hq; done.
Qed.

(** ** The properties *)

(** C13. No token without consent: whatever requests were made, in whatever order, a
    token belongs to a grant that exists and of which an interaction was approved, or
    that gives nothing but accesses that are exempt from a consent and no subject. *)
Theorem tokens_need_consent `{!UuidLaws, !RandomLaws} s t :
  reachable s -> t ∈ accessTokens (db s) ->
  exists g, g ∈ grants (db s) /\ id g = t_grantId t /\
    ((exists i, i ∈ interactions (db s) /\ i_grantId i = id g /\ i_state i = InteractionState.Approved) \/
     ((forall a, a ∈ access_of (id g) (db s) -> may_skip config (toOpenPaymentsAccess a) = true) /\
      (forall x, x ∈ subjects (db s) -> s_grantId x <> id g))).
Proof.
  intros Hr Ht. apply reachable_wf in Hr as Hwf. destruct (wf_token_grants _ Hwf t Ht) as (g & Hg & Eid).
  exists g. split; [done|]. split; [done|]. rewrite Eid.
  destruct (wf_token_consent _ Hwf t Ht) as [?|[Hacc ?]]; [by left|right]. split; [|done].
  intros a [Eq Ha]%elem_of_filter_bool. zbool. by apply Hacc.
Qed.

(** C14. Revoking a grant is final: whatever happens afterwards, the grant is still
    there and revoked, every token of it is revoked, and asking about one of its tokens
    answers that it is not active. *)
Theorem revocation_is_final `{!UuidLaws, !RandomLaws} s s' g :
  reachable s -> g ∈ grants (db s) -> isRevokedGrant g = true -> rtc step s s' ->
  exists g', g' ∈ grants (db s') /\ id g' = id g /\ isRevokedGrant g' = true /\
    (forall t, t ∈ accessTokens (db s') -> t_grantId t = id g -> revokedAt t <> None) /\
    (forall v access gid items c, (introspectToken v access s').1 = Ret (Active gid items c) -> gid <> id g).
Proof.
  intros Hr Hg Hrev Hsteps. apply reachable_wf in Hr as Hwf.
  assert (exists g', g' ∈ grants (db s') /\ id g' = id g /\ isRevokedGrant g' = true) as (g' & Hg' & Eid & Hrev').
  { clear Hr. revert g Hg Hrev. induction Hsteps as [s|s s1 s2 Hstep _ IH]; intros g Hg Hrev; [eauto|].
    destruct (auth_step_effect s s1 Hwf Hstep) as [He Hf]. pose proof (auth_effect_wf s s1 Hwf He Hf) as Hwf1.
    destruct (effect_keeps_grant s s1 g Hwf He Hg) as (g1 & Hg1 & E1).
    destruct (effect_grants s s1 g1 Hwf He Hg1) as [(g0 & Hg0 & [E0 Hr0 _ _])|(Hd & _)].
    - assert (g0 = g) as -> by (apply (unique_key id _ _ _ (wf_grants _ Hwf) Hg0 Hg); congruence).
      destruct (IH Hwf1 g1 Hg1 (Hr0 Hrev)) as (g' & ? & ? & ?). exists g'. split_and!; congruence.
    - exfalso. apply (drawn_not_issued s s1 (id g1) Hd). rewrite E1. by apply (wf_grant_ids _ Hwf). }
  pose proof (steps_wf s s' Hwf Hsteps) as Hwf'.
  exists g'. split; [done|]. split; [done|]. split; [done|]. split.
  - intros t Ht Et. apply (wf_revoked _ Hwf' g' t); congruence.
  - intros v access gid items c Hi ->. apply introspect_active in Hi as (t & g2 & Ht & _ & _ & _ & Hg2 & Et & Hnr & Egid & _).
    assert (g2 = g') as -> by (apply (unique_key id _ _ _ (wf_grants _ Hwf') Hg2 Hg'); congruence). congruence.
Qed.

(** No access that is stored limits both the amount sent and the amount received,
    which the code relies on to know which one a payment may not exceed. *)
Theorem access_limits_exclusive `{!UuidLaws, !RandomLaws} s a l :
  reachable s -> a ∈ accesses (db s) -> acc_limits a = Some l ->
  debitAmount l = None \/ receiveAmount l = None.
Proof.
  intros Hr Ha El. apply reachable_wf in Hr as Hwf. pose proof (wf_limits _ Hwf a Ha) as Hb.
  unfold both_limits in Hb. simpl in Hb. rewrite El in Hb.
  destruct (debitAmount l), (receiveAmount l); auto. done.
Qed.

(** Rotating a token, at any point of any history: if no live token has the
    management identifier the request is refused and nothing changes; otherwise the
    token that has it is revoked, and answered is a new live token of the same grant
    that gives the accesses of the grant; no other token changes. *)
Theorem rotate_effect `{!UuidLaws, !RandomLaws} s mid :
  reachable s ->
  match rotateToken config mid s with
  | (Ret new, s') =>
      exists t t', t ∈ accessTokens (db s) /\ managementId t = mid /\ revokedAt t = None /\
        t_grantId t' = t_grantId t /\ revokedAt t' = None /\
        isTokenExpired (now s) t' = (accessTokenExpirySeconds config * 1000 <? 0)%Z /\
        new = toOpenPaymentsAccessToken (authServerUrl config) t' (access_of (t_grantId t) (db s)) /\
        (forall t0, t0 ∈ accessTokens (db s') <->
           t0 = t' \/ t0 = set_revokedAt (now s) t \/ (t0 ∈ accessTokens (db s) /\ t0 <> t))
  | (Throw _, s') =>
      db s' = db s /\ forall t, t ∈ accessTokens (db s) -> managementId t = mid -> revokedAt t <> None
  end.
Proof.
  intros Hr. apply reachable_wf in Hr as Hwf. pose proof (wf_tokens _ Hwf) as Hnd.
  pose proof (rotateToken_spec config mid s Hnd) as Hspec. unfold wp in Hspec.
  destruct (rotateToken config mid s) as [[new|e] s']; simpl in Hspec; destruct Hspec as [_ HP].
  - destruct HP as (t & t' & Ht & Hmid & Hlive & Eg & Hl' & Ec & Ee & _ & _ & Hdb & Hnew).
    exists t, t'. split_and!; try done.
    + unfold isTokenExpired. rewrite Ec, Ee. destruct (Z.ltb_spec (now s + accessTokenExpirySeconds config * 1000) (now s));
        destruct (Z.ltb_spec (accessTokenExpirySeconds config * 1000) 0); lia || done.
    + intros t0. rewrite Hdb. simpl. rewrite elem_of_app, list_elem_of_singleton.
      rewrite (rotated_rows s t t0 Hnd Ht Hlive). tauto.
  - destruct HP as [Hdb [Hno|(t & Ht & Hnone)]]; [done|]. exfalso.
    destruct (wf_token_grants _ Hwf t Ht) as (g & Hg & Eid).
    pose proof (find_where_None _ _ g Hnone Hg) as Hq. simpl in Hq. zbool. done.
Qed.

(** Introspection, at any point of any history, changes nothing and answers for
    every token: a token is answered active exactly if it exists, is live and has not
    expired, with the grant it belongs to, which is not revoked; the accesses answered
    are accesses of that grant, each giving one that was asked for, and every access
    asked for that the grant gives is among them. *)
Theorem introspect_sound `{!UuidLaws, !RandomLaws} s v access :
  reachable s ->
  exists info, introspectToken v access s = (Ret info, s) /\
    match info with
    | Inactive => forall t, t ∈ accessTokens (db s) -> value t = v ->
        revokedAt t <> None \/ isTokenExpired (now s) t = true
    | Active gid items c =>
        exists t g, t ∈ accessTokens (db s) /\ value t = v /\ revokedAt t = None /\
          isTokenExpired (now s) t = false /\ g ∈ grants (db s) /\ id g = t_grantId t /\
          isRevokedGrant g = false /\ gid = id g /\ c = client g /\
          forall l, access = Some l -> (forall r, r ∈ l -> "" ∉ actions r) ->
            (forall item, item ∈ items -> exists a r, a ∈ access_of gid (db s) /\
               item = toOpenPaymentsAccess a /\ r ∈ l /\ covers item r) /\
            (forall r a, r ∈ l -> a ∈ access_of gid (db s) -> covers (toOpenPaymentsAccess a) r ->
               exists item, item ∈ items /\ covers item r)
    end.
Proof.
  intros Hr. apply reachable_wf in Hr as Hwf. destruct (introspectToken_total v access s) as [info E].
  exists info. split; [done|]. destruct info as [|gid items c].
  - intros t Ht Ev. apply (introspect_inactive s v access t Hwf); [by rewrite E|done|done].
  - destruct (introspect_active v access s gid items c) as (t & g & Ht & Ev & Hl & Hexp & Hg & Eid & Hnr & -> & -> & ->);
      [by rewrite E|].
    exists t, g. split_and!; try done. intros l -> Hne.
    destruct (found_access_spec l (access_of (id g) (db s)) Hne) as [H1' H2']. split.
    + intros item (a & -> & Ha)%list_elem_of_fmap. destruct (H1' a Ha) as (? & r & ? & ?). by exists a, r.
    + intros r a Hr' Ha Hc. destruct (H2' r a Hr' Ha Hc) as (a' & Ha' & Hc').
      exists (toOpenPaymentsAccess a'). split; [by apply list_elem_of_fmap_2|done].
Qed.
End History.
