(* ===== verification/AuthExamples.v ===== *)
(** * AuthExamples: a history of the authorization server

    A client asks for an outgoing payment grant with a limit, the resource owner
    accepts, and a token is issued, rotated, asked about and revoked with its grant; the
    theorems on the authorization server are applied to that history.  Two histories
    show where the code does not do what it means to. *)

From S2P Require Import Prelude Shared Service AuthAccess AuthServer AuthRoutes AuthSpecs AuthHistory.

Local Open Scope Z_scope.
Local Open Scope ts_scope.
Local Open Scope string_scope.

#[local] Existing Instance ConcreteUuid.uuid.
#[local] Existing Instance ConcreteUuid.uuid_laws.

Module Example.

#[export] Instance random : Random := {
  randomToken n := "token-" ++ ConcreteUuid.unary n;
  randomNonce n := "nonce-" ++ ConcreteUuid.unary n
}.

#[export] Instance random_laws : RandomLaws.
Proof. split. intros n m E. simpl in E. simplify_eq. by apply ConcreteUuid.unary_inj. Qed.

Definition config : AuthConfig :=
  {| authServerUrl := "https://auth"; waitTimeSeconds := 5; interactionExpirySeconds := 600;
     accessTokenExpirySeconds := 600; incomingPaymentInteraction := false;
     quoteInteraction := false; listAllInteraction := true |}.

Definition isUrl (s : string) : bool := String.prefix "https://" s.
Definition wallet_get (_ : string) : M unit (option string) := ret (Some "Client").
Definition hash (s : string) : string := s.

Notation AuthState := (Svc AuthDb unit).

Definition tenant : Tenant :=
  {| tn_id := "tenant"; apiSecret := "api"; idpConsentUrl := Some "https://idp";
     idpSecret := Some "secret"; deletedAt := None |}.

Definition start : AuthState :=
  {| db := {| tenants := [tenant]; grants := []; accesses := []; subjects := [];
              interactions := []; accessTokens := [] |};
     now := 0; Service.fresh := 0; ext := tt |}.

Definition limit : LimitData :=
  {| receiver := "https://host/invoice"; debitAmount := Some {| pa_value := "100"; pa_assetCode := "USD"; pa_assetScale := 2 |};
     receiveAmount := None; interval := None |}.

Definition payment (l : option LimitData) : AccessItem :=
  {| type := "outgoing-payment"; actions := ["create"; "read-all"]; identifier := Some "https://host/w"; limits := l |}.

Definition request : GrantRequest :=
  {| access_token := Some [payment (Some limit)]; gr_client := "https://client";
     interact := Some {| AuthAccess.start := ["redirect"];
       finish := Some {| method := "redirect"; uri := "https://client/done"; nonce := "client-nonce" |} |};
     subject := None |}.

Definition elapse (ms : Z) (s : AuthState) : AuthState :=
  {| db := db s; now := now s + ms; Service.fresh := Service.fresh s; ext := ext s |}.

(** The identifiers of the history, as they are drawn. *)
Definition continue_id := v4 0.
Definition gnap := Some ("GNAP " ++ randomToken 1).
Definition grant_id := v4 2.
Definition interact_ref := v4 4.
Definition interact_nonce := randomNonce 5.
Definition interact_id := v4 6.
Definition first_token := randomToken 7.
Definition first_management := v4 8.

Definition asked : AuthState := (createGrant config isUrl wallet_get (Some "tenant") request start).2.
Definition opened : AuthState := (startInteraction isUrl interact_id interact_nonce "Client" "https://client" asked).2.
Definition accepted : AuthState :=
  (handleInteractionChoice interact_id interact_nonce "accept" (Some "secret") opened).2.
Definition finished : AuthState :=
  (finishInteraction config isUrl hash interact_id interact_nonce (Some interact_nonce) accepted).2.
Definition waited : AuthState := elapse 5000 finished.
Definition continued : AuthState :=
  (continueGrant config continue_id gnap (Body (Some interact_ref)) waited).2.
Definition rotated : AuthState := (rotateToken config first_management continued).2.
Definition revoked : AuthState := (revokeGrantRoute continue_id gnap None rotated).2.

Notation step := (step config isUrl wallet_get hash).
Notation reachable := (reachable config isUrl wallet_get hash).

Lemma to_continued : rtc step start continued.
Proof.
  apply (rtc_l step start asked); [exact (step_createGrant config isUrl wallet_get hash (Some "tenant") request start)|].
  apply (rtc_l step asked opened);
    [exact (step_start config isUrl wallet_get hash interact_id interact_nonce "Client" "https://client" asked)|].
  apply (rtc_l step opened accepted);
    [exact (step_choice config isUrl wallet_get hash interact_id interact_nonce "accept" (Some "secret") opened)|].
  apply (rtc_l step accepted finished);
    [exact (step_finish config isUrl wallet_get hash interact_id interact_nonce (Some interact_nonce) accepted)|].
  apply (rtc_l step finished waited); [by apply (step_elapse config isUrl wallet_get hash finished 5000 tt)|].
  apply (rtc_l step waited continued); [|apply rtc_refl].
  exact (step_continue config isUrl wallet_get hash continue_id gnap (Body (Some interact_ref)) waited).
Qed.

Lemma reach_continued : reachable continued.
Proof. exists start. split; [by eexists|apply to_continued]. Qed.

Lemma reach_rotated : reachable rotated.
Proof.
  exists start. split; [by eexists|]. apply (rtc_r start continued); [apply to_continued|].
  exact (step_rotateToken config isUrl wallet_get hash first_management continued).
Qed.

Lemma reach_revoked : reachable revoked.
Proof.
  destruct reach_rotated as (s0 & Hs & Hsteps). exists s0. split; [done|].
  apply (rtc_r s0 rotated); [exact Hsteps|].
  exact (step_revokeGrant config isUrl wallet_get hash continue_id gnap None rotated).
Qed.

Definition row {A} (l : list A) (n : nat) (d : A) : A := nth n l d.

Definition no_token : AccessToken :=
  {| t_id := ""; value := ""; managementId := ""; t_grantId := ""; t_expiresIn := 0;
     revokedAt := None; t_createdAt := 0; t_updatedAt := 0 |}.

Definition no_grant : Grant :=
  {| id := ""; tenantId := ""; state := Processing; finalizationReason := None; startMethod := None;
     continueToken := ""; continueId := ""; finishMethod := None; finishUri := None; client := "";
     clientNonce := None; lastContinuedAt := 0; createdAt := 0; updatedAt := 0 |}.

Definition no_access : Access :=
  {| acc_id := ""; acc_grantId := ""; acc_type := ""; acc_actions := []; acc_identifier := None;
     acc_limits := None; acc_createdAt := 0 |}.

Definition issued : AccessToken := row (accessTokens (db continued)) 0 no_token.
Definition withdrawn : Grant := row (grants (db revoked)) 0 no_grant.
Definition stored : Access := row (accesses (db continued)) 0 no_access.

Lemma nth_row_in {A} (l : list A) n d : (n < length l)%nat -> row l n d ∈ l.
Proof. intros Hn. apply list_elem_of_In, nth_In, Hn. Qed.

(** Anybody with the session may finish an interaction again after its token was
    issued: the grant is approved again, and the client that continues it again has a
    second live token. *)
Definition finished_again : AuthState :=
  (finishInteraction config isUrl hash interact_id interact_nonce (Some interact_nonce) continued).2.
Definition continued_again : AuthState :=
  (continueGrant config continue_id gnap (Body (Some interact_ref)) finished_again).2.

Lemma issued_twice :
  map state (grants (db continued)) = [Finalized] /\
  map state (grants (db finished_again)) = [Approved] /\
  map value (List.filter not_revoked (accessTokens (db continued_again))) =
    [randomToken 7; randomToken 10].
Proof. vm_compute. done. Qed.

(** A secret of another length is not refused with 401 but ends in an error. *)
Lemma secret_of_another_length :
  (handleInteractionChoice interact_id interact_nonce "accept" (Some "guess!") opened).1
    = Throw (unauthorized GNAPErrorCode.InvalidInteraction "invalid x-idp-secret") /\
  (handleInteractionChoice interact_id interact_nonce "accept" (Some "guess") opened).1
    = Throw (JsError "RangeError" "Input buffers must have the same byte length").
Proof. vm_compute. done. Qed.
End Example.

Import Example.
#[local] Existing Instance Example.random.
#[local] Existing Instance Example.random_laws.

Lemma tokens_need_consent_witness :
  exists g, g ∈ grants (db continued) /\ id g = t_grantId issued /\
    ((exists i, i ∈ interactions (db continued) /\ i_grantId i = id g /\
        i_state i = InteractionState.Approved) \/
     ((forall a, a ∈ access_of (id g) (db continued) ->
         may_skip config (toOpenPaymentsAccess a) = true) /\
      (forall x, x ∈ subjects (db continued) -> s_grantId x <> id g))).
Proof.
  apply (tokens_need_consent config isUrl wallet_get hash continued issued reach_continued).
  apply nth_row_in. vm_compute. lia.
Defined.

Lemma revocation_is_final_witness :
  exists g', g' ∈ grants (db (elapse 1000 revoked)) /\ id g' = id withdrawn /\ isRevokedGrant g' = true /\
    (forall t, t ∈ accessTokens (db (elapse 1000 revoked)) -> t_grantId t = id withdrawn ->
       revokedAt t <> None) /\
    (forall v access gid items c,
       (introspectToken v access (elapse 1000 revoked)).1 = Ret (Active gid items c) ->
       gid <> id withdrawn).
Proof.
  apply (revocation_is_final config isUrl wallet_get hash revoked (elapse 1000 revoked) withdrawn reach_revoked).
  - apply nth_row_in. vm_compute. lia.
  - vm_compute. reflexivity.
  - apply rtc_once. by apply (step_elapse config isUrl wallet_get hash revoked 1000 tt).
Defined.

Lemma access_limits_exclusive_witness : debitAmount limit = None \/ receiveAmount limit = None.
Proof.
  apply (access_limits_exclusive config isUrl wallet_get hash continued stored limit reach_continued).
  - apply nth_row_in. vm_compute. lia.
  - vm_compute. reflexivity.
Defined.

Lemma rotate_effect_witness :
  match rotateToken config first_management continued with
  | (Ret new, s') =>
      exists t t', t ∈ accessTokens (db continued) /\ managementId t = first_management /\
        revokedAt t = None /\ t_grantId t' = t_grantId t /\ revokedAt t' = None /\
        isTokenExpired (now continued) t' = (accessTokenExpirySeconds config * 1000 <? 0)%Z /\
        new = toOpenPaymentsAccessToken (authServerUrl config) t' (access_of (t_grantId t) (db continued)) /\
        (forall t0, t0 ∈ accessTokens (db s') <->
           t0 = t' \/ t0 = set_revokedAt (now continued) t \/ (t0 ∈ accessTokens (db continued) /\ t0 <> t))
  | (Throw _, s') =>
      db s' = db continued /\ forall t, t ∈ accessTokens (db continued) ->
        managementId t = first_management -> revokedAt t <> None
  end.
Proof. exact (rotate_effect config isUrl wallet_get hash continued first_management reach_continued). Defined.

Lemma introspect_sound_witness :
  exists info, introspectToken first_token (Some [payment None]) continued = (Ret info, continued) /\
    info <> Inactive.
Proof.
  destruct (introspect_sound config isUrl wallet_get hash continued first_token (Some [payment None])
    reach_continued) as (info & E & _).
  exists info. split; [exact E|]. intros ->. vm_compute in E. discriminate E.
Defined.
