(* ===== verification/OpenPaymentsAuth.v ===== *)
(** * OpenPaymentsAuth: who may make an Open Payments request

    Models [open_payments/auth/middleware.ts], [getWalletAddressForSubresource] of
    [open_payments/wallet_address/middleware.ts] and [parseLimits] of
    [open_payments/payment/outgoing/limits.ts].  A middleware is a computation on the
    state [X] of the services it calls, from what it reads of the request to what it
    adds to its context.  The introspection client, which asks the authorization server
    over HTTP, the client's keys and the check of an HTTP message signature are
    parameters.  The details of an error are left out. *)

From S2P Require Import Prelude Text Service OpenPayments AuthAccess AuthRoutes.
From S2P Require OutgoingPayment.
Import OutgoingPayment (Limits, l_receiver, l_debitAmount, l_receiveAmount, l_interval).

Local Open Scope Z_scope.
Local Open Scope ts_scope.
Local Open Scope string_scope.

Definition route_error {S A} (status : Z) (message : string) : M S A :=
  throw (OpenPaymentsServerRouteError status message).

(** ** The limits of a grant *)

Definition amount_json (a : PaymentAmount) : AmountJSON :=
  {| json_value := pa_value a; json_assetCode := pa_assetCode a; json_assetScale := pa_assetScale a |}.

(** [amount && parseAmount(amount)] *)
Definition parse_optional (a : option PaymentAmount) : outcome (option Amount) :=
  match a with
  | None => Ret None
  | Some a => match parseAmount (amount_json a) with Ret v => Ret (Some v) | Throw e => Throw e end
  end.

Definition parseLimits (limits : LimitData) : outcome Limits :=
  match parse_optional (debitAmount limits), parse_optional (receiveAmount limits) with
  | Throw e, _ => Throw e
  | _, Throw e => Throw e
  | Ret debit, Ret received =>
      Ret {| l_receiver := Some (receiver limits); l_debitAmount := debit;
             l_receiveAmount := received; l_interval := interval limits |}
  end.

(** ** The token *)

(** What the middleware adds to the context of the request. *)
Record Authorization := {
  accessAction : string;
  client : string;
  grant : option OutgoingPayment.Grant
}.

Definition request_access (requestType requestAction walletAddressUrl : string) : AccessItem :=
  {| type := requestType; actions := [requestAction]; identifier := Some walletAddressUrl;
     limits := None |}.

Definition action_of (requestAction : string) (access : AccessItem) : string :=
  if bool_decide (requestAction = "read") && bool_decide ("read-all" ∈ actions access) then "read-all"
  else if bool_decide (requestAction = "list") && bool_decide ("list-all" ∈ actions access)
  then "list-all"
  else requestAction.

Section Middleware.
Context {X : Type}.
Context (introspect : string -> list AccessItem -> M X TokenInfo).

(** The grant of the context: only the creation of an outgoing payment has one. *)
Definition grant_of (requestType requestAction grantId : string) (access : AccessItem)
  : M X (option OutgoingPayment.Grant) :=
  if bool_decide (requestType = "outgoing-payment") && bool_decide (requestAction = "create")
  then match limits access with
       | None => ret (Some {| OutgoingPayment.grant_id := grantId; OutgoingPayment.limits := None |})
       | Some l =>
           match parseLimits l with
           | Throw e => throw e
           | Ret l => ret (Some {| OutgoingPayment.grant_id := grantId;
                                   OutgoingPayment.limits := Some l |})
           end
       end
  else ret None.

(** The middleware where a token is required ([canSkipAuthValidation] is [false]). *)
Definition authorize (requestType requestAction : string) (authorization : option string)
    (walletAddressUrl : string) : M X Authorization :=
  match split " " <$> authorization with
  | Some [scheme; token] =>
      if negb (bool_decide (scheme = "GNAP"))
      then route_error 401 "Missing or invalid authorization header value"
      else
      let! tokenInfo := try_catch
        (introspect token [request_access requestType requestAction walletAddressUrl])
        (fun _ => route_error 401 "Invalid Token") in
      match tokenInfo with
      | Inactive => route_error 403 "Inactive Token"
      | Active grantId access c =>
          match access with
          | [] => route_error 403 "Insufficient Grant"
          | [access] =>
              let! g := grant_of requestType requestAction grantId access in
              ret {| accessAction := action_of requestAction access; client := c; grant := g |}
          | _ => route_error 500 "Unexpected number of access items"
          end
      end
  | _ => route_error 401 "Missing or invalid authorization header value"
  end.

(** [None] when the request goes on without a token. *)
Definition createTokenIntrospectionMiddleware (requestType requestAction : string)
    (canSkipAuthValidation : bool) (authorization : option string) (walletAddressUrl : string)
  : M X (option Authorization) :=
  if canSkipAuthValidation && negb (truthy authorization) then ret None
  else let! a := authorize requestType requestAction authorization walletAddressUrl in ret (Some a).

(** ** The signature of the client *)

(** A key of a client with its [kid], and a request as the library reads it. *)
Context {Key Request : Type} (kid : Key -> string).
(** Of the library: the key a signature names, and the check of a signature. *)
Context (getKeyId : string -> option string) (validateSignature : Key -> Request -> M X bool).
(** [openPaymentsClient.walletAddress.getKeys] *)
Context (getKeys : string -> M X (list Key)).

Definition throwIfSignatureInvalid (signatureInput : option string) (c : string) (request : Request)
  : M X unit :=
  let keyId := match signatureInput with
               | Some h => if truthy h then getKeyId h else None
               | None => None
               end in
  match keyId with
  | None => route_error 401 "Signature validation error: missing keyId in signature input"
  | Some keyId =>
      if negb (truthy keyId)
      then route_error 401 "Signature validation error: missing keyId in signature input"
      else
      let! keys := try_catch (getKeys c)
        (fun _ => route_error 401 "Signature validation error: could not retrieve client keys") in
      match List.find (fun key => bool_decide (kid key = keyId)) keys with
      | None => route_error 401 "Signature validation error: could not find key in list of client keys"
      | Some key =>
          let! isValidSignature := try_catch (validateSignature key request) (fun _ => ret false) in
          if negb isValidSignature
          then route_error 401 "Signature validation error: provided signature is invalid"
          else ret tt
      end
  end.

Definition httpsigMiddleware (signatureInput : option string) (c : string) (request : Request)
  : M X unit := throwIfSignatureInvalid signatureInput c request.

(** Whether the request is authenticated. *)
Definition authenticatedStatusMiddleware (authorization signatureInput : option string) (c : string)
    (request : Request) : M X bool :=
  if negb (truthy authorization) then ret false
  else throwIfSignatureInvalid signatureInput c request ;;! ret true.

(** ** The wallet address *)

(** [walletAddressService.getOrPollByUrl], at the time of the request. *)
Definition getWalletAddressForSubresource (getOrPollByUrl : string -> M X (option WalletAddress))
    (now : Z) (walletAddressUrl : string) : M X WalletAddress :=
  let! walletAddress := getOrPollByUrl walletAddressUrl in
  match walletAddress with
  | Some w => if wallet_isActive now w then ret w
              else route_error 400 "Could not get wallet address"
  | None => route_error 400 "Could not get wallet address"
  end.

(** ** What a request that passed says *)

Lemma grant_of_pure requestType requestAction gid access x :
  exists r, grant_of requestType requestAction gid access x = (r, x).
Proof.
  unfold grant_of. destruct (_ && _)%bool; [|by eexists].
  destruct (limits access) as [l|]; [|by eexists]. destruct (parseLimits l); by eexists.
Qed.

(** The token is active with exactly one access for what is asked. *)
Lemma authorize_spec requestType requestAction authorization url x a x' :
  authorize requestType requestAction authorization url x = (Ret a, x') ->
  exists token gid access c g, split " " <$> authorization = Some ["GNAP"; token] /\
    introspect token [request_access requestType requestAction url] x = (Ret (Active gid [access] c), x') /\
    grant_of requestType requestAction gid access x' = (Ret g, x') /\
    a = {| accessAction := action_of requestAction access; client := c; grant := g |}.
Proof.
  unfold authorize. simpl.
  destruct (split " " <$> authorization) as [[|scheme [|token [|? ?]]]|]; try done.
  destruct (negb _) eqn:E; [done|]. zbool. subst scheme. unfold bind, try_catch.
  destruct (introspect token _ x) as [[info|e] x1] eqn:Hi; [|done].
  destruct info as [|gid [|access [|? ?]] c]; try done.
  destruct (grant_of_pure requestType requestAction gid access x1) as [[g|e] Hg]; rewrite Hg; [|done].
  intros [= <- <-]. exists token, gid, access, c, g. done.
Qed.

(** The grant of the context is the one the token was issued for, with its limits. *)
Lemma create_grant_of gid access x g x' :
  grant_of "outgoing-payment" "create" gid access x = (Ret g, x') ->
  exists l, g = Some {| OutgoingPayment.grant_id := gid; OutgoingPayment.limits := l |} /\
    match limits access with
    | None => l = None
    | Some given => exists parsed, parseLimits given = Ret parsed /\ l = Some parsed
    end.
Proof.
  unfold grant_of. simpl. destruct (limits access) as [given|].
  - destruct (parseLimits given) as [parsed|] eqn:E; [|done]. intros [= <- <-]. eauto.
  - intros [= <- <-]. eauto.
Qed.
End Middleware.
