(* ===== verification/OutgoingRoutes.v ===== *)
(** * OutgoingRoutes: outgoing payments over Open Payments

    Models [open_payments/payment/outgoing/routes.ts] (creating and reading; the list is
    the page of the service), the error tables of [outgoing/errors.ts], and
    [toOpenPaymentsType] and [toOpenPaymentsWithSpentAmountsType] of
    [outgoing/model.ts], behind the middlewares that [app.ts] puts before them.  The
    main theorem composes the backend with the authorization server: a payment is made
    over Open Payments only with the consent of the resource owner. *)

From Stdlib Require Import Ascii.
From S2P Require Import Prelude Text Shared Service OpenPayments.
From S2P Require AuthAccess AuthServer AuthRoutes AuthSpecs AuthHistory Quote.
From S2P Require Import OpenPaymentsAuth OutgoingPayment OutgoingSpecs.

Local Open Scope Z_scope.
Local Open Scope ts_scope.
Local Open Scope string_scope.

(** ** Errors and bodies *)

Definition errorToHTTPCode (e : OutgoingPaymentError.t) : Z :=
  match e with
  | OutgoingPaymentError.UnknownWalletAddress | OutgoingPaymentError.UnknownPayment
  | OutgoingPaymentError.UnknownQuote => 404
  | OutgoingPaymentError.WrongState => 409
  | OutgoingPaymentError.InvalidQuote | OutgoingPaymentError.InactiveWalletAddress
  | OutgoingPaymentError.InvalidAmount | OutgoingPaymentError.NegativeReceiveAmount
  | OutgoingPaymentError.InvalidReceiver => 400
  | OutgoingPaymentError.InsufficientGrant => 403
  | OutgoingPaymentError.OnlyOneGrantAmountAllowed => 500
  end.

Definition errorToMessage (e : OutgoingPaymentError.t) : string :=
  match e with
  | OutgoingPaymentError.UnknownWalletAddress => "unknown wallet address"
  | OutgoingPaymentError.UnknownPayment => "unknown payment"
  | OutgoingPaymentError.UnknownQuote => "unknown quote"
  | OutgoingPaymentError.WrongState => "wrong state"
  | OutgoingPaymentError.InvalidQuote => "invalid quote"
  | OutgoingPaymentError.InsufficientGrant => "unauthorized"
  | OutgoingPaymentError.InactiveWalletAddress => "inactive wallet address"
  | OutgoingPaymentError.InvalidAmount => "invalid amount"
  | OutgoingPaymentError.NegativeReceiveAmount => "negative receive amount"
  | OutgoingPaymentError.InvalidReceiver => "invalid receiver"
  | OutgoingPaymentError.OnlyOneGrantAmountAllowed => "only one of receiveAmount or debitAmount allowed"
  end.

(** [url.replace(/\/+$/, '')] *)
Fixpoint without_trailing_slashes (url : string) : string :=
  match url with
  | EmptyString => EmptyString
  | String c rest =>
      let rest := without_trailing_slashes rest in
      if Ascii.eqb c "/"%char && bool_decide (rest = "") then EmptyString else String c rest
  end.

Definition payment_url (resourceServerUrl : string) (p : OutgoingPayment) : string :=
  without_trailing_slashes resourceServerUrl ++ "/" ++ tenantId p ++ "/outgoing-payments/" ++ id p.

Definition quote_url (resourceServerUrl : string) (q : Quote.Quote) : string :=
  without_trailing_slashes resourceServerUrl ++ "/" ++ Quote.q_tenantId q ++ "/quotes/" ++ Quote.q_id q.

Record OpenPaymentsOutgoingPayment := {
  op_id : string;
  op_walletAddress : string;
  op_quoteId : option string;
  op_receiveAmount : AmountJSON;
  op_debitAmount : AmountJSON;
  op_sentAmount : AmountJSON;
  op_receiver : string;
  op_failed : bool;
  op_metadata : option (gmap string Json);
  op_createdAt : Z
}.

Record OutgoingPaymentWithSpentAmounts := {
  op_payment : OpenPaymentsOutgoingPayment;
  grantSpentReceiveAmount : AmountJSON;
  grantSpentDebitAmount : AmountJSON
}.

Definition toOpenPaymentsType (resourceServerUrl : string) (walletAddress : WalletAddress)
    (p : OutgoingPayment) : outcome OpenPaymentsOutgoingPayment :=
  match debitAmount p, asset p with
  | Some debit, Some a =>
      Ret {| op_id := payment_url resourceServerUrl p; op_walletAddress := wa_address walletAddress;
             op_quoteId := Some (quote_url resourceServerUrl (quote p));
             op_receiveAmount := serializeAmount (receiveAmount p);
             op_debitAmount := serializeAmount debit;
             op_sentAmount := serializeAmount {| value := default 0%Z (sentAmountValue p);
               assetCode := a_code a; assetScale := a_scale a |};
             op_receiver := receiver p; op_failed := failed p; op_metadata := metadata p;
             op_createdAt := createdAt p |}
  | _, _ => Throw TypeError
  end.

Definition toOpenPaymentsWithSpentAmountsType (resourceServerUrl : string)
    (walletAddress : WalletAddress) (p : OutgoingPayment) : outcome OutgoingPaymentWithSpentAmounts :=
  match toOpenPaymentsType resourceServerUrl walletAddress p, debitAmount p with
  | Ret body, Some debit =>
      let received := receiveAmount p in
      Ret {| op_payment := body;
             grantSpentReceiveAmount := serializeAmount
               {| value := default 0%Z (grantSpentReceiveAmountValue p);
                  assetCode := assetCode received; assetScale := assetScale received |};
             grantSpentDebitAmount := serializeAmount
               {| value := default 0%Z (grantSpentDebitAmountValue p);
                  assetCode := assetCode debit; assetScale := assetScale debit |} |}
  | Throw e, _ => Throw e
  | _, None => Throw TypeError
  end.

(** ** The routes *)

Inductive BodySource :=
| FromQuote (quoteId : string)
| FromIncomingPayment (incomingPayment : string) (debitAmount : AmountJSON).

Record CreateBody := {
  b_walletAddress : string;
  b_metadata : option (gmap string Json);
  b_source : BodySource
}.

(** [parts.pop() || parts.pop()] of the parts of a URL *)
Definition quote_id_of (url : string) : string :=
  match rev (split "/" url) with
  | last :: rest => if truthy last then last else default "" (head rest)
  | [] => ""
  end.

Definition of_outcome {S A} (o : outcome A) : M S A :=
  match o with Ret a => ret a | Throw e => throw e end.

Section Routes.
Context {X : Type} `{Uuid}.
Context (deps : OutgoingDeps X) (openPaymentsUrl : string).

Notation OutgoingState := (Svc OutgoingDb X).

Definition source_of (src : BodySource) : M OutgoingState CreateSource :=
  match src with
  | FromIncomingPayment incomingPayment debit =>
      let! amount := of_outcome (parseAmount debit) in
      ret (CreateFromIncomingPayment incomingPayment (Some amount))
  | FromQuote url =>
      let quoteId := quote_id_of url in
      if truthy quoteId then ret (CreateFromQuote quoteId)
      else route_error 400 "Invalid quote id trying to create outgoing payment"
  end.

Definition createOutgoingPaymentRoute (tenantId : string) (walletAddress : WalletAddress)
    (ctx : Authorization) (body : CreateBody) : M OutgoingState OutgoingPaymentWithSpentAmounts :=
  let! src := source_of (b_source body) in
  let! outgoingPaymentOrError := createOutgoingPayment deps
    {| o_tenantId := tenantId; o_walletAddressId := wa_id walletAddress;
       o_client := Some (OpenPaymentsAuth.client ctx); o_grant := grant ctx;
       o_metadata := b_metadata body; o_source := src |} in
  match outgoingPaymentOrError with
  | Err e => route_error (errorToHTTPCode e) (errorToMessage e)
  | Ok p => of_outcome (toOpenPaymentsWithSpentAmountsType openPaymentsUrl walletAddress p)
  end.

Definition getOutgoingPaymentRoute (tenantId pid : string) (walletAddress : WalletAddress)
    (ctx : Authorization) : M OutgoingState OpenPaymentsOutgoingPayment :=
  let! outgoingPayment := getOutgoingPayment deps
    {| go_id := pid;
       go_client := if bool_decide (accessAction ctx = "read")
                    then Some (OpenPaymentsAuth.client ctx) else None;
       go_walletAddressId := None; go_tenantId := Some tenantId |} in
  match outgoingPayment with
  | None => route_error 404 "Outgoing payment does not exist"
  | Some p => of_outcome (toOpenPaymentsType openPaymentsUrl walletAddress p)
  end.

(** ** The requests, with the middlewares before the route *)

Context (introspect : string -> list AuthAccess.AccessItem -> M X AuthRoutes.TokenInfo).
Context {Key Request : Type} (kid : Key -> string).
Context (getKeyId : string -> option string) (validateSignature : Key -> Request -> M X bool).
Context (getKeys : string -> M X (list Key)).
Context (getOrPollByUrl : string -> M X (option WalletAddress)).

(** [POST /{tenantId}/outgoing-payments] *)
Definition postOutgoingPayment (tenantId : string) (authorization signatureInput : option string)
    (request : Request) (body : CreateBody) : M OutgoingState OutgoingPaymentWithSpentAmounts :=
  let url := b_walletAddress body in
  let! ctx := lift (authorize introspect "outgoing-payment" "create" authorization url) in
  lift (httpsigMiddleware kid getKeyId validateSignature getKeys signatureInput
          (OpenPaymentsAuth.client ctx) request) ;;!
  let! now := date_now in
  let! walletAddress := lift (getWalletAddressForSubresource getOrPollByUrl now url) in
  createOutgoingPaymentRoute tenantId walletAddress ctx body.

(** [getWalletAddressUrlFromOutgoingPayment] *)
Definition getWalletAddressUrlFromOutgoingPayment (tenantId pid : string) : M OutgoingState string :=
  let! outgoingPayment := getOutgoingPayment deps
    {| go_id := pid; go_client := None; go_walletAddressId := None; go_tenantId := Some tenantId |} in
  match outgoingPayment with
  | Some p => match walletAddress p with
              | Some w => ret (wa_address w)
              | None => route_error 401 "Unauthorized"
              end
  | None => route_error 401 "Unauthorized"
  end.

(** [GET /{tenantId}/outgoing-payments/{id}] *)
Definition getOutgoingPaymentRequest (tenantId pid : string)
    (authorization signatureInput : option string) (request : Request)
  : M OutgoingState OpenPaymentsOutgoingPayment :=
  let! url := getWalletAddressUrlFromOutgoingPayment tenantId pid in
  let! ctx := lift (authorize introspect "outgoing-payment" "read" authorization url) in
  lift (httpsigMiddleware kid getKeyId validateSignature getKeys signatureInput
          (OpenPaymentsAuth.client ctx) request) ;;!
  let! now := date_now in
  let! walletAddress := lift (getWalletAddressForSubresource getOrPollByUrl now url) in
  getOutgoingPaymentRoute tenantId pid walletAddress ctx.
End Routes.

(** ** A payment needs the consent of the resource owner *)

Section Consent.
Context {X Y : Type} `{Uuid, !UuidLaws, AuthServer.Random, !AuthServer.RandomLaws}.
Context (deps : OutgoingDeps X) (openPaymentsUrl : string).
Context (introspect : string -> list AuthAccess.AccessItem -> M X AuthRoutes.TokenInfo).
Context {Key Request : Type} (kid : Key -> string).
Context (getKeyId : string -> option string) (validateSignature : Key -> Request -> M X bool).
Context (getKeys : string -> M X (list Key)).
Context (getOrPollByUrl : string -> M X (option WalletAddress)).

(** The authorization server is one of the other services, and the introspection client
    answers what it answers. *)
Context (auth : X -> Svc AuthServer.AuthDb Y).
Context (introspect_answers : forall token access x info x',
  introspect token access x = (Ret info, x') ->
  (AuthRoutes.introspectToken token (Some access) (auth x)).1 = Ret info).
Context (config : AuthAccess.AuthConfig) (isUrl : string -> bool).
Context (walletAddress_get : string -> M Y (option string)) (sha256_base64 : string -> string).

(** What the ledger and the quotes are known to answer. *)
Context (sent_nonneg : forall pid x z x',
  Accounting.getTotalSent (accountingService deps) pid x = (Ret (Some z), x') -> 0 <= z).
Context (quotes_ok : forall options x q x', quote_get deps options x = (Ret (Some q), x') ->
  0 <= Quote.debitAmountValue q /\ 0 <= Quote.receiveAmountValue q).

Notation reachable := (AuthHistory.reachable config isUrl walletAddress_get sha256_base64).
Notation create_access := (request_access "outgoing-payment" "create").

(** Nothing about an outgoing payment is exempt from a consent. *)
Lemma outgoing_needs_consent (a : AuthAccess.Access) url :
  AuthAccess.covers (AuthAccess.toOpenPaymentsAccess a) (create_access url) ->
  AuthAccess.may_skip config (AuthAccess.toOpenPaymentsAccess a) = false.
Proof.
  intros [_ Ht _ _]. apply not_true_iff_false. intros (_ & _ & Hk & _)%AuthAccess.may_skip_iff.
  rewrite <- Ht in Hk. by destruct Hk as [[? _]|[? _]].
Qed.

(** At the authorization server there is a live token of the grant [gid], to whose
    interaction the resource owner agreed, with an access, limited by [l], to create
    outgoing payments from the wallet address. *)
Definition consents (server : Svc AuthServer.AuthDb Y) (url gid : string) (l : option Limits) : Prop :=
  exists t g i a,
    t ∈ AuthServer.accessTokens (db server) /\ AuthServer.revokedAt t = None /\
    AuthServer.isTokenExpired (now server) t = false /\
    g ∈ AuthServer.grants (db server) /\ AuthServer.id g = AuthServer.t_grantId t /\
    AuthServer.isRevokedGrant g = false /\
    i ∈ AuthServer.interactions (db server) /\ AuthServer.i_grantId i = AuthServer.id g /\
    AuthServer.i_state i = AuthServer.InteractionState.Approved /\
    a ∈ AuthServer.access_of (AuthServer.id g) (db server) /\
    AuthAccess.covers (AuthAccess.toOpenPaymentsAccess a) (create_access url) /\
    match AuthAccess.acc_limits a with
    | None => l = None
    | Some given => exists parsed, parseLimits given = Ret parsed /\ l = Some parsed
    end /\ gid = AuthServer.id g.

Lemma authorize_consent authorization url x ctx x' :
  reachable (auth x) ->
  authorize introspect "outgoing-payment" "create" authorization url x = (Ret ctx, x') ->
  exists g, grant ctx = Some g /\ consents (auth x) url (grant_id g) (limits g).
Proof.
  intros Hr Ha. pose proof (AuthHistory.reachable_wf _ _ _ _ _ Hr) as Hwf.
  apply authorize_spec in Ha as (token & gid & access & c & g' & _ & Hi & Hg & ->).
  apply create_grant_of in Hg as (l & -> & Hl).
  apply introspect_answers, AuthSpecs.introspect_active in Hi as
    (t & g & Ht & _ & Hlive & Hexp & Hgr & Eid & Hnr & -> & -> & Hitems).
  destruct (AuthSpecs.found_access_spec [create_access url]
    (AuthServer.access_of (AuthServer.id g) (db (auth x)))) as [Hfound _].
  { intros r ->%list_elem_of_singleton. simpl. by intros Hin%list_elem_of_singleton. }
  assert (access ∈ map AuthAccess.toOpenPaymentsAccess (AuthServer.found_access [create_access url]
    (AuthServer.access_of (AuthServer.id g) (db (auth x))))) as (a & -> & Ha)%list_elem_of_fmap
    by (rewrite <- Hitems; by left).
  destruct (Hfound a Ha) as (Hin & r & ->%list_elem_of_singleton & Hcov).
  destruct (AuthHistory.wf_token_consent _ _ Hwf t Ht) as [(i & Hi' & Ei & Hst)|[Hskip _]].
  - eexists. split; [done|]. exists t, g, i, a. split_and!; try done. congruence.
  - exfalso. apply elem_of_filter_bool in Hin as [Ea Hin]. zbool.
    pose proof (Hskip a Hin ltac:(congruence)) as Hk. by rewrite (outgoing_needs_consent a url Hcov) in Hk.
Qed.

Lemma subresource_wallet now url x w x' :
  getWalletAddressForSubresource getOrPollByUrl now url x = (Ret w, x') ->
  getOrPollByUrl url x = (Ret (Some w), x').
Proof.
  unfold getWalletAddressForSubresource, bind. destruct (getOrPollByUrl url x) as [[[w'|]|e] x1] eqn:E; [|done..].
  destruct (wallet_isActive now w'); [|done]. by intros [= -> ->].
Qed.

Lemma of_outcome_spec {S A} (o : outcome A) (s : S) : wp (of_outcome o) (fun _ s' => s' = s) s.
Proof. by destruct o. Qed.

Lemma source_of_spec src (s : Svc OutgoingDb X) : wp (source_of src) (fun _ s' => s' = s) s.
Proof.
  unfold source_of. destruct src as [url|url debit]; [by wp_auto|]. wp_step.
  eapply wp_mono; [apply of_outcome_spec|]. intros [a|e] ? ->; by try wp_step.
Qed.

(** The route adds no payment, or one for the client, the wallet and the grant of its
    context. *)
Lemma createOutgoingPaymentRoute_spec tenantId w ctx body (s : Svc OutgoingDb X) :
  Forall quote_ok (payments (db s)) ->
  wp (createOutgoingPaymentRoute deps openPaymentsUrl tenantId w ctx body)
    (fun _ s' => payments (db s') = payments (db s) \/
       exists row, payments (db s') = (payments (db s) ++ [row])%list /\
         grantId row = grant_id <$> grant ctx /\ walletAddressId row = wa_id w /\
         forall g, grant ctx = Some g -> within_grant deps g row (payments (db s'))) s.
Proof.
  intros Hok. unfold createOutgoingPaymentRoute. wp_step. eapply wp_mono; [apply source_of_spec|].
  intros [src|e] ? ->; [|by left]. wp_step.
  eapply wp_mono; [by apply (createOutgoingPayment_spec deps sent_nonneg quotes_ok)|].
  intros [[p|e]|e] s1 [_ Hs1].
  2:{ unfold route_error. wp_step. left. by rewrite Hs1. }
  2:{ left. by rewrite Hs1. }
  eapply wp_mono; [apply of_outcome_spec|]. intros ? ? ->. right.
  destruct Hs1 as (row & _ & _ & [_ [_ Hw] Hg _ _] & _ & Hrows & _ & _ & Hwithin & _). by exists row.
Qed.

(** C3. No payment without consent, across the two servers: whatever the outcome of a
    request to create an outgoing payment, either no payment was added, or exactly one
    was, and at the authorization server, whatever was asked of it before, there was
    then a live, unexpired token of a grant that is not revoked, of which an interaction
    was approved by the resource owner, with an access to create outgoing payments from
    that wallet address; the payment is recorded under that grant, is made from the
    wallet of that address, and keeps, together with the earlier payments of the
    grant, the limits of the access. *)
Theorem payment_needs_consent tenantId authorization signatureInput request body s :
  reachable (auth (ext s)) -> Forall quote_ok (payments (db s)) ->
  let s' := (postOutgoingPayment deps openPaymentsUrl introspect kid getKeyId validateSignature getKeys
    getOrPollByUrl tenantId authorization signatureInput request body s).2 in
  payments (db s') = payments (db s) \/
  exists row g w x x',
    payments (db s') = (payments (db s) ++ [row])%list /\
    grantId row = Some (grant_id g) /\ within_grant deps g row (payments (db s')) /\
    consents (auth (ext s)) (b_walletAddress body) (grant_id g) (limits g) /\
    walletAddressId row = wa_id w /\ getOrPollByUrl (b_walletAddress body) x = (Ret (Some w), x').
Proof.
  intros Hr Hok. cbv zeta. unfold postOutgoingPayment.
  match goal with |- payments (db (?m s).2) = _ \/ ?P =>
    pattern ((m s).2); match goal with |- ?Q _ => change (wp m (fun _ s' => Q s') s) end
  end.
  wp_step. wp_step; [|by left]. apply authorize_consent in Hcall as (g & Hg & Hconsent); [|done].
  wp_step. wp_step; [|by left]. do 2 wp_step. wp_step. wp_step; [|by left].
  apply subresource_wallet in Hcall0. eapply wp_mono; [by apply createOutgoingPaymentRoute_spec|].
  intros _ s1 [Hsame|(row & Hrows & Egrant & Ewallet & Hwithin)]; [by left|right].
  rewrite Hg in Egrant. exists row, g. do 3 eexists. split_and!; [done|done|by apply Hwithin|done|done|done].
Qed.
End Consent.
