(* ===== verification/Idempotency.v ===== *)
(** * Idempotency: mutations of the GraphQL API under an idempotency key

    Models [middleware/lock/{index,redis}.ts], [middleware/cache/index.ts],
    [cache/data-stores/redis.ts], [middleware/tenant/index.ts] and their composition in
    [graphql/middleware/index.ts] and [app.ts].  Requests run concurrently: between two
    commands to Redis, and while a resolver runs, other requests go on.  A request is a
    [program], a tree of the commands it sends and what it does with each reply; a [System]
    is a Redis with what is left of every request, and [system_step] is one command of one of
    them.  Redis runs one command at a time; a command that fails may have had its effect.

    Values are those a mutation takes and answers; a text in Redis is written as what
    [JSON.parse] makes of it. *)

From Stdlib Require Import SpecFloat.
From S2P Require Import Prelude Text JsNumber.

Local Open Scope Z_scope.
Local Open Scope ts_scope.

(** ** Values and JSON *)

Inductive js :=
| JUndefined
| JNull
| JBool (b : bool)
| JNumber (n : number)
| JBigInt (z : Z)
| JString (s : string)
| JDate (iso : string)
| JArray (l : list js)
| JObject (l : list (string * js)).

(** The members of an object that have a text. *)
Definition members (f : js -> option js) (l : list (string * js)) : list (string * js) :=
  omap (fun p => match f p.2 with Some v => Some (p.1, v) | None => None end) l.

(** [JSON.parse(JSON.stringify(v))]; a bigint is written as a text ([BigInt.prototype.toJSON] of
    [index.ts]), what has no text is left out of an object and is null in an array. *)
Fixpoint toJSON (v : js) : option js :=
  match v with
  | JUndefined => None
  | JNumber n => Some (if finite n then JNumber n else JNull)
  | JBigInt z => Some (JString (bigint_toString z))
  | JDate iso => Some (JString iso)
  | JArray l => Some (JArray (map (fun v => default JNull (toJSON v)) l))
  | JObject l => Some (JObject (members toJSON l))
  | v => Some v
  end.

(** [v?.name] *)
Definition js_field (name : string) (v : js) : js :=
  match v with
  | JObject l => match find_where (fun p => bool_decide (p.1 = name)) l with Some p => p.2 | None => JUndefined end
  | _ => JUndefined
  end.

(** [isEqual] of lodash on values of JSON: the order of members does not matter. *)
Fixpoint isEqual (a b : js) : bool :=
  match a, b with
  | JUndefined, JUndefined | JNull, JNull => true
  | JBool x, JBool y => Bool.eqb x y
  | JNumber x, JNumber y => SFeqb x y
  | JString x, JString y => bool_decide (x = y)
  | JArray l, JArray l' =>
      (fix all (l l' : list js) := match l, l' with
       | [], [] => true | x :: l, y :: l' => isEqual x y && all l l' | _, _ => false end) l l'
  | JObject l, JObject l' =>
      (List.length l =? List.length l')%nat
      && forallb (fun p => match find_where (fun q => bool_decide (q.1 = p.1)) l' with
                           | Some q => isEqual p.2 q.2 | None => false end) l
  | _, _ => false
  end.

(** ** Redis *)

Inductive redis_value := JsonText (v : js) | DateText (ms : Z).

(** [JSON.parse]; a date of [toISOString] is not JSON. *)
Definition parse (text : redis_value) : option js :=
  match text with JsonText v => Some v | DateText _ => None end.

Record Entry := { text : redis_value; expires : Z }.
Abbreviation Redis := (gmap string Entry).

Inductive command :=
| SetNx (key : string) (keyTtlMs : Z)
| Get (key : string)
| SetPx (key : string) (value : redis_value) (keyTtlMs : Z)
| Del (key : string).

Inductive redis_reply := OK | Nil | Text (v : redis_value).

Definition live (now : Z) (e : Entry) : bool := now <? expires e.
Definition redis_lookup (now : Z) (key : string) (r : Redis) : option redis_value :=
  match r !! key with Some e => if live now e then Some (text e) else None | None => None end.

(** [SET key date PX ttl NX]; the date is when the lock ends. *)
Definition exec (now : Z) (c : command) (r : Redis) : redis_reply * Redis :=
  match c with
  | SetNx key ttl =>
      if is_some (redis_lookup now key r) then (Nil, r)
      else (OK, <[key := {| text := DateText (now + ttl); expires := now + ttl |}]> r)
  | Get key => (match redis_lookup now key r with Some v => Text v | None => Nil end, r)
  | SetPx key v ttl => (OK, <[key := {| text := v; expires := now + ttl |}]> r)
  | Del key => (OK, delete key r)
  end.

(** [pexpiretime] and [flushall] of the data store, which no request uses. *)
Definition redis_getKeyExpiry (now : Z) (key : string) (r : Redis) : option Z :=
  match r !! key with Some e => if live now e && (0 <? expires e) then Some (expires e) else None | None => None end.
Definition redis_deleteAll (r : Redis) : Redis := ∅.

(** ** Requests *)

Inductive program :=
| Done (r : outcome js)
| Send (c : command) (k : outcome redis_reply -> program)
| Invoke (forTenantId : option string) (k : outcome js -> program).

(** [p] and then [k] of what it settles to. *)
Fixpoint andThen (p : program) (k : outcome js -> program) : program :=
  match p with
  | Done r => k r
  | Send c k' => Send c (fun a => andThen (k' a) k)
  | Invoke t k' => Invoke t (fun r => andThen (k' r) k)
  end.

(** A mutation: its field, its arguments, and who asks. *)
Record Mutation := {
  fieldName : string;
  args : js;
  signatureTenantId : string;
  isOperator : bool
}.

(** [args?.input?.name], a text or nothing by the schema. *)
Definition input_text (name : string) (m : Mutation) : option string :=
  match js_field name (js_field "input" (args m)) with JString s => Some s | _ => None end.
Definition idempotencyKey (m : Mutation) : option string := input_text "idempotencyKey" m.

Definition GraphQLError (message : string) : exn := JsError "GraphQLError" message.

Section Middleware.
Context (lockTtlMs cacheTtlMs : Z).

(** *** [middleware/lock] *)

Definition getFullKeyName (key : string) : string := "lock:" +:+ key.

(** The [finally] of a request that has the lock. *)
Definition release (key : string) (r : outcome js) : program :=
  Send (Del (getFullKeyName key)) (fun a => match a with Ret _ => Done r | Throw e => Done (Throw e) end).

Definition lockMiddleware (key : option string) (onFailToAcquireLock next : program) : program :=
  match key with
  | Some key =>
      if negb (truthy key) then next
      else
      Send (SetNx (getFullKeyName key) lockTtlMs) (fun a =>
        match a with
        | Ret OK => andThen next (release key)
        | Ret _ => onFailToAcquireLock
        | Throw e => Done (Throw e)
        end)
  | None => next
  end.

(** *** [middleware/cache] *)

Definition CachedRequest (requestResult requestParams : js) (operationName : string) : js :=
  JObject [("requestResult", requestResult); ("requestParams", requestParams);
           ("operationName", JString operationName)]%string.

Definition json (v : js) : js := default JUndefined (toJSON v).

(** A result that cannot be written is only logged. *)
Definition store_result (key : string) (m : Mutation) (requestResult : js) : program :=
  Send (SetPx key (JsonText (json (CachedRequest requestResult (args m) (fieldName m)))) cacheTtlMs)
    (fun _ => Done (Ret requestResult)).

Definition handleCacheMiss (key : string) (m : Mutation) (request : program) : program :=
  andThen request (fun r =>
    match r with Ret requestResult => store_result key m requestResult | Throw e => Done (Throw e) end).

Definition handleCacheHit (key : string) (m : Mutation) (request handleParamMismatch : program)
    (cachedRequestAsString : redis_value) : program :=
  match parse cachedRequestAsString with
  | None => Send (Del key) (fun a => match a with Ret _ => request | Throw e => Done (Throw e) end)
  | Some cachedRequest =>
      if negb (isEqual (js_field "operationName" cachedRequest) (JString (fieldName m)))
         || negb (isEqual (js_field "requestParams" cachedRequest) (json (args m)))
      then handleParamMismatch
      else Done (Ret (js_field "requestResult" cachedRequest))
  end.

Definition cacheMiddleware (key : option string) (m : Mutation) (handleParamMismatch request : program) : program :=
  match key with
  | Some key =>
      if negb (truthy key) then request
      else
      Send (Get key) (fun a =>
        match a with
        | Ret (Text cached) => handleCacheHit key m request handleParamMismatch cached
        | Ret _ => handleCacheMiss key m request
        | Throw e => Done (Throw e)
        end)
  | None => request
  end.

(** *** [middleware/tenant] *)

Definition tenantIdToProceed (isOperator : bool) (signatureTenantId : string) (tenantId : option string)
  : option string :=
  if isOperator && truthy tenantId then tenantId
  else if isOperator then Some signatureTenantId
  else if truthy tenantId && negb (bool_decide (tenantId = Some signatureTenantId)) then None
  else Some signatureTenantId.

Definition validateTenantMiddleware (m : Mutation) : program :=
  Invoke (tenantIdToProceed (isOperator m) (signatureTenantId m) (input_text "tenantId" m)) Done.

(** *** The API: the lock, then the cache, then the tenant, then the resolver *)

Definition handleMutation (m : Mutation) : program :=
  let key := idempotencyKey m in
  let shown := match key with Some k => k | None => "undefined"%string end in
  lockMiddleware key
    (Done (Throw (GraphQLError ("Concurrent request for idempotencyKey: " +:+ shown))))
    (cacheMiddleware key m
       (Done (Throw (GraphQLError
          ("Incoming arguments are different than the original request for idempotencyKey: " +:+ shown))))
       (validateTenantMiddleware m)).

(** ** What happens

    A task is a request, what is left of it, whether its resolver runs and what that
    returned; [t_holds] tells that it was given the lock and has not released it, [t_lost]
    that storing its result failed. *)

Record Task := {
  t_mutation : Mutation;
  t_program : program;
  t_started : bool;
  t_returned : option (outcome js);
  t_holds : bool;
  t_lost : bool
}.

Record System := { redis : Redis; clock : Z; tasks : list Task }.

Definition start (m : Mutation) : Task :=
  {| t_mutation := m; t_program := handleMutation m; t_started := false; t_returned := None; t_holds := false;
     t_lost := false |}.

(** The name of the lock of a task. *)
Definition t_key (t : Task) : option string := idempotencyKey (t_mutation t).

Definition holds_after (t : Task) (c : command) (a : outcome redis_reply) : bool :=
  match c, a with
  | SetNx _ _, Ret OK => true
  | Del k, _ => t_holds t && negb (bool_decide (Some k = (getFullKeyName <$> t_key t)))
  | _, _ => t_holds t
  end.

Definition stores_result (c : command) : bool := match c with SetPx _ _ _ => true | _ => false end.

Definition lost_after (t : Task) (c : command) (a : outcome redis_reply) : bool :=
  t_lost t || stores_result c && match a with Throw _ => true | Ret _ => false end.

(** The reply reaches the task. *)
Definition resume (t : Task) (c : command) (k : outcome redis_reply -> program) (a : outcome redis_reply) : Task :=
  {| t_mutation := t_mutation t; t_program := k a; t_started := t_started t;
     t_returned := t_returned t; t_holds := holds_after t c a; t_lost := lost_after t c a |}.

Definition set_task (i : nat) (t : Task) (r : Redis) (s : System) : System :=
  {| redis := r; clock := clock s; tasks := <[i := t]> (tasks s) |}.

(** A lock that is held and a result that was stored do not expire by [time]. *)
Definition in_time (s : System) (time : Z) : Prop :=
  (forall t key e, t ∈ tasks s -> t_holds t = true -> t_key t = Some key ->
     redis s !! getFullKeyName key = Some e -> time < expires e) /\
  (forall key v e, redis s !! key = Some {| text := JsonText v; expires := e |} -> time < e).

(** No key is the name of a lock. *)
Inductive system_step : System -> System -> Prop :=
| step_arrive s m :
    (forall key, idempotencyKey m = Some key -> String.prefix "lock:" key = false) ->
    system_step s {| redis := redis s; clock := clock s; tasks := tasks s ++ [start m] |}
| step_send s i t c k :
    tasks s !! i = Some t -> t_program t = Send c k ->
    system_step s (let '(a, r) := exec (clock s) c (redis s) in set_task i (resume t c k (Ret a)) r s)
| step_fail s i t c k e (effect : bool) :
    tasks s !! i = Some t -> t_program t = Send c k ->
    system_step s (set_task i (resume t c k (Throw e))
                     (if effect then (exec (clock s) c (redis s)).2 else redis s) s)
| step_invoke s i t id k :
    tasks s !! i = Some t -> t_program t = Invoke id k -> t_started t = false ->
    system_step s (set_task i {| t_mutation := t_mutation t; t_program := t_program t; t_started := true;
                                 t_returned := t_returned t; t_holds := t_holds t;
                                 t_lost := t_lost t |} (redis s) s)
| step_return s i t id k r :
    tasks s !! i = Some t -> t_program t = Invoke id k -> t_started t = true ->
    system_step s (set_task i {| t_mutation := t_mutation t; t_program := k r; t_started := false;
                                 t_returned := Some r; t_holds := t_holds t;
                                 t_lost := t_lost t |} (redis s) s)
| step_tick s time :
    clock s <= time -> in_time s time ->
    system_step s {| redis := redis s; clock := time; tasks := tasks s |}.
End Middleware.
