(* ===== verification/IdempotencySpecs.v ===== *)
(** * IdempotencySpecs: a mutation with an idempotency key runs once

    The interleavings of requests of [Idempotency].  A request with a key is in one of few
    [phase]s; the lock gives the key to one of them at a time, and a result that a resolver
    returned is stored before the lock is released, or is lost because Redis failed. *)

From S2P Require Import Prelude Text JsNumber Idempotency.

Local Open Scope Z_scope.
Local Open Scope ts_scope.

Section Specs.
Context (lockTtlMs cacheTtlMs : Z).
Context (lock_lasts : 0 < lockTtlMs) (cache_lasts : 0 < cacheTtlMs).
Implicit Types (s : System) (t u : Task) (m : Mutation) (key : string).

Notation step := (system_step lockTtlMs cacheTtlMs).

(** ** What is stored of a result *)

Lemma stored_fields w m :
  js_field "requestResult" (json (CachedRequest w (args m) (fieldName m))) = json w /\
  js_field "requestParams" (json (CachedRequest w (args m) (fieldName m))) = json (args m) /\
  js_field "operationName" (json (CachedRequest w (args m) (fieldName m))) = JString (fieldName m).
Proof. unfold json, CachedRequest. simpl. by destruct (toJSON w), (toJSON (args m)). Qed.

Lemma not_lock key : String.prefix "lock:" key = false -> forall key', key <> getFullKeyName key'.
Proof. intros H key' ->. unfold getFullKeyName in H. by destruct key'. Qed.

Lemma getFullKeyName_inj key key' : getFullKeyName key = getFullKeyName key' -> key = key'.
Proof. unfold getFullKeyName. by intros [= H]. Qed.

(** ** Phases *)

Definition keyed t key : Prop := t_key t = Some key /\ truthy key = true.

(** The resolver returned [v] to this request, or to one with the same key, field and
    arguments, whose result is read back from its text. *)
Definition answer s t (v : js) : Prop :=
  t_returned t = Some (Ret v) \/
  exists t' w, t' ∈ tasks s /\ t_key t' = t_key t /\ t_returned t' = Some (Ret w) /\
    fieldName (t_mutation t') = fieldName (t_mutation t) /\
    isEqual (json (args (t_mutation t'))) (json (args (t_mutation t))) = true /\ v = json w.

Definition succeeded t (v : js) : Prop := t_returned t = Some (Ret v).

(** The resolver returned, and storing its result did not fail. *)
Definition lasting t (v : js) : Prop := succeeded t v /\ t_lost t = false.

Definition mismatch key : program :=
  Done (Throw (GraphQLError
    ("Incoming arguments are different than the original request for idempotencyKey: " +:+ key))).
Definition acquired t key : program :=
  andThen (cacheMiddleware cacheTtlMs (Some key) (t_mutation t) (mismatch key)
             (validateTenantMiddleware (t_mutation t))) (release key).
Definition returning t key (r : outcome js) : program :=
  andThen match r with
          | Ret v => store_result cacheTtlMs key (t_mutation t) v
          | Throw e => Done (Throw e)
          end (release key).

Inductive phase s t : Prop :=
| ph_free :
    (forall key, t_key t = Some key -> truthy key = false) -> t_holds t = false ->
    t_program t = validateTenantMiddleware (t_mutation t) \/ (exists r, t_program t = Done r) -> phase s t
| ph_start key :
    keyed t key -> t_program t = handleMutation lockTtlMs cacheTtlMs (t_mutation t) ->
    t_returned t = None -> t_holds t = false -> phase s t
| ph_read key :
    keyed t key -> t_program t = acquired t key -> t_returned t = None -> t_holds t = true -> phase s t
| ph_invoke key id :
    keyed t key -> t_program t = Invoke id (returning t key) -> t_returned t = None -> t_holds t = true ->
    (forall t' v, t' ∈ tasks s -> t_key t' = Some key -> ~ lasting t' v) -> phase s t
| ph_write key v :
    keyed t key -> t_program t = returning t key (Ret v) -> succeeded t v -> t_holds t = true -> phase s t
| ph_release key r :
    keyed t key -> t_program t = release key r -> t_holds t = true ->
    (forall v, r = Ret v -> answer s t v) -> phase s t
| ph_done key r :
    keyed t key -> t_program t = Done r -> t_holds t = false ->
    (forall v, r = Ret v -> answer s t v) -> phase s t.

Definition stored s key : Prop := exists v e, redis s !! key = Some {| text := JsonText v; expires := e |}.

Record system_inv s : Prop := {
  si_phase : forall i t, tasks s !! i = Some t -> phase s t;
  si_keys : forall i t key, tasks s !! i = Some t -> t_key t = Some key -> String.prefix "lock:" key = false;
  (* the lock *)
  si_locked : forall i t key, tasks s !! i = Some t -> t_key t = Some key -> t_holds t = true ->
    exists e, redis s !! getFullKeyName key = Some e /\ clock s < expires e;
  si_one : forall i j t u key, tasks s !! i = Some t -> tasks s !! j = Some u ->
    t_key t = Some key -> t_key u = Some key -> t_holds t = true -> t_holds u = true -> i = j;
  (* the results *)
  si_text : forall key d e, redis s !! key = Some {| text := DateText d; expires := e |} ->
    String.prefix "lock:" key = true;
  si_stored : forall key v e, redis s !! key = Some {| text := JsonText v; expires := e |} -> clock s < e /\
    exists i t w, tasks s !! i = Some t /\ keyed t key /\ succeeded t w /\
      v = json (CachedRequest w (args (t_mutation t)) (fieldName (t_mutation t)));
  si_success : forall i t key v, tasks s !! i = Some t -> keyed t key -> lasting t v ->
    stored s key \/ t_holds t = true /\ t_program t = returning t key (Ret v);
  si_once : forall i j t u key v w, tasks s !! i = Some t -> tasks s !! j = Some u ->
    keyed t key -> keyed u key -> lasting t v -> lasting u w -> i = j
}.

(** Nothing changes but locks. *)
Definition lock_change (r r' : Redis) : Prop := forall key,
  r' !! key = r !! key \/
  String.prefix "lock:" key = true /\
    (r' !! key = None \/ exists d e, r' !! key = Some {| text := DateText d; expires := e |}).

Lemma lock_change_refl r : lock_change r r.
Proof. intros key. by left. Qed.

Lemma prefix_full key : String.prefix "lock:" (getFullKeyName key) = true.
Proof. unfold getFullKeyName. by destruct key. Qed.

Lemma lock_change_free r r' key : lock_change r r' -> String.prefix "lock:" key = false -> r' !! key = r !! key.
Proof. intros H Hk. destruct (H key) as [|[? _]]; [done|congruence]. Qed.

Lemma lock_change_json r r' key v e :
  lock_change r r' -> r' !! key = Some {| text := JsonText v; expires := e |} ->
  r !! key = Some {| text := JsonText v; expires := e |}.
Proof. intros H Hk. destruct (H key) as [<-|(_ & [?|(? & ? & ?)])]; congruence. Qed.

Lemma lock_change_date r r' key d e :
  lock_change r r' -> r' !! key = Some {| text := DateText d; expires := e |} ->
  r !! key = Some {| text := DateText d; expires := e |} \/ String.prefix "lock:" key = true.
Proof. intros H Hk. destruct (H key) as [<-|(? & _)]; eauto. Qed.

(** ** What the others see *)

Lemma phase_mono s s' u :
  (forall key t w, keyed u key -> t ∈ tasks s -> t_key t = Some key -> succeeded t w ->
     exists t', t' ∈ tasks s' /\ t_mutation t' = t_mutation t /\ succeeded t' w) ->
  (forall key t' w, keyed u key -> t_holds u = true -> t' ∈ tasks s' -> t_key t' = Some key ->
     lasting t' w -> exists t v, t ∈ tasks s /\ t_key t = Some key /\ lasting t v) ->
  phase s u -> phase s' u.
Proof.
  intros Hkept Hnew.
  assert (forall key v, keyed u key -> answer s u v -> answer s' u v) as Ha.
  { intros key v Hu [H|(t & w & Ht & Hk & Hw & Hf & He & ->)]; [by left|right].
    rewrite (proj1 Hu) in Hk. destruct (Hkept key t w Hu Ht Hk Hw) as (t' & Ht' & Hm & Hs).
    unfold t_key in Hk. exists t', w. unfold t_key. rewrite Hm. split_and!; try done.
    unfold keyed, t_key in Hu. destruct Hu. congruence. }
  intros [Hk Hh Hp|key Hk Hp Hr Hh|key Hk Hp Hr Hh|key id Hk Hp Hr Hh Hno|key v Hk Hp Hr Hh
    |key r Hk Hp Hh Hans|key r Hk Hp Hh Hans].
  - by apply ph_free.
  - by eapply ph_start.
  - by eapply ph_read.
  - eapply ph_invoke; try done. intros t' v Ht' Hk' Hv.
    destruct (Hnew key t' v Hk Hh Ht' Hk' Hv) as (t & w & Ht & Hkt & Hw). by eapply Hno.
  - by eapply ph_write.
  - eapply ph_release; eauto.
  - eapply ph_done; eauto.
Qed.

Section Update.
Context (s : System) (i : nat) (t t' : Task) (r : Redis).
Context (Hinv : system_inv s) (Ht : tasks s !! i = Some t) (Hm : t_mutation t' = t_mutation t).
#[local] Notation s' := (set_task i t' r s).

Lemma task_after j u : tasks s' !! j = Some u <-> (j = i /\ u = t') \/ (j <> i /\ tasks s !! j = Some u).
Proof.
  simpl. rewrite list_lookup_insert_Some. pose proof (lookup_lt_Some _ _ _ Ht).
  split; [intros [(-> & -> & _)|[]]|intros [[-> ->]|[]]]; auto.
Qed.

Lemma key_after : t_key t' = t_key t.
Proof. unfold t_key. by rewrite Hm. Qed.

Lemma elem_after u : u ∈ tasks s' <-> u = t' \/ exists j, j <> i /\ tasks s !! j = Some u.
Proof.
  rewrite list_elem_of_lookup. setoid_rewrite task_after. split; [intros (j & [[_ ->]|?]); eauto|].
  intros [->|(j & ?)]; [by exists i; left|by exists j; right].
Qed.

Section NothingReturned.
Context (Hret : t_returned t' = t_returned t) (Hlost : t_lost t = true -> t_lost t' = true).

Lemma success_before j u v : tasks s' !! j = Some u -> lasting u v ->
  exists u0, tasks s !! j = Some u0 /\ t_mutation u0 = t_mutation u /\ lasting u0 v.
Proof.
  intros [[-> ->]|[Hne Hu]]%task_after [Hv Hl]; [|by exists u]. exists t.
  unfold lasting, succeeded in *. rewrite Hm, <- Hret. split_and!; try done.
  destruct (t_lost t); [|done]. by rewrite Hlost in Hl.
Qed.

Lemma success_after u v : u ∈ tasks s -> succeeded u v ->
  exists u', u' ∈ tasks s' /\ t_mutation u' = t_mutation u /\ succeeded u' v.
Proof.
  intros [j Hu]%list_elem_of_lookup Hv. destruct (decide (j = i)) as [->|Hne].
  - assert (u = t) as -> by congruence. exists t'. split_and!; [|done|unfold succeeded; congruence].
    apply elem_after. by left.
  - exists u. split_and!; [|done..]. apply elem_after. right. by exists j.
Qed.

Lemma answer_after v : answer s t v -> answer s' t' v.
Proof.
  intros [Hv|(u & w & Hu & Hk & Hw & Hf & He & ->)]; [left; congruence|right].
  destruct (success_after u w Hu Hw) as (u' & Hu' & Hmu & Hw'). exists u', w.
  rewrite Hm, Hmu. unfold t_key in *. rewrite Hm, Hmu. by split_and!.
Qed.

Lemma unanswered_after key :
  (forall u v, u ∈ tasks s -> t_key u = Some key -> ~ lasting u v) ->
  forall u v, u ∈ tasks s' -> t_key u = Some key -> ~ lasting u v.
Proof.
  intros Hno u v [j Hu]%list_elem_of_lookup Hk Hv.
  destruct (success_before j u v Hu Hv) as (u0 & Hu0 & Hm0 & Hv0).
  eapply Hno; [by eapply list_elem_of_lookup_2|unfold t_key in *; by rewrite Hm0|done].
Qed.

Lemma phases_after : phase s' t' -> forall j u, tasks s' !! j = Some u -> phase s' u.
Proof.
  intros Hphase j u [[-> ->]|[Hne Hu]]%task_after; [done|].
  eapply phase_mono; [intros; by apply success_after| |by eapply si_phase].
  intros key u' w _ _ [j' Hu']%list_elem_of_lookup Hku' Hw.
  destruct (success_before j' u' w Hu' Hw) as (u0 & Hu0 & Hm0 & Hw0).
  exists u0, w. split_and!; [by eapply list_elem_of_lookup_2|unfold t_key; by rewrite Hm0|done].
Qed.

Lemma keys_after j u key :
  tasks s' !! j = Some u -> t_key u = Some key -> String.prefix "lock:" key = false.
Proof.
  intros [[-> ->]|[Hne Hu]]%task_after Hku; [|by eapply si_keys].
  apply (si_keys s Hinv i t); [done|]. by rewrite <- key_after.
Qed.

Lemma once_after j j' u u' key v w : tasks s' !! j = Some u -> tasks s' !! j' = Some u' ->
  keyed u key -> keyed u' key -> lasting u v -> lasting u' w -> j = j'.
Proof.
  intros Hu Hu' [Hku Htr] [Hku' _] Hv Hw.
  destruct (success_before j u v Hu Hv) as (u0 & Hu0 & Hm0 & Hv0).
  destruct (success_before j' u' w Hu' Hw) as (u1 & Hu1 & Hm1 & Hw1).
  apply (si_once s Hinv j j' u0 u1 key v w); try done; split; unfold t_key in *; congruence.
Qed.

(** A result that is stored is still that of a task. *)
Lemma stored_after (key : string) (x : js) :
  (exists j u w, tasks s !! j = Some u /\ keyed u key /\ succeeded u w /\
     x = json (CachedRequest w (args (t_mutation u)) (fieldName (t_mutation u)))) ->
  exists j u w, tasks s' !! j = Some u /\ keyed u key /\ succeeded u w /\
     x = json (CachedRequest w (args (t_mutation u)) (fieldName (t_mutation u))).
Proof.
  intros (j & u & w & Hu & Hku & Hw & ->). destruct (decide (j = i)) as [->|Hne].
  - assert (u = t) as -> by congruence. exists i, t', w.
    unfold succeeded, keyed in *. rewrite Hm, key_after, Hret. split_and!; try done; try apply Hku. apply task_after. by left.
  - exists j, u, w. split_and!; try done. apply task_after. by right.
Qed.

(** Only locks change. *)
Lemma inv_update :
  lock_change (redis s) r ->
  (forall j u key, j <> i -> tasks s !! j = Some u -> t_key u = Some key -> t_holds u = true ->
     r !! getFullKeyName key = redis s !! getFullKeyName key) ->
  (forall key, t_holds t' = true -> t_key t = Some key ->
     (exists e, r !! getFullKeyName key = Some e /\ clock s < expires e) /\
     forall j u, j <> i -> tasks s !! j = Some u -> t_key u = Some key -> t_holds u = false) ->
  (forall key v, keyed t key -> lasting t v -> t_lost t' = false ->
     stored s key \/ t_holds t' = true /\ t_program t' = returning t key (Ret v)) ->
  phase s' t' -> system_inv s'.
Proof.
  intros Hr Hothers Hown Hpending Hphase. pose proof key_after as Hk.
  assert (forall key, stored s key -> String.prefix "lock:" key = false -> stored s' key) as Hst.
  { intros key (v & e & Hv) Hl. exists v, e. simpl. by rewrite (lock_change_free _ _ key Hr Hl). }
  split; [by apply phases_after|apply keys_after|..|apply once_after];
    destruct Hinv as [H1 H2 H3 H4 H5 H6 H7 H8].
  - intros j u key [[-> ->]|[Hne Hu]]%task_after Hku Hh; [apply Hown; [done|congruence]|].
    simpl. rewrite (Hothers j u key) by done. by eapply H3.
  - intros j j' u u' key [[-> ->]|[Hne Hu]]%task_after [[-> ->]|[Hne' Hu']]%task_after Hku Hku' Hh Hh'; [done|..].
    + rewrite Hk in Hku. destruct (Hown key Hh Hku) as [_ Hno]. by rewrite (Hno j' u') in Hh'.
    + rewrite Hk in Hku'. destruct (Hown key Hh' Hku') as [_ Hno]. by rewrite (Hno j u) in Hh.
    + by eapply (H4 j j' u u').
  - intros key d e He. destruct (lock_change_date _ _ _ _ _ Hr He) as [Hd|?]; [by eapply H5|done].
  - intros key v e He. apply (lock_change_json _ _ _ _ _ Hr) in He.
    destruct (H6 key v e He) as [? Hex]. split; [done|by apply stored_after].
  - intros j u key v [[-> ->]|[Hne Hu]]%task_after [Hku Htr] Hv.
    + rewrite Hk in Hku. destruct Hv as [Hv Hl]. unfold succeeded in Hv. rewrite Hret in Hv.
      assert (t_lost t = false) as Hlt by (destruct (t_lost t); [by rewrite Hlost in Hl|done]).
      destruct (Hpending key v) as [Hs|[Hh Hp]]; [by split|by split|done|left|right].
      * apply Hst; [done|by eapply H2].
      * unfold returning in *. rewrite Hm. by split.
    + destruct (H7 j u key v Hu) as [Hs|?]; [by split|done| |by right]. left. apply Hst; [done|by eapply H2].
Qed.

(** The result of the resolver is stored. *)
Lemma inv_store key v :
  keyed t key -> succeeded t v -> t_holds t = true -> t_holds t' = true ->
  r = <[key := {| text := JsonText (json (CachedRequest v (args (t_mutation t)) (fieldName (t_mutation t))));
                  expires := clock s + cacheTtlMs |}]> (redis s) ->
  phase s' t' -> system_inv s'.
Proof.
  intros [Hkt Htr] Hv Hh Hh' Hr Hphase. pose proof key_after as Hk.
  pose proof (si_keys s Hinv i t key Ht Hkt) as Hlock.
  split; [by apply phases_after|apply keys_after|..|apply once_after];
    destruct Hinv as [H1 H2 H3 H4 H5 H6 H7 H8].
  - intros j u key' Hu Hku Hhu. simpl. rewrite Hr, lookup_insert_ne by (by apply not_lock).
    apply task_after in Hu as [[-> ->]|[_ Hu]]; [|by eapply H3]. apply (H3 i t); congruence.
  - intros j j' u u' key' [[-> ->]|[Hne Hu]]%task_after [[-> ->]|[Hne' Hu']]%task_after Hku Hku' Hhu Hhu';
      rewrite ?Hk in *; [done|eapply (H4 i j' t u')|eapply (H4 j i u t)|by eapply (H4 j j' u u')]; done.
  - intros key' d e. simpl. rewrite Hr. intros [[_ [=]]|[_ He]]%lookup_insert_Some. by eapply H5.
  - intros key' x e. simpl. rewrite Hr. intros [[-> [= <- <-]]|[_ He]]%lookup_insert_Some.
    + split; [lia|]. apply stored_after. by exists i, t, v.
    + destruct (H6 key' x e He) as [? Hex]. split; [done|by apply stored_after].
  - intros j u key' w Hu Hku Hw.
    assert (stored s key' \/ key' = key -> stored s' key') as Hst.
    { intros Hor. unfold stored. simpl. rewrite Hr. destruct (decide (key' = key)) as [->|Hne].
      - rewrite lookup_insert_eq. eauto.
      - destruct Hor as [(x & e & He)|]; [|done]. exists x, e. by rewrite lookup_insert_ne. }
    apply task_after in Hu as [[-> ->]|[Hne Hu]].
    + left. apply Hst. right. destruct Hku. congruence.
    + destruct (H7 j u key' w Hu Hku Hw) as [Hs|?]; [|by right]. left. apply Hst. by left.
Qed.
End NothingReturned.

(** A resolver returns. *)
Lemma inv_return res :
  r = redis s -> t_holds t' = t_holds t -> t_returned t' = Some res ->
  (forall key, keyed t key -> t_holds t = true /\ t_returned t = None /\ t_program t' = returning t key res /\
     forall u v, u ∈ tasks s -> t_key u = Some key -> ~ lasting u v) ->
  phase s' t' -> system_inv s'.
Proof.
  intros Hr Hh Hret Hnew Hphase. pose proof key_after as Hk.
  assert (forall key, keyed t' key -> keyed t key) as Hkeyed by (unfold keyed; by rewrite Hk).
  assert (forall j u, tasks s' !! j = Some u -> j <> i -> tasks s !! j = Some u) as Hback
    by (intros j u [[-> _]|[_ ?]]%task_after ?; done).
  split; [| |destruct Hinv as [H1 H2 H3 H4 H5 H6 H7 H8]..].
  - intros j u [[-> ->]|[Hne Hu]]%task_after; [done|].
    eapply phase_mono; [| |by eapply si_phase].
    + intros key u' w Hku [j' Hu']%list_elem_of_lookup Hku' Hw. destruct (decide (j' = i)) as [->|Hne'].
      * assert (u' = t) as -> by congruence. exfalso.
        destruct (Hnew key) as (_ & Hnone & _); [by split; [|apply Hku]|]. unfold succeeded in Hw. congruence.
      * exists u'. split_and!; try done. apply elem_after. right. by exists j'.
    + intros key u' w Hku Hhu [->|(j' & Hne' & Hu')]%elem_after Hku' Hw.
      * exfalso. destruct (Hnew key) as (Hht & _); [apply Hkeyed; split; [done|apply Hku]|].
        apply Hne. apply (si_one s Hinv j i u t key); try done; [apply Hku|congruence].
      * exists u', w. split_and!; [by eapply list_elem_of_lookup_2|done..].
  - intros j u key [[-> ->]|[Hne Hu]]%task_after Hku; [|by eapply si_keys].
    apply (si_keys s Hinv i t); [done|congruence].
  - intros j u key [[-> ->]|[Hne Hu]]%task_after Hku Hhu; simpl; rewrite Hr;
      [apply (H3 i t); congruence|by eapply H3].
  - intros j j' u u' key [[-> ->]|[Hne Hu]]%task_after [[-> ->]|[Hne' Hu']]%task_after Hku Hku' Hhu Hhu';
      rewrite ?Hk, ?Hh in *; [done|eapply (H4 i j' t u')|eapply (H4 j i u t)|by eapply (H4 j j' u u')]; done.
  - simpl. by rewrite Hr.
  - intros key x e. simpl. rewrite Hr. intros He. destruct (H6 key x e He) as (? & j & u & w & Hu & Hku & Hw & ->). split; [done|].
    exists j, u, w. split_and!; try done. apply task_after. right. split; [|done]. intros ->.
    assert (u = t) as -> by congruence. destruct (Hnew key Hku) as (_ & Hnone & _). unfold succeeded in Hw. congruence.
  - intros j u key v [[-> ->]|[Hne Hu]]%task_after Hku Hv; [right|unfold stored; simpl; rewrite Hr; by apply (H7 j u)].
    destruct (Hnew key) as (Hht & _ & Hp & _); [by apply Hkeyed|]. destruct Hv as [Hv _]. unfold succeeded in Hv.
    assert (res = Ret v) as -> by congruence. unfold returning in *. rewrite Hm, Hh. by split.
  - assert (forall j u key v w, tasks s !! j = Some u -> keyed t' key -> keyed u key ->
      lasting t' v -> lasting u w -> False) as Hclash.
    { intros j u key v w Hu Hkt Hku _ Hw. destruct (Hnew key) as (_ & _ & _ & Hno); [by apply Hkeyed|].
      eapply Hno; [by eapply list_elem_of_lookup_2|apply Hku|exact Hw]. }
    intros j j' u u' key v w [[-> ->]|[Hne Hu]]%task_after [[-> ->]|[Hne' Hu']]%task_after Hku Hku' Hv Hw; [done|..].
    + exfalso. by eapply (Hclash j' u').
    + exfalso. by eapply (Hclash j u).
    + by eapply (H8 j j' u u').
Qed.
End Update.

(** ** The steps *)

Lemma setnx_change key r now :
  lock_change r (exec now (SetNx (getFullKeyName key) lockTtlMs) r).2.
Proof.
  simpl. destruct (is_some _); [apply lock_change_refl|]. intros key'. simpl.
  destruct (decide (key' = getFullKeyName key)) as [->|Hne]; [right|left; by rewrite lookup_insert_ne].
  split; [apply prefix_full|right]. rewrite lookup_insert_eq. eauto.
Qed.

Lemma del_change key r now : lock_change r (exec now (Del (getFullKeyName key)) r).2.
Proof.
  intros key'. simpl. destruct (decide (key' = getFullKeyName key)) as [->|Hne];
    [right|left; by rewrite lookup_delete_ne]. split; [apply prefix_full|left]. apply lookup_delete_eq.
Qed.

(** A lock that is free is not that of a task that holds one. *)
Lemma setnx_others s i t key : system_inv s -> tasks s !! i = Some t -> t_key t = Some key -> t_holds t = true ->
  forall key', (exec (clock s) (SetNx (getFullKeyName key') lockTtlMs) (redis s)).2 !! getFullKeyName key
    = redis s !! getFullKeyName key.
Proof.
  intros Hinv Ht Hk Hh key'. simpl. destruct (is_some _) eqn:E; [done|]. simpl.
  rewrite lookup_insert_ne; [done|]. intros ->%getFullKeyName_inj.
  destruct (si_locked s Hinv i t key Ht Hk Hh) as (e & He & Hl). unfold redis_lookup, live in E.
  rewrite He in E. by rewrite (proj2 (Z.ltb_lt _ _) Hl) in E.
Qed.

Lemma del_others s i j t u key key' :
  system_inv s -> tasks s !! i = Some t -> t_key t = Some key -> t_holds t = true ->
  tasks s !! j = Some u -> t_key u = Some key' -> t_holds u = true -> j <> i ->
  (exec (clock s) (Del (getFullKeyName key)) (redis s)).2 !! getFullKeyName key'
    = redis s !! getFullKeyName key'.
Proof.
  intros Hinv Ht Hk Hh Hu Hku Hhu Hne. simpl. rewrite lookup_delete_ne; [done|].
  intros ->%getFullKeyName_inj. apply Hne. by eapply si_one.
Qed.

(** The lock of another holder of the key. *)
Lemma lone_holder s i t key : system_inv s -> tasks s !! i = Some t -> t_key t = Some key -> t_holds t = true ->
  (exists e, redis s !! getFullKeyName key = Some e /\ clock s < expires e) /\
  forall j u, j <> i -> tasks s !! j = Some u -> t_key u = Some key -> t_holds u = false.
Proof.
  intros Hinv Ht Hk Hh. split; [by eapply si_locked|]. intros j u Hne Hu Hku.
  destruct (t_holds u) eqn:Hhu; [|done]. exfalso. apply Hne. by eapply si_one.
Qed.

(** What a reply makes of a task that asks for its lock, or gives it back. *)
Lemma start_program t key :
  keyed t key -> handleMutation lockTtlMs cacheTtlMs (t_mutation t) =
  Send (SetNx (getFullKeyName key) lockTtlMs) (fun a =>
    match a with
    | Ret OK => acquired t key
    | Ret _ => Done (Throw (GraphQLError ("Concurrent request for idempotencyKey: " +:+ key)))
    | Throw e => Done (Throw e)
    end).
Proof.
  intros [Hk Htr]. unfold handleMutation, t_key in *. rewrite Hk. unfold lockMiddleware.
  by rewrite Htr.
Qed.

Lemma read_program t key : truthy key = true -> exists k, acquired t key = Send (Get key) k /\
  (forall e, k (Throw e) = release key (Throw e)) /\
  (exists id, k (Ret Nil) = Invoke id (returning t key)) /\
  forall cached, k (Ret (Text cached)) =
    andThen (handleCacheHit key (t_mutation t) (validateTenantMiddleware (t_mutation t)) (mismatch key) cached)
      (release key).
Proof.
  intros Htr. unfold acquired, cacheMiddleware. rewrite Htr. simpl. eexists. split; [reflexivity|].
  split_and!; [done| |done]. eexists. reflexivity.
Qed.

(** A hit answers with the result of another request, or throws. *)
Lemma hit_program s i t key v e :
  system_inv s -> tasks s !! i = Some t -> keyed t key ->
  redis s !! key = Some {| text := JsonText v; expires := e |} ->
  exists r, andThen (handleCacheHit key (t_mutation t) (validateTenantMiddleware (t_mutation t)) (mismatch key)
              (JsonText v)) (release key) = release key r /\ forall w, r = Ret w -> answer s t w.
Proof.
  intros Hinv Ht [Hk Htr] He. destruct (si_stored s Hinv key v e He) as (_ & j & u & w & Hu & [Hku _] & Hw & ->).
  destruct (stored_fields w (t_mutation u)) as (E1 & E2 & E3). unfold handleCacheHit. simpl parse. cbv iota.
  rewrite E1, E2, E3. destruct (isEqual (JString _) (JString _)) eqn:Hf; simpl; [|by eexists].
  destruct (isEqual (json _) (json _)) eqn:Hp; simpl; [|by eexists].
  eexists. split; [done|]. intros x [= <-]. right. exists u, w. simpl in Hf. apply bool_decide_eq_true in Hf.
  split_and!; try done; [by eapply list_elem_of_lookup_2|congruence].
Qed.

(** A key under which nothing is found has no result that was returned. *)
Lemma miss_unanswered s i t key :
  system_inv s -> tasks s !! i = Some t -> keyed t key -> t_returned t = None -> t_holds t = true ->
  redis_lookup (clock s) key (redis s) = None ->
  forall t' v, t' ∈ tasks s -> t_key t' = Some key -> ~ lasting t' v.
Proof.
  intros Hinv Ht [Hk Htr] Hnone Hh Hmiss t' v [j Ht']%list_elem_of_lookup Hk' Hv.
  destruct (si_success s Hinv j t' key v Ht') as [(x & e & He)|[Hh' _]]; [by split|done|..].
  - unfold redis_lookup, live in Hmiss. rewrite He in Hmiss. simpl in Hmiss.
    destruct (si_stored s Hinv key x e He) as [Hl _]. by rewrite (proj2 (Z.ltb_lt _ _) Hl) in Hmiss.
  - assert (j = i) as -> by by eapply (si_one s Hinv j i t' t key).
    assert (t' = t) as -> by congruence. destruct Hv as [Hv _]. unfold succeeded in Hv. congruence.
Qed.

(** What a task that has returned a result leaves pending. *)
Lemma nothing_pending s i t t' key0 :
  system_inv s -> tasks s !! i = Some t -> keyed t key0 ->
  (forall v, t_program t <> returning t key0 (Ret v)) ->
  forall key v, keyed t key -> lasting t v -> t_lost t' = false ->
    stored s key \/ t_holds t' = true /\ t_program t' = returning t key (Ret v).
Proof.
  intros Hinv Ht [Hk0 _] Hne key v Hk Hv _. assert (key0 = key) as -> by (destruct Hk; congruence).
  destruct (si_success s Hinv i t key v Ht Hk Hv) as [?|[_ Hp]]; [by left|]. by destruct (Hne v).
Qed.

Lemma resume_lost t c k a : t_lost t = true -> t_lost (resume t c k a) = true.
Proof. simpl. unfold lost_after. by intros ->. Qed.
Ltac update_done := try first [done | by apply resume_lost].

Lemma step_send_inv s i t c k :
  system_inv s -> tasks s !! i = Some t -> t_program t = Send c k ->
  system_inv (let '(a, r) := exec (clock s) c (redis s) in set_task i (resume t c k (Ret a)) r s).
Proof.
  intros Hinv Ht Hprog.
  destruct (si_phase s Hinv i t Ht) as [Hk Hh [Hp|[r Hp]]|key Hk Hp Hr Hh|key Hk Hp Hr Hh|key id Hk Hp Hr Hh Hno
    |key v Hk Hp Hr Hh|key r Hk Hp Hh Hans|key r Hk Hp Hh Hans]; rewrite Hp in Hprog; try done.
  - rewrite (start_program t key Hk) in Hprog. injection Hprog as <- <-.
    pose proof (setnx_change key (redis s) (clock s)) as Hchange.
    pose proof (fun j u key' Hu Hku Hhu => setnx_others s j u key' Hinv Hu Hku Hhu key) as Hothers.
    revert Hchange Hothers. simpl. destruct (is_some _) eqn:El; simpl; intros Hchange Hothers.
    + eapply inv_update; update_done; [simpl; by rewrite Hh|..].
      * eapply nothing_pending; [done..|]. intros v. by rewrite Hp, (start_program t key Hk).
      * by eapply (ph_done _ _ key).
    + eapply inv_update; update_done; [intros; by eapply Hothers|..].
      * intros key' _ Hk'. assert (key' = key) as -> by (destruct Hk; congruence). split.
        -- rewrite lookup_insert_eq. eexists. split; [done|]. simpl. lia.
        -- intros j u Hne Hu Hku. destruct (t_holds u) eqn:Hhu; [|done]. exfalso.
           destruct (si_locked s Hinv j u key Hu Hku Hhu) as (e & He & Hl). unfold redis_lookup, live in El.
           rewrite He in El. by rewrite (proj2 (Z.ltb_lt _ _) Hl) in El.
      * eapply nothing_pending; [done..|]. intros v. by rewrite Hp, (start_program t key Hk).
      * by eapply (ph_read _ _ key).
  - destruct (read_program t key (proj2 Hk)) as (k' & E & _ & [id Hnil] & Htext). rewrite E in Hprog.
    injection Hprog as <- <-. simpl. destruct (lone_holder s i t key Hinv Ht (proj1 Hk) Hh) as [Hlock Halone].
    assert (forall key', t_key t = Some key' -> key' = key) as Hkey by (destruct Hk; congruence).
    assert (forall v, t_program t <> returning t key (Ret v)) as Hnot by (intros v; by rewrite Hp, E).
    destruct (redis_lookup (clock s) key (redis s)) as [x|] eqn:El;
      (eapply inv_update; update_done; [apply lock_change_refl|intros key' _ ->%Hkey; by split|by eapply nothing_pending|]).
    + unfold redis_lookup in El. destruct (redis s !! key) as [[x' e]|] eqn:He; [|done].
      simpl in El. destruct (live _ _); [|done]. injection El as ->. destruct x as [v|d].
      * destruct (hit_program s i t key v e Hinv Ht Hk He) as (r & Hr' & Hans).
        eapply (ph_release _ _ key r); simpl; [done|by rewrite Htext|done|].
        intros w Hw. apply (answer_after s i t _ _ Ht); auto.
      * exfalso. pose proof (si_text s Hinv key d e He). by rewrite (si_keys s Hinv i t key Ht (proj1 Hk)) in *.
    + eapply (ph_invoke _ _ key id); try done. apply (unanswered_after s i t _ _ Ht); update_done.
      by eapply miss_unanswered.
  - injection Hprog as <- <-. eapply inv_store; update_done. eapply (ph_release _ _ key (Ret v)); try done.
    intros w [= <-]. by left.
  - injection Hprog as <- <-. simpl. eapply inv_update; update_done.
    + exact (del_change key (redis s) (clock s)).
    + intros j u key' Hne Hu Hku Hhu. eapply (del_others s i j); try done. apply Hk.
    + simpl. rewrite (proj1 Hk), bool_decide_eq_true_2 by done. by rewrite andb_false_r.
    + eapply nothing_pending; [done..|]. intros v. by rewrite Hp.
    + eapply (ph_done _ _ key r); try done.
      * simpl. rewrite (proj1 Hk), bool_decide_eq_true_2 by done. by rewrite andb_false_r.
      * intros v Hv. apply (answer_after s i t _ _ Ht); auto.
Qed.

Lemma step_fail_inv s i t c k e (effect : bool) :
  system_inv s -> tasks s !! i = Some t -> t_program t = Send c k ->
  system_inv (set_task i (resume t c k (Throw e))
                (if effect then (exec (clock s) c (redis s)).2 else redis s) s).
Proof.
  intros Hinv Ht Hprog.
  destruct (si_phase s Hinv i t Ht) as [Hk Hh [Hp|[r Hp]]|key Hk Hp Hr Hh|key Hk Hp Hr Hh|key id Hk Hp Hr Hh Hno
    |key v Hk Hp Hr Hh|key r Hk Hp Hh Hans|key r Hk Hp Hh Hans]; rewrite Hp in Hprog; try done.
  - rewrite (start_program t key Hk) in Hprog. injection Hprog as <- <-.
    eapply inv_update; update_done; [..|by eapply (ph_done _ _ key)].
    + destruct effect; [apply setnx_change|apply lock_change_refl].
    + intros j u key' _ Hu Hku Hhu. destruct effect; [by eapply setnx_others|done].
    + simpl. by rewrite Hh.
    + eapply nothing_pending; [done..|]. intros v. by rewrite Hp, (start_program t key Hk).
  - destruct (read_program t key (proj2 Hk)) as (k' & E & Hfail & _). rewrite E in Hprog.
    injection Hprog as <- <-. assert ((if effect then (exec (clock s) (Get key) (redis s)).2 else redis s) = redis s) as ->
      by by destruct effect.
    eapply inv_update; update_done; [apply lock_change_refl|..].
    + intros key' _ Hk'. assert (key' = key) as -> by (destruct Hk; congruence).
      exact (lone_holder s i t key Hinv Ht (proj1 Hk) Hh).
    + eapply nothing_pending; [done..|]. intros v. by rewrite Hp, E.
    + eapply (ph_release _ _ key (Throw e)); try done. simpl. by rewrite Hfail.
  - injection Hprog as <- <-. assert (forall w, Ret v = Ret w -> answer s t w) as Hans
      by (intros w [= <-]; by left).
    destruct effect.
    + eapply inv_store; update_done. eapply (ph_release _ _ key (Ret v)); try done.
      intros w Hw. apply (answer_after s i t _ _ Ht); auto.
    + eapply inv_update; update_done; [apply lock_change_refl|..].
      * intros key' _ Hk'. assert (key' = key) as -> by (destruct Hk; congruence).
        exact (lone_holder s i t key Hinv Ht (proj1 Hk) Hh).
      * intros key' w _ _. unfold resume, lost_after. simpl. by rewrite orb_true_r.
      * eapply (ph_release _ _ key (Ret v)); try done.
        intros w Hw. apply (answer_after s i t _ _ Ht); auto.
  - injection Hprog as <- <-.
    assert (t_holds (resume t (Del (getFullKeyName key)) (fun a => match a with Ret _ => Done r
              | Throw e => Done (Throw e) end) (Throw e)) = false) as Hfree.
    { simpl. rewrite (proj1 Hk), bool_decide_eq_true_2 by done. by rewrite andb_false_r. }
    eapply inv_update; update_done.
    + destruct effect; [apply (del_change key (redis s) (clock s))|apply lock_change_refl].
    + intros j u key' Hne Hu Hku Hhu. destruct effect; [|done]. eapply (del_others s i j); try done. apply Hk.
    + by rewrite Hfree.
    + eapply nothing_pending; [done..|]. intros v. by rewrite Hp.
    + by eapply (ph_done _ _ key (Throw e)).
Qed.

Lemma step_invoke_inv s i t id k :
  system_inv s -> tasks s !! i = Some t -> t_program t = Invoke id k ->
  system_inv (set_task i {| t_mutation := t_mutation t; t_program := t_program t; t_started := true;
                            t_returned := t_returned t; t_holds := t_holds t;
                            t_lost := t_lost t |} (redis s) s).
Proof.
  intros Hinv Ht Hprog. set (t' := {| t_started := true |}). eapply inv_update; try done.
  - apply lock_change_refl.
  - intros key Hh Hk. exact (lone_holder s i t key Hinv Ht Hk Hh).
  - intros key v Hk Hv _. by apply (si_success s Hinv i t).
  - destruct (si_phase s Hinv i t Ht) as [Hk Hh Hp|key Hk Hp Hr Hh|key Hk Hp Hr Hh|key id' Hk Hp Hr Hh Hno
      |key v Hk Hp Hr Hh|key r Hk Hp Hh Hans|key r Hk Hp Hh Hans]; try (rewrite Hp in Hprog; done).
    + by apply ph_free.
    + by rewrite Hp, (start_program t key Hk) in Hprog.
    + destruct (read_program t key (proj2 Hk)) as (k' & E & _). by rewrite Hp, E in Hprog.
    + eapply (ph_invoke _ _ key id'); try done. by apply (unanswered_after s i t t' _ Ht).
Qed.

Lemma step_return_inv s i t id k r :
  system_inv s -> tasks s !! i = Some t -> t_program t = Invoke id k ->
  system_inv (set_task i {| t_mutation := t_mutation t; t_program := k r; t_started := false;
                            t_returned := Some r; t_holds := t_holds t;
                            t_lost := t_lost t |} (redis s) s).
Proof.
  intros Hinv Ht Hprog.
  destruct (si_phase s Hinv i t Ht) as [Hk Hh Hp|key Hk Hp Hr Hh|key Hk Hp Hr Hh|key id' Hk Hp Hr Hh Hno
      |key v Hk Hp Hr Hh|key r' Hk Hp Hh Hans|key r' Hk Hp Hh Hans]; try (rewrite Hp in Hprog; done).
  - assert (k r = Done r) as Ek.
    { destruct Hp as [Hp|[r' Hp]]; rewrite Hp in Hprog; [|done]. by injection Hprog as _ <-. }
    eapply (inv_return s i t _ _ Hinv Ht); try done.
    + intros key [Hk' Htr]. specialize (Hk key Hk'). congruence.
    + apply ph_free; [done|done|right]. by exists r.
  - by rewrite Hp, (start_program t key Hk) in Hprog.
  - destruct (read_program t key (proj2 Hk)) as (k' & E & _). by rewrite Hp, E in Hprog.
  - rewrite Hp in Hprog. injection Hprog as _ <-. eapply (inv_return s i t _ _ Hinv Ht); try done.
    + intros key' [Hk' _]. assert (key' = key) as -> by (destruct Hk; congruence). by split_and!.
    + destruct r as [v|e]; [by eapply (ph_write _ _ key v)|by eapply (ph_release _ _ key (Throw e))].
Qed.

Lemma step_arrive_inv s m :
  (forall key, idempotencyKey m = Some key -> String.prefix "lock:" key = false) ->
  system_inv s ->
  system_inv {| redis := redis s; clock := clock s; tasks := tasks s ++ [start lockTtlMs cacheTtlMs m] |}.
Proof.
  intros Hkey Hinv. set (s' := {| redis := redis s |}). set (t' := start lockTtlMs cacheTtlMs m).
  assert (forall j u, tasks s' !! j = Some u -> tasks s !! j = Some u \/ u = t' /\ j = List.length (tasks s)) as Hback.
  { intros j u [Hu|(Hlen & Hu)]%lookup_app_Some; [by left|right].
    apply list_lookup_singleton_Some in Hu as [Hz <-]. split; [done|]. lia. }
  assert (forall j u, tasks s !! j = Some u -> tasks s' !! j = Some u) as Hforth
    by (intros j u Hu; by apply lookup_app_l_Some).
  assert (forall u v, u ∈ tasks s' -> succeeded u v -> u ∈ tasks s) as Hold.
  { intros u v [Hu| ->%list_elem_of_singleton]%elem_of_app Hv; [done|]. done. }
  split; [|..|]; destruct Hinv as [H1 H2 H3 H4 H5 H6 H7 H8].
  - intros j u Hu. destruct (Hback j u Hu) as [Hu0|[-> _]].
    + eapply phase_mono; [..|by eapply H1].
      * intros key t w _ Hin _ Hw. exists t. split_and!; [by apply elem_of_app; left|done..].
      * intros key u' w _ _ Hu' Hk Hw. exists u', w. split_and!; [eapply Hold; [done|apply Hw]|done..].
    + unfold t', start. destruct (idempotencyKey m) as [key|] eqn:Ek.
      * destruct (truthy key) eqn:Et; [by eapply (ph_start _ _ key)|]. apply ph_free; simpl.
        -- intros key' Hk'. unfold t_key in Hk'. simpl in Hk'. congruence.
        -- done.
        -- left. unfold handleMutation. by rewrite Ek; simpl; rewrite Et.
      * apply ph_free; simpl; [|done|].
        -- intros key' Hk'. unfold t_key in Hk'. simpl in Hk'. congruence.
        -- left. unfold handleMutation. by rewrite Ek.
  - intros j u key Hu Hk. destruct (Hback j u Hu) as [Hu0|[-> _]]; [by eapply H2|by apply Hkey].
  - intros j u key Hu Hk Hh. destruct (Hback j u Hu) as [Hu0|[-> _]]; [by eapply H3|done].
  - intros j j' u u' key Hu Hu' Hk Hk' Hh Hh'. destruct (Hback j u Hu) as [Hu0|[-> _]]; [|done].
    destruct (Hback j' u' Hu') as [Hu1|[-> _]]; [by eapply (H4 j j' u u')|done].
  - exact H5.
  - intros key v e He. destruct (H6 key v e He) as (? & j & u & w & Hu & ?). split; [done|].
    exists j, u, w. by split; [apply Hforth|].
  - intros j u key v Hu Hk Hv. destruct (Hback j u Hu) as [Hu0|[-> _]]; [by eapply H7|by destruct Hv].
  - intros j j' u u' key v w Hu Hu' Hk Hk' Hv Hw. destruct (Hback j u Hu) as [Hu0|[-> _]]; [|by destruct Hv].
    destruct (Hback j' u' Hu') as [Hu1|[-> _]]; [by eapply (H8 j j' u u')|by destruct Hw].
Qed.

Lemma step_tick_inv s time :
  clock s <= time -> in_time s time -> system_inv s ->
  system_inv {| redis := redis s; clock := time; tasks := tasks s |}.
Proof.
  intros Hle [Hlocks Hresults] [H1 H2 H3 H4 H5 H6 H7 H8]. split; try done.
  - intros j u Hu. eapply phase_mono; [..|by eapply H1]; simpl; eauto.
  - intros j u key Hu Hk Hh. destruct (H3 j u key Hu Hk Hh) as (e & He & _). exists e. split; [done|].
    eapply Hlocks; try done. by eapply list_elem_of_lookup_2.
  - intros key v e He. split; [by eapply Hresults|]. by apply (H6 key v e).
Qed.

Lemma system_step_inv s s' : step s s' -> system_inv s -> system_inv s'.
Proof.
  intros [] Hinv; [by apply step_arrive_inv|by apply step_send_inv|by apply step_fail_inv
    |by eapply step_invoke_inv|by eapply step_return_inv|by apply step_tick_inv].
Qed.

Definition no_requests s : Prop := tasks s = [] /\ redis s = ∅.

Lemma system_reachable s0 s : no_requests s0 -> rtc step s0 s -> system_inv s.
Proof.
  intros [Ht Hr] Hs. assert (system_inv s0) as Hinv.
  { split; rewrite ?Ht, ?Hr; try (by intros * [=]); intros *; rewrite lookup_empty; done. }
  clear Ht Hr. induction Hs as [|s1 s2 s3 Hstep _ IH]; [done|]. apply IH. by eapply system_step_inv.
Qed.

(** C10. A mutation with an idempotency key runs once, unless its result is lost.  However
    the requests of a key interleave, and whichever commands to Redis fail, before or after
    they had their effect, as long as no lock that is held and no stored result expires and
    no key starts with [lock:] (the name of a lock): of two requests with the key whose
    resolvers returned, for one the command that stores its result failed, which the code
    only logs, so that of the results that were stored there is at most one; two resolvers
    of the key never run at the same time; and a request that is answered is answered with
    what its own resolver returned, or with the result of the request with the same field
    and arguments, as it is read back from its text. *)
Theorem mutations_run_once s0 s i t key :
  no_requests s0 -> rtc step s0 s -> tasks s !! i = Some t -> t_key t = Some key -> key <> ""%string ->
  (forall j u v w, tasks s !! j = Some u -> t_key u = Some key ->
     t_returned t = Some (Ret v) -> t_returned u = Some (Ret w) ->
     t_lost t = false -> t_lost u = false -> j = i) /\
  (forall j u id id' k k', tasks s !! j = Some u -> t_key u = Some key ->
     t_program t = Invoke id k -> t_program u = Invoke id' k' -> j = i) /\
  (forall v, t_program t = Done (Ret v) -> answer s t v).
Proof.
  intros Hinit Hs Ht Hk Hne. pose proof (system_reachable s0 s Hinit Hs) as Hinv.
  assert (keyed t key) as Hkt by (split; [done|]; by destruct key).
  assert (forall j u id k, tasks s !! j = Some u -> keyed u key -> t_program u = Invoke id k -> t_holds u = true) as Hholds.
  { intros j u id k Hu Hku Hp. destruct (si_phase s Hinv j u Hu) as [Hk' _ _|key' Hk' Hp' _ _|key' Hk' Hp' _ _
      |key' id' _ _ _ ? _|key' v _ Hp' _ _|key' r _ Hp' _ _|key' r _ Hp' _ _]; try (rewrite Hp in Hp'; done).
    - exfalso. destruct Hku as [Hku Htr]. specialize (Hk' key Hku). congruence.
    - by rewrite Hp, (start_program u key' Hk') in Hp'.
    - destruct (read_program u key' (proj2 Hk')) as (k' & E & _). by rewrite Hp, E in Hp'.
    - done. }
  split_and!.
  - intros j u v w Hu Hku Hv Hw Hl Hl'. apply (si_once s Hinv j i u t key w v); try done.
    by split; [|apply Hkt].
  - intros j u id id' k k' Hu Hku Hp Hp'. apply (si_one s Hinv j i u t key); try done.
    + eapply Hholds; try done. by split; [|apply Hkt].
    + by eapply (Hholds i t).
  - intros v Hp. destruct (si_phase s Hinv i t Ht) as [Hk' _ _|key' Hk' Hp' _ _|key' Hk' Hp' _ _
      |key' id' _ Hp' _ _ _|key' w _ Hp' _ _|key' r _ Hp' _ _|key' r _ Hp' _ Hans]; try (rewrite Hp in Hp'; done).
    + exfalso. destruct Hkt as [Hkt Htr]. specialize (Hk' key Hkt). congruence.
    + by rewrite Hp, (start_program t key' Hk') in Hp'.
    + destruct (read_program t key' (proj2 Hk')) as (k' & E & _). by rewrite Hp, E in Hp'.
    + rewrite Hp in Hp'. apply Hans. congruence.
Qed.
End Specs.
