(* ===== verification/IdempotencyExamples.v ===== *)
(** * IdempotencyExamples: interleaved requests

    Requests under one key that run side by side, with the witness of [IdempotencySpecs]; and
    what happens when a lock expires, when keys are those of another tenant, and when a key
    is the name of a lock. *)

From S2P Require Import Prelude Text JsNumber Idempotency IdempotencySpecs.

Local Open Scope Z_scope.
Local Open Scope ts_scope.

Module RequestsExample.
Definition lockMs : Z := 2000.
Definition cacheMs : Z := 86400000.
Notation step := (system_step lockMs cacheMs).

Definition pay (key tenant : string) (amount : Z) : Mutation :=
  {| fieldName := "createOutgoingPayment";
     args := JObject [("input", JObject [("idempotencyKey", JString key); ("amount", JBigInt amount)])]%string;
     signatureTenantId := tenant; isOperator := false |}.
Definition paid (i : string) : js := JObject [("id", JString i); ("amount", JBigInt 5)]%string.

Definition arrive (m : Mutation) (s : System) : System :=
  {| redis := redis s; clock := clock s; tasks := tasks s ++ [start lockMs cacheMs m] |}.

(** The next command of a request, with its reply. *)
Definition send (i : nat) (s : System) : System :=
  match tasks s !! i with
  | Some t => match t_program t with
              | Send c k => let '(a, r) := exec (clock s) c (redis s) in set_task i (resume t c k (Ret a)) r s
              | _ => s
              end
  | None => s
  end.
Definition begin (i : nat) (s : System) : System :=
  match tasks s !! i with
  | Some t => set_task i {| t_mutation := t_mutation t; t_program := t_program t; t_started := true;
                            t_returned := t_returned t; t_holds := t_holds t;
                            t_lost := t_lost t |} (redis s) s
  | None => s
  end.
Definition finish (i : nat) (r : outcome js) (s : System) : System :=
  match tasks s !! i with
  | Some t => match t_program t with
              | Invoke id k => set_task i {| t_mutation := t_mutation t; t_program := k r; t_started := false;
                                             t_returned := Some r; t_holds := t_holds t;
                                             t_lost := t_lost t |} (redis s) s
              | _ => s
              end
  | None => s
  end.
Definition wait (ms : Z) (s : System) : System :=
  {| redis := redis s; clock := clock s + ms; tasks := tasks s |}.

(** Whether a request is about to send, to start its resolver, to hear of it. *)
Definition sends (i : nat) (s : System) : bool :=
  match tasks s !! i with Some t => match t_program t with Send _ _ => true | _ => false end | None => false end.
Definition invokes (started : bool) (i : nat) (s : System) : bool :=
  match tasks s !! i with
  | Some t => match t_program t with Invoke _ _ => Bool.eqb (t_started t) started | _ => false end
  | None => false
  end.

Lemma send_steps i s : sends i s = true -> step s (send i s).
Proof.
  unfold sends, send. destruct (tasks s !! i) as [t|] eqn:Ht; [|done].
  destruct (t_program t) as [|c k|] eqn:Hp; [done| |done]. intros _. by apply step_send.
Qed.

Lemma begin_steps i s : invokes false i s = true -> step s (begin i s).
Proof.
  unfold invokes, begin. destruct (tasks s !! i) as [t|] eqn:Ht; [|done].
  destruct (t_program t) as [| |id k] eqn:Hp; [done..|]. rewrite Bool.eqb_true_iff. intros Hs.
  rewrite <- Hp at 1. by eapply step_invoke.
Qed.

Lemma finish_steps i r s : invokes true i s = true -> step s (finish i r s).
Proof.
  unfold invokes, finish. destruct (tasks s !! i) as [t|] eqn:Ht; [|done].
  destruct (t_program t) as [| |id k] eqn:Hp; [done..|]. rewrite Bool.eqb_true_iff. intros Hs. by eapply step_return.
Qed.

Lemma arrive_steps key tenant amount s :
  String.prefix "lock:" key = false -> step s (arrive (pay key tenant amount) s).
Proof. intros Hk. apply step_arrive. intros key' E. unfold idempotencyKey, input_text in E. simpl in E. by simplify_eq. Qed.

Definition s0 : System := {| redis := ∅; clock := 1000; tasks := [] |}.

(** The second request comes while the first runs, the third when it is done. *)
Definition s1 : System := begin 0 (send 0 (send 0 (arrive (pay "k" "acme" 5) s0))).
Definition s2 : System := send 1 (arrive (pay "k" "acme" 5) s1).
Definition s3 : System := send 0 (send 0 (finish 0 (Ret (paid "p")) s2)).
Definition s4 : System := send 2 (send 2 (send 2 (arrive (pay "k" "acme" 5) s3))).

Definition answers (s : System) : list (option (outcome js)) :=
  (fun t => match t_program t with Done r => Some r | _ => None end) <$> tasks s.

Lemma requests_s4 : rtc step s0 s4.
Proof.
  unfold s4, s3, s2, s1.
  repeat (eapply rtc_r; [|first [by apply send_steps|by apply arrive_steps|by apply begin_steps|by apply finish_steps]]).
  constructor.
Qed.

Lemma no_requests_s0 : no_requests s0.
Proof. done. Qed.

(** The command that stores the result of the first request fails: the next request with
    the key runs its resolver, too. *)
Definition fail (i : nat) (e : exn) (s : System) : System :=
  match tasks s !! i with
  | Some t => match t_program t with
              | Send c k => set_task i (resume t c k (Throw e)) (redis s) s
              | _ => s
              end
  | None => s
  end.
Lemma lost_result_runs_again :
  let s := fail 0 (JsError "Error" "ECONNRESET") (finish 0 (Ret (paid "p")) s1) in
  let s' := finish 1 (Ret (paid "q")) (begin 1 (send 1 (send 1 (arrive (pay "k" "acme" 5) (send 0 s))))) in
  (t_lost <$> tasks s') = [true; false] /\
  (t_returned <$> tasks s') = [Some (Ret (paid "p")); Some (Ret (paid "q"))].
Proof. by vm_compute. Qed.

(** A resolver that takes longer than the lock: the next request runs, too, and the first
    one then releases the lock of the second, so that a third one runs. *)
Lemma lock_expires_while_running :
  let s := begin 1 (send 1 (send 1 (arrive (pay "k" "acme" 5) (wait 2000 s1)))) in
  let s' := begin 2 (send 2 (send 2 (arrive (pay "k" "acme" 5)
              (send 0 (finish 0 (Throw (JsError "Error" "timeout")) s))))) in
  (t_started <$> tasks s) = [true; true] /\ (t_started <$> tasks s') = [false; true; true] /\
  answers (send 1 (finish 1 (Ret (paid "q")) (send 2 (finish 2 (Ret (paid "r")) s'))))
  = [Some (Throw (JsError "Error" "timeout")); None; None].
Proof. by vm_compute. Qed.

(** The key does not name the tenant: another tenant that sends the same key and arguments
    is answered with the result of the first. *)
Lemma result_of_another_tenant :
  let s := send 2 (send 2 (send 2 (arrive (pay "k" "evil" 5) s3))) in
  answers s !! 2%nat = Some (Some (Ret (JObject [("id", JString "p"); ("amount", JString "5")]%string))) /\
  t_returned <$> tasks s !! 2%nat = Some None.
Proof. by vm_compute. Qed.

(** A key that is the name of a lock: a request under it takes the lock away, and its result
    is a lock that lasts as long as a result. *)
Lemma key_of_a_lock :
  let s := send 1 (send 1 (send 1 (arrive (pay "lock:k" "evil" 5) s1))) in
  let s' := begin 2 (send 2 (send 2 (arrive (pay "k" "acme" 5) s))) in
  let blocked := send 1 (send 1 (finish 1 (Ret (paid "x")) (begin 1 (send 1 (send 1
                   (arrive (pay "lock:z" "evil" 5) s1)))))) in
  (t_started <$> tasks s') = [true; false; true] /\
  answers (send 2 (arrive (pay "z" "acme" 5) (wait 100000 blocked))) !! 2%nat
  = Some (Some (Throw (GraphQLError "Concurrent request for idempotencyKey: z"))).
Proof. by vm_compute. Qed.
End RequestsExample.

Import RequestsExample.

Lemma mutations_run_once_witness :
  exists t, tasks s4 !! 2%nat = Some t /\ answers s4 !! 2%nat = Some (Some (Ret (json (paid "p")))) /\
    answer s4 t (json (paid "p")).
Proof.
  eexists. split; [vm_compute; reflexivity|]. split; [vm_compute; reflexivity|].
  match goal with |- answer s4 ?t _ =>
    destruct (mutations_run_once lockMs cacheMs ltac:(done) ltac:(done) s0 s4 2%nat t "k"%string
      no_requests_s0 requests_s4) as (_ & _ & H)
  end; [vm_compute; reflexivity|reflexivity|done|]. apply H. vm_compute. reflexivity.
Defined.
