(* ===== verification/RemoteGrants.v ===== *)
(** * RemoteGrants: grants at other servers, and payments requested under them

    Models [open_payments/{grant,authServer}/service.ts], [grant/model.ts] and
    [open_payments/payment/incoming_remote/service.ts].  A node that reads, creates or
    completes an incoming payment of another node needs an access token of that node's
    authorization server; grants are kept and used again.  The calls of the library
    [@interledger/open-payments] are parameters; what such a call throws is its left result. *)

From S2P Require Import Prelude Text Shared Service OpenPayments Tenants.

Local Open Scope Z_scope.
Local Open Scope ts_scope.

(** ** Data *)

Module RemoteGrantError.
Inductive t := GrantRequiresInteraction | InvalidGrantRequest.
End RemoteGrantError.

Inductive RemoteIncomingPaymentError := NotFound | UnknownWalletAddress | InvalidRequest | InvalidGrant.

#[global] Instance RemoteIncomingPaymentError_eq_dec : EqDecision RemoteIncomingPaymentError.
Proof. solve_decision. Defined.

Record AuthServerRow := { au_id : string; au_url : string }.

Record RemoteGrant := {
  rg_id : string;
  rg_authServerId : string;
  rg_accessToken : string;
  rg_managementId : string;
  rg_accessType : string;
  rg_accessActions : list string;
  rg_expiresAt : option Z;
  rg_deletedAt : option Z
}.

Record RemoteGrantDb := { authServers : list AuthServerRow; remoteGrants : list RemoteGrant }.

Definition set_authServers (f : list AuthServerRow -> list AuthServerRow) (d : RemoteGrantDb) : RemoteGrantDb :=
  {| authServers := f (authServers d); remoteGrants := remoteGrants d |}.
Definition set_remoteGrants (f : list RemoteGrant -> list RemoteGrant) (d : RemoteGrantDb) : RemoteGrantDb :=
  {| authServers := authServers d; remoteGrants := f (remoteGrants d) |}.

Definition set_token (token management : string) (expires : option Z) (g : RemoteGrant) : RemoteGrant :=
  {| rg_id := rg_id g; rg_authServerId := rg_authServerId g; rg_accessToken := token;
     rg_managementId := management; rg_accessType := rg_accessType g; rg_accessActions := rg_accessActions g;
     rg_expiresAt := expires; rg_deletedAt := rg_deletedAt g |}.
Definition set_grant_deleted (t : Z) (g : RemoteGrant) : RemoteGrant :=
  {| rg_id := rg_id g; rg_authServerId := rg_authServerId g; rg_accessToken := rg_accessToken g;
     rg_managementId := rg_managementId g; rg_accessType := rg_accessType g;
     rg_accessActions := rg_accessActions g; rg_expiresAt := rg_expiresAt g; rg_deletedAt := Some t |}.

(** [get expired] *)
Definition grant_expired (now : Z) (g : RemoteGrant) : bool :=
  match rg_expiresAt g with Some t => t <=? now | None => false end.

Definition getManagementUrl (g : RemoteGrant) (authServerUrl : string) : string :=
  authServerUrl +:+ "/token/" +:+ rg_managementId g.

Record GrantOptions := { authServer : string; accessType : string; accessActions : list string }.

(** An incoming payment as Open Payments has it, with its payment methods. *)
Record OpenPaymentsIncomingPayment := {
  op_id : string;
  op_walletAddress : string;
  op_incomingAmount : option AmountJSON;
  op_receivedAmount : AmountJSON;
  op_completed : bool;
  op_metadata : option (gmap string Json);
  op_createdAt : Z;
  op_expiresAt : option Z;
  op_methods : list IlpPaymentMethod
}.

(** ** The client *)

Inductive ClientError := OpenPaymentsClientError (status : option Z) | OtherError.

Record TokenAnswer := { tk_value : string; tk_manage : string; tk_expires_in : option Z }.

(** [isPendingGrant] tells the two apart. *)
Inductive GrantAnswer := PendingGrantAnswer | GrantAnswerWithToken (access_token : TokenAnswer).

Record RemoteWalletAddress := {
  rw_id : string;
  rw_authServer : string;
  rw_resourceServer : option string
}.

Record CreateRemoteArgs := {
  ra_walletAddressUrl : string;
  ra_expiresAt : option Z;
  ra_incomingAmount : option Amount;
  ra_metadata : option (gmap string Json)
}.

Record CreateRemoteBody := {
  rb_walletAddress : string;
  rb_incomingAmount : option AmountJSON;
  rb_expiresAt : option Z;
  rb_metadata : option (gmap string Json)
}.

Definition ClientCall (Y A : Type) : Type := Y -> (ClientError + A) * Y.

Class AuthenticatedClient (Y : Type) := {
  (* [grant.request], for access of one type that starts with a redirect if it interacts *)
  grant_request : GrantOptions -> ClientCall Y GrantAnswer;
  (* [token.rotate({ url, accessToken })] *)
  token_rotate : string -> string -> ClientCall Y TokenAnswer;
  client_walletAddress : string -> ClientCall Y RemoteWalletAddress;
  (* [incomingPayment.create({ url, accessToken }, body)], [get] and [complete] *)
  payment_create : string -> string -> CreateRemoteBody -> ClientCall Y OpenPaymentsIncomingPayment;
  payment_get : string -> string -> ClientCall Y OpenPaymentsIncomingPayment;
  payment_complete : string -> string -> ClientCall Y OpenPaymentsIncomingPayment;
  (* the [authServer] of [incomingPayment.getPublic({ url })] *)
  payment_getPublic : string -> ClientCall Y string;
  (* [new URL(s).origin], [None] where it throws *)
  url_origin : string -> option string
}.

Section RemoteService.
Context {Y : Type} `{Uuid} `{!AuthenticatedClient Y}.
(** [findOne] without an order. *)
Context (pick : list RemoteGrant -> option RemoteGrant).

Definition RemoteState : Type := Svc RemoteGrantDb Y.

Definition client_call {A} (m : ClientCall Y A) : M RemoteState (ClientError + A) :=
  lift (fun y => let '(r, y) := m y in (Ret r, y)).

(** ** [authServer/service.ts] *)

Definition insert_authServer (url : string) : M RemoteState AuthServerRow :=
  let! i := uuid in
  let! rows := db_get authServers in
  let row := {| au_id := i; au_url := url |} in
  if negb (fits_varchar url) then throw value_too_long
  else if existsb (fun a => bool_decide (au_id a = i)) rows then throw (UniqueViolationError "authServers_pkey")
  else db_set (set_authServers (fun l => l ++ [row])) ;;! ret row.

Definition getOrCreateAuthServer (url : string) : M RemoteState AuthServerRow :=
  let! found := db_get (fun d => find_where (fun a => bool_decide (au_url a = url)) (authServers d)) in
  match found with
  | Some a => ret a
  | None => insert_authServer url
  end.

(** ** [grant/service.ts] *)

(** [url.split('/')], and the last part that is not empty of the last two. *)
Definition retrieveManagementId (managementUrl : string) : M RemoteState string :=
  match rev (split "/" managementUrl) with
  | part :: parts =>
      let managementId := if truthy part then part else hd ""%string parts in
      if truthy managementId then ret managementId else throw_error "invalid management id"
  | [] => throw_error "invalid management id"
  end.

Definition includes_action (action : string) (actions : list string) : bool := bool_decide (action ∈ actions).

Definition addSubsetActions (actions : list string) : list string :=
  let with_read := if includes_action "read-all" actions && negb (includes_action "read" actions)
                   then actions ++ ["read"%string] else actions in
  if includes_action "list-all" actions && negb (includes_action "list" actions)
  then with_read ++ ["list"%string] else with_read.

Definition expires_at (now : Z) (expiresIn : option Z) : option Z :=
  match expiresIn with Some e => if truthy e then Some (now + e * 1000) else None | None => None end.

Definition by_grant_id (i : string) (g : RemoteGrant) : bool := bool_decide (rg_id g = i).

(** The columns a row must fit. *)
Definition check_token (i token management : string) : M RemoteState unit :=
  let! rows := db_get remoteGrants in
  if negb (fits_varchar token && fits_varchar management) then throw value_too_long
  else if existsb (fun g => bool_decide (rg_accessToken g = token) && negb (by_grant_id i g)) rows
  then throw (UniqueViolationError "grants_accesstoken_unique")
  else ret tt.

Definition updateGrant (g : RemoteGrant) (t : TokenAnswer) : M RemoteState RemoteGrant :=
  let! management := retrieveManagementId (tk_manage t) in
  let! now := date_now in
  check_token (rg_id g) (tk_value t) management ;;!
  let f := set_token (tk_value t) management (expires_at now (tk_expires_in t)) in
  db_set (set_remoteGrants (update_where (by_grant_id (rg_id g)) f)) ;;!
  ret (f g).

Definition deleteGrant (i : string) : M RemoteState unit :=
  let! now := date_now in
  db_set (set_remoteGrants (update_where (by_grant_id i) (set_grant_deleted now))).

(** A grant of the type at the server, not deleted, with all of the actions. *)
Definition grant_matches (servers : list AuthServerRow) (options : GrantOptions) (g : RemoteGrant) : bool :=
  bool_decide (rg_accessType g = accessType options)
  && negb (is_some (rg_deletedAt g))
  && existsb (fun a => bool_decide (au_id a = rg_authServerId g) && bool_decide (au_url a = authServer options)) servers
  && forallb (fun action => includes_action action (rg_accessActions g)) (accessActions options).

Definition getExistingGrant (options : GrantOptions) : M RemoteState (option RemoteGrant) :=
  db_get (fun d => pick (List.filter (grant_matches (authServers d) options) (remoteGrants d))).

Definition insert_remoteGrant (options : GrantOptions) (server : string) (t : TokenAnswer) : M RemoteState RemoteGrant :=
  let! i := uuid in
  let! now := date_now in
  let! management := retrieveManagementId (tk_manage t) in
  check_token i (tk_value t) management ;;!
  let! rows := db_get remoteGrants in
  let g := {| rg_id := i; rg_authServerId := server; rg_accessToken := tk_value t; rg_managementId := management;
              rg_accessType := accessType options; rg_accessActions := addSubsetActions (accessActions options);
              rg_expiresAt := expires_at now (tk_expires_in t); rg_deletedAt := None |} in
  if existsb (by_grant_id i) rows then throw (UniqueViolationError "grants_pkey")
  else db_set (set_remoteGrants (fun l => l ++ [g])) ;;! ret g.

Definition requestNewGrant (options : GrantOptions) : M RemoteState (res RemoteGrantError.t RemoteGrant) :=
  let! answer := client_call (grant_request options) in
  match answer with
  | inl _ => ret (Err RemoteGrantError.InvalidGrantRequest)
  | inr PendingGrantAnswer => ret (Err RemoteGrantError.GrantRequiresInteraction)
  | inr (GrantAnswerWithToken t) =>
      let! server := getOrCreateAuthServer (authServer options) in
      let! g := insert_remoteGrant options (au_id server) t in
      ret (Ok g)
  end.

(** The grant is joined with its server, which the query found by its URL. *)
Definition rotateTokenAndUpdateGrant (options : GrantOptions) (g : RemoteGrant) : M RemoteState (option RemoteGrant) :=
  let! answer := client_call (token_rotate (getManagementUrl g (authServer options)) (rg_accessToken g)) in
  match answer with
  | inl _ => deleteGrant (rg_id g) ;;! ret None
  | inr t => let! g := updateGrant g t in ret (Some g)
  end.

Definition getOrCreateGrant (options : GrantOptions) : M RemoteState (res RemoteGrantError.t RemoteGrant) :=
  let! existingGrant := getExistingGrant options in
  match existingGrant with
  | None => requestNewGrant options
  | Some g =>
      let! now := date_now in
      if grant_expired now g then
        let! rotated := rotateTokenAndUpdateGrant options g in
        match rotated with
        | Some g => ret (Ok g)
        | None => requestNewGrant options
        end
      else ret (Ok g)
  end.

(** ** [payment/incoming_remote/service.ts] *)

Definition refused (err : ClientError) : bool :=
  match err with
  | OpenPaymentsClientError (Some status) => (status =? 401) || (status =? 403)
  | _ => false
  end.

Definition handleOpenPaymentsError {A} (err : ClientError) (g : RemoteGrant) (retryOnTokenError : bool)
    (retryFn : M RemoteState (res RemoteIncomingPaymentError A))
  : M RemoteState (res RemoteIncomingPaymentError A) :=
  if refused err && retryOnTokenError then deleteGrant (rg_id g) ;;! retryFn
  else
  match err with
  | OpenPaymentsClientError (Some status) =>
      if status =? 404 then ret (Err NotFound) else ret (Err InvalidRequest)
  | _ => ret (Err InvalidRequest)
  end.

(** The body that [createIncomingPayment], [getIncomingPayment] and
    [completeIncomingPayment] have in common, without a retry and with one. *)
Definition request_once {A} (options : GrantOptions) (request : string -> ClientCall Y A)
    (on_error : ClientError -> RemoteGrant -> M RemoteState (res RemoteIncomingPaymentError A))
  : M RemoteState (res RemoteIncomingPaymentError A) :=
  let! grant := getOrCreateGrant options in
  match grant with
  | Err _ => ret (Err InvalidGrant)
  | Ok g =>
      let! answer := client_call (request (rg_accessToken g)) in
      match answer with
      | inr a => ret (Ok a)
      | inl err => on_error err g
      end
  end.

Definition under_grant {A} (options : GrantOptions) (request : string -> ClientCall Y A)
  : M RemoteState (res RemoteIncomingPaymentError A) :=
  request_once options request (fun err g =>
    handleOpenPaymentsError err g true
      (request_once options request (fun err g => handleOpenPaymentsError err g false (ret (Err InvalidRequest))))).

Definition incoming_access (server : string) (actions : list string) : GrantOptions :=
  {| authServer := server; accessType := "incoming-payment"; accessActions := actions |}.

Definition createRemoteIncomingPayment (args : CreateRemoteArgs) (w : RemoteWalletAddress)
  : M RemoteState (res RemoteIncomingPaymentError OpenPaymentsIncomingPayment) :=
  let! resourceServerUrl :=
    match rw_resourceServer w with
    | Some url => ret url
    | None => match url_origin (rw_id w) with Some url => ret url | None => throw (JsError "TypeError" "Invalid URL") end
    end in
  under_grant (incoming_access (rw_authServer w) ["create"; "read-all"]%string) (fun token =>
    payment_create resourceServerUrl token
      {| rb_walletAddress := rw_id w; rb_incomingAmount := serializeAmount <$> ra_incomingAmount args;
         rb_expiresAt := ra_expiresAt args; rb_metadata := ra_metadata args |}).

Definition remote_create (args : CreateRemoteArgs)
  : M RemoteState (res RemoteIncomingPaymentError OpenPaymentsIncomingPayment) :=
  let! w := client_call (client_walletAddress (ra_walletAddressUrl args)) in
  match w with
  | inl _ => ret (Err UnknownWalletAddress)
  | inr w => createRemoteIncomingPayment args w
  end.

Definition remote_get (url : string)
  : M RemoteState (res RemoteIncomingPaymentError OpenPaymentsIncomingPayment) :=
  let! server := client_call (payment_getPublic url) in
  match server with
  | inl _ => ret (Err InvalidRequest)
  | inr server => under_grant (incoming_access server ["read-all"]%string) (payment_get url)
  end.

Definition remote_complete (url : string)
  : M RemoteState (res RemoteIncomingPaymentError OpenPaymentsIncomingPayment) :=
  let! server := client_call (payment_getPublic url) in
  match server with
  | inl _ => ret (Err InvalidRequest)
  | inr server => under_grant (incoming_access server ["read-all"; "complete"]%string) (payment_complete url)
  end.
End RemoteService.
