(* ===== verification/RemoteSpecs.v ===== *)
(** * RemoteSpecs: what is asked of another node is asked under a grant for it

    Histories of [RemoteGrants].  [ClientLaws] is what the client promises: a token that is
    given a lifetime is given one that is not negative. *)

From S2P Require Import Prelude Text Shared Service OpenPayments Tenants RemoteGrants.

Local Open Scope Z_scope.
Local Open Scope ts_scope.

Definition lifetime_ok (t : TokenAnswer) : Prop :=
  match tk_expires_in t with Some e => 0 <= e | None => True end.

Class ClientLaws (Y : Type) `{!AuthenticatedClient Y} : Prop := {
  granted_lifetime : forall options y t y',
    grant_request options y = (inr (GrantAnswerWithToken t), y') -> lifetime_ok t;
  rotated_lifetime : forall url token y t y', token_rotate url token y = (inr t, y') -> lifetime_ok t
}.

Section Specs.
Context {Y : Type} `{Uuid} `{!AuthenticatedClient Y} `{!ClientLaws Y}.
Context (pick : list RemoteGrant -> option RemoteGrant).
Context (pick_sound : forall l g, pick l = Some g -> g ∈ l).
Implicit Types (s : RemoteState (Y := Y)) (g : RemoteGrant).

(** A grant and a token are of one row, a server of its rows is there. *)
Record grants_inv s : Prop := {
  gi_ids : NoDup (rg_id <$> remoteGrants (db s));
  gi_tokens : NoDup (rg_accessToken <$> remoteGrants (db s));
  gi_servers : forall g, g ∈ remoteGrants (db s) -> rg_authServerId g ∈ au_id <$> authServers (db s)
}.

(** A grant that can be used now for what is asked. *)
Definition covers s (options : GrantOptions) g : Prop :=
  g ∈ remoteGrants (db s) /\ rg_accessType g = accessType options /\ rg_deletedAt g = None /\
  (exists a, a ∈ authServers (db s) /\ au_id a = rg_authServerId g /\ au_url a = authServer options) /\
  (forall action, action ∈ accessActions options -> action ∈ rg_accessActions g) /\
  grant_expired (now s) g = false.

Lemma matches_true servers options g :
  grant_matches servers options g = true ->
  rg_accessType g = accessType options /\ rg_deletedAt g = None /\
  (exists a, a ∈ servers /\ au_id a = rg_authServerId g /\ au_url a = authServer options) /\
  (forall action, action ∈ accessActions options -> action ∈ rg_accessActions g).
Proof.
  unfold grant_matches. rewrite !andb_true_iff, forallb_forall. intros [[[Ht Hd] Ha] Hacts]. split_and!.
  - by apply bool_decide_eq_true in Ht.
  - by destruct (rg_deletedAt g).
  - apply existsb_exists in Ha as (a & Ha & [Hi Hu]%andb_true_iff). exists a. zbool.
    split_and!; [by apply list_elem_of_In|done..].
  - intros action Hin. apply list_elem_of_In in Hin. specialize (Hacts action Hin).
    by apply bool_decide_eq_true in Hacts.
Qed.

Lemma addSubsetActions_keeps actions action : action ∈ actions -> action ∈ addSubsetActions actions.
Proof. unfold addSubsetActions. intros Hin. repeat destruct (_ && _); set_solver. Qed.

Lemma new_not_expired now t : lifetime_ok t -> forall g, rg_expiresAt g = expires_at now (tk_expires_in t) ->
  grant_expired now g = false.
Proof.
  unfold lifetime_ok, grant_expired, expires_at. intros Hl g ->. destruct (tk_expires_in t) as [e|]; [|done].
  unfold truthy, truthy_Z. destruct (e =? 0) eqn:E; [done|]. zbool. simpl. apply Z.leb_gt. lia.
Qed.

(** ** Rows *)

Lemma check_token_spec i token management s :
  wp (check_token i token management)
    (fun r s' => s' = s /\ (r = Ret tt -> forall g, g ∈ remoteGrants (db s) -> rg_accessToken g = token -> rg_id g = i)) s.
Proof.
  unfold check_token. do 2 wp_step. destruct (negb _); [by wp_step|].
  destruct (existsb _ _) eqn:E; wp_step; (split; [done|]); [done|]. intros _ g Hg Ht.
  destruct (decide (rg_id g = i)) as [|Hne]; [done|]. exfalso. apply not_true_iff_false in E. apply E.
  apply existsb_exists. exists g. split; [by apply list_elem_of_In|].
  rewrite bool_decide_eq_true_2 by done. unfold by_grant_id. by rewrite bool_decide_eq_false_2.
Qed.

(** Rewriting one row with a token of its own. *)
Lemma tokens_after_update g f l :
  NoDup (rg_id <$> l) -> NoDup (rg_accessToken <$> l) ->
  (forall x, x ∈ l -> rg_id x = rg_id g -> x = g) ->
  (forall x, x ∈ l -> rg_accessToken x = rg_accessToken (f g) -> rg_id x = rg_id g) ->
  NoDup (rg_accessToken <$> update_where (by_grant_id (rg_id g)) f l).
Proof.
  induction l as [|x l IH]; intros Hids Htok Hone Hnew; [constructor|].
  rewrite update_where_cons, fmap_cons. apply NoDup_cons in Hids as [Hxi Hids].
  apply NoDup_cons in Htok as [Hx Htok]. apply NoDup_cons.
  split; [|apply IH; try done; intros y Hy; [apply Hone|apply Hnew]; set_solver].
  intros (y & Ey & (z & Hz & ->)%update_where_elem)%list_elem_of_fmap. unfold by_grant_id in Ey.
  assert (z ∈ x :: l) as Hzin by set_solver. assert (x ∈ x :: l) as Hxin by set_solver.
  case_bool_decide as Ex; case_bool_decide as Ez.
  - apply Hxi. rewrite Ex, <- Ez. by apply list_elem_of_fmap_2.
  - rewrite (Hone x Hxin Ex) in Ey. by apply Ez, Hnew.
  - rewrite (Hone z Hzin Ez) in Ey. by apply Ex, Hnew.
  - apply Hx. rewrite Ey. by apply list_elem_of_fmap_2.
Qed.

Lemma grants_inv_update s s' g f :
  grants_inv s -> g ∈ remoteGrants (db s) ->
  (forall g, rg_id (f g) = rg_id g /\ rg_authServerId (f g) = rg_authServerId g) ->
  (forall x, x ∈ remoteGrants (db s) -> rg_accessToken x = rg_accessToken (f g) -> rg_id x = rg_id g) ->
  authServers (db s') = authServers (db s) ->
  remoteGrants (db s') = update_where (by_grant_id (rg_id g)) f (remoteGrants (db s)) -> grants_inv s'.
Proof.
  intros [H1 H2 H3] Hg Hf Htoken Hserv Hrows. split; rewrite ?Hserv, Hrows.
  - rewrite update_where_key; [done|]. intros x. by destruct (Hf x).
  - apply tokens_after_update; try done. intros x Hx E. by apply (unique_key rg_id (remoteGrants (db s))).
  - intros x (y & Hy & ->)%update_where_elem. destruct (by_grant_id _ _); [destruct (Hf y) as [_ ->]|]; by apply H3.
Qed.

Lemma deleteGrant_inv g s :
  grants_inv s -> g ∈ remoteGrants (db s) ->
  wp (deleteGrant (rg_id g)) (fun r s' => r = Ret tt /\ grants_inv s' /\ now s' = now s /\
     (set_grant_deleted (now s) g) ∈ remoteGrants (db s')) s.
Proof.
  intros Hinv Hg. unfold deleteGrant. wp_auto. split_and!; try done.
  - eapply (grants_inv_update s _ g (set_grant_deleted (now s))); try done. intros x Hx E.
    by rewrite (unique_key rg_accessToken (remoteGrants (db s)) x g (gi_tokens s Hinv) Hx Hg E).
  - simpl. apply update_where_elem. exists g. unfold by_grant_id. by rewrite bool_decide_eq_true_2.
Qed.

Lemma management_spec url s :
  wp (retrieveManagementId (Y := Y) url) (fun _ s' => s' = s) s.
Proof. unfold retrieveManagementId. by wp_auto. Qed.

Lemma updateGrant_spec g t options s :
  grants_inv s -> g ∈ remoteGrants (db s) -> lifetime_ok t ->
  grant_matches (authServers (db s)) options g = true ->
  wp (updateGrant g t) (fun r s' => grants_inv s' /\ now s' = now s /\ ext s' = ext s /\
     forall g', r = Ret g' -> covers s' options g') s.
Proof.
  intros Hinv Hg Hl Hm. unfold updateGrant. wp_step. eapply wp_mono; [apply management_spec|].
  intros [m|e] s1 ->; [|done]. do 2 wp_step. wp_step. eapply wp_mono; [apply check_token_spec|].
  intros [[]|e] s1 [-> Ht]; [|done]. specialize (Ht eq_refl). cbv zeta. wp_auto.
  set (f := set_token _ _ _). destruct (matches_true _ _ _ Hm) as (E1 & E2 & E3 & E4). split_and!; try done.
  - by eapply (grants_inv_update s _ g f).
  - intros g' [= <-]. split_and!; try done.
    + simpl. apply update_where_elem. exists g. unfold by_grant_id. by rewrite bool_decide_eq_true_2.
    + by eapply new_not_expired.
Qed.

Lemma getExistingGrant_spec options s :
  wp (getExistingGrant pick options) (fun r s' => s' = s /\ forall g, r = Ret (Some g) ->
     g ∈ remoteGrants (db s) /\ grant_matches (authServers (db s)) options g = true) s.
Proof.
  unfold getExistingGrant. wp_step. split; [done|]. intros g [= E]. apply pick_sound in E.
  by apply elem_of_filter_bool in E as [? ?].
Qed.

Lemma getOrCreateAuthServer_spec url s :
  grants_inv s ->
  wp (getOrCreateAuthServer url) (fun r s' => grants_inv s' /\ now s' = now s /\ ext s' = ext s /\
     forall a, r = Ret a -> a ∈ authServers (db s') /\ au_url a = url) s.
Proof.
  intros Hinv. unfold getOrCreateAuthServer, insert_authServer. do 2 wp_step.
  assert (forall n, grants_inv {| db := db s; now := now s; fresh := n; ext := ext s |}) as Hsame
    by (intros n; by destruct Hinv).
  destruct (find_where _ _) as [a|] eqn:F.
  - wp_step. split_and!; try done. intros a' [= <-]. apply find_where_Some in F as [? ?]. by zbool.
  - do 4 wp_step. cbv zeta. destruct (negb _); [wp_step; by split_and!|].
    destruct (existsb _ _); [wp_step; by split_and!|]. wp_auto. split_and!; try done.
    + destruct Hinv as [H1 H2 H3]. split; [done..|]. intros g Hg. simpl. rewrite fmap_app. set_solver.
    + intros a [= <-]. simpl. set_solver.
Qed.

Lemma insert_remoteGrant_spec options server t s :
  grants_inv s -> lifetime_ok t -> server ∈ authServers (db s) -> au_url server = authServer options ->
  wp (insert_remoteGrant options (au_id server) t) (fun r s' => grants_inv s' /\ now s' = now s /\ ext s' = ext s /\
     forall g, r = Ret g -> covers s' options g) s.
Proof.
  intros Hinv Hl Hs Hu. unfold insert_remoteGrant. do 4 wp_step. wp_step. eapply wp_mono; [apply management_spec|].
  assert (forall n, grants_inv {| db := db s; now := now s; fresh := n; ext := ext s |}) as Hsame
    by (intros n; by destruct Hinv).
  intros [m|e] s1 ->; [|by split_and!]. wp_step. eapply wp_mono; [apply check_token_spec|].
  intros [[]|e] s1 [-> Ht]; [|by split_and!]. specialize (Ht eq_refl). do 2 wp_step. cbv zeta.
  destruct (existsb _ _) eqn:Hid; [wp_step; by split_and!|].
  assert (v4 (fresh s) ∉ rg_id <$> remoteGrants (db s)) as Hnew.
  { intros (g & E & Hg)%list_elem_of_fmap. apply not_true_iff_false in Hid. apply Hid. apply existsb_exists.
    exists g. split; [by apply list_elem_of_In|]. by apply bool_decide_eq_true. }
  wp_auto. split_and!; try done.
  - destruct Hinv as [H1 H2 H3]. split; simpl; rewrite ?fmap_app.
    + apply NoDup_app. split_and!; [done| |apply NoDup_singleton]. by intros k Hk ->%list_elem_of_singleton.
    + apply NoDup_app. split_and!; [done| |apply NoDup_singleton].
      intros k (g & -> & Hg)%list_elem_of_fmap E%list_elem_of_singleton.
      apply Hnew. rewrite <- (Ht g Hg E). by apply list_elem_of_fmap_2.
    + intros g [Hg| ->%list_elem_of_singleton]%elem_of_app; [by apply H3|]. simpl. by apply list_elem_of_fmap_2.
  - intros g [= <-]. split_and!; simpl; try done.
    + set_solver.
    + by exists server.
    + apply addSubsetActions_keeps.
    + by eapply new_not_expired.
Qed.

Lemma client_call_spec {A} (m : ClientCall Y A) s :
  grants_inv s ->
  wp (client_call m) (fun r s' => exists a, r = Ret a /\ m (ext s) = (a, ext s') /\
    grants_inv s' /\ now s' = now s /\ db s' = db s) s.
Proof.
  intros []. unfold client_call, wp, lift. simpl. destruct (m (ext s)) as [a y] eqn:E. simpl. by exists a.
Qed.

Lemma requestNewGrant_spec options s :
  grants_inv s ->
  wp (requestNewGrant options) (fun r s' => grants_inv s' /\ now s' = now s /\
     forall g, r = Ret (Ok g) -> covers s' options g) s.
Proof.
  intros Hinv. unfold requestNewGrant. wp_step. eapply wp_mono; [by apply client_call_spec|].
  intros r s1 (a & -> & Hcall & H1 & Hn & _).
  destruct a as [err|[|t]]; [by apply wp_ret|by apply wp_ret|]. apply granted_lifetime in Hcall.
  wp_step. eapply wp_mono; [by apply getOrCreateAuthServer_spec|].
  intros [server|e] s2 (H2 & Hn2 & _ & Hs); [|split_and!; [done|congruence|done]].
  destruct (Hs server eq_refl) as [Hin Hurl]. wp_step. eapply wp_mono; [by apply insert_remoteGrant_spec|].
  intros [g|e] s3 (H3 & Hn3 & _ & Hg); [|split_and!; [done|congruence|done]]. apply wp_ret.
  split_and!; [done|congruence|]. intros g' [= <-]. by apply Hg.
Qed.

(** A grant that is returned can be used now for what was asked. *)
Lemma getOrCreateGrant_spec options s :
  grants_inv s ->
  wp (getOrCreateGrant pick options) (fun r s' => grants_inv s' /\ now s' = now s /\
     forall g, r = Ret (Ok g) -> covers s' options g) s.
Proof.
  intros Hinv. unfold getOrCreateGrant. wp_step. eapply wp_mono; [apply getExistingGrant_spec|].
  intros [[g|]|e] s1 [-> Hg]; [|by apply requestNewGrant_spec|done]. destruct (Hg g eq_refl) as [Hin Hm].
  do 2 wp_step. destruct (grant_expired (now s) g) eqn:Hexp.
  - unfold rotateTokenAndUpdateGrant. do 2 wp_step. eapply wp_mono; [by apply client_call_spec|].
    intros r s1 (a & -> & Hcall & H1 & Hn & Hdb). destruct a as [err|t].
    + wp_step. eapply wp_mono; [apply deleteGrant_inv; [done|by rewrite Hdb]|].
      intros ? s2 (-> & H2 & Hn2 & _). wp_step. eapply wp_mono; [by apply requestNewGrant_spec|].
      intros r s3 (H3 & Hn3 & Hr). split_and!; [done|congruence|done].
    + apply rotated_lifetime in Hcall. wp_step.
      eapply wp_mono; [apply (updateGrant_spec g t options); [done|by rewrite Hdb|done|by rewrite Hdb]|].
      intros [g'|e] s2 (H2 & Hn2 & _ & Hg'); [|split_and!; [done|congruence|done]]. do 2 wp_step.
      split_and!; [done|congruence|]. intros ? [= <-]. by apply Hg'.
  - wp_step. split_and!; try done. intros ? [= <-]. by destruct (matches_true _ _ _ Hm) as (?&?&?&?).
Qed.

(** ** Requests under a grant *)

(** What is answered was answered to a token of a grant that covers the request. *)
Definition answered {A} (options : GrantOptions) (request : string -> ClientCall Y A)
    (s : RemoteState (Y := Y)) (r : outcome (res RemoteIncomingPaymentError A)) s' : Prop :=
  grants_inv s' /\ now s' = now s /\
  forall a, r = Ret (Ok a) -> exists g y, covers s' options g /\ request (rg_accessToken g) y = (inr a, ext s').

Lemma answered_error {A} options (request : string -> ClientCall Y A) s e s' :
  grants_inv s' -> now s' = now s -> answered options request s (Ret (Err e)) s'.
Proof. by intros. Qed.

Lemma answered_trans {A} options (request : string -> ClientCall Y A) s s1 r s' :
  now s1 = now s -> answered options request s1 r s' -> answered options request s r s'.
Proof. intros E (H1 & H2 & H3). split_and!; [done|congruence|done]. Qed.

Lemma request_once_spec {A} options (request : string -> ClientCall Y A) on_error s :
  grants_inv s ->
  (forall err g s1, grants_inv s1 -> g ∈ remoteGrants (db s1) ->
     wp (on_error err g) (answered options request s1) s1) ->
  wp (request_once pick options request on_error) (answered options request s) s.
Proof.
  intros Hinv Herr. unfold request_once. wp_step. eapply wp_mono; [by apply getOrCreateGrant_spec|].
  intros [[g|e]|e] s1 (H1 & Hn & Hg); [|by apply wp_ret|by split_and!].
  specialize (Hg g eq_refl). wp_step. eapply wp_mono; [by apply client_call_spec|].
  intros r s2 (a & -> & Hcall & H2 & Hn2 & Hdb). destruct a as [err|a].
  - eapply wp_mono; [apply Herr; [done|rewrite Hdb; apply Hg]|]. intros r s3. apply answered_trans. congruence.
  - apply wp_ret. split_and!; [done|congruence|]. intros ? [= <-]. exists g, (ext s1). split; [|done].
    unfold covers. by rewrite Hdb, Hn2.
Qed.

Lemma under_grant_spec {A} options (request : string -> ClientCall Y A) s :
  grants_inv s -> wp (under_grant pick options request) (answered options request s) s.
Proof.
  intros Hinv. unfold under_grant.
  assert (forall err g b m s1, grants_inv s1 -> g ∈ remoteGrants (db s1) ->
    (b = true -> forall s2, grants_inv s2 -> now s2 = now s1 -> wp m (answered options request s1) s2) ->
    wp (handleOpenPaymentsError err g b m) (answered options request s1) s1) as Hhandle.
  { intros err g b m s1 H1 Hg Hm. unfold handleOpenPaymentsError. destruct (_ && b) eqn:Er.
    - apply andb_true_iff in Er as [_ ->]. wp_step. eapply wp_mono; [by apply deleteGrant_inv|].
      intros ? s2 (-> & H2 & Hn & _). by apply Hm.
    - destruct err as [[st|]|]; [destruct (st =? 404)|..]; apply wp_ret; by apply answered_error. }
  apply request_once_spec; [done|]. intros err g s1 H1 Hg. apply Hhandle; [done..|].
  intros _ s2 H2 Hn. eapply wp_mono; [apply request_once_spec; [done|]|].
  - intros err' g' s3 H3 Hg'. by apply Hhandle.
  - intros r s3. by apply answered_trans.
Qed.

(** ** Operations and histories *)

Lemma remote_get_spec url s :
  grants_inv s ->
  wp (remote_get pick url) (fun r s' => grants_inv s' /\ now s' = now s /\
     forall p, r = Ret (Ok p) -> exists server,
       (payment_getPublic url (ext s)).1 = inr server /\
       answered (incoming_access server ["read-all"]%string) (payment_get url) s r s') s.
Proof.
  intros Hinv. unfold remote_get. wp_step. eapply wp_mono; [by apply client_call_spec|].
  intros r s1 (a & -> & Hcall & H1 & Hn & _). destruct a as [err|server]; [by apply wp_ret|].
  eapply wp_mono; [by apply under_grant_spec|]. intros r s2 (H2 & Hn2 & Hr). split_and!; [done|congruence|].
  intros p ->. exists server. rewrite Hcall. split; [done|]. split_and!; [done|congruence|done].
Qed.

Lemma remote_complete_spec url s :
  grants_inv s ->
  wp (remote_complete pick url) (fun r s' => grants_inv s' /\ now s' = now s /\
     forall p, r = Ret (Ok p) -> exists server,
       (payment_getPublic url (ext s)).1 = inr server /\
       answered (incoming_access server ["read-all"; "complete"]%string) (payment_complete url) s r s') s.
Proof.
  intros Hinv. unfold remote_complete. wp_step. eapply wp_mono; [by apply client_call_spec|].
  intros r s1 (a & -> & Hcall & H1 & Hn & _). destruct a as [err|server]; [by apply wp_ret|].
  eapply wp_mono; [by apply under_grant_spec|]. intros r s2 (H2 & Hn2 & Hr). split_and!; [done|congruence|].
  intros p ->. exists server. rewrite Hcall. split; [done|]. split_and!; [done|congruence|done].
Qed.

(** The body of the request that creates the payment of [args] for the wallet address. *)
Definition create_body (args : CreateRemoteArgs) (w : RemoteWalletAddress) : CreateRemoteBody :=
  {| rb_walletAddress := rw_id w; rb_incomingAmount := serializeAmount <$> ra_incomingAmount args;
     rb_expiresAt := ra_expiresAt args; rb_metadata := ra_metadata args |}.

Lemma remote_create_spec args s :
  grants_inv s ->
  wp (remote_create pick args) (fun r s' => grants_inv s' /\ now s' = now s /\
     forall p, r = Ret (Ok p) -> exists w url,
       (client_walletAddress (ra_walletAddressUrl args) (ext s)).1 = inr w /\
       answered (incoming_access (rw_authServer w) ["create"; "read-all"]%string)
         (fun token => payment_create url token (create_body args w)) s r s') s.
Proof.
  intros Hinv. unfold remote_create, createRemoteIncomingPayment. wp_step. eapply wp_mono; [by apply client_call_spec|].
  intros r s1 (a & -> & Hcall & H1 & Hn & _). destruct a as [err|w]; [by apply wp_ret|].
  wp_step. set (m := match rw_resourceServer w with Some _ => _ | None => _ end).
  assert (wp m (fun _ s2 => s2 = s1) s1) as Hm
    by (unfold m; destruct (rw_resourceServer w); [by apply wp_ret|]; destruct (url_origin (rw_id w)); by wp_auto).
  eapply wp_mono; [exact Hm|]. intros [url|e] s2 ->; [|by split_and!].
  eapply wp_mono; [by apply under_grant_spec|]. intros r s2 (H2 & Hn2 & Hr). split_and!; [done|congruence|].
  intros p ->. exists w, url. rewrite Hcall. split; [done|]. split_and!; [done|congruence|done].
Qed.

Inductive remote_step : RemoteState (Y := Y) -> RemoteState (Y := Y) -> Prop :=
| step_getGrant options s : remote_step s (getOrCreateGrant pick options s).2
| step_deleteGrant g s : g ∈ remoteGrants (db s) -> remote_step s (deleteGrant (rg_id g) s).2
| step_remoteCreate args s : remote_step s (remote_create pick args s).2
| step_remoteGet url s : remote_step s (remote_get pick url s).2
| step_remoteComplete url s : remote_step s (remote_complete pick url s).2
| step_remote_others t y s : remote_step s {| db := db s; now := t; fresh := fresh s; ext := y |}.

Definition remote_init s : Prop := remoteGrants (db s) = [] /\ authServers (db s) = [].

Lemma remote_reachable s0 s : remote_init s0 -> rtc remote_step s0 s -> grants_inv s.
Proof.
  intros [Hg Ha] Hs. assert (grants_inv s0) as Hinv by (split; rewrite ?Hg; try constructor; set_solver).
  clear Hg Ha. induction Hs as [|s1 s2 s3 Hstep _ IH]; [done|]. apply IH.
  destruct Hstep as [options s1|g s1 Hg|args s1|url s1|url s1|t y s1].
  - by apply getOrCreateGrant_spec.
  - by apply deleteGrant_inv.
  - by apply remote_create_spec.
  - by apply remote_get_spec.
  - by apply remote_complete_spec.
  - by destruct Hinv.
Qed.

(** C18. Another node is asked under a grant for what is asked.  In every history of grants and
    remote payments, whatever the other servers answer, a payment that creating, reading or
    completing a remote incoming payment returns is the answer to a request with the token of
    a grant that is kept: of the authorization server the other node named, not deleted, not
    expired, and with all the actions of the request; and a token is of one grant. *)
Theorem remote_payment_under_grant s0 s :
  remote_init s0 -> rtc remote_step s0 s ->
  (forall args p s', remote_create pick args s = (Ret (Ok p), s') -> exists w url g y,
     (client_walletAddress (ra_walletAddressUrl args) (ext s)).1 = inr w /\
     covers s' (incoming_access (rw_authServer w) ["create"; "read-all"]%string) g /\
     payment_create url (rg_accessToken g) (create_body args w) y = (inr p, ext s')) /\
  (forall url p s', remote_get pick url s = (Ret (Ok p), s') -> exists server g y,
     (payment_getPublic url (ext s)).1 = inr server /\
     covers s' (incoming_access server ["read-all"]%string) g /\
     payment_get url (rg_accessToken g) y = (inr p, ext s')) /\
  (forall url p s', remote_complete pick url s = (Ret (Ok p), s') -> exists server g y,
     (payment_getPublic url (ext s)).1 = inr server /\
     covers s' (incoming_access server ["read-all"; "complete"]%string) g /\
     payment_complete url (rg_accessToken g) y = (inr p, ext s')) /\
  NoDup (rg_accessToken <$> remoteGrants (db s)).
Proof.
  intros Hinit Hs. pose proof (remote_reachable s0 s Hinit Hs) as Hinv. split_and!; [..|apply Hinv].
  - intros args p s' E. destruct (wp_run _ _ _ _ _ (remote_create_spec args s Hinv) E) as (_ & _ & Hr).
    destruct (Hr p eq_refl) as (w & url & Hw & _ & _ & Ha). destruct (Ha p eq_refl) as (g & y & ? & ?).
    by exists w, url, g, y.
  - intros url p s' E. destruct (wp_run _ _ _ _ _ (remote_get_spec url s Hinv) E) as (_ & _ & Hr).
    destruct (Hr p eq_refl) as (server & Hw & _ & _ & Ha). destruct (Ha p eq_refl) as (g & y & ? & ?).
    by exists server, g, y.
  - intros url p s' E. destruct (wp_run _ _ _ _ _ (remote_complete_spec url s Hinv) E) as (_ & _ & Hr).
    destruct (Hr p eq_refl) as (server & Hw & _ & _ & Ha). destruct (Ha p eq_refl) as (g & y & ? & ?).
    by exists server, g, y.
Qed.
End Specs.
