(* ===== verification/Receivers.v ===== *)
(** * Receivers: what outgoing payments pay to

    Models [open_payments/receiver/{model,service,errors}.ts], the part of
    [payment/incoming/model.ts] that writes an incoming payment for Open Payments, and
    [payment-method/provider/service.ts].  A receiver is an incoming payment of this node or
    of another one, found by its URL.  The local ones are the rows of [IncomingPayment]; the
    remote ones come from a service with the operations of [RemoteGrants].  A date of Open
    Payments is written as its milliseconds; texts are of one byte a character. *)

From Stdlib Require Import Ascii.
From S2P Require Import Prelude Text Shared Service OpenPayments Accounting Tenants IncomingPayment RemoteGrants.

Local Open Scope Z_scope.
Local Open Scope ts_scope.

(** ** [errors.ts] *)

Inductive ReceiverError := LocalError (e : IncomingPaymentError.t) | RemoteError (e : RemoteIncomingPaymentError).

(** ** What the service calls *)

Record ReceiverConfig := {
  receiver_openPaymentsUrl : string;
  receiver_operatorTenantId : string;
  receiver_ilpAddress : string
}.

(** What the STREAM server makes up for a payment: an address, and a secret as base64url. *)
Record StreamCredentials := { cred_ilpAddress : string; cred_sharedSecret : string }.

Class ReceiverServices (X : Type) := {
  (* [walletAddressService.getByUrl(url)] *)
  receiver_walletByUrl : string -> M X (option WalletAddress);
  (* [tenantSettingsService.get({ tenantId, key })] *)
  receiver_settings : string -> string -> M X (list TenantSetting);
  (* [streamCredentialsService.get({ paymentTag, ilpAddress, asset })] *)
  stream_credentials : string -> string -> Asset -> M X (option StreamCredentials);
  (* the service of remote incoming payments *)
  remoteService_create : CreateRemoteArgs -> M X (res RemoteIncomingPaymentError OpenPaymentsIncomingPayment);
  remoteService_get : string -> M X (res RemoteIncomingPaymentError OpenPaymentsIncomingPayment);
  remoteService_complete : string -> M X (res RemoteIncomingPaymentError OpenPaymentsIncomingPayment)
}.

Record CreateReceiverArgs := {
  cr_walletAddressUrl : string;
  cr_expiresAt : option Z;
  cr_incomingAmount : option Amount;
  cr_metadata : option (gmap string Json);
  cr_tenantId : string
}.

(** ** URLs *)

(** [s.replace(/\/+$/, '')] *)
Fixpoint strip_slashes (s : string) : string :=
  match s with
  | EmptyString => EmptyString
  | String c s =>
      match strip_slashes s with
      | EmptyString => if Ascii.eqb c "/"%char then EmptyString else String c EmptyString
      | s => String c s
      end
  end.

Definition urlPath : string := "/incoming-payments".

(** [IncomingPayment.getUrl] *)
Definition getUrl (resourceServerUrl : string) (p : IncomingPayment) : string :=
  strip_slashes resourceServerUrl +:+ "/" +:+ IncomingPayment.tenantId p +:+ urlPath +:+ "/" +:+ IncomingPayment.id p.

(** A character that [.] stands for. *)
Definition is_line_end (c : ascii) : bool := Ascii.eqb c "010"%char || Ascii.eqb c "013"%char.
Fixpoint one_line (s : string) : bool :=
  match s with String c s => negb (is_line_end c) && one_line s | EmptyString => true end.

Definition first_chars (n : nat) (s : string) : string := String.substring 0 n s.
Definition last_chars (n : nat) (s : string) : string := String.substring (String.length s - n) n s.

(** [url.match(INCOMING_PAYMENT_URL_REGEX)]: something, the path, and 36 characters. *)
Definition parseIncomingPaymentUrl (url : string) : option (string * string) :=
  let id := last_chars 36 url in
  let front := first_chars (String.length url - 36) url in
  let path := last_chars 19 front in
  let resourceServerUrl := first_chars (String.length front - 19) front in
  if (36 <=? String.length url)%nat && one_line url && bool_decide (path = urlPath +:+ "/") && truthy resourceServerUrl
  then Some (id, resourceServerUrl) else None.

(** ** [new Receiver(incomingPayment, isLocal)] *)

Definition new_receiver {S} (p : OpenPaymentsIncomingPayment) (isLocal : bool) : M S Receiver :=
  let! incoming := match op_incomingAmount p with
                   | Some a => match parseAmount a with Ret v => ret (Some v) | Throw e => throw e end
                   | None => ret None
                   end in
  match parseAmount (op_receivedAmount p) with
  | Throw e => throw e
  | Ret received =>
      ret {| r_assetCode := json_assetCode (op_receivedAmount p);
             r_assetScale := json_assetScale (op_receivedAmount p); r_isLocal := isLocal;
             r_incomingPaymentId := op_id p; r_completed := op_completed p; r_expiresAt := op_expiresAt p;
             r_incomingAmountValue := value <$> incoming; r_receivedAmountValue := value received;
             r_methods := op_methods p |}
  end.

Section ReceiverService.
Context {X : Type} `{Uuid} `{!ReceiverServices X}.
#[local] Notation ReceiverState := (IncomingState (X := X)).
Context (deps : IncomingDeps X) (config : ReceiverConfig).
Context (sleep : Z -> M ReceiverState unit).
Context (pick : list IncomingPayment -> option IncomingPayment).

(** *** [payment-method/provider/service.ts] *)

Definition ilp_method (p : IncomingPayment) (tenantIlpAddress : string) : M ReceiverState (option IlpPaymentMethod) :=
  let! a := the_asset p in
  let! credentials := lift (stream_credentials (IncomingPayment.id p) tenantIlpAddress a) in
  ret ((fun c => {| method_type := "ilp"; OpenPayments.ilpAddress := cred_ilpAddress c;
                    OpenPayments.sharedSecret := cred_sharedSecret c |}) <$> credentials).

Definition generateIlpPaymentMethod (p : IncomingPayment) : M ReceiverState (option IlpPaymentMethod) :=
  if bool_decide (receiver_operatorTenantId config = IncomingPayment.tenantId p)
  then ilp_method p (receiver_ilpAddress config)
  else
  let! tenantSettings := lift (receiver_settings (IncomingPayment.tenantId p) ILP_ADDRESS) in
  match tenantSettings with
  | [] => ret None
  | setting :: _ => ilp_method p (ts_value setting)
  end.

Definition getPaymentMethods (p : IncomingPayment) : M ReceiverState (list IlpPaymentMethod) :=
  let! ilpPaymentMethod := generateIlpPaymentMethod p in
  ret (match ilpPaymentMethod with Some m => [m] | None => [] end).

(** *** [payment/incoming/model.ts] *)

Definition receivedAmount (p : IncomingPayment) : M ReceiverState Amount :=
  let! a := the_asset p in
  ret (amount_of (default 0 (receivedAmountValue p)) a).

Definition toOpenPaymentsTypeWithMethods (resourceServerUrl : string) (w : WalletAddress)
    (paymentMethods : list IlpPaymentMethod) (p : IncomingPayment) : M ReceiverState OpenPaymentsIncomingPayment :=
  let! incoming := incomingAmount p in
  let! received := receivedAmount p in
  ret {| op_id := getUrl resourceServerUrl p; op_walletAddress := wa_address w;
         op_incomingAmount := serializeAmount <$> incoming; op_receivedAmount := serializeAmount received;
         op_completed := completed p; op_metadata := metadata p; op_createdAt := IncomingPayment.createdAt p;
         op_expiresAt := Some (IncomingPayment.expiresAt p); op_methods := paymentMethods |}.

(** [toOpenPaymentsType], to which the callers add no methods. *)
Definition toOpenPaymentsType (resourceServerUrl : string) (w : WalletAddress) (p : IncomingPayment)
  : M ReceiverState OpenPaymentsIncomingPayment :=
  toOpenPaymentsTypeWithMethods resourceServerUrl w [] p.

(** *** [receiver/service.ts] *)

Definition createLocalIncomingPayment (args : CreateReceiverArgs) (w : WalletAddress)
  : M ReceiverState (res IncomingPaymentError.t OpenPaymentsIncomingPayment) :=
  let! p := createIncomingPayment deps sleep pick
    {| o_walletAddressId := wa_id w; o_client := None; o_expiresAt := cr_expiresAt args;
       o_incomingAmount := cr_incomingAmount args; o_metadata := cr_metadata args;
       o_tenantId := cr_tenantId args; o_initiationReason := Admin; o_senderWalletAddress := None |} in
  match p with
  | Err e => ret (Err e)
  | Ok p =>
      let! paymentMethods := getPaymentMethods p in
      match paymentMethods with
      | [] => throw_error "Could not get any payment methods during local incoming payment creation"
      | _ => let! p := toOpenPaymentsTypeWithMethods (receiver_openPaymentsUrl config) w paymentMethods p in ret (Ok p)
      end
  end.

Definition createReceiver (args : CreateReceiverArgs) : M ReceiverState (res ReceiverError Receiver) :=
  let! localWalletAddress := lift (receiver_walletByUrl (cr_walletAddressUrl args)) in
  let isLocal := is_some localWalletAddress in
  let! incomingPaymentOrError :=
    match localWalletAddress with
    | Some w => let! p := createLocalIncomingPayment args w in
                ret (match p with Ok p => Ok p | Err e => Err (LocalError e) end)
    | None => let! p := lift (remoteService_create
                {| ra_walletAddressUrl := cr_walletAddressUrl args; ra_expiresAt := cr_expiresAt args;
                   ra_incomingAmount := cr_incomingAmount args; ra_metadata := cr_metadata args |}) in
              ret (match p with Ok p => Ok p | Err e => Err (RemoteError e) end)
    end in
  match incomingPaymentOrError with
  | Err e => ret (Err e)
  | Ok p =>
      try_catch
        (let! receiver := new_receiver p isLocal in
         let! now := date_now in
         if negb (receiver_isActive now receiver) then throw_error "Receiver is not active"
         else ret (Ok receiver))
        (fun _ => throw_error "Could not create receiver from incoming payment")
  end.

Definition getLocalIncomingPayment (url : string) : M ReceiverState (option OpenPaymentsIncomingPayment) :=
  match parseIncomingPaymentUrl url with
  | None => ret None
  | Some (id, _) =>
      let! p := getIncomingPayment deps {| go_id := id; go_client := None; go_walletAddressId := None; go_tenantId := None |} in
      match p with
      | None => ret None
      | Some p =>
          match walletAddress p with
          | None => throw_error "Wallet address does not exist for incoming payment"
          | Some w =>
              let! paymentMethods := getPaymentMethods p in
              let! p := toOpenPaymentsTypeWithMethods (receiver_openPaymentsUrl config) w paymentMethods p in
              ret (Some p)
          end
      end
  end.

Definition getRemoteIncomingPayment (url : string) : M ReceiverState (option OpenPaymentsIncomingPayment) :=
  let! p := lift (remoteService_get url) in
  ret (match p with Ok p => Some p | Err _ => None end).

Definition getReceiver (url : string) : M ReceiverState (option Receiver) :=
  try_catch
    (let! localIncomingPayment := getLocalIncomingPayment url in
     match localIncomingPayment with
     | Some p => let! receiver := new_receiver p true in ret (Some receiver)
     | None =>
         let! remoteIncomingPayment := getRemoteIncomingPayment url in
         match remoteIncomingPayment with
         | Some p => let! receiver := new_receiver p false in ret (Some receiver)
         | None => ret None
         end
     end)
    (fun _ => ret None).

Definition completeReceiver (url : string) : M ReceiverState (res ReceiverError Receiver) :=
  let! receiver := getReceiver url in
  match receiver with
  | None => ret (Err (LocalError IncomingPaymentError.UnknownPayment))
  | Some receiver =>
      if r_isLocal receiver then
        match parseIncomingPaymentUrl url with
        | None => throw_error "Incorrect format for incoming payment URL"
        | Some (id, _) =>
            let! p := completeIncomingPayment deps id None in
            match p with
            | Err e => ret (Err (LocalError e))
            | Ok p =>
                match walletAddress p with
                | None => ret (Err (LocalError IncomingPaymentError.UnknownWalletAddress))
                | Some w =>
                    let! p := toOpenPaymentsType (receiver_openPaymentsUrl config) w p in
                    let! receiver := new_receiver p true in
                    ret (Ok receiver)
                end
            end
        end
      else
      let! p := lift (remoteService_complete url) in
      match p with
      | Err e => ret (Err (RemoteError e))
      | Ok p =>
          let! receiver := new_receiver
            {| op_id := op_id p; op_walletAddress := op_walletAddress p; op_incomingAmount := op_incomingAmount p;
               op_receivedAmount := op_receivedAmount p; op_completed := op_completed p;
               op_metadata := op_metadata p; op_createdAt := op_createdAt p; op_expiresAt := op_expiresAt p;
               op_methods := [] |} false in
          ret (Ok receiver)
      end
  end.
End ReceiverService.
