(* ===== verification/ReceiverSpecs.v ===== *)
(** * ReceiverSpecs: a payment of this node is read by its URL

    The URL that an incoming payment is given for Open Payments is parsed back to its
    identifier, and reading it gives the receiver of the row; what is read as local is a
    row of the table, and a row of the table is never read as a payment of another node. *)

From Stdlib Require Import Ascii.
From S2P Require Import Prelude Text Shared Service OpenPayments Accounting Tenants IncomingPayment IncomingSpecs IncomingHistory RemoteGrants Receivers.

Local Open Scope Z_scope.
Local Open Scope ts_scope.

(** ** Texts *)

Lemma last_chars_append a b : last_chars (String.length b) (a +:+ b) = b.
Proof. unfold last_chars. rewrite length_append, Nat.add_sub. apply last_of_append. Qed.

Lemma first_chars_append a b : first_chars (String.length (a +:+ b) - String.length b) (a +:+ b) = a.
Proof. unfold first_chars. rewrite length_append, Nat.add_sub. apply first_of_append. Qed.

Lemma one_line_append a b : one_line (a +:+ b) = one_line a && one_line b.
Proof. induction a as [|x a IH]; [done|]. simpl. by rewrite <- andb_assoc; f_equal. Qed.

(** What a URL is made of is what is parsed. *)
Lemma parse_parts front i :
  String.length i = 36%nat -> front <> ""%string -> one_line front = true -> one_line i = true ->
  parseIncomingPaymentUrl (front +:+ urlPath +:+ "/" +:+ i) = Some (i, front).
Proof.
  intros Hi Hf Hlf Hli. unfold parseIncomingPaymentUrl.
  assert (front +:+ urlPath +:+ "/" +:+ i = (front +:+ (urlPath +:+ "/")) +:+ i) as -> by (by rewrite !append_assoc).
  rewrite <- Hi, last_chars_append, first_chars_append.
  change 19%nat with (String.length (urlPath +:+ "/")). rewrite last_chars_append, first_chars_append.
  rewrite bool_decide_eq_true_2 by done. rewrite !one_line_append, Hlf, Hli, length_append, Hi.
  assert (Nat.leb 36 (String.length (front +:+ (urlPath +:+ "/")) + 36) = true) as -> by (apply Nat.leb_le; lia).
  by destruct front.
Qed.

Section Specs.
Context {X : Type} `{UuidLaws} `{!ReceiverServices X}.
Context (deps : IncomingDeps X) (config : ReceiverConfig).
#[local] Notation RS := (IncomingState (X := X)).
Implicit Types (s : IncomingState (X := X)) (p row : IncomingPayment).

(** The receiver of a row, with its asset, what it received and its payment methods. *)
Definition receiver_for row (a : Asset) (received : Z) (methods : list IlpPaymentMethod) : Receiver :=
  {| r_assetCode := a_code a; r_assetScale := a_scale a; r_isLocal := true;
     r_incomingPaymentId := getUrl (receiver_openPaymentsUrl config) row; r_completed := completed row;
     r_expiresAt := Some (IncomingPayment.expiresAt row);
     r_incomingAmountValue := if truthy (incomingAmountValue row) then incomingAmountValue row else None;
     r_receivedAmountValue := received; r_methods := methods |}.

Lemma new_receiver_of row a received w methods (p : OpenPaymentsIncomingPayment) s :
  op_incomingAmount p = serializeAmount <$> (if truthy (incomingAmountValue row)
                                             then (fun v => amount_of v a) <$> incomingAmountValue row else None) ->
  op_receivedAmount p = serializeAmount (amount_of received a) ->
  p = {| op_id := getUrl (receiver_openPaymentsUrl config) row; op_walletAddress := wa_address w;
         op_incomingAmount := op_incomingAmount p; op_receivedAmount := op_receivedAmount p;
         op_completed := completed row; op_metadata := metadata row; op_createdAt := IncomingPayment.createdAt row;
         op_expiresAt := Some (IncomingPayment.expiresAt row); op_methods := methods |} ->
  new_receiver p true s = (Ret (receiver_for row a received methods), s).
Proof.
  intros Hi Hr ->. simpl in *. unfold new_receiver. simpl. rewrite Hi, Hr.
  pose proof (fun a => proj1 (amount_roundtrip a)) as Hround. unfold receiver_for.
  destruct (incomingAmountValue row) as [v|]; simpl; [destruct (truthy (Some v)) eqn:E; simpl|];
    unfold bind, ret; simpl; by rewrite ?Hround.
Qed.

(** ** Local payments *)

Definition by_id (i : string) : GetOptions :=
  {| go_id := i; go_client := None; go_walletAddressId := None; go_tenantId := None |}.

Lemma getIncoming_spec i s :
  wp (getIncomingPayment deps (by_id i))
    (fun r s' => reads s s' /\
       match r with
       | Ret (Some p) => exists row a w n, row ∈ rows (db s) /\ IncomingPayment.id row = i /\ p = attach (Some a) w (Some n) row
       | Ret None => forall row, row ∈ rows (db s) -> IncomingPayment.id row <> i
       | Throw _ => True
       end) s.
Proof.
  unfold getIncomingPayment, find_payment. do 2 wp_step. destruct (find_where _ _) as [row|] eqn:F; simpl.
  - apply find_where_Some in F as [Hin Hq]. unfold subresource_get in Hq. simpl in Hq. zbool. wp_step.
    eapply wp_mono; [apply fetch_related_spec|]. intros [p|e] s1 [Hr Hp]; [|by split].
    destruct Hp as (a & w & -> & _). wp_step. unfold addReceivedAmount, with_receivedAmount, the_asset. simpl.
    assert (forall s2, reads s1 s2 -> reads s s2) as Htrans.
    { intros s2 (H1 & H2 & H3). destruct Hr as (H4 & H5 & H6). split_and!; congruence. }
    wp_auto; (split; [by apply Htrans|]); try done. by exists row; do 3 eexists.
  - wp_step. split; [done|]. intros row Hin. pose proof (find_where_None _ _ row F Hin) as Hq.
    unfold subresource_get in Hq. simpl in Hq. by zbool.
Qed.

Lemma getPaymentMethods_spec p s : wp (getPaymentMethods config p) (fun _ s' => reads s s') s.
Proof.
  unfold getPaymentMethods, generateIlpPaymentMethod, ilp_method, the_asset. wp_auto; done.
Qed.

Lemma toOpenPayments_spec row a v n w methods s :
  toOpenPaymentsTypeWithMethods (X := X) (receiver_openPaymentsUrl config) w methods (attach (Some a) v (Some n) row) s
  = (Ret {| op_id := getUrl (receiver_openPaymentsUrl config) row; op_walletAddress := wa_address w;
            op_incomingAmount := serializeAmount <$> (if truthy (incomingAmountValue row)
                                   then (fun v => amount_of v a) <$> incomingAmountValue row else None);
            op_receivedAmount := serializeAmount (amount_of n a); op_completed := completed row;
            op_metadata := metadata row; op_createdAt := IncomingPayment.createdAt row;
            op_expiresAt := Some (IncomingPayment.expiresAt row); op_methods := methods |}, s).
Proof.
  unfold toOpenPaymentsTypeWithMethods, incomingAmount, receivedAmount, the_asset, bind, ret. simpl.
  destruct (incomingAmountValue row) as [x|]; [|done]. unfold truthy, truthy_option, truthy_Z. simpl.
  unfold truthy. destruct (x =? 0) eqn:E; simpl; by rewrite ?E.
Qed.

Lemma getLocal_spec url s :
  wp (getLocalIncomingPayment deps config url)
    (fun r s' => reads s s' /\
       match r with
       | Ret (Some p) => exists row a n methods front, row ∈ rows (db s) /\
           parseIncomingPaymentUrl url = Some (IncomingPayment.id row, front) /\
           forall s1, new_receiver p true s1 = (Ret (receiver_for row a n methods), s1)
       | Ret None => forall row front, row ∈ rows (db s) ->
           parseIncomingPaymentUrl url <> Some (IncomingPayment.id row, front)
       | Throw _ => True
       end) s.
Proof.
  unfold getLocalIncomingPayment. destruct (parseIncomingPaymentUrl url) as [[i front]|] eqn:Hp.
  - wp_step. eapply wp_mono; [apply getIncoming_spec|]. intros [[p|]|e] s1 [Hr Hrow]; [|..|done].
    + destruct Hrow as (row & a & w & n & Hin & <- & ->). simpl. destruct w as [w|]; [|by apply wp_throw_error].
      wp_step. eapply wp_mono; [apply getPaymentMethods_spec|].
      assert (forall s2, reads s1 s2 -> reads s s2) as Htrans.
      { intros s2 (H2 & H3 & H4). destruct Hr as (H5 & H6 & H7). split_and!; congruence. }
      intros [methods|e] s2 H2; [|split; [by apply Htrans|done]]. wp_step. unfold wp at 1.
      rewrite toOpenPayments_spec. simpl. apply wp_ret. split; [by apply Htrans|].
      exists row, a, n, methods, front. split_and!; [done..|]. intros s3. by eapply new_receiver_of.
    + apply wp_ret. split; [done|]. intros row front' Hin [= E _]. by eapply Hrow.
  - by apply wp_ret.
Qed.

(** ** Reading by URL *)

Lemma getReceiver_spec url s :
  wp (getReceiver deps config url)
    (fun r s' => reads s s' /\ forall rc, r = Ret (Some rc) ->
       if r_isLocal rc
       then exists row a n methods front, row ∈ rows (db s) /\
              parseIncomingPaymentUrl url = Some (IncomingPayment.id row, front) /\ rc = receiver_for row a n methods
       else forall row front, row ∈ rows (db s) ->
              parseIncomingPaymentUrl url <> Some (IncomingPayment.id row, front)) s.
Proof.
  unfold getReceiver. apply wp_try_catch. wp_step. eapply wp_mono; [apply getLocal_spec|].
  intros [[p|]|e] s1 [Hr Hp]; [|..|by apply wp_ret].
  - destruct Hp as (row & a & n & methods & front & Hin & Hparse & Hnew). wp_step. unfold wp at 1. rewrite Hnew. simpl.
    apply wp_ret. split; [done|]. intros rc [= <-]. simpl. by exists row, a, n, methods, front.
  - unfold getRemoteIncomingPayment. do 2 wp_step. apply wp_lift. intros [p|e] x _; [|by apply wp_ret].
    assert (reads s (set_ext x s1)) as Hx by done. wp_step.
    destruct p as [p|e]; cbv beta iota; [|by apply wp_ret]. wp_step.
    assert (wp (new_receiver p false) (fun r s' => s' = set_ext x s1 /\ forall rc, r = Ret rc -> r_isLocal rc = false)
              (set_ext x s1)) as Hnew.
    { unfold new_receiver. destruct (op_incomingAmount p) as [am|]; [destruct (parseAmount am)|];
        destruct (parseAmount (op_receivedAmount p)); unfold wp, bind; simpl; (split; [done|]); by intros ? [= <-]. }
    eapply wp_mono; [exact Hnew|]. intros [rc|e] s2 [-> Hrc]; apply wp_ret; (split; [done|]); [|done].
    intros ? [= <-]. by rewrite (Hrc rc eq_refl).
Qed.

(** The services have an answer about the payment: its asset, its wallet address, what it
    received and its payment methods. *)
Record receiver_answers row : Prop := {
  answer_asset x : exists a x', asset_get deps (assetId row) x = (Ret (Some a), x');
  answer_wallet x : exists w x', walletAddress_get deps (walletAddressId row) None x = (Ret (Some w), x');
  answer_received x : exists r x', getTotalReceived (accountingService deps) (id row) x = (Ret r, x');
  answer_settings x : exists l x', receiver_settings (tenantId row) ILP_ADDRESS x = (Ret l, x');
  answer_credentials address a x : exists c x', stream_credentials (id row) address a x = (Ret c, x')
}.

Lemma getPaymentMethods_answers p s :
  receiver_answers p -> asset p <> None ->
  exists methods s', getPaymentMethods config p s = (Ret methods, s') /\ db s' = db s.
Proof.
  intros Hans Ha. destruct (asset p) as [a|] eqn:E; [|done].
  assert (forall address s, exists m s', ilp_method p address s = (Ret m, s') /\ db s' = db s) as Hilp.
  { intros address s1. destruct (answer_credentials p Hans address a (ext s1)) as (c & x' & Hc).
    unfold ilp_method, the_asset, lift, bind, ret. rewrite E. simpl. rewrite Hc. by do 2 eexists. }
  unfold getPaymentMethods, generateIlpPaymentMethod. case_bool_decide.
  - destruct (Hilp (receiver_ilpAddress config) s) as (m & s' & Hm & Hdb). unfold bind. rewrite Hm. by do 2 eexists.
  - destruct (answer_settings p Hans (ext s)) as (l & x' & Hl). unfold bind, lift. simpl. rewrite Hl.
    destruct l as [|setting l]; [by do 2 eexists|].
    destruct (Hilp (ts_value setting) (set_ext x' s)) as (m & s' & Hm & Hdb). rewrite Hm. by do 2 eexists.
Qed.

Lemma getIncoming_answers row s :
  receiver_answers row -> row ∈ rows (db s) -> NoDup (id <$> rows (db s)) ->
  exists a w n s', getIncomingPayment deps (by_id (id row)) s = (Ret (Some (attach (Some a) (Some w) (Some n) row)), s') /\
    db s' = db s.
Proof.
  intros Hans Hin Hnd. unfold getIncomingPayment, find_payment, bind at 1, db_get, gets. simpl.
  destruct (find_where _ _) as [row'|] eqn:F.
  - apply find_where_Some in F as [Hin' Hq]. unfold subresource_get in Hq. simpl in Hq. zbool.
    assert (row' = row) as -> by (by eapply (unique_key id)). simpl.
    destruct (answer_asset row Hans (ext s)) as (a & x1 & Ha).
    destruct (answer_wallet row Hans x1) as (w & x2 & Hw). destruct (answer_received row Hans x2) as (n & x3 & Hn).
    exists a, w, (default 0 n), (set_ext x3 (set_ext x2 (set_ext x1 s))). split; [|done].
    unfold fetch_related, addReceivedAmount, with_receivedAmount, the_asset, lift, bind, ret. simpl.
    rewrite Ha. simpl. rewrite Hw. simpl. by rewrite Hn.
  - pose proof (find_where_None _ _ row F Hin) as Hq. unfold subresource_get in Hq. simpl in Hq. by zbool.
Qed.

Lemma getReceiver_answers url front row s :
  receiver_answers row -> row ∈ rows (db s) -> NoDup (id <$> rows (db s)) ->
  parseIncomingPaymentUrl url = Some (id row, front) ->
  exists a n methods s', getReceiver deps config url s = (Ret (Some (receiver_for row a n methods)), s') /\ db s' = db s.
Proof.
  intros Hans Hin Hnd Hp. destruct (getIncoming_answers row s Hans Hin Hnd) as (a & w & n & s1 & Hget & Hdb1).
  destruct (getPaymentMethods_answers (attach (Some a) (Some w) (Some n) row) s1) as (methods & s2 & Hm & Hdb2);
    [by destruct Hans|done|].
  exists a, n, methods, s2. split; [|congruence].
  unfold getReceiver, getLocalIncomingPayment, try_catch. rewrite Hp. fold (by_id (id row)).
  unfold bind at 1 2. rewrite Hget. simpl. unfold bind at 1. rewrite Hm. unfold bind at 1. rewrite toOpenPayments_spec.
  simpl. unfold bind at 1. by erewrite new_receiver_of.
Qed.

(** The URL of a payment is parsed back to its identifier. *)
Lemma getUrl_parses row :
  String.length (id row) = 36%nat -> one_line (id row) = true ->
  one_line (strip_slashes (receiver_openPaymentsUrl config)) = true -> one_line (tenantId row) = true ->
  parseIncomingPaymentUrl (getUrl (receiver_openPaymentsUrl config) row)
  = Some (id row, strip_slashes (receiver_openPaymentsUrl config) +:+ "/" +:+ tenantId row).
Proof.
  intros Hlen Hid Hb Ht. unfold getUrl. set (base := strip_slashes _) in *.
  assert (base +:+ "/" +:+ tenantId row +:+ urlPath +:+ "/" +:+ id row
          = (base +:+ "/" +:+ tenantId row) +:+ urlPath +:+ "/" +:+ id row) as -> by (by rewrite !append_assoc).
  apply parse_parts; [done|by destruct base|by rewrite !one_line_append, Hb, Ht|done].
Qed.

(** C37. A payment of this node and the URL it is given determine each other.  In every history
    of incoming payments: what reading a receiver by any URL returns as local is the receiver
    of the payment whose identifier ends the URL - its amounts, expiry and state are the
    row's - and what it returns as remote is of a URL that no payment of this node has;
    nothing is written.  And reading a payment by the URL that is written for Open Payments
    returns that payment's receiver whenever the services it asks answer. *)
Theorem receiver_reads_payment pick s0 s :
  (forall l row, pick l = Some row -> row ∈ l) ->
  rows (db s0) = [] -> rtc (step deps pick) s0 s ->
  (forall url rc s', getReceiver deps config url s = (Ret (Some rc), s') ->
     db s' = db s /\
     if r_isLocal rc
     then exists row a n methods front, row ∈ rows (db s) /\
            parseIncomingPaymentUrl url = Some (id row, front) /\ rc = receiver_for row a n methods
     else forall row front, row ∈ rows (db s) -> parseIncomingPaymentUrl url <> Some (id row, front)) /\
  (forall row, row ∈ rows (db s) -> receiver_answers row ->
     String.length (id row) = 36%nat -> one_line (id row) = true ->
     one_line (strip_slashes (receiver_openPaymentsUrl config)) = true -> one_line (tenantId row) = true ->
     exists a n methods s',
       getReceiver deps config (getUrl (receiver_openPaymentsUrl config) row) s
       = (Ret (Some (receiver_for row a n methods)), s') /\ db s' = db s).
Proof.
  intros Hpick Hempty Hs. assert (wf s) as [Hnd _].
  { apply (incoming_steps_wf deps pick Hpick s0); [|done]. split; rewrite Hempty; [constructor|set_solver]. }
  split.
  - intros url rc s' E. destruct (wp_run _ _ _ _ _ (getReceiver_spec url s) E) as [(Hdb & _) Hrc].
    split; [done|by apply Hrc].
  - intros row Hin Hans Hlen Hid Hb Ht. eapply getReceiver_answers; [done..|]. by apply getUrl_parses.
Qed.
End Specs.
