(* ===== verification/RemoteExamples.v ===== *)
(** * RemoteExamples: payments at another node, and payments read by their URL

    A client of another node whose tokens last ten seconds and which refuses the second
    request it is sent; and a node with one incoming payment.  The theorems of [RemoteSpecs]
    and [ReceiverSpecs] are applied to them.  Two histories show where the code does not do
    what it means to. *)

From S2P Require Import Prelude Text Shared Service OpenPayments Accounting Tenants IncomingPayment IncomingSpecs IncomingHistory IncomingExamples RemoteGrants RemoteSpecs Receivers ReceiverSpecs.
From S2P Require Webhook Quote.

Local Open Scope Z_scope.
Local Open Scope ts_scope.
Local Open Scope string_scope.

#[local] Existing Instance ConcreteUuid.uuid.
#[local] Existing Instance ConcreteUuid.uuid_laws.

Module RemoteExample.

Definition payment (received : Z) : OpenPaymentsIncomingPayment :=
  {| op_id := "https://other/t/incoming-payments/p"; op_walletAddress := "https://other/bob";
     op_incomingAmount := None; op_receivedAmount := serializeAmount {| value := received; assetCode := "USD"; assetScale := 2 |};
     op_completed := false; op_metadata := None; op_createdAt := 0; op_expiresAt := None; op_methods := [] |}.

(** The requests it was sent. *)
Definition Client : Type := nat.

Definition token (n : Client) : TokenAnswer :=
  {| tk_value := ConcreteUuid.tagged n; tk_manage := "https://auth.other/token/" +:+ ConcreteUuid.tagged n +:+ "/";
     tk_expires_in := Some 10 |}.

#[export] Instance client : AuthenticatedClient Client := {
  grant_request _ n := (inr (GrantAnswerWithToken (token n)), S n);
  token_rotate _ _ n := (inr (token n), S n);
  client_walletAddress _ n := (inr {| rw_id := "https://other/bob"; rw_authServer := "https://auth.other";
                                      rw_resourceServer := None |}, n);
  payment_create _ _ _ n := (inr (payment 0), S n);
  payment_get _ _ n := if (n =? 1)%nat then (inl (OpenPaymentsClientError (Some 401)), S n) else (inr (payment (Z.of_nat n)), S n);
  payment_complete _ _ n := (inr (payment 0), S n);
  payment_getPublic _ n := (inr "https://auth.other", n);
  url_origin s := Some s
}.

#[export] Instance client_laws : ClientLaws Client.
Proof.
  split; intros; unfold lifetime_ok; match goal with Hr : _ = _ |- _ => cbv in Hr; injection Hr as <- _ end; simpl; lia.
Qed.

Definition find_grant (l : list RemoteGrant) : option RemoteGrant := head l.

Lemma find_grant_sound l g : find_grant l = Some g -> g ∈ l.
Proof. destruct l; [done|]. intros [= ->]. left. Qed.

Definition no_grants : RemoteState (Y := Client) :=
  {| db := {| authServers := []; remoteGrants := [] |}; now := 1000; Service.fresh := 0; ext := 0%nat |}.

(** The first token is refused and its grant deleted; the second is used, and used again until
    it expires, when it is rotated. *)
Definition read_once : RemoteState (Y := Client) := (remote_get find_grant "u" no_grants).2.
Definition expired_later : RemoteState (Y := Client) :=
  {| db := db read_once; now := 20000; Service.fresh := Service.fresh read_once; ext := ext read_once |}.

Lemma remote_started : remote_init no_grants.
Proof. by split. Qed.

Lemma remote_steps : rtc (remote_step find_grant) no_grants expired_later.
Proof.
  apply (rtc_l _ _ read_once); [apply (step_remoteGet find_grant "u" no_grants)|].
  apply rtc_once, (step_remote_others find_grant 20000 (ext read_once) read_once).
Qed.

Lemma refused_then_kept :
  (fun g => (rg_accessToken g, rg_deletedAt g, rg_expiresAt g)) <$> remoteGrants (db expired_later)
  = [("id-", Some 1000, Some 11000); ("id-11", None, Some 11000)] /\
  (fun g => (rg_accessToken g, rg_managementId g, rg_expiresAt g)) <$>
    remoteGrants (db (remote_get find_grant "u" expired_later).2)
  = [("id-", "id-", Some 11000); ("id-1111", "id-1111", Some 30000)].
Proof. by vm_compute. Qed.

(** A server that gives a token it gave before: the row that is deleted still has it, and no
    grant is made however often it is asked for. *)
Definition same_token : AuthenticatedClient Client := {|
  grant_request := (fun _ n => (inr (GrantAnswerWithToken (token 0%nat)), S n)) : GrantOptions -> ClientCall Client GrantAnswer;
  token_rotate := token_rotate; client_walletAddress := client_walletAddress; payment_create := payment_create;
  payment_get := payment_get; payment_complete := payment_complete; payment_getPublic := payment_getPublic;
  url_origin := url_origin |}.

Lemma deleted_token_blocks :
  let get := remote_get (AuthenticatedClient0 := same_token) find_grant "u" in
  (get no_grants).1 = Throw (UniqueViolationError "grants_accesstoken_unique") /\
  (get (get no_grants).2).1 = Throw (UniqueViolationError "grants_accesstoken_unique").
Proof. by vm_compute. Qed.
End RemoteExample.

Import RemoteExample.

Lemma remote_payment_under_grant_witness :
  exists server g y,
    (payment_getPublic "u" (ext expired_later)).1 = inr server /\
    covers (remote_get find_grant "u" expired_later).2 (incoming_access server ["read-all"]) g /\
    payment_get "u" (rg_accessToken g) y = (inr (payment 5), ext (remote_get find_grant "u" expired_later).2).
Proof.
  destruct (remote_payment_under_grant find_grant find_grant_sound no_grants expired_later
    remote_started remote_steps) as (_ & Hget & _).
  apply (Hget "u" (payment 5)). vm_compute. reflexivity.
Defined.

Module ReceiverExample.
Import IncomingExamples.Example.

#[export] Instance services : ReceiverServices Ledger := {
  receiver_walletByUrl _ := ret (Some wallet);
  receiver_settings tenant key := ret [{| ts_id := "s"; ts_tenantId := tenant; ts_key := key; ts_value := "test.acme"; ts_createdAt := 0;
                                          ts_deletedAt := None |}];
  stream_credentials tag address _ := ret (Some {| cred_ilpAddress := address +:+ "." +:+ tag; cred_sharedSecret := "secret" |});
  remoteService_create _ := ret (Err InvalidGrant);
  remoteService_get _ := ret (Err NotFound);
  remoteService_complete _ := ret (Err NotFound)
}.

Definition config : ReceiverConfig :=
  {| receiver_openPaymentsUrl := "https://host.example/"; receiver_operatorTenantId := "operator";
     receiver_ilpAddress := "test.host" |}.

(** The first identifier that is given is of 36 characters. *)
Definition no_payments : IncomingState (X := Ledger) :=
  {| db := db empty; now := 1000; Service.fresh := 33; ext := ∅ |}.
Definition made : IncomingState (X := Ledger) := (insertIncomingPayment deps create no_payments).2.
Definition the_row : IncomingPayment := default no_payment (head (rows (db made))).
Definition the_url : string := getUrl (receiver_openPaymentsUrl config) the_row.

Lemma one_payment : rows (db made) = [the_row].
Proof. by vm_compute. Qed.

Lemma made_by_step : rtc (step deps pick) no_payments made.
Proof. apply rtc_once, (step_create deps pick create no_payments). Qed.

Lemma row_answers : receiver_answers deps the_row.
Proof. split; intros; do 2 eexists; reflexivity. Qed.

(** Any URL that ends with the path and the identifier of a payment is read as that payment,
    whatever server it names. *)
Lemma foreign_url_read_as_local :
  let url := "https://elsewhere.example/incoming-payments/" +:+ id the_row in
  the_url = "https://host.example/tenant/incoming-payments/" +:+ id the_row /\
  (getReceiver deps config url made).1 = (getReceiver deps config the_url made).1 /\
  match (getReceiver deps config url made).1 with Ret (Some r) => r_isLocal r | _ => false end = true.
Proof. by vm_compute. Qed.

(** A wallet address of another tenant of this node is found by its URL, and a payment is asked
    for with the tenant of the caller, whose wallet address it is not. *)
Definition own_wallets : IncomingDeps Ledger :=
  {| incomingPaymentExpiryMaxMs := 10000; pollIncomingPaymentCreatedWebhook := false;
     incomingPaymentCreatedPollFrequency := 10; incomingPaymentCreatedPollTimeout := 50;
     webhookConfig := webhookConfig deps; accountingService := accountingService deps;
     walletAddress_get _ tenant := ret (if bool_decide (tenant = Some "other") then None else Some wallet);
     asset_get := asset_get deps |}.

Definition receiver_args (tenant : string) : CreateReceiverArgs :=
  {| cr_walletAddressUrl := "https://host.example/alice"; cr_expiresAt := None; cr_incomingAmount := None;
     cr_metadata := None; cr_tenantId := tenant |}.

Lemma wallet_address_of_another_tenant :
  (createReceiver own_wallets config (fun _ => ret tt) pick (receiver_args "other") no_payments).1
  = Ret (Err (LocalError IncomingPaymentError.UnknownWalletAddress)) /\
  match (createReceiver own_wallets config (fun _ => ret tt) pick (receiver_args "tenant") no_payments).1 with
  | Ret (Ok r) => r_isLocal r | _ => false end = true.
Proof. by vm_compute. Qed.
End ReceiverExample.

Import IncomingExamples.Example ReceiverExample.

Lemma receiver_reads_payment_witness :
  exists a n methods s',
    getReceiver deps config the_url made = (Ret (Some (receiver_for config the_row a n methods)), s') /\ db s' = db made.
Proof.
  destruct (receiver_reads_payment deps config pick no_payments made incoming_pick_sound eq_refl made_by_step) as [_ H].
  apply H; [rewrite one_payment; left|exact row_answers|vm_compute; reflexivity..].
Defined.
