(* ===== verification/Liquidity.v ===== *)
(** * Liquidity: deposits and withdrawals asked for over GraphQL

    Models [graphql/resolvers/liquidity.ts], with the codes and messages of
    [accounting/errors.ts].  A resolver keeps nothing of its own: its state [X] is that of the
    services it calls, of which accounting is any [AccountingService] and the events are the
    table of [Webhook].  A resolver's [GraphQLError] is the error of its result; any other
    exception is thrown.  Starting and stopping timers is left out. *)

From S2P Require Import Prelude Text JsNumber OpenPayments Accounting.
From S2P Require Webhook.
From S2P Require Import OutgoingPayment.
From S2P Require OutgoingRoutes.
Import Webhook (WebhookDb, WebhookEvent, getWebhookEvent, getLatestWebhookEventByResourceId,
  ev_id, ev_type, ev_data, ev_tenantId, withdrawal).

Local Open Scope Z_scope.
Local Open Scope ts_scope.

(** ** Errors *)

Inductive GraphQLErrorCode :=
| BadUserInput | Duplicate | Forbidden | Inactive | InternalServerError | NotFound | Conflict | Timeout.

Module LiquidityError.
Inductive t :=
| AlreadyPosted
| AlreadyVoided
| AmountZero
| InsufficientBalance
| InvalidId
| TransferExists
| UnknownAsset
| UnknownIncomingPayment
| UnknownOutgoingPayment
| UnknownPayment
| UnknownPeer
| UnknownTransfer
| UnknownWalletAddress.
End LiquidityError.

Record GqlError := { message : string; code : GraphQLErrorCode }.

Definition liquidityErrorToCode (e : LiquidityError.t) : GraphQLErrorCode :=
  match e with
  | LiquidityError.AlreadyPosted | LiquidityError.AlreadyVoided => Conflict
  | LiquidityError.AmountZero | LiquidityError.InsufficientBalance => Forbidden
  | LiquidityError.InvalidId => BadUserInput
  | LiquidityError.TransferExists => Duplicate
  | LiquidityError.UnknownAsset | LiquidityError.UnknownIncomingPayment
  | LiquidityError.UnknownOutgoingPayment | LiquidityError.UnknownPayment
  | LiquidityError.UnknownWalletAddress | LiquidityError.UnknownPeer
  | LiquidityError.UnknownTransfer => NotFound
  end.

Definition liquidityErrorToMessage (e : LiquidityError.t) : string :=
  match e with
  | LiquidityError.AlreadyPosted => "Transfer already posted"
  | LiquidityError.AlreadyVoided => "Transfer already voided"
  | LiquidityError.AmountZero => "Transfer amount is zero"
  | LiquidityError.InsufficientBalance => "Insufficient transfer balance"
  | LiquidityError.InvalidId => "Invalid transfer id"
  | LiquidityError.TransferExists => "Transfer already exists"
  | LiquidityError.UnknownAsset => "Unknown asset"
  | LiquidityError.UnknownIncomingPayment => "Unknown incoming payment"
  | LiquidityError.UnknownOutgoingPayment => "Unknown outgoing payment"
  | LiquidityError.UnknownPayment => "Unknown transfer payment"
  | LiquidityError.UnknownWalletAddress => "Unknown wallet address"
  | LiquidityError.UnknownPeer => "Unknown peer"
  | LiquidityError.UnknownTransfer => "Unknown transfer"
  end.

(** [accounting/errors.ts] *)
Definition transferErrorToCode (e : TransferError) : GraphQLErrorCode :=
  match e with
  | AlreadyPosted | AlreadyVoided => Conflict
  | DifferentAssets | InsufficientBalance | InsufficientDebitBalance | InsufficientLiquidity
  | SameAccounts | TransferExpired => Forbidden
  | InvalidAmount | InvalidId | InvalidSourceAmount | InvalidDestinationAmount | InvalidTimeout => BadUserInput
  | TransferExists => Duplicate
  | UnknownTransfer | UnknownSourceAccount | UnknownDestinationAccount => NotFound
  | UnknownError => InternalServerError
  end.

Definition transferErrorToMessage (e : TransferError) : string :=
  match e with
  | AlreadyPosted => "Transfer already posted"
  | AlreadyVoided => "Transfer already voided"
  | DifferentAssets => "Transfer accounts have different assets"
  | InsufficientBalance => "Insufficient transfer balance"
  | InsufficientDebitBalance => "Insufficient transfer debit balance"
  | InsufficientLiquidity => "Insufficient transfer liquidity available"
  | InvalidAmount => "Invalid transfer amount"
  | InvalidId => "Invalid transfer id"
  | InvalidSourceAmount => "Invalid source account amount"
  | InvalidDestinationAmount => "Invalid destination account amount"
  | InvalidTimeout => "Invalid transfer timeout provided"
  | SameAccounts => "Transfer is between the same accounts"
  | TransferExists => "Transfer already exists"
  | TransferExpired => "Transfer already expired"
  | UnknownTransfer => "Unknown transfer"
  | UnknownError => "Internal server error"
  | UnknownSourceAccount => "Unknown source account"
  | UnknownDestinationAccount => "Unknown destination account"
  end.

(** The two enums share some of their values. *)
Definition isLiquidityError (e : TransferError) : option LiquidityError.t :=
  match e with
  | AlreadyPosted => Some LiquidityError.AlreadyPosted
  | AlreadyVoided => Some LiquidityError.AlreadyVoided
  | InsufficientBalance => Some LiquidityError.InsufficientBalance
  | InvalidId => Some LiquidityError.InvalidId
  | TransferExists => Some LiquidityError.TransferExists
  | UnknownTransfer => Some LiquidityError.UnknownTransfer
  | _ => None
  end.

(** [open_payments/payment/outgoing/errors.ts] *)
Definition paymentErrorToCode (e : OutgoingPaymentError.t) : GraphQLErrorCode :=
  match e with
  | OutgoingPaymentError.UnknownWalletAddress | OutgoingPaymentError.UnknownPayment
  | OutgoingPaymentError.UnknownQuote => NotFound
  | OutgoingPaymentError.WrongState => Conflict
  | OutgoingPaymentError.InsufficientGrant => Forbidden
  | OutgoingPaymentError.InactiveWalletAddress => Inactive
  | OutgoingPaymentError.InvalidQuote | OutgoingPaymentError.InvalidAmount
  | OutgoingPaymentError.NegativeReceiveAmount | OutgoingPaymentError.InvalidReceiver
  | OutgoingPaymentError.OnlyOneGrantAmountAllowed => BadUserInput
  end.

(** The table of transfer errors is spread over that of payments: a value of both has the
    message of the former. *)
Definition fundingErrorToMessage (e : FundingError) : string :=
  match e with
  | PaymentFundingError OutgoingPaymentError.InvalidAmount => transferErrorToMessage InvalidAmount
  | PaymentFundingError e => OutgoingRoutes.errorToMessage e
  | TransferFundingError e => transferErrorToMessage e
  end.
Definition fundingErrorToCode (e : FundingError) : GraphQLErrorCode :=
  match e with
  | PaymentFundingError OutgoingPaymentError.InvalidAmount => transferErrorToCode InvalidAmount
  | PaymentFundingError e => paymentErrorToCode e
  | TransferFundingError e => transferErrorToCode e
  end.

Definition liquidity_error (e : LiquidityError.t) : GqlError :=
  {| message := liquidityErrorToMessage e; code := liquidityErrorToCode e |}.
Definition transfer_error (e : TransferError) : GqlError :=
  {| message := transferErrorToMessage e; code := transferErrorToCode e |}.
Definition funding_error (e : FundingError) : GqlError :=
  {| message := fundingErrorToMessage e; code := fundingErrorToCode e |}.

(** ** What the resolvers call *)

(** [TenantedApolloContext] *)
Record Ctx := { ctx_tenant : string; isOperator : bool }.

(** [ctx.isOperator ? undefined : ctx.tenant.id] *)
Definition asking_tenant (ctx : Ctx) : option string := if isOperator ctx then None else Some (ctx_tenant ctx).

(** What is read of an incoming payment of the service. *)
Record IncomingView (X : Type) := { in_received : Z; in_asset : LiquidityAccountAsset X }.
Arguments in_received {X}. Arguments in_asset {X}.
Record OutgoingView (X : Type) := { out_id : string; out_asset : LiquidityAccountAsset X }.
Arguments out_id {X}. Arguments out_asset {X}.

(** What [peerService.depositLiquidity] answers when it does not deposit. *)
Inductive PeerDepositError := PeerUnknown | PeerTransferError (e : TransferError).

(** An asset, a peer and a wallet address are each the account of their liquidity. *)
Class LiquidityServices (X D : Type) := {
  lq_asset : string -> option string -> M X (option (LiquidityAccount X));
  lq_peer : string -> option string -> M X (option (LiquidityAccount X));
  lq_walletAddress : string -> option string -> M X (option (LiquidityAccount X));
  lq_incomingPayment : string -> option string -> M X (option (IncomingView X));
  lq_outgoingPayment : string -> option string -> M X (option (OutgoingView X));
  (* whether [combinedPaymentService.get] finds a payment *)
  lq_payment : string -> option string -> M X bool;
  lq_depositPeer : string -> string -> Z -> option string -> M X (option PeerDepositError);
  (* [outgoingPaymentService.fund] *)
  lq_fund : FundOutgoingPaymentOptions -> M X (option FundingError);
  (* the table of webhook events, and what is read of the data of one *)
  lq_events : X -> WebhookDb D;
  data_id : D -> string;
  data_debitAmount : D -> option AmountJSON
}.

Section Resolvers.
Context {X D : Type} `{!LiquidityServices X D}.
Context (accounting : AccountingService X).

Abbreviation Answer := (M X (res GqlError unit)).

(** [Number(timeoutSeconds)] of a bigint. *)
Definition Number_ (n : Z) : Z := default 0 (bigint_floor (of_bigint n)).

Definition answer_transfer (error : option TransferError) : Answer :=
  match error with
  | Some e => ret (Err (transfer_error e))
  | None => ret (Ok tt)
  end.

Definition answer_funding (error : option FundingError) : Answer :=
  match error with
  | Some e => ret (Err (funding_error e))
  | None => ret (Ok tt)
  end.

(** ** Reading liquidity *)

Definition getLiquidity (id : string) : M X (option Z) := getBalance accounting id.

Definition getPeerOrAssetLiquidity (id : string) : M X Z :=
  let! liquidity := getLiquidity id in
  match liquidity with
  | None => throw_error "No liquidity account found"
  | Some liquidity => ret liquidity
  end.

Definition getAssetLiquidity (ctx : Ctx) (id : string) : M X (res GqlError Z) :=
  let! asset := lq_asset id (asking_tenant ctx) in
  match asset with
  | None => ret (Err (liquidity_error LiquidityError.UnknownAsset))
  | Some _ => let! liquidity := getPeerOrAssetLiquidity id in ret (Ok liquidity)
  end.

Definition getPeerLiquidity (ctx : Ctx) (id : string) : M X (res GqlError Z) :=
  let! peer := lq_peer id (asking_tenant ctx) in
  match peer with
  | None => ret (Err (liquidity_error LiquidityError.UnknownPeer))
  | Some _ => let! liquidity := getPeerOrAssetLiquidity id in ret (Ok liquidity)
  end.

Definition getWalletAddressLiquidity (ctx : Ctx) (id : string) : M X (res GqlError (option Z)) :=
  let! walletAddress := lq_walletAddress id (asking_tenant ctx) in
  match walletAddress with
  | None => ret (Err (liquidity_error LiquidityError.UnknownWalletAddress))
  | Some _ => let! liquidity := getLiquidity id in ret (Ok liquidity)
  end.

Definition getIncomingPaymentLiquidity (ctx : Ctx) (id : string) : M X (res GqlError (option Z)) :=
  let! incomingPayment := lq_incomingPayment id (asking_tenant ctx) in
  match incomingPayment with
  | None => ret (Err (liquidity_error LiquidityError.UnknownIncomingPayment))
  | Some _ => let! liquidity := getLiquidity id in ret (Ok liquidity)
  end.

Definition getOutgoingPaymentLiquidity (ctx : Ctx) (id : string) : M X (res GqlError (option Z)) :=
  let! outgoingPayment := lq_outgoingPayment id (asking_tenant ctx) in
  match outgoingPayment with
  | None => ret (Err (liquidity_error LiquidityError.UnknownOutgoingPayment))
  | Some _ => let! liquidity := getLiquidity id in ret (Ok liquidity)
  end.

Definition getPaymentLiquidity (ctx : Ctx) (id : string) : M X (res GqlError (option Z)) :=
  let! payment := lq_payment id (asking_tenant ctx) in
  if negb payment then ret (Err (liquidity_error LiquidityError.UnknownPayment))
  else let! liquidity := getLiquidity id in ret (Ok liquidity).

(** ** Peers, assets and wallet addresses *)

Definition depositPeerLiquidity (ctx : Ctx) (id peerId : string) (amount : Z) : Answer :=
  if amount =? 0 then ret (Err (liquidity_error LiquidityError.AmountZero))
  else
  let! error := lq_depositPeer id peerId amount (asking_tenant ctx) in
  match error with
  | Some PeerUnknown => ret (Err {| message := "unknown peer"; code := NotFound |})
  | Some (PeerTransferError e) =>
      match isLiquidityError e with
      | Some e => ret (Err (liquidity_error e))
      | None => ret (Ok tt)
      end
  | None => ret (Ok tt)
  end.

Definition depositAssetLiquidity (ctx : Ctx) (id assetId : string) (amount : Z) : Answer :=
  if amount =? 0 then ret (Err (liquidity_error LiquidityError.AmountZero))
  else
  let! asset := lq_asset assetId (asking_tenant ctx) in
  match asset with
  | None => ret (Err (liquidity_error LiquidityError.UnknownAsset))
  | Some asset =>
      let! error := createDeposit accounting
        {| deposit_id := id; deposit_account := asset; deposit_amount := amount |} in
      answer_transfer error
  end.

Definition withdraw (id : string) (account : LiquidityAccount X) (amount : Z) (timeout : option Z)
  : M X (option TransferError) :=
  createWithdrawal accounting
    {| withdrawal_deposit := {| deposit_id := id; deposit_account := account; deposit_amount := amount |};
       withdrawal_timeout := timeout |}.

Definition createPeerLiquidityWithdrawal (ctx : Ctx) (id peerId : string) (amount timeoutSeconds : Z) : Answer :=
  if amount =? 0 then ret (Err (liquidity_error LiquidityError.AmountZero))
  else
  let! peer := lq_peer peerId (asking_tenant ctx) in
  match peer with
  | None => ret (Err (liquidity_error LiquidityError.UnknownPeer))
  | Some peer => let! error := withdraw id peer amount (Some (Number_ timeoutSeconds)) in answer_transfer error
  end.

Definition createAssetLiquidityWithdrawal (ctx : Ctx) (id assetId : string) (amount timeoutSeconds : Z) : Answer :=
  if amount =? 0 then ret (Err (liquidity_error LiquidityError.AmountZero))
  else
  let! asset := lq_asset assetId (asking_tenant ctx) in
  match asset with
  | None => ret (Err (liquidity_error LiquidityError.UnknownAsset))
  | Some asset => let! error := withdraw id asset amount (Some (Number_ timeoutSeconds)) in answer_transfer error
  end.

(** The whole balance; the answer has the amount. *)
Definition createWalletAddressWithdrawal (ctx : Ctx) (id walletAddressId : string) (timeoutSeconds : Z)
  : M X (res GqlError Z) :=
  let! walletAddress := lq_walletAddress walletAddressId (asking_tenant ctx) in
  match walletAddress with
  | None => ret (Err (liquidity_error LiquidityError.UnknownWalletAddress))
  | Some walletAddress =>
      let! amount := getBalance accounting (account_id walletAddress) in
      match amount with
      | None => throw_error "missing incoming payment wallet address"
      | Some amount =>
          if amount =? 0 then ret (Err (liquidity_error LiquidityError.AmountZero))
          else
          let! error := withdraw id walletAddress amount (Some (Number_ timeoutSeconds)) in
          match error with
          | Some e => ret (Err (transfer_error e))
          | None => ret (Ok amount)
          end
      end
  end.

Definition postLiquidityWithdrawal (withdrawalId : string) : Answer :=
  let! error := postWithdrawal accounting withdrawalId in answer_transfer error.

Definition voidLiquidityWithdrawal (withdrawalId : string) : Answer :=
  let! error := voidWithdrawal accounting withdrawalId in answer_transfer error.

(** ** Events and payments *)

Definition isDepositEventType (type : string) : bool :=
  bool_decide (type = OutgoingPaymentEventType_value PaymentCreated).

Definition isOutgoingPaymentEvent (event : WebhookEvent D) : bool :=
  bool_decide (ev_type event ∈ OutgoingPaymentEventType_value <$>
    [PaymentCreated; PaymentFailed; PaymentCompleted; PaymentFunded; PaymentCancelled]).

Definition getEvent (id : string) (tenantId : option string) : M X (option (WebhookEvent D)) :=
  gets (fun x => getWebhookEvent id tenantId (lq_events x)).

Definition getLatestByResourceId (types : list string) (options : Webhook.WebhookByResourceIdOptions)
  : M X (option (WebhookEvent D)) :=
  gets (fun x => getLatestWebhookEventByResourceId (Some types) options (lq_events x)).

(** [BigInt(s)] *)
Definition BigInt_ (s : string) : M X Z :=
  match BigInt s with Ret n => ret n | Throw e => throw e end.

Definition depositEventLiquidity (ctx : Ctx) (eventId : string) : Answer :=
  let! event := getEvent eventId (asking_tenant ctx) in
  match event with
  | None => ret (Err (liquidity_error LiquidityError.InvalidId))
  | Some event =>
      if negb (isOutgoingPaymentEvent event) || negb (isDepositEventType (ev_type event))
      then ret (Err (liquidity_error LiquidityError.InvalidId))
      else
      match data_debitAmount (ev_data event) with
      | None => throw_error "missing debit amount"
      | Some debitAmount =>
          let! amount := BigInt_ (json_value debitAmount) in
          let! error := lq_fund
            {| f_id := data_id (ev_data event);
               f_tenantId := if isOperator ctx then ev_tenantId event else ctx_tenant ctx;
               f_amount := amount; transferId := ev_id event; f_dataToTransmit := None |} in
          answer_funding error
      end
  end.

Definition withdrawEventLiquidity (ctx : Ctx) (eventId : string) : Answer :=
  let! event := getEvent eventId (asking_tenant ctx) in
  match event with
  | None => ret (Err (liquidity_error LiquidityError.InvalidId))
  | Some event =>
      match withdrawal event with
      | None => ret (Err (liquidity_error LiquidityError.InvalidId))
      | Some w =>
          let! asset := lq_asset (Webhook.assetId w) None in
          match asset with
          | None => throw_error "asset id does not map to asset"
          | Some asset =>
              let! error := withdraw (ev_id event)
                {| account_id := Webhook.accountId w; account_asset := account_asset asset;
                   account_onCredit := None; account_onDebit := None |} (Webhook.w_amount w) None in
              answer_transfer error
          end
      end
  end.

Definition depositOutgoingPaymentLiquidity (ctx : Ctx) (outgoingPaymentId : string)
    (dataToTransmit : option string) : Answer :=
  let! event := getLatestByResourceId [OutgoingPaymentEventType_value PaymentCreated]
                  (Webhook.ByOutgoingPayment outgoingPaymentId) in
  match event with
  | None => ret (Err (liquidity_error LiquidityError.InvalidId))
  | Some event =>
      if negb (isOutgoingPaymentEvent event) then ret (Err (liquidity_error LiquidityError.InvalidId))
      else
      match data_debitAmount (ev_data event) with
      | None => throw_error "No debit amount"
      | Some debitAmount =>
          let! amount := BigInt_ (json_value debitAmount) in
          let! error := lq_fund
            {| f_id := outgoingPaymentId; f_tenantId := ctx_tenant ctx; f_amount := amount;
               transferId := ev_id event; f_dataToTransmit := dataToTransmit |} in
          answer_funding error
      end
  end.

(** The account of a payment of which the resolver makes an object of its own. *)
Definition payment_account_of (id : string) (asset : LiquidityAccountAsset X) : LiquidityAccount X :=
  {| account_id := id; account_asset := asset; account_onCredit := None; account_onDebit := None |}.

Definition createIncomingPaymentWithdrawal (ctx : Ctx) (incomingPaymentId : string) (timeoutSeconds : Z)
  : Answer :=
  let! incomingPayment := lq_incomingPayment incomingPaymentId (asking_tenant ctx) in
  let! event := getLatestByResourceId ["incoming_payment.completed"; "incoming_payment.expired"]%string
                  (Webhook.ByIncomingPayment incomingPaymentId) in
  match incomingPayment, event with
  | Some incomingPayment, Some event =>
      if negb (truthy (ev_id event)) then ret (Err (liquidity_error LiquidityError.UnknownIncomingPayment))
      else
      let! error := withdraw (ev_id event) (payment_account_of incomingPaymentId (in_asset incomingPayment))
                      (in_received incomingPayment) (Some (Number_ timeoutSeconds)) in
      match error with
      | Some e => ret (Err (funding_error (TransferFundingError e)))
      | None => ret (Ok tt)
      end
  | _, _ => ret (Err (liquidity_error LiquidityError.UnknownIncomingPayment))
  end.

Definition createOutgoingPaymentWithdrawal (ctx : Ctx) (outgoingPaymentId : string) (timeoutSeconds : Z)
  : Answer :=
  let! outgoingPayment := lq_outgoingPayment outgoingPaymentId (asking_tenant ctx) in
  let! event := getLatestByResourceId
                  (OutgoingPaymentEventType_value <$> [PaymentCompleted; PaymentFailed])
                  (Webhook.ByOutgoingPayment outgoingPaymentId) in
  match outgoingPayment, event with
  | Some outgoingPayment, Some event =>
      if negb (truthy (ev_id event)) then ret (Err (liquidity_error LiquidityError.UnknownOutgoingPayment))
      else
      let! balance := getBalance accounting (out_id outgoingPayment) in
      match balance with
      | Some balance =>
          if balance =? 0 then ret (Err (liquidity_error LiquidityError.InsufficientBalance))
          else
          let! error := withdraw (ev_id event) (payment_account_of outgoingPaymentId (out_asset outgoingPayment))
                          balance (Some (Number_ timeoutSeconds)) in
          answer_transfer error
      | None => ret (Err (liquidity_error LiquidityError.InsufficientBalance))
      end
  | _, _ => ret (Err (liquidity_error LiquidityError.UnknownOutgoingPayment))
  end.
End Resolvers.
