(* ===== verification/LiquiditySpecs.v ===== *)
(** * LiquiditySpecs: what a request to deposit or to withdraw does to the ledger

    The resolvers of [Liquidity] over the Postgres ledger.  A request that is answered with
    success has added one transfer, of the amount and the account that was asked for (a
    refused deposit to a peer may be answered with success, too); one that is not has added none; and of the requests with one reference at most one ever succeeds. *)

From S2P Require Import Prelude Text Shared Service Accounting PsqlLedger PsqlAccounting.
From S2P Require Webhook.
From S2P Require Import Liquidity.

Local Open Scope Z_scope.
Local Open Scope ts_scope.

(** ** One transfer *)

Section Ledger.
Context {E : Type} `{Uuid}.
Implicit Types w : World E.

(** What reading other services leaves of the ledger. *)
Record kept w w' : Prop := {
  kp_accounts : accounts w' = accounts w;
  kp_transfers : transfers w' = transfers w;
  kp_now : now w' = now w
}.

#[export] Instance kept_refl : Reflexive kept.
Proof. by split. Qed.
#[export] Instance kept_trans : Transitive kept.
Proof. intros w1 w2 w3 [] []. split; congruence. Qed.

(** The row of a request is added, after it was validated; the ledger stays healthy. *)
Definition added (r : CreateLedgerTransferArgs) w w' : Prop :=
  validated (accounts w) (transfers w) (now w) r /\ accounts w' = accounts w /\ now w' = now w /\
  (Healthy w -> Healthy w') /\ exists id, transfers w' = transfers w ++ [prepareTransfer (now w) id r].

Lemma createTransfers_one r w :
  args_in (accounts w) r ->
  wp (createTransfers [r]) (fun o w' =>
    match o with
    | Ret x => match firstError x with None => added r w w' | Some _ => kept w w' end
    | Throw _ => kept w w'
    end) w.
Proof.
  intros Hr. assert (Healthy w -> Healthy (createTransfers [r] w).2) as Hh.
  { intros Hw. apply createTransfers_keeps; [by constructor|done]. }
  revert Hh. unfold wp, createTransfers, createTransfersLoop, bind. simpl.
  pose proof (validateTransfer_state false r w) as Hs.
  destruct (validateTransfer false r w) as [[[e|]|e] w1] eqn:Hv; simpl in Hs; subst w1; [by split| |by split].
  apply validateTransfer_None in Hv as [_ Hv]. unfold try_catch.
  destruct (insertTransfer_spec r w) as (id & _ & ->).
  destruct (insertable _ _); simpl; [|by split]. intros Hh. split_and!; [done..|]. by exists id.
Qed.

Definition settlement (accs : list LedgerAccount) (ref : string) : option LedgerAccount :=
  find_where (fun a => bool_decide (la_accountRef a = ref) && isSettlementAccount a) accs.

(** The request a deposit or a withdrawal makes of the ledger. *)
Definition deposit_request w (d : Deposit (World E)) (r : CreateLedgerTransferArgs) : Prop :=
  liquidity (accounts w) (account_id (deposit_account d)) = Some (cl_creditAccount r) /\
  settlement (accounts w) (asset_id (account_asset (deposit_account d))) = Some (cl_debitAccount r) /\
  cl_amount r = deposit_amount d /\ cl_transferRef r = deposit_id d /\ cl_timeoutMs r = None.

Definition withdrawal_request w (a : Withdrawal (World E)) (r : CreateLedgerTransferArgs) : Prop :=
  let d := withdrawal_deposit a in
  liquidity (accounts w) (account_id (deposit_account d)) = Some (cl_debitAccount r) /\
  settlement (accounts w) (asset_id (account_asset (deposit_account d))) = Some (cl_creditAccount r) /\
  cl_amount r = deposit_amount d /\ cl_transferRef r = deposit_id d /\
  cl_timeoutMs r = (if truthy (withdrawal_timeout a) then (fun t => t * 1000) <$> withdrawal_timeout a else None).

Lemma createAccountDeposit_adds d w :
  wp (createAccountDeposit d) (fun o w' =>
    match o with
    | Ret None => exists r, deposit_request w d r /\ added r w w'
    | _ => kept w w'
    end) w.
Proof.
  unfold createAccountDeposit, getLiquidityAccount, getSettlementAccount.
  fold (liquidity (accounts w) (account_id (deposit_account d))). wp_step. wp_step. wp_step. wp_step.
  destruct (find_where _ _) as [a|] eqn:Ha; [|by apply wp_ret].
  destruct (find_where (fun _ => _ && isSettlementAccount _) _) as [b|] eqn:Hb; [|by apply wp_ret].
  wp_step. eapply wp_mono; [apply createTransfers_one; by split; simpl; eapply find_where_Some|]. intros [x|e] w' Hx; [|done].
  apply wp_ret. destruct (firstError x); [done|]. eexists. split; [|done]. by split_and!.
Qed.

Lemma createAccountWithdrawal_adds a w :
  wp (createAccountWithdrawal a) (fun o w' =>
    match o with
    | Ret None => exists r, withdrawal_request w a r /\ added r w w'
    | _ => kept w w'
    end) w.
Proof.
  unfold createAccountWithdrawal, getLiquidityAccount, getSettlementAccount. wp_step. wp_step. wp_step. wp_step.
  destruct (find_where _ _) as [l|] eqn:Ha; [|by apply wp_ret].
  destruct (find_where (fun _ => _ && isSettlementAccount _) _) as [b|] eqn:Hb; [|by apply wp_ret].
  wp_step. eapply wp_mono; [apply createTransfers_one; by split; simpl; eapply find_where_Some|]. intros [x|e] w' Hx; [|done].
  apply wp_ret. destruct (firstError x); [done|]. eexists. split; [|done]. by split_and!.
Qed.

(** A row that is added has a reference of its own, which stays taken. *)
Lemma reference_stays r r' w w1 w2 w3 :
  Healthy w -> added r w w1 -> rtc step w1 w2 -> cl_transferRef r' = cl_transferRef r -> ~ added r' w2 w3.
Proof.
  intros Hh (_ & _ & _ & Hh1 & id & Ht) Hs Hr (Hv & _). destruct (rtc_step_keeps w1 w2 Hs (Hh1 Hh)) as [_ He].
  destruct (He (prepareTransfer (now w) id r)) as (t' & Ht' & [Hrow _]); [rewrite Ht; set_solver|].
  apply (v_new _ _ _ _ Hv t' Ht'). rewrite Hr.
  by change (lt_transferRef (set_state PENDING t') = lt_transferRef (set_state PENDING (prepareTransfer (now w) id r)));
    rewrite Hrow.
Qed.

(** What is withdrawn leaves the balance at once. *)
Lemma withdrawal_leaves r w w' ref a :
  liquidity (accounts w) ref = Some a -> cl_debitAccount r = a -> added r w w' ->
  exists b, (getLiquidityAccountBalance ref w).1 = Ret (Some b) /\
    (getLiquidityAccountBalance ref w').1 = Ret (Some (b - cl_amount r)).
Proof.
  intros Ha Hd (Hv & Hacc & Hnow & _ & id & Ht). rewrite !getLiquidityAccountBalance_eq, Hacc, Ha. simpl.
  eexists. split; [done|]. rewrite Hnow, Ht, !tally_app, !tally_one. unfold live. simpl. rewrite Hd.
  pose proof (v_distinct _ _ _ _ Hv) as Hne. rewrite Hd in Hne.
  rewrite (bool_decide_eq_false_2 (la_id (cl_creditAccount r) = la_id a)) by done.
  rewrite (bool_decide_eq_true_2 (la_id a = la_id a)) by done. simpl.
  do 2 f_equal. destruct (truthy (cl_timeoutMs r)) eqn:Hto; simpl; [|lia].
  pose proof (v_timeout _ _ _ _ Hv Hto). destruct (Z.ltb_spec (now w) (now w + default 0 (cl_timeoutMs r))); lia.
Qed.

(** What is deposited is in the balance at once. *)
Lemma deposit_enters r w w' ref a :
  liquidity (accounts w) ref = Some a -> cl_creditAccount r = a -> cl_timeoutMs r = None -> added r w w' ->
  exists b, (getLiquidityAccountBalance ref w).1 = Ret (Some b) /\
    (getLiquidityAccountBalance ref w').1 = Ret (Some (b + cl_amount r)).
Proof.
  intros Ha Hc Hto (Hv & Hacc & Hnow & _ & id & Ht). rewrite !getLiquidityAccountBalance_eq, Hacc, Ha. simpl.
  eexists. split; [done|]. rewrite Hnow, Ht, !tally_app, !tally_one. unfold live. simpl. rewrite Hc, Hto.
  pose proof (v_distinct _ _ _ _ Hv) as Hne. rewrite Hc in Hne.
  rewrite (bool_decide_eq_false_2 (la_id (cl_debitAccount r) = la_id a)) by done.
  rewrite (bool_decide_eq_true_2 (la_id a = la_id a)) by done. simpl. do 2 f_equal. lia.
Qed.
End Ledger.

(** ** Requests *)

Inductive LiquidityRequest :=
| DepositAsset (id assetId : string) (amount : Z)
| DepositPeer (id peerId : string) (amount : Z)
| WithdrawPeer (id peerId : string) (amount timeout : Z)
| WithdrawAsset (id assetId : string) (amount timeout : Z)
| WithdrawWalletAddress (id walletAddressId : string) (timeout : Z)
| WithdrawEvent (eventId : string)
| WithdrawIncomingPayment (paymentId : string) (timeout : Z)
| WithdrawOutgoingPayment (paymentId : string) (timeout : Z).

Section Requests.
Context {E D : Type} `{Uuid}.
Context `{!LiquidityServices (World E) D}.
Context (delay : option Z).
Implicit Types (w : World E) (ctx : Ctx).

#[local] Notation accounting := (createAccountingService delay).

Definition run_request ctx (req : LiquidityRequest) : M (World E) (res GqlError unit) :=
  match req with
  | DepositAsset id assetId amount => depositAssetLiquidity accounting ctx id assetId amount
  | DepositPeer id peerId amount => depositPeerLiquidity ctx id peerId amount
  | WithdrawPeer id peerId amount timeout => createPeerLiquidityWithdrawal accounting ctx id peerId amount timeout
  | WithdrawAsset id assetId amount timeout => createAssetLiquidityWithdrawal accounting ctx id assetId amount timeout
  | WithdrawWalletAddress id walletAddressId timeout =>
      let! r := createWalletAddressWithdrawal accounting ctx id walletAddressId timeout in
      ret (match r with Ok _ => Ok tt | Err e => Err e end)
  | WithdrawEvent eventId => withdrawEventLiquidity accounting ctx eventId
  | WithdrawIncomingPayment paymentId timeout => createIncomingPaymentWithdrawal accounting ctx paymentId timeout
  | WithdrawOutgoingPayment paymentId timeout => createOutgoingPaymentWithdrawal accounting ctx paymentId timeout
  end.

(** What the service of peers does when it is asked to deposit
    ([Peers.depositLiquidityById]). *)
Definition deposit_to_peer (id peerId : string) (amount : Z) (tenantId : option string)
  : M (World E) (option PeerDepositError) :=
  let! peer := lq_peer peerId tenantId in
  match peer with
  | None => ret (Some PeerUnknown)
  | Some peer =>
      let! error := createDeposit accounting
        {| deposit_id := id; deposit_account := peer; deposit_amount := amount |} in
      ret (PeerTransferError <$> error)
  end.

(** Asking the other services leaves the ledger as it is. *)
Class LookupLaws : Prop := {
  asset_kept id t w : kept w (lq_asset id t w).2;
  peer_kept id t w : kept w (lq_peer id t w).2;
  walletAddress_kept id t w : kept w (lq_walletAddress id t w).2;
  incomingPayment_kept id t w : kept w (lq_incomingPayment id t w).2;
  outgoingPayment_kept id t w : kept w (lq_outgoingPayment id t w).2;
  depositPeer_deposits id peerId n t w : lq_depositPeer id peerId n t w = deposit_to_peer id peerId n t w
}.
Context `{!LookupLaws}.

(** A service gave it when it was asked with the tenant of the request, or with none by
    the operator. *)
Definition found {A} (lookup : string -> option string -> M (World E) (option A)) ctx (id : string) (a : A) : Prop :=
  exists x, (lookup id (asking_tenant ctx) x).1 = Ret (Some a).

Definition latest (types : list string) (by_resource : Webhook.WebhookByResourceIdOptions)
    (event : Webhook.WebhookEvent D) : Prop :=
  exists x, Webhook.getLatestWebhookEventByResourceId (Some types) by_resource (lq_events x) = Some event.

(** What a request that succeeds in the ledger [w] asks of it: the account and its balance
    there, the amount and the reference. *)
Definition asks ctx w (req : LiquidityRequest) (account : LiquidityAccount (World E)) (amount : Z) (ref : string) : Prop :=
  let balance := (getLiquidityAccountBalance (account_id account) w).1 in
  match req with
  | DepositAsset id assetId n => found lq_asset ctx assetId account /\ amount = n /\ ref = id
  | DepositPeer id peerId n => found lq_peer ctx peerId account /\ amount = n /\ ref = id
  | WithdrawPeer id peerId n _ => found lq_peer ctx peerId account /\ amount = n /\ ref = id
  | WithdrawAsset id assetId n _ => found lq_asset ctx assetId account /\ amount = n /\ ref = id
  | WithdrawWalletAddress id walletAddressId _ =>
      found lq_walletAddress ctx walletAddressId account /\ balance = Ret (Some amount) /\ ref = id
  | WithdrawEvent eventId => exists x event wd,
      Webhook.getWebhookEvent eventId (asking_tenant ctx) (lq_events x) = Some event /\
      Webhook.withdrawal event = Some wd /\ account_id account = Webhook.accountId wd /\
      amount = Webhook.w_amount wd /\ ref = Webhook.ev_id event
  | WithdrawIncomingPayment paymentId _ => exists view event,
      found lq_incomingPayment ctx paymentId view /\
      latest ["incoming_payment.completed"; "incoming_payment.expired"]%string (Webhook.ByIncomingPayment paymentId) event /\
      account_id account = paymentId /\ amount = in_received view /\ ref = Webhook.ev_id event
  | WithdrawOutgoingPayment paymentId _ => exists view event,
      found lq_outgoingPayment ctx paymentId view /\
      latest ["outgoing_payment.completed"; "outgoing_payment.failed"]%string (Webhook.ByOutgoingPayment paymentId) event /\
      account_id account = paymentId /\ (getLiquidityAccountBalance (out_id view) w).1 = Ret (Some amount) /\
      ref = Webhook.ev_id event
  end.

Definition is_deposit (req : LiquidityRequest) : bool :=
  match req with DepositAsset _ _ _ | DepositPeer _ _ _ => true | _ => false end.

(** One transfer was added, to or from the account. *)
Definition moved w w' (req : LiquidityRequest) (account : LiquidityAccount (World E)) (amount : Z) (ref : string) : Prop :=
  exists r, added r w w' /\ cl_amount r = amount /\ cl_transferRef r = ref /\
    if is_deposit req
    then liquidity (accounts w) (account_id account) = Some (cl_creditAccount r) /\ cl_timeoutMs r = None
    else liquidity (accounts w) (account_id account) = Some (cl_debitAccount r).

(** A deposit to a peer that failed with an error the resolver has no answer for. *)
Definition deposit_not_answered ctx w (req : LiquidityRequest) : Prop :=
  exists id peerId n e, req = DepositPeer id peerId n /\ isLiquidityError e = None /\
    (lq_depositPeer id peerId n (asking_tenant ctx) w).1 = Ret (Some (PeerTransferError e)).

Definition answered_moves ctx req w (o : outcome (res GqlError unit)) w' : Prop :=
  match o with
  | Ret (Ok _) =>
      (exists account amount ref, asks ctx w req account amount ref /\ moved w w' req account amount ref) \/
      (deposit_not_answered ctx w req /\ kept w w')
  | _ => kept w w'
  end.

Lemma lookup_spec {A} (lookup : string -> option string -> M (World E) (option A)) ctx id w :
  (forall i t x, kept x (lookup i t x).2) ->
  wp (lookup id (asking_tenant ctx)) (fun o w' =>
    kept w w' /\ match o with Ret (Some a) => found lookup ctx id a | _ => True end) w.
Proof.
  intros Hk. specialize (Hk id (asking_tenant ctx) w). unfold wp. destruct (lookup _ _ w) as [o w'] eqn:Eo.
  split; [done|]. destruct o as [[a|]|]; [|done..]. exists w. by rewrite Eo.
Qed.

Lemma kept_balance ref w w' : kept w w' ->
  (getLiquidityAccountBalance ref w').1 = (getLiquidityAccountBalance ref w).1.
Proof. intros [Ha Ht Hn]. by rewrite !getLiquidityAccountBalance_eq, Ha, Ht, Hn. Qed.

Lemma kept_added r w w1 w2 : kept w w1 -> added r w1 w2 -> added r w w2.
Proof.
  intros [Ha Ht Hn] (Hv & Ha2 & Hn2 & Hh & id & Ht2). rewrite Ha, Ht, Hn in *. split_and!; eauto.
  intros Hw. apply Hh. unfold Healthy. by rewrite Ha, Ht, Hn.
Qed.

Lemma withdraw_moves req w w1 id account amount timeout :
  is_deposit req = false -> kept w w1 ->
  wp (withdraw accounting id account amount timeout) (fun o w' =>
    match o with Ret None => moved w w' req account amount id | _ => kept w w' end) w1.
Proof.
  intros Hreq Hk. unfold withdraw. simpl. eapply wp_mono; [apply createAccountWithdrawal_adds|].
  intros [[e|]|e] w' Hr; [by etrans| |by etrans]. destruct Hr as (r & (Hl & _ & Ha & Hid & _) & Hadd). simpl in *.
  rewrite (kp_accounts _ _ Hk) in Hl. exists r. rewrite Hreq. by split_and!; [eapply kept_added|..].
Qed.

Lemma deposit_moves req w w1 id account amount :
  is_deposit req = true -> kept w w1 ->
  wp (createDeposit accounting {| deposit_id := id; deposit_account := account; deposit_amount := amount |})
    (fun o w' => match o with Ret None => moved w w' req account amount id | _ => kept w w' end) w1.
Proof.
  intros Hreq Hk. simpl. eapply wp_mono; [apply createAccountDeposit_adds|].
  intros [[e|]|e] w' Hr; [by etrans| |by etrans]. destruct Hr as (r & (Hl & _ & Ha & Hid & Ht) & Hadd). simpl in *.
  rewrite (kp_accounts _ _ Hk) in Hl. exists r. rewrite Hreq. by split_and!; [eapply kept_added|..].
Qed.

(** The deposit to a peer, as its service makes it. *)
Lemma deposit_to_peer_moves ctx id peerId n w :
  wp (lq_depositPeer id peerId n (asking_tenant ctx)) (fun o w' =>
    match o with
    | Ret None => exists account, found lq_peer ctx peerId account /\
        moved w w' (DepositPeer id peerId n) account n id
    | _ => kept w w'
    end) w.
Proof.
  unfold wp at 1. rewrite depositPeer_deposits. change (wp (deposit_to_peer id peerId n (asking_tenant ctx))
    (fun o w' => match o with
      | Ret None => exists account, found lq_peer ctx peerId account /\
          moved w w' (DepositPeer id peerId n) account n id
      | _ => kept w w' end) w).
  unfold deposit_to_peer. apply wp_bind. eapply wp_mono; [apply lookup_spec, peer_kept|].
  intros [[a|]|e] w1 [Hk Hf]; [|by apply wp_ret|done]. apply wp_bind.
  eapply wp_mono; [by apply (deposit_moves (DepositPeer id peerId n) w w1)|].
  intros [[e|]|e] w' Hr; [by apply wp_ret| |done]. apply wp_ret. by exists a.
Qed.

(** A resolver looks something up, answers that there is no such thing, or goes on. *)
Lemma lookup_then {A} (lookup : string -> option string -> M (World E) (option A)) ctx id
    (k : option A -> M (World E) (res GqlError unit)) Q w :
  (forall i t x, kept x (lookup i t x).2) ->
  (forall e w', kept w w' -> Q (Throw e) w') -> (forall w', kept w w' -> wp (k None) Q w') ->
  (forall a w', kept w w' -> found lookup ctx id a -> wp (k (Some a)) Q w') ->
  wp (let! a := lookup id (asking_tenant ctx) in k a) Q w.
Proof.
  intros Hk Ht Hn Hs. apply wp_bind. eapply wp_mono; [by apply lookup_spec|].
  intros [[a|]|e] w' [Hw Hf]; [by apply Hs|by apply Hn|by apply Ht].
Qed.

Lemma balance_then {B} ref Q w (k : option Z -> M (World E) B) :
  (forall b, (getLiquidityAccountBalance ref w).1 = Ret b -> wp (k b) Q w) ->
  wp (let! b := getBalance accounting ref in k b) Q w.
Proof.
  intros Hk. apply wp_bind. simpl. unfold wp at 1. rewrite getLiquidityAccountBalance_eq in Hk |- *. by apply Hk.
Qed.

(** The end of a request: the withdrawal, and the answer made of its result. *)
Lemma withdraw_answers ctx req w w1 id account amount timeout k :
  is_deposit req = false -> kept w w1 ->
  asks ctx w req account amount id ->
  (forall e w', wp (k (Some e)) (fun o w'' => w'' = w' /\ exists g, o = Ret (Err g)) w') ->
  (forall w', wp (k None) (fun o w'' => w'' = w' /\ o = Ret (Ok tt)) w') ->
  wp (let! error := withdraw accounting id account amount timeout in k error) (answered_moves ctx req w) w1.
Proof.
  intros Hreq Hk Hasks He Hn. apply wp_bind. eapply wp_mono; [by apply withdraw_moves|].
  intros [[e|]|e] w' Hr; [| |done].
  - eapply wp_mono; [apply He|]. by intros o w'' [-> [g ->]].
  - eapply wp_mono; [apply Hn|]. intros o w'' [-> ->]. left. by exists account, amount, id.
Qed.

Lemma run_request_spec ctx req w : wp (run_request ctx req) (answered_moves ctx req w) w.
Proof.
  assert (forall e w', wp (answer_transfer (X := World E) (Some e)) (fun o w'' => w'' = w' /\ exists g, o = Ret (Err g)) w') as He.
  { intros. apply wp_ret. eauto. }
  assert (forall w', wp (answer_transfer (X := World E) None) (fun o w'' => w'' = w' /\ o = Ret (Ok tt)) w') as Hn.
  { intros. by apply wp_ret. }
  destruct req as [id aid n|id pid n|id pid n t|id aid n t|id wid t|eid|pid t|pid t]; simpl.
  - unfold depositAssetLiquidity. destruct (n =? 0); [by apply wp_ret|].
    apply lookup_then; [apply asset_kept|done|intros; by apply wp_ret|]. intros a w1 Hk Hf. apply wp_bind.
    eapply wp_mono; [by apply (deposit_moves (DepositAsset id aid n) w w1)|]. intros [[e|]|e] w' Hr; [by apply wp_ret| |done].
    apply wp_ret. left. exists a, n, id. by split.
  - unfold depositPeerLiquidity. destruct (n =? 0); [by apply wp_ret|]. apply wp_bind.
    pose proof (deposit_to_peer_moves ctx id pid n w) as Hpeer. unfold wp at 1. unfold wp at 1 in Hpeer.
    destruct (lq_depositPeer id pid n (asking_tenant ctx) w) as [[[[|e]|]|e] w'] eqn:Ed; simpl in Hpeer |- *;
      [by apply wp_ret| |destruct Hpeer as (a & Hf & Hm); apply wp_ret; left; by exists a, n, id|done].
    destruct (isLiquidityError e) as [le|] eqn:El; apply wp_ret; [done|]. right. split; [|done].
    exists id, pid, n, e. by rewrite Ed.
  - unfold createPeerLiquidityWithdrawal. destruct (n =? 0); [by apply wp_ret|].
    apply lookup_then; [apply peer_kept|done|intros; by apply wp_ret|]. intros a w1 Hk Hf.
    by apply withdraw_answers.
  - unfold createAssetLiquidityWithdrawal. destruct (n =? 0); [by apply wp_ret|].
    apply lookup_then; [apply asset_kept|done|intros; by apply wp_ret|]. intros a w1 Hk Hf.
    by apply withdraw_answers.
  - apply wp_bind. unfold createWalletAddressWithdrawal. apply wp_bind.
    eapply wp_mono; [apply lookup_spec, walletAddress_kept|]. intros [[a|]|e] w1 [Hk Hf]; [|by do 2 apply wp_ret|done].
    apply balance_then. intros [b|] Hb; [|by apply wp_throw_error]. rewrite (kept_balance _ w w1 Hk) in Hb.
    destruct (b =? 0); [by do 2 apply wp_ret|]. apply wp_bind. eapply wp_mono; [by apply (withdraw_moves (WithdrawWalletAddress id wid t) w)|].
    intros [[e|]|e] w' Hr; [by do 2 apply wp_ret| |done]. do 2 apply wp_ret. left. exists a, b, id. by split_and!.
  - unfold withdrawEventLiquidity, getEvent. do 2 wp_step.
    destruct (Webhook.getWebhookEvent (D := D) _ _ _) as [event|] eqn:Hev; [|by apply wp_ret].
    destruct (Webhook.withdrawal event) as [wd|] eqn:Hwd; [|by apply wp_ret]. apply wp_bind.
    pose proof (asset_kept (Webhook.assetId wd) None w) as Hk. unfold wp at 1.
    destruct (lq_asset (Webhook.assetId wd) None w) as [[[a|]|e] w1]; [|by apply wp_throw_error|done].
    apply withdraw_answers; [done..| |done|done]. by exists w, event, wd.
  - unfold createIncomingPaymentWithdrawal. apply lookup_then; [apply incomingPayment_kept|done|..].
    + intros w1 Hk. unfold getLatestByResourceId. do 2 wp_step. by apply wp_ret.
    + intros view w1 Hk Hf. unfold getLatestByResourceId. do 2 wp_step.
      destruct (Webhook.getLatestWebhookEventByResourceId (D := D) _ _ _) as [event|] eqn:Hev; [|by apply wp_ret].
      destruct (negb (truthy (Webhook.ev_id event))); [by apply wp_ret|].
      apply withdraw_answers; [done..| | |]; [|intros; apply wp_ret; eauto|intros; by apply wp_ret].
      exists view, event. split_and!; [done| |done..]. by exists w1.
  - unfold createOutgoingPaymentWithdrawal. apply lookup_then; [apply outgoingPayment_kept|done|..].
    + intros w1 Hk. unfold getLatestByResourceId. do 2 wp_step. by apply wp_ret.
    + intros view w1 Hk Hf. unfold getLatestByResourceId. do 2 wp_step.
      destruct (Webhook.getLatestWebhookEventByResourceId (D := D) _ _ _) as [event|] eqn:Hev; [|by apply wp_ret].
      destruct (negb (truthy (Webhook.ev_id event))); [by apply wp_ret|].
      apply balance_then. intros b Hb. rewrite (kept_balance _ w w1 Hk) in Hb.
      destruct b as [b|]; [|by apply wp_ret]. destruct (b =? 0); [by apply wp_ret|].
      apply withdraw_answers; [done..| |done|done]. exists view, event. split_and!; [done| |done..]. by exists w1.
Qed.

(** What the balance of the account is changed by. *)
Definition balance_change (req : LiquidityRequest) (amount : Z) : Z :=
  if is_deposit req then amount else - amount.

Lemma moved_balance req w w' account amount ref :
  moved w w' req account amount ref ->
  exists b, (getLiquidityAccountBalance (account_id account) w).1 = Ret (Some b) /\
    (getLiquidityAccountBalance (account_id account) w').1 = Ret (Some (b + balance_change req amount)).
Proof.
  intros (r & Hadd & <- & _ & Hreq). unfold balance_change.
  destruct (is_deposit req); [destruct Hreq as [Hl Hto]; by eapply deposit_enters|by eapply withdrawal_leaves].
Qed.

(** C12. Deposits to assets and peers, and withdrawals of every kind, over GraphQL (the
    funding of an outgoing payment is the payment's service's, and posting or voiding a
    withdrawal adds no transfer).  In every ledger that can be reached, whatever the other
    services answer: a request that is answered with success has found what it names by
    asking its service with the tenant of the request, or with none for the operator, and
    has added to the ledger exactly one transfer, of the amount it names - the whole balance,
    or what was received, where it names none - and under its reference or that of its event,
    by which the balance of the account changes at once; but for a deposit to a peer that
    the ledger refused with an error that is no [LiquidityError], which is answered with
    success and has added nothing.  A request that is not answered with success, or throws,
    has added nothing.  And whatever happens to the ledger afterwards, no request moves money
    under that reference again: an event is withdrawn at most once. *)
Theorem liquidity_moved_once ctx req w o w' :
  reachable w -> run_request ctx req w = (o, w') ->
  match o with
  | Ret (Ok _) =>
      (exists account amount ref row b,
        asks ctx w req account amount ref /\ 0 < amount /\
        transfers w' = transfers w ++ [row] /\ lt_amount row = amount /\ lt_transferRef row = ref /\
        (getLiquidityAccountBalance (account_id account) w).1 = Ret (Some b) /\
        (getLiquidityAccountBalance (account_id account) w').1 = Ret (Some (b + balance_change req amount)) /\
        forall req' account' amount' ref' w2 w3,
          rtc step w' w2 -> moved w2 w3 req' account' amount' ref' -> ref' <> ref) \/
      (deposit_not_answered ctx w req /\ transfers w' = transfers w /\ accounts w' = accounts w)
  | _ => transfers w' = transfers w /\ accounts w' = accounts w
  end.
Proof.
  intros Hw Erun. pose proof (run_request_spec ctx req w) as Hrun. unfold wp in Hrun. rewrite Erun in Hrun. simpl in Hrun.
  destruct o as [[[]|e]|e]; [|by destruct Hrun..].
  destruct Hrun as [(account & amount & ref & Hasks & Hmoved)|[Hno []]]; [left|by right].
  destruct (moved_balance _ _ _ _ _ _ Hmoved) as (b & Hb & Hb').
  destruct Hmoved as (r & Hadd & Ham & Hid & _). pose proof Hadd as (Hv & Hacc & Hnow & _ & id & Ht).
  exists account, amount, ref, (prepareTransfer (now w) id r), b.
  split_and!; [done|rewrite <- Ham; apply Hv|done..|].
  intros req' account' amount' ref' w2 w3 Hs (r' & Hadd' & _ & Hid' & _) ->.
  apply (reference_stays r r' w w' w2 w3); [by apply reachable_Healthy|done..|congruence|done].
Qed.
End Requests.
