(* ===== verification/LiquidityExamples.v ===== *)
(** * LiquidityExamples: requests of tenants over one ledger

    The ledger of [PsqlAccounting.Example], with a peer of one tenant.  The theorem of
    [LiquiditySpecs] is applied to a withdrawal from it.  Four requests show where the
    resolvers do not do what they mean to. *)

From S2P Require Import Prelude Text Shared Accounting PsqlLedger PsqlAccounting.
From S2P Require Webhook.
From S2P Require Import OutgoingPayment Liquidity LiquiditySpecs.

Local Open Scope Z_scope.
Local Open Scope ts_scope.
Local Open Scope string_scope.

#[local] Existing Instance ConcreteUuid.uuid.

Module LiquidityExample.
Import PsqlAccounting.Example.

Definition for_tenant {A} (owner : string) (t : option string) (a : A) : option A :=
  if bool_decide (t = None \/ t = Some owner) then Some a else None.

(** What the operator or tenant [a] is shown: the asset, the peer and an event of a payment. *)
Definition event : Webhook.WebhookEvent unit :=
  {| Webhook.ev_id := "id-e"; Webhook.ev_type := "outgoing_payment.created"; Webhook.ev_data := tt;
     Webhook.ev_tenantId := "a"; Webhook.outgoingPaymentId := Some "payment"; Webhook.incomingPaymentId := None;
     Webhook.walletAddressId := None; Webhook.ev_assetId := None; Webhook.peerId := None;
     Webhook.withdrawal := None; Webhook.ev_createdAt := 0 |}.

(** Deposits to peers are made as the service of peers makes them, and the payment is of the
    tenant [a]. *)
#[export] Instance services : LiquidityServices (World unit) unit := {
  lq_asset id t := ret (if bool_decide (id = "usd") then for_tenant "a" t (account "usd" usd) else None);
  lq_peer id t := ret (if bool_decide (id = "peer") then for_tenant "a" t (account "peer" usd) else None);
  lq_walletAddress _ _ := ret None; lq_incomingPayment _ _ := ret None; lq_outgoingPayment _ _ := ret None;
  lq_payment _ _ := ret false;
  lq_depositPeer id peerId n t :=
    match (if bool_decide (peerId = "peer") then for_tenant "a" t (account "peer" usd) else None) with
    | None => ret (Some PeerUnknown)
    | Some a =>
        let! error := createAccountDeposit {| deposit_id := id; deposit_account := a; deposit_amount := n |} in
        ret (PeerTransferError <$> error)
    end;
  lq_fund options := ret (if bool_decide (f_id options = "payment" /\ f_tenantId options = "a") then None
                          else Some (PaymentFundingError OutgoingPaymentError.UnknownPayment));
  lq_events _ := {| Webhook.events := [event]; Webhook.webhooks := [] |};
  data_id _ := "payment";
  data_debitAmount _ := Some {| json_value := "100"; json_assetCode := "USD"; json_assetScale := 2 |}
}.

#[export] Instance lookups : LookupLaws (E := unit) (D := unit) None.
Proof.
  constructor; [by intros; split..|]. intros id peerId n t w. unfold deposit_to_peer, lq_depositPeer, lq_peer.
  simpl. unfold bind at 1, ret at 1. destruct (bool_decide (peerId = "peer")); [|done].
  by destruct (for_tenant "a" t (account "peer" usd)).
Qed.

Definition tenant_a : Ctx := {| ctx_tenant := "a"; isOperator := false |}.
Definition tenant_b : Ctx := {| ctx_tenant := "b"; isOperator := false |}.
Definition operator : Ctx := {| ctx_tenant := "operator"; isOperator := true |}.

Definition withdrawal : LiquidityRequest := WithdrawPeer "id-w" "peer" 30 60.
Definition withdrawn : World unit := (run_request None tenant_a withdrawal funded).2.

(** The peer is not one of the other tenant. *)
Lemma peer_of_another_tenant :
  run_request None tenant_b withdrawal funded = (Ret (Err (liquidity_error LiquidityError.UnknownPeer)), funded).
Proof. by vm_compute. Qed.

(** Posting and voiding do not look at who asks: the withdrawal of one tenant is settled by
    whoever names it. *)
Lemma withdrawal_settled_by_anyone :
  (run_request None tenant_a withdrawal funded).1 = Ret (Ok tt) /\
  (voidLiquidityWithdrawal (createAccountingService None) "id-w" withdrawn).1 = Ret (Ok tt) /\
  (postLiquidityWithdrawal (createAccountingService None) "id-w" withdrawn).1 = Ret (Ok tt).
Proof. by vm_compute. Qed.

(** An amount the column does not hold is within the scalar of the schema: nothing is
    deposited, and the answer is success. *)
Lemma deposit_not_made :
  let r := depositPeerLiquidity tenant_a "id-d" "peer" (2 ^ 63) funded in
  r.1 = Ret (Ok tt) /\ transfers r.2 = transfers funded /\
  (run_request None tenant_a (DepositAsset "id-d" "usd" (2 ^ 63)) funded).1
  = Ret (Err (transfer_error UnknownError)).
Proof. by vm_compute. Qed.

(** The operator deposits for the payment of a tenant by its event, and not by the payment. *)
Lemma operator_deposits_by_event_only :
  (depositEventLiquidity operator "id-e" funded).1 = Ret (Ok tt) /\
  (depositOutgoingPaymentLiquidity operator "payment" None funded).1
  = Ret (Err (funding_error (PaymentFundingError OutgoingPaymentError.UnknownPayment))).
Proof. by vm_compute. Qed.
End LiquidityExample.

Import LiquidityExample.

Lemma liquidity_moved_once_witness :
  exists account amount ref row b,
    asks tenant_a Example.funded withdrawal account amount ref /\ 0 < amount /\
    transfers withdrawn = (transfers Example.funded ++ [row])%list /\ lt_amount row = amount /\ lt_transferRef row = ref /\
    (getLiquidityAccountBalance (account_id account) Example.funded).1 = Ret (Some b) /\
    (getLiquidityAccountBalance (account_id account) withdrawn).1 = Ret (Some (b + balance_change withdrawal amount)).
Proof.
  assert (run_request None tenant_a withdrawal Example.funded = (Ret (Ok tt), withdrawn)) as Hrun
    by (vm_compute; reflexivity).
  pose proof (liquidity_moved_once None tenant_a withdrawal Example.funded (Ret (Ok tt)) withdrawn
    Example.funded_reachable Hrun) as [(account & amount & ref & row & b & H)|[Hno _]];
    [|by destruct Hno as (? & ? & ? & ? & [=] & _)].
  exists account, amount, ref, row, b. tauto.
Defined.
