(* ===== verification/CardService.v ===== *)
(** * CardService: card payments that wait for an event

    Models [card-service/src/payment/{service,routes,types,errors,wait-map}.ts] and
    [utils/deferred.ts].  A request asks the backend for an outgoing payment and waits for the
    webhook of it; a map from the identifiers of requests finds the promise it waits on.  A
    request is where its next [await] is, and a promise is part of the request that made it;
    what the backend answers and when, events and timers are steps in any order. *)

From Stdlib Require Import Ascii.
From S2P Require Import Prelude.

Local Open Scope Z_scope.
Local Open Scope ts_scope.

(** ** [types.ts], [errors.ts] *)

Record PaymentBody := {
  pb_requestId : string;
  pb_signature : string;
  pb_payload : string;
  pb_senderWalletAddress : string;
  pb_incomingPaymentUrl : string;
  pb_timestamp : Z
}.

Inductive PaymentResultCode := Approved | InvalidSignature.

(** The code of an error is [invalid_request]. *)
Inductive PaymentResult :=
| SuccessResult (requestId : string) (code : PaymentResultCode) (description : option string)
| ErrorResult (description : string).

(** What is read of the body of an event. *)
Record PaymentEventBody := {
  pe_type : string;
  pe_paymentId : option string;
  pe_requestId : option string;
  pe_cardPaymentFailureReason : option string
}.

Definition Funded_type : string := "outgoing_payment.funded".
Definition Cancelled_type : string := "outgoing_payment.cancelled".

(** [PaymentRouteError], or another error with its message. *)
Inductive CardError := RouteError (status : Z) (message : string) | PlainError (message : string).

Definition PaymentTimeoutError : CardError := RouteError 504 "Timeout waiting for payment-event".
Definition UnknownWalletAddressError : CardError := RouteError 404 "Unknown wallet address".
Definition PaymentCreationFailedError : CardError := RouteError 500 "Failed to create outgoing payment".

(** ** Requests *)

Inductive Phase :=
| FindingWalletAddress
| CreatingPayment (walletAddressId : string)
| WaitingForEvent (since : Z)
| Answered (result : PaymentResult)
| FailedWith (err : CardError).

Record CardRequest := {
  cr_body : PaymentBody;
  cr_phase : Phase;
  cr_promise : option PaymentResult
}.

(** [handled] are the events that came in; nothing reads it. *)
Record CardState := {
  paymentWaitMap : gmap string nat;
  requests : list CardRequest;
  handled : list PaymentEventBody;
  clock : Z
}.

Definition cr_requestId (r : CardRequest) : string := pb_requestId (cr_body r).

Definition set_phase (p : Phase) (r : CardRequest) : CardRequest :=
  {| cr_body := cr_body r; cr_phase := p; cr_promise := cr_promise r |}.

(** [resolve]: the first value is kept. *)
Definition resolve_promise (x : PaymentResult) (r : CardRequest) : CardRequest :=
  {| cr_body := cr_body r; cr_phase := cr_phase r;
     cr_promise := match cr_promise r with Some y => Some y | None => Some x end |}.

Definition with_requests (f : list CardRequest -> list CardRequest) (s : CardState) : CardState :=
  {| paymentWaitMap := paymentWaitMap s; requests := f (requests s); handled := handled s; clock := clock s |}.
Definition with_map (f : gmap string nat -> gmap string nat) (s : CardState) : CardState :=
  {| paymentWaitMap := f (paymentWaitMap s); requests := requests s; handled := handled s; clock := clock s |}.

(** What the GraphQL client answers; [None] where it throws what is not an [Error]. *)
Inductive ClientAnswer (A : Type) := Data (a : A) | Threw (message : option string).
Arguments Data {A}. Arguments Threw {A}.

Section Service.
Context (cardPaymentTimeoutMS : Z).

(** *** [handleCreatePayment] *)

(** The request is entered under its identifier, whatever is there. *)
Definition receive (body : PaymentBody) (s : CardState) : CardState :=
  with_requests (fun l => l ++ [{| cr_body := body; cr_phase := FindingWalletAddress; cr_promise := None |}])
    (with_map <[pb_requestId body := length (requests s)]> s).

(** Leaving the [try], with the identifier deleted from the map. *)
Definition leave (i : nat) (r : CardRequest) (p : Phase) (s : CardState) : CardState :=
  with_requests (alter (set_phase p) i) (with_map (delete (cr_requestId r)) s).

Definition client_error (message : option string) : CardError :=
  PlainError (default "Internal server error"%string message).

(** [new Date(timestamp).toISOString()] throws outside of the range of dates. *)
Definition valid_date (t : Z) : bool := Z.abs t <=? 8640000000000000.

Definition walletAddressAnswered (i : nat) (a : ClientAnswer (option string)) (s : CardState) : CardState :=
  match requests s !! i with
  | Some r =>
      match cr_phase r with
      | FindingWalletAddress =>
          match a with
          | Data (Some w) =>
              if valid_date (pb_timestamp (cr_body r)) then with_requests (alter (set_phase (CreatingPayment w)) i) s
              else leave i r (FailedWith (PlainError "Invalid time value")) s
          | Data None => leave i r (FailedWith UnknownWalletAddressError) s
          | Threw m => leave i r (FailedWith (client_error m)) s
          end
      | _ => s
      end
  | None => s
  end.

(** Whether the answer has a payment. *)
Definition paymentAnswered (i : nat) (a : ClientAnswer bool) (s : CardState) : CardState :=
  match requests s !! i with
  | Some r =>
      match cr_phase r with
      | CreatingPayment _ =>
          match a with
          | Data true => with_requests (alter (set_phase (WaitingForEvent (clock s))) i) s
          | Data false => leave i r (FailedWith PaymentCreationFailedError) s
          | Threw m => leave i r (FailedWith (client_error m)) s
          end
      | _ => s
      end
  | None => s
  end.

(** The race of [waitForPaymentEvent] is won by the promise. *)
Definition promiseSettled (i : nat) (s : CardState) : CardState :=
  match requests s !! i with
  | Some r =>
      match cr_phase r, cr_promise r with
      | WaitingForEvent _, Some x => leave i r (Answered x) s
      | _, _ => s
      end
  | None => s
  end.

(** The race is won by the timer: a promise that is settled would have won it. *)
Definition timerFired (i : nat) (s : CardState) : CardState :=
  match requests s !! i with
  | Some r =>
      match cr_phase r, cr_promise r with
      | WaitingForEvent since, None =>
          if since + cardPaymentTimeoutMS <=? clock s then leave i r (FailedWith PaymentTimeoutError) s else s
      | _, _ => s
      end
  | None => s
  end.

(** *** [routes.ts] *)

Definition quoted (s : string) : string := String "034"%char (s +:+ String "034"%char EmptyString).

Definition toPaymentResolution (body : PaymentEventBody) (requestId : string) : PaymentResult :=
  let shown := quoted (default "unknown"%string (pe_paymentId body)) in
  if bool_decide (pe_type body = Funded_type) then SuccessResult requestId Approved None
  else if bool_decide (pe_type body = Cancelled_type) then
    if bool_decide (pe_cardPaymentFailureReason body = Some "invalid_signature"%string)
    then SuccessResult requestId InvalidSignature (Some "Invalid card signature"%string)
    else ErrorResult ("Card payment failure reason " +:+ quoted (default "unknown" (pe_cardPaymentFailureReason body))
                      +:+ " for cancelled payment request " +:+ quoted requestId
                      +:+ " and outgoing payment " +:+ shown)%string
  else ErrorResult ("Payment event type " +:+ quoted (pe_type body) +:+ " is not supported for request "
                    +:+ quoted requestId +:+ " and outgoing payment " +:+ shown)%string.

Definition handlePaymentEvent (body : PaymentEventBody) (s : CardState) : CardState :=
  let s := {| paymentWaitMap := paymentWaitMap s; requests := requests s; handled := handled s ++ [body];
              clock := clock s |} in
  match pe_requestId body with
  | Some requestId =>
      if negb (truthy requestId) then s
      else
      match paymentWaitMap s !! requestId with
      | None => s
      | Some i => with_requests (alter (resolve_promise (toPaymentResolution body requestId)) i) s
      end
  | None => s
  end.

(** [create]: the status of the response, and the result in its body. *)
Definition create_response (p : Phase) : option (Z * option PaymentResult) :=
  match p with
  | Answered (ErrorResult d) => Some (400, Some (ErrorResult d))
  | Answered x => Some (201, Some x)
  | FailedWith (RouteError status _) => Some (status, None)
  | FailedWith (PlainError _) => Some (500, None)
  | _ => None
  end.

Inductive card_step : CardState -> CardState -> Prop :=
| card_receive body s : card_step s (receive body s)
| card_wallet i a s : card_step s (walletAddressAnswered i a s)
| card_created i a s : card_step s (paymentAnswered i a s)
| card_settled i s : card_step s (promiseSettled i s)
| card_timer i s : card_step s (timerFired i s)
| card_event body s : card_step s (handlePaymentEvent body s)
| card_elapse t s :
    clock s <= t ->
    card_step s {| paymentWaitMap := paymentWaitMap s; requests := requests s; handled := handled s; clock := t |}.
End Service.

Definition card_started (t : Z) : CardState :=
  {| paymentWaitMap := ∅; requests := []; handled := []; clock := t |}.
