(* ===== verification/CardSpecs.v ===== *)
(** * CardSpecs: a card payment is answered by an event for it

    Over all histories of [CardService]: what a request is answered with was made of an event
    with its identifier, the map of waiting requests holds nothing that does not wait, and as
    long as identifiers are not used twice an event reaches its request. *)

From S2P Require Import Prelude.
From S2P Require Import CardService.

Local Open Scope Z_scope.
Local Open Scope ts_scope.

Definition active (p : Phase) : Prop :=
  match p with Answered _ | FailedWith _ => False | _ => True end.

(** The event is for the request, and [x] is what it resolves its promise with. *)
Definition event_resolves (e : PaymentEventBody) (r : CardRequest) (x : PaymentResult) : Prop :=
  pe_requestId e = Some (cr_requestId r) /\ x = toPaymentResolution e (cr_requestId r).

Record card_inv (s : CardState) : Prop := {
  ci_map k i : paymentWaitMap s !! k = Some i ->
    exists r, requests s !! i = Some r /\ cr_requestId r = k /\ active (cr_phase r);
  ci_promise i r x : requests s !! i = Some r -> cr_promise r = Some x ->
    exists e, e ∈ handled s /\ event_resolves e r x;
  ci_answered i r x : requests s !! i = Some r -> cr_phase r = Answered x -> cr_promise r = Some x;
  ci_own i r : NoDup (cr_requestId <$> requests s) -> requests s !! i = Some r -> active (cr_phase r) ->
    paymentWaitMap s !! cr_requestId r = Some i
}.

Section Specs.
Context (cardPaymentTimeoutMS : Z).
#[local] Notation step := (card_step cardPaymentTimeoutMS).
Implicit Types (s : CardState) (r : CardRequest).

Lemma ids_alter f i (l : list CardRequest) :
  (forall r, cr_requestId (f r) = cr_requestId r) -> cr_requestId <$> alter f i l = cr_requestId <$> l.
Proof.
  intros Hf. apply list_eq. intros j. rewrite !list_lookup_fmap. destruct (decide (i = j)) as [->|Hne].
  - rewrite list_lookup_alter_eq. destruct (l !! j); simpl; [by rewrite Hf|done].
  - by rewrite list_lookup_alter_ne by done.
Qed.

Lemma ids_distinct s i j r r' :
  NoDup (cr_requestId <$> requests s) -> requests s !! i = Some r -> requests s !! j = Some r' ->
  cr_requestId r = cr_requestId r' -> i = j.
Proof.
  intros Hnd Hi Hj Heq. eapply (NoDup_lookup _ i j (cr_requestId r) Hnd); rewrite list_lookup_fmap; [by rewrite Hi|].
  by rewrite Hj; simpl; rewrite Heq.
Qed.

(** A change of one request that keeps its body, and of the phase and the promise only so that
    the invariant holds of it. *)
Lemma alter_inv s i f :
  card_inv s -> (forall r, cr_requestId (f r) = cr_requestId r) ->
  (forall r, requests s !! i = Some r ->
     (active (cr_phase (f r)) <-> active (cr_phase r)) /\
     (forall x, cr_phase (f r) = Answered x -> cr_promise (f r) = Some x) /\
     (forall x, cr_promise (f r) = Some x -> exists e, e ∈ handled s /\ event_resolves e r x)) ->
  card_inv (with_requests (alter f i) s).
Proof.
  intros [Hmap Hprom Hans Hown] Hid Hf. split; simpl.
  - intros k j Hk. destruct (Hmap k j Hk) as (r & Hr & <- & Ha). destruct (decide (i = j)) as [->|Hne].
    + exists (f r). rewrite list_lookup_alter_eq, Hr. split_and!; [done|apply Hid|by apply Hf].
    + exists r. by rewrite list_lookup_alter_ne by done.
  - intros j r' x Hj Hx. apply alter_lookup_inv in Hj as (r & Hr & ->). destruct (decide (i = j)) as [->|_]; [|eauto].
    destruct (Hf r Hr) as (_ & _ & Hp). destruct (Hp x Hx) as (e & He & Hre). exists e.
    split; [done|]. unfold event_resolves in *. by rewrite Hid.
  - intros j r' x Hj Hx. apply alter_lookup_inv in Hj as (r & Hr & ->). destruct (decide (i = j)) as [->|_]; [|eauto].
    by apply Hf.
  - intros j r' Hnd Hj Ha. rewrite ids_alter in Hnd by done. apply alter_lookup_inv in Hj as (r & Hr & ->).
    destruct (decide (i = j)) as [->|_]; [|by apply Hown]. rewrite Hid. apply Hown; [done..|]. by apply Hf.
Qed.

(** A request that leaves, with its identifier. *)
Lemma leave_inv s i r p :
  card_inv s -> requests s !! i = Some r -> ~ active p ->
  (forall x, p = Answered x -> cr_promise r = Some x) -> card_inv (leave i r p s).
Proof.
  intros [Hmap Hprom Hans Hown] Hr Hp Hx. unfold leave. split; simpl.
  - intros k j Hk. rewrite lookup_delete_Some in Hk. destruct Hk as [Hne Hk].
    destruct (Hmap k j Hk) as (r' & Hr' & <- & Ha). assert (i <> j) by (intros ->; congruence).
    exists r'. by rewrite list_lookup_alter_ne by done.
  - intros j r' x Hj Hpr. apply alter_lookup_inv in Hj as (r0 & Hr0 & ->). destruct (decide (i = j)); exact (Hprom j r0 x Hr0 Hpr).
  - intros j r' x Hj Hph. apply alter_lookup_inv in Hj as (r0 & Hr0 & ->).
    destruct (decide (i = j)) as [->|_]; [|eauto]. simpl in *. assert (r0 = r) as -> by congruence. by apply Hx.
  - intros j r' Hnd Hj Ha. rewrite ids_alter in Hnd by done. apply alter_lookup_inv in Hj as (r0 & Hr0 & ->).
    destruct (decide (i = j)) as [->|Hne]; [done|]. rewrite lookup_delete_ne; [by apply Hown|].
    intros Heq. apply Hne. by eapply (ids_distinct s i j r r0).
Qed.

Lemma leave_failed s i r e : card_inv s -> requests s !! i = Some r -> card_inv (leave i r (FailedWith e) s).
Proof. intros. by apply leave_inv; [| |intros []|]. Qed.

Lemma receive_inv s body : card_inv s -> card_inv (receive body s).
Proof.
  intros [Hmap Hprom Hans Hown]. unfold receive. split; simpl.
  - intros k i Hk. destruct (decide (pb_requestId body = k)) as [<-|Hne].
    + rewrite lookup_insert_eq in Hk. injection Hk as <-. eexists. by rewrite list_lookup_middle.
    + rewrite lookup_insert_ne in Hk by done. destruct (Hmap k i Hk) as (r & Hr & <- & Ha).
      exists r. split; [|done]. by apply lookup_app_l_Some.
  - intros i r x Hi Hx. apply lookup_snoc_Some in Hi as [[_ Hi]|[_ <-]]; [eauto|done].
  - intros i r x Hi Hx. apply lookup_snoc_Some in Hi as [[_ Hi]|[_ <-]]; [eauto|done].
  - intros i r Hnd Hi Ha. rewrite fmap_app in Hnd. apply NoDup_app in Hnd as (Hnd & Hnew & _).
    apply lookup_snoc_Some in Hi as [[_ Hi]|[-> <-]]; [|apply lookup_insert_eq].
    rewrite lookup_insert_ne; [by apply Hown|]. intros Heq. apply (Hnew (cr_requestId r)).
    + apply list_elem_of_fmap_2. by eapply list_elem_of_lookup_2.
    + rewrite <- Heq. apply list_elem_of_singleton. done.
Qed.

Lemma event_inv s body : card_inv s -> card_inv (handlePaymentEvent body s).
Proof.
  intros Hinv. unfold handlePaymentEvent.
  match goal with |- context [match pe_requestId body with Some _ => _ | None => ?s' end] => set (s1 := s') end.
  assert (card_inv s1) as H1.
  { destruct Hinv as [Hmap Hprom Hans Hown]. split; simpl; [done| |done..].
    intros i r x Hr Hx. destruct (Hprom i r x Hr Hx) as (e & He & Hre). exists e. set_solver. }
  destruct (pe_requestId body) as [k|] eqn:Hk; [|exact H1]. destruct (negb (truthy k)); [exact H1|].
  change (paymentWaitMap s1) with (paymentWaitMap s). destruct (paymentWaitMap s !! k) as [i|] eqn:Hi; [|exact H1].
  apply alter_inv; [exact H1|done|].
  intros r Hr. destruct (ci_map _ H1 k i Hi) as (r' & Hr' & Hkey & Ha). assert (r' = r) as -> by congruence.
  split_and!; [done| |].
  - simpl. intros x Hx. by rewrite Hx in Ha.
  - simpl. intros x Hx. destruct (cr_promise r) as [y|] eqn:Hy.
    + injection Hx as <-. by apply (ci_promise _ H1 i).
    + injection Hx as <-. exists body. split; [set_solver|]. unfold event_resolves. by rewrite Hkey.
Qed.

Lemma card_step_inv s s' : card_inv s -> step s s' -> card_inv s'.
Proof.
  intros Hinv Hstep.
  destruct Hstep as [body s|i a s|i a s|i s|i s|body s|t s Ht];
    [by apply receive_inv| | | | |by apply event_inv|by destruct Hinv].
  - unfold walletAddressAnswered. destruct (requests s !! i) as [r|] eqn:Hr; [|done].
    destruct (cr_phase r) eqn:Hp; try done. destruct a as [[w|]|m]; [|by apply leave_failed..].
    destruct (valid_date _); [|by apply leave_failed]. apply alter_inv; [done..|].
    intros r0 Hr0. assert (r0 = r) as -> by congruence. simpl. rewrite Hp. split_and!; [done..|].
    intros x. by apply (ci_promise _ Hinv i).
  - unfold paymentAnswered. destruct (requests s !! i) as [r|] eqn:Hr; [|done].
    destruct (cr_phase r) eqn:Hp; try done. destruct a as [[|]|m]; [|by apply leave_failed..]. apply alter_inv; [done..|].
    intros r0 Hr0. assert (r0 = r) as -> by congruence. simpl. rewrite Hp. split_and!; [done..|].
    intros x. by apply (ci_promise _ Hinv i).
  - unfold promiseSettled. destruct (requests s !! i) as [r|] eqn:Hr; [|done].
    destruct (cr_phase r); try done. destruct (cr_promise r) as [x|] eqn:Hx; [|done].
    apply leave_inv; [done..|intros []|]. by intros ? [= <-].
  - unfold timerFired. destruct (requests s !! i) as [r|] eqn:Hr; [|done].
    destruct (cr_phase r); try done. destruct (cr_promise r) as [x|] eqn:Hx; [done|].
    destruct (_ <=? _); [|done]. by apply leave_failed.
Qed.

Lemma card_reachable t s : rtc step (card_started t) s -> card_inv s.
Proof.
  intros Hs. assert (card_inv (card_started t)) as H0 by (by split).
  induction Hs as [|s1 s2 s3 H12 _ IH]; [done|]. by apply IH, (card_step_inv s1).
Qed.

Lemma approved_funded e k q d :
  toPaymentResolution e k = SuccessResult q Approved d -> q = k /\ pe_type e = Funded_type.
Proof. unfold toPaymentResolution. intros Hx. repeat case_bool_decide; by simplify_eq. Qed.

(** C16. A card payment is answered by an event for it.  In every history of requests, answers of
    the backend, webhooks and timers: what a request is answered with was made of a webhook with
    its identifier, so that only a funded payment is approved; the map of waiting requests holds
    only requests that wait; and when no two requests have one identifier, a webhook reaches its
    request wherever it is - before the request waits or while it does - and a request that
    waits is answered with it. *)
Theorem card_answers_events t s :
  rtc step (card_started t) s ->
  (forall i r x, requests s !! i = Some r -> cr_phase r = Answered x ->
     exists e, e ∈ handled s /\ pe_requestId e = Some (cr_requestId r) /\
       x = toPaymentResolution e (cr_requestId r) /\
       forall q d, x = SuccessResult q Approved d -> q = cr_requestId r /\ pe_type e = Funded_type) /\
  (forall k i, paymentWaitMap s !! k = Some i ->
     exists r, requests s !! i = Some r /\ cr_requestId r = k /\ active (cr_phase r)) /\
  (NoDup (cr_requestId <$> requests s) -> forall i r e,
     requests s !! i = Some r -> active (cr_phase r) -> cr_promise r = None ->
     pe_requestId e = Some (cr_requestId r) -> cr_requestId r <> ""%string ->
     let x := toPaymentResolution e (cr_requestId r) in
     cr_promise <$> requests (handlePaymentEvent e s) !! i = Some (Some x) /\
     forall since, cr_phase r = WaitingForEvent since ->
       cr_phase <$> requests (promiseSettled i (handlePaymentEvent e s)) !! i = Some (Answered x)).
Proof.
  intros Hs. pose proof (card_reachable t s Hs) as Hinv. split_and!.
  - intros i r x Hr Hx. pose proof (ci_answered _ Hinv i r x Hr Hx) as Hp.
    destruct (ci_promise _ Hinv i r x Hr Hp) as (e & He & Hid & ->). exists e. split_and!; [done..|].
    intros q d Hq. by eapply approved_funded.
  - apply Hinv.
  - intros Hnd i r e Hr Ha Hp Hid Hne x. pose proof (ci_own _ Hinv i r Hnd Hr Ha) as Hmap.
    assert (requests (handlePaymentEvent e s) !! i = Some (resolve_promise x r)) as Hr'.
    { unfold handlePaymentEvent. rewrite Hid. unfold truthy, truthy_string. rewrite bool_decide_eq_false_2 by done.
      simpl. rewrite Hmap. simpl. by rewrite list_lookup_alter_eq, Hr. }
    rewrite Hr'. simpl. rewrite Hp. split; [done|]. intros since Hw.
    unfold promiseSettled. rewrite Hr'. simpl. rewrite Hw, Hp. unfold leave. simpl.
    by rewrite list_lookup_alter_eq, Hr'.
Qed.
End Specs.

(** ** A history *)

Module CardExample.

Definition body (requestId : string) : PaymentBody :=
  {| pb_requestId := requestId; pb_signature := ""; pb_payload := ""; pb_senderWalletAddress := "https://host/alice";
     pb_incomingPaymentUrl := "https://host/incoming-payments/p"; pb_timestamp := 1700000000000 |}.

Definition funded (requestId : string) : PaymentEventBody :=
  {| pe_type := Funded_type; pe_paymentId := Some "o"%string; pe_requestId := Some requestId;
     pe_cardPaymentFailureReason := None |}.

Definition at_time (t : Z) (s : CardState) : CardState :=
  {| paymentWaitMap := paymentWaitMap s; requests := requests s; handled := handled s; clock := t |}.

(** Two requests; the first one waits, the second one is still looking for its wallet address. *)
Definition two (k k' : string) : CardState :=
  receive (body k') (paymentAnswered 0 (Data true) (walletAddressAnswered 0 (Data (Some "w"%string)) (receive (body k) (card_started 0)))).

Lemma two_reachable k k' : rtc (card_step 30000) (card_started 0) (two k k').
Proof.
  eapply rtc_l; [apply (card_receive _ (body k))|]. eapply rtc_l; [apply (card_wallet _ 0 (Data (Some "w"%string)))|].
  eapply rtc_l; [apply (card_created _ 0 (Data true))|]. apply rtc_once, card_receive.
Qed.

(** With one identifier for both, the first request gives up and takes the entry of the second
    with it: the second is not told that its payment was funded, and gives up, too. *)
Definition first_gave_up : CardState := timerFired 30000 0 (at_time 30000 (two "k" "k")).
Definition second_waits : CardState :=
  paymentAnswered 1 (Data true) (walletAddressAnswered 1 (Data (Some "w"%string)) first_gave_up).

Lemma same_identifier :
  let s := promiseSettled 1 (handlePaymentEvent (funded "k") second_waits) in
  cr_phase <$> requests s = [FailedWith PaymentTimeoutError; WaitingForEvent 30000] /\
  create_response <$> (cr_phase <$> requests (timerFired 30000 1 (at_time 60000 s)))
  = [Some (504, None); Some (504, None)].
Proof. by vm_compute. Qed.
End CardExample.

Import CardExample.

Lemma card_answers_events_witness :
  let s := two "k" "l" in
  let x := toPaymentResolution (funded "k") "k" in
  cr_promise <$> requests (handlePaymentEvent (funded "k") s) !! 0%nat = Some (Some x) /\
  cr_phase <$> requests (promiseSettled 0 (handlePaymentEvent (funded "k") s)) !! 0%nat = Some (Answered x).
Proof.
  intros s x. destruct (card_answers_events 30000 0 s (two_reachable "k" "l")) as (_ & _ & H).
  assert (NoDup (cr_requestId <$> requests s)) as Hnd by (apply (bool_decide_unpack _); vm_compute; exact I).
  specialize (H Hnd 0%nat _ (funded "k") eq_refl I eq_refl eq_refl ltac:(discriminate)) as [H1 H2].
  split; [exact H1|]. exact (H2 0 eq_refl).
Defined.
