(* ===== verification/PointOfSale.v ===== *)
(** * PointOfSale: a payment at a terminal

    Models [point-of-sale/src/payments/{routes,service,errors}.ts],
    [webhook-handlers/{routes,request-map}.ts] and [card-service-client/client.ts].  A request
    finds the wallet addresses of the card and of the shop, has the backend create an incoming
    payment, asks the card service to pay it, and waits for the webhook of its completion; a map
    from incoming payments finds the promise it waits on, and an entry expires.  A request is
    where its next [await] is, with the variables of the handler it has set; what others answer,
    webhooks and timers are steps in any order.  The listing of payments is left out. *)

From S2P Require Import Prelude Text.

Local Open Scope Z_scope.
Local Open Scope ts_scope.

(** ** Data *)

Record PaymentRequestBody := {
  pr_signature : string;
  pr_payload : string;
  pr_amountValue : string;
  pr_assetCode : string;
  pr_assetScale : Z;
  pr_senderWalletAddress : string;
  pr_receiverWalletAddress : string;
  pr_timestamp : Z
}.

Record WebhookBody := { wb_type : string; wb_id : string; wb_completed : bool }.

(** The bodies of the response: a result code with status 200, an error with status 400. *)
Inductive PosResponse := PosApproved | PosInvalidSignature | PosInvalidRequest.

Definition APPROVED : string := "approved".
Definition INVALID_SIGNATURE : string := "invalid_signature".

(** ** [card-service-client/client.ts] *)

(** The field [result] of what an error of the card service carries. *)
Inductive ResultField := ResultText (s : string) | ResultObject (code : option string) | NoResult.

Record ErrorData := { ed_requestId : option string; ed_result : ResultField }.

(** What axios answers: the code of a payment, no data, an error with data, any other error. *)
Inductive CardAnswer :=
| CardPayment (code : option string)
| CardNoData
| CardAxiosError (data : option ErrorData)
| CardOtherError.

(** [isResult(x)] compares [x] itself with the values of the enum. *)
Definition isResult (x : ResultField) : bool :=
  match x with
  | ResultText s => bool_decide (s = APPROVED) || bool_decide (s = INVALID_SIGNATURE)
  | _ => false
  end.

Definition isPaymentResponse (x : ErrorData) : bool := is_some (ed_requestId x) && isResult (ed_result x).

(** The code of the field; a text has none. *)
Definition result_code (x : ResultField) : option string :=
  match x with ResultObject code => code | _ => None end.

(** The code that [sendPayment] returns, [None] where it throws. *)
Definition sendPayment (a : CardAnswer) : option (option string) :=
  match a with
  | CardPayment code => Some code
  | CardNoData => None
  | CardAxiosError (Some data) => if isPaymentResponse data then Some (result_code (ed_result data)) else None
  | CardAxiosError None => None
  | CardOtherError => None
  end.

(** ** Requests *)

Inductive PosPhase :=
| FindingSender
| FindingReceiver
| CreatingIncomingPayment (walletAddressId : string) (amount : Z)
| SendingPayment
| WaitingForWebhook (since : Z)
| Responded (r : PosResponse).

(** [incomingPaymentId] and [result] are the variables of the handler; the promise and the
    timer of the entry are those the request has made. *)
Record PosRequest := {
  pq_body : PaymentRequestBody;
  pq_phase : PosPhase;
  pq_incomingPaymentId : option string;
  pq_result : option string;
  pq_promise : option WebhookBody;
  pq_expiry : option Z
}.

(** [received] are the webhooks that came in; nothing reads it. *)
Record PosState := {
  webhookWaitMap : gmap string nat;
  pos_requests : list PosRequest;
  received : list WebhookBody;
  pos_clock : Z
}.

Definition with_phase (p : PosPhase) (r : PosRequest) : PosRequest :=
  {| pq_body := pq_body r; pq_phase := p; pq_incomingPaymentId := pq_incomingPaymentId r;
     pq_result := pq_result r; pq_promise := pq_promise r; pq_expiry := pq_expiry r |}.
Definition with_payment (i : string) (expiry : Z) (r : PosRequest) : PosRequest :=
  {| pq_body := pq_body r; pq_phase := SendingPayment; pq_incomingPaymentId := Some i;
     pq_result := pq_result r; pq_promise := pq_promise r; pq_expiry := Some expiry |}.
Definition with_result (since : Z) (x : string) (r : PosRequest) : PosRequest :=
  {| pq_body := pq_body r; pq_phase := WaitingForWebhook since; pq_incomingPaymentId := pq_incomingPaymentId r;
     pq_result := Some x; pq_promise := pq_promise r; pq_expiry := pq_expiry r |}.
Definition with_webhook (w : WebhookBody) (r : PosRequest) : PosRequest :=
  {| pq_body := pq_body r; pq_phase := pq_phase r; pq_incomingPaymentId := pq_incomingPaymentId r;
     pq_result := pq_result r; pq_promise := match pq_promise r with Some y => Some y | None => Some w end;
     pq_expiry := pq_expiry r |}.
Definition with_expired (r : PosRequest) : PosRequest :=
  {| pq_body := pq_body r; pq_phase := pq_phase r; pq_incomingPaymentId := pq_incomingPaymentId r;
     pq_result := pq_result r; pq_promise := pq_promise r; pq_expiry := None |}.

Definition pos_alter (f : PosRequest -> PosRequest) (i : nat) (s : PosState) : PosState :=
  {| webhookWaitMap := webhookWaitMap s; pos_requests := alter f i (pos_requests s); received := received s;
     pos_clock := pos_clock s |}.
Definition pos_map (f : gmap string nat -> gmap string nat) (s : PosState) : PosState :=
  {| webhookWaitMap := f (webhookWaitMap s); pos_requests := pos_requests s; received := received s;
     pos_clock := pos_clock s |}.

(** An answer of the backend or of the card's wallet address, or an exception. *)
Inductive Answer (A : Type) := Answers (a : A) | Throws.
Arguments Answers {A}. Arguments Throws {A}.

Section PosService.
Context (webhookTimeoutMs : Z).
(** [new URL(s).href], with the protocol [http:] where that is configured; [None] where it throws. *)
Context (sender_href : string -> option string).

(** The [finally] of the handler. *)
Definition pos_respond (i : nat) (r : PosRequest) (x : PosResponse) (s : PosState) : PosState :=
  pos_alter (with_phase (Responded x)) i
    (match pq_incomingPaymentId r with
     | Some k => if truthy k then pos_map (delete k) s else s
     | None => s
     end).

(** *** [payment] *)

Definition payment (body : PaymentRequestBody) (s : PosState) : PosState :=
  {| webhookWaitMap := webhookWaitMap s;
     pos_requests := pos_requests s ++
       [{| pq_body := body;
           pq_phase := match sender_href (pr_senderWalletAddress body) with
                       | Some _ => FindingSender
                       | None => Responded PosInvalidRequest
                       end;
           pq_incomingPaymentId := None; pq_result := None; pq_promise := None; pq_expiry := None |}];
     received := received s; pos_clock := pos_clock s |}.

(** [getWalletAddress]: the wallet address, and its card service if that is a text. *)
Definition senderAnswered (i : nat) (a : Answer (option (option string))) (s : PosState) : PosState :=
  match pos_requests s !! i with
  | Some r =>
      match pq_phase r with
      | FindingSender =>
          match a with
          | Answers (Some (Some _)) => pos_alter (with_phase FindingReceiver) i s
          | _ => pos_respond i r PosInvalidRequest s
          end
      | _ => s
      end
  | None => s
  end.

Definition receiverAnswered (i : nat) (a : Answer (option string)) (s : PosState) : PosState :=
  match pos_requests s !! i with
  | Some r =>
      match pq_phase r with
      | FindingReceiver =>
          match a with
          | Answers (Some w) =>
              match BigInt (pr_amountValue (pq_body r)) with
              | Ret n => pos_alter (with_phase (CreatingIncomingPayment w n)) i s
              | Throw _ => pos_respond i r PosInvalidRequest s
              end
          | _ => pos_respond i r PosInvalidRequest s
          end
      | _ => s
      end
  | None => s
  end.

(** [createIncomingPayment], then [setWithExpiry]. *)
Definition incomingPaymentAnswered (i : nat) (a : Answer (option string)) (s : PosState) : PosState :=
  match pos_requests s !! i with
  | Some r =>
      match pq_phase r with
      | CreatingIncomingPayment _ _ =>
          match a with
          | Answers (Some k) =>
              pos_alter (with_payment k (pos_clock s + webhookTimeoutMs)) i (pos_map <[k := i]> s)
          | _ => pos_respond i r PosInvalidRequest s
          end
      | _ => s
      end
  | None => s
  end.

Definition cardAnswered (i : nat) (a : CardAnswer) (s : PosState) : PosState :=
  match pos_requests s !! i with
  | Some r =>
      match pq_phase r with
      | SendingPayment =>
          match sendPayment a with
          | Some (Some code) =>
              if bool_decide (code = INVALID_SIGNATURE) then pos_respond i r PosInvalidSignature s
              else if negb (bool_decide (code = APPROVED)) then pos_respond i r PosInvalidRequest s
              else pos_alter (with_result (pos_clock s) code) i s
          | _ => pos_respond i r PosInvalidRequest s
          end
      | _ => s
      end
  | None => s
  end.

(** The race of [waitForIncomingPaymentEvent] is won by the promise. *)
Definition webhookSettled (i : nat) (s : PosState) : PosState :=
  match pos_requests s !! i with
  | Some r =>
      match pq_phase r, pq_promise r with
      | WaitingForWebhook _, Some w => pos_respond i r (if wb_completed w then PosApproved else PosInvalidRequest) s
      | _, _ => s
      end
  | None => s
  end.

(** The race is won by the timer. *)
Definition waitTimedOut (i : nat) (s : PosState) : PosState :=
  match pos_requests s !! i with
  | Some r =>
      match pq_phase r, pq_promise r with
      | WaitingForWebhook since, None =>
          if since + webhookTimeoutMs <=? pos_clock s then pos_respond i r PosInvalidRequest s else s
      | _, _ => s
      end
  | None => s
  end.

(** The timer that [setExpiry] has started. *)
Definition entryExpired (i : nat) (s : PosState) : PosState :=
  match pos_requests s !! i with
  | Some r =>
      match pq_expiry r, pq_incomingPaymentId r with
      | Some t, Some k =>
          if t <=? pos_clock s then pos_alter with_expired i (pos_map (delete k) s) else s
      | _, _ => s
      end
  | None => s
  end.

(** *** [handleWebhook]: the status of the answer *)

Definition handleWebhook (w : WebhookBody) (s : PosState) : Z * PosState :=
  let s := {| webhookWaitMap := webhookWaitMap s; pos_requests := pos_requests s; received := received s ++ [w];
              pos_clock := pos_clock s |} in
  if negb (bool_decide (wb_type w = "incoming_payment.completed"%string)) then (400, s)
  else
  match webhookWaitMap s !! wb_id w with
  | Some i => (200, pos_alter (with_webhook w) i s)
  | None => (404, s)
  end.

Inductive pos_step : PosState -> PosState -> Prop :=
| pos_payment body s : pos_step s (payment body s)
| pos_sender i a s : pos_step s (senderAnswered i a s)
| pos_receiver i a s : pos_step s (receiverAnswered i a s)
| pos_incoming i a s : pos_step s (incomingPaymentAnswered i a s)
| pos_card i a s : pos_step s (cardAnswered i a s)
| pos_settled i s : pos_step s (webhookSettled i s)
| pos_timedOut i s : pos_step s (waitTimedOut i s)
| pos_expired i s : pos_step s (entryExpired i s)
| pos_webhook w s : pos_step s (handleWebhook w s).2
| pos_elapse t s :
    pos_clock s <= t ->
    pos_step s {| webhookWaitMap := webhookWaitMap s; pos_requests := pos_requests s; received := received s;
                  pos_clock := t |}.
End PosService.

Definition pos_started (t : Z) : PosState :=
  {| webhookWaitMap := ∅; pos_requests := []; received := []; pos_clock := t |}.
