(* ===== verification/PosSpecs.v ===== *)
(** * PosSpecs: a terminal approves what was paid

    Over all histories of [PointOfSale]: an approved payment was approved by the card service and
    announced by the backend as a completed incoming payment, the one that was created for it; and
    as long as an entry has not expired, the webhook reaches its request.  Two histories show where
    the code does not do what it means to. *)

From S2P Require Import Prelude Text.
From S2P Require Import PointOfSale.

Local Open Scope Z_scope.
Local Open Scope ts_scope.

(** The request has an entry, or had one until it expired. *)
Definition waits (r : PosRequest) : Prop :=
  match pq_phase r with SendingPayment | WaitingForWebhook _ => True | _ => False end.

(** What is known of the variables of a request where it is. *)
Definition phase_ok (r : PosRequest) : Prop :=
  match pq_phase r with
  | FindingSender | FindingReceiver | CreatingIncomingPayment _ _ => pq_incomingPaymentId r = None
  | WaitingForWebhook _ => pq_result r = Some APPROVED
  | Responded PosApproved =>
      pq_result r = Some APPROVED /\ exists w, pq_promise r = Some w /\ wb_completed w = true
  | _ => True
  end.

(** The backend gives no two requests the same incoming payment. *)
Definition payments_distinct (l : list PosRequest) : Prop :=
  forall i j r r' k, l !! i = Some r -> l !! j = Some r' ->
    pq_incomingPaymentId r = Some k -> pq_incomingPaymentId r' = Some k -> i = j.

Definition webhook_for (s : PosState) (r : PosRequest) (w : WebhookBody) : Prop :=
  w ∈ received s /\ wb_type w = "incoming_payment.completed"%string /\ pq_incomingPaymentId r = Some (wb_id w).

Record pos_inv (s : PosState) : Prop := {
  pi_map k i : webhookWaitMap s !! k = Some i ->
    exists r, pos_requests s !! i = Some r /\ pq_incomingPaymentId r = Some k /\ (k <> ""%string -> waits r);
  pi_promise i r w : pos_requests s !! i = Some r -> pq_promise r = Some w -> webhook_for s r w;
  pi_phase i r : pos_requests s !! i = Some r -> phase_ok r;
  pi_own i r k t : payments_distinct (pos_requests s) -> pos_requests s !! i = Some r -> waits r ->
    pq_incomingPaymentId r = Some k -> pq_expiry r = Some t -> webhookWaitMap s !! k = Some i
}.

Section Specs.
Context (webhookTimeoutMs : Z) (sender_href : string -> option string).
#[local] Notation step := (pos_step webhookTimeoutMs sender_href).
Implicit Types (s : PosState) (r : PosRequest) (w : WebhookBody).

(** Changing one request, whose payment stays, does not bring two together. *)
Lemma distinct_alter f i (l : list PosRequest) :
  (forall r k, l !! i = Some r -> pq_incomingPaymentId r = Some k -> pq_incomingPaymentId (f r) = Some k) ->
  payments_distinct (alter f i l) -> payments_distinct l.
Proof.
  intros Hf Hd a b r r' k Ha Hb Hk Hk'.
  assert (forall c r0, l !! c = Some r0 -> pq_incomingPaymentId r0 = Some k ->
            exists r1, alter f i l !! c = Some r1 /\ pq_incomingPaymentId r1 = Some k) as Hx.
  { intros c r0 Hc Hk0. destruct (decide (i = c)) as [->|Hne].
    - exists (f r0). rewrite list_lookup_alter_eq, Hc. split; [done|by apply Hf].
    - exists r0. by rewrite list_lookup_alter_ne. }
  destruct (Hx a r Ha Hk) as (r1 & Ha1 & Hk1). destruct (Hx b r' Hb Hk') as (r2 & Hb2 & Hk2).
  by apply (Hd a b r1 r2 k).
Qed.

Lemma distinct_app (l : list PosRequest) r : payments_distinct (l ++ [r]) -> payments_distinct l.
Proof. intros Hd a b r1 r2 k Ha Hb. apply (Hd a b r1 r2 k); by apply lookup_app_l_Some. Qed.

Lemma alter_pos_inv s i f :
  pos_inv s ->
  (forall r, pos_requests s !! i = Some r ->
     pq_incomingPaymentId (f r) = pq_incomingPaymentId r /\ (waits (f r) <-> waits r) /\
     pq_expiry (f r) = pq_expiry r /\ phase_ok (f r) /\
     forall w, pq_promise (f r) = Some w -> webhook_for s r w) ->
  pos_inv (pos_alter f i s).
Proof.
  intros [Hmap Hprom Hph Hown] Hf. split; simpl.
  - intros k j Hk. destruct (Hmap k j Hk) as (r & Hr & Hid & Hw). destruct (decide (i = j)) as [->|Hne].
    + destruct (Hf r Hr) as (Hid' & Hw' & _). exists (f r). rewrite list_lookup_alter_eq, Hr.
      split_and!; [done|by rewrite Hid'|by intros ?%Hw; apply Hw'].
    + exists r. by rewrite list_lookup_alter_ne.
  - intros j r' w Hj Hw. apply alter_lookup_inv in Hj as (r & Hr & ->). destruct (decide (i = j)) as [->|_]; [|by eapply Hprom].
    destruct (Hf r Hr) as (Hid & _ & _ & _ & Hp). destruct (Hp w Hw) as (? & ? & ?). by split_and!; rewrite ?Hid.
  - intros j r' Hj. apply alter_lookup_inv in Hj as (r & Hr & ->). destruct (decide (i = j)) as [->|_]; [|by eapply Hph].
    by apply Hf.
  - intros j r' k t Hd Hj Hw Hk Ht. apply distinct_alter in Hd; [|intros r0 k0 Hr0 <-; by apply Hf].
    apply alter_lookup_inv in Hj as (r & Hr & ->). destruct (decide (i = j)) as [->|_]; [|by eapply Hown].
    destruct (Hf r Hr) as (Hid & Hw' & He & _). rewrite Hid in Hk. rewrite He in Ht. eapply Hown; [done|done|by apply Hw'|done|done].
Qed.

(** Deleting the entry of a request, which then no longer waits or whose timer has fired. *)
Lemma drop_inv s i r f g :
  pos_inv s -> pos_requests s !! i = Some r ->
  (forall k j, g (webhookWaitMap s) !! k = Some j ->
     webhookWaitMap s !! k = Some j /\ (pq_incomingPaymentId r = Some k -> k = ""%string)) ->
  (forall k, pq_incomingPaymentId r <> Some k -> g (webhookWaitMap s) !! k = webhookWaitMap s !! k) ->
  pq_incomingPaymentId (f r) = pq_incomingPaymentId r -> pq_promise (f r) = pq_promise r -> phase_ok (f r) ->
  (waits (f r) -> pq_expiry (f r) = None) ->
  pos_inv (pos_alter f i (pos_map g s)).
Proof.
  intros [Hmap Hprom Hph Hown] Hr Hm1 Hm2 Hid Hp Hok Hexp. split; simpl.
  - intros k j Hk. destruct (Hm1 k j Hk) as [Hk0 Hempty]. destruct (Hmap k j Hk0) as (r0 & Hr0 & Hid0 & Hw).
    destruct (decide (i = j)) as [->|Hne].
    + assert (r0 = r) as -> by congruence. exists (f r). rewrite list_lookup_alter_eq, Hr.
      split_and!; [done|congruence|]. intros Hk1. by destruct Hk1; apply Hempty.
    + exists r0. by rewrite list_lookup_alter_ne.
  - intros j r' w Hj Hw. apply alter_lookup_inv in Hj as (r0 & Hr0 & ->).
    destruct (decide (i = j)) as [->|_]; [|exact (Hprom _ _ _ Hr0 Hw)]. assert (r0 = r) as -> by congruence.
    rewrite Hp in Hw. destruct (Hprom _ _ _ Hr0 Hw) as (? & ? & ?). split_and!; [done..|by rewrite Hid].
  - intros j r' Hj. apply alter_lookup_inv in Hj as (r0 & Hr0 & ->). destruct (decide (i = j)) as [->|_]; [|by eapply Hph].
    assert (r0 = r) as -> by congruence. done.
  - intros j r' k t Hd Hj Hw Hk Ht. apply distinct_alter in Hd.
    2: { intros r1 k1 Hr1 Hk1. assert (r1 = r) as -> by congruence. congruence. }
    apply alter_lookup_inv in Hj as (r0 & Hr0 & ->). destruct (decide (i = j)) as [->|Hne].
    + assert (r0 = r) as -> by congruence. rewrite Hexp in Ht; done.
    + rewrite Hm2; [by eapply Hown|]. intros Hk1. apply Hne. by eapply (Hd i j).
Qed.

Lemma respond_inv s i r x :
  pos_inv s -> pos_requests s !! i = Some r -> phase_ok (with_phase (Responded x) r) -> pos_inv (pos_respond i r x s).
Proof.
  intros Hinv Hr Hok.
  assert (forall g, (g = (fun m => m) /\ (pq_incomingPaymentId r = None \/ pq_incomingPaymentId r = Some ""%string) \/
             exists k, pq_incomingPaymentId r = Some k /\ g = delete k) ->
           pos_inv (pos_alter (with_phase (Responded x)) i (pos_map g s))) as Hdrop.
  { intros g Hg. apply (drop_inv s i r); [done..| | |done|done|done|intros []].
    - intros k j Hk. destruct Hg as [[-> Hid]|(k0 & Hid & ->)].
      + split; [done|]. intros Hid'. destruct Hid as [Hid|Hid]; rewrite Hid in Hid'; by simplify_eq.
      + apply lookup_delete_Some in Hk as [Hne Hk]. split; [done|]. intros Hid'. congruence.
    - intros k Hne. destruct Hg as [[-> _]|(k0 & Hid & ->)]; [done|]. rewrite lookup_delete_ne; [done|congruence]. }
  assert (pos_map (fun m => m) s = s) as Hsame by (by destruct s).
  unfold pos_respond. destruct (pq_incomingPaymentId r) as [k|] eqn:Hid.
  - destruct (truthy k) eqn:Ht; [by apply Hdrop; eauto|]. rewrite <- Hsame. apply Hdrop. left. split; [done|].
    right. unfold truthy, truthy_string in Ht. f_equal. by zbool.
  - rewrite <- Hsame. apply Hdrop. auto.
Qed.

Lemma refuse_inv s i r :
  pos_inv s -> pos_requests s !! i = Some r -> pos_inv (pos_respond i r PosInvalidRequest s).
Proof. intros. by apply respond_inv. Qed.

Lemma expired_inv s i : pos_inv s -> pos_inv (entryExpired i s).
Proof.
  intros Hinv. unfold entryExpired. destruct (pos_requests s !! i) as [r|] eqn:Hr; [|done].
  destruct (pq_expiry r) as [t|]; [|done]. destruct (pq_incomingPaymentId r) as [k|] eqn:Hid; [|done].
  destruct (t <=? pos_clock s); [|done]. apply (drop_inv s i r); [done..| | |done|done| |done].
  - intros k' j Hk. apply lookup_delete_Some in Hk as [Hne Hk]. split; [done|]. congruence.
  - intros k' Hne. rewrite lookup_delete_ne; [done|congruence].
  - exact (pi_phase _ Hinv i r Hr).
Qed.

(** The incoming payment is created, and the request entered under it. *)
Lemma enter_inv s i r k t a n :
  pos_inv s -> pos_requests s !! i = Some r -> pq_phase r = CreatingIncomingPayment a n ->
  pos_inv (pos_alter (with_payment k t) i (pos_map <[k := i]> s)).
Proof.
  intros [Hmap Hprom Hph Hown] Hr Hp.
  assert (pq_incomingPaymentId r = None) as Hnone by (specialize (Hph i r Hr); unfold phase_ok in Hph; by rewrite Hp in Hph).
  split; simpl.
  - intros k' j Hk. destruct (decide (k = k')) as [<-|Hne].
    + rewrite lookup_insert_eq in Hk. injection Hk as <-. exists (with_payment k t r).
      by rewrite list_lookup_alter_eq, Hr.
    + rewrite lookup_insert_ne in Hk by done. destruct (Hmap k' j Hk) as (r0 & Hr0 & Hid & Hw).
      assert (i <> j) by (intros ->; congruence). exists r0. by rewrite list_lookup_alter_ne.
  - intros j r' x Hj Hx. apply alter_lookup_inv in Hj as (r0 & Hr0 & ->).
    destruct (decide (i = j)) as [->|_]; [|exact (Hprom _ _ _ Hr0 Hx)]. assert (r0 = r) as -> by congruence.
    destruct (Hprom _ _ _ Hr0 Hx) as (_ & _ & Hid). congruence.
  - intros j r' Hj. apply alter_lookup_inv in Hj as (r0 & Hr0 & ->). destruct (decide (i = j)); [done|by eapply Hph].
  - intros j r' k' t' Hd Hj Hw Hk Ht. destruct (decide (i = j)) as [->|Hne].
    + rewrite list_lookup_alter_eq, Hr in Hj. injection Hj as <-. injection Hk as <-. apply lookup_insert_eq.
    + rewrite list_lookup_alter_ne in Hj by done. rewrite lookup_insert_ne.
      * eapply Hown; [|done..]. eapply distinct_alter; [|exact Hd]. intros r0 k0 Hr0 Hk0. congruence.
      * intros <-. apply Hne. apply (Hd i j (with_payment k t r) r' k); [by rewrite list_lookup_alter_eq, Hr
          |by rewrite list_lookup_alter_ne|done..].
Qed.

Lemma webhook_inv s w : pos_inv s -> pos_inv (handleWebhook w s).2.
Proof.
  intros Hinv. unfold handleWebhook.
  match goal with |- context [if negb _ then (400, ?s') else _] => set (s1 := s') end.
  assert (pos_inv s1) as H1.
  { destruct Hinv as [Hmap Hprom Hph Hown]. split; [exact Hmap| |exact Hph|exact Hown].
    intros i r x Hr Hx. destruct (Hprom i r x Hr Hx) as (? & ? & ?). split_and!; [set_solver|done..]. }
  case_bool_decide as Hty; [|exact H1]. simpl. change (webhookWaitMap s1) with (webhookWaitMap s).
  destruct (webhookWaitMap s !! wb_id w) as [i|] eqn:Hi; [|exact H1]. simpl. apply alter_pos_inv; [done|].
  intros r Hr. destruct (pi_map _ H1 _ _ Hi) as (r' & Hr' & Hid & _). assert (r' = r) as -> by congruence.
  pose proof (pi_phase _ H1 i r Hr) as Hok. split_and!; [done..| |].
  - unfold phase_ok in *. simpl. destruct (pq_phase r) as [| | | | |[]]; try done.
    destruct Hok as (? & x & Hx & ?). split; [done|]. exists x. by rewrite Hx.
  - simpl. intros x Hx. destruct (pq_promise r) as [y|] eqn:Hy.
    + injection Hx as <-. by apply (pi_promise _ H1 i).
    + injection Hx as <-. split_and!; [set_solver|done..].
Qed.

Ltac same_request :=
  lazymatch goal with H1 : ?l !! ?i = Some ?r, H2 : ?l !! ?i = Some ?r' |- _ =>
    assert (r' = r) as -> by congruence end.

Lemma pos_step_inv s s' : pos_inv s -> step s s' -> pos_inv s'.
Proof.
  intros Hinv Hstep.
  destruct Hstep as [body s|i a s|i a s|i a s|i a s|i s|i s|i s|w s|t s Ht];
    [| | | | | | |by apply expired_inv|by apply webhook_inv|by destruct Hinv].
  - destruct Hinv as [Hmap Hprom Hph Hown]. split; simpl.
    + intros k i Hk. destruct (Hmap k i Hk) as (r & Hr & ?). exists r. split; [by apply lookup_app_l_Some|done].
    + intros i r w Hi Hw. apply lookup_snoc_Some in Hi as [[_ Hi]|[_ <-]]; [exact (Hprom _ _ _ Hi Hw)|done].
    + intros i r Hi. apply lookup_snoc_Some in Hi as [[_ Hi]|[_ <-]]; [by eapply Hph|].
      unfold phase_ok. simpl. by destruct (sender_href _).
    + intros i r k t Hd%distinct_app Hi Hw Hk Ht. apply lookup_snoc_Some in Hi as [[_ Hi]|[_ <-]]; [by eapply Hown|done].
  - unfold senderAnswered. destruct (pos_requests s !! i) as [r|] eqn:Hr; [|done]. pose proof (pi_phase _ Hinv i r Hr) as Hok.
    destruct (pq_phase r) eqn:Hp; try done. destruct a as [[[c|]|]|]; [|by apply refuse_inv..]. apply alter_pos_inv; [done|].
    intros r0 Hr0. same_request. unfold phase_ok, waits in *. simpl. rewrite Hp in *. split_and!; [done..|].
    intros x. by apply (pi_promise _ Hinv i).
  - unfold receiverAnswered. destruct (pos_requests s !! i) as [r|] eqn:Hr; [|done]. pose proof (pi_phase _ Hinv i r Hr) as Hok.
    destruct (pq_phase r) eqn:Hp; try done. destruct a as [[w|]|]; [|by apply refuse_inv..].
    destruct (BigInt _); [|by apply refuse_inv]. apply alter_pos_inv; [done|].
    intros r0 Hr0. same_request. unfold phase_ok, waits in *. simpl. rewrite Hp in *. split_and!; [done..|].
    intros x. by apply (pi_promise _ Hinv i).
  - unfold incomingPaymentAnswered. destruct (pos_requests s !! i) as [r|] eqn:Hr; [|done].
    destruct (pq_phase r) eqn:Hp; try done. destruct a as [[k|]|]; [|by apply refuse_inv..]. by eapply enter_inv.
  - unfold cardAnswered. destruct (pos_requests s !! i) as [r|] eqn:Hr; [|done].
    destruct (pq_phase r) eqn:Hp; try done. destruct (sendPayment a) as [[code|]|]; [|by apply refuse_inv..].
    case_bool_decide; [by apply respond_inv|]. case_bool_decide as Hcode; simpl; [|by apply refuse_inv].
    apply alter_pos_inv; [done|]. intros r0 Hr0. same_request. unfold phase_ok, waits. simpl. rewrite Hp.
    split_and!; [done..|by rewrite Hcode|]. intros x. by apply (pi_promise _ Hinv i).
  - unfold webhookSettled. destruct (pos_requests s !! i) as [r|] eqn:Hr; [|done]. pose proof (pi_phase _ Hinv i r Hr) as Hok.
    destruct (pq_phase r) eqn:Hp; try done. destruct (pq_promise r) as [w|] eqn:Hw; [|done]. apply respond_inv; [done..|].
    unfold phase_ok in *. rewrite Hp in Hok. simpl. destruct (wb_completed w) eqn:Hc; [|done]. eauto.
  - unfold waitTimedOut. destruct (pos_requests s !! i) as [r|] eqn:Hr; [|done].
    destruct (pq_phase r); try done. destruct (pq_promise r); [done|]. destruct (_ <=? _); [|done]. by apply refuse_inv.
Qed.

Lemma pos_reachable t s : rtc step (pos_started t) s -> pos_inv s.
Proof.
  intros Hs. assert (pos_inv (pos_started t)) as H0 by (by split).
  induction Hs as [|s1 s2 s3 H12 _ IH]; [done|]. by apply IH, (pos_step_inv s1).
Qed.

(** C17. A terminal approves what was paid.  In every history of requests, answers of the backend
    and of the card service, webhooks and timers: a payment that is approved was approved by the
    card service, and the backend sent the webhook that the incoming payment that was created for
    it is completed; an entry of the map of waiting requests is of a request that waits for that
    payment; and when the backend gives every request a payment of its own, the webhook is
    accepted as long as the entry of a request that waits has not expired, and approves it. *)
Theorem approved_is_paid t s :
  rtc step (pos_started t) s ->
  (forall i r, pos_requests s !! i = Some r -> pq_phase r = Responded PosApproved ->
     pq_result r = Some APPROVED /\ exists w, w ∈ received s /\ wb_type w = "incoming_payment.completed"%string /\
       pq_incomingPaymentId r = Some (wb_id w) /\ wb_completed w = true) /\
  (forall k i, webhookWaitMap s !! k = Some i -> k <> ""%string ->
     exists r, pos_requests s !! i = Some r /\ pq_incomingPaymentId r = Some k /\ waits r) /\
  (payments_distinct (pos_requests s) -> forall i r w expiry,
     pos_requests s !! i = Some r -> waits r -> pq_incomingPaymentId r = Some (wb_id w) -> pq_expiry r = Some expiry ->
     pq_promise r = None -> wb_type w = "incoming_payment.completed"%string -> wb_completed w = true ->
     (handleWebhook w s).1 = 200 /\
     forall since, pq_phase r = WaitingForWebhook since ->
       pq_phase <$> pos_requests (webhookSettled i (handleWebhook w s).2) !! i = Some (Responded PosApproved)).
Proof.
  intros Hs. pose proof (pos_reachable t s Hs) as Hinv. split_and!.
  - intros i r Hr Hp. pose proof (pi_phase _ Hinv i r Hr) as Hok. unfold phase_ok in Hok. rewrite Hp in Hok.
    destruct Hok as (Hres & w & Hw & Hc). destruct (pi_promise _ Hinv i r w Hr Hw) as (? & ? & ?). split; [done|]. by exists w.
  - intros k i Hk Hne. destruct (pi_map _ Hinv k i Hk) as (r & Hr & Hid & Hw). exists r. split_and!; [done..|by apply Hw].
  - intros Hd i r w expiry Hr Hw Hid Hexp Hp Hty Hc. pose proof (pi_own _ Hinv i r _ _ Hd Hr Hw Hid Hexp) as Hmap.
    assert (handleWebhook w s = (200, pos_alter (with_webhook w) i
       {| webhookWaitMap := webhookWaitMap s; pos_requests := pos_requests s; received := received s ++ [w];
          pos_clock := pos_clock s |})) as -> by (unfold handleWebhook; rewrite bool_decide_eq_true_2 by done; simpl; by rewrite Hmap).
    split; [done|]. intros since Hph. unfold webhookSettled. simpl. rewrite list_lookup_alter_eq, Hr. simpl.
    rewrite Hph, Hp. unfold pos_respond. simpl. rewrite Hid, Hc.
    by destruct (truthy (wb_id w)); simpl; rewrite !list_lookup_alter_eq, Hr.
Qed.
End Specs.

(** ** Histories *)

Module PosExample.

Definition href (s : string) : option string := if truthy s then Some s else None.

Definition request : PaymentRequestBody :=
  {| pr_signature := ""; pr_payload := ""; pr_amountValue := "100"; pr_assetCode := "USD"; pr_assetScale := 2;
     pr_senderWalletAddress := "https://host/alice"; pr_receiverWalletAddress := "https://host/shop"; pr_timestamp := 0 |}.

Definition completed_webhook : WebhookBody :=
  {| wb_type := "incoming_payment.completed"; wb_id := "p"; wb_completed := true |}.

Definition pos_at (t : Z) (s : PosState) : PosState :=
  {| webhookWaitMap := webhookWaitMap s; pos_requests := pos_requests s; received := received s; pos_clock := t |}.

(** The card service is asked to pay the incoming payment [p]. *)
Definition sending : PosState :=
  incomingPaymentAnswered 30000 0 (Answers (Some "p"%string))
    (receiverAnswered 0 (Answers (Some "w"%string))
      (senderAnswered 0 (Answers (Some (Some "https://card"%string))) (payment href request (pos_started 0)))).

Definition waiting : PosState := cardAnswered 0 (CardPayment (Some APPROVED)) sending.

Lemma sending_reachable : rtc (pos_step 30000 href) (pos_started 0) sending.
Proof.
  eapply rtc_l; [apply (pos_payment _ _ request)|]. eapply rtc_l; [apply (pos_sender _ _ 0 (Answers (Some (Some "https://card"%string))))|].
  eapply rtc_l; [apply (pos_receiver _ _ 0 (Answers (Some "w"%string)))|]. apply rtc_once, pos_incoming.
Qed.

Lemma waiting_reachable : rtc (pos_step 30000 href) (pos_started 0) waiting.
Proof. eapply rtc_r; [exact sending_reachable|]. apply pos_card. Qed.

(** The card service takes longer to approve than an entry lasts: the webhook is not awaited when
    it comes, and the terminal, which waits for another while, refuses what was paid. *)
Definition approved_late : PosState :=
  cardAnswered 0 (CardPayment (Some APPROVED)) (pos_at 31000 (entryExpired 0 (pos_at 30000 sending))).

Lemma paid_and_refused :
  (handleWebhook completed_webhook approved_late).1 = 404 /\
  pq_phase <$> pos_requests (waitTimedOut 30000 0 (pos_at 61000 (handleWebhook completed_webhook approved_late).2))
  = [Responded PosInvalidRequest].
Proof. by vm_compute. Qed.

(** A code in an answer with an error status is never read. *)
Lemma no_code_in_errors requestId code : isPaymentResponse {| ed_requestId := requestId; ed_result := ResultObject code |} = false.
Proof. unfold isPaymentResponse. simpl. by rewrite andb_false_r. Qed.
End PosExample.

Import PosExample.

Lemma approved_is_paid_witness :
  (handleWebhook completed_webhook waiting).1 = 200 /\
  pq_phase <$> pos_requests (webhookSettled 0 (handleWebhook completed_webhook waiting).2) !! 0%nat = Some (Responded PosApproved).
Proof.
  destruct (approved_is_paid 30000 href 0 waiting waiting_reachable) as (_ & _ & H).
  assert (payments_distinct (pos_requests waiting)) as Hd.
  { intros [|i] [|j] r r' k Hi Hj _ _; [reflexivity|discriminate Hj|discriminate Hi|discriminate Hi]. }
  destruct (H Hd 0%nat _ completed_webhook 30000 eq_refl I eq_refl eq_refl eq_refl eq_refl eq_refl) as [H1 H2].
  split; [exact H1|]. exact (H2 0 eq_refl).
Defined.
