(* ===== verification/IncomingRoutes.v ===== *)
(** * IncomingRoutes: incoming payments over Open Payments

    Models [open_payments/payment/incoming/routes.ts], the error tables of
    [incoming/errors.ts], [toPublicOpenPaymentsType] of [incoming/model.ts],
    [listSubresource] of [wallet_address/routes.ts] with [getPageInfo] of
    [shared/pagination.ts], and the two ways of [wallet_address/middleware.ts] to the URL of
    the wallet address, behind the middlewares that [app.ts] puts before the routes.  A
    body of a response that is listed or read without methods has none. *)

From S2P Require Import Prelude Text Shared Service OpenPayments.
From S2P Require AuthAccess AuthRoutes Pagination OutgoingRoutes Liquidity.
From S2P Require Import OpenPaymentsAuth IncomingPayment RemoteGrants Receivers.
Import OutgoingRoutes (of_outcome).

Local Open Scope Z_scope.
Local Open Scope ts_scope.
Local Open Scope string_scope.

(** ** [incoming/errors.ts] *)

Definition incomingErrorToHTTPCode (e : IncomingPaymentError.t) : Z :=
  match e with
  | IncomingPaymentError.UnknownWalletAddress | IncomingPaymentError.UnknownPayment => 404
  | IncomingPaymentError.InvalidAmount | IncomingPaymentError.InvalidState
  | IncomingPaymentError.InvalidExpiry | IncomingPaymentError.InactiveWalletAddress => 400
  | IncomingPaymentError.WrongState => 409
  | IncomingPaymentError.ActionNotPerformed | IncomingPaymentError.AlreadyActioned => 403
  end.

Definition incomingErrorToCode (e : IncomingPaymentError.t) : Liquidity.GraphQLErrorCode :=
  match e with
  | IncomingPaymentError.UnknownWalletAddress | IncomingPaymentError.UnknownPayment => Liquidity.NotFound
  | IncomingPaymentError.InvalidAmount | IncomingPaymentError.InvalidState
  | IncomingPaymentError.InvalidExpiry => Liquidity.BadUserInput
  | IncomingPaymentError.WrongState => Liquidity.Conflict
  | IncomingPaymentError.InactiveWalletAddress => Liquidity.Inactive
  | IncomingPaymentError.ActionNotPerformed => Liquidity.Timeout
  | IncomingPaymentError.AlreadyActioned => Liquidity.Forbidden
  end.

Definition incomingErrorToMessage (e : IncomingPaymentError.t) : string :=
  match e with
  | IncomingPaymentError.UnknownWalletAddress => "unknown wallet address"
  | IncomingPaymentError.InvalidAmount => "invalid amount"
  | IncomingPaymentError.UnknownPayment => "unknown payment"
  | IncomingPaymentError.InvalidState => "invalid state"
  | IncomingPaymentError.InvalidExpiry => "invalid expiresAt"
  | IncomingPaymentError.WrongState => "wrong state"
  | IncomingPaymentError.InactiveWalletAddress => "inactive wallet address"
  | IncomingPaymentError.ActionNotPerformed => "action not performed"
  | IncomingPaymentError.AlreadyActioned => "action already performed"
  end.

(** ** Requests and responses *)

Record IncomingCreateBody := {
  ib_walletAddress : string;
  ib_expiresAt : option Z;
  ib_incomingAmount : option AmountJSON;
  ib_metadata : option (gmap string Json)
}.

Record ListQuery := {
  lq_walletAddress : string;
  lq_first : option Z;
  lq_last : option Z;
  lq_cursor : option string
}.

Record PublicIncomingPayment := { pub_receivedAmount : AmountJSON; pub_authServer : string }.

Inductive ReadBody :=
| PublicBody (p : PublicIncomingPayment)
| PrivateBody (p : OpenPaymentsIncomingPayment).

Record ListBody := { lb_pagination : Pagination.PageInfo; lb_result : list OpenPaymentsIncomingPayment }.

Section Routes.
Context {X : Type} `{Uuid} `{!ReceiverServices X}.
#[local] Notation State := (Svc IncomingDb X).
Context (deps : IncomingDeps X) (config : ReceiverConfig) (authServerGrantUrl : string).
Context (sleep : Z -> M State unit).
Context (pick : list IncomingPayment -> option IncomingPayment).

Definition incoming_error {A} (e : IncomingPaymentError.t) : M State A :=
  route_error (incomingErrorToHTTPCode e) (incomingErrorToMessage e).

(** ** [incoming/routes.ts] *)

(** What [incomingPaymentService.get] is asked; there is no token for a public request. *)
Definition read_options (tenantId pid : string) (ctx : option Authorization) : GetOptions :=
  {| go_id := pid;
     go_client := match ctx with
                  | Some ctx => if bool_decide (accessAction ctx = "read")
                                then Some (OpenPaymentsAuth.client ctx) else None
                  | None => None
                  end;
     go_walletAddressId := None; go_tenantId := Some tenantId |}.

Definition toPublicOpenPaymentsType (authServerUrl : string) (p : IncomingPayment)
  : M State PublicIncomingPayment :=
  let! received := receivedAmount p in
  ret {| pub_receivedAmount := serializeAmount received; pub_authServer := authServerUrl |}.

Definition getIncomingPaymentPublic (tenantId pid : string) (ctx : option Authorization)
  : M State PublicIncomingPayment :=
  let! incomingPayment := getIncomingPayment deps (read_options tenantId pid ctx) in
  match incomingPayment with
  | None => route_error 404 "Incoming payment does not exist"
  | Some p =>
      toPublicOpenPaymentsType
        (authServerGrantUrl ++ "/" ++ match walletAddress p with Some w => wa_tenantId w | None => "undefined" end) p
  end.

Definition getIncomingPaymentPrivate (tenantId pid : string) (w : WalletAddress) (ctx : option Authorization)
  : M State OpenPaymentsIncomingPayment :=
  let! incomingPayment := getIncomingPayment deps (read_options tenantId pid ctx) in
  match incomingPayment with
  | None => route_error 404 "Incoming payment does not exist"
  | Some p =>
      let! paymentMethods := if isExpiredOrComplete p then ret [] else getPaymentMethods config p in
      toOpenPaymentsTypeWithMethods (receiver_openPaymentsUrl config) w paymentMethods p
  end.

Definition getIncomingPaymentRoute (tenantId pid : string) (w : WalletAddress) (ctx : option Authorization)
    (authenticated : bool) : M State ReadBody :=
  if authenticated
  then let! p := getIncomingPaymentPrivate tenantId pid w ctx in ret (PrivateBody p)
  else let! p := getIncomingPaymentPublic tenantId pid ctx in ret (PublicBody p).

Definition createIncomingPaymentRoute (tenantId : string) (w : WalletAddress) (ctx : Authorization)
    (body : IncomingCreateBody) : M State OpenPaymentsIncomingPayment :=
  let! amount := match ib_incomingAmount body with
                 | Some a => let! a := of_outcome (parseAmount a) in ret (Some a)
                 | None => ret None
                 end in
  let! incomingPaymentOrError := createIncomingPayment deps sleep pick
    {| o_walletAddressId := wa_id w; o_client := Some (OpenPaymentsAuth.client ctx);
       o_expiresAt := ib_expiresAt body; o_incomingAmount := amount; o_metadata := ib_metadata body;
       o_tenantId := tenantId; o_initiationReason := OpenPayments; o_senderWalletAddress := None |} in
  match incomingPaymentOrError with
  | Err e => incoming_error e
  | Ok p =>
      let! paymentMethods := getPaymentMethods config p in
      toOpenPaymentsTypeWithMethods (receiver_openPaymentsUrl config) w paymentMethods p
  end.

Definition completeIncomingPaymentRoute (tenantId pid : string) (w : WalletAddress)
  : M State OpenPaymentsIncomingPayment :=
  let! incomingPaymentOrError := completeIncomingPayment deps pid (Some tenantId) in
  match incomingPaymentOrError with
  | Err e => incoming_error e
  | Ok p => toOpenPaymentsType (receiver_openPaymentsUrl config) w p
  end.

(** ** [listSubresource] *)

(** A page that cannot be fetched counts as empty. *)
Definition page_info (fetch : Pagination.Pagination -> M State (list IncomingPayment))
    (page : list IncomingPayment) (walletAddress : option string) : M State Pagination.PageInfo :=
  match page with
  | [] => ret {| Pagination.startCursor := None; Pagination.endCursor := None;
                 Pagination.hasNextPage := false; Pagination.hasPreviousPage := false |}
  | f :: _ =>
      let firstId := id f in
      let lastId := id (List.last page f) in
      let! hasNextPage := try_catch
        (fetch {| Pagination.walletAddress := walletAddress; Pagination.first := Some 1; Pagination.last := None;
                  Pagination.before := None; Pagination.after := Some lastId |}) (fun _ => ret []) in
      let! hasPreviousPage := try_catch
        (fetch {| Pagination.walletAddress := walletAddress; Pagination.first := None; Pagination.last := Some 1;
                  Pagination.before := Some firstId; Pagination.after := None |}) (fun _ => ret []) in
      ret {| Pagination.startCursor := Some firstId; Pagination.endCursor := Some lastId;
             Pagination.hasNextPage := (List.length hasNextPage =? 1)%nat;
             Pagination.hasPreviousPage := (List.length hasPreviousPage =? 1)%nat |}
  end.

Definition listSubresource (tenantId : string) (w : WalletAddress) (ctx : Authorization) (query : ListQuery)
    (getWalletAddressPage : ListOptions -> M State (list IncomingPayment))
    (toBody : IncomingPayment -> M State OpenPaymentsIncomingPayment) : M State ListBody :=
  if truthy (lq_last query) && truthy (lq_first query)
  then route_error 400 "first and last are mutually exclusive"
  else if truthy (lq_last query) && negb (truthy (lq_cursor query))
  then route_error 400 "last requires cursor"
  else
  let pagination := Pagination.parsePaginationQueryParameters (Some (lq_walletAddress query)) (lq_first query)
                      (lq_last query) (lq_cursor query) in
  let fetch pagination := getWalletAddressPage
    {| lo_walletAddressId := wa_id w;
       lo_client := if bool_decide (accessAction ctx = "list")
                    then Some (OpenPaymentsAuth.client ctx) else None;
       lo_pagination := Some pagination; lo_sortOrder := None; lo_tenantId := Some tenantId |} in
  let! page := fetch pagination in
  let! pageInfo := page_info fetch page (Some (lq_walletAddress query)) in
  let! result := mapM toBody page in
  ret {| lb_pagination := pageInfo; lb_result := result |}.

Definition listIncomingPayments (tenantId : string) (w : WalletAddress) (ctx : Authorization) (query : ListQuery)
  : M State ListBody :=
  listSubresource tenantId w ctx query (getWalletAddressPage deps)
    (toOpenPaymentsType (receiver_openPaymentsUrl config) w).

(** ** The requests, with the middlewares before the route *)

Context (introspect : string -> list AuthAccess.AccessItem -> M X AuthRoutes.TokenInfo).
Context {Key Request : Type} (kid : Key -> string).
Context (getKeyId : string -> option string) (validateSignature : Key -> Request -> M X bool).
Context (getKeys : string -> M X (list Key)).
Context (getOrPollByUrl : string -> M X (option WalletAddress)).

#[local] Notation TYPE := "incoming-payment".

Definition httpsig (signatureInput : option string) (ctx : Authorization) (request : Request) : M State unit :=
  lift (httpsigMiddleware kid getKeyId validateSignature getKeys signatureInput
          (OpenPaymentsAuth.client ctx) request).
Definition subresource_wallet_address (url : string) : M State WalletAddress :=
  let! now := date_now in lift (getWalletAddressForSubresource getOrPollByUrl now url).

(** [POST /{tenantId}/incoming-payments] *)
Definition postIncomingPayment (tenantId : string) (authorization signatureInput : option string)
    (request : Request) (body : IncomingCreateBody) : M State OpenPaymentsIncomingPayment :=
  let url := ib_walletAddress body in
  let! ctx := lift (authorize introspect TYPE "create" authorization url) in
  httpsig signatureInput ctx request ;;!
  let! w := subresource_wallet_address url in
  createIncomingPaymentRoute tenantId w ctx body.

(** [GET /{tenantId}/incoming-payments] *)
Definition listIncomingPaymentsRequest (tenantId : string) (authorization signatureInput : option string)
    (request : Request) (query : ListQuery) : M State ListBody :=
  let url := lq_walletAddress query in
  let! ctx := lift (authorize introspect TYPE "list" authorization url) in
  httpsig signatureInput ctx request ;;!
  let! w := subresource_wallet_address url in
  listIncomingPayments tenantId w ctx query.

Definition getWalletAddressUrlFromIncomingPayment (tenantId pid : string) : M State string :=
  let! incomingPayment := getIncomingPayment deps
    {| go_id := pid; go_client := None; go_walletAddressId := None; go_tenantId := Some tenantId |} in
  match incomingPayment with
  | Some p => match walletAddress p with
              | Some w => ret (wa_address w)
              | None => route_error 401 "Unauthorized"
              end
  | None => route_error 401 "Unauthorized"
  end.

(** [GET /{tenantId}/incoming-payments/{id}] *)
Definition getIncomingPaymentRequest (tenantId pid : string) (authorization signatureInput : option string)
    (request : Request) : M State ReadBody :=
  let! url := getWalletAddressUrlFromIncomingPayment tenantId pid in
  let! ctx := lift (createTokenIntrospectionMiddleware introspect TYPE "read" true authorization url) in
  let! authenticated := lift (authenticatedStatusMiddleware kid getKeyId validateSignature getKeys authorization
    signatureInput match ctx with Some ctx => OpenPaymentsAuth.client ctx | None => "" end request) in
  let! w := subresource_wallet_address url in
  getIncomingPaymentRoute tenantId pid w ctx authenticated.

(** [POST /{tenantId}/incoming-payments/{id}/complete] *)
Definition completeIncomingPaymentRequest (tenantId pid : string) (authorization signatureInput : option string)
    (request : Request) : M State OpenPaymentsIncomingPayment :=
  let! url := getWalletAddressUrlFromIncomingPayment tenantId pid in
  let! ctx := lift (authorize introspect TYPE "complete" authorization url) in
  httpsig signatureInput ctx request ;;!
  let! w := subresource_wallet_address url in
  completeIncomingPaymentRoute tenantId pid w.
End Routes.
