(* ===== verification/IncomingRouteSpecs.v ===== *)
(** * IncomingRouteSpecs: a request about an incoming payment needs a grant for it

    What the requests of [IncomingRoutes] do when they are answered, across the backend and the
    authorization server it asks: the token is live and its grant has an access for the request
    and the wallet address, the client signed the request, and what is written, read or listed is
    what the access allows.  The module [Example] is a history of two clients. *)

From S2P Require Import Prelude Text Shared Service OpenPayments Accounting.
From S2P Require AuthAccess AuthServer AuthRoutes AuthSpecs Pagination AuthExamples IncomingExamples RemoteExamples.
From S2P Require Import OpenPaymentsAuth IncomingPayment IncomingSpecs RemoteGrants Receivers ReceiverSpecs IncomingRoutes.
Import OutgoingRoutes (of_outcome).

Local Open Scope Z_scope.
Local Open Scope ts_scope.
Local Open Scope string_scope.

(** ** A page of a query *)

Lemma elem_of_limit {A} n (l : list A) x : x ∈ Pagination.limit n l -> x ∈ l.
Proof.
  unfold Pagination.limit. intros Hx. rewrite <- (take_drop (Z.to_nat n) l). apply elem_of_app. by left.
Qed.

Lemma elem_of_orderBy {A} `{Pagination.BaseModel A} o (l : list A) x : x ∈ Pagination.orderBy o l -> x ∈ l.
Proof. by rewrite Pagination.orderBy_perm. Qed.

Lemma getPage_elem {A} `{Pagination.BaseModel A} table (where_ : A -> bool) pagination o page x :
  Pagination.getPage table where_ pagination o = Ret page -> x ∈ page -> x ∈ table /\ where_ x = true.
Proof.
  unfold Pagination.getPage. intros Hpage Hx.
  assert (forall (p : A -> bool) n o', x ∈ Pagination.limit n (Pagination.orderBy o'
            (List.filter (fun x => where_ x && p x)%bool table)) -> x ∈ table /\ where_ x = true) as Hrow.
  { intros p n o' (Hin & Hp)%elem_of_limit%elem_of_orderBy%elem_of_filter_bool.
    apply andb_true_iff in Hin as [Hin _]. done. }
  split_ifs_in Hpage.
  - by eapply Hrow.
  - apply list_elem_of_In, in_rev, list_elem_of_In in Hx. by eapply Hrow.
  - apply elem_of_limit, elem_of_orderBy, elem_of_filter_bool in Hx. naive_solver.
Qed.

Lemma incoming_reads_trans {X} (s s1 s2 : Svc IncomingDb X) : reads s s1 -> reads s1 s2 -> reads s s2.
Proof. intros (H1 & H2 & H3) (H4 & H5 & H6). split_and!; congruence. Qed.

Section Reading.
Context {X : Type} `{Uuid} `{!ReceiverServices X}.
Context (deps : IncomingDeps X) (config : ReceiverConfig).
#[local] Notation State := (Svc IncomingDb X).
Implicit Types s : State.

(** The wallet address of a payment, as it was answered at some time. *)
Definition wallet_of (row : IncomingPayment) (w : WalletAddress) : Prop :=
  exists x x', walletAddress_get deps (walletAddressId row) None x = (Ret (Some w), x').

(** A payment as a query with what belongs to it returns it. *)
Definition instance_of (row p : IncomingPayment) : Prop :=
  exists a w n, p = attach (Some a) w n row /\ forall w', w = Some w' -> wallet_of row w'.

Section Get.
(** What the services that are asked for the payment leave alone. *)
Context {B : Type} (part : X -> B).
Context (part_wallet : forall i t x, part (walletAddress_get deps i t x).2 = part x)
        (part_asset : forall i x, part (asset_get deps i x).2 = part x)
        (part_total : forall i x, part (getTotalReceived (accountingService deps) i x).2 = part x).

Lemma get_spec options s :
  wp (getIncomingPayment deps options)
    (fun r s' => reads s s' /\ part (ext s') = part (ext s) /\
       match r with
       | Ret (Some p) => exists row, row ∈ payments (db s) /\ id row = go_id options /\
           when_given (go_client options) (client row) = true /\ instance_of row p
       | _ => True
       end) s.
Proof.
  unfold getIncomingPayment, find_payment. do 2 wp_step. destruct (find_where _ _) as [row|] eqn:F; simpl.
  2:{ by wp_step. }
  apply find_where_Some in F as [Hin Hq]. unfold subresource_get in Hq.
  apply andb_true_iff in Hq as [Hq Hid]. apply andb_true_iff in Hq as [_ Hclient].
  apply bool_decide_eq_true in Hid. wp_step. unfold fetch_related. do 2 wp_step.
  2:{ split; [done|]. split; [|done]. simpl in Hcall. pose proof (part_asset (assetId row) (ext s)) as Hp. by rewrite Hcall in Hp. }
  simpl in Hcall. pose proof (part_asset (assetId row) (ext s)) as Hp1. rewrite Hcall in Hp1. simpl in Hp1.
  do 2 wp_step.
  2:{ split; [done|]. split; [|done]. pose proof (part_wallet (walletAddressId row) None x) as Hp.
      simpl in Hcall0. rewrite Hcall0 in Hp. simpl in *. congruence. }
  simpl in Hcall0. pose proof (part_wallet (walletAddressId row) None x) as Hp2. rewrite Hcall0 in Hp2. simpl in Hp2.
  do 2 wp_step. unfold addReceivedAmount. do 2 wp_step.
  2:{ split; [done|]. split; [|done]. pose proof (part_total (id row) x0) as Hp.
      simpl in Hcall1. rewrite Hcall1 in Hp. simpl in *. congruence. }
  simpl in Hcall1. pose proof (part_total (id row) x0) as Hp3. rewrite Hcall1 in Hp3. simpl in Hp3.
  assert (part x1 = part (ext s)) as Hpart by congruence. clear Hp1 Hp2 Hp3.
  unfold with_receivedAmount, the_asset.
  destruct a as [a|]; simpl; wp_auto; (split; [done|]); (split; [done|]); [|done].
  exists row. split_and!; [done..|]. eexists a, a0, _. split; [done|]. intros w' ->. by exists x, x0.
Qed.
End Get.

(** The body of a payment is the payment's. *)
Lemma body_spec url w methods p s :
  wp (toOpenPaymentsTypeWithMethods url w methods p)
    (fun r s' => s' = s /\
       match r with
       | Ret b => op_id b = getUrl url p /\ op_walletAddress b = wa_address w /\
           op_completed b = completed p /\ op_metadata b = metadata p /\ op_methods b = methods
       | Throw _ => True
       end) s.
Proof.
  unfold toOpenPaymentsTypeWithMethods, incomingAmount, receivedAmount, the_asset. wp_auto; done.
Qed.

(** Completing changes the one payment that was open. *)
Lemma complete_exact pid tenant s :
  wp (completeIncomingPayment deps pid tenant)
    (fun r s' => match r with
       | Ret (Ok p) => exists row, row ∈ payments (db s) /\ id row = pid /\
           when_given tenant (Some (tenantId row)) = true /\ isExpiredOrComplete row = false /\
           payments (db s') = update_where (fun q => bool_decide (id q = pid))
             (set_state Completed (Some (now s)) (now s)) (payments (db s)) /\
           id p = pid /\ tenantId p = tenantId row /\ completed p = true
       | Ret (Err _) => db s' = db s
       | Throw _ => db s' = db s
       end) s.
Proof.
  unfold completeIncomingPayment. apply wp_transaction. wp_step.
  eapply wp_mono; [apply find_payment_spec|]. intros [[p|]|e] s1 [-> Hp]; [|by wp_step|done].
  destruct Hp as (row & Hin & -> & Hq). apply andb_true_iff in Hq as [Hid Htenant].
  apply bool_decide_eq_true in Hid. wp_step.
  eapply wp_mono; [apply fetch_related_spec|]. intros [p|e] s1 [(Hd & Hn & _) Hp]; [|done].
  destruct Hp as (a & w & -> & _).
  change (state (attach a w (receivedAmountValue (fetched row)) (fetched row))) with (state row).
  assert (isExpiredOrComplete row = false ->
    wp (let! p := patch (fun now => set_state Completed (Some now) now)
                    (attach a w (receivedAmountValue (fetched row)) (fetched row)) in
        let! p := addReceivedAmount deps p None in ret (@Ok IncomingPaymentError.t _ p))%ts
      (fun r s' => match r with
       | Ret (Ok p) => exists row, row ∈ payments (db s) /\ id row = pid /\
           when_given tenant (Some (tenantId row)) = true /\ isExpiredOrComplete row = false /\
           payments (db s') = update_where (fun q => bool_decide (id q = pid))
             (set_state Completed (Some (now s)) (now s)) (payments (db s)) /\
           id p = pid /\ tenantId p = tenantId row /\ completed p = true
       | Ret (Err _) => db s' = db s
       | Throw _ => db (set_db (db s) s') = db s
       end) s1) as Hfinish.
  { intros Hopen. unfold patch. do 7 wp_step. eapply wp_mono; [apply addReceivedAmount_spec|].
    intros [p|e] s2 [(Hd2 & _) Hp]; [|done]. destruct Hp as (a' & w' & n & ->). wp_step.
    exists row. simpl in Hd2. rewrite Hd2. simpl. rewrite Hd, Hn, Hid. by split_and!. }
  destruct (state row) eqn:Hst; try (apply Hfinish; unfold isExpiredOrComplete; by rewrite Hst); by wp_step.
Qed.

Lemma fetch_page_spec (rows : list IncomingPayment) s :
  wp (mapM (fun p => fetch_page_related deps (fetched p)) rows)
    (fun r s' => reads s s' /\
       match r with
       | Ret page => Forall2 (fun row p => exists a w, p = attach a w None row) rows page
       | Throw _ => True
       end) s.
Proof.
  revert s. induction rows as [|row rows IH]; intros s; cbn [mapM]; [by wp_step|].
  wp_step. unfold fetch_page_related at 1. do 2 wp_step; [|done]. do 2 wp_step; [|done]. do 2 wp_step.
  eapply wp_mono; [apply IH|]. intros [page|e] s' [Hr Hpage]; [|by split].
  wp_step. split; [by eapply incoming_reads_trans|]. constructor; [|done]. destruct a0 as [a0|]; by eexists _, _.
Qed.

Lemma amounts_spec rows page amounts s :
  Forall2 (fun row p => exists a w, p = attach a w None row) rows page ->
  wp (with_receivedAmounts (X := X) page amounts)
    (fun r s' => reads s s' /\
       match r with
       | Ret page => Forall2 (fun row p => exists a w n, p = attach a w n row) rows page
       | Throw _ => True
       end) s.
Proof.
  intros Hpage. revert amounts s. induction Hpage as [|row p rows page (a & w & ->) _ IH]; intros amounts s;
    cbn [with_receivedAmounts]; [by wp_step|].
  wp_step. unfold with_receivedAmount, the_asset. simpl. wp_step. destruct a as [a|]; [|by wp_step].
  do 3 wp_step. eapply wp_mono; [apply IH|]. intros [page'|e] s' [Hr Hrows]; [|by split].
  wp_step. split; [done|]. constructor; [by do 3 eexists|done].
Qed.

(** Every payment of a page is one the query asked for. *)
Lemma page_spec options s :
  wp (getWalletAddressPage deps options)
    (fun r s' => reads s s' /\
       match r with
       | Ret page => Forall (fun p => exists row a w n, p = attach a w n row /\ row ∈ payments (db s) /\
           when_given (lo_tenantId options) (Some (tenantId row)) = true /\
           when_given (lo_client options) (client row) = true /\
           when_given (Some (lo_walletAddressId options)) (Some (walletAddressId row)) = true) page
       | Throw _ => True
       end) s.
Proof.
  unfold getWalletAddressPage, getPage. simpl. do 2 wp_step.
  match goal with |- context [Pagination.getPage ?t ?c ?p ?o] => destruct (Pagination.getPage t c p o) as [rows|e] eqn:Hpage end;
    [|by wp_step].
  wp_step. eapply wp_mono; [apply fetch_page_spec|]. intros [page|e] s1 [Hr1 H1]; [|done].
  do 2 wp_step; [|split; [by eapply incoming_reads_trans|done]].
  eapply wp_mono; [by apply amounts_spec|]. intros [page'|e] s2 [Hr2 H2];
    (split; [eapply incoming_reads_trans; [exact Hr1|]; by eapply incoming_reads_trans|]); [|done].
  assert (forall row, row ∈ rows -> row ∈ payments (db s) /\
    when_given (lo_tenantId options) (Some (tenantId row)) = true /\
    when_given (lo_client options) (client row) = true /\
    when_given (Some (lo_walletAddressId options)) (Some (walletAddressId row)) = true) as Hrows.
  { intros row Hrow. destruct (getPage_elem _ _ _ _ _ row Hpage Hrow) as [Hin Hc].
    unfold page_clause in Hc. simpl in Hc. rewrite !andb_true_iff in Hc. tauto. }
  clear - H2 Hrows. induction H2 as [|row p rows page (a & w & n & ->) _ IH]; constructor.
  - exists row, a, w, n. split; [done|]. apply Hrows. left.
  - apply IH. intros row' Hrow'. apply Hrows. by right.
Qed.
End Reading.

(** ** Requests *)

Section Requests.
Context {X Y : Type} `{Uuid, !UuidLaws, AuthServer.Random, !AuthServer.RandomLaws} `{!ReceiverServices X}.
Context (deps : IncomingDeps X) (config : ReceiverConfig) (authServerGrantUrl : string).
#[local] Notation State := (Svc IncomingDb X).
Context (sleep : Z -> M State unit).
Context (pick : list IncomingPayment -> option IncomingPayment).
Context (introspect : string -> list AuthAccess.AccessItem -> M X AuthRoutes.TokenInfo).
Context {Key Request : Type} (kid : Key -> string).
Context (getKeyId : string -> option string) (validateSignature : Key -> Request -> M X bool).
Context (getKeys : string -> M X (list Key)).
Context (getOrPollByUrl : string -> M X (option WalletAddress)).
Implicit Types s : State.

(** The authorization server is one of the other services, the introspection client answers
    what it answers, and finding a payment does not change it. *)
Context (auth : X -> Svc AuthServer.AuthDb Y).
Context (introspect_answers : forall token access x info x',
  introspect token access x = (Ret info, x') ->
  (AuthRoutes.introspectToken token (Some access) (auth x)).1 = Ret info).
Context (auth_wallet : forall i t x, auth (walletAddress_get deps i t x).2 = auth x)
        (auth_asset : forall i x, auth (asset_get deps i x).2 = auth x)
        (auth_total : forall i x, auth (getTotalReceived (accountingService deps) i x).2 = auth x).

(** At the authorization server there is a live token of a grant that is not revoked, with an
    access for the action and the wallet address; its client is the one of the request. *)
Definition granted (server : Svc AuthServer.AuthDb Y) (action url : string) (ctx : Authorization) : Prop :=
  exists t g a,
    t ∈ AuthServer.accessTokens (db server) /\ AuthServer.revokedAt t = None /\
    AuthServer.isTokenExpired (now server) t = false /\
    g ∈ AuthServer.grants (db server) /\ AuthServer.id g = AuthServer.t_grantId t /\
    AuthServer.isRevokedGrant g = false /\ OpenPaymentsAuth.client ctx = AuthServer.client g /\
    a ∈ AuthServer.access_of (AuthServer.id g) (db server) /\
    AuthAccess.covers (AuthAccess.toOpenPaymentsAccess a) (request_access "incoming-payment" action url) /\
    accessAction ctx = action_of action (AuthAccess.toOpenPaymentsAccess a).

Lemma authorize_granted action authorization url x ctx x' :
  action <> "" ->
  authorize introspect "incoming-payment" action authorization url x = (Ret ctx, x') ->
  granted (auth x) action url ctx.
Proof.
  intros Hne Ha. apply authorize_spec in Ha as (token & gid & access & c & g' & _ & Hi & Hg & ->).
  apply introspect_answers, AuthSpecs.introspect_active in Hi as
    (t & g & Ht & _ & Hlive & Hexp & Hgr & Eid & Hnr & -> & -> & Hitems).
  destruct (AuthSpecs.found_access_spec [request_access "incoming-payment" action url]
    (AuthServer.access_of (AuthServer.id g) (db (auth x)))) as [Hfound _].
  { intros r ->%list_elem_of_singleton. simpl. intros Hin%list_elem_of_singleton. by apply Hne. }
  assert (access ∈ map AuthAccess.toOpenPaymentsAccess
    (AuthServer.found_access [request_access "incoming-payment" action url]
      (AuthServer.access_of (AuthServer.id g) (db (auth x))))) as (a & -> & Ha)%list_elem_of_fmap
    by (rewrite <- Hitems; by left).
  destruct (Hfound a Ha) as (Hin & r & ->%list_elem_of_singleton & Hcov).
  exists t, g, a. by split_and!.
Qed.

(** The client signed the request with one of its keys. *)
Definition signed (c : string) (request : Request) : Prop :=
  exists key keys x1 x1' x2 x2', getKeys c x1 = (Ret keys, x1') /\ key ∈ keys /\
    validateSignature key request x2 = (Ret true, x2').

Lemma httpsig_signed signatureInput c request x x' :
  throwIfSignatureInvalid kid getKeyId validateSignature getKeys signatureInput c request x = (Ret tt, x') ->
  signed c request.
Proof.
  unfold throwIfSignatureInvalid. destruct (match signatureInput with Some h => _ | None => None end) as [keyId|]; [|done].
  destruct (negb (truthy keyId)); [done|]. unfold bind at 1, try_catch at 1.
  destruct (getKeys c x) as [[keys|e] x1] eqn:Hkeys; [|done].
  destruct (List.find _ keys) as [key|] eqn:Hkey; [|done]. apply List.find_some in Hkey as [Hin _].
  unfold bind, try_catch. destruct (validateSignature key request x1) as [[[]|e] x2] eqn:Hvalid; [|done..].
  intros _. exists key, keys, x, x1, x1, x2. split; [done|]. split; [by apply list_elem_of_In|done].
Qed.

(** The wallet address of a URL, as it was answered. *)
Definition wallet_at (url : string) (w : WalletAddress) : Prop :=
  exists x x', getOrPollByUrl url x = (Ret (Some w), x').

(** The middlewares between the URL and the route. *)
Lemma middlewares_spec action authorization signatureInput url request {A}
    (k : Authorization -> WalletAddress -> M State A) (Q : outcome A -> State -> Prop) s :
  action <> "" ->
  (forall e s', db s' = db s -> Q (Throw e) s') ->
  (forall ctx w s', granted (auth (ext s)) action url ctx -> signed (OpenPaymentsAuth.client ctx) request ->
     wallet_at url w -> reads s s' -> wp (k ctx w) Q s') ->
  wp (let! ctx := lift (authorize introspect "incoming-payment" action authorization url) in
      httpsig kid getKeyId validateSignature getKeys signatureInput ctx request ;;!
      let! w := subresource_wallet_address getOrPollByUrl url in
      k ctx w)%ts Q s.
Proof.
  intros Hne Hthrow Hk. do 2 wp_step; [|by apply Hthrow]. apply authorize_granted in Hcall; [|done].
  unfold httpsig, httpsigMiddleware. do 2 wp_step; [|by apply Hthrow]. destruct a0. apply httpsig_signed in Hcall0.
  unfold subresource_wallet_address. do 4 wp_step; [|by apply Hthrow].
  apply OutgoingRoutes.subresource_wallet in Hcall1. apply Hk; [done|done|by eexists _, _|done].
Qed.

(** *** Listing *)

(** A token for one's own payments shows no other client's. *)
Definition may_see (own : string) (ctx : Authorization) (row : IncomingPayment) : Prop :=
  accessAction ctx = own -> OpenPaymentsAuth.client ctx <> "" ->
  client row = Some (OpenPaymentsAuth.client ctx).

Lemma may_see_given own ctx row :
  when_given (if bool_decide (accessAction ctx = own) then Some (OpenPaymentsAuth.client ctx) else None)
    (client row) = true -> may_see own ctx row.
Proof.
  intros Hc Ha Hne. rewrite bool_decide_true in Hc by done. unfold when_given in Hc.
  assert (truthy (OpenPaymentsAuth.client ctx) = true) as Ht by (unfold truthy, truthy_string; by rewrite bool_decide_false).
  rewrite Ht in Hc. by apply bool_decide_eq_true in Hc.
Qed.

Lemma given_same (a b : string) : when_given (Some a) (Some b) = true -> a <> "" -> b = a.
Proof.
  unfold when_given. intros Hc Hne.
  assert (truthy a = true) as Ht by (unfold truthy, truthy_string; by rewrite bool_decide_false).
  rewrite Ht in Hc. apply bool_decide_eq_true in Hc. by injection Hc.
Qed.

(** What is listed is a payment of the wallet address and the tenant that the client may see. *)
Definition listed (tenantId : string) (w : WalletAddress) (ctx : Authorization) (rows : list IncomingPayment)
    (b : OpenPaymentsIncomingPayment) : Prop :=
  exists row, row ∈ rows /\ op_id b = getUrl (receiver_openPaymentsUrl config) row /\ op_methods b = [] /\
    (wa_id w <> "" -> walletAddressId row = wa_id w) /\
    (tenantId <> "" -> IncomingPayment.tenantId row = tenantId) /\ may_see "list" ctx row.

Lemma bodies_spec w (P : string -> Prop) page s :
  Forall (fun p => P (getUrl (receiver_openPaymentsUrl config) p)) page ->
  wp (mapM (toOpenPaymentsType (X := X) (receiver_openPaymentsUrl config) w) page)
    (fun r s' => s' = s /\
       match r with Ret l => Forall (fun b => P (op_id b) /\ op_methods b = []) l | Throw _ => True end) s.
Proof.
  induction 1 as [|p page Hp _ IH]; cbn [mapM]; [by wp_step|].
  wp_step. unfold toOpenPaymentsType at 1. eapply wp_mono; [apply body_spec|].
  intros [b|e] ? [-> Hb]; [|done]. destruct Hb as (Hid & _ & _ & _ & Hm). wp_step.
  eapply wp_mono; [exact IH|]. intros [l|e] ? [-> Hl]; [|done]. wp_step. split; [done|].
  constructor; [|done]. by rewrite Hid.
Qed.

Lemma page_info_spec fetch page wa s :
  (forall pagination s1, wp (fetch pagination) (fun _ s2 => reads s1 s2) s1) ->
  wp (page_info (X := X) fetch page wa) (fun _ s' => reads s s') s.
Proof.
  intros Hfetch. unfold page_info. destruct page as [|f page]; [by wp_step|]. cbv zeta.
  wp_step. wp_step. eapply wp_mono; [apply Hfetch|].
  intros r1 s1 Hr1.
  assert (forall next, wp (let! hasPreviousPage := try_catch
        (fetch {| Pagination.walletAddress := wa; Pagination.first := None; Pagination.last := Some 1;
                  Pagination.before := Some (id f); Pagination.after := None |}) (fun _ => ret []) in
      ret {| Pagination.startCursor := Some (id f); Pagination.endCursor := Some (id (List.last (f :: page) f));
             Pagination.hasNextPage := (List.length (next : list IncomingPayment) =? 1)%nat;
             Pagination.hasPreviousPage := (List.length hasPreviousPage =? 1)%nat |})%ts (fun _ s' => reads s s') s1) as Hrest.
  { intros next. wp_step. wp_step. eapply wp_mono; [apply Hfetch|].
    intros [l|e] s2 Hr2; wp_auto; (eapply incoming_reads_trans; [exact Hr1|exact Hr2]). }
  destruct r1 as [l|e]; [exact (Hrest l)|]. wp_step. exact (Hrest []).
Qed.

Lemma list_spec tenantId w ctx query s :
  wp (listIncomingPayments deps config tenantId w ctx query)
    (fun r s' => db s' = db s /\
       match r with Ret b => Forall (listed tenantId w ctx (payments (db s))) (lb_result b) | Throw _ => True end) s.
Proof.
  unfold listIncomingPayments, listSubresource. wp_step; [by unfold route_error; wp_step|].
  wp_step; [by unfold route_error; wp_step|]. cbv zeta. wp_step.
  eapply wp_mono; [apply page_spec|]. simpl. intros [page|e] s1 [(Hd1 & _) Hpage]; [|done]. wp_step.
  eapply wp_mono; [apply page_info_spec; intros pagination s2; eapply wp_mono; [apply page_spec|]; by intros r s3 [Hr _]|].
  intros [info|e] s2 (Hd2 & _); [|by split; [congruence|]]. wp_step.
  eapply wp_mono; [apply (bodies_spec w (fun u => exists row, row ∈ payments (db s) /\
      u = getUrl (receiver_openPaymentsUrl config) row /\ (wa_id w <> "" -> walletAddressId row = wa_id w) /\
      (tenantId <> "" -> IncomingPayment.tenantId row = tenantId) /\ may_see "list" ctx row))|].
  - eapply Forall_impl; [exact Hpage|]. intros p (row & a & w' & n & -> & Hin & Ht & Hc & Hw).
    exists row. split; [done|]. split; [done|]. split; [by apply given_same|].
    split; [by apply given_same|by apply may_see_given].
  - intros [l|e] ? [-> Hl]; [|by split; [congruence|]]. wp_step. split; [congruence|]. simpl.
    eapply Forall_impl; [exact Hl|]. intros b [(row & Hin & Hid & Hw & Ht & Hc) Hm]. by exists row.
Qed.

(** *** Reading and completing *)

Lemma url_spec tenantId pid s :
  wp (getWalletAddressUrlFromIncomingPayment deps tenantId pid)
    (fun r s' => reads s s' /\ auth (ext s') = auth (ext s) /\
       match r with
       | Ret url => exists row w, row ∈ payments (db s) /\ id row = pid /\ wallet_of deps row w /\ url = wa_address w
       | Throw _ => True
       end) s.
Proof.
  unfold getWalletAddressUrlFromIncomingPayment, route_error. wp_step.
  eapply wp_mono; [by apply (get_spec deps auth)|]. intros [[p|]|e] s1 (Hr & Ha & Hp); [|by wp_step|done].
  destruct Hp as (row & Hin & Hid & _ & a & w & n & -> & Hw). simpl. destruct w as [w|]; wp_step; [|done].
  split; [done|]. split; [done|]. exists row, w. split_and!; [done..|by apply Hw|done].
Qed.

Lemma read_spec tenantId pid w ctx s :
  wp (getIncomingPaymentPrivate deps config tenantId pid w (Some ctx))
    (fun r s' => db s' = db s /\
       match r with
       | Ret b => exists row, row ∈ payments (db s) /\ id row = pid /\
           op_id b = getUrl (receiver_openPaymentsUrl config) row /\ may_see "read" ctx row
       | Throw _ => True
       end) s.
Proof.
  unfold getIncomingPaymentPrivate, route_error. wp_step.
  eapply wp_mono; [by apply (get_spec deps auth)|]. intros [[p|]|e] s1 ((Hd & _) & _ & Hp); [|by wp_step|done].
  destruct Hp as (row & Hin & Hid & Hc & a & w' & n & -> & _). wp_step.
  assert (forall methods s2, db s2 = db s -> wp (toOpenPaymentsTypeWithMethods (receiver_openPaymentsUrl config) w
      methods (attach (Some a) w' n row)) (fun r s' => db s' = db s /\
       match r with
       | Ret b => exists row, row ∈ payments (db s) /\ id row = pid /\
           op_id b = getUrl (receiver_openPaymentsUrl config) row /\ may_see "read" ctx row
       | Throw _ => True
       end) s2) as Hbody.
  { intros methods s2 Hd2. eapply wp_mono; [apply body_spec|]. intros [b|e] ? [-> Hb]; [|done].
    split; [done|]. exists row. split_and!; [done|done|by destruct Hb|by apply may_see_given]. }
  destruct (isExpiredOrComplete _); [wp_step; by apply Hbody|].
  eapply wp_mono; [apply getPaymentMethods_spec|]. intros [methods|e] s2 (Hd2 & _); [apply Hbody|split; [|done]]; congruence.
Qed.

Lemma public_spec tenantId pid ctx s :
  wp (getIncomingPaymentPublic deps authServerGrantUrl tenantId pid ctx) (fun _ s' => db s' = db s) s.
Proof.
  unfold getIncomingPaymentPublic, route_error, toPublicOpenPaymentsType, receivedAmount, the_asset. wp_step.
  eapply wp_mono; [by apply (get_spec deps auth)|]. intros [[p|]|e] s1 ((Hd & _) & _); wp_auto; done.
Qed.

(** What a read is answered with. *)
Definition read_ok (server : Svc AuthServer.AuthDb Y) (pid : string) (authorization : option string)
    (request : Request) (rows : list IncomingPayment) (body : ReadBody) : Prop :=
  match body with
  | PublicBody _ => truthy authorization = false
  | PrivateBody b => exists row ctx w, row ∈ rows /\ id row = pid /\ wallet_of deps row w /\
      granted server "read" (wa_address w) ctx /\ signed (OpenPaymentsAuth.client ctx) request /\
      op_id b = getUrl (receiver_openPaymentsUrl config) row /\ may_see "read" ctx row
  end.

Lemma get_request_spec tenantId pid authorization signatureInput request s :
  NoDup (id <$> payments (db s)) ->
  wp (getIncomingPaymentRequest deps config authServerGrantUrl introspect kid getKeyId validateSignature getKeys
        getOrPollByUrl tenantId pid authorization signatureInput request)
    (fun r s' => db s' = db s /\
       match r with
       | Ret body => read_ok (auth (ext s)) pid authorization request (payments (db s)) body
       | Throw _ => True
       end) s.
Proof.
  intros Hids. unfold getIncomingPaymentRequest. wp_step. eapply wp_mono; [apply url_spec|].
  intros [url|e] s1 ((Hd1 & _) & Ha1 & Hurl); [|done]. destruct Hurl as (row & w & Hin & Hid & Hw & ->).
  unfold createTokenIntrospectionMiddleware, authenticatedStatusMiddleware, subresource_wallet_address,
    getIncomingPaymentRoute.
  destruct (truthy authorization) eqn:Hauth; simpl.
  - do 2 wp_step; [|done]. unfold bind in Hcall.
    match type of Hcall with context [authorize ?i ?t ?a ?b ?u ?x] =>
      destruct (authorize i t a b u x) as [[ctx|e] x1] eqn:Hctx; [|done] end.
    injection Hcall as <- <-. apply authorize_granted in Hctx; [|done]. rewrite Ha1 in Hctx.
    do 2 wp_step; [|done]. unfold bind in Hcall.
    match type of Hcall with context [throwIfSignatureInvalid ?a ?b ?c ?d ?e ?f ?g ?x] =>
      destruct (throwIfSignatureInvalid a b c d e f g x) as [[[]|err] x2] eqn:Hsig; [|done] end.
    injection Hcall as <- <-. apply httpsig_signed in Hsig.
    do 4 wp_step; [|done]. wp_step. eapply wp_mono; [apply read_spec|].
    intros [b|e] s2 [Hd2 Hb]; (simpl in Hd2; rewrite Hd1 in Hd2); [|done]. wp_step. split; [done|].
    destruct Hb as (row' & Hin' & Hid' & Hop & Hsee). simpl in Hin'. rewrite Hd1 in Hin'.
    assert (row' = row) as -> by (apply (unique_key id (payments (db s))); congruence).
    exists row, ctx, w. by split_and!.
  - do 2 wp_step; [|injection Hcall as E _; discriminate E]. injection Hcall as <- <-.
    do 2 wp_step; [|injection Hcall as E _; discriminate E]. injection Hcall as <- <-.
    do 4 wp_step; [|done]. wp_step. eapply wp_mono; [apply public_spec|].
    intros [b|e] s2 Hd2; (simpl in Hd2; rewrite Hd1 in Hd2); [|done]. by wp_step.
Qed.

(** What a completion does. *)
Definition completion_ok (server : Svc AuthServer.AuthDb Y) (tenantId pid : string) (request : Request)
    (s s' : State) (b : OpenPaymentsIncomingPayment) : Prop :=
  exists row ctx w, row ∈ payments (db s) /\ id row = pid /\ wallet_of deps row w /\
    granted server "complete" (wa_address w) ctx /\ signed (OpenPaymentsAuth.client ctx) request /\
    (tenantId <> "" -> IncomingPayment.tenantId row = tenantId) /\ isExpiredOrComplete row = false /\
    payments (db s') = update_where (fun q => bool_decide (id q = pid))
      (set_state Completed (Some (now s)) (now s)) (payments (db s)) /\
    op_id b = getUrl (receiver_openPaymentsUrl config) row /\ op_completed b = true.

Lemma complete_request_spec tenantId pid authorization signatureInput request s :
  NoDup (id <$> payments (db s)) ->
  wp (completeIncomingPaymentRequest deps config introspect kid getKeyId validateSignature getKeys
        getOrPollByUrl tenantId pid authorization signatureInput request)
    (fun r s' => match r with
       | Ret b => completion_ok (auth (ext s)) tenantId pid request s s' b
       | Throw _ => True
       end) s.
Proof.
  intros Hids. unfold completeIncomingPaymentRequest. wp_step. eapply wp_mono; [apply url_spec|].
  intros [url|e] s1 ((Hd1 & Hn1 & _) & Ha1 & Hurl); [|done]. destruct Hurl as (row & w & Hin & Hid & Hw & ->).
  apply (middlewares_spec "complete" authorization signatureInput (wa_address w) request); [done|done|].
  intros ctx w' s2 Hg Hs _ (Hd2 & Hn2 & _). rewrite Ha1 in Hg. unfold completeIncomingPaymentRoute, incoming_error, route_error.
  wp_step. eapply wp_mono; [apply complete_exact|]. intros [[p|e]|e] s3 Hp; [|by wp_step|done].
  destruct Hp as (row' & Hin' & Hid' & Ht & Hopen & Hrows & Hpid & Hpt & Hpc).
  rewrite Hd2, Hd1 in Hin', Hrows. rewrite Hn2, Hn1 in Hrows.
  assert (row' = row) as -> by (apply (unique_key id (payments (db s))); congruence).
  unfold toOpenPaymentsType. eapply wp_mono; [apply body_spec|]. intros [b|e] ? [-> Hb]; [|done].
  destruct Hb as (Hop & _ & Hcompl & _). exists row, ctx, w. split_and!; try done.
  - by apply given_same.
  - rewrite Hop. unfold getUrl. by rewrite Hpt, Hpid, Hid'.
  - congruence.
Qed.

(** *** Creating *)

(** What a creation does: one row, of the client, the wallet address and the tenant; what
    follows when it waits for the approval is anything. *)
Definition creation_ok (server : Svc AuthServer.AuthDb Y) (tenantId : string) (request : Request)
    (body : IncomingCreateBody) (s s' : State) : Prop :=
  exists row ctx w s1, granted server "create" (ib_walletAddress body) ctx /\
    signed (OpenPaymentsAuth.client ctx) request /\ wallet_at (ib_walletAddress body) w /\
    payments (db s1) = (payments (db s) ++ [row])%list /\ id row ∉ (id <$> payments (db s)) /\
    client row = Some (OpenPaymentsAuth.client ctx) /\ walletAddressId row = wa_id w /\
    IncomingPayment.tenantId row = tenantId /\ state row = Pending /\
    (pollIncomingPaymentCreatedWebhook deps = false -> db s' = db s1).

Lemma post_spec tenantId authorization signatureInput request body s :
  wp (postIncomingPayment deps config sleep pick introspect kid getKeyId validateSignature getKeys getOrPollByUrl
        tenantId authorization signatureInput request body)
    (fun r s' => match r with
       | Ret _ => creation_ok (auth (ext s)) tenantId request body s s'
       | Throw _ => True
       end) s.
Proof.
  unfold postIncomingPayment. apply middlewares_spec; [done|done|].
  intros ctx w s1 Hg Hs Hw (Hd1 & _). unfold createIncomingPaymentRoute, createIncomingPayment, incoming_error, route_error.
  wp_step. apply wp_call. intros [amount|e] s2 Hamount; [|done].
  assert (s2 = s1) as ->.
  { destruct (ib_incomingAmount body) as [a|]; [|by injection Hamount].
    unfold bind, of_outcome in Hamount. destruct (parseAmount a); by injection Hamount. }
  clear Hamount. do 2 wp_step. eapply wp_mono; [apply (insertIncomingPayment_spec _ None)|].
  intros [[p|e]|e] s2 [_ Hp]; [|by wp_auto|done].
  destruct Hp as (row & w' & e & Hrow & Hid & Hfresh & Hrows & _).
  unfold rows in Hrows, Hfresh. rewrite Hd1 in Hrows, Hfresh.
  destruct Hrow as [[Hst _] (Ht & Hwid & Hcl) _ _ _]. simpl in Ht, Hwid, Hcl.
  assert (forall s', (pollIncomingPaymentCreatedWebhook deps = false -> db s' = db s2) ->
    creation_ok (auth (ext s)) tenantId request body s s') as Hok.
  { intros s' Hs'. exists row, ctx, w, s2. by split_and!. }
  destruct (pollIncomingPaymentCreatedWebhook deps) eqn:Hpoll.
  - apply wp_call. intros [[p'|err]|err] s3 _; [|by wp_step|done]. apply wp_call. intros [b|err] s4 _; [|done]. by apply Hok.
  - do 2 wp_step. eapply wp_mono; [apply getPaymentMethods_spec|]. intros [methods|err] s3 (Hd3 & _); [|done].
    eapply wp_mono; [apply body_spec|]. intros [b|err] ? [-> _]; [|done]. by apply Hok.
Qed.

(** *** Any request *)

Inductive IncomingRequest :=
| PostPayment (body : IncomingCreateBody)
| ListPayments (query : ListQuery)
| GetPayment (pid : string)
| CompletePayment (pid : string).
Inductive IncomingResponse :=
| Written (b : OpenPaymentsIncomingPayment)
| Listed (l : ListBody)
| ReadResponse (b : ReadBody).

Definition handle (tenantId : string) (authorization signatureInput : option string) (request : Request)
    (r : IncomingRequest) : M State IncomingResponse :=
  match r with
  | PostPayment body =>
      let! b := postIncomingPayment deps config sleep pick introspect kid getKeyId validateSignature getKeys
                  getOrPollByUrl tenantId authorization signatureInput request body in ret (Written b)
  | ListPayments query =>
      let! l := listIncomingPaymentsRequest deps config introspect kid getKeyId validateSignature getKeys
                  getOrPollByUrl tenantId authorization signatureInput request query in ret (Listed l)
  | GetPayment pid =>
      let! b := getIncomingPaymentRequest deps config authServerGrantUrl introspect kid getKeyId validateSignature
                  getKeys getOrPollByUrl tenantId pid authorization signatureInput request in ret (ReadResponse b)
  | CompletePayment pid =>
      let! b := completeIncomingPaymentRequest deps config introspect kid getKeyId validateSignature getKeys
                  getOrPollByUrl tenantId pid authorization signatureInput request in ret (Written b)
  end.

(** C4. A request about incoming payments needs a grant for it, across the two servers.  A
    request is answered with success only if, at the authorization server, there is a live token
    of a grant that is not revoked, with an access for what is asked and for the wallet address,
    whose client signed the request; the one exception is reading without a token, which tells
    what was received and no more.  A creation adds one payment, of that client and that wallet
    address; a completion completes the one open payment it names, and nothing else; what is
    read or listed are payments of the wallet address, and of no other client unless the access
    is for all. *)
Theorem incoming_requests_need_grant tenantId authorization signatureInput request r s response s' :
  NoDup (id <$> payments (db s)) ->
  handle tenantId authorization signatureInput request r s = (Ret response, s') ->
  match r, response with
  | PostPayment body, Written _ => creation_ok (auth (ext s)) tenantId request body s s'
  | ListPayments query, Listed l => db s' = db s /\
      exists ctx w, granted (auth (ext s)) "list" (lq_walletAddress query) ctx /\
        signed (OpenPaymentsAuth.client ctx) request /\ wallet_at (lq_walletAddress query) w /\
        Forall (listed tenantId w ctx (payments (db s))) (lb_result l)
  | GetPayment pid, ReadResponse body => db s' = db s /\
      read_ok (auth (ext s)) pid authorization request (payments (db s)) body
  | CompletePayment pid, Written b => completion_ok (auth (ext s)) tenantId pid request s s' b
  | _, _ => False
  end.
Proof.
  intros Hids Hrun. destruct r as [body|query|pid|pid]; simpl in Hrun.
  - eapply (wp_run _ (fun r s' => match r with Ret (Written _) => creation_ok (auth (ext s)) tenantId request body s s'
      | Ret _ => False | Throw _ => True end)) in Hrun; [by destruct response|].
    wp_step. eapply wp_mono; [apply post_spec|]. intros [b|e] s1 Hs1; [by wp_step|done].
  - eapply (wp_run _ (fun r s' => match r with Ret (Listed l) => db s' = db s /\
      exists ctx w, granted (auth (ext s)) "list" (lq_walletAddress query) ctx /\
        signed (OpenPaymentsAuth.client ctx) request /\ wallet_at (lq_walletAddress query) w /\
        Forall (listed tenantId w ctx (payments (db s))) (lb_result l)
      | Ret _ => False | Throw _ => True end)) in Hrun; [by destruct response|].
    wp_step. unfold listIncomingPaymentsRequest. apply middlewares_spec; [done|done|].
    intros ctx w s1 Hg Hs Hw (Hd1 & _). eapply wp_mono; [apply list_spec|].
    intros [l|e] s2 [Hd2 Hl]; [|done]. rewrite Hd1 in Hd2, Hl. wp_step. split; [done|]. by exists ctx, w.
  - eapply (wp_run _ (fun r s' => match r with Ret (ReadResponse body) => db s' = db s /\
      read_ok (auth (ext s)) pid authorization request (payments (db s)) body
      | Ret _ => False | Throw _ => True end)) in Hrun; [by destruct response|].
    wp_step. eapply wp_mono; [by apply get_request_spec|]. intros [b|e] s1 Hs1; [by wp_step|done].
  - eapply (wp_run _ (fun r s' => match r with Ret (Written b) => completion_ok (auth (ext s)) tenantId pid request s s' b
      | Ret _ => False | Throw _ => True end)) in Hrun; [by destruct response|].
    wp_step. eapply wp_mono; [by apply complete_request_spec|]. intros [b|e] s1 Hs1; [by wp_step|done].
Qed.
End Requests.

Module RouteExample.
Export ConcreteUuid.
#[export] Existing Instance AuthExamples.Example.random.
#[export] Existing Instance AuthExamples.Example.random_laws.

(** Two clients get a token each, at once. *)
Definition item : AuthAccess.AccessItem :=
  {| AuthAccess.type := "incoming-payment"; AuthAccess.actions := ["create"; "read"; "list"; "complete"]; AuthAccess.identifier := None; AuthAccess.limits := None |}.
Definition ask_for (c : string) : AuthAccess.GrantRequest :=
  {| AuthAccess.access_token := Some [item]; AuthAccess.gr_client := c; AuthAccess.interact := None; AuthAccess.subject := None |}.
Definition asks (c : string) (s : Svc AuthServer.AuthDb unit) : Svc AuthServer.AuthDb unit :=
  (AuthRoutes.createGrant AuthExamples.Example.config AuthExamples.Example.isUrl AuthExamples.Example.wallet_get
     (Some "tenant") (ask_for c) s).2.
Definition server : Svc AuthServer.AuthDb unit := asks "https://mallory" (asks "https://alice" AuthExamples.Example.start).
Definition token_of (n : nat) : option string :=
  (fun t => "GNAP " ++ AuthServer.value t) <$> (AuthServer.accessTokens (db server) !! n).
Definition alice : option string := token_of 0.
Definition mallory : option string := token_of 1.

Definition Ledger : Type := IncomingExamples.Example.Ledger.
Definition deps : IncomingDeps Ledger :=
  {| incomingPaymentExpiryMaxMs := 10000; pollIncomingPaymentCreatedWebhook := false;
     incomingPaymentCreatedPollFrequency := 10; incomingPaymentCreatedPollTimeout := 50;
     webhookConfig := webhookConfig IncomingExamples.Example.deps;
     accountingService := IncomingExamples.Example.accounting;
     walletAddress_get _ _ := ret (Some IncomingExamples.Example.wallet);
     asset_get _ := ret (Some (wa_asset IncomingExamples.Example.wallet)) |}.
#[export] Existing Instance RemoteExamples.ReceiverExample.services.

Definition introspection (token : string) (access : list AuthAccess.AccessItem) : M Ledger AuthRoutes.TokenInfo :=
  fun x => ((AuthRoutes.introspectToken token (Some access) server).1, x).
Definition getOrPollByUrl (url : string) : M Ledger (option WalletAddress) :=
  ret (if bool_decide (url = "https://host/w") then Some IncomingExamples.Example.wallet else None).

Definition validateSignature (_ request : string) : M Ledger bool := ret (bool_decide (request = "signed")).
Definition getKeys (_ : string) : M Ledger (list string) := ret ["key"].

Definition run (authorization : option string) (r : IncomingRequest) : M (Svc IncomingDb Ledger) IncomingResponse :=
  handle deps RemoteExamples.ReceiverExample.config "https://auth" (fun _ => ret tt) IncomingExamples.Example.pick
    introspection (fun key => key) Some validateSignature getKeys getOrPollByUrl "tenant" authorization (Some "key") "signed" r.

Lemma run_handle authorization r :
  run authorization r = handle deps RemoteExamples.ReceiverExample.config "https://auth" (fun _ => ret tt)
    IncomingExamples.Example.pick introspection (fun key => key) Some validateSignature getKeys getOrPollByUrl
    "tenant" authorization (Some "key") "signed" r.
Proof. reflexivity. Qed.

Definition invoice : IncomingCreateBody :=
  {| ib_walletAddress := "https://host/w"; ib_expiresAt := None;
     ib_incomingAmount := Some {| json_value := "100"; json_assetCode := "USD"; json_assetScale := 2 |};
     ib_metadata := None |}.
Definition all_of_wallet : ListQuery :=
  {| lq_walletAddress := "https://host/w"; lq_first := None; lq_last := None; lq_cursor := None |}.
Definition empty : Svc IncomingDb Ledger := IncomingExamples.Example.empty.
Definition created : Svc IncomingDb Ledger := (run alice (PostPayment invoice) empty).2.
Definition pid : string := v4 0.

Definition listed_ids (r : outcome IncomingResponse) : option nat :=
  match r with Ret (Listed l) => Some (List.length (lb_result l)) | _ => None end.
Definition status (r : outcome IncomingResponse) : Z :=
  match r with Throw (OpenPaymentsServerRouteError n _) => n | Throw _ => 500 | Ret _ => 200 end.

(** The payment of Alice is hers to list and to read, and not Mallory's. *)
Lemma reads_are_own :
  client <$> payments (db created) = [Some "https://alice"] /\
  listed_ids (run alice (ListPayments all_of_wallet) created).1 = Some 1%nat /\
  listed_ids (run mallory (ListPayments all_of_wallet) created).1 = Some 0%nat /\
  status (run alice (GetPayment pid) created).1 = 200 /\ status (run mallory (GetPayment pid) created).1 = 404 /\
  status (run None (PostPayment invoice) created).1 = 401.
Proof. by vm_compute. Qed.

(** But Mallory can complete it. *)
Lemma completes_others :
  status (run mallory (CompletePayment pid) created).1 = 200 /\
  state <$> payments (db (run mallory (CompletePayment pid) created).2) = [Completed].
Proof. by vm_compute. Qed.

Lemma created_ids : NoDup (id <$> payments (db created)).
Proof. apply (bool_decide_unpack _). vm_compute. exact I. Qed.
Lemma answers_introspection token access x info x' :
  introspection token access x = (Ret info, x') -> (AuthRoutes.introspectToken token (Some access) server).1 = Ret info.
Proof. unfold introspection. generalize (AuthRoutes.introspectToken token (Some access) server).1. by intros r [= -> _]. Qed.
Lemma alice_reads : exists b, (run alice (GetPayment pid) created).1 = Ret (ReadResponse b).
Proof. eexists. vm_compute. reflexivity. Qed.
End RouteExample.

#[local] Existing Instances ConcreteUuid.uuid ConcreteUuid.uuid_laws AuthExamples.Example.random
  AuthExamples.Example.random_laws RemoteExamples.ReceiverExample.services.

Lemma incoming_requests_need_grant_witness :
  exists response, (RouteExample.run RouteExample.alice (GetPayment RouteExample.pid) RouteExample.created).1
                   = Ret (ReadResponse response) /\
    read_ok RouteExample.deps RemoteExamples.ReceiverExample.config RouteExample.validateSignature
      RouteExample.getKeys RouteExample.server RouteExample.pid
      RouteExample.alice "signed" (payments (db RouteExample.created)) response.
Proof.
  destruct RouteExample.alice_reads as [b Hb].
  destruct (RouteExample.run RouteExample.alice (GetPayment RouteExample.pid) RouteExample.created) as [r s'] eqn:Hrun.
  simpl in Hb. subst r.
  exists b. split; [reflexivity|].
  pose proof (incoming_requests_need_grant RouteExample.deps RemoteExamples.ReceiverExample.config "https://auth"
    (fun _ => ret tt) IncomingExamples.Example.pick RouteExample.introspection (fun key => key) Some
    RouteExample.validateSignature RouteExample.getKeys RouteExample.getOrPollByUrl (fun _ => RouteExample.server)) as Hthm.
  rewrite RouteExample.run_handle in Hrun. apply Hthm in Hrun; [exact (proj2 Hrun)| | | | |exact RouteExample.created_ids].
  - exact RouteExample.answers_introspection.
  - intros i t x. reflexivity.
  - intros i x. reflexivity.
  - intros i x. reflexivity.
Defined.
