(* ===== verification/AutoPeering.v ===== *)
(** * AutoPeering: two nodes become peers of each other

    Models [ilp/auto-peering/{service,routes,errors}.ts] and the resolver
    [createOrUpdatePeerByUrl].  A node initiates with a request to the URL of another, which
    creates the peer, or updates the one it has at that address, and answers with its own
    details; the first node then does the same.  The peers are those of [Peers]; the assets,
    and [axios.post], are parameters; [serve] is what [axios.post] answers when the URL is the
    route of a node.  A JavaScript number is a double. *)

From Stdlib Require Import SpecFloat.
From S2P Require Import Prelude Shared Service OpenPayments Accounting JsNumber Peers.
From S2P Require Liquidity.

Local Open Scope Z_scope.
Local Open Scope ts_scope.

(** ** [errors.ts] *)

Module AutoPeeringError.
Inductive t :=
| InvalidIlpConfiguration
| InvalidPeerIlpConfiguration
| UnknownAsset
| PeerUnsupportedAsset
| InvalidPeerUrl
| InvalidPeeringRequest
| LiquidityError.

#[export] Instance eq_dec : EqDecision t.
Proof. solve_decision. Defined.

Definition value (e : t) : string :=
  match e with
  | InvalidIlpConfiguration => "InvalidIlpConfiguration"
  | InvalidPeerIlpConfiguration => "InvalidPeerIlpConfiguration"
  | UnknownAsset => "UnknownAsset"
  | PeerUnsupportedAsset => "PeerUnsupportedAsset"
  | InvalidPeerUrl => "InvalidPeerUrl"
  | InvalidPeeringRequest => "InvalidPeeringRequest"
  | LiquidityError => "LiquidityError"
  end.
End AutoPeeringError.

Definition peeringErrorToCode (e : AutoPeeringError.t) : Liquidity.GraphQLErrorCode :=
  match e with
  | AutoPeeringError.InvalidIlpConfiguration => Liquidity.BadUserInput
  | AutoPeeringError.InvalidPeerIlpConfiguration => Liquidity.InternalServerError
  | AutoPeeringError.UnknownAsset => Liquidity.NotFound
  | AutoPeeringError.PeerUnsupportedAsset => Liquidity.BadUserInput
  | AutoPeeringError.InvalidPeerUrl => Liquidity.NotFound
  | AutoPeeringError.InvalidPeeringRequest => Liquidity.BadUserInput
  | AutoPeeringError.LiquidityError => Liquidity.InternalServerError
  end.

Definition peeringErrorToMessage (e : AutoPeeringError.t) : string :=
  match e with
  | AutoPeeringError.InvalidIlpConfiguration => "The ILP configuration is misconfigured"
  | AutoPeeringError.InvalidPeerIlpConfiguration => "Requested peer's ILP configuration is misconfigured"
  | AutoPeeringError.UnknownAsset => "Unknown asset"
  | AutoPeeringError.PeerUnsupportedAsset => "Peer does not support asset"
  | AutoPeeringError.InvalidPeerUrl => "Peer URL is invalid or peer does not support auto-peering"
  | AutoPeeringError.InvalidPeeringRequest => "Invalid peering request"
  | AutoPeeringError.LiquidityError => "Could not deposit liquidity to peer"
  end.

Definition peeringErrorToHttpCode (e : AutoPeeringError.t) : Z :=
  match e with AutoPeeringError.UnknownAsset => 404 | _ => 400 end.

(** ** Data *)

Record PeeringDetails := {
  pd_staticIlpAddress : string;
  pd_ilpConnectorUrl : string;
  pd_httpToken : string;
  pd_name : string;
  pd_tenantId : string
}.

Record InitiatePeeringRequestArgs := {
  ip_peerUrl : string;
  ip_assetId : string;
  ip_name : option string;
  ip_maxPacketAmount : option Z;
  ip_liquidityToDeposit : option Z;
  ip_liquidityThreshold : option Z;
  ip_tenantId : string
}.

Record PeeringRequestArgs := {
  pr_staticIlpAddress : string;
  pr_ilpConnectorUrl : string;
  pr_asset : string * Z;
  pr_httpToken : string;
  pr_maxPacketAmount : option number;
  pr_name : option string
}.

Record UpdatePeerArgs := {
  ua_staticIlpAddress : string;
  ua_ilpConnectorUrl : string;
  ua_assetId : string;
  ua_incomingHttpToken : string;
  ua_outgoingHttpToken : string;
  ua_maxPacketAmount : option number;
  ua_name : option string;
  ua_tenantId : string
}.

(** What of the configuration is read. *)
Record IAppConfig := {
  ilpConnectorUrl : string;
  ilpAddress : string;
  instanceName : string;
  operatorTenantId : string
}.

(** What [axios.post] settles to: the data of an answer with a status from 200 to 299, an
    [AxiosError] with its code and the type of the error in the answer, or another error. *)
Inductive PeeringAnswer :=
| PeeringData (data : PeeringDetails)
| PeeringAxiosError (code errorType : option string)
| PeeringOtherError.

Class AutoPeeringServices (X : Type) := {
  (* [assetService.getAll()] *)
  assetService_getAll : M X (list Asset);
  (* [axios.post(url, args)] *)
  peering_post : string -> PeeringRequestArgs -> M X PeeringAnswer
}.

(** ** Numbers *)

(** Zero and NaN are falsy. *)
#[global] Instance truthy_number : Truthy number := fun x =>
  match x with S754_zero _ | S754_nan => false | _ => true end.

(** [BigInt(x)], which throws where [x] is not an integer. *)
Definition BigInt_of_number {S} (x : number) : M S Z :=
  match bigint_floor x, bigint_ceil x with
  | Some l, Some u => if l =? u then ret l else throw (JsError "RangeError" "")
  | _, _ => throw (JsError "RangeError" "")
  end.

(** [x ? BigInt(x) : undefined] *)
Definition optional_BigInt {S} (x : option number) : M S (option Z) :=
  match x with
  | Some x => if truthy x then let! z := BigInt_of_number x in ret (Some z) else ret None
  | None => ret None
  end.

(** [Number(x)] of a bigint that may be [undefined]. *)
Definition optional_Number (x : option Z) : number :=
  match x with Some z => of_bigint z | None => S754_nan end.

(** ** [service.ts] *)

Section AutoPeering.
Context {X : Type} `{Uuid} `{!PeerServices X} `{!AutoPeeringServices X}.
Context (config : IAppConfig).

Definition updateByAddress (args : UpdatePeerArgs) : M (PeerState (X := X)) (res PeerError Peer) :=
  let! peer := getPeerByDestinationAddress (ua_staticIlpAddress args) (ua_tenantId args) None
                 (Some (ua_assetId args)) in
  match peer with
  | None => ret (Err UnknownPeer)
  | Some peer =>
      let! maxPacketAmount := optional_BigInt (ua_maxPacketAmount args) in
      updatePeer {|
        up_id := p_id peer; up_maxPacketAmount := maxPacketAmount; up_name := ua_name args;
        up_http := Some {| h_incoming := Some [ua_incomingHttpToken args];
                           h_outgoing := {| authToken := ua_outgoingHttpToken args;
                                            endpoint := ua_ilpConnectorUrl args |} |};
        up_staticIlpAddress := None; up_liquidityThreshold := None; up_routes := None;
        up_tenantId := Some (ua_tenantId args) |}
  end.

Definition handlePeerError (e : PeerError) : AutoPeeringError.t :=
  match e with
  | InvalidHTTPEndpoint | InvalidStaticIlpAddress => AutoPeeringError.InvalidPeerIlpConfiguration
  | _ => AutoPeeringError.InvalidPeeringRequest
  end.

(** [create], and for an address that there is a peer at, [updatePeer]. *)
Definition createOrUpdate (options : CreatePeerOptions) (args : UpdatePeerArgs)
  : M (PeerState (X := X)) (res PeerError Peer) :=
  let! created := createPeer options in
  match created with
  | Err DuplicatePeer => updateByAddress args
  | _ => ret created
  end.

Definition sendPeeringRequest (peerUrl : string) (args : PeeringRequestArgs)
  : M (PeerState (X := X)) (res AutoPeeringError.t PeeringDetails) :=
  try_catch
    (let! answer := lift (peering_post peerUrl args) in
     match answer with
     | PeeringData data => ret (Ok data)
     | PeeringAxiosError code errorType =>
         if bool_decide (code = Some "ENOTFOUND"%string) || bool_decide (code = Some "ECONNREFUSED"%string)
         then ret (Err AutoPeeringError.InvalidPeerUrl)
         else if bool_decide (errorType = Some (AutoPeeringError.value AutoPeeringError.InvalidPeerIlpConfiguration))
         then ret (Err AutoPeeringError.InvalidIlpConfiguration)
         else if bool_decide (errorType = Some (AutoPeeringError.value AutoPeeringError.UnknownAsset))
         then ret (Err AutoPeeringError.PeerUnsupportedAsset)
         else ret (Err AutoPeeringError.InvalidPeeringRequest)
     | PeeringOtherError => ret (Err AutoPeeringError.InvalidPeeringRequest)
     end)
    (fun _ => ret (Err AutoPeeringError.InvalidPeeringRequest)).

Definition depositToPeer (peer : Peer) (amount : Z)
  : M (PeerState (X := X)) (res AutoPeeringError.t Peer) :=
  let! err := depositLiquidityById (p_id peer) amount None (Some (p_tenantId peer)) in
  match err with
  | Some _ => ret (Err AutoPeeringError.LiquidityError)
  | None => ret (Ok peer)
  end.

Definition request_of (args : InitiatePeeringRequestArgs) (asset : Asset) (outgoingHttpToken : string)
  : PeeringRequestArgs :=
  {| pr_ilpConnectorUrl := ilpConnectorUrl config; pr_staticIlpAddress := ilpAddress config;
     pr_asset := (a_code asset, a_scale asset); pr_httpToken := outgoingHttpToken;
     pr_maxPacketAmount := Some (optional_Number (ip_maxPacketAmount args));
     pr_name := Some (instanceName config) |}.

Definition initiated_peer (args : InitiatePeeringRequestArgs) (asset : Asset) (outgoingHttpToken : string)
    (details : PeeringDetails) : CreatePeerOptions :=
  {| cp_maxPacketAmount := ip_maxPacketAmount args;
     cp_name := Some (default (pd_name details) (ip_name args));
     cp_assetId := a_id asset; cp_liquidityThreshold := ip_liquidityThreshold args;
     cp_staticIlpAddress := pd_staticIlpAddress details;
     cp_http := {| h_incoming := Some [pd_httpToken details];
                   h_outgoing := {| authToken := outgoingHttpToken;
                                    endpoint := pd_ilpConnectorUrl details |} |};
     cp_initialLiquidity := None; cp_routes := None; cp_tenantId := Some (ip_tenantId args) |}.
Definition initiated_update (args : InitiatePeeringRequestArgs) (asset : Asset) (outgoingHttpToken : string)
    (details : PeeringDetails) : UpdatePeerArgs :=
  {| ua_maxPacketAmount := if truthy (ip_maxPacketAmount args) then of_bigint <$> ip_maxPacketAmount args
                           else None;
     ua_name := Some (default (pd_name details) (ip_name args));
     ua_staticIlpAddress := pd_staticIlpAddress details; ua_assetId := a_id asset;
     ua_outgoingHttpToken := outgoingHttpToken; ua_incomingHttpToken := pd_httpToken details;
     ua_ilpConnectorUrl := pd_ilpConnectorUrl details; ua_tenantId := ip_tenantId args |}.

Definition initiatePeeringRequest (args : InitiatePeeringRequestArgs)
  : M (PeerState (X := X)) (res AutoPeeringError.t Peer) :=
  let! asset := lift (assetService_get (ip_assetId args) None) in
  match asset with
  | None => ret (Err AutoPeeringError.UnknownAsset)
  | Some asset =>
      let! outgoingHttpToken := uuid in
      let! details := sendPeeringRequest (ip_peerUrl args) (request_of args asset outgoingHttpToken) in
      match details with
      | Err e => ret (Err e)
      | Ok details =>
          let! peerOrError := createOrUpdate (initiated_peer args asset outgoingHttpToken details)
                                (initiated_update args asset outgoingHttpToken details) in
          match peerOrError with
          | Err e => ret (Err (handlePeerError e))
          | Ok peer =>
              match ip_liquidityToDeposit args with
              | Some amount => if truthy amount then depositToPeer peer amount else ret (Ok peer)
              | None => ret (Ok peer)
              end
          end
      end
  end.

Definition accepted_peer (args : PeeringRequestArgs) (asset : Asset) (outgoingHttpToken : string)
    (maxPacketAmount : option Z) : CreatePeerOptions :=
  {| cp_maxPacketAmount := maxPacketAmount; cp_name := pr_name args;
     cp_staticIlpAddress := pr_staticIlpAddress args; cp_assetId := a_id asset;
     cp_http := {| h_incoming := Some [pr_httpToken args];
                   h_outgoing := {| authToken := outgoingHttpToken;
                                    endpoint := pr_ilpConnectorUrl args |} |};
     cp_initialLiquidity := Some Routing.MAX_SAFE_INTEGER; cp_liquidityThreshold := None;
     cp_routes := None; cp_tenantId := Some (operatorTenantId config) |}.
Definition accepted_update (args : PeeringRequestArgs) (asset : Asset) (outgoingHttpToken : string)
  : UpdatePeerArgs :=
  {| ua_maxPacketAmount := pr_maxPacketAmount args; ua_name := pr_name args;
     ua_staticIlpAddress := pr_staticIlpAddress args; ua_assetId := a_id asset;
     ua_outgoingHttpToken := outgoingHttpToken; ua_incomingHttpToken := pr_httpToken args;
     ua_ilpConnectorUrl := pr_ilpConnectorUrl args; ua_tenantId := operatorTenantId config |}.

(** The first asset of the code and scale. *)
Definition supported (args : PeeringRequestArgs) (assets : list Asset) : option Asset :=
  find_where (fun a => bool_decide (a_code a = (pr_asset args).1)
                       && bool_decide (a_scale a = (pr_asset args).2)) assets.

Definition details_of (peer : Peer) : M (PeerState (X := X)) PeeringDetails :=
  match peer_http peer with
  | Some outgoing =>
      ret {| pd_ilpConnectorUrl := ilpConnectorUrl config; pd_staticIlpAddress := ilpAddress config;
             pd_httpToken := authToken outgoing; pd_name := instanceName config;
             pd_tenantId := p_tenantId peer |}
  | None => throw (JsError "TypeError" "")
  end.

Definition acceptPeeringRequest (args : PeeringRequestArgs)
  : M (PeerState (X := X)) (res AutoPeeringError.t PeeringDetails) :=
  let! assets := lift assetService_getAll in
  match supported args assets with
  | None => ret (Err AutoPeeringError.UnknownAsset)
  | Some asset =>
      let! outgoingHttpToken := uuid in
      let! maxPacketAmount := optional_BigInt (pr_maxPacketAmount args) in
      let! peerOrError := createOrUpdate (accepted_peer args asset outgoingHttpToken maxPacketAmount)
                            (accepted_update args asset outgoingHttpToken) in
      match peerOrError with
      | Err e => ret (Err (handlePeerError e))
      | Ok peer => let! details := details_of peer in ret (Ok details)
      end
  end.

(** ** [routes.ts] *)

Record PeeringErrorBody := { eb_code : Z; eb_message : string; eb_type : string }.
Record PeeringResponse := { rs_status : Z; rs_body : PeeringErrorBody + PeeringDetails }.

Definition acceptPeerRequest (args : PeeringRequestArgs) : M (PeerState (X := X)) PeeringResponse :=
  let! detailsOrError := acceptPeeringRequest args in
  match detailsOrError with
  | Err e =>
      ret {| rs_status := peeringErrorToHttpCode e;
             rs_body := inl {| eb_code := peeringErrorToHttpCode e;
                               eb_message := peeringErrorToMessage e;
                               eb_type := AutoPeeringError.value e |} |}
  | Ok details => ret {| rs_status := 200; rs_body := inr details |}
  end.

(** ** The node behind a URL *)

(** [JSON.stringify] writes [null] for a number that is not finite. *)
Definition json_number (x : option number) : option number :=
  match x with
  | Some (S754_infinity _) | Some S754_nan | None => None
  | Some (S754_zero _) => Some (S754_zero false)
  | Some x => Some x
  end.
Definition json_request (args : PeeringRequestArgs) : PeeringRequestArgs :=
  {| pr_staticIlpAddress := pr_staticIlpAddress args; pr_ilpConnectorUrl := pr_ilpConnectorUrl args;
     pr_asset := pr_asset args; pr_httpToken := pr_httpToken args;
     pr_maxPacketAmount := json_number (pr_maxPacketAmount args); pr_name := pr_name args |}.

(** What [axios.post] settles to when the route of the node answers; koa answers an
    exception of a handler with status 500 and a text. *)
Definition serve (args : PeeringRequestArgs) : M (PeerState (X := X)) PeeringAnswer :=
  try_catch
    (let! response := acceptPeerRequest (json_request args) in
     if (200 <=? rs_status response) && (rs_status response <? 300)
     then match rs_body response with
          | inr details => ret (PeeringData details)
          | inl _ => ret PeeringOtherError
          end
     else match rs_body response with
          | inl error => ret (PeeringAxiosError (Some "ERR_BAD_REQUEST"%string) (Some (eb_type error)))
          | inr _ => ret (PeeringAxiosError (Some "ERR_BAD_REQUEST"%string) None)
          end)
    (fun _ => ret (PeeringAxiosError (Some "ERR_BAD_RESPONSE"%string) None)).

(** ** The resolver [createOrUpdatePeerByUrl] *)

Definition createOrUpdatePeerByUrl (args : InitiatePeeringRequestArgs)
  : M (PeerState (X := X)) (res Liquidity.GqlError Peer) :=
  let! peerOrError := initiatePeeringRequest args in
  match peerOrError with
  | Err e => ret (Err {| Liquidity.message := peeringErrorToMessage e;
                         Liquidity.code := peeringErrorToCode e |})
  | Ok peer => ret (Ok peer)
  end.
End AutoPeering.
