(* ===== verification/AutoPeeringSpecs.v ===== *)
(** * AutoPeeringSpecs: a peering that succeeds is mutual

    What a change of a peer does to the tables ([updatePeer_spec]), that every route leads to a
    peer of its asset over all histories ([routes_match_history]), and with them what a node has
    of the other after each half of an auto-peering ([accept_spec], [initiate_spec]).
    [RemoteNode] says that the URL a node posts to is the route of another node. *)

From Stdlib Require Import SpecFloat.
From S2P Require Import Prelude Shared Service Cache OpenPayments Accounting JsNumber Routing Peers PeerSpecs AutoPeering.
From S2P Require Text.

Local Open Scope Z_scope.
Local Open Scope ts_scope.

(** ** A change of a peer *)

Section Updates.
Context {X : Type} `{Uuid} `{!PeerServices X}.
Notation State := (PeerState (X := X)).
Implicit Types s : State.

Definition new_routes (options : UpdatePeerOptions) (existing : Peer) : option (list string) :=
  (fun routes => default (p_staticIlpAddress existing) (up_staticIlpAddress options) :: routes)
  <$> up_routes options.
Definition tokens_of_others (peerId : string) (t : list HttpToken) : list HttpToken :=
  List.filter (fun t => negb (bool_decide (ht_peerId t = peerId))) t.

(** A peer that was changed: its row, its tokens when new ones are given, and its routes. *)
Record peer_updated (options : UpdatePeerOptions) s s' (existing peer : Peer) : Prop := {
  pu_existing : existing ∈ peers (db s) /\ p_id existing = up_id options;
  pu_peer : exists a, peer = with_asset a (patched_peer options (new_routes options existing) existing);
  pu_rows : peers (db s') = update_where (fun p => bool_decide (p_id p = p_id existing))
              (patched_peer options (new_routes options existing)) (peers (db s));
  pu_tokens : match up_http options with
              | Some {| h_incoming := Some l |} =>
                  tokens_added (up_id options) l (tokens_of_others (up_id options) (httpTokens (db s)))
                    (httpTokens (db s'))
              | _ => httpTokens (db s') = httpTokens (db s)
              end;
  pu_routes : exists m, routes_removed existing (default [p_staticIlpAddress existing] (p_routes existing))
                          (routingTable (db s)) m /\
                        routes_added peer (addresses peer) m (routingTable (db s'))
}.

Lemma replace_tokens_spec options s (Q : outcome unit -> State -> Prop) :
  (forall r s1, now s1 = now s -> peers (db s1) = peers (db s) -> routingTable (db s1) = routingTable (db s) ->
     match r with
     | Ret _ => match up_http options with
                | Some {| h_incoming := Some l |} =>
                    tokens_added (up_id options) l (tokens_of_others (up_id options) (httpTokens (db s)))
                      (httpTokens (db s1))
                | _ => httpTokens (db s1) = httpTokens (db s)
                end
     | Throw _ => True
     end -> Q r s1) ->
  wp match up_http options with
     | Some {| h_incoming := Some authTokens |} =>
         deleteHttpTokensByPeer (up_id options) ;;!
         let! err := addIncomingHttpTokens (up_id options) authTokens in
         match err with Some err => throw_peer err | None => ret tt end
     | _ => ret tt
     end Q s.
Proof.
  intros HQ. destruct (up_http options) as [[[l|] out]|]; [|by apply wp_ret, HQ..].
  unfold deleteHttpTokensByPeer, set_tokens. do 3 wp_step.
  eapply wp_mono; [apply addIncomingHttpTokens_spec|]. svc_simpl.
  intros [[err|]|e] s1 (Hn & _ & Hd);
    [apply wp_throw|apply wp_ret; destruct Hd as (t & Hd & Ht)|]; apply HQ; rewrite ?Hd; try done.
Qed.

(** The asset service answers. *)
Definition assets_answer : Prop := forall id tenantId (x : X), exists a x',
  assetService_get id tenantId x = (Ret a, x').

Lemma patchPeer_effect options s :
  dated s -> lasting (routingTable (db s)) ->
  wp (patchPeer options)
    (fun r s' => match r with
       | Ret (Ok peer) => now s' = now s /\ exists existing, peer_updated options s s' existing peer
       | Ret (Err _) => db s' = db s
       | Throw _ => assets_answer -> routingTable (db s') = routingTable (db s)
       end) s.
Proof.
  intros Ht Hm. unfold patchPeer. do 2 wp_step.
  destruct (find_where _ _) as [existing|] eqn:Hfind; [|by wp_auto].
  apply find_where_Some in Hfind as [Hin Hid]. apply bool_decide_eq_true in Hid. wp_step.
  apply replace_tokens_spec. intros [u|e] s1 Hn1 Hp1 Hr1 Htok; [|done]. cbv zeta.
  fold (new_routes options existing). set (routes := new_routes options existing).
  unfold patch_peer, set_peers. do 3 wp_step. cbv zeta. rewrite Hp1.
  wp_step; [by wp_auto|]. wp_step; [by wp_auto|]. do 3 wp_step.
  set (peer := patched_peer options routes existing). set (s2 := set_db _ s1).
  assert (dated s2) as Ht2 by (unfold dated in *; simpl; by rewrite Hn1).
  destruct (clearPeerRoutes_spec existing s2 Ht2) as (m1 & Hclear & Hremoved); [simpl; by rewrite Hr1|].
  wp_step. unfold wp at 1. rewrite Hclear. cbn [fst snd].
  destruct (syncPeerRoutes_spec peer (set_db (with_table m1 (db s2)) s2) Ht2 (proj1 Hremoved))
    as (m2 & Hsync & Hadded).
  wp_step. unfold wp at 1. rewrite Hsync. cbn [fst snd]. clear Hclear Hsync. simpl in Hremoved, Hadded.
  do 2 wp_step; [|intros Hassets; match type of Hcall with assetService_get ?id ?t ?y = _ =>
                    destruct (Hassets id t y) as (a' & y' & Ha) end; congruence].
  wp_step. split; [done|]. exists existing. constructor; simpl.
  - done.
  - by exists a.
  - by rewrite Hp1.
  - by destruct (up_http options) as [[[l|] out]|].
  - exists m1. by rewrite <- Hr1.
Qed.

Lemma updatePeer_spec options s :
  dated s -> lasting (routingTable (db s)) ->
  wp (updatePeer options)
    (fun r s' => match r with
       | Ret (Ok peer) => now s' = now s /\ exists existing, peer_updated options s s' existing peer
       | _ => assets_answer -> db s' = db s
       end) s.
Proof.
  intros Ht Hm. unfold updatePeer. cbv zeta. wp_step; [by wp_auto|]. wp_step; [by wp_auto|].
  wp_step. apply wp_peer_transaction. eapply wp_mono; [by apply patchPeer_effect|].
  intros [[peer|e]|e] s1 H1; [done|done|]. intros s2 Hn2 Hd2.
  assert (assets_answer -> db s2 = db s) as Hd.
  { intros Hassets. rewrite Hd2, (H1 Hassets). unfold with_table. by destruct (db s). }
  destruct (isPeerError e); by wp_auto.
Qed.
End Updates.

(** ** Routes lead to peers of their asset *)

Section Histories.
Context {X : Type} `{UuidLaws} `{!PeerServices X}.
Notation State := (PeerState (X := X)).
Implicit Types s : State.

(** The supply of identifiers only grows. *)
Definition supply (n : nat) (d : option PeerDb) s : Prop :=
  (n <= Service.fresh s)%nat /\ forall d', d = Some d' -> db s = d'.

Lemma supply_lift {A} n d (m : M X A) : keeps (supply n d) (lift m).
Proof. intros s Hs. unfold lift. by destruct (m (ext s)). Qed.
Lemma supply_uuid n d : keeps (supply n d) uuid.
Proof. intros s [Hn Hd]. split; [simpl; lia|done]. Qed.
Lemma supply_date n d : keeps (supply n d) date_now.
Proof. by intros s. Qed.
Lemma supply_get {A} n d (f : PeerDb -> A) : keeps (supply n d) (db_get f).
Proof. by intros s. Qed.
Lemma supply_set n f : keeps (supply n None) (db_set f).
Proof. by intros s [Hn _]. Qed.
Lemma supply_on_routes {A} n (f : Z -> M Routes A) : keeps (supply n None) (on_routes f).
Proof. intros s [Hn _]. unfold on_routes. by destruct (f _ _). Qed.
Lemma supply_with_transaction {A} n restore (m : M State A) :
  (forall s s', Service.fresh (restore s s') = Service.fresh s') ->
  keeps (supply n None) m -> keeps (supply n None) (with_transaction restore m).
Proof.
  intros Hr Hm s Hs. specialize (Hm s Hs). unfold with_transaction.
  destruct (m s) as [[a|e] s']; [done|]. split; [|done]. simpl in *. rewrite Hr. apply Hm.
Qed.
#[local] Hint Resolve supply_lift supply_uuid supply_date supply_get supply_set supply_on_routes : keeps.

Ltac supply_auto := repeat first [keeps_step | apply supply_with_transaction; [done|]].

Lemma supply_insert_tokens n l : keeps (supply n None) (insert_tokens l).
Proof. induction l as [|[peerId token] l IH]; cbn [insert_tokens]; unfold set_tokens; supply_auto. Qed.

Lemma supply_addIncoming n peerId l : keeps (supply n None) (addIncomingHttpTokens peerId l).
Proof.
  unfold addIncomingHttpTokens, createHttpTokens. supply_auto. apply supply_insert_tokens.
Qed.
#[local] Hint Resolve supply_insert_tokens supply_addIncoming : keeps.

Lemma supply_add_routes n p l : keeps (supply n None) (add_routes p l).
Proof. induction l; cbn [add_routes]; supply_auto. Qed.
Lemma supply_remove_routes n p l : keeps (supply n None) (remove_routes p l).
Proof. induction l; cbn [remove_routes]; supply_auto. Qed.
Lemma supply_sync n p : keeps (supply n None) (syncPeerRoutes p).
Proof. unfold syncPeerRoutes. supply_auto. apply supply_add_routes. Qed.
Lemma supply_clear n p : keeps (supply n None) (clearPeerRoutes p).
Proof. apply supply_remove_routes. Qed.
Lemma supply_deposit n d p amount transferId : keeps (supply n d) (depositLiquidity p amount transferId).
Proof. unfold depositLiquidity. supply_auto. Qed.
#[local] Hint Resolve supply_sync supply_clear supply_deposit : keeps.

Lemma supply_update n options : keeps (supply n None) (updatePeer options).
Proof.
  unfold updatePeer, patchPeer, patch_peer, deleteHttpTokensByPeer, set_tokens, set_peers, throw_peer.
  cbv zeta. supply_auto.
Qed.
Lemma supply_delete n i tenantId : keeps (supply n None) (deletePeer i tenantId).
Proof. unfold deletePeer, set_peers, set_tokens. supply_auto. Qed.

Lemma supply_getPeer n d i tenantId : keeps (supply n d) (getPeer i tenantId).
Proof. unfold getPeer. supply_auto. Qed.
#[local] Hint Resolve supply_getPeer : keeps.
Lemma supply_depositById n d i amount transferId tenantId :
  keeps (supply n d) (depositLiquidityById i amount transferId tenantId).
Proof. unfold depositLiquidityById. supply_auto. Qed.
Lemma supply_fetch n d l : keeps (supply n d) (fetch_assets l).
Proof. induction l; cbn [fetch_assets]; supply_auto. Qed.
#[local] Hint Resolve supply_fetch : keeps.
Lemma supply_page n d pagination sortOrder tenantId :
  keeps (supply n d) (getPeersPage pagination sortOrder tenantId).
Proof. unfold getPeersPage. supply_auto. Qed.
Lemma supply_token n d token : keeps (supply n d) (getPeerByIncomingToken token).
Proof. unfold getPeerByIncomingToken, getHttpToken. supply_auto. Qed.
Lemma supply_lookup n address tenantId incomingPeerId assetId :
  keeps (supply n None) (getPeerByDestinationAddress address tenantId incomingPeerId assetId).
Proof. unfold getPeerByDestinationAddress. supply_auto. Qed.

(** The identifier of a new peer was in the supply. *)
Lemma supply_create options s :
  wp (createPeer options)
    (fun r s' => (Service.fresh s <= Service.fresh s')%nat /\
       match r with
       | Ret (Ok peer) => exists n, (Service.fresh s <= n < Service.fresh s')%nat /\ p_id peer = v4 n
       | _ => True
       end) s.
Proof.
  unfold createPeer. wp_step; [by wp_auto|]. wp_step; [by wp_auto|].
  do 2 wp_step; [|by wp_auto]. destruct a as [asset|]; [|by wp_auto]. do 2 wp_step.
  set (s1 := set_ext x s).
  assert (wp (insertPeer options asset) (fun r s' => (Service.fresh s < Service.fresh s')%nat /\
      match r with Ret peer => p_id peer = v4 (Service.fresh s) | Throw _ => True end) s1) as Hinsert.
  { unfold insertPeer. wp_step.
    assert (wp (insert_peer options asset (cp_staticIlpAddress options :: default [] (cp_routes options)))
      (fun r s' => (Service.fresh s < Service.fresh s')%nat /\
         match r with Ret peer => p_id peer = v4 (Service.fresh s) | Throw _ => True end) s1) as Hrow.
    { unfold insert_peer, set_peers. wp_auto; simpl; split; [lia|done|lia|done|lia|done|lia|done]. }
    eapply wp_mono; [exact Hrow|]. clear Hrow. intros [peer|e] s2 [Hlt Hid]; [|done].
    assert (supply (S (Service.fresh s)) None s2) as Hs2 by (split; [simpl in *; lia|done]).
    clear Hlt. revert Hs2.
    assert (forall A (m : M State A) (k : A -> M State Peer), keeps (supply (S (Service.fresh s)) None) m ->
      (forall a s3, supply (S (Service.fresh s)) None s3 ->
         wp (k a) (fun r s' => (Service.fresh s < Service.fresh s')%nat /\
           match r with Ret peer => p_id peer = v4 (Service.fresh s) | Throw _ => True end) s3) ->
      forall s3, supply (S (Service.fresh s)) None s3 ->
      wp (bind m k) (fun r s' => (Service.fresh s < Service.fresh s')%nat /\
           match r with Ret peer => p_id peer = v4 (Service.fresh s) | Throw _ => True end) s3) as Hbind.
    { intros A m k Hm Hk s3 Hs3. wp_step. apply wp_call. intros r s4 Hrun. specialize (Hm s3 Hs3).
      rewrite Hrun in Hm. destruct r; [by apply Hk|]. split; [apply Hm|done]. }
    revert s2. do 4 (apply Hbind; [unfold throw_peer; supply_auto|intros ? ?]).
    intros Hs3. apply wp_ret. split; [apply Hs3|done]. }
  apply wp_with_transaction. eapply wp_mono; [exact Hinsert|]. intros [peer|e] s' [Hlt Hid].
  - wp_auto. simpl in *. split; [lia|]. exists (Service.fresh s). split; [lia|done].
  - assert (Service.fresh s <= Service.fresh s')%nat as Hle by (simpl in *; lia).
    destruct (isPeerError e); destruct e; wp_auto; done.
Qed.

(** Every route to a peer is of the asset of the peer; no route is to a peer to come. *)
Definition routes_match (d : PeerDb) : Prop := forall tenantId prefix e p,
  e ∈ routes_of (routingTable d) tenantId prefix -> p ∈ peers d -> p_id p = re_peerId e ->
  p_assetId p = re_assetId e.
Definition ids_used s : Prop := forall tenantId prefix e,
  e ∈ routes_of (routingTable (db s)) tenantId prefix ->
  exists n, (n < Service.fresh s)%nat /\ re_peerId e = v4 n.

Record matched s : Prop := {
  mt_ready : ready s;
  mt_match : routes_match (db s);
  mt_ids : ids_used s
}.

Lemma ids_used_mono s s' :
  (Service.fresh s <= Service.fresh s')%nat ->
  (forall tenantId prefix e, e ∈ routes_of (routingTable (db s')) tenantId prefix ->
     e ∈ routes_of (routingTable (db s)) tenantId prefix) ->
  ids_used s -> ids_used s'.
Proof.
  intros Hle Hsub Hs t pre e He. destruct (Hs t pre e (Hsub _ _ _ He)) as (n & Hn & Hid).
  exists n. split; [lia|done].
Qed.

Lemma matched_same s s' :
  ready s' -> (Service.fresh s <= Service.fresh s')%nat -> db s' = db s -> matched s -> matched s'.
Proof.
  intros Hr Hle Hd [_ Hm Hi]. split; [done|by rewrite Hd|]. apply (ids_used_mono s); [done| |done].
  intros t pre e. by rewrite Hd.
Qed.

Lemma create_matched options s s' peer asset :
  ready s' -> matched s -> peer_created options asset s s' peer ->
  (exists n, (Service.fresh s <= n < Service.fresh s')%nat /\ p_id peer = v4 n) -> matched s'.
Proof.
  intros Hr [_ Hm Hi] [(row & -> & Hrows & _) Hunique _ [_ Hroutes] _ _] (n & Hn & Hid).
  split; [done| |].
  - intros t pre e p He Hp Heq. apply Hroutes in He.
    rewrite Hrows in Hp. apply elem_of_app in Hp as [Hp|Hp%list_elem_of_singleton]; [|subst p];
      (destruct He as [He|(-> & _)]; [|simpl in *]).
    + by eapply Hm.
    + rewrite Forall_forall in Hunique. by destruct (Hunique p Hp).
    + destruct (Hi t pre e He) as (k & Hk & Hke). simpl in Hid. rewrite Heq, Hke in Hid.
      apply v4_inj in Hid. lia.
    + done.
  - intros t pre e He. apply Hroutes in He as [He|(-> & _)].
    + destruct (Hi t pre e He) as (k & Hk & Hke). exists k. split; [lia|done].
    + exists n. split; [lia|done].
Qed.

Lemma update_matched options s s' existing peer :
  ready s' -> (Service.fresh s <= Service.fresh s')%nat -> matched s ->
  peer_updated options s s' existing peer -> matched s'.
Proof.
  intros Hr Hle [[_ [Hids _ Hrouted]] Hm Hi] [[Hin _] [a ->] Hrows _ (m & [_ Hremoved] & [_ Hadded])].
  assert (forall t pre e, e ∈ routes_of (routingTable (db s')) t pre ->
    e ∈ routes_of (routingTable (db s)) t pre \/ e = entry existing) as He'.
  { intros t pre e He. apply Hadded in He as [He|(-> & _)]; [left; by apply Hremoved in He as [He _]|by right]. }
  split; [done| |].
  - intros t pre e p He Hp Heq. rewrite Hrows in Hp. apply update_where_elem in Hp as (q & Hq & ->).
    assert (p_id q = re_peerId e -> p_assetId q = re_assetId e) as Hq'.
    { intros Hid. apply He' in He as [He| ->]; [by eapply Hm|].
      by rewrite (unique_key p_id (peers (db s)) q existing Hids Hq Hin Hid). }
    case_bool_decide; by apply Hq'.
  - intros t pre e He. apply He' in He as [He| ->].
    + destruct (Hi t pre e He) as (k & Hk & Hke). exists k. split; [lia|done].
    + assert (entry existing ∈ routes_of (routingTable (db s)) (p_tenantId existing) (p_staticIlpAddress existing))
        as He by (apply Hrouted; [done|left]).
      destruct (Hi _ _ _ He) as (k & Hk & Hke). exists k. split; [lia|done].
Qed.

Lemma delete_shrinks i tenantId s :
  dated s -> lasting (routingTable (db s)) ->
  wp (deletePeer i tenantId) (fun _ s' =>
    (forall p, p ∈ peers (db s') -> p ∈ peers (db s)) /\
    forall t pre e, e ∈ routes_of (routingTable (db s')) t pre -> e ∈ routes_of (routingTable (db s)) t pre) s.
Proof.
  intros Ht Hm. unfold deletePeer, set_peers, set_tokens. do 2 wp_step.
  destruct (find_where _ _) as [peer|]; [|by wp_auto]. do 4 wp_step. set (s2 := set_db _ _). wp_step.
  destruct (clearPeerRoutes_spec peer s2) as (m & Hclear & _ & Hremoved); [done|done|].
  unfold wp at 1. rewrite Hclear. cbn [fst snd]. clear Hclear.
  assert ((forall p, p ∈ List.filter (fun p => negb (bool_decide (p_id p = i) && bool_decide (p_tenantId p = tenantId)))
                       (peers (db s)) -> p ∈ peers (db s)) /\
    forall t pre e, e ∈ routes_of m t pre -> e ∈ routes_of (routingTable (db s)) t pre) as Hgoal.
  { split; [by intros p [_ Hp]%elem_of_filter_bool|]. by intros t pre e [He _]%Hremoved. }
  do 2 wp_step; [wp_step|]; exact Hgoal.
Qed.

Context (Hassets : assets_answer) (Hrandom : forall n, (0 < n)%nat -> (random_index n < n)%nat).

Lemma peer_step_matched s s' : peer_step s s' -> matched s -> matched s'.
Proof.
  intros Hstep Hs. pose proof (peer_step_ready Hassets Hrandom s s' Hstep (mt_ready s Hs)) as Hr.
  pose proof Hs as [[Ht Hwf] Hm Hi]. pose proof (pw_lasting _ Hwf) as Hl.
  assert (forall A (m : M State A), keeps (supply (Service.fresh s) (Some (db s))) m ->
    ready (m s).2 -> matched (m s).2) as Hread.
  { intros A m Hk Hr'. destruct (Hk s) as [Hn Hd]; [split; [done|by intros d [= <-]]|].
    apply (matched_same s); [done|done|by apply Hd|done]. }
  assert (forall A (m : M State A), keeps (supply (Service.fresh s) None) m ->
    (Service.fresh s <= Service.fresh (m s).2)%nat) as Hle by (intros A m Hk; by apply Hk).
  destruct Hstep.
  - pose proof (createPeer_spec options s Ht Hl) as Hc. pose proof (supply_create options s) as Hf.
    unfold wp in *. destruct (createPeer options s) as [[[peer|err]|err] s']; destruct Hc as [_ Hc], Hf as [Hf Hid];
      [|by apply (matched_same s)..].
    destruct Hc as (asset & x & _ & _ & _ & Hc). by eapply create_matched.
  - pose proof (updatePeer_spec options s Ht Hl) as Hc.
    pose proof (Hle _ _ (supply_update (Service.fresh s) options)) as Hf.
    unfold wp in *. destruct (updatePeer options s) as [[[peer|err]|err] s'];
      [|by apply (matched_same s); auto..].
    destruct Hc as (_ & existing & Hc). by eapply update_matched.
  - pose proof (delete_shrinks id tenantId s Ht Hl) as [Hp He].
    pose proof (Hle _ _ (supply_delete (Service.fresh s) id tenantId)) as Hf.
    split; [done| |by eapply ids_used_mono].
    intros t pre e p Hin Hpin. by apply (Hm t pre e p); [apply He|apply Hp].
  - apply Hread; [apply supply_depositById|done].
  - pose proof (lookup_next_hop address tenantId incomingPeerId assetId s Hrandom Ht Hl) as (Hd & _).
    pose proof (Hle _ _ (supply_lookup (Service.fresh s) address tenantId incomingPeerId assetId)) as Hf.
    by apply (matched_same s).
  - apply Hread; [apply supply_page|done].
  - apply Hread; [apply supply_token|done].
  - by apply (matched_same s).
Qed.

Lemma matched_history s s' : no_peers s -> rtc peer_step s s' -> matched s'.
Proof.
  intros (Ht & Hp & Hm) Hsteps. assert (matched s) as Hs.
  { split.
    - apply (peers_ready Hassets Hrandom s s); [done|apply rtc_refl].
    - intros t pre e p _ Hin. rewrite Hp in Hin. by inversion Hin.
    - intros t pre e He. rewrite Hm in He. unfold routes_of in He. rewrite lookup_empty in He. by inversion He. }
  clear Hp Hm Ht. revert Hs. induction Hsteps as [|s1 s2 s3 Hstep _ IH]; [done|]. intros Hs.
  apply IH. by eapply peer_step_matched.
Qed.
End Histories.

(** ** Where the packets to an address go *)

Lemma concat_split_go c acc s :
  String.concat (String c "") (Text.split_go (String c "") 0 acc s) = acc +:+ s.
Proof.
  revert acc. induction s as [|x s IH]; intros acc; [simpl; by rewrite Text.string_app_nil_r|].
  cbn [Text.split_go]. destruct (String.prefix (String c "") (String x s)) eqn:Hx.
  - simpl in Hx. destruct (Ascii.ascii_dec c x) as [->|]; [|done].
    specialize (IH ""%string). cbn [String.concat pred String.length] in *.
    destruct (Text.split_go _ 0 "" s) as [|y l] eqn:E; [|by rewrite IH].
    destruct s; simpl in E; [done|]. by destruct (String.prefix _ _).
  - rewrite IH. apply Text.string_app_assoc.
Qed.

(** The whole of an address is its longest prefix. *)
Lemma prefix_of_all address :
  prefix_of (Text.split "." address) (List.length (Text.split "." address)) = address.
Proof. unfold prefix_of. rewrite firstn_all. apply concat_split_go. Qed.

Lemma split_nonempty address : (1 <= List.length (Text.split "." address))%nat.
Proof.
  unfold Text.split.
  assert (forall sep acc, 1 <= List.length (Text.split_go sep 0 acc address))%nat as H; [|apply H].
  induction address as [|c s IH]; intros sep acc; [done|].
  cbn [Text.split_go]. destruct (String.prefix _ _); [simpl; lia|apply IH].
Qed.

(** A packet of the asset to the address may be handed to the peer: of the routes of the tenant
    at the longest prefix of the address that has any, one is of the peer. *)
Definition routes_to (d : PeerDb) (address assetId : string) (row : Peer) : Prop :=
  is_next_hop (routingTable d) (p_tenantId row) None (Some assetId) address
    (List.length (Text.split "." address)) (Some (p_id row)).

Lemma routes_to_own d address row assetId :
  p_assetId row = assetId -> entry row ∈ routes_of (routingTable d) (p_tenantId row) address ->
  routes_to d address assetId row.
Proof.
  intros <- Hin. exists (List.length (Text.split "." address)), (entry row).
  split; [pose proof (split_nonempty address); lia|]. split; [|split; [done|lia]].
  unfold candidates. rewrite prefix_of_all. apply elem_of_filter_bool. split; [|done].
  unfold eligible, entry. simpl. rewrite (bool_decide_true (Some (p_assetId row) = Some (p_assetId row))) by done.
  by rewrite andb_false_r.
Qed.

Lemma next_hop_same m m' tenantId incomingPeerId assetId address n r :
  (forall t pre e, e ∈ routes_of m' t pre <-> e ∈ routes_of m t pre) ->
  is_next_hop m tenantId incomingPeerId assetId address n r ->
  is_next_hop m' tenantId incomingPeerId assetId address n r.
Proof.
  intros Hm.
  assert (forall i e, e ∈ candidates m' tenantId incomingPeerId assetId address i <->
                      e ∈ candidates m tenantId incomingPeerId assetId address i) as Hc.
  { intros i e. unfold candidates. by rewrite !elem_of_filter_bool, Hm. }
  assert (forall i, candidates m tenantId incomingPeerId assetId address i = [] ->
                    candidates m' tenantId incomingPeerId assetId address i = []) as Hnil.
  { intros i Hi. apply elem_of_nil_inv. intros e. rewrite Hc, Hi. apply not_elem_of_nil. }
  destruct r as [peerId|]; simpl; [|by auto].
  intros (i & route & Hi & Hin & Hid & Hj). exists i, route. rewrite Hc.
  split_and!; [apply Hi..|done|done|]. intros j Hjn. by apply Hnil, Hj.
Qed.

(** The peer is the one at the address: the address is its own, or it was a peer before to which
    the packets to the address went; and now they go to it. *)
Record reached (d0 d : PeerDb) (row : Peer) (address assetId : string) : Prop := {
  rc_address : p_staticIlpAddress row = address \/
    exists old, old ∈ peers d0 /\ p_id old = p_id row /\ p_staticIlpAddress old = p_staticIlpAddress row /\
      routes_to d0 address assetId row;
  rc_routes : p_tenantId row <> ""%string -> routes_to d address assetId row
}.

(** ** What a node has of its peer *)

Lemma optional_BigInt_state {S} (x : option number) (s : S) : (optional_BigInt x s).2 = s.
Proof.
  destruct x as [x|]; [|done]. simpl. destruct (truthy x); [|done]. unfold bind, BigInt_of_number.
  destruct (bigint_floor x) as [l|], (bigint_ceil x) as [u|]; [|done..]. by destruct (l =? u).
Qed.

Section Halves.
Context {X : Type} `{UuidLaws} `{!PeerServices X} `{!AutoPeeringServices X}.
Notation State := (PeerState (X := X)).
Implicit Types s : State.

Definition token_row (d : PeerDb) (token : string) : option Peer :=
  match find_where (fun t => bool_decide (ht_token t = token)) (httpTokens d) with
  | Some t => find_where (fun p => bool_decide (p_id p = ht_peerId t)) (peers d)
  | None => None
  end.

(** A request with the token is one of the peer. *)
Definition authenticates s (token : string) (row : Peer) : Prop :=
  getPeerByIncomingToken token s
  = (let! asset := lift (asset_fetch (p_assetId row)) in ret (Some (with_asset asset row))) s.

Lemma authenticates_row s token row : token_row (db s) token = Some row -> authenticates s token row.
Proof.
  unfold token_row, authenticates, getPeerByIncomingToken, getHttpToken, db_get, bind at 1, gets.
  destruct (find_where _ (httpTokens _)) as [t|]; [|done]. by intros ->.
Qed.

(** A peer of the asset at the address, which sends with [http] and is recognised by [token];
    [d0] is what there was before. *)
Record peered (d0 d : PeerDb) (row : Peer) (token : string) (http : HttpOutgoing)
    (address assetId : string) : Prop := {
  pe_row : row ∈ peers d;
  pe_token : token_row d token = Some row;
  pe_outgoing : p_outgoing row = http;
  pe_asset : assetId <> ""%string -> p_assetId row = assetId;
  pe_reached : reached d0 d row address assetId
}.

Lemma tokens_added_row d row token t :
  NoDup (p_id <$> peers d) -> row ∈ peers d -> tokens_added (p_id row) [token] t (httpTokens d) ->
  token_row d token = Some row.
Proof.
  intros Hids Hin (rows & Ht & Htok & Hpeer & Hnew). unfold token_row. rewrite Ht.
  destruct rows as [|new [|]]; simplify_eq/=. apply Forall_cons in Hpeer as [Hpeer _].
  assert (find_where (fun r => bool_decide (ht_token r = ht_token new)) t = None) as Hnone.
  { destruct (find_where _ t) as [old|] eqn:Hold; [|done].
    apply find_where_Some in Hold as [Hold Heq%bool_decide_eq_true]. exfalso.
    apply (Hnew (ht_token new)); [left|]. rewrite <- Heq. by apply list_elem_of_fmap_2. }
  rewrite find_where_app_r by done. simpl. rewrite bool_decide_true by done. rewrite Hpeer.
  destruct (find_where _ (peers d)) as [row'|] eqn:Hrow.
  - apply find_where_Some in Hrow as [Hin' Hid%bool_decide_eq_true]. f_equal.
    by apply (unique_key p_id (peers d)).
  - pose proof (find_where_None _ _ row Hrow Hin) as Hf. by apply bool_decide_eq_false in Hf.
Qed.

Definition peered_as (d0 d : PeerDb) (peer : Peer) (token : string) (http : HttpOutgoing)
    (address assetId : string) : Prop :=
  exists row, p_id peer = p_id row /\ p_outgoing peer = http /\ peered d0 d row token http address assetId.

Lemma created_peered options asset s s' peer token :
  ready s' -> peer_created options asset s s' peer -> h_incoming (cp_http options) = Some [token] ->
  peered_as (db s) (db s') peer token (h_outgoing (cp_http options)) (cp_staticIlpAddress options) (cp_assetId options).
Proof.
  intros [_ [Hids _ Hrouted]] [(row & -> & Hrows & Hrow) _ Htok _ _ _] Htoken. rewrite Htoken in Htok. simpl in Htok.
  assert (row ∈ peers (db s')) as Hin by (rewrite Hrows; apply elem_of_app; right; left).
  assert (p_outgoing row = h_outgoing (cp_http options)) as Hout by (by rewrite Hrow).
  assert (p_staticIlpAddress row = cp_staticIlpAddress options) as Haddress by (by rewrite Hrow).
  exists row. split; [done|]. split; [done|]. split; [done| |done|by rewrite Hrow|].
  - by eapply tokens_added_row.
  - split; [by left|]. intros _. apply routes_to_own; [by rewrite Hrow|].
    apply Hrouted; [done|]. rewrite <- Haddress. left.
Qed.

(** An update that gives no address, no routes and the tenant again leaves the routes. *)
Lemma updated_routes options s s' existing peer :
  peers_wf (db s) -> peer_updated options s s' existing peer ->
  up_staticIlpAddress options = None -> up_routes options = None ->
  p_tenantId peer = p_tenantId existing ->
  forall t pre e, e ∈ routes_of (routingTable (db s')) t pre <-> e ∈ routes_of (routingTable (db s)) t pre.
Proof.
  intros [_ _ Hrouted] [[Hin _] [a ->] _ _ (m & [_ Hremoved] & [_ Hadded])] Hstatic Hroutes Htenant t pre e.
  rewrite Hadded, Hremoved. unfold entry_under, addresses, new_routes, patched_peer in *.
  rewrite Hroutes in *. simpl in *. rewrite Hstatic in *. simpl in *. rewrite Htenant.
  assert (forall b, b ∈ addresses existing -> route_key t pre = route_key (p_tenantId existing) b ->
    entry existing ∈ routes_of (routingTable (db s)) t pre) as Hown.
  { intros b Hb Hk. unfold routes_of. rewrite Hk. by apply Hrouted. }
  unfold addresses in Hown. split.
  - intros [[He _]|(-> & b & Hb & Hk)]; [done|]. by apply (Hown b).
  - intros He. destruct (decide (e = entry existing)) as [->|Hne]; [|left; split; [done|naive_solver]].
    destruct (decide (route_key t pre ∈ route_key (p_tenantId existing) <$>
                        p_staticIlpAddress existing :: default [] (p_routes existing))) as [Hb|Hb].
    + right. split; [done|]. apply list_elem_of_fmap in Hb as (b & Hk & Hb). by exists b.
    + left. split; [done|]. intros (_ & b & Hb' & Hk). apply Hb. apply list_elem_of_fmap. exists b.
      split; [done|]. destruct (p_routes existing); simpl in *; [by right|done].
Qed.

Lemma updated_peered options s s' existing peer token out address assetId :
  ready s -> ready s' -> peer_updated options s s' existing peer ->
  up_staticIlpAddress options = None -> up_routes options = None ->
  is_next_hop (routingTable (db s)) (p_tenantId peer) None (Some assetId) address
    (List.length (Text.split "." address)) (Some (p_id existing)) ->
  (p_tenantId peer <> ""%string -> p_tenantId peer = p_tenantId existing) ->
  up_http options = Some {| h_incoming := Some [token]; h_outgoing := out |} ->
  (assetId <> ""%string -> p_assetId existing = assetId) ->
  peered_as (db s) (db s') peer token out address assetId.
Proof.
  intros [_ Hwf] [_ [Hids _ _]] Hup Hstatic Hroutes Hhop Htenant Hhttp Hasset.
  pose proof (updated_routes _ _ _ _ _ Hwf Hup Hstatic Hroutes) as Hsame.
  destruct Hup as [[Hin Hid] [a ->] Hrows Htok _]. rewrite Hhttp in Htok.
  set (row := patched_peer options (new_routes options existing) existing).
  assert (row ∈ peers (db s')) as Hrow.
  { rewrite Hrows. apply update_where_elem. exists existing. split; [done|]. by rewrite bool_decide_true. }
  assert (p_outgoing row = out) as Hout by (unfold row, patched_peer; simpl; by rewrite Hhttp).
  exists row. split; [done|]. split; [done|]. split; [done| |done|done|].
  - eapply tokens_added_row; [done..|]. simpl. rewrite Hid. exact Htok.
  - split.
    + right. exists existing. split_and!; [done..| |exact Hhop]. unfold row, patched_peer. simpl. by rewrite Hstatic.
    + intros Hne. eapply next_hop_same; [|exact Hhop]. apply Hsame. by apply Htenant.
Qed.

Context (Hassets : assets_answer) (Hrandom : forall n, (0 < n)%nat -> (random_index n < n)%nat).

Definition outgoing_of (args : UpdatePeerArgs) : HttpOutgoing :=
  {| authToken := ua_outgoingHttpToken args; endpoint := ua_ilpConnectorUrl args |}.

(** The peer found at the address is of the asset and of the tenant, and routed. *)
Lemma lookup_of_asset address tenantId assetId s :
  matched s ->
  wp (getPeerByDestinationAddress address tenantId None (Some assetId))
    (fun r s' => db s' = db s /\ now s' = now s /\
       match r with
       | Ret (Some peer) => exists row, row ∈ peers (db s) /\ p_id row = p_id peer /\
           (assetId <> ""%string -> p_assetId row = assetId) /\
           (tenantId <> ""%string -> p_tenantId row = tenantId) /\
           is_next_hop (routingTable (db s)) tenantId None (Some assetId) address
             (List.length (Text.split "." address)) (Some (p_id row))
       | _ => True
       end) s.
Proof.
  intros [[Ht Hwf] Hm _].
  pose proof (lookup_next_hop address tenantId None (Some assetId) s Hrandom Ht (pw_lasting _ Hwf)) as Hhop.
  pose proof (lookup_sound address tenantId None (Some assetId) s) as Hsound. unfold wp in *.
  destruct (getPeerByDestinationAddress _ _ _ _ s) as [[[peer|]|e] s']; simpl in *;
    destruct Hhop as (Hd & Hn & Hhop); (split_and!; [done|done|]); [|done..].
  destruct Hsound as ((row & a & Hrow & ->) & Htenant & _). exists row. split; [done|]. split; [done|].
  split; [|by split; [exact Htenant|]]. intros Hne.
  destruct Hhop as (i & e & _ & Hin & Hid & _). unfold candidates in Hin.
  apply elem_of_filter_bool in Hin as [Hel Hin]. rewrite (Hm _ _ _ row Hin Hrow) by done.
  unfold eligible in Hel. apply andb_true_iff in Hel as [_ Hel].
  assert (truthy (Some assetId) = true) as Htrue by (by destruct assetId).
  rewrite Htrue in Hel. simpl in Hel. apply negb_true_iff, negb_false_iff, bool_decide_eq_true in Hel.
  by injection Hel.
Qed.

Lemma updateByAddress_spec args s :
  matched s ->
  wp (updateByAddress args)
    (fun r s' => match r with
       | Ret (Ok peer) => peered_as (db s) (db s') peer (ua_incomingHttpToken args) (outgoing_of args)
                            (ua_staticIlpAddress args) (ua_assetId args)
       | _ => True
       end) s.
Proof.
  intros Hs. unfold updateByAddress. wp_step.
  eapply wp_mono; [by apply lookup_of_asset|]. intros [[peer|]|e] s1 (Hd & Hn & Hrow); [|by wp_auto|done].
  destruct Hrow as (row & Hrow & Hid & Hasset & Htenant & Hhop). wp_step. apply wp_call. intros [z|e] s2 Hz; [|done].
  assert (s2 = s1) as -> by (by rewrite <- (optional_BigInt_state (ua_maxPacketAmount args) s1), Hz).
  pose proof (mt_ready s Hs) as Hr. assert (ready s1) as Hr1 by (by apply (ready_same s)).
  set (options := Build_UpdatePeerOptions _ _ _ _ _ _ _ _).
  pose proof (updatePeer_spec options s1 (proj1 Hr1) (pw_lasting _ (proj2 Hr1))) as Hup.
  pose proof (updatePeer_wf Hassets options s1 (proj1 Hr1) (proj2 Hr1)) as [Hn2 Hwf2].
  unfold wp in *. destruct (updatePeer options s1) as [[[peer'|err]|err] s3]; [|done..].
  destruct Hup as (_ & existing & Hup).
  assert (existing = row) as ->.
  { destruct (pu_existing _ _ _ _ _ Hup) as [Hin Heq]. rewrite Hd in Hin.
    apply (unique_key p_id (peers (db s))); [apply Hr|done|done|by rewrite Heq]. }
  assert (p_tenantId peer' = ua_tenantId args) as Htenant' by (by destruct (pu_peer _ _ _ _ _ Hup) as [a ->]).
  rewrite <- Hd in Hhop |- *.
  eapply (updated_peered options s1); [done| |done|done|done|by rewrite Htenant'| |done|done].
  - split; [|done]. unfold dated in *. simpl in *. destruct Hr1 as [Ht1 _]. by rewrite Hn2.
  - rewrite Htenant'. intros Hne. by rewrite Htenant.
Qed.

Definition same_peering (options : CreatePeerOptions) (args : UpdatePeerArgs) : Prop :=
  cp_http options = {| h_incoming := Some [ua_incomingHttpToken args]; h_outgoing := outgoing_of args |} /\
  cp_assetId options = ua_assetId args /\ cp_staticIlpAddress options = ua_staticIlpAddress args.

Lemma createOrUpdate_spec options args s :
  matched s -> same_peering options args ->
  wp (createOrUpdate options args)
    (fun r s' => match r with
       | Ret (Ok peer) => peered_as (db s) (db s') peer (ua_incomingHttpToken args) (outgoing_of args)
                            (ua_staticIlpAddress args) (ua_assetId args)
       | _ => True
       end) s.
Proof.
  intros Hs (Hhttp & Hasset & Haddress). unfold createOrUpdate. wp_step.
  pose proof (peer_step_matched Hassets Hrandom _ _ (peer_step_create options s) Hs) as Hs1.
  pose proof (createPeer_spec options s (proj1 (mt_ready s Hs)) (pw_lasting _ (proj2 (mt_ready s Hs)))) as Hc.
  unfold wp at 1 in Hc. unfold wp at 1. destruct (createPeer options s) as [[[peer|err]|err] s1]; simpl in *.
  - apply wp_ret. destruct Hc as (_ & asset & x & _ & _ & _ & Hc).
    assert (h_incoming (cp_http options) = Some [ua_incomingHttpToken args]) as Hin by (by rewrite Hhttp).
    pose proof (created_peered options asset s s1 peer _ (mt_ready _ Hs1) Hc Hin) as Hp.
    by rewrite Hhttp, Hasset, Haddress in Hp.
  - destruct err; try (by apply wp_ret). destruct Hc as [_ Hd]. rewrite <- Hd. by apply updateByAddress_spec.
  - done.
Qed.

(** *** The node that accepts *)

Lemma accept_spec config args s :
  matched s ->
  wp (acceptPeeringRequest config args)
    (fun r s' => match r with
       | Ret (Ok details) => exists asset peer,
           (a_code asset, a_scale asset) = pr_asset args /\
           pd_ilpConnectorUrl details = ilpConnectorUrl config /\
           pd_staticIlpAddress details = ilpAddress config /\
           peered_as (db s) (db s') peer (pr_httpToken args)
             {| authToken := pd_httpToken details; endpoint := pr_ilpConnectorUrl args |}
             (pr_staticIlpAddress args) (a_id asset)
       | _ => True
       end) s.
Proof.
  intros Hs. unfold acceptPeeringRequest. do 2 wp_step; [|done].
  destruct (supported args a) as [asset|] eqn:Hasset; [|by wp_auto]. do 3 wp_step.
  apply wp_call. intros [z|e] s2 Hz; [|done].
  match type of Hz with _ ?s1 = _ =>
    assert (s2 = s1) as ->
      by (by rewrite <- (optional_BigInt_state (S := State) (pr_maxPacketAmount args) s1), Hz) end.
  clear Hz. wp_step. eapply wp_mono; [apply createOrUpdate_spec|].
  - apply (matched_same s); [apply (ready_same s); [apply Hs|done|done]|simpl; lia|done|done].
  - done.
  - intros [[peer|err]|err] s3 Hp; [|by wp_auto|done]. wp_step. unfold details_of, peer_http.
    wp_step; [|done]. destruct Hp as (row & Hid & Hout & Hp). wp_auto. exists asset, peer.
    unfold supported in Hasset. apply find_where_Some in Hasset as [_ [Hcode Hscale]%andb_true_iff].
    apply bool_decide_eq_true in Hcode, Hscale. rewrite Hcode, Hscale.
    split; [by destruct (pr_asset args)|]. split; [done|]. split; [done|].
    destruct (truthy (authToken (p_outgoing peer))); simplify_eq. exists row.
    simpl. rewrite Hout. by split_and!.
Qed.

Lemma serve_spec config args s :
  matched s ->
  wp (serve config args)
    (fun r s' => match r with
       | Ret (PeeringData details) => exists asset peer,
           (a_code asset, a_scale asset) = pr_asset args /\
           pd_ilpConnectorUrl details = ilpConnectorUrl config /\
           pd_staticIlpAddress details = ilpAddress config /\
           peered_as (db s) (db s') peer (pr_httpToken args)
             {| authToken := pd_httpToken details; endpoint := pr_ilpConnectorUrl args |}
             (pr_staticIlpAddress args) (a_id asset)
       | Ret _ => True
       | Throw _ => False
       end) s.
Proof.
  intros Hs. unfold serve, acceptPeerRequest. do 3 wp_step.
  eapply wp_mono; [by apply accept_spec|]. intros [[details|err]|err] s' Hd; [exact Hd|by destruct err|done].
Qed.
End Halves.

(** ** Two nodes *)

(** The URL is the route of the node [remote]: a post to it is a run of that node, and what
    else is asked of the other services does not reach it. *)
Class RemoteNode {X XB} {UB : Uuid} `{!PeerServices X} `{!AutoPeeringServices X} `{!PeerServices XB}
    `{!AutoPeeringServices XB} (peerUrl : string) (configB : IAppConfig) := {
  remote : X -> PeerState (X := XB);
  remote_post args x :
    (peering_post peerUrl args x).1 = (serve (H := UB) configB args (remote x)).1 /\
    remote (peering_post peerUrl args x).2 = (serve (H := UB) configB args (remote x)).2;
  remote_asset i tenantId x : remote (assetService_get i tenantId x).2 = remote x;
  remote_account i a x :
    remote (createLiquidityAccount peer_accounting
      {| account_id := i; account_asset := toAsset a; account_onCredit := None; account_onDebit := None |}
      PEER x).2 = remote x;
  remote_deposit i peer a amount x :
    remote (createDeposit peer_accounting
      {| deposit_id := i; deposit_account := peer_account peer a; deposit_amount := amount |} x).2 = remote x;
  remote_unwind x x' : remote (unwind x x') = remote x'
}.

Section TwoNodes.
Context {X XB : Type} {UA UB : Uuid} `{!@UuidLaws UA} `{!@UuidLaws UB}.
Context `{!PeerServices X} `{!AutoPeeringServices X} `{!PeerServices XB} `{!AutoPeeringServices XB}.
Context {peerUrl : string} {configB : IAppConfig} `{!RemoteNode (UB := UB) (X := X) (XB := XB) peerUrl configB}.
#[local] Existing Instance UA | 0.
Implicit Types s : PeerState (X := X).

(** What the node initiating does after the post does not reach the other. *)
Definition at_remote (b : PeerState (X := XB)) s : Prop := remote (ext s) = b.

Lemma at_remote_lift {A} b (m : M X A) :
  (forall x, remote (m x).2 = remote x) -> keeps (at_remote b) (lift m).
Proof.
  intros Hm s Hs. unfold lift. specialize (Hm (ext s)). destruct (m (ext s)) as [r x].
  unfold at_remote in *. simpl in *. congruence.
Qed.
Lemma at_remote_uuid b : keeps (at_remote b) uuid.
Proof. by intros s. Qed.
Lemma at_remote_date b : keeps (at_remote b) date_now.
Proof. by intros s. Qed.
Lemma at_remote_get {A} b (f : PeerDb -> A) : keeps (at_remote b) (db_get f).
Proof. by intros s. Qed.
Lemma at_remote_set b f : keeps (at_remote b) (db_set f).
Proof. by intros s. Qed.
Lemma at_remote_on_routes {A} b (f : Z -> M Routes A) : keeps (at_remote b) (on_routes f).
Proof. intros s Hs. unfold on_routes. by destruct (f _ _). Qed.
Lemma at_remote_transaction {A} b (m : M (PeerState (X := X)) A) :
  keeps (at_remote b) m -> keeps (at_remote b) (transaction m).
Proof. intros Hm s Hs. specialize (Hm s Hs). unfold transaction, with_transaction. by destruct (m s) as [[a|e] s']. Qed.
Lemma at_remote_peer_transaction {A} b (m : M (PeerState (X := X)) A) :
  keeps (at_remote b) m -> keeps (at_remote b) (peer_transaction m).
Proof.
  intros Hm s Hs. specialize (Hm s Hs). unfold peer_transaction, with_transaction.
  destruct (m s) as [[a|e] s']; [done|]. unfold at_remote. simpl. by rewrite remote_unwind.
Qed.
Lemma at_remote_asset b i tenantId : keeps (at_remote b) (lift (assetService_get i tenantId)).
Proof. apply at_remote_lift. intros x. apply remote_asset. Qed.
Lemma at_remote_account b i a :
  keeps (at_remote b) (lift (createLiquidityAccount peer_accounting
    {| account_id := i; account_asset := toAsset a; account_onCredit := None; account_onDebit := None |} PEER)).
Proof. apply at_remote_lift. intros x. apply remote_account. Qed.
Lemma at_remote_deposit b peer amount transferId :
  keeps (at_remote b) (depositLiquidity peer amount transferId).
Proof.
  unfold depositLiquidity. keeps_step; [keeps_step; [eauto with keeps|apply at_remote_uuid]|].
  intros i. destruct (p_asset peer) as [a|]; [|eauto with keeps].
  apply at_remote_lift. intros x. apply remote_deposit.
Qed.
#[local] Hint Resolve at_remote_uuid at_remote_date at_remote_get at_remote_set at_remote_on_routes at_remote_asset
  at_remote_account at_remote_deposit : keeps.

Ltac at_remote_auto := repeat first
  [keeps_step | apply at_remote_transaction | apply at_remote_peer_transaction].

Lemma at_remote_tokens b l : keeps (at_remote b) (insert_tokens l).
Proof. induction l as [|[peerId token] l IH]; cbn [insert_tokens]; unfold set_tokens; at_remote_auto. Qed.
Lemma at_remote_addIncoming b peerId l : keeps (at_remote b) (addIncomingHttpTokens peerId l).
Proof. unfold addIncomingHttpTokens, createHttpTokens. at_remote_auto. apply at_remote_tokens. Qed.
Lemma at_remote_add b p l : keeps (at_remote b) (add_routes p l).
Proof. induction l; cbn [add_routes]; at_remote_auto. Qed.
Lemma at_remote_remove b p l : keeps (at_remote b) (remove_routes p l).
Proof. induction l; cbn [remove_routes]; at_remote_auto. Qed.
Lemma at_remote_sync b p : keeps (at_remote b) (syncPeerRoutes p).
Proof. unfold syncPeerRoutes. at_remote_auto. apply at_remote_add. Qed.
Lemma at_remote_clear b p : keeps (at_remote b) (clearPeerRoutes p).
Proof. apply at_remote_remove. Qed.
Lemma at_remote_getPeer b i tenantId : keeps (at_remote b) (getPeer i tenantId).
Proof. unfold getPeer. at_remote_auto. Qed.
#[local] Hint Resolve at_remote_addIncoming at_remote_sync at_remote_clear at_remote_getPeer : keeps.

Lemma at_remote_create b options : keeps (at_remote b) (createPeer options).
Proof. unfold createPeer, insertPeer, insert_peer, set_peers, throw_peer. at_remote_auto. Qed.
Lemma at_remote_update b options : keeps (at_remote b) (updatePeer options).
Proof.
  unfold updatePeer, patchPeer, patch_peer, deleteHttpTokensByPeer, set_tokens, set_peers, throw_peer.
  cbv zeta. at_remote_auto.
Qed.
Lemma at_remote_depositById b i amount transferId tenantId :
  keeps (at_remote b) (depositLiquidityById i amount transferId tenantId).
Proof. unfold depositLiquidityById. at_remote_auto. Qed.
Lemma at_remote_BigInt b x : keeps (at_remote b) (optional_BigInt x).
Proof. unfold optional_BigInt, BigInt_of_number. at_remote_auto. Qed.
#[local] Hint Resolve at_remote_create at_remote_update at_remote_depositById at_remote_BigInt : keeps.

Lemma at_remote_createOrUpdate b options args : keeps (at_remote b) (createOrUpdate options args).
Proof. unfold createOrUpdate, updateByAddress, getPeerByDestinationAddress. at_remote_auto. Qed.

Context (assetsA : assets_answer (X := X)) (randomA : forall n, (0 < n)%nat -> (random_index (X := X) n < n)%nat).
Context (assetsB : assets_answer (X := XB)) (randomB : forall n, (0 < n)%nat -> (random_index (X := XB) n < n)%nat).
Context (configA : IAppConfig).

(** What both nodes have when the first is done; [s0] is before. *)
Definition both_peered s0 s (peer : Peer) : Prop := exists aA aB peerB tokenAB tokenBA,
  a_code aA = a_code aB /\ a_scale aA = a_scale aB /\
  peered_as (db s0) (db s) peer tokenBA {| authToken := tokenAB; endpoint := ilpConnectorUrl configB |}
    (ilpAddress configB) (a_id aA) /\
  peered_as (db (remote (ext s0))) (db (remote (ext s))) peerB tokenAB
    {| authToken := tokenBA; endpoint := ilpConnectorUrl configA |} (ilpAddress configA) (a_id aB).

Lemma both_peered_same s0 s s' peer :
  db s' = db s -> remote (ext s') = remote (ext s) -> both_peered s0 s peer -> both_peered s0 s' peer.
Proof. unfold both_peered. by intros -> ->. Qed.

Lemma deposit_both s0 peer amount s :
  both_peered s0 s peer ->
  wp (depositToPeer peer amount)
    (fun r s' => match r with Ret (Ok p) => p = peer /\ both_peered s0 s' peer | _ => True end) s.
Proof.
  intros Hp. unfold depositToPeer. wp_step. apply wp_call. intros r s' Hrun.
  pose proof (supply_depositById (Service.fresh s) (Some (db s)) (p_id peer) amount None (Some (p_tenantId peer)) s)
    as Hdb.
  pose proof (at_remote_depositById (remote (ext s)) (p_id peer) amount None (Some (p_tenantId peer)) s) as Hrem.
  rewrite Hrun in Hdb, Hrem. destruct Hdb as [_ Hdb]; [split; [done|by intros d [= <-]]|].
  specialize (Hrem eq_refl). simpl in *.
  destruct r as [[e|]|e]; [by wp_auto| |done]. wp_step. split; [done|].
  apply (both_peered_same s0 s); [by apply Hdb|done|done].
Qed.

Lemma initiate_spec args s :
  ip_peerUrl args = peerUrl -> matched s -> matched (H := UB) (remote (ext s)) ->
  wp (initiatePeeringRequest configA args)
    (fun r s' => match r with Ret (Ok peer) => both_peered s s' peer | _ => True end) s.
Proof.
  intros Hurl HA HB. unfold initiatePeeringRequest. do 2 wp_step; [|done].
  pose proof (remote_asset (ip_assetId args) None (ext s)) as Hx. rewrite Hcall in Hx. simpl in Hx. clear Hcall.
  destruct a as [asset|]; [|by wp_auto]. do 2 wp_step. unfold sendPeeringRequest. do 4 wp_step; [|by wp_auto].
  rewrite Hurl in Hcall. svc_simpl. cbn [ext] in Hcall. destruct (remote_post (request_of configA args asset (v4 (Service.fresh s))) x)
    as [Hanswer Hremote]. rewrite Hcall in Hanswer, Hremote. simpl in Hanswer, Hremote. clear Hcall.
  rewrite <- Hx in HB. pose proof (serve_spec (H := UB) assetsB randomB configB
    (request_of configA args asset (v4 (Service.fresh s))) _ HB) as Hserve.
  unfold wp in Hserve. rewrite <- Hanswer, <- Hremote in Hserve. clear Hanswer Hremote.
  destruct a as [details|code type|]; [|by wp_auto|by wp_auto]. do 2 wp_step.
  destruct Hserve as (aB & peerB & Hasset & Hurl' & Haddress & HpB). simpl in Hasset, HpB.
  rewrite Hx in HpB.
  match goal with |- wp _ _ ?t => set (s2 := t) end.
  assert (matched s2) as Hs2.
  { apply (matched_same s); [apply (ready_same s); [apply HA|done|done]|simpl; lia|done|done]. }
  apply wp_call. intros r s3 Hrun.
  pose proof (createOrUpdate_spec assetsA randomA (initiated_peer args asset (v4 (Service.fresh s)) details)
    (initiated_update args asset (v4 (Service.fresh s)) details) s2 Hs2) as Hc.
  pose proof (at_remote_createOrUpdate (remote (ext s2)) (initiated_peer args asset (v4 (Service.fresh s)) details)
    (initiated_update args asset (v4 (Service.fresh s)) details) s2 eq_refl) as Hr.
  unfold wp in Hc. rewrite Hrun in Hc, Hr. simpl in Hc, Hr.
  destruct r as [[peer|e]|e]; [|by wp_auto|done].
  assert (both_peered s s3 peer) as Hboth.
  { exists asset, aB, peerB, (v4 (Service.fresh s)), (pd_httpToken details).
    injection Hasset as Hcode Hscale. split; [done|]. split; [done|].
    unfold at_remote in Hr. rewrite Hr. split; [|exact HpB]. rewrite <- Hurl', <- Haddress. by apply Hc. }
  destruct (ip_liquidityToDeposit args) as [amount|]; [|by wp_auto].
  destruct (truthy amount); [|by wp_auto].
  eapply wp_mono; [by apply deposit_both|]. intros [[p|]|] s4 Hp; [|done..]. by destruct Hp as [-> Hp].
Qed.
End TwoNodes.

(** A peer of the node, which had [d0] before: the address it is reached at, what it sends with,
    and the token it is recognised by. *)
Record knows {X} {U : Uuid} `{!PeerServices X} (d0 : PeerDb) (s : PeerState (X := X)) (row : Peer)
    (address incomingToken : string) (http : HttpOutgoing) (assetId : string) : Prop := {
  kn_row : row ∈ peers (db s);
  kn_reached : reached d0 (db s) row address assetId;
  kn_outgoing : p_outgoing row = http;
  kn_incoming : authenticates s incomingToken row;
  kn_asset : assetId <> ""%string -> p_assetId row = assetId
}.

Lemma peered_knows {X} {U : Uuid} `{!PeerServices X} d0 (s : PeerState (X := X)) row token http address assetId :
  peered d0 (db s) row token http address assetId -> knows d0 s row address token http assetId.
Proof. intros [Hrow Htok Hout Ha Hr]. split; [done|done|done|by apply authenticates_row|done]. Qed.

(** C20. A peering that succeeds is mutual.  Two nodes have any history of operations on
    their peers; one initiates a peering with the URL of the other, which creates a peer or,
    where it has one at that address, updates the peer it finds.  When the call returns a peer,
    each node has a row for the other ([reached]): the packets of the asset to the address of
    the other may be handed to it, and its own address is that of the other, or, after an
    update, that of a peer the node had and to which it handed those packets already, which
    may be another peer that has the address among its routes
    ([PeeringExample.other_peer_updated]).  The rows are of assets of one code and scale; what
    each sends with is exactly the token by which the other node recognises that row of its
    own, and goes to the ILP connector of the other. *)
Theorem peering_is_mutual {X XB} {UA UB : Uuid} `{!@UuidLaws UA} `{!@UuidLaws UB}
    `{!PeerServices X} `{!AutoPeeringServices X} `{!PeerServices XB} `{!AutoPeeringServices XB}
    (peerUrl : string) (configA configB : IAppConfig)
    `{!RemoteNode (UB := UB) (X := X) (XB := XB) peerUrl configB}
    (args : InitiatePeeringRequestArgs) (sA0 sA sA' : PeerState (X := X)) (sB0 : PeerState (X := XB)) peer :
  assets_answer (X := X) -> (forall n, (0 < n)%nat -> (random_index (X := X) n < n)%nat) ->
  assets_answer (X := XB) -> (forall n, (0 < n)%nat -> (random_index (X := XB) n < n)%nat) ->
  no_peers sA0 -> rtc (peer_step (H := UA)) sA0 sA ->
  no_peers sB0 -> rtc (peer_step (H := UB)) sB0 (remote (ext sA)) ->
  ip_peerUrl args = peerUrl ->
  initiatePeeringRequest (H := UA) configA args sA = (Ret (Ok peer), sA') ->
  exists aA aB rowA rowB tokenAB tokenBA,
    a_code aA = a_code aB /\ a_scale aA = a_scale aB /\ p_id rowA = p_id peer /\
    knows (U := UA) (db sA) sA' rowA (ilpAddress configB) tokenBA
      {| authToken := tokenAB; endpoint := ilpConnectorUrl configB |} (a_id aA) /\
    knows (U := UB) (db (remote (ext sA))) (remote (ext sA')) rowB (ilpAddress configA) tokenAB
      {| authToken := tokenBA; endpoint := ilpConnectorUrl configA |} (a_id aB).
Proof.
  intros assetsA randomA assetsB randomB HA0 HA HB0 HB Hurl Hrun.
  pose proof (matched_history (H := UA) assetsA randomA sA0 sA HA0 HA) as HmA.
  pose proof (matched_history (H := UB) assetsB randomB sB0 _ HB0 HB) as HmB.
  destruct (wp_run _ _ _ _ _ (initiate_spec (UA := UA) (UB := UB) assetsA randomA assetsB randomB configA args sA Hurl HmA HmB) Hrun)
    as (aA & aB & peerB & tokenAB & tokenBA & Hcode & Hscale & (rowA & HidA & _ & HpA) & (rowB & _ & _ & HpB)).
  exists aA, aB, rowA, rowB, tokenAB, tokenBA. split_and!; [done..| |]; by apply peered_knows.
Qed.

Module PeeringExample.
Export ConcreteUuid.

Definition asset_row (i code : string) (tenantId : string) : Asset :=
  {| a_id := i; a_code := code; a_scale := 2; a_ledger := 1; a_tenantId := tenantId;
     a_withdrawalThreshold := None; a_liquidityThreshold := None |}.
(** The assets of the node: one of its operator, and one of another tenant. *)
Definition find_asset (i : string) (tenantId : option string) : option Asset :=
  find_where (fun a => bool_decide (a_id a = i)
                       && match tenantId with Some t => bool_decide (a_tenantId a = t) | None => true end)
    [asset_row "usd" "USD" "operator"; asset_row "other-usd" "USD" "other"].

Definition accounting {X} : AccountingService X :=
  {| createLiquidityAccount a _ := ret a;
     createLiquidityAndLinkedSettlementAccount a _ := ret a;
     getBalance _ := ret None; getTotalSent _ := ret None; getAccountsTotalSent _ := ret [];
     getTotalReceived _ := ret None; getAccountsTotalReceived _ := ret [];
     getSettlementBalance _ := ret None; createTransfer _ := ret (Err UnknownError);
     createDeposit _ := ret None; createWithdrawal _ := ret None;
     postWithdrawal _ := ret None; voidWithdrawal _ := ret None |}.
Definition services (X : Type) : PeerServices X := {|
  isValidIlpAddress s := negb (bool_decide (s = ""%string));
  parse_url s := if String.prefix "https://" s
                 then Some {| protocol := "https:"; hostname := String.substring 8 100 s |} else None;
  assetService_get i tenantId := ret (find_asset i tenantId);
  asset_fetch i := ret (find_asset i None);
  peer_accounting := accounting;
  toAsset a := {| asset_id := a_id a; asset_code := Some (a_code a); asset_scale := Some (a_scale a);
                  asset_ledger := a_ledger a; asset_onDebit := None |};
  insertPeerEvent _ := ret tt;
  unwind _ after := after;
  random_index _ := 0%nat
|}.

Abbreviation NodeB := (PeerState (X := unit)).
Abbreviation NodeA := (PeerState (X := NodeB)).
#[export] Instance servicesB : PeerServices unit := services unit.
#[export] Instance servicesA : PeerServices NodeB := services NodeB.

Definition alice : IAppConfig :=
  {| ilpConnectorUrl := "https://alice.example"; ilpAddress := "test.alice"; instanceName := "Alice";
     operatorTenantId := "operator" |}.
Definition bob : IAppConfig :=
  {| ilpConnectorUrl := "https://bob.example"; ilpAddress := "test.bob"; instanceName := "Bob";
     operatorTenantId := "operator" |}.
Definition bobUrl : string := "https://bob.example/peering".

#[export] Instance peeringB : AutoPeeringServices unit := {|
  assetService_getAll := ret [asset_row "usd" "USD" "operator"; asset_row "other-usd" "USD" "other"];
  peering_post _ _ := ret PeeringOtherError |}.
#[export] Instance peeringA : AutoPeeringServices NodeB := {|
  assetService_getAll := ret [asset_row "usd" "USD" "operator"];
  peering_post url args := if bool_decide (url = bobUrl) then serve bob args
                           else ret (PeeringAxiosError (Some "ENOTFOUND"%string) None) |}.
#[export] Instance bob_remote : RemoteNode (UB := uuid) (X := NodeB) (XB := unit) bobUrl bob.
Proof. by refine {| remote := fun x => x |}. Defined.

Definition bob0 : NodeB :=
  {| db := {| peers := []; httpTokens := []; routingTable := ∅ |}; now := 1577836800000; fresh := 10; ext := tt |}.
Definition alice0 : NodeA :=
  {| db := {| peers := []; httpTokens := []; routingTable := ∅ |}; now := 1577836800000; fresh := 0; ext := bob0 |}.

Definition peering (assetId tenantId : string) (maxPacketAmount : option Z) : InitiatePeeringRequestArgs :=
  {| ip_peerUrl := bobUrl; ip_assetId := assetId; ip_name := None; ip_maxPacketAmount := maxPacketAmount;
     ip_liquidityToDeposit := Some 100; ip_liquidityThreshold := None; ip_tenantId := tenantId |}.
Definition initiate (args : InitiatePeeringRequestArgs) (s : NodeA) := initiatePeeringRequest alice args s.

(** An asset of another tenant is refused after the other node has accepted: it has a peer,
    this one has none. *)
Lemma one_sided :
  let '(r, s) := initiate (peering "other-usd" "operator" None) alice0 in
  r = Ret (Err AutoPeeringError.InvalidPeeringRequest) /\ peers (db s) = [] /\
  p_staticIlpAddress <$> peers (db (ext s)) = ["test.alice"%string].
Proof. by vm_compute. Qed.

(** The first asset of the code and scale may be of a tenant that is not the operator; the
    request is refused although the operator has such an asset. *)
Definition other_first : AutoPeeringServices unit := {|
  assetService_getAll := ret [asset_row "other-usd" "USD" "other"; asset_row "usd" "USD" "operator"];
  peering_post _ _ := ret PeeringOtherError |}.
Definition from_alice (token : string) : PeeringRequestArgs :=
  {| pr_staticIlpAddress := "test.alice"; pr_ilpConnectorUrl := "https://alice.example";
     pr_asset := ("USD"%string, 2); pr_httpToken := token; pr_maxPacketAmount := None; pr_name := None |}.
Definition is_accepted (r : outcome (res AutoPeeringError.t PeeringDetails)) : option AutoPeeringError.t :=
  match r with Ret (Err e) => Some e | _ => None end.
Lemma asset_of_other_tenant :
  is_accepted (acceptPeeringRequest bob (from_alice "secret") bob0).1 = None /\
  is_accepted (acceptPeeringRequest (AutoPeeringServices0 := other_first) bob (from_alice "secret") bob0).1
  = Some AutoPeeringError.InvalidPeeringRequest.
Proof. by vm_compute. Qed.

(** A peering is repeated: the amount that was stored as it is is now rounded. *)
Lemma amount_rounded :
  let args := peering "usd" "operator" (Some 9007199254740993) in
  let s1 := (initiate args alice0).2 in let s2 := (initiate args s1).2 in
  p_maxPacketAmount <$> peers (db s1) = [Some 9007199254740993] /\
  p_maxPacketAmount <$> peers (db s2) = [Some 9007199254740992].
Proof. by vm_compute. Qed.

(** Carol has a route to Alice; when Alice repeats her peering, Carol's row is changed. *)
Definition carol : CreatePeerOptions :=
  {| cp_http := {| h_incoming := Some ["carol"%string];
                   h_outgoing := {| authToken := "secret"; endpoint := "https://carol.example" |} |};
     cp_maxPacketAmount := None; cp_staticIlpAddress := "test.carol"; cp_name := None;
     cp_liquidityThreshold := None; cp_initialLiquidity := None; cp_routes := Some ["test.alice"%string];
     cp_assetId := "usd"; cp_tenantId := Some "operator"%string |}.
Definition endpoints (s : NodeB) : list (string * string) :=
  (fun p => (p_staticIlpAddress p, endpoint (p_outgoing p))) <$> peers (db s).
Lemma other_peer_updated :
  let s1 := (createPeer carol bob0).2 in
  let s2 := (acceptPeeringRequest bob (from_alice "secret") s1).2 in
  let s3 := (acceptPeeringRequest bob (from_alice "new") s2).2 in
  endpoints s2 = [("test.carol", "https://carol.example"); ("test.alice", "https://alice.example")]%string /\
  endpoints s3 = [("test.carol", "https://alice.example"); ("test.alice", "https://alice.example")]%string.
Proof. by vm_compute. Qed.
End PeeringExample.

#[local] Existing Instances ConcreteUuid.uuid ConcreteUuid.uuid_laws PeeringExample.servicesA PeeringExample.servicesB
  PeeringExample.peeringA PeeringExample.peeringB PeeringExample.bob_remote.

Lemma peering_is_mutual_witness :
  exists peer s', initiatePeeringRequest PeeringExample.alice (PeeringExample.peering "usd" "operator" None)
                    PeeringExample.alice0 = (Ret (Ok peer), s') /\
    exists aA aB rowA rowB tokenAB tokenBA,
      a_code aA = a_code aB /\ a_scale aA = a_scale aB /\ p_id rowA = p_id peer /\
      knows (db PeeringExample.alice0) s' rowA (ilpAddress PeeringExample.bob) tokenBA
        {| authToken := tokenAB; endpoint := ilpConnectorUrl PeeringExample.bob |} (a_id aA) /\
      knows (db (remote (ext PeeringExample.alice0))) (remote (ext s')) rowB (ilpAddress PeeringExample.alice) tokenAB
        {| authToken := tokenBA; endpoint := ilpConnectorUrl PeeringExample.alice |} (a_id aB).
Proof.
  destruct (initiatePeeringRequest PeeringExample.alice (PeeringExample.peering "usd" "operator" None)
              PeeringExample.alice0) as [r s'] eqn:Hrun.
  assert (exists peer, r = Ret (Ok peer)) as [peer ->].
  { destruct r as [[peer|e]|e]; [by exists peer|vm_compute in Hrun; discriminate Hrun..]. }
  exists peer, s'. split; [reflexivity|].
  apply (peering_is_mutual PeeringExample.bobUrl PeeringExample.alice PeeringExample.bob
           (PeeringExample.peering "usd" "operator" None) PeeringExample.alice0 PeeringExample.alice0 s'
           PeeringExample.bob0 peer).
  - intros i t x. by eexists _, _.
  - intros n Hn. exact Hn.
  - intros i t x. by eexists _, _.
  - intros n Hn. exact Hn.
  - split; [unfold dated, MAX_SAFE_INTEGER; simpl; lia|split; reflexivity].
  - apply rtc_refl.
  - split; [unfold dated, MAX_SAFE_INTEGER; simpl; lia|split; reflexivity].
  - apply rtc_refl.
  - reflexivity.
  - exact Hrun.
Defined.
