(* ===== verification/PaymentExamples.v ===== *)
(** * PaymentExamples: from a request for a grant to a payment

    The history of [AuthExamples] ends with a token; with it the client makes a payment
    at the backend of [OutgoingSpecs.Example], whose introspection client asks that
    authorization server.  The theorem that composes the two servers is applied to it. *)

From S2P Require Import Prelude Text Shared Service OpenPayments.
From S2P Require AuthAccess AuthServer AuthRoutes AuthHistory AuthExamples.
From S2P Require Import OpenPaymentsAuth OutgoingPayment OutgoingSpecs OutgoingRoutes.

Local Open Scope Z_scope.
Local Open Scope ts_scope.
Local Open Scope string_scope.

#[local] Existing Instance ConcreteUuid.uuid.
#[local] Existing Instance ConcreteUuid.uuid_laws.
#[local] Existing Instance AuthExamples.Example.random.
#[local] Existing Instance AuthExamples.Example.random_laws.

Module Example.

Definition Ledger : Type := OutgoingSpecs.Example.Ledger.
Definition deps : OutgoingDeps Ledger := OutgoingSpecs.Example.deps.
Definition server : Svc AuthServer.AuthDb unit := AuthExamples.Example.continued.
Definition auth (_ : Ledger) : Svc AuthServer.AuthDb unit := server.

(** The client of a server that does not change. *)
Definition ask (server : Svc AuthServer.AuthDb unit) (token : string)
    (access : list AuthAccess.AccessItem) : M Ledger AuthRoutes.TokenInfo :=
  fun x => ((AuthRoutes.introspectToken token (Some access) server).1, x).

Lemma ask_answers server token access x info x' :
  ask server token access x = (Ret info, x') ->
  (AuthRoutes.introspectToken token (Some access) server).1 = Ret info.
Proof. intros E. exact (f_equal fst E). Qed.

Definition introspection : string -> list AuthAccess.AccessItem -> M Ledger AuthRoutes.TokenInfo :=
  ask server.

(** One key, whose signatures are the texts ["signed"]. *)
Definition kid (key : string) : string := key.
Definition getKeyId (header : string) : option string := Some header.
Definition validateSignature (key request : string) : M Ledger bool :=
  ret (bool_decide (request = "signed")).
Definition getKeys (client : string) : M Ledger (list string) := ret ["key"].
Definition getOrPollByUrl (url : string) : M Ledger (option WalletAddress) :=
  ret (if bool_decide (url = "https://host/w") then Some OutgoingSpecs.Example.wallet else None).

Definition body : CreateBody :=
  {| b_walletAddress := "https://host/w"; b_metadata := None;
     b_source := FromQuote "https://host/tenant/quotes/q1" |}.

Definition post (authorization : option string) : M (Svc OutgoingDb Ledger) OutgoingPaymentWithSpentAmounts :=
  postOutgoingPayment deps "https://host/" introspection kid getKeyId validateSignature getKeys
    getOrPollByUrl "tenant" authorization (Some "key") "signed" body.

Definition token : option string := Some ("GNAP " ++ AuthExamples.Example.first_token).
Definition paid : Svc OutgoingDb Ledger := (post token OutgoingSpecs.Example.empty).2.

(** The payment is made; without the token there is none. *)
Lemma paid_rows : OutgoingSpecs.Example.rows paid = [("q1", Funding, 0%Z)] /\
  map grantId (payments (db paid)) = [Some AuthExamples.Example.grant_id].
Proof. vm_compute. done. Qed.

Lemma without_token :
  post None OutgoingSpecs.Example.empty
  = (Throw (OpenPaymentsServerRouteError 401 "Missing or invalid authorization header value"),
     OutgoingSpecs.Example.empty).
Proof. vm_compute. done. Qed.
End Example.

Lemma payment_needs_consent_witness :
  payments (db Example.paid) <> [] /\
  exists row g w x x',
    payments (db Example.paid) = (payments (db OutgoingSpecs.Example.empty) ++ [row])%list /\
    grantId row = Some (grant_id g) /\ within_grant Example.deps g row (payments (db Example.paid)) /\
    consents (Example.auth (ext OutgoingSpecs.Example.empty)) (b_walletAddress Example.body)
      (grant_id g) (limits g) /\
    walletAddressId row = wa_id w /\
    Example.getOrPollByUrl (b_walletAddress Example.body) x = (Ret (Some w), x').
Proof.
  assert (payments (db Example.paid) <> []) as Hne by (vm_compute; discriminate).
  split; [exact Hne|].
  destruct (payment_needs_consent Example.deps "https://host/" Example.introspection Example.kid
    Example.getKeyId Example.validateSignature Example.getKeys Example.getOrPollByUrl Example.auth
    (Example.ask_answers Example.server) AuthExamples.Example.config AuthExamples.Example.isUrl
    AuthExamples.Example.wallet_get AuthExamples.Example.hash OutgoingSpecs.Example.sent_nonneg
    OutgoingSpecs.Example.quotes_ok "tenant" Example.token (Some "key") "signed" Example.body
    OutgoingSpecs.Example.empty AuthExamples.Example.reach_continued ltac:(constructor)) as [Hsame|Hrow].
  - destruct (Hne Hsame).
  - exact Hrow.
Defined.
